(* ===== verification/_CoqProject ===== *)
-Q . S2P
Prelude.v
Memory.v
CString.v
Spinlock.v
Riscv.v
Kalloc.v
Vm.v
Uaccess.v
Proc.v
SleepWake.v
Bytes.v
State.v
Sleeplock.v
Copy.v
Console.v
Pipe.v
PipeFlow.v
Bio.v
Virtio.v
VirtioSpec.v
VirtioRing.v
VirtioProto.v
BioView.v
ConsoleSpec.v
BioClient.v
Log.v
Fs.v
File.v
Process.v
Exec.v
Syscall.v
Trap.v
TrapSpec.v
Boot.v
LogSpec.v
LogOps.v
FsTx.v
FsAlloc.v
FsInode.v
Icache.v
FsFile.v
FsBmap.v
FsWrite.v
FsTrunc.v
FsDir.v
FsIalloc.v
FsPath.v
FsNamex.v
LogCrash.v
FsOp.v
Umalloc.v
UmallocSpec.v
Sh.v
ShSpec.v
ShTree.v
ShRun.v
Mkfs.v
MkfsSpec.v
MkfsImage.v
MkfsFinal.v
MkfsBoot.v
User.v
Ulib.v
Uprintf.v
Progs.v
ProgsSpec.v
Grep.v
Pool.v
Primes.v
PrimesSpec.v
FindSpec.v
