(* ===== verification/Prelude.v ===== *)
(** * A verification development for the xv6 RISC-V system

    The program is a small Unix kernel in C (src/kernel): boot code, spin locks
    and sleep locks, a physical page allocator, Sv39 page tables, processes with
    scheduling, sleep and wakeup, a buffer cache over a virtio disk, a write-ahead
    log, inodes, directories and path names, open files and pipes, a console, the
    ELF loader, the system calls and the trap handlers.  Around it are the tool that
    builds the disk image (src/mkfs) and the user programs (src/user): a library with
    an allocator and printf, a shell, and small commands.

    ** The model

    Kernel code is a function on an explicit state, in the monad [M] of this file:
    a call returns ([Ok]), ends in panic() ([Panic], with the message), waits for
    something another thread has to do ([Blocked]), or is a loop cut off by its
    fuel ([NoFuel]).  [K S] (file Spinlock) is [M] on a [world S]: the harts with
    sstatus and struct cpu, the spin locks, and data [S].  A component is written
    against the part of the data it uses (class [Has]); State collects all the
    global data of the kernel in one record [kstate].  Numbers are [Z], cut to
    their C width where the code does ([u8] to [u64], [i32]).  Memory is a map from
    physical addresses to bytes (Memory), and page tables, free pages, pipes'
    pages and trap frames live in it; disk blocks and on-disk structs are byte
    lists (Bytes).  Pointers into global arrays are indices.

    The allocator of the user library works on the memory of a process, mkfs on a map
    of sectors, both in [M].  Other user programs are trees of system calls, whose
    continuations take the results ([prog] in Sh, [U] in User); [execs] (ShRun) and
    [run] (User) are what such a tree does, and [step] (Pool) what several of them do
    side by side.

    ** The files

    - Memory, Bytes: bytes, words, little-endian fields.
    - CString: string.c.  Riscv: macros of riscv.h, memlayout.h, param.h.
    - Spinlock: spinlock.c and the interrupt switches, sequentially, and (Module
      [Conc]) acquire and release of any number of harts as an interleaving
      semantics of their memory accesses.
    - Kalloc: kalloc.c.  Vm: vm.c.  Uaccess: copyin and copyout between user pages
      and byte lists.  Copy: either_copyin and either_copyout.
    - Proc: the process table, sleep, wakeup, kill, sched, yield and a pass of the
      scheduler.  SleepWake: sleep and wakeup of any number of threads as a step
      relation.  Process: allocproc, freeproc, fork, exit, wait, growproc and
      userinit.
    - State: the structs of the rest of the kernel and [kstate].
    - Sleeplock: sleeplock.c.  Pipe: pipe.c; PipeFlow: a writer that has to wait.  Console: uart.c, console.c, printf.c.
    - Bio: bio.c.  Virtio: virtio_disk.c.  Log: log.c.  Fs: fs.c.  File: file.c
      and pipealloc.  Exec: exec.c.  Syscall: syscall.c, sysproc.c, sysfile.c.
      Trap: trap.c, plic.c and forkret.  Boot: start.c and main.c.
    - Grep: user/grep.c.  Umalloc: umalloc.c, with
      sbrk as sys_sbrk has it.  Sh: sh.c, the parser on positions of the line.
      Ulib: the string routines of ulib.c.  Uprintf: user/printf.c.  User: system
      calls as a program makes them, and a machine to run it on.  Progs: cat, wc,
      echo, find, ls, init, kill, ln, mkdir, rm, sleep, trace and pingpong.
      Pool: concurrent processes with pipes, fork, exit and wait, one system call
      at a time.  Primes: user/primes.c.
    - Mkfs: mkfs/mkfs.c.
    - BioView, BioClient, LogSpec, LogOps, LogCrash, FsTx, FsAlloc, FsInode,
      Icache, FsFile, FsBmap, FsWrite, FsTrunc, FsDir, FsIalloc, FsPath, FsNamex, FsOp,
      ConsoleSpec, TrapSpec, UmallocSpec,
      ShSpec, ShTree, ShRun, MkfsSpec, MkfsImage, MkfsFinal, MkfsBoot, ProgsSpec, FindSpec,
      PrimesSpec: specifications and proofs about the models above.
    - VirtioSpec, VirtioRing, VirtioProto: the routines of the disk driver on their
      rings; a device that takes requests from the available ring and returns them on
      the used ring, as the comments of virtio.h and the virtio standard describe it;
      driver, device and interrupt handler as one transition system; its invariant.

    ** Interfaces

    What a component assumes of its surroundings is a class, and its theorems hold
    for every instance:
    - [Sched] (Sleeplock): what the other threads do while this one is switched
      out, and how often a loop around sleep() may be woken up in vain.
    - [VirtioDisk] (Bio): a completed disk request has read or written the block;
      the buffer cache, the log and the file system are proved against it.  The model of
      the driver is not an instance of the class, which abstracts from the rings, the
      process table and the other processes; VirtioProto proves that a whole call of
      virtio_disk_rw on a machine with one process has the effect the class asks for.
    - [UartDev], [VirtioHw], [PlicHw]: what the device registers answer.

    ** What is proved

    - Concurrency: mutual exclusion of spin locks in every interleaving, without a
      panic, and an owner that can always give the lock back; no wakeup is lost between sleep and wakeup; the disk driver and its
      device, with any requests under way, keep their rings and buffers consistent;
      the processes of primes print the primes in every order of their system
      calls, do not deadlock and end.
    - Memory: the page allocator is a stack of distinct pages; walk and mappages
      install exactly the translations asked for; copyin and copyout move bytes
      across pages or fail on an unmapped page.
    - Storage, bottom up: bread is a read of the disk seen through the cache;
      log_write collects a transaction, once per block; commit writes log blocks,
      header, home blocks and the empty header in this order; after a crash at any
      point of the writes of a commit or of a recovery, recovery yields all of the
      transaction or none of it.  On transactions ([tx] of FsTx): balloc and bfree on the bitmap,
      iupdate and ilock on dinodes, the reference counts of the inode cache,
      readi (to user, kernel and object destinations) and writei as operations on the
      bytes of a file, itrunc and iput
      giving back the blocks and the inode of a file, ialloc, dirlookup and dirlink on
      directory entries, namex as the walk along a path in the graph of directories.
      On whole operations (FsOp): what filewrite writes is on the disk when it returns,
      and so is the end of an unlinked file when fileclose drops its last descriptor;
      either is one transaction, all or nothing for a machine that stops.
    - Processes and traps: sleep, wakeup and kill on the process table; what
      usertrapret leaves for the trampoline; kerneltrap restores what it found.
    - Byte streams: a pipe is a bounded queue that never loses an unread byte, also for a
      writer that has to wait; the console is a line editor; grep
      prints the lines that its pattern matches.
    - The disk image: on at most 198 files that fit, mkfs succeeds, and its image has the
      superblock, an empty log, a bitmap of exactly the blocks handed out, inodes that
      share no block, the contents of the files and the root directory, in the terms
      of the theorems about the file system (MkfsFinal); a kernel that mounts the image
      finds every file by its path and reads its bytes, unless the root directory fills
      its last block (MkfsBoot).
    - User memory: whatever a program allocates (below 2 GB at a time) and frees, the free list is a sorted
      ring of blocks that do not touch, disjoint from the held ones, and nothing
      leaks; malloc and free return and leave the held blocks alone (UmallocSpec).
    - The shell: its parser ends on every line, with a complaint or a well-formed
      command (ShSpec); every tree of commands can be printed, and every spelling of it
      parses to the tree (ShTree); the shell runs for each line the programs of its
      tree, wired as redirections and pipes ask (ShRun).
    - Commands: printf writes the text its format denotes, atoi reads back what it
      prints; cat and wc do not depend on how reads are cut up; find lists exactly the
      files of the tree with the name.
    - Places where the code does not do what it means to: the reservation of
      begin_op is one block short, recovery unpins blocks it never pinned,
      writei reports success when its source can not be read, malloc of 2 GB and more
      passes the wrong size to sbrk, %l prints half of its argument, mkfs does not
      count its inodes, and a root directory that fills its blocks gets a size beyond
      them, which makes the kernel panic when the directory is read.

    ** Bounds and fuel

    A for loop over an array is a recursion over its indices and needs no fuel.
    Loops that chase pointers or depend on data run in [loop] with a number of
    rounds computed from the state (the size of a file over the block size, the
    length of a path, the number of buffers); the theorems above show that the
    routine returns, hence that the bound is enough.  Loops around sleep() have the
    bound [wakeups] of [Sched], waiting for the uart [uart_polls]; these end when
    the environment lets them.  The scheduler's endless loop is one pass.  In user
    code the fuel is an argument, and the theorems say how much is enough: the size of the
    process for malloc, the length of the line for the shell's parser, the number of
    lines for its main loop, the size of the file for cat, wc and grep, the entries of a
    directory for find, 36 rounds of each of 11 processes for primes.

    ** Not modelled

    The assembly (entry.S, kernelvec.S, swtch.S, trampoline.S): saving registers
    and switching stacks; swtch() appears as the parameter [resume].  The TLB and
    memory ordering other than at the atomic accesses of locks.  ramdisk.c is not
    part of the build.  Of the user programs, the tests; the command tree of the
    shell is a tree and not memory from malloc.  What the host answers to mkfs beyond
    the contents of the files.  Pool has room for all processes, files and pages.

    Modelled, and without a theorem of their own: the system calls that
    compose the file system's routines, filewrite in more than one transaction, and
    fork, exec and exit on page tables. *)
From stdpp Require Import prelude gmap strings.
From Stdlib Require Import ZArith Lia.

Open Scope Z_scope.
Declare Scope xv6_scope.
Delimit Scope xv6_scope with xv6.
Open Scope xv6_scope.

(** ** Outcomes of kernel code *)

(** What a kernel routine can do: return, call [panic(msg)] (which never
    returns), or stop because it would have to wait for another thread (a spin
    lock held elsewhere, a [sleep()]); [NoFuel] marks a pointer-chasing loop
    that was cut off by its fuel. *)
Inductive res (A : Type) :=
| Ok (a : A)
| Panic (msg : string)
| Blocked
| NoFuel.

Arguments Ok {A} a.
Arguments Panic {A} msg.
Arguments Blocked {A}.
Arguments NoFuel {A}.

(** Stateful kernel code over a state [W]. *)
Definition M (W A : Type) : Type := W -> res (A * W).

#[global] Instance M_ret W : MRet (M W) := fun A a w => Ok (a, w).

#[global] Instance M_bind W : MBind (M W) := fun A B f m w =>
  match m w with
  | Ok (a, w') => f a w'
  | Panic s => Panic s
  | Blocked => Blocked
  | NoFuel => NoFuel
  end.

Definition panic {W A} (msg : string) : M W A := fun _ => Panic msg.
Definition blocked {W A} : M W A := fun _ => Blocked.
Definition nofuel {W A} : M W A := fun _ => NoFuel.

(** A [for] loop over the elements of a list. *)
Fixpoint for_each {W A} (l : list A) (body : A -> M W ()) : M W () :=
  match l with
  | [] => mret ()
  | x :: l' => body x ;; for_each l' body
  end.

(** A [for] loop whose body may leave the loop with a value ([break] or
    [return]); [None] when the loop runs to its end. *)
Fixpoint for_break {W A B} (l : list A) (body : A -> M W (option B)) : M W (option B) :=
  match l with
  | [] => mret None
  | x :: l' =>
      r ← body x;
      match r with
      | Some b => mret (Some b)
      | None => for_break l' body
      end
  end.

(** A loop: the body says whether to go round again ([inl]) or to leave
    ([inr]).  The fuel bounds the number of rounds; where it is used, a lemma
    shows that it is enough. *)
Fixpoint loop {W X Y} (fuel : nat) (body : X -> M W (X + Y)) (x : X) : M W Y :=
  match fuel with
  | O => nofuel
  | S f =>
      r ← body x;
      match r with
      | inl x' => loop f body x'
      | inr y => mret y
      end
  end.

(** ** State components *)

(** [Has T S]: the state [S] has a component [T].  Code of one kernel part is
    written against the components it uses, so that it runs unchanged inside
    any larger state. *)
Class Has (T S : Type) := {
  getc : S -> T;
  putc : T -> S -> S;
  getc_putc : forall t s, getc (putc t s) = t;
  putc_getc : forall s, putc (getc s) s = s;
  putc_putc : forall t t' s, putc t (putc t' s) = putc t s;
}.

#[export] Hint Mode Has - ! : typeclass_instances.

#[export] Instance Has_refl T : Has T T | 0.
Proof. refine {| getc := fun t => t; putc := fun t _ => t |}; reflexivity. Defined.

#[export] Instance Has_fst A B : Has A (A * B) | 2.
Proof.
  refine {| getc := fst; putc := fun a p => (a, snd p) |};
  first [reflexivity | intros []; reflexivity].
Defined.

#[export] Instance Has_snd A B : Has B (A * B) | 2.
Proof.
  refine {| getc := snd; putc := fun b p => (fst p, b) |};
  first [reflexivity | intros []; reflexivity].
Defined.

(** ** Machine integers *)

(** [u8], [u16], [u32], [u64]: the value an unsigned C object of that width holds after
    an assignment; [i32]: the same for [int]. *)
Definition u8 (z : Z) : Z := z mod 2 ^ 8.
Definition u16 (z : Z) : Z := z mod 2 ^ 16.
Definition u32 (z : Z) : Z := z mod 2 ^ 32.
Definition u64 (z : Z) : Z := z mod 2 ^ 64.
Definition i32 (z : Z) : Z := (z + 2 ^ 31) mod 2 ^ 32 - 2 ^ 31.

Lemma u8_id z : 0 <= z < 2 ^ 8 -> u8 z = z.
Proof. apply Z.mod_small. Qed.
Lemma u16_id z : 0 <= z < 2 ^ 16 -> u16 z = z.
Proof. apply Z.mod_small. Qed.
Lemma u32_id z : 0 <= z < 2 ^ 32 -> u32 z = z.
Proof. apply Z.mod_small. Qed.
Lemma u64_id z : 0 <= z < 2 ^ 64 -> u64 z = z.
Proof. apply Z.mod_small. Qed.
Lemma i32_id z : - 2 ^ 31 <= z < 2 ^ 31 -> i32 z = z.
Proof. intros H. unfold i32. rewrite Z.mod_small; lia. Qed.

Lemma u8_range z : 0 <= u8 z < 2 ^ 8.
Proof. apply Z.mod_pos_bound. lia. Qed.
Lemma u32_range z : 0 <= u32 z < 2 ^ 32.
Proof. apply Z.mod_pos_bound. lia. Qed.
Lemma u32_inj a j k : 0 <= j < 2 ^ 32 -> 0 <= k < 2 ^ 32 -> u32 (a + j) = u32 (a + k) -> j = k.
Proof.
  intros Hj Hk E. unfold u32 in E.
  assert (E2 : (j - k) mod 2 ^ 32 = 0).
  { replace (j - k) with ((a + j) - (a + k)) by lia. rewrite Zminus_mod, E, Z.sub_diag. done. }
  apply Z.mod_divide in E2 as [c Hc]; lia.
Qed.
Lemma u64_range z : 0 <= u64 z < 2 ^ 64.
Proof. apply Z.mod_pos_bound. lia. Qed.
Lemma i32_range z : - 2 ^ 31 <= i32 z < 2 ^ 31.
Proof.
  unfold i32. pose proof (Z.mod_pos_bound (z + 2 ^ 31) (2 ^ 32) ltac:(lia)). lia.
Qed.

(** ** Arrays of equal elements *)

Lemma lookup_repeat {A} (x : A) n i : (i < n)%nat -> repeat x n !! i = Some x.
Proof.
  revert i. induction n as [|n IH]; intros i Hi; [lia|]. destruct i; [done|]. apply IH. lia.
Qed.

(** ** Automation *)

Create HintDb xv6.
Create Rewrite HintDb xv6.
#[export] Hint Rewrite @getc_putc @putc_getc @putc_putc : xv6.

(** Case analysis on the boolean comparisons of the code. *)
Ltac bcase :=
  repeat (case_match || case_decide || case_bool_decide);
  repeat match goal with
  | H : (_ && _)%bool = true |- _ => apply andb_true_iff in H as [??]
  | H : (_ && _)%bool = false |- _ => apply andb_false_iff in H
  | H : (_ || _)%bool = false |- _ => apply orb_false_iff in H as [??]
  | H : (_ || _)%bool = true |- _ => apply orb_true_iff in H
  | H : negb _ = true |- _ => apply negb_true_iff in H
  | H : negb _ = false |- _ => apply negb_false_iff in H
  | H : (_ =? _)%Z = true |- _ => apply Z.eqb_eq in H
  | H : (_ =? _)%Z = false |- _ => apply Z.eqb_neq in H
  | H : (_ <? _)%Z = true |- _ => apply Z.ltb_lt in H
  | H : (_ <? _)%Z = false |- _ => apply Z.ltb_ge in H
  | H : (_ <=? _)%Z = true |- _ => apply Z.leb_le in H
  | H : (_ <=? _)%Z = false |- _ => apply Z.leb_gt in H
  end.

(** Use a known result of the first command of a sequence. *)
Lemma bind_Ok {W A B} (m : M W A) (f : A -> M W B) w a w' :
  m w = Ok (a, w') -> (x ← m; f x) w = f a w'.
Proof. intros H. unfold mbind, M_bind. by rewrite H. Qed.

Lemma bind_Panic {W A B} (m : M W A) (f : A -> M W B) w s :
  m w = Panic s -> (x ← m; f x) w = Panic s.
Proof. intros H. unfold mbind, M_bind. by rewrite H. Qed.

(** Invert a successful run of a sequence. *)
Lemma bind_inv {W A B} (m : M W A) (f : A -> M W B) w b w'' :
  (x ← m; f x) w = Ok (b, w'') ->
  exists a w', m w = Ok (a, w') /\ f a w' = Ok (b, w'').
Proof.
  unfold mbind, M_bind. destruct (m w) as [[a w']|s| |] eqn:E; try discriminate. eauto.
Qed.

(** Sequencing is associative: long bodies can be split into lemmas. *)
Lemma bind_assoc {W A B C} (m : M W A) (f : A -> M W B) (g : B -> M W C) w :
  (y ← (x ← m; f x); g y) w = (x ← m; y ← f x; g y) w.
Proof.
  unfold mbind, M_bind. by destruct (m w) as [[a w']| | |].
Qed.

(** One round of a loop. *)
Lemma loop_next {W X Y} f (body : X -> M W (X + Y)) x w x' w' :
  body x w = Ok (inl x', w') -> loop (S f) body x w = loop f body x' w'.
Proof. intros H. cbn [loop]. by rewrite (bind_Ok _ _ _ _ _ H). Qed.
Lemma loop_exit {W X Y} f (body : X -> M W (X + Y)) x w y w' :
  body x w = Ok (inr y, w') -> loop (S f) body x w = Ok (y, w').
Proof. intros H. cbn [loop]. by rewrite (bind_Ok _ _ _ _ _ H). Qed.

(** Step over a command with a known outcome [E]. *)
Ltac kdo E := rewrite (bind_Ok _ _ _ _ _ E).

(** [minv H]: turn [H : (c1 ;; c2 ;; ...) w = Ok _] into the chain of the
    results of its commands. *)
Ltac minv1 H :=
  let a := fresh "a" in let w := fresh "w" in let H1 := fresh "Hr" in
  apply bind_inv in H; destruct H as (a & w & H1 & H).
Ltac minv H := repeat minv1 H.
