(* ===== verification/Memory.v ===== *)
(** * Byte-addressed memory

    Physical memory as the kernel sees it through its direct map: a finite map
    from addresses to bytes, little-endian words on top of it, and the frame
    lemmas the allocator, the page tables and the string routines share. *)
From S2P Require Import Prelude.
From stdpp Require Import prelude gmap.
From Stdlib Require Import ZArith Lia.
Open Scope Z_scope.

Abbreviation mem := (gmap Z Z).

(** Read and write one byte ([char] is unsigned on RISC-V). *)
Definition rd (m : mem) (a : Z) : Z := u8 (default 0 (m !! a)).
Definition wr (m : mem) (a v : Z) : mem := <[a := v]> m.

(** Read and write [k] bytes, least significant first. *)
Fixpoint load (k : nat) (m : mem) (a : Z) : Z :=
  match k with
  | O => 0
  | S k' => rd m a + 256 * load k' m (a + 1)
  end.

Fixpoint store (k : nat) (m : mem) (a v : Z) : mem :=
  match k with
  | O => m
  | S k' => store k' (wr m a (v mod 256)) (a + 1) (v / 256)
  end.

Definition load64 (m : mem) (a : Z) : Z := load 8 m a.
Definition store64 (m : mem) (a v : Z) : mem := store 8 m a v.

(** Two memories hold the same bytes on [[a, a+n)]. *)
Definition same_on (m m' : mem) (a n : Z) : Prop :=
  forall b, a <= b < a + n -> rd m b = rd m' b.

(** ** Bytes *)

Lemma rd_range m a : 0 <= rd m a < 256.
Proof. apply u8_range. Qed.

Lemma rd_wr m a v b : rd (wr m a v) b = if bool_decide (b = a) then u8 v else rd m b.
Proof.
  unfold rd, wr. case_bool_decide; subst.
  - by rewrite lookup_insert_eq.
  - by rewrite lookup_insert_ne.
Qed.

Lemma rd_wr_eq m a v : rd (wr m a v) a = u8 v.
Proof. rewrite rd_wr. by rewrite bool_decide_true. Qed.

Lemma rd_wr_ne m a v b : a <> b -> rd (wr m a v) b = rd m b.
Proof. intros. rewrite rd_wr. by rewrite bool_decide_false. Qed.

Lemma u8_rd m a : u8 (rd m a) = rd m a.
Proof. apply u8_id, rd_range. Qed.

(** ** Words *)

Lemma load_range k m a : 0 <= load k m a < 256 ^ Z.of_nat k.
Proof.
  revert a. induction k as [|k IH]; intros a; cbn [load]; [lia|].
  specialize (IH (a + 1)). pose proof (rd_range m a).
  replace (Z.of_nat (S k)) with (Z.succ (Z.of_nat k)) by lia.
  rewrite Z.pow_succ_r by lia. lia.
Qed.

Lemma load64_range m a : 0 <= load64 m a < 2 ^ 64.
Proof. pose proof (load_range 8 m a). unfold load64. lia. Qed.

Lemma load_ext k m m' a :
  same_on m m' a (Z.of_nat k) -> load k m a = load k m' a.
Proof.
  revert a. induction k as [|k IH]; intros a H; cbn [load]; [done|].
  rewrite (H a) by lia. rewrite (IH (a + 1)); [done|].
  intros b Hb. apply H. lia.
Qed.

Lemma rd_store_out k m a v b :
  b < a \/ a + Z.of_nat k <= b -> rd (store k m a v) b = rd m b.
Proof.
  revert m a v. induction k as [|k IH]; intros m a v H; cbn [store]; [done|].
  rewrite IH by lia. apply rd_wr_ne. lia.
Qed.

Lemma load_store_eq k m a v :
  0 <= v < 256 ^ Z.of_nat k -> load k (store k m a v) a = v.
Proof.
  revert m a v. induction k as [|k IH]; intros m a v H; cbn [store load].
  - change (256 ^ Z.of_nat 0) with 1 in H. lia.
  - replace (Z.of_nat (S k)) with (Z.succ (Z.of_nat k)) in H by lia.
    rewrite Z.pow_succ_r in H by lia.
    rewrite rd_store_out by lia. rewrite rd_wr_eq.
    assert (Hm : 0 <= v mod 256 < 256) by (apply Z.mod_pos_bound; lia).
    rewrite u8_id by lia.
    rewrite IH by (split; [apply Z.div_pos; lia | apply Z.div_lt_upper_bound; lia]).
    pose proof (Z.div_mod v 256). lia.
Qed.

Lemma load_store_ne k k' m a b v :
  b + Z.of_nat k <= a \/ a + Z.of_nat k' <= b ->
  load k (store k' m a v) b = load k m b.
Proof. intros H. apply load_ext. intros c Hc. apply rd_store_out. lia. Qed.

Lemma load64_store64_eq m a v : 0 <= v < 2 ^ 64 -> load64 (store64 m a v) a = v.
Proof. intros H. apply load_store_eq. lia. Qed.

Lemma load64_store64_ne m a b v :
  b + 8 <= a \/ a + 8 <= b -> load64 (store64 m a v) b = load64 m b.
Proof. intros H. apply load_store_ne. lia. Qed.

Lemma rd_store64_out m a v b : b < a \/ a + 8 <= b -> rd (store64 m a v) b = rd m b.
Proof. intros H. apply rd_store_out. lia. Qed.

Lemma load_zero k m a :
  (forall b, a <= b < a + Z.of_nat k -> rd m b = 0) -> load k m a = 0.
Proof.
  revert a. induction k as [|k IH]; intros a H; cbn [load]; [done|].
  rewrite (H a), IH by (intros; (apply H || idtac); lia). lia.
Qed.

Lemma load64_ext m m' a : same_on m m' a 8 -> load64 m a = load64 m' a.
Proof. apply (load_ext 8). Qed.

#[global] Opaque load64 store64.
#[global] Instance same_on_refl a n : Reflexive (fun m m' => same_on m m' a n).
Proof. by intros m b. Qed.

Lemma same_on_trans m1 m2 m3 a n :
  same_on m1 m2 a n -> same_on m2 m3 a n -> same_on m1 m3 a n.
Proof. intros H1 H2 b Hb. rewrite H1 by done. by apply H2. Qed.

Lemma same_on_sub m m' a n b k :
  same_on m m' a n -> a <= b -> b + k <= a + n -> same_on m m' b k.
Proof. intros H ?? c Hc. apply H. lia. Qed.

Lemma store64_same_on m a v b n :
  a + 8 <= b \/ b + n <= a -> same_on (store64 m a v) m b n.
Proof. intros H c Hc. apply rd_store64_out. lia. Qed.

#[export] Hint Resolve store64_same_on rd_range : xv6.
