(* ===== verification/CString.v ===== *)
(** * kernel/string.c: memory and string routines

    Each C loop is a recursive function over the same memory; pointers are
    addresses.  [Z.to_nat] of the length argument bounds the counted loops;
    [strlen], which has no bound in C, takes fuel, and [strlen_spec] says how
    much is enough. *)
From S2P Require Import Prelude Memory.
From stdpp Require Import prelude gmap.
From Stdlib Require Import ZArith Lia.
Open Scope Z_scope.

Module KString.

(** [for(i = 0; i < n; i++) cdst[i] = c;] *)
Fixpoint memset_loop (m : mem) (cdst c i : Z) (k : nat) : mem :=
  match k with
  | O => m
  | S k' => memset_loop (wr m (cdst + i) c) cdst c (i + 1) k'
  end.
Definition memset (m : mem) (dst c n : Z) : mem := memset_loop m dst c 0 (Z.to_nat n).

(** [while(n-- > 0){ if( *s1 != *s2) return *s1 - *s2; s1++, s2++; } return 0;] *)
Fixpoint memcmp_loop (m : mem) (s1 s2 : Z) (n : nat) : Z :=
  match n with
  | O => 0
  | S n' =>
      if negb (rd m s1 =? rd m s2) then rd m s1 - rd m s2
      else memcmp_loop m (s1 + 1) (s2 + 1) n'
  end.
Definition memcmp (m : mem) (v1 v2 n : Z) : Z := memcmp_loop m v1 v2 (Z.to_nat n).

(** [while(n-- > 0) *d++ = *s++;] *)
Fixpoint copy_up (m : mem) (d s : Z) (n : nat) : mem :=
  match n with
  | O => m
  | S n' => copy_up (wr m d (rd m s)) (d + 1) (s + 1) n'
  end.
(** [while(n-- > 0) *--d = *--s;] *)
Fixpoint copy_down (m : mem) (d s : Z) (n : nat) : mem :=
  match n with
  | O => m
  | S n' => copy_down (wr m (d - 1) (rd m (s - 1))) (d - 1) (s - 1) n'
  end.
Definition memmove (m : mem) (dst src n : Z) : mem :=
  if (src <? dst) && (src + n >? dst)
  then copy_down m (dst + n) (src + n) (Z.to_nat n)
  else copy_up m dst src (Z.to_nat n).

Definition memcpy (m : mem) (dst src n : Z) : mem := memmove m dst src n.

(** [while(n > 0 && *p && *p == *q) n--, p++, q++; if(n == 0) return 0;
    return (uchar)*p - (uchar)*q;] *)
Fixpoint strncmp_loop (m : mem) (p q : Z) (n : nat) : Z :=
  match n with
  | O => 0
  | S n' =>
      if negb (rd m p =? 0) && (rd m p =? rd m q)
      then strncmp_loop m (p + 1) (q + 1) n'
      else rd m p - rd m q
  end.
Definition strncmp (m : mem) (p q n : Z) : Z := strncmp_loop m p q (Z.to_nat n).

(** [while(n-- > 0) *s++ = 0;] *)
Fixpoint zero_fill (m : mem) (s : Z) (n : nat) : mem :=
  match n with
  | O => m
  | S n' => zero_fill (wr m s 0) (s + 1) n'
  end.
(** [while(n-- > 0 && ( *s++ = *t++) != 0) ;] and then the fill loop. *)
Fixpoint strncpy_loop (m : mem) (s t : Z) (n : nat) : mem :=
  match n with
  | O => m
  | S n' =>
      let c := rd m t in
      let m' := wr m s c in
      if negb (c =? 0) then strncpy_loop m' (s + 1) (t + 1) n'
      else zero_fill m' (s + 1) n'
  end.
Definition strncpy (m : mem) (s t n : Z) : mem := strncpy_loop m s t (Z.to_nat n).

(** [while(--n > 0 && ( *s++ = *t++) != 0) ; *s = 0;], with [n] already
    decremented once for the next test. *)
Fixpoint safestrcpy_loop (m : mem) (s t : Z) (n : nat) : mem :=
  match n with
  | O => wr m s 0
  | S n' =>
      let c := rd m t in
      let m' := wr m s c in
      if negb (c =? 0) then safestrcpy_loop m' (s + 1) (t + 1) n'
      else wr m' (s + 1) 0
  end.
Definition safestrcpy (m : mem) (s t n : Z) : mem :=
  if n <=? 0 then m else safestrcpy_loop m s t (Z.to_nat (n - 1)).

(** [for(n = 0; s[n]; n++) ; return n;] *)
Fixpoint strlen_loop (m : mem) (s n : Z) (fuel : nat) : option Z :=
  match fuel with
  | O => None
  | S f => if rd m (s + n) =? 0 then Some n else strlen_loop m s (n + 1) f
  end.
Definition strlen (fuel : nat) (m : mem) (s : Z) : option Z := strlen_loop m s 0 fuel.

End KString.
Import KString.

(** The NUL-terminated string [l] is stored at address [a]. *)
Fixpoint is_cstr (m : mem) (a : Z) (l : list Z) : Prop :=
  match l with
  | [] => rd m a = 0
  | x :: l' => rd m a = x /\ x <> 0 /\ is_cstr m (a + 1) l'
  end.

(** The [n] bytes at [a]. *)
Fixpoint bytes_at (m : mem) (a : Z) (n : nat) : list Z :=
  match n with
  | O => []
  | S n' => rd m a :: bytes_at m (a + 1) n'
  end.

(** ** Filling and copying *)

Lemma memset_loop_rd k m d c i a :
  rd (memset_loop m d c i k) a =
  if bool_decide (d + i <= a < d + i + Z.of_nat k) then u8 c else rd m a.
Proof.
  revert m i. induction k as [|k IH]; intros m i; cbn [memset_loop].
  - rewrite bool_decide_false by lia. done.
  - rewrite IH. rewrite rd_wr. repeat case_bool_decide; (done || lia).
Qed.

Lemma rd_memset m d c n a : 0 <= n ->
  rd (memset m d c n) a = if bool_decide (d <= a < d + n) then u8 c else rd m a.
Proof.
  intros Hn. unfold memset. rewrite memset_loop_rd.
  repeat case_bool_decide; (done || lia).
Qed.

Lemma memset_same_on m d c n a k : 0 <= n ->
  d + n <= a \/ a + k <= d -> same_on (memset m d c n) m a k.
Proof.
  intros ?? b Hb. rewrite rd_memset by done. rewrite bool_decide_false by lia. done.
Qed.

Lemma load64_memset_zero m d n a : 0 <= n ->
  d <= a -> a + 8 <= d + n -> load64 (memset m d 0 n) a = 0.
Proof.
  intros. apply (load_zero 8). intros b Hb.
  rewrite rd_memset by done. rewrite bool_decide_true by lia. done.
Qed.

Lemma copy_up_rd n m d s a :
  d <= s \/ s + Z.of_nat n <= d ->
  rd (copy_up m d s n) a =
  if bool_decide (d <= a < d + Z.of_nat n) then rd m (s + (a - d)) else rd m a.
Proof.
  revert m d s. induction n as [|n IH]; intros m d s H; cbn [copy_up].
  - rewrite bool_decide_false by lia. done.
  - rewrite IH by lia. rewrite !rd_wr, u8_rd.
    repeat case_bool_decide; try lia; try done.
    + f_equal; lia.
    + f_equal; lia.
Qed.

Lemma copy_down_rd n m d s a :
  s <= d ->
  rd (copy_down m d s n) a =
  if bool_decide (d - Z.of_nat n <= a < d) then rd m (s - (d - a)) else rd m a.
Proof.
  revert m d s. induction n as [|n IH]; intros m d s H; cbn [copy_down].
  - rewrite bool_decide_false by lia. done.
  - rewrite IH by lia. rewrite !rd_wr, u8_rd.
    repeat case_bool_decide; try lia; try done.
    + f_equal; lia.
    + f_equal; lia.
Qed.

Lemma rd_memmove m dst src n a : 0 <= n ->
  rd (memmove m dst src n) a =
  if bool_decide (dst <= a < dst + n) then rd m (src + (a - dst)) else rd m a.
Proof.
  intros Hn. unfold memmove.
  destruct ((src <? dst) && (src + n >? dst)) eqn:E.
  - apply andb_true_iff in E as [E1%Z.ltb_lt E2].
    rewrite copy_down_rd by lia.
    repeat case_bool_decide; try lia; try done. f_equal; lia.
  - rewrite copy_up_rd.
    + repeat case_bool_decide; (done || lia).
    + apply andb_false_iff in E as [E%Z.ltb_ge|E]; [lia|].
      rewrite Z.gtb_ltb in E. apply Z.ltb_ge in E. lia.
Qed.

(** ** Strings *)

Lemma is_cstr_ext m m' a l :
  same_on m m' a (Z.of_nat (length l) + 1) -> is_cstr m a l -> is_cstr m' a l.
Proof.
  revert a. induction l as [|x l IH]; intros a H; cbn [is_cstr length] in *.
  - rewrite (H a) by lia. done.
  - intros (Hx & Hnz & Hl). rewrite <- (H a) by lia. split_and!; [done..|].
    apply IH; [|done]. eapply same_on_sub; [done|lia..].
Qed.

Lemma strlen_loop_spec m s n l fuel :
  is_cstr m (s + n) l -> (length l < fuel)%nat ->
  strlen_loop m s n fuel = Some (n + Z.of_nat (length l)).
Proof.
  revert n fuel. induction l as [|x l IH]; intros n [|f] H Hf; cbn [length] in Hf; try lia;
    cbn [strlen_loop is_cstr] in *.
  - rewrite H. cbn. f_equal. lia.
  - destruct H as (Hx & Hnz & H). rewrite (proj2 (Z.eqb_neq _ _)) by lia.
    rewrite IH; [f_equal; cbn [length]; lia| |lia]. by rewrite Z.add_assoc.
Qed.

Lemma strncmp_loop_eq m n p q lp lq :
  is_cstr m p lp -> is_cstr m q lq ->
  strncmp_loop m p q n = 0 <-> take n lp = take n lq.
Proof.
  revert p q lp lq. induction n as [|n IH]; intros p q lp lq Hp Hq; [done|].
  cbn [strncmp_loop].
  destruct lp as [|x lp], lq as [|y lq]; cbn [is_cstr take] in *;
    repeat match goal with H : _ /\ _ |- _ => destruct H end.
  - rewrite Hp, Hq. done.
  - rewrite Hp. cbn. split; [lia|done].
  - rewrite Hq. rewrite andb_comm. rewrite (proj2 (Z.eqb_neq (rd m p) 0)) by lia.
    cbn. split; [lia|done].
  - destruct (Z.eqb_spec (rd m p) (rd m q)) as [E|E].
    + rewrite (proj2 (Z.eqb_neq _ 0)) by lia. cbn [negb andb].
      rewrite IH by done. split; [intros ->; congruence|congruence].
    + rewrite andb_false_r. split; [lia|congruence].
Qed.

Lemma zero_fill_rd n m s a :
  rd (zero_fill m s n) a =
  if bool_decide (s <= a < s + Z.of_nat n) then 0 else rd m a.
Proof.
  revert m s. induction n as [|n IH]; intros m s; cbn [zero_fill].
  - rewrite bool_decide_false by lia. done.
  - rewrite IH, rd_wr. repeat case_bool_decide; try lia; try done.
Qed.

(** A copy loop reads only bytes it has not overwritten. *)
Lemma is_cstr_wr m s t l v :
  s < t \/ t + Z.of_nat (length l) < s ->
  is_cstr m t l -> is_cstr (wr m s v) t l.
Proof.
  intros H. apply is_cstr_ext. intros b Hb. symmetry. apply rd_wr_ne. lia.
Qed.

Lemma strncpy_loop_rd n m s t l a :
  is_cstr m t l ->
  s + Z.of_nat n <= t \/ t + Z.of_nat (length l) < s ->
  rd (strncpy_loop m s t n) a =
  if bool_decide (s <= a < s + Z.of_nat n)
  then default 0 (l !! Z.to_nat (a - s)) else rd m a.
Proof.
  revert m s t l. induction n as [|n IH]; intros m s t l Hl Hd; cbn [strncpy_loop].
  - rewrite bool_decide_false by lia. done.
  - destruct l as [|x l]; cbn [is_cstr length] in *.
    + rewrite Hl. cbn [negb Z.eqb]. rewrite zero_fill_rd, rd_wr.
      rewrite lookup_nil. repeat case_bool_decide; (lia || done).
    + destruct Hl as (Hx & Hnz & Hl). rewrite Hx.
      rewrite (proj2 (Z.eqb_neq x 0)) by done. cbn [negb].
      rewrite (IH _ _ _ l); [|apply is_cstr_wr; [lia|done]|lia].
      rewrite rd_wr. repeat case_bool_decide; try lia; try done.
      * replace (Z.to_nat (a - s)) with (S (Z.to_nat (a - (s + 1)))) by lia. done.
      * subst a. rewrite Z.sub_diag. change (Z.to_nat 0) with 0%nat. simpl.
        apply u8_id. pose proof (rd_range m t). lia.
Qed.

Lemma safestrcpy_loop_cstr n m s t l :
  is_cstr m t l ->
  s + Z.of_nat n < t \/ t + Z.of_nat (length l) < s ->
  is_cstr (safestrcpy_loop m s t n) s (take n l) /\
  (forall a, a < s \/ s + Z.of_nat n < a -> rd (safestrcpy_loop m s t n) a = rd m a).
Proof.
  revert m s t l. induction n as [|n IH]; intros m s t l Hl Hd; cbn [safestrcpy_loop].
  - cbn. split; [apply rd_wr_eq|]. intros a Ha. apply rd_wr_ne. lia.
  - destruct l as [|x l]; cbn [is_cstr length take] in *.
    + rewrite Hl. cbn [negb Z.eqb]. split.
      * rewrite rd_wr_ne by lia. apply rd_wr_eq.
      * intros a Ha. rewrite !rd_wr_ne by lia. done.
    + destruct Hl as (Hx & Hnz & Hl). rewrite Hx.
      rewrite (proj2 (Z.eqb_neq x 0)) by done. cbn [negb].
      edestruct (IH (wr m s x) (s + 1) (t + 1) l) as [IH1 IH2];
        [apply is_cstr_wr; [lia|done]|lia|].
      split.
      * rewrite IH2 by lia. rewrite rd_wr_eq.
        split_and!; [|done..]. apply u8_id. pose proof (rd_range m t). lia.
      * intros a Ha. rewrite IH2 by lia. apply rd_wr_ne. lia.
Qed.

(** ** Properties *)

(** memmove moves [n] bytes as if through a temporary buffer: every
    destination byte gets the value its source byte had before the call, also
    when the ranges overlap, and no other byte changes. *)
Theorem memmove_correct m dst src n a (Hn : 0 <= n) :
  rd (memmove m dst src n) a =
  if bool_decide (dst <= a < dst + n) then rd m (src + (a - dst)) else rd m a.
Proof. by apply rd_memmove. Qed.

Lemma memmove_correct_witness :
  let m := store 4 ∅ 100 (256 * 2 + 1) in
  0 <= 3 /\ rd (memmove m 101 100 3) 102 = 2.
Proof.
  split; [lia|]. rewrite (memmove_correct _ 101 100 3 102 ltac:(lia)). vm_compute. done.
Defined.

(** safestrcpy copies at most [n-1] characters of the source string and
    always NUL-terminates; it writes nothing outside the [n]-byte destination. *)
Theorem safestrcpy_correct m s t n l
  (Hl : is_cstr m t l) (Hn : 0 < n)
  (Hd : s + n <= t \/ t + Z.of_nat (length l) < s) :
  is_cstr (safestrcpy m s t n) s (take (Z.to_nat (n - 1)) l) /\
  (forall a, a < s \/ s + n <= a -> rd (safestrcpy m s t n) a = rd m a).
Proof.
  unfold safestrcpy. rewrite (proj2 (Z.leb_gt _ _)) by done.
  destruct (safestrcpy_loop_cstr (Z.to_nat (n - 1)) m s t l) as [H1 H2]; [done|lia|].
  split; [done|]. intros a Ha. apply H2. lia.
Qed.

Lemma safestrcpy_correct_witness :
  let m := store 4 ∅ 100 (65 + 256 * 66 + 65536 * 67) in
  is_cstr (safestrcpy m 200 100 3) 200 [65; 66].
Proof.
  intros m. destruct (safestrcpy_correct m 200 100 3 [65; 66; 67]) as [H _].
  - vm_compute. repeat split; discriminate.
  - lia.
  - cbn. lia.
  - exact H.
Defined.

(** strncpy fills exactly [n] bytes: the string's characters, then zeros
    (so a name of [n] or more characters is stored without a terminator). *)
Theorem strncpy_correct m s t n l a
  (Hl : is_cstr m t l) (Hn : 0 <= n)
  (Hd : s + n <= t \/ t + Z.of_nat (length l) < s) :
  rd (strncpy m s t n) a =
  if bool_decide (s <= a < s + n) then default 0 (l !! Z.to_nat (a - s)) else rd m a.
Proof.
  unfold strncpy. rewrite (strncpy_loop_rd _ _ _ _ l) by (done || lia).
  by rewrite Z2Nat.id.
Qed.

Lemma strncpy_correct_witness :
  let m := store 4 ∅ 100 (65 + 256 * 66) in
  rd (strncpy m 200 100 14) 201 = 66 /\ rd (strncpy m 200 100 14) 213 = 0.
Proof.
  intros m. assert (Hl : is_cstr m 100 [65; 66]) by (vm_compute; repeat split; discriminate).
  split.
  - rewrite (strncpy_correct m 200 100 14 [65; 66] 201 Hl); [done|lia|cbn; lia].
  - rewrite (strncpy_correct m 200 100 14 [65; 66] 213 Hl); [done|lia|cbn; lia].
Defined.

(** strncmp returns 0 exactly when the two strings agree on their first [n]
    characters, and strlen returns the number of characters before the NUL
    (fuel: one more than the length). *)
Theorem strncmp_strlen_correct m p q lp lq n
  (Hp : is_cstr m p lp) (Hq : is_cstr m q lq) (Hn : 0 <= n) :
  (strncmp m p q n = 0 <-> take (Z.to_nat n) lp = take (Z.to_nat n) lq) /\
  (forall fuel, (length lp < fuel)%nat -> strlen fuel m p = Some (Z.of_nat (length lp))).
Proof.
  split; [by apply strncmp_loop_eq|].
  intros fuel Hf. unfold strlen. apply (strlen_loop_spec m p 0 lp); [by rewrite Z.add_0_r|done].
Qed.

Lemma strncmp_strlen_correct_witness :
  let m := store 8 (store 8 ∅ 100 (65 + 256 * 66)) 200 (65 + 256 * 67) in
  strncmp m 100 200 1 = 0 /\ strlen 10 m 100 = Some 2.
Proof.
  intros m.
  destruct (strncmp_strlen_correct m 100 200 [65; 66] [65; 67] 1) as [H1 H2].
  - vm_compute; repeat split; discriminate.
  - vm_compute; repeat split; discriminate.
  - lia.
  - split; [by apply H1|]. apply (H2 10%nat). cbn. lia.
Defined.
