(* ===== verification/Spinlock.v ===== *)
(** * kernel/spinlock.c, and the interrupt switches of kernel/riscv.h

    The state every kernel routine runs in: the harts with their [sstatus]
    register and [struct cpu], the spin locks, and the data of the components
    ([data]).  [push_off]/[pop_off] and [acquire]/[release] are the C
    functions, run by one thread on hart [tp]; a lock held by another hart makes
    [acquire] spin, which is the outcome [Blocked].  The second half of the
    file runs acquire and release on many harts at the granularity of their
    memory accesses and proves mutual exclusion. *)
From S2P Require Import Prelude.
From stdpp Require Import prelude gmap strings.
From Stdlib Require Import ZArith Lia.
Open Scope Z_scope.

(** The spin locks of the kernel. *)
Inductive lock :=
| L_kmem | L_pid | L_proc (i : nat) | L_ftable | L_bcache | L_icache | L_log
| L_ticks | L_cons | L_uart | L_pr | L_vdisk | L_pipe (pi : Z)
| L_buf (i : nat) | L_inode (i : nat).

#[export] Instance lock_eq_dec : EqDecision lock.
Proof. solve_decision. Defined.

Definition tag (n : nat) (z : Z) : nat * Z := (n, z).

Definition lock_enc (l : lock) : nat * Z :=
  match l with
  | L_kmem => tag 0 0 | L_pid => tag 1 0 | L_proc i => tag 2 (Z.of_nat i) | L_ftable => tag 3 0
  | L_bcache => tag 4 0 | L_icache => tag 5 0 | L_log => tag 6 0 | L_ticks => tag 7 0
  | L_cons => tag 8 0 | L_uart => tag 9 0 | L_pr => tag 10 0 | L_vdisk => tag 11 0
  | L_pipe pi => tag 12 pi | L_buf i => tag 13 (Z.of_nat i) | L_inode i => tag 14 (Z.of_nat i)
  end.

Definition lock_dec (p : nat * Z) : option lock :=
  match p with
  | (0, _) => Some L_kmem | (1, _) => Some L_pid | (2, i) => Some (L_proc (Z.to_nat i))
  | (3, _) => Some L_ftable | (4, _) => Some L_bcache | (5, _) => Some L_icache
  | (6, _) => Some L_log | (7, _) => Some L_ticks | (8, _) => Some L_cons
  | (9, _) => Some L_uart | (10, _) => Some L_pr | (11, _) => Some L_vdisk
  | (12, pi) => Some (L_pipe pi) | (13, i) => Some (L_buf (Z.to_nat i))
  | (14, i) => Some (L_inode (Z.to_nat i)) | _ => None
  end%nat.

#[export] Instance lock_countable : Countable lock.
Proof.
  apply (inj_countable lock_enc lock_dec).
  intros []; cbn [lock_enc lock_dec tag]; rewrite ?Nat2Z.id; reflexivity.
Defined.

(** [struct spinlock]; the [cpu] pointer is the index into [cpus], 0 is [None]. *)
Record spinlock := Spinlock { locked : Z; lname : string; lcpu : option nat }.

(** [struct cpu] without the saved context; [proc] is an index into [proc[]]. *)
Record cpu := Cpu { c_proc : option nat; noff : Z; intena : Z }.

(** One hart: its [sstatus] register and its [cpus[]] entry. *)
Record hart := Hart { sstatus : Z; h_cpu : cpu }.

#[export] Instance hart_inhabited : Inhabited hart := populate (Hart 0 (Cpu None 0 0)).
#[export] Instance spinlock_inhabited : Inhabited spinlock := populate (Spinlock 0 "" None).

Record world (S : Type) := World {
  tp : nat;
  harts : gmap nat hart;
  locks : gmap lock spinlock;
  data : S;
}.
Arguments World {S} _ _ _ _.
Arguments tp {S} _.
Arguments harts {S} _.
Arguments locks {S} _.
Arguments data {S} _.

Abbreviation K S := (M (world S)).

Section Ops.
Context {S : Type}.

(** ** State access *)

Definition cur (w : world S) : hart := harts w !!! tp w.
Definition set_hart (h : hart) (w : world S) : world S :=
  World (tp w) (<[tp w := h]> (harts w)) (locks w) (data w).
Definition set_lock (l : lock) (lk : spinlock) (w : world S) : world S :=
  World (tp w) (harts w) (<[l := lk]> (locks w)) (data w).
Definition set_tp (h : nat) (w : world S) : world S :=
  World h (harts w) (locks w) (data w).

Definition gets {A} (f : world S -> A) : K S A := fun w => Ok (f w, w).
Definition modify (f : world S -> world S) : K S () := fun w => Ok ((), f w).

(** Read and write the component [T] of the data. *)
Definition compc {T} `{!Has T S} (w : world S) : T := getc (data w).
Definition updc {T} `{!Has T S} (t : T) (w : world S) : world S :=
  World (tp w) (harts w) (locks w) (putc t (data w)).
Definition getD {T} `{!Has T S} : K S T := fun w => Ok (compc w, w).
Definition putD {T} `{!Has T S} (t : T) : K S () := fun w => Ok ((), updc t w).

(** ** kernel/riscv.h: interrupt enable bit *)

Definition SSTATUS_SIE : Z := 2.

Definition r_sstatus : K S Z := gets (fun w => sstatus (cur w)).
Definition w_sstatus (x : Z) : K S () :=
  modify (fun w => set_hart (Hart x (h_cpu (cur w))) w).

Definition intr_on : K S () := x ← r_sstatus; w_sstatus (Z.lor x SSTATUS_SIE).
Definition intr_off : K S () := x ← r_sstatus; w_sstatus (Z.land x (Z.lnot SSTATUS_SIE)).
Definition intr_get : K S Z :=
  x ← r_sstatus; mret (if negb (Z.land x SSTATUS_SIE =? 0) then 1 else 0).

(** ** spinlock.c *)

Definition mycpu : K S cpu := gets (fun w => h_cpu (cur w)).
Definition set_mycpu (c : cpu) : K S () :=
  modify (fun w => set_hart (Hart (sstatus (cur w)) c) w).

Definition initlock (l : lock) (name : string) : K S () :=
  modify (set_lock l (Spinlock 0 name None)).

Definition push_off : K S () :=
  old ← intr_get;
  intr_off ;;
  c ← mycpu;
  (if noff c =? 0 then set_mycpu (Cpu (c_proc c) (noff c) old) else mret ()) ;;
  c ← mycpu;
  set_mycpu (Cpu (c_proc c) (noff c + 1) (intena c)).

Definition pop_off : K S () :=
  c ← mycpu;
  i ← intr_get;
  if negb (i =? 0) then panic "pop_off - interruptible"
  else if noff c <? 1 then panic "pop_off"
  else
    set_mycpu (Cpu (c_proc c) (noff c - 1) (intena c)) ;;
    c ← mycpu;
    if (noff c =? 0) && negb (intena c =? 0) then intr_on else mret ().

Definition holding (l : lock) : K S Z :=
  lk ← gets (fun w => locks w !!! l);
  id ← gets tp;
  mret (if negb (locked lk =? 0) && bool_decide (lcpu lk = Some id) then 1 else 0).

(** The [while(__sync_lock_test_and_set(&lk->locked, 1) != 0) ;] loop: it
    leaves at once when the lock is free and otherwise spins. *)
Definition test_and_set (l : lock) : K S () :=
  lk ← gets (fun w => locks w !!! l);
  if negb (locked lk =? 0) then blocked
  else modify (set_lock l (Spinlock 1 (lname lk) (lcpu lk))).

Definition acquire (l : lock) : K S () :=
  push_off ;;
  h ← holding l;
  if negb (h =? 0) then panic "acquire"
  else
    test_and_set l ;;
    lk ← gets (fun w => locks w !!! l);
    id ← gets tp;
    modify (set_lock l (Spinlock (locked lk) (lname lk) (Some id))).

Definition release (l : lock) : K S () :=
  h ← holding l;
  if h =? 0 then panic "release"
  else
    lk ← gets (fun w => locks w !!! l);
    modify (set_lock l (Spinlock (locked lk) (lname lk) None)) ;;
    lk ← gets (fun w => locks w !!! l);
    modify (set_lock l (Spinlock 0 (lname lk) (lcpu lk))) ;;
    pop_off.

End Ops.

(** ** One thread: the net effect of acquire and release *)

(** Interrupt nesting is consistent on the running hart. *)
Definition cpu_ok {S} (w : world S) : Prop :=
  0 <= noff (h_cpu (cur w)) /\
  (0 < noff (h_cpu (cur w)) -> Z.land (sstatus (cur w)) SSTATUS_SIE = 0).

(** Nobody holds [l]. *)
Definition lock_free {S} (l : lock) (w : world S) : Prop :=
  exists n, locks w !! l = Some (Spinlock 0 n None).

(** The value [push_off] leaves in [intena]. *)
Definition new_intena (h : hart) : Z :=
  if noff (h_cpu h) =? 0
  then (if negb (Z.land (sstatus h) SSTATUS_SIE =? 0) then 1 else 0)
  else intena (h_cpu h).

Definition off_hart (h : hart) : hart :=
  Hart (Z.land (sstatus h) (Z.lnot SSTATUS_SIE))
       (Cpu (c_proc (h_cpu h)) (noff (h_cpu h) + 1) (new_intena h)).

(** A matched push_off/pop_off pair only records [intena]. *)
Definition touch {S} (w : world S) : world S :=
  let h := cur w in
  set_hart (Hart (sstatus h) (Cpu (c_proc (h_cpu h)) (noff (h_cpu h)) (new_intena h))) w.

(** The world inside the critical section of [l]. *)
Definition acq {S} (l : lock) (w : world S) : world S :=
  set_lock l (Spinlock 1 (lname (locks w !!! l)) (Some (tp w)))
    (set_hart (off_hart (cur w)) w).

Section Seq.
Context {S : Type}.
Implicit Types (w : world S) (l : lock).

Lemma bind_mret {A B} (a : A) (f : A -> K S B) w : (x ← mret a; f x) w = f a w.
Proof. reflexivity. Qed.
Lemma bind_gets {A B} (g : world S -> A) (f : A -> K S B) w :
  (x ← gets g; f x) w = f (g w) w.
Proof. reflexivity. Qed.
Lemma bind_modify {B} (g : world S -> world S) (f : () -> K S B) w :
  (x ← modify g; f x) w = f () (g w).
Proof. reflexivity. Qed.
Lemma bind_getD {T} `{!Has T S} {B} (f : T -> K S B) w :
  (x ← getD; f x) w = f (compc w) w.
Proof. reflexivity. Qed.
Lemma bind_putD {T} `{!Has T S} {B} (t : T) (f : () -> K S B) w :
  (x ← putD t; f x) w = f () (updc t w).
Proof. reflexivity. Qed.
Lemma bind_panic {A B} s (f : A -> K S B) w : (x ← panic s; f x) w = Panic s.
Proof. reflexivity. Qed.

Lemma cur_set_hart h w : cur (set_hart h w) = h.
Proof. unfold cur, set_hart; cbn. apply lookup_total_insert_eq. Qed.
Lemma set_hart_twice h h' w : set_hart h (set_hart h' w) = set_hart h w.
Proof. unfold set_hart; cbn. by rewrite insert_insert_eq. Qed.
Lemma set_lock_twice l k k' w : set_lock l k (set_lock l k' w) = set_lock l k w.
Proof. unfold set_lock; cbn. by rewrite insert_insert_eq. Qed.
Lemma locks_set_lock l k w : locks (set_lock l k w) !!! l = k.
Proof. apply lookup_total_insert_eq. Qed.
Lemma set_lock_id l k w : locks w !! l = Some k -> set_lock l k w = w.
Proof. intros H. unfold set_lock. rewrite insert_id by done. by destruct w. Qed.

End Seq.

(** Simplify a sequence of kernel commands. *)
Ltac ksimp :=
  repeat first
    [ rewrite bind_assoc | rewrite bind_gets | rewrite bind_modify | rewrite bind_mret
    | rewrite bind_getD | rewrite bind_putD | rewrite bind_panic
    | rewrite cur_set_hart | rewrite set_hart_twice
    | rewrite locks_set_lock | rewrite set_lock_twice
    | progress cbn [h_cpu sstatus noff c_proc intena locks harts tp data
                    locked lname lcpu Z.eqb negb andb] ].

Section Locking.
Context {S : Type}.
Implicit Types (w : world S) (l : lock).

Lemma land_lnot_SIE x : Z.land (Z.land x (Z.lnot SSTATUS_SIE)) SSTATUS_SIE = 0.
Proof.
  rewrite <- Z.land_assoc, (Z.land_comm (Z.lnot _)), Z.land_lnot_diag. apply Z.land_0_r.
Qed.

(** Clearing the bit and setting it again restores a register that had it. *)
Lemma sie_restore x : Z.land x SSTATUS_SIE <> 0 ->
  Z.lor (Z.land x (Z.lnot SSTATUS_SIE)) SSTATUS_SIE = x.
Proof.
  intros H. unfold SSTATUS_SIE in *.
  assert (Hb : Z.testbit x 1 = true).
  { destruct (Z.testbit x 1) eqn:E; [done|]. exfalso. apply H.
    apply Z.bits_inj'. intros i Hi. rewrite Z.land_spec, Z.bits_0.
    destruct (decide (i = 1)) as [->|Hne]; [by rewrite E|].
    change 2 with (2 ^ 1). rewrite Z.pow2_bits_false by lia. apply andb_false_r. }
  apply Z.bits_inj'. intros i Hi.
  rewrite Z.lor_spec, Z.land_spec, Z.lnot_spec by lia.
  change 2 with (2 ^ 1). destruct (decide (i = 1)) as [->|Hne].
  - by rewrite Z.pow2_bits_true, Hb by lia.
  - rewrite Z.pow2_bits_false by lia. cbn. by rewrite andb_true_r, orb_false_r.
Qed.

Lemma sie_clear x : Z.land x SSTATUS_SIE = 0 -> Z.land x (Z.lnot SSTATUS_SIE) = x.
Proof.
  intros H. apply Z.bits_inj'. intros i Hi. rewrite Z.land_spec, Z.lnot_spec by lia.
  pose proof (f_equal (fun z => Z.testbit z i) H) as Hb. cbn in Hb.
  rewrite Z.land_spec, Z.bits_0 in Hb.
  destruct (Z.testbit x i), (Z.testbit SSTATUS_SIE i); done.
Qed.

Lemma push_off_run w : push_off w = Ok ((), set_hart (off_hart (cur w)) w).
Proof.
  unfold push_off, intr_get, intr_off, r_sstatus, w_sstatus, mycpu, set_mycpu.
  ksimp. unfold off_hart, new_intena.
  destruct (noff (h_cpu (cur w)) =? 0) eqn:E; ksimp; unfold modify; by ksimp.
Qed.

(** [pop_off] undoes the matching [push_off]. *)
Lemma pop_off_run w : cpu_ok w ->
  pop_off (set_hart (off_hart (cur w)) w) = Ok ((), touch w).
Proof.
  intros [Hn Hs]. unfold pop_off, intr_get, intr_on, r_sstatus, w_sstatus, mycpu, set_mycpu.
  ksimp. unfold off_hart; ksimp. rewrite land_lnot_SIE. ksimp.
  rewrite (proj2 (Z.ltb_ge _ _)) by lia. ksimp.
  replace (noff (h_cpu (cur w)) + 1 - 1) with (noff (h_cpu (cur w))) by lia.
  unfold touch, new_intena, modify.
  destruct (Z.eqb_spec (noff (h_cpu (cur w))) 0) as [E|E]; cbn [andb].
  - destruct (Z.eqb_spec (Z.land (sstatus (cur w)) SSTATUS_SIE) 0) as [E2|E2]; cbn [negb Z.eqb].
    + by rewrite sie_clear.
    + ksimp. by rewrite sie_restore.
  - rewrite sie_clear; [done|]. apply Hs. lia.
Qed.

Lemma acquire_ok l w : lock_free l w -> acquire l w = Ok ((), acq l w).
Proof.
  intros [n Hl]. unfold acquire, holding, test_and_set.
  rewrite (bind_Ok _ _ _ _ _ (push_off_run w)). ksimp. unfold set_hart; ksimp.
  pose proof (lookup_total_correct _ _ _ Hl) as Ht.
  repeat (rewrite Ht; ksimp). unfold acq, modify, set_hart; ksimp.
  by rewrite Ht.
Qed.

(** Taking a lock this hart already has is the panic "acquire". *)
Lemma acquire_twice l w : acquire l (acq l w) = Panic "acquire".
Proof.
  unfold acquire, holding.
  rewrite (bind_Ok _ _ _ _ _ (push_off_run _)). ksimp.
  unfold acq, set_lock, set_hart; ksimp. rewrite lookup_total_insert_eq. cbn.
  by rewrite bool_decide_true.
Qed.

Lemma release_acq l w : cpu_ok w -> lock_free l w -> release l (acq l w) = Ok ((), touch w).
Proof.
  intros Hc [n Hl]. unfold release, holding, acq. ksimp.
  rewrite bool_decide_true by done. ksimp.
  rewrite (lookup_total_correct _ _ _ Hl). cbn [lname].
  rewrite set_lock_id by done. by apply pop_off_run.
Qed.

(** Releasing a lock this hart does not have is the panic "release". *)
Lemma release_free l w : lock_free l w -> release l w = Panic "release".
Proof.
  intros [n Hl]. unfold release, holding. ksimp. by rewrite (lookup_total_correct _ _ _ Hl).
Qed.

Lemma touch_locks w : locks (touch w) = locks w.
Proof. done. Qed.
Lemma lock_free_touch l w : lock_free l w -> lock_free l (touch w).
Proof. done. Qed.
Lemma lock_free_acq l l' w : l <> l' -> lock_free l w -> lock_free l (acq l' w).
Proof.
  intros Hne [n Hl]. exists n. unfold acq, set_lock; cbn. by rewrite lookup_insert_ne.
Qed.
Lemma lock_free_updc {T} `{!Has T S} l (t : T) w : lock_free l w -> lock_free l (updc t w).
Proof. done. Qed.
Lemma cpu_ok_updc {T} `{!Has T S} (t : T) w : cpu_ok w -> cpu_ok (updc t w).
Proof. done. Qed.
Lemma cpu_ok_touch w : cpu_ok w -> cpu_ok (touch w).
Proof. intros [H1 H2]. unfold cpu_ok, touch. by rewrite cur_set_hart. Qed.
Lemma cpu_ok_acq l w : cpu_ok w -> cpu_ok (acq l w).
Proof.
  intros [H1 H2]. unfold cpu_ok.
  change (cur (acq l w)) with (cur (set_hart (off_hart (cur w)) w)).
  rewrite cur_set_hart. cbn. split; [lia|]. intros _. apply land_lnot_SIE.
Qed.
Lemma touch_touch w : touch (touch w) = touch w.
Proof.
  unfold touch at 1. change (cur (touch w)) with (cur (set_hart (Hart (sstatus (cur w))
    (Cpu (c_proc (h_cpu (cur w))) (noff (h_cpu (cur w))) (new_intena (cur w)))) w)).
  rewrite cur_set_hart. unfold touch. rewrite set_hart_twice. cbn. do 3 f_equal.
  unfold new_intena; cbn. by destruct (noff (h_cpu (cur w)) =? 0).
Qed.
Lemma touch_acq l w : cpu_ok w -> touch (acq l w) = acq l w.
Proof.
  intros [H _]. unfold touch. change (cur (acq l w)) with (cur (set_hart (off_hart (cur w)) w)).
  rewrite cur_set_hart. unfold new_intena at 1. cbn [off_hart h_cpu noff].
  rewrite (proj2 (Z.eqb_neq _ _)) by lia.
  unfold acq, set_lock, set_hart; cbn. by rewrite insert_insert_eq.
Qed.

(** Locks need not be released in the reverse order. *)
Lemma release_swap l lk w : l <> lk -> cpu_ok w -> lock_free lk w ->
  release lk (acq l (acq lk w)) = Ok ((), acq l w).
Proof.
  intros Hne Hc [n Hl]. unfold release, holding.
  assert (E : locks (acq l (acq lk w)) !!! lk = Spinlock 1 n (Some (tp w))).
  { cbn. rewrite lookup_total_insert_ne by done. rewrite lookup_total_insert_eq.
    by rewrite (lookup_total_correct _ _ _ Hl). }
  ksimp. rewrite E. ksimp. rewrite bool_decide_true by done. ksimp. rewrite E. ksimp.
  rewrite <- (touch_acq l w Hc). rewrite <- pop_off_run by by apply cpu_ok_acq.
  f_equal. change (cur (acq l w)) with (cur (set_hart (off_hart (cur w)) w)).
  change (cur (acq l (acq lk w))) with (cur (set_hart (off_hart (cur (acq lk w))) (acq lk w))).
  rewrite !cur_set_hart. unfold acq, set_lock, set_hart; cbn. f_equal.
  - rewrite !insert_insert_eq. unfold cur at 2; cbn. by rewrite lookup_total_insert_eq.
  - rewrite (lookup_total_insert_ne (locks w)) by done.
    rewrite (insert_insert_ne _ lk l) by done. rewrite insert_insert_eq. f_equal. by apply insert_id.
Qed.

(** Component updates commute with the lock bookkeeping. *)
Lemma updc_touch {T} `{!Has T S} (t : T) w : updc t (touch w) = touch (updc t w).
Proof. done. Qed.
Lemma updc_acq {T} `{!Has T S} (t : T) l w : updc t (acq l w) = acq l (updc t w).
Proof. done. Qed.
Lemma compc_touch {T} `{!Has T S} w : compc (T := T) (touch w) = compc w.
Proof. done. Qed.
Lemma compc_acq {T} `{!Has T S} l w : compc (T := T) (acq l w) = compc w.
Proof. done. Qed.
Lemma compc_updc {T} `{!Has T S} (t : T) w : compc (updc t w) = t.
Proof. apply getc_putc. Qed.
Lemma updc_updc {T} `{!Has T S} (t t' : T) w : updc t (updc t' w) = updc t w.
Proof. unfold updc; cbn. by rewrite putc_putc. Qed.
Lemma updc_compc {T} `{!Has T S} w : updc (compc (T := T) w) w = w.
Proof. unfold updc, compc. rewrite putc_getc. by destruct w. Qed.

(** [frame T w w']: from [w] to [w'] only the component [T] (and the recorded
    [intena]) changed; in particular every lock is as it was. *)
Definition frame T `{!Has T S} w w' : Prop :=
  touch w' = touch (updc (compc (T := T) w') w).

#[export] Instance frame_preorder T `{!Has T S} : PreOrder (frame T).
Proof.
  split.
  - intros w. unfold frame. by rewrite updc_compc.
  - intros w1 w2 w3 H12 H23. unfold frame in *.
    rewrite H23, <- updc_touch, H12. by rewrite updc_touch, updc_updc.
Qed.

Lemma frame_upd {T} `{!Has T S} (t : T) w : frame T w (touch (updc t w)).
Proof. unfold frame. by rewrite compc_touch, compc_updc, touch_touch. Qed.
Lemma frame_updc {T} `{!Has T S} (t : T) w : frame T w (updc t w).
Proof. unfold frame. by rewrite compc_updc. Qed.
Lemma frame_touch {T} `{!Has T S} w : frame T w (touch w).
Proof. unfold frame. by rewrite compc_touch, updc_compc, touch_touch. Qed.
Lemma cpu_ok_touch_inv w : cpu_ok (touch w) -> cpu_ok w.
Proof. unfold cpu_ok, touch. by rewrite cur_set_hart. Qed.
Lemma frame_cpu_ok {T} `{!Has T S} w w' : frame T w w' -> cpu_ok w -> cpu_ok w'.
Proof.
  intros H Hc. apply cpu_ok_touch_inv. rewrite H. by apply cpu_ok_touch, cpu_ok_updc.
Qed.
Lemma frame_locks {T} `{!Has T S} w w' : frame T w w' -> locks w' = locks w.
Proof. intros H. by apply (f_equal locks) in H. Qed.
Lemma frame_lock_free {T} `{!Has T S} l w w' : frame T w w' -> lock_free l w -> lock_free l w'.
Proof. intros H [n Hn]. exists n. by rewrite (frame_locks _ _ H). Qed.

(** [kframe w w']: the locks and the running hart are as before (component data
    may differ); the weakest thing every routine that returns guarantees. *)
Definition kframe w w' : Prop :=
  tp w' = tp w /\ locks w' = locks w /\ harts (touch w') = harts (touch w).

#[export] Instance kframe_preorder : PreOrder kframe.
Proof.
  split; [by intros w|]. intros w1 w2 w3 (A1 & B1 & C1) (A2 & B2 & C2).
  split_and!; congruence.
Qed.
Lemma kframe_touch w : kframe w (touch w).
Proof. split_and!; [done..|]. by rewrite touch_touch. Qed.
Lemma kframe_updc {T} `{!Has T S} (t : T) w : kframe w (updc t w).
Proof. done. Qed.
Lemma frame_kframe {T} `{!Has T S} w w' : frame T w w' -> kframe w w'.
Proof.
  intros H. unfold frame in H. split_and!;
    [by apply (f_equal tp) in H|by apply (f_equal locks) in H|by apply (f_equal harts) in H].
Qed.
Lemma kframe_cur w w' : kframe w w' ->
  sstatus (cur w') = sstatus (cur w) /\ noff (h_cpu (cur w')) = noff (h_cpu (cur w)) /\
  c_proc (h_cpu (cur w')) = c_proc (h_cpu (cur w)).
Proof.
  intros (Ht & _ & Hh). pose proof (f_equal (fun h => h !!! tp w) Hh) as E. cbn in E.
  rewrite <- Ht in E at 1. cbn in E. rewrite !lookup_total_insert_eq in E.
  unfold cur in *. injection E as E1 E2 E3 _. done.
Qed.
Lemma kframe_cpu_ok w w' : kframe w w' -> cpu_ok w -> cpu_ok w'.
Proof.
  intros H [H1 H2]. destruct (kframe_cur _ _ H) as (E1 & E2 & _).
  unfold cpu_ok. by rewrite E1, E2.
Qed.
Lemma kframe_lock_free l w w' : kframe w w' -> lock_free l w -> lock_free l w'.
Proof. intros (_ & E & _) [n H]. exists n. by rewrite E. Qed.

End Locking.

(** Two components that do not overlap. *)
Class Indep (T1 T2 S : Type) `{!Has T1 S, !Has T2 S} := {
  indep_get1 : forall (t : T2) (s : S), getc (T := T1) (putc t s) = getc s;
  indep_get2 : forall (t : T1) (s : S), getc (T := T2) (putc t s) = getc s;
}.

Section Indep.
Context {S T1 T2 : Type} `{!Has T1 S, !Has T2 S, !Indep T1 T2 S}.
Lemma compc_updc_ne1 (t : T2) (w : world S) : compc (T := T1) (updc t w) = compc w.
Proof. apply indep_get1. Qed.
Lemma compc_updc_ne2 (t : T1) (w : world S) : compc (T := T2) (updc t w) = compc w.
Proof. apply indep_get2. Qed.
End Indep.

#[export] Hint Resolve lock_free_touch lock_free_acq lock_free_updc cpu_ok_updc
  cpu_ok_touch cpu_ok_acq frame_upd frame_updc frame_touch frame_cpu_ok frame_lock_free
  kframe_touch kframe_updc frame_kframe kframe_cpu_ok kframe_lock_free : xv6.

(** Step over an [acquire] of a free lock, or the [release] of the lock taken
    last. *)
Ltac kacquire :=
  erewrite bind_Ok; [|apply acquire_ok; solve [eauto 10 with xv6]]; cbv beta.
Ltac knorm :=
  rewrite ?updc_touch, ?updc_acq, ?compc_touch, ?compc_acq, ?compc_updc, ?updc_updc,
    ?touch_touch.
Ltac krelease :=
  knorm; erewrite bind_Ok;
  [|apply release_acq; solve [eauto 10 with xv6]]; cbv beta.

(** Step over a command whose effect is the lemma [lem]. *)
Tactic Notation "krun" uconstr(lem) :=
  erewrite bind_Ok; [|eapply lem; solve [eauto 10 with xv6]]; cbv beta; knorm.

(** ** Many harts: acquire and release at the granularity of memory accesses *)
Module Conc.

(** Where a hart is in its calls of acquire and release on one lock. *)
Inductive pc :=
| Idle                (* does not want the lock *)
| AcqChk              (* acquire: read locked <> 0, about to read lk->cpu *)
| Spin                (* acquire: in the amoswap loop *)
| Got                 (* acquire: the swap returned 0, lk->cpu not yet written *)
| Crit                (* between acquire and release *)
| RelChk              (* release: read locked <> 0, about to read lk->cpu *)
| Rel1                (* release: about to clear lk->cpu *)
| Rel2                (* release: about to clear lk->locked *)
| Panicked (msg : string).

#[export] Instance pc_inhabited : Inhabited pc := populate Idle.

Record st := St { lk : spinlock; pcs : gmap nat pc }.

(** One memory access of hart [h]. *)
Inductive spin_step : st -> st -> Prop :=
| acq_unlocked h lk pcs :
    pcs !!! h = Idle -> locked lk = 0 -> spin_step (St lk pcs) (St lk (<[h := Spin]> pcs))
| acq_locked h lk pcs :
    pcs !!! h = Idle -> locked lk <> 0 -> spin_step (St lk pcs) (St lk (<[h := AcqChk]> pcs))
| acq_mine h lk pcs :
    pcs !!! h = AcqChk -> lcpu lk = Some h ->
    spin_step (St lk pcs) (St lk (<[h := Panicked "acquire"]> pcs))
| acq_other h lk pcs :
    pcs !!! h = AcqChk -> lcpu lk <> Some h -> spin_step (St lk pcs) (St lk (<[h := Spin]> pcs))
| swap_busy h lk pcs :
    pcs !!! h = Spin -> locked lk <> 0 ->
    spin_step (St lk pcs) (St (Spinlock 1 (lname lk) (lcpu lk)) pcs)
| swap_free h lk pcs :
    pcs !!! h = Spin -> locked lk = 0 ->
    spin_step (St lk pcs) (St (Spinlock 1 (lname lk) (lcpu lk)) (<[h := Got]> pcs))
| acq_record h lk pcs :
    pcs !!! h = Got ->
    spin_step (St lk pcs) (St (Spinlock (locked lk) (lname lk) (Some h)) (<[h := Crit]> pcs))
| rel_unlocked h lk pcs :
    pcs !!! h = Crit -> locked lk = 0 ->
    spin_step (St lk pcs) (St lk (<[h := Panicked "release"]> pcs))
| rel_locked h lk pcs :
    pcs !!! h = Crit -> locked lk <> 0 -> spin_step (St lk pcs) (St lk (<[h := RelChk]> pcs))
| rel_other h lk pcs :
    pcs !!! h = RelChk -> lcpu lk <> Some h ->
    spin_step (St lk pcs) (St lk (<[h := Panicked "release"]> pcs))
| rel_mine h lk pcs :
    pcs !!! h = RelChk -> lcpu lk = Some h -> spin_step (St lk pcs) (St lk (<[h := Rel1]> pcs))
| rel_clear_cpu h lk pcs :
    pcs !!! h = Rel1 ->
    spin_step (St lk pcs) (St (Spinlock (locked lk) (lname lk) None) (<[h := Rel2]> pcs))
| rel_clear_locked h lk pcs :
    pcs !!! h = Rel2 ->
    spin_step (St lk pcs) (St (Spinlock 0 (lname lk) (lcpu lk)) (<[h := Idle]> pcs)).

Definition init (name : string) : st := St (Spinlock 0 name None) ∅.

(** The hart has the lock (its swap returned 0 and it has not stored 0 back). *)
Definition owns (p : pc) : bool :=
  match p with Got | Crit | RelChk | Rel1 | Rel2 => true | _ => false end.
(** ... and [lk->cpu] names it. *)
Definition recorded (p : pc) : bool :=
  match p with Crit | RelChk | Rel1 => true | _ => false end.
Definition panicked (p : pc) : bool :=
  match p with Panicked _ => true | _ => false end.

Record inv (s : st) : Prop := {
  inv_excl : forall h1 h2, owns (pcs s !!! h1) -> owns (pcs s !!! h2) -> h1 = h2;
  inv_locked : locked (lk s) <> 0 <-> exists h, owns (pcs s !!! h);
  inv_cpu : forall h, lcpu (lk s) = Some h <-> recorded (pcs s !!! h);
  inv_safe : forall h, ~ panicked (pcs s !!! h);
}.

Lemma conc_init_inv name : inv (init name).
Proof.
  split; cbn.
  - intros h1 h2. by rewrite lookup_total_empty.
  - split; [done|]. intros [h Hh]. by rewrite lookup_total_empty in Hh.
  - intros h. by rewrite lookup_total_empty.
  - intros h. rewrite lookup_total_empty. intros [].
Qed.

Lemma recorded_owns p : recorded p -> owns p.
Proof. by destruct p. Qed.

(** Replacing the pc of one hart in the invariant's clauses. *)
Lemma inv_update lk0 pcs0 lk1 h p :
  inv (St lk0 pcs0) ->
  let q := pcs0 !!! h in
  (~ panicked p) ->
  (owns p -> owns q \/ locked lk0 = 0) ->
  (locked lk1 <> 0 <-> owns p \/ (locked lk0 <> 0 /\ ~ owns q)) ->
  (forall h', lcpu lk1 = Some h' <->
     if decide (h' = h) then recorded p else recorded (pcs0 !!! h')) ->
  inv (St lk1 (<[h := p]> pcs0)).
Proof.
  intros [Hx Hl Hc Hs] q Hp Ho Hl1 Hc1. cbn in *. split; cbn.
  - intros h1 h2. rewrite !lookup_total_insert.
    assert (Hz : forall h', locked lk0 = 0 -> ~ owns (pcs0 !!! h'))
      by (intros h' H0 H'; revert H0; apply Hl; eauto).
    repeat case_decide; subst; intros H1 H2; [done|..|by apply Hx];
      destruct (Ho ltac:(assumption)) as [Hq|Hfree]; (by apply Hx) || (by edestruct Hz).
  - rewrite Hl1, Hl. split.
    + intros [Hop|[[h' Hh'] Hnq]].
      * exists h. by rewrite lookup_total_insert_eq.
      * exists h'. rewrite lookup_total_insert_ne; [done|]. intros ->. done.
    + intros [h' Hh']. rewrite lookup_total_insert in Hh'. case_decide; subst; [by left|].
      destruct (decide (Is_true (owns q))) as [Hq|Hq]; [|by eauto].
      exfalso. assert (h = h') by (by apply Hx). done.
  - intros h'. rewrite Hc1, lookup_total_insert. by repeat case_decide; subst.
  - intros h'. rewrite lookup_total_insert. case_decide; [done|apply Hs].
Qed.

(** A hart that owns the lock sees it locked; one that is recorded sees itself
    in [lk->cpu]. *)
Lemma owner_locked lk0 pcs0 h : inv (St lk0 pcs0) -> owns (pcs0 !!! h) -> locked lk0 <> 0.
Proof. intros Hi Ho. apply (inv_locked _ Hi). eauto. Qed.

Lemma cpu_recorded lk0 pcs0 h : inv (St lk0 pcs0) ->
  lcpu lk0 = Some h <-> recorded (pcs0 !!! h).
Proof. intros Hi. apply (inv_cpu _ Hi). Qed.

(** While a hart owns the lock without being recorded, [lk->cpu] is 0. *)
Lemma owner_cpu lk0 pcs0 h h' : inv (St lk0 pcs0) -> owns (pcs0 !!! h) ->
  lcpu lk0 = Some h' -> h' = h.
Proof.
  intros Hi Ho Hc%(cpu_recorded _ _ _ Hi). apply (inv_excl _ Hi); [|done].
  by apply recorded_owns.
Qed.

Lemma conc_step_inv s s' : spin_step s s' -> inv s -> inv s'.
Proof.
  intros Hst Hi. destruct Hst as
    [h lk0 pcs0 Hp Hl|h lk0 pcs0 Hp Hl|h lk0 pcs0 Hp Hc|h lk0 pcs0 Hp Hc|h lk0 pcs0 Hp Hl
    |h lk0 pcs0 Hp Hl|h lk0 pcs0 Hp|h lk0 pcs0 Hp Hl|h lk0 pcs0 Hp Hl|h lk0 pcs0 Hp Hc
    |h lk0 pcs0 Hp Hc|h lk0 pcs0 Hp|h lk0 pcs0 Hp].
  all: pose proof (owner_locked lk0 pcs0 h Hi) as Hol.
  all: pose proof (cpu_recorded lk0 pcs0 h Hi) as Hcr.
  all: pose proof (fun h' => owner_cpu lk0 pcs0 h h' Hi) as Hoc.
  all: rewrite Hp in Hol, Hcr, Hoc; cbn in Hol, Hcr, Hoc.
  all: try (exfalso; tauto).
  4: { destruct Hi as [Hx Hlk Hc Hs]. split; try done. cbn in *. rewrite <- Hlk. lia. }
  all: apply (inv_update _ _ _ _ _ Hi); cbn; rewrite ?Hp; cbn; try tauto; try lia;
    try (intros h'; case_decide; subst; cbn; [tauto|]; try apply (cpu_recorded _ _ _ Hi)).
  - rewrite <- (cpu_recorded _ _ _ Hi). naive_solver.
  - intros h'. case_decide; [done|]. rewrite <- (cpu_recorded _ _ _ Hi). naive_solver.
Qed.

Lemma conc_reach_inv s s' : rtc spin_step s s' -> inv s -> inv s'.
Proof. induction 1; eauto using conc_step_inv. Qed.

(** The lock, given back by hart [h] alone. *)
Definition given_back (h : nat) (s s' : st) : Prop :=
  pcs s' !!! h = Idle /\ locked (lk s') = 0 /\ forall h', h' <> h -> pcs s' !!! h' = pcs s !!! h'.

Lemma gives_back_step h s s1 : spin_step s s1 -> (forall h', h' <> h -> pcs s1 !!! h' = pcs s !!! h') ->
  (exists s', rtc spin_step s1 s' /\ given_back h s1 s') -> exists s', rtc spin_step s s' /\ given_back h s s'.
Proof.
  intros Hs Ho (s' & Hr & G1 & G2 & G3). exists s'. split; [by eapply rtc_l|]. split_and!; [done..|].
  intros h' Hh. by rewrite G3, Ho.
Qed.

(** A hart that has the lock gets to the end of its release without the help of
    the others. *)
Lemma owner_gives_back s h : inv s -> owns (pcs s !!! h) -> exists s', rtc spin_step s s' /\ given_back h s s'.
Proof.
  intros Hi Ho. destruct s as [lk0 pcs0].
  pose proof (owner_locked lk0 pcs0 h Hi Ho) as Hl. pose proof (proj2 (cpu_recorded lk0 pcs0 h Hi)) as Hc. clear Hi.
  assert (G2 : forall lk0 pcs0, pcs0 !!! h = Rel2 -> exists s', rtc spin_step (St lk0 pcs0) s' /\ given_back h (St lk0 pcs0) s').
  { intros lk1 pcs1 E. eapply gives_back_step; [by apply (rel_clear_locked h)|intros h' Hh; by apply lookup_total_insert_ne|].
    eexists. split; [reflexivity|]. split_and!; [apply lookup_total_insert_eq|done|done]. }
  assert (G1 : forall lk0 pcs0, pcs0 !!! h = Rel1 -> exists s', rtc spin_step (St lk0 pcs0) s' /\ given_back h (St lk0 pcs0) s').
  { intros lk1 pcs1 E. eapply gives_back_step; [by apply (rel_clear_cpu h)|intros h' Hh; by apply lookup_total_insert_ne|].
    apply G2, lookup_total_insert_eq. }
  assert (Gc : forall lk0 pcs0, pcs0 !!! h = RelChk -> lcpu lk0 = Some h ->
    exists s', rtc spin_step (St lk0 pcs0) s' /\ given_back h (St lk0 pcs0) s').
  { intros lk1 pcs1 E L. eapply gives_back_step; [by apply (rel_mine h)|intros h' Hh; by apply lookup_total_insert_ne|].
    apply G1, lookup_total_insert_eq. }
  assert (G0 : forall lk0 pcs0, pcs0 !!! h = Crit -> lcpu lk0 = Some h -> locked lk0 <> 0 ->
    exists s', rtc spin_step (St lk0 pcs0) s' /\ given_back h (St lk0 pcs0) s').
  { intros lk1 pcs1 E L L'. eapply gives_back_step; [by apply (rel_locked h)|intros h' Hh; by apply lookup_total_insert_ne|].
    apply Gc; [apply lookup_total_insert_eq|done]. }
  cbn in Ho. destruct (pcs0 !!! h) eqn:E; cbn in Ho, Hc; try done; auto.
  eapply gives_back_step; [by apply (acq_record h)|intros h' Hh; by apply lookup_total_insert_ne|].
  apply G0; [apply lookup_total_insert_eq|done|done].
Qed.

(** C5: Mutual exclusion: in every interleaving of any number of harts calling
    acquire and release on one lock, at most one hart has the lock; no hart has run
    into the panic of acquire or of release; and the hart that has the lock can by
    its own steps alone finish its critical section and its release, which leaves
    the lock free. *)
Theorem spinlock_mutual_exclusion name s
  (Hr : rtc spin_step (init name) s) :
  (forall h1 h2, owns (pcs s !!! h1) -> owns (pcs s !!! h2) -> h1 = h2) /\
  (forall h, ~ panicked (pcs s !!! h)) /\
  (forall h, owns (pcs s !!! h) -> exists s', rtc spin_step s s' /\ given_back h s s').
Proof.
  pose proof (conc_reach_inv _ _ Hr (conc_init_inv name)) as Hi.
  split_and!; [by apply (inv_excl _ Hi)|apply (inv_safe _ Hi)|]. intros h. by apply owner_gives_back.
Qed.

Lemma spinlock_mutual_exclusion_witness :
  exists s, rtc spin_step (init "kmem") s /\ owns (pcs s !!! 3%nat) /\
    (forall h2, owns (pcs s !!! h2) -> 3%nat = h2) /\
    exists s', rtc spin_step s s' /\ given_back 3 s s'.
Proof.
  exists (St (Spinlock 1 "kmem" None) (<[3%nat := Got]> (<[3%nat := Spin]> ∅))).
  assert (Hr : rtc spin_step (init "kmem")
    (St (Spinlock 1 "kmem" None) (<[3%nat := Got]> (<[3%nat := Spin]> ∅)))).
  { eapply rtc_l; [apply (acq_unlocked 3); done|].
    eapply rtc_l; [apply (swap_free 3); done|]. done. }
  split; [exact Hr|]. split; [done|].
  destruct (spinlock_mutual_exclusion "kmem" _ Hr) as (H1 & _ & H3). split; [|by apply H3].
  intros h2 H2. by apply H1.
Defined.

(** holding() is exact: [lk->cpu] names a hart only while that hart is inside
    its critical section (so a racy read by another hart never answers yes), and
    the lock word is non-zero exactly while some hart has the lock. *)
Theorem holding_exact name s
  (Hr : rtc spin_step (init name) s) :
  (forall h, lcpu (lk s) = Some h <-> recorded (pcs s !!! h)) /\
  (locked (lk s) <> 0 <-> exists h, owns (pcs s !!! h)).
Proof.
  pose proof (conc_reach_inv _ _ Hr (conc_init_inv name)) as Hi.
  split; [apply (inv_cpu _ Hi)|apply (inv_locked _ Hi)].
Qed.

Lemma holding_exact_witness :
  lcpu (lk (init "kmem")) = Some 1%nat <-> recorded (pcs (init "kmem") !!! 1%nat).
Proof. apply (holding_exact "kmem" (init "kmem") (rtc_refl _ _)). Defined.

End Conc.

(** acquire then release of a free lock leaves the locks, the interrupt enable
    bit and the nesting depth as they were; a second acquire by the same hart and
    a release of a lock not held are panics. *)
Theorem acquire_release_balanced {S} (l : lock) (w : world S)
  (Hc : cpu_ok w) (Hl : lock_free l w) :
  (acquire l ;; release l) w = Ok ((), touch w) /\
  locks (touch w) = locks w /\ data (touch w) = data w /\
  sstatus (cur (touch w)) = sstatus (cur w) /\
  noff (h_cpu (cur (touch w))) = noff (h_cpu (cur w)) /\
  (acquire l ;; acquire l) w = Panic "acquire" /\ release l w = Panic "release".
Proof.
  split_and!; try done.
  - erewrite bind_Ok by (by apply acquire_ok). by apply release_acq.
  - unfold touch. by rewrite cur_set_hart.
  - unfold touch. by rewrite cur_set_hart.
  - erewrite bind_Ok by (by apply acquire_ok). apply acquire_twice.
  - by apply release_free.
Qed.

Definition boot_world {S} (d : S) : world S :=
  World 0 {[0%nat := Hart SSTATUS_SIE (Cpu None 0 0)]}
    (list_to_map ((fun l => (l, Spinlock 0 "" None)) <$>
       [L_kmem; L_pid; L_ftable; L_bcache; L_icache; L_log; L_ticks; L_cons; L_uart; L_pr; L_vdisk]
       ++ (L_proc <$> seq 0 64) ++ (L_buf <$> seq 0 30) ++ (L_inode <$> seq 0 50))) d.

Lemma acquire_release_balanced_witness :
  (acquire L_kmem ;; release L_kmem) (boot_world ()) = Ok ((), touch (boot_world ())).
Proof.
  apply (acquire_release_balanced L_kmem (boot_world ())).
  - split; vm_compute; congruence.
  - exists "". by vm_compute.
Defined.
