(* ===== verification/Riscv.v ===== *)
(** * kernel/riscv.h, kernel/memlayout.h, kernel/param.h: machine constants and
    the Sv39 page-table macros

    The macros are the C expressions on [uint64] values, with the wrap-around
    of the operations that can leave 64 bits written out; the lemmas give their
    arithmetic meaning, which the memory components work with. *)
From S2P Require Import Prelude.
From stdpp Require Import prelude.
From Stdlib Require Import ZArith Lia.
Open Scope Z_scope.

Definition PGSIZE : Z := 4096.
Definition PGSHIFT : Z := 12.

Definition PGROUNDUP (sz : Z) : Z := Z.land (u64 (sz + PGSIZE - 1)) (Z.lnot (PGSIZE - 1)).
Definition PGROUNDDOWN (a : Z) : Z := Z.land a (Z.lnot (PGSIZE - 1)).

Definition PTE_V : Z := Z.shiftl 1 0.
Definition PTE_R : Z := Z.shiftl 1 1.
Definition PTE_W : Z := Z.shiftl 1 2.
Definition PTE_X : Z := Z.shiftl 1 3.
Definition PTE_U : Z := Z.shiftl 1 4.

Definition PA2PTE (pa : Z) : Z := u64 (Z.shiftl (Z.shiftr pa 12) 10).
Definition PTE2PA (pte : Z) : Z := u64 (Z.shiftl (Z.shiftr pte 10) 12).
Definition PTE_FLAGS (pte : Z) : Z := Z.land pte 1023.

Definition PXMASK : Z := 511.
Definition PXSHIFT (level : Z) : Z := PGSHIFT + 9 * level.
Definition PX (level va : Z) : Z := Z.land (Z.shiftr va (PXSHIFT level)) PXMASK.

Definition MAXVA : Z := Z.shiftl 1 (9 + 9 + 9 + 12 - 1).

Definition SATP_SV39 : Z := Z.shiftl 8 60.
Definition MAKE_SATP (pagetable : Z) : Z := Z.lor SATP_SV39 (Z.shiftr pagetable 12).

(** memlayout.h *)
Definition UART0 : Z := 268435456.
Definition VIRTIO0 : Z := 268439552.
Definition CLINT : Z := 33554432.
Definition PLIC : Z := 201326592.
Definition KERNBASE : Z := 2147483648.
Definition PHYSTOP : Z := KERNBASE + 128 * 1024 * 1024.
Definition TRAMPOLINE : Z := MAXVA - PGSIZE.
Definition KSTACK (p : Z) : Z := TRAMPOLINE - (p + 1) * 2 * PGSIZE.
Definition TRAPFRAME : Z := TRAMPOLINE - PGSIZE.

(** param.h *)
Definition NPROC : Z := 64.
Definition NCPU : Z := 8.
Definition NOFILE : Z := 16.
Definition NFILE : Z := 100.
Definition NINODE : Z := 50.
Definition NDEV : Z := 10.
Definition ROOTDEV : Z := 1.
Definition MAXARG : Z := 32.
Definition MAXOPBLOCKS : Z := 10.
Definition LOGSIZE : Z := MAXOPBLOCKS * 3.
Definition NBUF : Z := MAXOPBLOCKS * 3.
Definition FSSIZE : Z := 1000.
Definition MAXPATH : Z := 128.

(** ** Arithmetic meaning of the macros *)

Lemma land_lnot_ones a n : 0 <= n -> Z.land a (Z.lnot (Z.ones n)) = a - a mod 2 ^ n.
Proof.
  intros Hn. rewrite <- Z.ldiff_land, Z.ldiff_ones_r by done.
  rewrite Z.shiftl_mul_pow2, Z.shiftr_div_pow2 by done.
  pose proof (Z.div_mod a (2 ^ n) ltac:(apply Z.pow_nonzero; lia)). lia.
Qed.

Lemma PGROUNDDOWN_mod a : PGROUNDDOWN a = a - a mod PGSIZE.
Proof.
  unfold PGROUNDDOWN, PGSIZE. change (4096 - 1) with (Z.ones 12).
  by rewrite land_lnot_ones.
Qed.

Lemma PGROUNDDOWN_range a : PGROUNDDOWN a <= a < PGROUNDDOWN a + PGSIZE.
Proof.
  rewrite PGROUNDDOWN_mod. pose proof (Z.mod_pos_bound a PGSIZE ltac:(done)). lia.
Qed.

Lemma PGROUNDDOWN_aligned a : PGROUNDDOWN a mod PGSIZE = 0.
Proof.
  rewrite PGROUNDDOWN_mod, Zminus_mod_idemp_r, Z.sub_diag. done.
Qed.

Lemma PGROUNDDOWN_id a : a mod PGSIZE = 0 -> PGROUNDDOWN a = a.
Proof. intros H. rewrite PGROUNDDOWN_mod, H. lia. Qed.

Lemma PGROUNDUP_eq sz : 0 <= sz -> sz + PGSIZE <= 2 ^ 64 ->
  PGROUNDUP sz = PGSIZE * ((sz + PGSIZE - 1) / PGSIZE).
Proof.
  intros H1 H2. unfold PGROUNDUP. unfold PGSIZE in *.
  rewrite u64_id by lia. change (4096 - 1) with (Z.ones 12).
  rewrite land_lnot_ones by lia. change (2 ^ 12) with 4096.
  pose proof (Z.div_mod (sz + 4096 - 1) 4096 ltac:(done)). lia.
Qed.

Lemma PGROUNDUP_range sz : 0 <= sz -> sz + PGSIZE <= 2 ^ 64 ->
  sz <= PGROUNDUP sz < sz + PGSIZE.
Proof.
  intros H1 H2. rewrite PGROUNDUP_eq by done. unfold PGSIZE in *.
  pose proof (Z.div_mod (sz + 4096 - 1) 4096 ltac:(done)).
  pose proof (Z.mod_pos_bound (sz + 4096 - 1) 4096 ltac:(done)). lia.
Qed.

Lemma PGROUNDUP_aligned sz : 0 <= sz -> sz + PGSIZE <= 2 ^ 64 ->
  PGROUNDUP sz mod PGSIZE = 0.
Proof.
  intros. rewrite PGROUNDUP_eq, Z.mul_comm by done. by apply Z.mod_mul.
Qed.

(** A page address: aligned and below 2^56, the width of a physical address. *)
Definition page_aligned (a : Z) : Prop := a mod PGSIZE = 0.

Lemma PA2PTE_eq pa : 0 <= pa < 2 ^ 56 -> PA2PTE pa = pa / 4096 * 1024.
Proof.
  intros H. unfold PA2PTE. rewrite Z.shiftl_mul_pow2, Z.shiftr_div_pow2 by lia.
  change (2 ^ 12) with 4096. change (2 ^ 10) with 1024.
  apply u64_id. pose proof (Z.div_mod pa 4096 ltac:(done)).
  pose proof (Z.mod_pos_bound pa 4096 ltac:(done)). lia.
Qed.

Lemma PTE2PA_eq pte : 0 <= pte < 2 ^ 54 -> PTE2PA pte = pte / 1024 * 4096.
Proof.
  intros H. unfold PTE2PA. rewrite Z.shiftl_mul_pow2, Z.shiftr_div_pow2 by lia.
  change (2 ^ 12) with 4096. change (2 ^ 10) with 1024.
  apply u64_id. pose proof (Z.div_mod pte 1024 ltac:(done)).
  pose proof (Z.mod_pos_bound pte 1024 ltac:(done)). lia.
Qed.

(** Or-ing flags below an aligned value is addition. *)
Lemma lor_low a f n : 0 <= n -> 0 <= f < 2 ^ n -> Z.lor (a * 2 ^ n) f = a * 2 ^ n + f.
Proof.
  intros Hn Hf. rewrite Z.add_nocarry_lxor, Z.lxor_lor; [done|..];
    apply Z.bits_inj'; intros i Hi; rewrite Z.land_spec, Z.bits_0;
    destruct (Z.lt_ge_cases i n).
  1,3: rewrite Z.mul_pow2_bits_low by lia; done.
  all: rewrite <- (Z.mod_small f (2 ^ n)), Z.mod_pow2_bits_high by lia; apply andb_false_r.
Qed.

Lemma pte_make pa fl : page_aligned pa -> 0 <= pa < 2 ^ 56 -> 0 <= fl < 1024 ->
  Z.lor (PA2PTE pa) fl = pa / 4096 * 1024 + fl.
Proof.
  intros Ha Hp Hf. rewrite PA2PTE_eq by done. by apply (lor_low _ _ 10).
Qed.

(** The address and the flags of a PTE come back out of it. *)
Lemma pte_PA pa fl : page_aligned pa -> 0 <= pa < 2 ^ 56 -> 0 <= fl < 1024 ->
  PTE2PA (Z.lor (PA2PTE pa) fl) = pa.
Proof.
  intros Ha Hp Hf. rewrite pte_make by done.
  unfold page_aligned, PGSIZE in Ha.
  pose proof (Z.div_mod pa 4096 ltac:(done)).
  rewrite PTE2PA_eq by lia. rewrite Z.div_add_l, (Z.div_small fl) by lia. lia.
Qed.

Lemma pte_flags_out pa fl : page_aligned pa -> 0 <= pa < 2 ^ 56 -> 0 <= fl < 1024 ->
  PTE_FLAGS (Z.lor (PA2PTE pa) fl) = fl.
Proof.
  intros Ha Hp Hf. rewrite pte_make by done. unfold PTE_FLAGS.
  change 1023 with (Z.ones 10). rewrite Z.land_ones by lia. change (2 ^ 10) with 1024.
  rewrite Z.add_comm, Z.mod_add by lia. by apply Z.mod_small.
Qed.

(** A flag bit test only sees the low ten bits. *)
Lemma land_flags pte f : 0 <= f < 1024 -> Z.land pte f = Z.land (PTE_FLAGS pte) f.
Proof.
  intros Hf. unfold PTE_FLAGS. rewrite <- Z.land_assoc. f_equal.
  change 1023 with (Z.ones 10). rewrite Z.land_comm, Z.land_ones by lia.
  symmetry. by apply Z.mod_small.
Qed.

Lemma PX_eq level va : 0 <= level -> PX level va = (va / 2 ^ (12 + 9 * level)) mod 512.
Proof.
  intros H. unfold PX, PXSHIFT, PGSHIFT, PXMASK.
  rewrite Z.shiftr_div_pow2 by lia. change 511 with (Z.ones 9). by rewrite Z.land_ones.
Qed.

Lemma PX_range level va : 0 <= level -> 0 <= PX level va < 512.
Proof. intros. rewrite PX_eq by done. apply Z.mod_pos_bound. lia. Qed.

(** The three indices determine the page of an address below MAXVA. *)
Lemma PX_decompose va : 0 <= va < MAXVA ->
  va / 4096 = PX 2 va * 262144 + PX 1 va * 512 + PX 0 va.
Proof.
  intros H. change MAXVA with (2 ^ 38) in H. rewrite !PX_eq by lia.
  change (2 ^ (12 + 9 * 2)) with (4096 * 512 * 512).
  change (2 ^ (12 + 9 * 1)) with (4096 * 512).
  change (2 ^ (12 + 9 * 0)) with 4096.
  rewrite <- !Z.div_div by lia. set (p := va / 4096).
  assert (Hp : 0 <= p < 2 ^ 26) by (subst p; split; [apply Z.div_pos|apply Z.div_lt_upper_bound]; lia).
  pose proof (Z.div_mod p 512 ltac:(done)) as E1.
  pose proof (Z.div_mod (p / 512) 512 ltac:(done)) as E2.
  assert (0 <= p / 512 / 512 < 512).
  { split; [by repeat apply Z.div_pos; lia|].
    apply Z.div_lt_upper_bound; [lia|]. apply Z.div_lt_upper_bound; lia. }
  rewrite (Z.mod_small (p / 512 / 512)) by lia. lia.
Qed.

Lemma PX_inj va va' : 0 <= va < MAXVA -> 0 <= va' < MAXVA ->
  PX 2 va = PX 2 va' -> PX 1 va = PX 1 va' -> PX 0 va = PX 0 va' ->
  va / 4096 = va' / 4096.
Proof.
  intros H H' H2 H1 H0. rewrite (PX_decompose va), (PX_decompose va') by done. lia.
Qed.

Lemma PX_same_page level va va' : 0 <= level -> va / 4096 = va' / 4096 ->
  PX level va = PX level va'.
Proof.
  intros Hl H. rewrite !PX_eq by done. rewrite Z.pow_add_r by lia.
  rewrite <- !Z.div_div by lia. change (2 ^ 12) with 4096. by rewrite H.
Qed.
