(* ===== verification/Kalloc.v ===== *)
(** * kernel/kalloc.c: the physical page allocator

    Free pages are linked through their first eight bytes; [freelist] is the
    address of the first one, 0 for none.  The list is in [pbytes], the
    memory the rest of the kernel uses too, as in the C code.  [kend] stands for
    the linker symbol [end] (kernel.ld), the first address after the kernel. *)
From S2P Require Import Prelude Memory CString Spinlock Riscv.
From stdpp Require Import prelude gmap strings.
From Stdlib Require Import ZArith Lia.
Import KString.
Open Scope Z_scope.

(** Physical memory and [kmem.freelist]. *)
Record pmem := Pmem { pbytes : mem; freelist : Z }.

Section Kalloc.
Context {S : Type} `{!Has pmem S} (kend : Z).

Definition get_mem : K S mem := p ← getD (T := pmem); mret (pbytes p).
Definition put_mem (m : mem) : K S () := p ← getD (T := pmem); putD (Pmem m (freelist p)).

Definition kfree (pa : Z) : K S () :=
  if negb (pa mod PGSIZE =? 0) || (pa <? kend) || (pa >=? PHYSTOP) then panic "kfree"
  else
    m ← get_mem;
    put_mem (memset m pa 1 PGSIZE) ;;
    acquire L_kmem ;;
    p ← getD (T := pmem);
    putD (Pmem (store64 (pbytes p) pa (freelist p)) (freelist p)) ;;
    p ← getD (T := pmem);
    putD (Pmem (pbytes p) pa) ;;
    release L_kmem.

Definition kalloc : K S Z :=
  acquire L_kmem ;;
  p ← getD (T := pmem);
  let r := freelist p in
  (if negb (r =? 0) then putD (Pmem (pbytes p) (load64 (pbytes p) r)) else mret ()) ;;
  release L_kmem ;;
  (if negb (r =? 0) then m ← get_mem; put_mem (memset m r 5 PGSIZE) else mret ()) ;;
  mret r.

(** [for(; p + PGSIZE <= pa_end; p += PGSIZE) kfree(p);] *)
Definition freerange_body (pa_end p : Z) : K S (Z + ()) :=
  if p + PGSIZE <=? pa_end then kfree p ;; mret (inl (p + PGSIZE)) else mret (inr ()).
Definition freerange (pa_start pa_end : Z) : K S () :=
  let p := PGROUNDUP pa_start in
  loop (Z.to_nat ((pa_end - p) / PGSIZE + 2)) (freerange_body pa_end) p.

Definition kinit : K S () :=
  initlock L_kmem "kmem" ;;
  freerange kend PHYSTOP.

(** [while (r) { freepage_num++; r = r->next; }] *)
Definition count_body (x : Z * Z) : K S ((Z * Z) + Z) :=
  let '(r, n) := x in
  if negb (r =? 0) then m ← get_mem; mret (inl (load64 m r, u64 (n + 1))) else mret (inr n).
Definition count_free_kmem (fuel : nat) : K S Z :=
  acquire L_kmem ;;
  p ← getD (T := pmem);
  n ← loop fuel count_body (freelist p, 0);
  release L_kmem ;;
  mret (u64 (n * PGSIZE)).

End Kalloc.

(** ** The free list *)

Section FreeList.
Context (kend : Z).

(** A page the allocator may manage. *)
Definition valid_page (pa : Z) : Prop :=
  pa mod PGSIZE = 0 /\ kend <= pa < PHYSTOP.

(** The pages [l], in this order, are linked from [p]. *)
Fixpoint linked (m : mem) (p : Z) (l : list Z) : Prop :=
  match l with
  | [] => p = 0
  | x :: l' => p = x /\ linked m (load64 m x) l'
  end.

(** The allocator's state represents the free pages [l]. *)
Definition free_rep (p : pmem) (l : list Z) : Prop :=
  linked (pbytes p) (freelist p) l /\ NoDup l /\ Forall valid_page l.

(** Bytes outside page [pa] are the same in [m] and [m']. *)
Definition outside (pa : Z) (m m' : mem) : Prop :=
  forall b, b < pa \/ pa + PGSIZE <= b -> rd m' b = rd m b.

Lemma outside_same_on pa m m' a n :
  outside pa m m' -> a + n <= pa \/ pa + PGSIZE <= a -> same_on m m' a n.
Proof. intros H Hd b Hb. symmetry. apply H. lia. Qed.

(** Two different pages do not overlap. *)
Lemma pages_disjoint x y : x mod PGSIZE = 0 -> y mod PGSIZE = 0 -> x <> y ->
  x + PGSIZE <= y \/ y + PGSIZE <= x.
Proof.
  unfold PGSIZE. intros Hx Hy Hne.
  pose proof (Z.div_mod x 4096 ltac:(done)). pose proof (Z.div_mod y 4096 ltac:(done)). lia.
Qed.

Lemma linked_ext m m' p l :
  (forall x, x ∈ l -> same_on m m' x 8) -> linked m p l -> linked m' p l.
Proof.
  revert p. induction l as [|x l IH]; intros p H; [done|]. cbn [linked].
  intros [-> Hl]. split; [done|].
  rewrite <- (load64_ext m m') by (apply H; set_solver).
  apply IH; [|done]. intros y Hy. apply H. set_solver.
Qed.

Lemma linked_outside m m' pa p l :
  outside pa m m' -> pa mod PGSIZE = 0 -> pa ∉ l -> Forall valid_page l ->
  linked m p l -> linked m' p l.
Proof.
  intros Ho Ha Hn Hv. apply linked_ext. intros x Hx.
  rewrite Forall_forall in Hv. destruct (Hv x Hx) as [Hxa _].
  eapply outside_same_on; [done|].
  destruct (pages_disjoint x pa Hxa Ha) as [H|H]; [intros ->; done| |]; unfold PGSIZE in *; lia.
Qed.
End FreeList.

(** ** What each operation does *)

Section Spec.
Context {S : Type} `{!Has pmem S} (kend : Z).
Implicit Types (w : world S).

Lemma get_mem_run w : get_mem w = Ok (pbytes (compc (T := pmem) w), w).
Proof. done. Qed.
Lemma put_mem_run m w :
  put_mem m w = Ok ((), updc (Pmem m (freelist (compc (T := pmem) w))) w).
Proof. done. Qed.

Lemma kalloc_run w : cpu_ok w -> lock_free L_kmem w ->
  let p := compc (T := pmem) w in
  kalloc w =
  Ok (freelist p,
      if freelist p =? 0 then touch w
      else touch (updc (Pmem (memset (pbytes p) (freelist p) 5 PGSIZE)
                             (load64 (pbytes p) (freelist p))) w)).
Proof.
  intros Hc Hl p. unfold kalloc. kacquire. rewrite bind_getD, compc_acq. fold p.
  destruct (freelist p =? 0) eqn:E; cbn [negb].
  - rewrite bind_mret. krelease. done.
  - rewrite bind_putD. krelease. rewrite bind_assoc.
    rewrite (bind_Ok _ _ _ _ _ (get_mem_run _)), (bind_Ok _ _ _ _ _ (put_mem_run _ _)).
    knorm. done.
Qed.

Lemma kfree_run pa w : cpu_ok w -> lock_free L_kmem w -> valid_page kend pa ->
  let p := compc (T := pmem) w in
  kfree kend pa w =
  Ok ((), touch (updc (Pmem (store64 (memset (pbytes p) pa 1 PGSIZE) pa (freelist p)) pa) w)).
Proof.
  intros Hc Hl [Ha Hr] p. unfold kfree. rewrite Ha. rewrite Z.geb_leb.
  rewrite (proj2 (Z.ltb_ge _ _)), (proj2 (Z.leb_gt _ _)) by lia. cbn [Z.eqb negb orb].
  rewrite (bind_Ok _ _ _ _ _ (get_mem_run _)), (bind_Ok _ _ _ _ _ (put_mem_run _ _)). fold p.
  kacquire. rewrite bind_getD, bind_putD. knorm. rewrite bind_getD, bind_putD. knorm. cbn [pbytes freelist].
  by apply release_acq; eauto with xv6.
Qed.

Lemma kfree_panic pa w : ~ valid_page kend pa -> kfree kend pa w = Panic "kfree".
Proof.
  intros H. unfold kfree, valid_page in *. rewrite Z.geb_leb.
  destruct (Z.eqb_spec (pa mod PGSIZE) 0), (Z.ltb_spec pa kend), (Z.leb_spec PHYSTOP pa);
    try done. exfalso. apply H. lia.
Qed.

Lemma kalloc_ok w l : 0 < kend -> cpu_ok w -> lock_free L_kmem w ->
  free_rep kend (compc w) l ->
  exists w', kalloc w = Ok (hd 0 l, w') /\ frame pmem w w' /\
    free_rep kend (compc w') (tl l) /\
    match l with
    | [] => compc (T := pmem) w' = compc w
    | x :: _ =>
        outside x (pbytes (compc w)) (pbytes (compc w')) /\
        forall b, x <= b < x + PGSIZE -> rd (pbytes (compc w')) b = 5
    end.
Proof.
  intros Hk Hc Hl (Hln & Hnd & Hv). rewrite kalloc_run by done. destruct l as [|x l]; cbn in Hln.
  - rewrite Hln. cbn. eexists; split; [done|]. split; [apply frame_touch|].
    rewrite compc_touch. split; [by split|done].
  - destruct Hln as [Hx Hln]. rewrite Hx.
    apply Forall_cons in Hv as [[Hxa Hxr] Hv]. apply NoDup_cons in Hnd as [Hxl Hnd].
    rewrite (proj2 (Z.eqb_neq _ _)) by lia.
    eexists; split; [done|]. split; [apply frame_upd|]. rewrite compc_touch, compc_updc. cbn.
    assert (Ho : outside x (pbytes (compc w)) (memset (pbytes (compc w)) x 5 PGSIZE)).
    { intros b Hb. rewrite rd_memset by done. by rewrite bool_decide_false by lia. }
    split_and!; [|done|].
    + split; [|done]. cbn. by eapply linked_outside.
    + intros b Hb. rewrite rd_memset by done. by rewrite bool_decide_true.
Qed.

Lemma kfree_ok pa w l : 0 < kend -> cpu_ok w -> lock_free L_kmem w ->
  free_rep kend (compc w) l -> valid_page kend pa -> pa ∉ l ->
  exists w', kfree kend pa w = Ok ((), w') /\ frame pmem w w' /\
    free_rep kend (compc w') (pa :: l) /\
    outside pa (pbytes (compc w)) (pbytes (compc w')).
Proof.
  intros Hk Hc Hl (Hln & Hnd & Hv) Hpa Hn. rewrite kfree_run by done.
  eexists; split; [done|]. split; [apply frame_upd|]. rewrite compc_touch, compc_updc. cbn.
  destruct Hpa as [Ha Hr].
  set (m := pbytes (compc w)) in *. set (m' := store64 _ _ _).
  assert (Ho : outside pa m m').
  { intros b Hb. subst m'. rewrite rd_store64_out by (unfold PGSIZE in *; lia).
    rewrite rd_memset by done. by rewrite bool_decide_false by lia. }
  split; [|done]. split_and!; cbn.
  - split; [done|]. subst m'. rewrite load64_store64_eq.
    + by eapply linked_outside.
    + destruct l as [|y l]; cbn in Hln; [rewrite Hln; lia|]. destruct Hln as [-> _].
      apply Forall_cons in Hv as [[_ ?] _]. unfold PHYSTOP, KERNBASE in *. lia.
  - by apply NoDup_cons.
  - by apply Forall_cons.
Qed.
(** The pages [p], [p + PGSIZE], ... *)
Fixpoint pages (p : Z) (n : nat) : list Z :=
  match n with
  | O => []
  | Datatypes.S n' => p :: pages (p + PGSIZE) n'
  end.

Lemma pages_length p n : length (pages p n) = n.
Proof. revert p. induction n; intros p; cbn; [done|]. by f_equal. Qed.

Lemma elem_of_pages p n pa :
  pa ∈ pages p n <-> exists i, 0 <= i < Z.of_nat n /\ pa = p + PGSIZE * i.
Proof.
  revert p. induction n as [|n IH]; intros p; cbn [pages].
  - split; [by intros ?%elem_of_nil|intros (i & ? & _); lia].
  - rewrite elem_of_cons, IH. split.
    + intros [->|(i & Hi & ->)]; [exists 0; lia|]. exists (i + 1). lia.
    + intros (i & Hi & ->). destruct (decide (i = 0)) as [->|]; [left; lia|].
      right. exists (i - 1). lia.
Qed.

Lemma freerange_loop_ok n p pa_end fuel w l :
  0 < kend -> cpu_ok w -> lock_free L_kmem w -> free_rep kend (compc w) l ->
  (n < fuel)%nat -> p + PGSIZE * Z.of_nat n <= pa_end < p + PGSIZE * (Z.of_nat n + 1) ->
  p mod PGSIZE = 0 -> kend <= p -> pa_end <= PHYSTOP -> (forall x, x ∈ l -> x < p) ->
  exists w', loop fuel (freerange_body kend pa_end) p w = Ok ((), w') /\
    frame pmem w w' /\ free_rep kend (compc w') (rev (pages p n) ++ l).
Proof.
  intros Hk. revert p fuel w l.
  induction n as [|n IH]; intros p fuel w l Hc Hl Hf Hfuel Hn Ha Hkp Hend Hlt;
    (destruct fuel as [|fuel]; [lia|]); unfold PGSIZE in Hn.
  - exists w. split; [|by split]. apply loop_exit. unfold freerange_body.
    by rewrite (proj2 (Z.leb_gt _ _)) by (unfold PGSIZE; lia).
  - destruct (kfree_ok p w l) as (w1 & E1 & F1 & R1 & _); try done.
    { unfold valid_page, PGSIZE in *. lia. }
    { intros Hx. apply Hlt in Hx. lia. }
    destruct (IH (p + PGSIZE) fuel w1 (p :: l)) as (w2 & E2 & F2 & R2);
      eauto with xv6; try (unfold PGSIZE; lia).
    { rewrite Z.add_mod, Ha by done. done. }
    { unfold PGSIZE. intros x [->|Hx]%elem_of_cons; [lia|]. apply Hlt in Hx. lia. }
    exists w2. split; [|split; [by etrans|]].
    + rewrite <- E2. apply loop_next. unfold freerange_body.
      rewrite (proj2 (Z.leb_le _ _)) by (unfold PGSIZE; lia).
      by rewrite (bind_Ok _ _ _ _ _ E1).
    + cbn [pages rev]. by rewrite <- app_assoc.
Qed.

Lemma initlock_run l name w : initlock l name w = Ok ((), set_lock l (Spinlock 0 name None) w).
Proof. done. Qed.

Lemma kinit_ok w : 0 < kend <= PHYSTOP - PGSIZE -> cpu_ok w -> freelist (compc w) = 0 ->
  let p := PGROUNDUP kend in
  exists w', kinit kend w = Ok ((), w') /\
    frame pmem (set_lock L_kmem (Spinlock 0 "kmem" None) w) w' /\
    free_rep kend (compc w') (rev (pages p (Z.to_nat ((PHYSTOP - p) / PGSIZE)))).
Proof.
  intros Hk Hc H0 p. unfold kinit. rewrite (bind_Ok _ _ _ _ _ (initlock_run _ _ _)).
  unfold freerange. fold p.
  assert (Hp : kend <= p < kend + PGSIZE)
    by (apply PGROUNDUP_range; unfold PHYSTOP, KERNBASE, PGSIZE in *; lia).
  assert (Ha : p mod PGSIZE = 0)
    by (apply PGROUNDUP_aligned; unfold PHYSTOP, KERNBASE, PGSIZE in *; lia).
  set (n := (PHYSTOP - p) / PGSIZE).
  assert (0 <= n) by (apply Z.div_pos; unfold PGSIZE in *; lia).
  destruct (freerange_loop_ok (Z.to_nat n) p PHYSTOP (Z.to_nat (n + 2))
    (set_lock L_kmem (Spinlock 0 "kmem" None) w) []) as (w' & E & F & R); try done; try lia.
  - exists "kmem". apply lookup_insert_eq.
  - split_and!; [exact H0|constructor|constructor].
  - rewrite Z2Nat.id by done. subst n. unfold PGSIZE in *.
    pose proof (Z.div_mod (PHYSTOP - p) 4096 ltac:(done)).
    pose proof (Z.mod_pos_bound (PHYSTOP - p) 4096 ltac:(done)). lia.
  - set_solver.
  - exists w'. by rewrite app_nil_r in R.
Qed.

Lemma count_loop_ok l r n fuel w : 0 < kend ->
  linked (pbytes (compc w)) r l -> Forall (valid_page kend) l ->
  (length l < fuel)%nat -> 0 <= n -> n + Z.of_nat (length l) < 2 ^ 64 ->
  loop fuel count_body (r, n) w = Ok (n + Z.of_nat (length l), w).
Proof.
  intros Hk. revert r n fuel. induction l as [|x l IH]; intros r n [|fuel] Hl Hv Hf Hn Hm;
    cbn [length] in *; try lia; cbn in Hl.
  - subst r. rewrite Z.add_0_r. by apply loop_exit.
  - destruct Hl as [-> Hl]. apply Forall_cons in Hv as [[_ ?] Hv].
    rewrite (loop_next _ _ _ _ (load64 (pbytes (compc w)) x, n + 1) w).
    + rewrite IH by (done || lia). do 2 f_equal. lia.
    + unfold count_body. rewrite (proj2 (Z.eqb_neq _ _)) by lia. cbn [negb].
      rewrite (bind_Ok _ _ _ _ _ (get_mem_run _)). by rewrite u64_id by lia.
Qed.

Lemma count_free_kmem_ok fuel w l : 0 < kend -> cpu_ok w -> lock_free L_kmem w ->
  free_rep kend (compc w) l -> (length l < fuel)%nat -> PGSIZE * Z.of_nat (length l) < 2 ^ 64 ->
  count_free_kmem fuel w = Ok (PGSIZE * Z.of_nat (length l), touch w).
Proof.
  intros Hk Hc Hlk (Hl & Hnd & Hv) Hf Hm. unfold count_free_kmem. kacquire.
  unfold PGSIZE in *. rewrite bind_getD. rewrite (bind_Ok _ _ _ (0 + Z.of_nat (length l)) (acq L_kmem w)).
  - krelease. rewrite u64_id by lia. unfold mret, M_ret. do 2 f_equal. lia.
  - by eapply count_loop_ok; try done; lia.
Qed.
End Spec.

(** ** Properties *)

Section Props.
Context {S : Type} `{!Has pmem S} (kend : Z) (kend_pos : 0 < kend).
Implicit Types (w : world S) (l : list Z).

(** The allocator implements a stack of free pages.  kalloc returns 0 exactly
    when there is none; otherwise it hands out one free page, filled with the
    byte 5, takes it off the list, changes no byte of any other page and leaves
    the rest of the kernel state and its locks alone. *)
Theorem kalloc_correct w l
  (Hc : cpu_ok w) (Hl : lock_free L_kmem w) (Hf : free_rep kend (compc w) l) :
  exists w', kalloc w = Ok (hd 0 l, w') /\ frame pmem w w' /\
    free_rep kend (compc w') (tl l) /\
    match l with
    | [] => compc (T := pmem) w' = compc w
    | x :: _ =>
        outside x (pbytes (compc w)) (pbytes (compc w')) /\
        forall b, x <= b < x + PGSIZE -> rd (pbytes (compc w')) b = 5
    end.
Proof. by apply kalloc_ok. Qed.

(** kfree pushes an allocated page back: the free list is again a list of
    distinct valid pages, and the page is the next one kalloc returns.  A pointer
    that is not page aligned, below [end] or at or above PHYSTOP is a panic. *)
Theorem kfree_correct w l pa
  (Hc : cpu_ok w) (Hl : lock_free L_kmem w) (Hf : free_rep kend (compc w) l)
  (Hn : pa ∉ l) :
  (valid_page kend pa ->
   exists w', kfree kend pa w = Ok ((), w') /\ frame pmem w w' /\
     free_rep kend (compc w') (pa :: l) /\
     outside pa (pbytes (compc w)) (pbytes (compc w')) /\
     exists w'', kalloc w' = Ok (pa, w'') /\ free_rep kend (compc w'') l) /\
  (~ valid_page kend pa -> kfree kend pa w = Panic "kfree").
Proof.
  split; [|apply kfree_panic]. intros Hv.
  destruct (kfree_ok kend pa w l) as (w1 & E1 & F1 & R1 & O1); try done.
  destruct (kalloc_ok kend w1 (pa :: l)) as (w2 & E2 & _ & R2 & _);
    [done|eauto with xv6..|done|].
  exists w1. split_and!; eauto.
Qed.

(** Booting puts every page between [end] and PHYSTOP on the free list exactly
    once. *)
Theorem kinit_correct w
  (Hk : kend <= PHYSTOP - PGSIZE) (Hc : cpu_ok w) (H0 : freelist (compc w) = 0) :
  exists w' l, kinit kend w = Ok ((), w') /\ free_rep kend (compc w') l /\
    lock_free L_kmem w' /\
    length l = Z.to_nat ((PHYSTOP - PGROUNDUP kend) / PGSIZE) /\
    forall pa, pa ∈ l <-> pa mod PGSIZE = 0 /\ PGROUNDUP kend <= pa /\ pa + PGSIZE <= PHYSTOP.
Proof.
  destruct (kinit_ok kend w) as (w' & E & F & R); [lia|done..|].
  exists w', (rev (pages (PGROUNDUP kend) (Z.to_nat ((PHYSTOP - PGROUNDUP kend) / PGSIZE)))).
  assert (Ha : PGROUNDUP kend mod PGSIZE = 0)
    by (apply PGROUNDUP_aligned; unfold PHYSTOP, KERNBASE, PGSIZE in *; lia).
  split_and!; [done..| | |].
  - eapply frame_lock_free; [done|]. exists "kmem". apply lookup_insert_eq.
  - by rewrite length_rev, pages_length.
  - intros pa. rewrite list_elem_of_In, <- in_rev, <- list_elem_of_In.
    rewrite elem_of_pages by done.
    unfold PGSIZE in *. pose proof (Z.div_mod (PHYSTOP - PGROUNDUP kend) 4096 ltac:(done)).
    pose proof (Z.mod_pos_bound (PHYSTOP - PGROUNDUP kend) 4096 ltac:(done)).
    split.
    + intros (i & Hi & ->). rewrite (Z.mul_comm 4096), Z.mod_add by done. lia.
    + intros (Hm1 & Hm2 & Hm3). exists ((pa - PGROUNDUP kend) / 4096).
      pose proof (Z.div_mod (pa - PGROUNDUP kend) 4096 ltac:(done)) as Hd.
      rewrite Zminus_mod, Hm1, Ha in Hd. change ((0 - 0) mod 4096) with 0 in Hd. lia.
Qed.

(** count_free_kmem returns the number of free bytes; the loop needs one round
    more than there are free pages. *)
Theorem count_free_kmem_correct fuel w l
  (Hc : cpu_ok w) (Hl : lock_free L_kmem w) (Hf : free_rep kend (compc w) l)
  (Hfuel : (length l < fuel)%nat) (Hm : PGSIZE * Z.of_nat (length l) < 2 ^ 64) :
  count_free_kmem fuel w = Ok (PGSIZE * Z.of_nat (length l), touch w).
Proof. by eapply count_free_kmem_ok. Qed.

End Props.

(** A machine with one free page, just below PHYSTOP. *)
Definition one_page : Z := PHYSTOP - PGSIZE.
Definition kalloc_example : world pmem := boot_world (Pmem ∅ one_page).

Lemma example_cpu : cpu_ok kalloc_example.
Proof. split; vm_compute; congruence. Qed.
Lemma example_lock : lock_free L_kmem kalloc_example.
Proof. exists "". by vm_compute. Qed.
Lemma example_free : free_rep one_page (compc kalloc_example) [one_page].
Proof.
  split_and!; [by vm_compute|apply NoDup_singleton|].
  apply Forall_singleton. split; vm_compute; [done|]. split; congruence.
Qed.

Lemma kalloc_correct_witness :
  exists w', kalloc kalloc_example = Ok (one_page, w') /\ free_rep one_page (compc w') [].
Proof.
  destruct (kalloc_correct (S := pmem) one_page ltac:(vm_compute; reflexivity) kalloc_example [one_page]
    example_cpu example_lock example_free) as (w' & E & _ & R & _).
  exists w'. split; [exact E|exact R].
Defined.

Lemma kfree_correct_witness :
  exists w', kfree (one_page - PGSIZE) (one_page - PGSIZE) kalloc_example = Ok ((), w').
Proof.
  assert (Hf : free_rep (one_page - PGSIZE) (compc kalloc_example) [one_page]).
  { destruct example_free as (H1 & H2 & H3). split_and!; [exact H1|exact H2|].
    apply Forall_singleton. split; vm_compute; [done|]. split; congruence. }
  destruct (kfree_correct (S := pmem) (one_page - PGSIZE) ltac:(vm_compute; reflexivity) kalloc_example [one_page]
    (one_page - PGSIZE) example_cpu example_lock Hf) as [H _].
  - intros Hx%list_elem_of_singleton. vm_compute in Hx. congruence.
  - destruct H as (w' & E & _); [split; vm_compute; [done|]; split; congruence|].
    exists w'. exact E.
Defined.

Lemma kinit_correct_witness :
  exists w', kinit one_page (boot_world (Pmem ∅ 0)) = Ok ((), w') /\ lock_free L_kmem w'.
Proof.
  destruct (kinit_correct (S := pmem) one_page ltac:(vm_compute; reflexivity) (boot_world (Pmem ∅ 0))) as (w' & l & E & _ & L & _).
  - unfold one_page. lia.
  - split; vm_compute; congruence.
  - reflexivity.
  - exists w'. split; [exact E|exact L].
Defined.

Lemma count_free_kmem_correct_witness :
  count_free_kmem 2 kalloc_example = Ok (4096, touch kalloc_example).
Proof.
  apply (count_free_kmem_correct (S := pmem) one_page ltac:(vm_compute; reflexivity) 2 kalloc_example [one_page]
    example_cpu example_lock example_free); [simpl; lia|by vm_compute].
Defined.
