(* ===== verification/Vm.v ===== *)
(** * kernel/vm.c: Sv39 page tables

    Page-table pages live in the byte memory of [Kalloc]; a page table is the
    address of its root page, a PTE pointer the address of eight bytes.  The
    first part is the C code.  The second part shows that a page table in
    memory represents a function from virtual pages to PTEs ([pte_of]), that
    [walk] computes it, and that mappages, uvmunmap and the copy routines act on
    it as their comments say.  Loops carry fuel: the number of pages of the range
    plus two. *)
From S2P Require Import Prelude Memory CString Spinlock Riscv Kalloc.
From stdpp Require Import prelude gmap strings.
From Stdlib Require Import ZArith Lia.
Import KString.
Open Scope Z_scope.

Section Vm.
Context {S : Type} `{!Has pmem S} (kend : Z).

(** One round of the loop of walk: the page-table page below [pagetable] on the
    way to [va]; [None] is [return 0]. *)
Definition walk_level (pagetable va : Z) (alloc : bool) (level : Z) : K S (option Z) :=
  let pte := pagetable + 8 * PX level va in
  m ← get_mem;
  if negb (Z.land (load64 m pte) PTE_V =? 0) then mret (Some (PTE2PA (load64 m pte)))
  else if negb alloc then mret None
  else
    pg ← kalloc;
    if pg =? 0 then mret None
    else
      m ← get_mem;
      put_mem (memset m pg 0 PGSIZE) ;;
      m ← get_mem;
      put_mem (store64 m pte (Z.lor (PA2PTE pg) PTE_V)) ;;
      mret (Some pg).

Definition walk (pagetable va : Z) (alloc : bool) : K S Z :=
  if va >=? MAXVA then panic "walk"
  else
    p1 ← walk_level pagetable va alloc 2;
    match p1 with
    | None => mret 0
    | Some pt1 =>
        p0 ← walk_level pt1 va alloc 1;
        match p0 with
        | None => mret 0
        | Some pt0 => mret (pt0 + 8 * PX 0 va)
        end
    end.

Definition walkaddr (pagetable va : Z) : K S Z :=
  if va >=? MAXVA then mret 0
  else
    pte ← walk pagetable va false;
    if pte =? 0 then mret 0
    else
      m ← get_mem;
      let v := load64 m pte in
      if Z.land v PTE_V =? 0 then mret 0
      else if Z.land v PTE_U =? 0 then mret 0
      else mret (PTE2PA v).

Definition mappages_body (pagetable last perm : Z) (x : Z * Z) : K S ((Z * Z) + Z) :=
  let '(a, pa) := x in
  pte ← walk pagetable a true;
  if pte =? 0 then mret (inr (-1))
  else
    m ← get_mem;
    if negb (Z.land (load64 m pte) PTE_V =? 0) then panic "remap"
    else
      put_mem (store64 m pte (Z.lor (Z.lor (PA2PTE pa) perm) PTE_V)) ;;
      if a =? last then mret (inr 0)
      else mret (inl (u64 (a + PGSIZE), u64 (pa + PGSIZE))).
Definition mappages (pagetable va size pa perm : Z) : K S Z :=
  let a := PGROUNDDOWN va in
  let last := PGROUNDDOWN (u64 (va + size - 1)) in
  loop (Z.to_nat (if a <=? last then (last - a) / PGSIZE + 2 else MAXVA / PGSIZE + 2))
    (mappages_body pagetable last perm) (a, pa).

(** [kernel_pagetable] is an argument of the routines that use it. *)
Definition kvmmap (kernel_pagetable va pa sz perm : Z) : K S () :=
  r ← mappages kernel_pagetable va sz pa perm;
  if negb (r =? 0) then panic "kvmmap" else mret ().

Definition kvmpa (kernel_pagetable va : Z) : K S Z :=
  let off := va mod PGSIZE in
  pte ← walk kernel_pagetable va false;
  if pte =? 0 then panic "kvmpa"
  else
    m ← get_mem;
    if Z.land (load64 m pte) PTE_V =? 0 then panic "kvmpa"
    else mret (u64 (PTE2PA (load64 m pte) + off)).

(** [etext] and [trampoline] are linker symbols. *)
Definition kvminit (etext trampoline : Z) : K S Z :=
  kpt ← kalloc;
  m ← get_mem;
  put_mem (memset m kpt 0 PGSIZE) ;;
  kvmmap kpt UART0 UART0 PGSIZE (Z.lor PTE_R PTE_W) ;;
  kvmmap kpt VIRTIO0 VIRTIO0 PGSIZE (Z.lor PTE_R PTE_W) ;;
  kvmmap kpt CLINT CLINT 65536 (Z.lor PTE_R PTE_W) ;;
  kvmmap kpt PLIC PLIC 4194304 (Z.lor PTE_R PTE_W) ;;
  kvmmap kpt KERNBASE KERNBASE (etext - KERNBASE) (Z.lor PTE_R PTE_X) ;;
  kvmmap kpt etext etext (PHYSTOP - etext) (Z.lor PTE_R PTE_W) ;;
  kvmmap kpt TRAMPOLINE trampoline PGSIZE (Z.lor PTE_R PTE_X) ;;
  mret kpt.

Definition uvmunmap_body (pagetable lim : Z) (do_free : bool) (a : Z) : K S (Z + ()) :=
  if a <? lim then
    pte ← walk pagetable a false;
    if pte =? 0 then panic "uvmunmap: walk"
    else
      m ← get_mem;
      let v := load64 m pte in
      if Z.land v PTE_V =? 0 then panic "uvmunmap: not mapped"
      else if PTE_FLAGS v =? PTE_V then panic "uvmunmap: not a leaf"
      else
        (if do_free then kfree kend (PTE2PA v) else mret ()) ;;
        m ← get_mem;
        put_mem (store64 m pte 0) ;;
        mret (inl (u64 (a + PGSIZE)))
  else mret (inr ()).
Definition uvmunmap (pagetable va npages : Z) (do_free : bool) : K S () :=
  if negb (va mod PGSIZE =? 0) then panic "uvmunmap: not aligned"
  else
    loop (Z.to_nat (npages + 2))
      (uvmunmap_body pagetable (u64 (va + npages * PGSIZE)) do_free) va.

Definition uvmcreate : K S Z :=
  pagetable ← kalloc;
  if pagetable =? 0 then mret 0
  else
    m ← get_mem;
    put_mem (memset m pagetable 0 PGSIZE) ;;
    mret pagetable.

Definition uvminit (pagetable src sz : Z) : K S () :=
  if sz >=? PGSIZE then panic "inituvm: more than a page"
  else
    pg ← kalloc;
    m ← get_mem;
    put_mem (memset m pg 0 PGSIZE) ;;
    mappages pagetable 0 PGSIZE pg (Z.lor (Z.lor (Z.lor PTE_W PTE_R) PTE_X) PTE_U) ;;
    m ← get_mem;
    put_mem (memmove m pg src sz).

Definition uvmdealloc (pagetable oldsz newsz : Z) : K S Z :=
  if newsz >=? oldsz then mret oldsz
  else
    (if PGROUNDUP newsz <? PGROUNDUP oldsz then
       let npages := i32 ((PGROUNDUP oldsz - PGROUNDUP newsz) / PGSIZE) in
       uvmunmap pagetable (PGROUNDUP newsz) npages true
     else mret ()) ;;
    mret newsz.

Definition uvmalloc_body (pagetable oldsz newsz a : Z) : K S (Z + Z) :=
  if a <? newsz then
    pg ← kalloc;
    if pg =? 0 then
      uvmdealloc pagetable a oldsz ;; mret (inr 0)
    else
      m ← get_mem;
      put_mem (memset m pg 0 PGSIZE) ;;
      r ← mappages pagetable a PGSIZE pg (Z.lor (Z.lor (Z.lor PTE_W PTE_X) PTE_R) PTE_U);
      if negb (r =? 0) then
        kfree kend pg ;;
        uvmdealloc pagetable a oldsz ;; mret (inr 0)
      else mret (inl (u64 (a + PGSIZE)))
  else mret (inr newsz).
Definition uvmalloc (pagetable oldsz newsz : Z) : K S Z :=
  if newsz <? oldsz then mret oldsz
  else
    let oldsz := PGROUNDUP oldsz in
    loop (Z.to_nat ((newsz - oldsz) / PGSIZE + 2)) (uvmalloc_body pagetable oldsz newsz) oldsz.

(** The recursion of freewalk goes down the levels; [depth] bounds it. *)
Fixpoint freewalk (depth : nat) (pagetable : Z) : K S () :=
  match depth with
  | O => nofuel
  | Datatypes.S d =>
      for_each (seqZ 0 512) (fun i =>
        m ← get_mem;
        let pte := load64 m (pagetable + 8 * i) in
        if negb (Z.land pte PTE_V =? 0) && (Z.land pte (Z.lor (Z.lor PTE_R PTE_W) PTE_X) =? 0)
        then
          freewalk d (PTE2PA pte) ;;
          m ← get_mem;
          put_mem (store64 m (pagetable + 8 * i) 0)
        else if negb (Z.land pte PTE_V =? 0) then panic "freewalk: leaf"
        else mret ()) ;;
      kfree kend pagetable
  end.

Definition uvmfree (pagetable sz : Z) : K S () :=
  (if sz >? 0 then uvmunmap pagetable 0 (PGROUNDUP sz / PGSIZE) true else mret ()) ;;
  freewalk 4 pagetable.

(** [inr (Some i)] is [goto err] with the loop variable [i]. *)
Definition uvmcopy_body (old new sz i : Z) : K S (Z + option Z) :=
  if i <? sz then
    pte ← walk old i false;
    if pte =? 0 then panic "uvmcopy: pte should exist"
    else
      m ← get_mem;
      let v := load64 m pte in
      if Z.land v PTE_V =? 0 then panic "uvmcopy: page not present"
      else
        let pa := PTE2PA v in
        let flags := PTE_FLAGS v in
        pg ← kalloc;
        if pg =? 0 then mret (inr (Some i))
        else
          m ← get_mem;
          put_mem (memmove m pg pa PGSIZE) ;;
          r ← mappages new i PGSIZE pg flags;
          if negb (r =? 0) then kfree kend pg ;; mret (inr (Some i))
          else mret (inl (u64 (i + PGSIZE)))
  else mret (inr None).
Definition uvmcopy (old new sz : Z) : K S Z :=
  r ← loop (Z.to_nat (sz / PGSIZE + 2)) (uvmcopy_body old new sz) 0;
  match r with
  | None => mret 0
  | Some i => uvmunmap new 0 (i / PGSIZE) true ;; mret (-1)
  end.

Definition uvmclear (pagetable va : Z) : K S () :=
  pte ← walk pagetable va false;
  if pte =? 0 then panic "uvmclear"
  else
    m ← get_mem;
    put_mem (store64 m pte (Z.land (load64 m pte) (Z.lnot PTE_U))).

(** [while (len > 0) { ... }] with the variables dstva, src, len. *)
Definition copyout_body (pagetable : Z) (x : Z * Z * Z) : K S ((Z * Z * Z) + Z) :=
  let '(dstva, src, len) := x in
  if len >? 0 then
    let va0 := PGROUNDDOWN dstva in
    pa0 ← walkaddr pagetable va0;
    if pa0 =? 0 then mret (inr (-1))
    else
      let n := PGSIZE - (dstva - va0) in
      let n := if n >? len then len else n in
      m ← get_mem;
      put_mem (memmove m (pa0 + (dstva - va0)) src n) ;;
      mret (inl (u64 (va0 + PGSIZE), src + n, len - n))
  else mret (inr 0).
Definition copyout (pagetable dstva src len : Z) : K S Z :=
  loop (Z.to_nat (len / PGSIZE + 3)) (copyout_body pagetable) (dstva, src, len).

Definition copyin_body (pagetable : Z) (x : Z * Z * Z) : K S ((Z * Z * Z) + Z) :=
  let '(dst, srcva, len) := x in
  if len >? 0 then
    let va0 := PGROUNDDOWN srcva in
    pa0 ← walkaddr pagetable va0;
    if pa0 =? 0 then mret (inr (-1))
    else
      let n := PGSIZE - (srcva - va0) in
      let n := if n >? len then len else n in
      m ← get_mem;
      put_mem (memmove m dst (pa0 + (srcva - va0)) n) ;;
      mret (inl (dst + n, u64 (va0 + PGSIZE), len - n))
  else mret (inr 0).
Definition copyin (pagetable dst srcva len : Z) : K S Z :=
  loop (Z.to_nat (len / PGSIZE + 3)) (copyin_body pagetable) (dst, srcva, len).

(** The inner loop of copyinstr: copy up to [n] bytes from [p]; the result is
    whether the NUL was found and how many bytes were copied before it. *)
Fixpoint copyinstr_page (m : mem) (dst p : Z) (n : nat) : mem * bool * Z :=
  match n with
  | O => (m, false, 0)
  | Datatypes.S n' =>
      if rd m p =? 0 then (wr m dst 0, true, 0)
      else
        let '(m', got_null, k) := copyinstr_page (wr m dst (rd m p)) (dst + 1) (p + 1) n' in
        (m', got_null, k + 1)
  end.
Definition copyinstr_body (pagetable : Z) (x : Z * Z * Z * bool) : K S ((Z * Z * Z * bool) + Z) :=
  let '(dst, srcva, max, got_null) := x in
  if negb got_null && (max >? 0) then
    let va0 := PGROUNDDOWN srcva in
    pa0 ← walkaddr pagetable va0;
    if pa0 =? 0 then mret (inr (-1))
    else
      let n := PGSIZE - (srcva - va0) in
      let n := if n >? max then max else n in
      m ← get_mem;
      let '(m', got, k) := copyinstr_page m dst (pa0 + (srcva - va0)) (Z.to_nat n) in
      put_mem m' ;;
      mret (inl (dst + k, u64 (va0 + PGSIZE), max - k, got))
  else mret (inr (if got_null then 0 else -1)).
Definition copyinstr (pagetable dst srcva max : Z) : K S Z :=
  loop (Z.to_nat (max / PGSIZE + 3)) (copyinstr_body pagetable) (dst, srcva, max, false).

(** vmprint: the lines it prints, as (level, index, pte, pa). *)
Fixpoint vmprint_dfs (depth : nat) (m : mem) (pagetable level : Z) : list (Z * Z * Z * Z) :=
  match depth with
  | O => []
  | Datatypes.S d =>
      i ← seqZ 0 512;
      let pte := load64 m (pagetable + 8 * i) in
      if negb (Z.land pte PTE_V =? 0) then
        (level, i, pte, PTE2PA pte) :: vmprint_dfs d m (PTE2PA pte) (level + 1)
      else []
  end.
Definition vmprint (pagetable : Z) : K S (Z * list (Z * Z * Z * Z)) :=
  m ← get_mem; mret (pagetable, vmprint_dfs 3 m pagetable 0).

End Vm.

(** ** Page tables as functions *)

Section Rep.
Context (kend : Z).

(** The page-table pages of a page table, by the indices that lead to them:
    the root is at [[]], the level-1 page below entry [i] at [[i]], the level-0
    page at [[i; j]]. *)
Abbreviation tree := (gmap (list Z) Z).

Record pt_ok (m : mem) (root : Z) (T : tree) : Prop := {
  pt_root : T !! [] = Some root;
  pt_valid : forall k x, T !! k = Some x -> valid_page kend x;
  pt_inj : forall k k' x, T !! k = Some x -> T !! k' = Some x -> k = k';
  pt_node : forall k x i, T !! k = Some x -> (length k < 2)%nat -> 0 <= i < 512 ->
    match T !! (k ++ [i]) with
    | Some y => load64 m (x + 8 * i) = Z.lor (PA2PTE y) PTE_V
    | None => Z.land (load64 m (x + 8 * i)) PTE_V = 0
    end;
  pt_closed : forall k i x, T !! (k ++ [i]) = Some x ->
    is_Some (T !! k) /\ (length k < 2)%nat;
}.

(** The address of the leaf PTE of [va], and the PTE itself (0: no page-table
    page there). *)
Definition pte_addr (T : tree) (va : Z) : option Z :=
  p0 ← T !! [PX 2 va; PX 1 va]; Some (p0 + 8 * PX 0 va).
Definition pte_of (m : mem) (T : tree) (va : Z) : Z :=
  match pte_addr T va with Some a => load64 m a | None => 0 end.

(** The allocator and one page table, with disjoint pages. *)
Record vm_ok (p : pmem) (root : Z) (T : tree) (l : list Z) : Prop := {
  vm_free : free_rep kend p l;
  vm_pt : pt_ok (pbytes p) root T;
  vm_disj : forall k x, T !! k = Some x -> x ∉ l;
}.

(** Addresses outside the page-table pages and the free pages. *)
Definition foreign (T : tree) (l : list Z) (b : Z) : Prop :=
  (forall k x, T !! k = Some x -> b < x \/ x + PGSIZE <= b) /\
  (forall x, x ∈ l -> b < x \/ x + PGSIZE <= b).

(** What every operation on page tables guarantees of the rest of memory. *)
Definition grows (m m' : mem) (T T' : tree) (l l' : list Z) : Prop :=
  forall b, foreign T l b -> foreign T' l' b /\ rd m' b = rd m b.

#[export] Instance grows_refl m T l : Reflexive (fun (_ _ : ()) => grows m m T T l l).
Proof. by intros _ b Hb. Qed.

Lemma grows_trans m1 m2 m3 T1 T2 T3 l1 l2 l3 :
  grows m1 m2 T1 T2 l1 l2 -> grows m2 m3 T2 T3 l2 l3 -> grows m1 m3 T1 T3 l1 l3.
Proof.
  intros H12 H23 b Hb. destruct (H12 b Hb) as [Hb2 E2].
  destruct (H23 b Hb2) as [Hb3 E3]. split; [done|congruence].
Qed.

(** Two cells of page-table pages overlap only when they are the same cell. *)
Lemma cells_disjoint x y i j : valid_page kend x -> valid_page kend y ->
  0 <= i < 512 -> 0 <= j < 512 -> x <> y \/ i <> j ->
  x + 8 * i + 8 <= y + 8 * j \/ y + 8 * j + 8 <= x + 8 * i.
Proof.
  intros [Hx _] [Hy _] Hi Hj Hne. destruct (decide (x = y)) as [->|Hxy]; [lia|].
  destruct (pages_disjoint x y Hx Hy Hxy); unfold PGSIZE in *; lia.
Qed.

Lemma valid_lt x : 0 < kend -> valid_page kend x -> 0 < x < 2 ^ 56 /\ page_aligned x.
Proof.
  intros Hk [Ha Hr]. split; [|done]. unfold PHYSTOP, KERNBASE in *. lia.
Qed.

(** Writing a leaf PTE keeps the representation and changes one entry. *)
Lemma set_pte_ok p root T l va a v :
  0 < kend -> vm_ok p root T l -> 0 <= v < 2 ^ 64 -> pte_addr T va = Some a ->
  let m' := store64 (pbytes p) a v in
  vm_ok (Pmem m' (freelist p)) root T l /\
  grows (pbytes p) m' T T l l /\
  forall va', 0 <= va < MAXVA -> 0 <= va' < MAXVA ->
    pte_of m' T va' = if decide (va' / 4096 = va / 4096) then v else pte_of (pbytes p) T va'.
Proof.
  intros Hk [Hf Hp Hd] Hv Ha m'. unfold pte_addr in Ha.
  destruct (T !! [PX 2 va; PX 1 va]) as [x|] eqn:Ex; cbn in Ha; [|done]. injection Ha as <-.
  pose proof (PX_range 0 va ltac:(lia)) as H0.
  destruct (pt_valid _ _ _ Hp _ _ Ex) as [Hxa Hxr].
  assert (Hgr : grows (pbytes p) m' T T l l).
  { intros b [Hb1 Hb2]. split; [done|]. apply rd_store64_out.
    destruct (Hb1 _ _ Ex); unfold PGSIZE in *; lia. }
  split_and!; [|done|].
  - split; cbn.
    + destruct Hf as (Hl & Hnd & Hval). split_and!; [|done..]. cbn.
      eapply linked_outside; [|done..|by eapply Hd|done|done].
      intros b Hb. apply rd_store64_out. unfold PGSIZE in *. lia.
    + destruct Hp as [P1 P2 P3 P4 P5]. split; try done. intros k y i Hk' Hlen Hi.
      subst m'. rewrite load64_store64_ne; [by apply P4|].
      apply cells_disjoint; eauto. left. intros ->.
      assert (k = [PX 2 va; PX 1 va]) by eauto. subst k. cbn in Hlen. lia.
    + done.
  - intros va' Hva Hva'. unfold pte_of, pte_addr.
    destruct (T !! [PX 2 va'; PX 1 va']) as [y|] eqn:Ey; cbn.
    + case_decide as Hpg.
      * rewrite !(PX_same_page _ va' va) in * by (done || lia).
        assert (y = x) by congruence. subst y. by apply load64_store64_eq.
      * apply load64_store64_ne, cells_disjoint;
          [by eapply pt_valid|by split|apply PX_range; lia|done|].
        destruct (decide (y = x)) as [->|]; [right|by left].
        intros E0. pose proof (pt_inj _ _ _ Hp _ _ _ Ey Ex) as Ek. injection Ek as E2 E1.
        apply Hpg, PX_inj; done || congruence.
    + case_decide as Hpg; [|done]. exfalso.
      rewrite !(PX_same_page _ va' va) in * by (done || lia). congruence.
Qed.
Lemma pte_range pa fl : 0 < kend -> valid_page kend pa -> 0 <= fl < 1024 ->
  0 <= Z.lor (PA2PTE pa) fl < 2 ^ 64.
Proof.
  intros Hk Hv Hf. destruct (valid_lt pa Hk Hv) as [H Ha]. rewrite pte_make by (done || lia).
  pose proof (Z.div_mod pa 4096 ltac:(done)). pose proof (Z.mod_pos_bound pa 4096 ltac:(done)). lia.
Qed.

(** Memory after kalloc handed out [pg], the page was cleared and linked into
    entry [i] of the page-table page [x]. *)
Definition linked_mem (m1 : mem) (x i pg : Z) : mem :=
  store64 (memset m1 pg 0 PGSIZE) (x + 8 * i) (Z.lor (PA2PTE pg) PTE_V).

Section AddNode.
Context (m m1 : mem) (fl1 : Z) (root : Z) (T : tree) (l : list Z) (k : list Z) (x i pg : Z).
Hypotheses (Hk : 0 < kend) (Hp : pt_ok m root T) (Hd : forall k' y, T !! k' = Some y -> y ∉ pg :: l)
  (Hf1 : free_rep kend (Pmem m1 fl1) l) (Hpg : valid_page kend pg) (Hpl : pg ∉ l)
  (Ho : outside pg m m1)
  (Hx : T !! k = Some x) (Hlen : (length k < 2)%nat) (Hi : 0 <= i < 512)
  (Hnone : T !! (k ++ [i]) = None).

Let m3 := linked_mem m1 x i pg.

Lemma tree_page_ne k' y : T !! k' = Some y -> y <> pg.
Proof using Hd. intros Hy ->. apply (Hd _ _ Hy). by left. Qed.

(** A cell of another page-table page than the one written keeps its value. *)
Lemma add_node_load k' y j : T !! k' = Some y -> 0 <= j < 512 -> k' <> k \/ j <> i ->
  load64 m3 (y + 8 * j) = load64 m (y + 8 * j).
Proof.
  intros Hy Hj Hne. subst m3. unfold linked_mem.
  pose proof (pt_valid _ _ _ Hp _ _ Hy) as Hvy. pose proof (pt_valid _ _ _ Hp _ _ Hx) as Hvx.
  rewrite load64_store64_ne.
  - apply load64_ext. destruct Hvy as [Hya _], Hpg as [Hpa _].
    destruct (pages_disjoint y pg Hya Hpa (tree_page_ne _ _ Hy)) as [H|H];
      (eapply same_on_trans; [apply memset_same_on; unfold PGSIZE in *; lia|]);
      intros b Hb; apply Ho; unfold PGSIZE in *; lia.
  - apply cells_disjoint; try done.
    destruct (decide (y = x)) as [->|]; [right|by left].
    intros ->. assert (k' = k) by (by eapply pt_inj). tauto.
Qed.

(** The new page reads as zeros. *)
Lemma add_node_zero j : 0 <= j < 512 -> load64 m3 (pg + 8 * j) = 0.
Proof.
  intros Hj. subst m3. unfold linked_mem. pose proof (pt_valid _ _ _ Hp _ _ Hx) as Hvx.
  rewrite load64_store64_ne.
  - apply load64_memset_zero; unfold PGSIZE; lia.
  - apply cells_disjoint; try done. left. intros <-. by apply (tree_page_ne _ _ Hx).
Qed.

Lemma add_node_new : load64 m3 (x + 8 * i) = Z.lor (PA2PTE pg) PTE_V.
Proof. apply load64_store64_eq, pte_range; done. Qed.

Lemma add_node_free : free_rep kend (Pmem m3 fl1) l.
Proof.
  destruct Hf1 as (Hl & Hnd & Hv). split_and!; [|done..]. cbn in *.
  pose proof (pt_valid _ _ _ Hp _ _ Hx) as [Hxa _]. destruct Hpg as [Hpa _].
  eapply (linked_outside kend (memset m1 pg 0 PGSIZE) _ x); try done.
  - intros b Hb. apply rd_store64_out. unfold PGSIZE in *. lia.
  - intros Hxl. apply Hd in Hx. set_solver.
  - eapply (linked_outside kend m1 _ pg); try done.
    intros b Hb. rewrite rd_memset by done. by rewrite bool_decide_false by lia.
Qed.

Lemma add_node_pt : pt_ok m3 root (<[k ++ [i] := pg]> T).
Proof.
  pose proof add_node_new as Hnew. pose proof add_node_zero as Hzero.
  pose proof add_node_load as Hold. pose proof tree_page_ne as Hne.
  pose proof Hp as [P1 P2 P3 P4 P5]. split.
  - rewrite lookup_insert_ne; [done|]. by destruct k.
  - intros k' y. rewrite lookup_insert. case_decide; [by intros [= <-]|apply P2].
  - intros k1 k2 y. rewrite !lookup_insert.
    case_decide; case_decide; intros E1 E2; [congruence|..|by eapply P3];
      exfalso; [apply (Hne k2 y)|apply (Hne k1 y)]; congruence.
  - intros k' y j. rewrite !lookup_insert. case_decide as Ek.
    + intros [= <-] Hlk Hj. subst k'. rewrite decide_False
        by (intros Heq%(f_equal length); rewrite !length_app in Heq; cbn in Heq; lia).
      destruct (T !! ((k ++ [i]) ++ [j])) as [y'|] eqn:E.
      * apply P5 in E as [[u Hu] _]. congruence.
      * rewrite Hzero by done. done.
    + intros Hy Hlk Hj. case_decide as Ekj.
      * apply app_inj_tail in Ekj as [-> ->]. assert (y = x) by congruence. by subst.
      * assert (Hkj : k' <> k \/ j <> i).
        { destruct (decide (k' = k)) as [->|]; [right|by left]. intros ->. by apply Ekj. }
        rewrite (Hold k' y j Hy Hj Hkj). by apply P4.
  - intros k' j y. rewrite !lookup_insert. case_decide as Ek.
    + apply app_inj_tail in Ek as [-> ->]. intros _. rewrite decide_False; [eauto|].
      intros Heq%(f_equal length). rewrite length_app in Heq. cbn in Heq. lia.
    + intros Hy. apply P5 in Hy as [Hs Hl']. split; [|done]. case_decide; [eauto|done].
Qed.

Lemma add_node_vm : vm_ok (Pmem m3 fl1) root (<[k ++ [i] := pg]> T) l.
Proof.
  split; [apply add_node_free|apply add_node_pt|].
  intros k' y. rewrite lookup_insert. case_decide; [by intros [= <-]|].
  intros Hy. apply Hd in Hy. set_solver.
Qed.

Lemma add_node_grows : grows m m3 T (<[k ++ [i] := pg]> T) (pg :: l) l.
Proof.
  intros b [Hb1 Hb2]. split; [split|].
  - intros k' y. rewrite lookup_insert. case_decide; [intros [= <-]; apply Hb2; set_solver|apply Hb1].
  - intros y Hy. apply Hb2. set_solver.
  - subst m3. unfold linked_mem. pose proof (Hb1 _ _ Hx). pose proof (Hb2 pg ltac:(set_solver)).
    rewrite rd_store64_out by (unfold PGSIZE in *; lia).
    rewrite rd_memset by done. rewrite bool_decide_false by lia. apply Ho. lia.
Qed.

Lemma add_node_pte va : pte_of m3 (<[k ++ [i] := pg]> T) va = pte_of m T va.
Proof.
  unfold pte_of, pte_addr. rewrite lookup_insert. case_decide as E.
  - rewrite <- E, Hnone. cbn. apply add_node_zero, PX_range. lia.
  - destruct (T !! [PX 2 va; PX 1 va]) as [y|] eqn:Ey; cbn; [|done].
    apply (add_node_load [PX 2 va; PX 1 va]); [done|apply PX_range; lia|].
    left. intros <-. cbn in Hlen. lia.
Qed.
End AddNode.
End Rep.

Section Walk.
Context {S : Type} `{!Has pmem S} (kend : Z) (kend_pos : 0 < kend).
Implicit Types (w : world S) (T : gmap (list Z) Z) (l k : list Z).

Abbreviation pm w := (compc (T := pmem) w).
Abbreviation vm w root T l := (vm_ok kend (pm w) root T l).

(** What holds across an operation that may add page-table pages. *)
Definition extends w w' T T' l l' : Prop :=
  frame pmem w w' /\ T ⊆ T' /\ grows (pbytes (pm w)) (pbytes (pm w')) T T' l l'.

Lemma extends_refl w T l : extends w w T T l l.
Proof. split_and!; [done|done|by intros b Hb]. Qed.
Lemma extends_trans w1 w2 w3 T1 T2 T3 l1 l2 l3 :
  extends w1 w2 T1 T2 l1 l2 -> extends w2 w3 T2 T3 l2 l3 -> extends w1 w3 T1 T3 l1 l3.
Proof.
  intros (F1 & I1 & G1) (F2 & I2 & G2). split_and!; [by etrans|by etrans|].
  by eapply grows_trans.
Qed.

Lemma valid_flags : Z.land PTE_V PTE_V <> 0.
Proof. done. Qed.

Lemma walk_level_present w root T k x y va alloc level :
  pt_ok kend (pbytes (pm w)) root T -> T !! k = Some x -> (length k < 2)%nat -> 0 <= level ->
  T !! (k ++ [PX level va]) = Some y ->
  walk_level x va alloc level w = Ok (Some y, w).
Proof.
  intros Hp Hx Hlen Hlv Hy. unfold walk_level.
  rewrite (bind_Ok _ _ _ _ _ (get_mem_run _)).
  pose proof (pt_node _ _ _ _ Hp k x (PX level va) Hx Hlen ltac:(by apply PX_range)) as Hn.
  rewrite Hy in Hn. rewrite Hn. destruct (valid_lt kend y kend_pos) as [Hr Ha]; [by eapply pt_valid|].
  rewrite land_flags by done. rewrite pte_flags_out by (done || lia).
  rewrite (proj2 (Z.eqb_neq _ _) valid_flags). cbn [negb].
  by rewrite pte_PA by (done || lia).
Qed.

Lemma walk_level_absent w root T k x va level :
  pt_ok kend (pbytes (pm w)) root T -> T !! k = Some x -> (length k < 2)%nat -> 0 <= level ->
  T !! (k ++ [PX level va]) = None ->
  walk_level x va false level w = Ok (None, w).
Proof.
  intros Hp Hx Hlen Hlv Hy. unfold walk_level.
  rewrite (bind_Ok _ _ _ _ _ (get_mem_run _)).
  pose proof (pt_node _ _ _ _ Hp k x (PX level va) Hx Hlen ltac:(by apply PX_range)) as Hn.
  rewrite Hy in Hn. by rewrite Hn.
Qed.

Lemma walk_level_alloc w root T l k x va level :
  cpu_ok w -> lock_free L_kmem w -> vm w root T l ->
  T !! k = Some x -> (length k < 2)%nat -> 0 <= level ->
  exists r w' T' l', walk_level x va true level w = Ok (r, w') /\
    vm w' root T' l' /\ extends w w' T T' l l' /\
    (forall va', pte_of (pbytes (pm w')) T' va' = pte_of (pbytes (pm w)) T va') /\
    match r with Some y => T' !! (k ++ [PX level va]) = Some y | None => l' = [] end.
Proof.
  intros Hc Hl Hvm Hx Hlen Hlv. pose proof Hvm as [Hf Hp Hd].
  destruct (T !! (k ++ [PX level va])) as [y|] eqn:Hy.
  { exists (Some y), w, T, l. split; [by eapply walk_level_present|].
    split_and!; auto using extends_refl. }
  unfold walk_level. rewrite (bind_Ok _ _ _ _ _ (get_mem_run _)).
  pose proof (PX_range level va Hlv) as Hi.
  pose proof (pt_node _ _ _ _ Hp k x (PX level va) Hx Hlen Hi) as Hn.
  rewrite Hy in Hn. rewrite Hn. cbn [Z.eqb negb].
  destruct (kalloc_ok kend w l) as (w1 & E1 & F1 & R1 & P1); [done..|].
  rewrite (bind_Ok _ _ _ _ _ E1). destruct l as [|pg l]; cbn [hd tl] in *.
  - exists None, w1, T, []. cbn. split; [done|]. rewrite P1.
    split_and!; try done.
    split_and!; [done..|]. rewrite P1. by intros b Hb.
  - destruct P1 as [Ho _]. destruct Hf as (_ & Hnd & Hv).
    apply Forall_cons in Hv as [Hpg Hv]. apply NoDup_cons in Hnd as [Hpl Hnd].
    pose proof (valid_lt kend pg kend_pos Hpg) as [Hpr _].
    rewrite (proj2 (Z.eqb_neq pg 0)) by lia.
    rewrite (bind_Ok _ _ _ _ _ (get_mem_run _)), (bind_Ok _ _ _ _ _ (put_mem_run _ _)).
    rewrite (bind_Ok _ _ _ _ _ (get_mem_run _)), (bind_Ok _ _ _ _ _ (put_mem_run _ _)).
    rewrite !compc_updc, updc_updc. cbn [pbytes freelist].
    eexists (Some pg), _, (<[k ++ [PX level va] := pg]> T), l. split; [done|].
    assert (Hf1 : free_rep kend (Pmem (pbytes (pm w1)) (freelist (pm w1))) l) by (by destruct (pm w1)).
    rewrite compc_updc. cbn [pbytes]. fold (linked_mem (pbytes (pm w1)) x (PX level va) pg).
    split_and!.
    + by eapply add_node_vm.
    + split_and!.
      * etrans; [exact F1|apply frame_updc].
      * by apply insert_subseteq.
      * rewrite compc_updc. by eapply add_node_grows.
    + intros va'. by eapply add_node_pte.
    + apply lookup_insert_eq.
Qed.

(** walk without alloc finds the leaf PTE and changes nothing. *)
Lemma walk_find w root T va :
  pt_ok kend (pbytes (pm w)) root T -> va < MAXVA ->
  walk root va false w = Ok (default 0 (pte_addr T va), w).
Proof.
  intros Hp Hva. unfold walk. rewrite Z.geb_leb, (proj2 (Z.leb_gt _ _)) by done.
  pose proof (pt_root _ _ _ _ Hp) as Hr. unfold pte_addr.
  destruct (T !! [PX 2 va]) as [x1|] eqn:E1.
  - rewrite (bind_Ok _ _ _ _ _ (walk_level_present w root T [] root x1 va false 2 Hp Hr ltac:(cbn; lia) ltac:(lia) E1)).
    destruct (T !! [PX 2 va; PX 1 va]) as [x0|] eqn:E0; cbn [mbind option_bind default].
    + by rewrite (bind_Ok _ _ _ _ _ (walk_level_present w root T [PX 2 va] x1 x0 va false 1 Hp E1 ltac:(cbn; lia) ltac:(lia) E0)).
    + by rewrite (bind_Ok _ _ _ _ _ (walk_level_absent w root T [PX 2 va] x1 va 1 Hp E1 ltac:(cbn; lia) ltac:(lia) E0)).
  - rewrite (bind_Ok _ _ _ _ _ (walk_level_absent w root T [] root va 2 Hp Hr ltac:(cbn; lia) ltac:(lia) E1)).
    destruct (T !! [PX 2 va; PX 1 va]) as [x0|] eqn:E0; [|done].
    apply (pt_closed _ _ _ _ Hp [PX 2 va]) in E0 as [[? ?] _]. congruence.
Qed.
(** walk with alloc returns the address of the leaf PTE, adding page-table
    pages as needed without changing any translation; 0 only when memory ran
    out. *)
Lemma walk_alloc w root T l va :
  cpu_ok w -> lock_free L_kmem w -> vm w root T l -> va < MAXVA ->
  exists r w' T' l', walk root va true w = Ok (r, w') /\
    vm w' root T' l' /\ extends w w' T T' l l' /\
    (forall va', pte_of (pbytes (pm w')) T' va' = pte_of (pbytes (pm w)) T va') /\
    (r = 0 /\ l' = [] \/ 0 < r /\ pte_addr T' va = Some r).
Proof.
  intros Hc Hl Hvm Hva. unfold walk. rewrite Z.geb_leb, (proj2 (Z.leb_gt _ _)) by done.
  destruct (walk_level_alloc w root T l [] root va 2) as (r1 & w1 & T1 & l1 & E1 & V1 & X1 & Q1 & R1);
    [done..|apply Hvm|cbn; lia|lia|].
  rewrite (bind_Ok _ _ _ _ _ E1). destruct r1 as [x1|].
  2: { exists 0, w1, T1, l1. split_and!; auto. }
  destruct (walk_level_alloc w1 root T1 l1 [PX 2 va] x1 va 1)
    as (r0 & w0 & T0 & l0 & E0 & V0 & X0 & Q0 & R0);
    [destruct X1 as [F1 _]; eauto with xv6..|done|done|cbn; lia|lia|].
  rewrite (bind_Ok _ _ _ _ _ E0). destruct r0 as [x0|].
  - exists (x0 + 8 * PX 0 va), w0, T0, l0. split_and!; try done.
    + by eapply extends_trans.
    + intros va'. by rewrite Q0.
    + right. unfold pte_addr. cbn in R0. rewrite R0. split; [|done].
      destruct V0 as [_ Hp0 _]. destruct (pt_valid _ _ _ _ Hp0 _ _ R0).
      pose proof (PX_range 0 va ltac:(lia)). lia.
  - exists 0, w0, T0, l0. split_and!; auto; [by eapply extends_trans|].
    intros va'. by rewrite Q0.
Qed.

(** What walkaddr returns: the physical page of a mapped user page, else 0. *)
Definition user_pa (m : mem) T (va : Z) : Z :=
  let v := pte_of m T va in
  if (Z.land v PTE_V =? 0) || (Z.land v PTE_U =? 0) then 0 else PTE2PA v.

Lemma walkaddr_run w root T va :
  pt_ok kend (pbytes (pm w)) root T ->
  walkaddr root va w = Ok (if va >=? MAXVA then 0 else user_pa (pbytes (pm w)) T va, w).
Proof.
  intros Hp. unfold walkaddr. destruct (va >=? MAXVA) eqn:Hva; [done|].
  rewrite Z.geb_leb in Hva. apply Z.leb_gt in Hva.
  rewrite (bind_Ok _ _ _ _ _ (walk_find w root T va Hp Hva)).
  unfold user_pa, pte_of. destruct (pte_addr T va) as [a|] eqn:Ea; cbn [default]; [|done].
  assert (0 < a).
  { unfold pte_addr in Ea. destruct (T !! _) as [x|] eqn:Ex; cbn in Ea; [|done].
    injection Ea as <-. destruct (pt_valid _ _ _ _ Hp _ _ Ex).
    pose proof (PX_range 0 va ltac:(lia)). lia. }
  change (id a) with a. rewrite (proj2 (Z.eqb_neq a 0)) by lia.
  rewrite (bind_Ok _ _ _ _ _ (get_mem_run _)).
  destruct (Z.land _ PTE_V =? 0); cbn [orb]; [done|]. by destruct (Z.land _ PTE_U =? 0).
Qed.

(** [n] pages starting at [va]. *)
Definition in_pages (va : Z) (n : nat) (va' : Z) : Prop :=
  va / 4096 <= va' / 4096 < va / 4096 + Z.of_nat n.

#[export] Instance in_pages_dec va n va' : Decision (in_pages va n va').
Proof. unfold in_pages. apply _. Defined.

(** The PTE mappages installs for [va'] when it maps [va] to [pa]. *)
Definition new_pte (va pa perm va' : Z) : Z :=
  Z.lor (Z.lor (PA2PTE (pa + (va' / 4096 - va / 4096) * 4096)) perm) PTE_V.

Definition map_range (va pa perm : Z) (n : nat) (f : Z -> Z) : Z -> Z := fun va' =>
  if decide (in_pages va n va') then new_pte va pa perm va' else f va'.

Lemma perm_valid perm : 0 <= perm < 1024 -> 0 <= Z.lor perm PTE_V < 1024.
Proof.
  intros H. split; [apply Z.lor_nonneg; split; [lia|done]|]. change 1024 with (2 ^ 10).
  apply Z.log2_lt_cancel. rewrite Z.log2_lor by (done || lia).
  change (Z.log2 (2 ^ 10)) with 10. change (Z.log2 PTE_V) with 0.
  destruct (decide (perm = 0)) as [->|]; [done|].
  rewrite Z.max_l by apply Z.log2_nonneg. apply Z.log2_lt_pow2; lia.
Qed.

Lemma new_pte_range va pa perm va' : 0 <= perm < 1024 ->
  0 <= pa + (va' / 4096 - va / 4096) * 4096 < 2 ^ 56 ->
  0 <= new_pte va pa perm va' < 2 ^ 64.
Proof.
  intros Hperm Hpa. unfold new_pte. set (q := pa + _) in *.
  rewrite <- Z.lor_assoc. pose proof (perm_valid perm Hperm) as Hfl.
  rewrite PA2PTE_eq by done. change 1024 with (2 ^ 10). rewrite lor_low by done.
  pose proof (Z.div_mod q 4096 ltac:(done)). pose proof (Z.mod_pos_bound q 4096 ltac:(done)). lia.
Qed.
Lemma page_next a : (a + 4096) / 4096 = a / 4096 + 1.
Proof. replace (a + 4096) with (a + 1 * 4096) by lia. by rewrite Z.div_add. Qed.

Lemma map_range_0 va pa perm f va' : map_range va pa perm 0 f va' = f va'.
Proof. unfold map_range, in_pages. rewrite decide_False; [done|lia]. Qed.

(** Mapping one page and then the rest is mapping all of them. *)
Lemma map_range_S va pa perm n f va' :
  map_range (va + 4096) (pa + 4096) perm n (map_range va pa perm 1 f) va' =
  map_range va pa perm (Datatypes.S n) f va'.
Proof.
  unfold map_range, in_pages. pose proof (page_next va).
  repeat case_decide; try lia; try done.
  unfold new_pte. rewrite page_next. do 3 f_equal. lia.
Qed.

Lemma map_range_ext va pa perm n f g va' :
  f va' = g va' -> map_range va pa perm n f va' = map_range va pa perm n g va'.
Proof. intros H. unfold map_range. by case_decide. Qed.

(** Mapping a range that was unmapped. *)
Definition unmapped (f : Z -> Z) (va : Z) (n : nat) : Prop :=
  forall va', 0 <= va' < MAXVA -> in_pages va n va' -> Z.land (f va') PTE_V = 0.

(** One round of the loop. *)
Lemma mappages_round w root T l last perm a pa :
  cpu_ok w -> lock_free L_kmem w -> vm w root T l ->
  0 <= a < MAXVA -> 0 <= perm < 1024 -> 0 <= pa -> pa + 4096 <= 2 ^ 56 ->
  unmapped (pte_of (pbytes (pm w)) T) a 1 ->
  exists r w' T' l', mappages_body root last perm (a, pa) w = Ok (r, w') /\
    vm w' root T' l' /\ extends w w' T T' l l' /\
    (r = inr (-1) /\ l' = [] /\
       (forall va', pte_of (pbytes (pm w')) T' va' = pte_of (pbytes (pm w)) T va') \/
     r = (if a =? last then inr 0 else inl (a + 4096, pa + 4096)) /\
       (forall va', 0 <= va' < MAXVA ->
          pte_of (pbytes (pm w')) T' va' = map_range a pa perm 1 (pte_of (pbytes (pm w)) T) va')).
Proof.
  intros Hc Hl Hvm Ha Hperm Hpa Hpa' Hun. unfold mappages_body.
  destruct (walk_alloc w root T l a) as (r & w1 & T1 & l1 & E & V1 & X1 & Q1 & [[-> ->]|[Hr Hadr]]);
    [done..|lia| |]; rewrite (bind_Ok _ _ _ _ _ E).
  { cbn. exists (inr (-1)), w1, T1, []. split_and!; auto. }
  rewrite (proj2 (Z.eqb_neq r 0)) by lia. rewrite (bind_Ok _ _ _ _ _ (get_mem_run _)).
  assert (Hz : Z.land (load64 (pbytes (pm w1)) r) PTE_V = 0).
  { specialize (Q1 a). unfold pte_of at 1 in Q1. rewrite Hadr in Q1. rewrite Q1.
    apply Hun; [done|]. unfold in_pages. lia. }
  rewrite Hz. cbn [Z.eqb negb]. rewrite (bind_Ok _ _ _ _ _ (put_mem_run _ _)).
  set (v := Z.lor _ PTE_V).
  assert (Hv : 0 <= v < 2 ^ 64).
  { pose proof (new_pte_range a pa perm a Hperm) as H. unfold new_pte in H.
    rewrite Z.sub_diag, Z.mul_0_l, Z.add_0_r in H. apply H. lia. }
  destruct (set_pte_ok kend (pm w1) root T1 l1 a r v) as (V2 & G2 & Q2); [done..|].
  rewrite !u64_id by (unfold PGSIZE; change MAXVA with (2 ^ 38) in *; lia).
  eexists _, _, T1, l1. split.
  { by instantiate (2 := if a =? last then _ else _); destruct (a =? last). }
  rewrite compc_updc. split_and!.
  - exact V2.
  - eapply extends_trans; [exact X1|]. split_and!; [apply frame_updc|done|].
    by rewrite compc_updc.
  - right. split; [done|]. intros va' Hva'. rewrite Q2 by done. cbn [pbytes].
    unfold map_range, in_pages. rewrite Q1.
    destruct (decide (va' / 4096 = a / 4096)) as [Epg|Epg].
    + rewrite decide_True by lia. unfold new_pte. rewrite Epg, Z.sub_diag, Z.mul_0_l, Z.add_0_r. done.
    + by rewrite decide_False by lia.
Qed.

(** All [n] pages are mapped and the result is 0, or memory ran out after [j] of
    them and the result is -1; nothing else is remapped. *)
Definition map_result w T l va pa perm n r w' T' l' : Prop :=
  extends w w' T T' l l' /\
  (r = 0 /\ (forall va', 0 <= va' < MAXVA -> pte_of (pbytes (pm w')) T' va' =
      map_range va pa perm n (pte_of (pbytes (pm w)) T) va') \/
   r = -1 /\ l' = [] /\ exists j, (j < n)%nat /\
     (forall va', 0 <= va' < MAXVA -> pte_of (pbytes (pm w')) T' va' =
        map_range va pa perm j (pte_of (pbytes (pm w)) T) va')).

(** The result for the rest of a range, after its first page. *)
Lemma map_result_S w w1 w2 T T1 T2 l l1 l2 a pa perm n r :
  extends w w1 T T1 l l1 ->
  (forall va', 0 <= va' < MAXVA ->
     pte_of (pbytes (pm w1)) T1 va' = map_range a pa perm 1 (pte_of (pbytes (pm w)) T) va') ->
  map_result w1 T1 l1 (a + 4096) (pa + 4096) perm n r w2 T2 l2 ->
  map_result w T l a pa perm (Datatypes.S n) r w2 T2 l2.
Proof.
  intros X1 Q1 [X2 H2]. split; [by eapply extends_trans|].
  destruct H2 as [[-> Q2]|(-> & -> & j & Hj & Q2)]; [left; split; [done|]|right].
  - intros va' Hva. rewrite Q2 by done. rewrite <- map_range_S.
    apply map_range_ext. by apply Q1.
  - split_and!; [done..|]. exists (Datatypes.S j). split; [lia|]. intros va' Hva.
    rewrite Q2 by done. rewrite <- map_range_S. apply map_range_ext. by apply Q1.
Qed.

Lemma mappages_loop_ok n fuel w root T l last perm a pa :
  cpu_ok w -> lock_free L_kmem w -> vm w root T l -> (n < fuel)%nat ->
  0 <= a -> last = a + 4096 * Z.of_nat n -> last < MAXVA ->
  0 <= perm < 1024 -> 0 <= pa -> pa + 4096 * (Z.of_nat n + 1) <= 2 ^ 56 ->
  unmapped (pte_of (pbytes (pm w)) T) a (Datatypes.S n) ->
  exists r w' T' l', loop fuel (mappages_body root last perm) (a, pa) w = Ok (r, w') /\
    vm w' root T' l' /\ map_result w T l a pa perm (Datatypes.S n) r w' T' l'.
Proof.
  revert fuel w T l a pa. induction n as [|n IH];
    intros fuel w T l a pa Hc Hl Hvm Hf Ha -> Hlast Hperm Hpa Hpa' Hun;
    (destruct fuel as [|fuel]; [lia|]);
    match goal with |- context [mappages_body root ?la] =>
      destruct (mappages_round w root T l la perm a pa) as
      (r & w1 & T1 & l1 & E & V1 & X1 & [(-> & -> & Q1)|[-> Q1]]); try done; try lia
    end.
  1, 4: exists (-1), w1, T1, []; split; [by apply loop_exit|]; split; [done|];
    split; [done|]; right; split_and!; [done..|]; exists 0%nat; split; [lia|];
    intros va' _; by rewrite map_range_0.
  - rewrite (proj2 (Z.eqb_eq _ _)) in E by lia.
    exists 0, w1, T1, l1. split; [by apply loop_exit|]. split; [done|]. split; [done|]. by left.
  - intros va' Hva Hin. apply Hun; [done|]. unfold in_pages in *. lia.
  - rewrite (proj2 (Z.eqb_neq _ _)) in E by lia. pose proof X1 as [F1 _].
    destruct (IH fuel w1 T1 l1 (a + 4096) (pa + 4096)) as (r & w2 & T2 & l2 & E2 & V2 & R2);
      eauto with xv6; try lia.
    { intros va' Hva Hin. rewrite Q1 by done. unfold map_range, in_pages in *.
      pose proof (page_next a). rewrite decide_False by lia. apply Hun; [done|].
      unfold in_pages. lia. }
    exists r, w2, T2, l2. split; [|split; [done|by eapply map_result_S]].
    rewrite <- E2. by apply loop_next.
Qed.

(** The number of pages mappages touches. *)
Definition npages (va size : Z) : nat :=
  Z.to_nat ((va + size - 1) / 4096 - va / 4096 + 1).

Lemma mappages_ok w root T l va size pa perm :
  cpu_ok w -> lock_free L_kmem w -> vm w root T l ->
  0 <= va -> 0 < size -> va + size <= MAXVA -> 0 <= perm < 1024 ->
  0 <= pa -> pa + 4096 * Z.of_nat (npages va size) <= 2 ^ 56 ->
  unmapped (pte_of (pbytes (pm w)) T) va (npages va size) ->
  exists r w' T' l', mappages root va size pa perm w = Ok (r, w') /\
    vm w' root T' l' /\ map_result w T l va pa perm (npages va size) r w' T' l'.
Proof.
  intros Hc Hl Hvm Hva Hsz Hmax Hperm Hpa Hpa' Hun. unfold mappages.
  change MAXVA with (2 ^ 38) in Hmax. rewrite u64_id by lia.
  assert (Hd : forall z, PGROUNDDOWN z = 4096 * (z / 4096)).
  { intros z. rewrite PGROUNDDOWN_mod. unfold PGSIZE. pose proof (Z.div_mod z 4096 ltac:(done)). lia. }
  rewrite !Hd. set (p := va / 4096). set (q := (va + size - 1) / 4096).
  assert (Hpq : 0 <= p <= q /\ 4096 * q < 2 ^ 38).
  { subst p q. pose proof (Z.div_mod (va + size - 1) 4096 ltac:(done)).
    pose proof (Z.mod_pos_bound (va + size - 1) 4096 ltac:(done)).
    split; [split; [by apply Z.div_pos|apply Z.div_le_mono; lia]|lia]. }
  assert (Hn : npages va size = Datatypes.S (Z.to_nat (q - p))) by (unfold npages; fold p q; lia).
  rewrite (proj2 (Z.leb_le _ _)) by lia.
  assert (Hp : 4096 * p / 4096 = p) by (rewrite Z.mul_comm; by apply Z.div_mul).
  replace ((4096 * q - 4096 * p) / PGSIZE) with (q - p)
    by (unfold PGSIZE; rewrite <- Z.mul_sub_distr_l, Z.mul_comm, Z.div_mul; lia).
  destruct (mappages_loop_ok (Z.to_nat (q - p)) (Z.to_nat (q - p + 2)) w root T l (4096 * q) perm
    (4096 * p) pa) as (r & w' & T' & l' & E & V & R); try done; try lia.
  { change MAXVA with (2 ^ 38). lia. }
  { intros va' Hva' Hin. apply Hun; [done|]. rewrite Hn. unfold in_pages in *. by rewrite Hp in Hin. }
  exists r, w', T', l'. split; [done|]. split; [done|]. rewrite Hn.
  assert (Hmr : forall n0 f va', map_range (4096 * p) pa perm n0 f va' = map_range va pa perm n0 f va').
  { intros n0 f va'. unfold map_range, new_pte.
    repeat case_decide; unfold in_pages in *; fold p; rewrite Hp in *; done. }
  destruct R as [X [[-> Q]|(-> & -> & j & Hj & Q)]]; (split; [done|]).
  - left. split; [done|]. intros va' Hva'. by rewrite Q, Hmr.
  - right. split_and!; [done..|]. exists j. split; [done|]. intros va' Hva'. by rewrite Q, Hmr.
Qed.
End Walk.

(** ** Properties *)

Section Props.
Context {S : Type} `{!Has pmem S} (kend : Z) (kend_pos : 0 < kend).
Implicit Types (w : world S) (T : gmap (list Z) Z) (l : list Z).

(** walk is the three-level lookup.  Without alloc it returns the address of
    the leaf PTE (0 when a page-table page is missing) and changes nothing; with
    alloc it adds the missing pages without changing any translation or any byte
    outside page tables and free pages, and fails only when no page is left.  An
    address at or above MAXVA is a panic. *)
Theorem walk_correct w root T l va
  (Hc : cpu_ok w) (Hl : lock_free L_kmem w) (Hvm : vm_ok kend (compc w) root T l) :
  (va < MAXVA -> walk root va false w = Ok (default 0 (pte_addr T va), w)) /\
  (va < MAXVA -> exists r w' T' l', walk root va true w = Ok (r, w') /\
    vm_ok kend (compc w') root T' l' /\ extends w w' T T' l l' /\
    (forall va', pte_of (pbytes (compc w')) T' va' = pte_of (pbytes (compc w)) T va') /\
    (r = 0 /\ l' = [] \/ 0 < r /\ pte_addr T' va = Some r)) /\
  (MAXVA <= va -> forall alloc, walk root va alloc w = Panic "walk").
Proof.
  split_and!.
  - intros Hva. eapply walk_find; [done|apply Hvm|done].
  - intros Hva. by apply walk_alloc.
  - intros Hva alloc. unfold walk. by rewrite Z.geb_leb, (proj2 (Z.leb_le _ _)).
Qed.

(** C27: mappages installs the translation va + i -> pa + i with the given
    permissions on every page the range touches and on no other; when page-table
    pages run out it returns -1 with an initial part of the range mapped.  Memory
    outside page tables and free pages is unchanged. *)
Theorem mappages_correct w root T l va size pa perm
  (Hc : cpu_ok w) (Hl : lock_free L_kmem w) (Hvm : vm_ok kend (compc w) root T l)
  (Hva : 0 <= va) (Hsz : 0 < size) (Hmax : va + size <= MAXVA) (Hperm : 0 <= perm < 1024)
  (Hpa : 0 <= pa) (Hpa' : pa + 4096 * Z.of_nat (npages va size) <= 2 ^ 56)
  (Hun : unmapped (pte_of (pbytes (compc w)) T) va (npages va size)) :
  exists r w' T' l', mappages root va size pa perm w = Ok (r, w') /\
    vm_ok kend (compc w') root T' l' /\
    map_result w T l va pa perm (npages va size) r w' T' l'.
Proof. by apply mappages_ok. Qed.

(** After a user page was mapped, walkaddr finds it: mapping [va] to a
    page-aligned [pa] with PTE_U and looking [va] up again gives [pa]. *)
Theorem mappages_walkaddr w root T l va pa perm
  (Hc : cpu_ok w) (Hl : lock_free L_kmem w) (Hvm : vm_ok kend (compc w) root T l)
  (Hva : 0 <= va < MAXVA) (Hal : va mod PGSIZE = 0)
  (Hpa : 0 <= pa < 2 ^ 56 - 4096) (Hpal : page_aligned pa)
  (Hperm : 0 <= perm < 1024) (Hu : Z.land perm PTE_U <> 0)
  (Hun : Z.land (pte_of (pbytes (compc w)) T va) PTE_V = 0) :
  exists r w', mappages root va PGSIZE pa perm w = Ok (r, w') /\
    (r = 0 -> walkaddr root va w' = Ok (pa, w')).
Proof.
  assert (Hn : npages va PGSIZE = 1%nat).
  { unfold npages, PGSIZE in *. pose proof (Z.div_mod va 4096 ltac:(done)).
    replace (va + 4096 - 1) with (va / 4096 * 4096 + 4095) by lia.
    rewrite Z.div_add_l by done. change (4095 / 4096) with 0. lia. }
  assert (Hmax : va + PGSIZE <= MAXVA).
  { change MAXVA with (67108864 * 4096) in *. unfold PGSIZE in *.
    pose proof (Z.div_mod va 4096 ltac:(done)). lia. }
  destruct (mappages_ok kend kend_pos w root T l va PGSIZE pa perm) as (r & w' & T' & l' & E & V & X & R);
    try done; try lia.
  { rewrite Hn. intros va' Hva' [H1 H2]. unfold pte_of, pte_addr in *.
    assert (Hpg : va' / 4096 = va / 4096) by lia.
    by rewrite !(PX_same_page _ va' va) by (done || lia). }
  exists r, w'. split; [done|]. intros ->. destruct R as [[_ Q]|[? _]]; [|lia].
  rewrite (walkaddr_run kend kend_pos w' root T') by apply V.
  rewrite Z.geb_leb, (proj2 (Z.leb_gt _ _)) by lia. unfold user_pa. rewrite Q by done.
  rewrite Hn. unfold map_range. rewrite decide_True by (unfold in_pages; lia).
  unfold new_pte. rewrite Z.sub_diag, Z.mul_0_l, Z.add_0_r, <- Z.lor_assoc.
  pose proof (perm_valid perm Hperm) as Hfl.
  rewrite !(land_flags (Z.lor (PA2PTE pa) _)) by done. rewrite !pte_flags_out by (done || lia).
  rewrite !Z.land_lor_distr_l. change (Z.land PTE_V PTE_V) with 1. change (Z.land PTE_V PTE_U) with 0.
  rewrite Z.lor_0_r. rewrite (proj2 (Z.eqb_neq (Z.lor _ 1) 0)) by (intros [_ ?]%Z.lor_eq_0_iff; lia).
  rewrite (proj2 (Z.eqb_neq (Z.land perm PTE_U) 0)) by done. cbn [orb].
  by rewrite pte_PA by (done || lia).
Qed.
End Props.

(** A machine with an empty page table and three free pages. *)
Definition vm_page (i : Z) : Z := PHYSTOP - PGSIZE * i.
Definition vm_example : world pmem :=
  boot_world (Pmem (store64 (store64 ∅ (vm_page 1) (vm_page 2)) (vm_page 2) (vm_page 3)) (vm_page 1)).
Definition vm_root : Z := vm_page 4.

Lemma vm_page_valid i : 1 <= i <= 4 -> valid_page (vm_page 4) (vm_page i).
Proof.
  intros Hi. assert (i = 1 \/ i = 2 \/ i = 3 \/ i = 4) as [->|[->|[->| ->]]] by lia;
    (split; [done|]); split; vm_compute; congruence.
Qed.

Lemma vm_example_ok : vm_ok (vm_page 4) (compc vm_example) vm_root {[ [] := vm_root ]}
  [vm_page 1; vm_page 2; vm_page 3].
Proof.
  split.
  - split_and!.
    + vm_compute. done.
    + repeat (apply NoDup_cons; split;
        [rewrite list_elem_of_In; cbn; unfold vm_page, PGSIZE; lia|]). apply NoDup_nil_2.
    + repeat (apply Forall_cons; split; [apply vm_page_valid; lia|]). constructor.
  - split.
    + done.
    + intros k x [<- <-]%lookup_singleton_Some. apply vm_page_valid. lia.
    + intros k k' x [<- _]%lookup_singleton_Some [<- _]%lookup_singleton_Some. done.
    + intros k x i [<- <-]%lookup_singleton_Some _ Hi. rewrite lookup_singleton_ne by done.
      cbn [compc getc Has_refl vm_example boot_world data pbytes].
      rewrite !load64_store64_ne by (unfold vm_root, vm_page, PGSIZE in *; lia).
      rewrite (load_zero 8); [done|]. done.
    + intros k i x [Hk _]%lookup_singleton_Some. by destruct k.
  - intros k x [<- <-]%lookup_singleton_Some. rewrite list_elem_of_In.
    cbn. unfold vm_root, vm_page, PGSIZE. lia.
Qed.

Lemma vm_example_cpu : cpu_ok vm_example.
Proof. split; vm_compute; congruence. Qed.
Lemma vm_example_lock : lock_free L_kmem vm_example.
Proof. exists "". by vm_compute. Qed.

Lemma walk_correct_witness : walk vm_root 4096 false vm_example = Ok (0, vm_example).
Proof.
  destruct (walk_correct (S := pmem) (vm_page 4) ltac:(vm_compute; reflexivity) vm_example vm_root _ _ 4096
    vm_example_cpu vm_example_lock vm_example_ok) as [H _].
  exact (H ltac:(vm_compute; reflexivity)).
Defined.

Lemma mappages_correct_witness :
  exists r w', mappages vm_root 4096 8192 KERNBASE (Z.lor PTE_R PTE_W) vm_example = Ok (r, w').
Proof.
  destruct (mappages_correct (S := pmem) (vm_page 4) ltac:(vm_compute; reflexivity) vm_example vm_root _ _
    4096 8192 KERNBASE (Z.lor PTE_R PTE_W) vm_example_cpu vm_example_lock vm_example_ok)
    as (r & w' & T' & l' & E & _).
  - lia.
  - lia.
  - vm_compute. congruence.
  - split; vm_compute; congruence.
  - vm_compute. congruence.
  - vm_compute. congruence.
  - intros va' _ _. unfold pte_of, pte_addr. by rewrite lookup_singleton_ne.
  - exists r, w'. exact E.
Defined.

Lemma mappages_walkaddr_witness :
  exists r w', mappages vm_root 4096 PGSIZE KERNBASE (Z.lor PTE_R PTE_U) vm_example = Ok (r, w') /\
    (r = 0 -> walkaddr vm_root 4096 w' = Ok (KERNBASE, w')).
Proof.
  apply (mappages_walkaddr (S := pmem) (vm_page 4) ltac:(vm_compute; reflexivity) vm_example vm_root _ _
    4096 KERNBASE (Z.lor PTE_R PTE_U) vm_example_cpu vm_example_lock vm_example_ok);
    first [done | vm_compute; congruence | split; vm_compute; congruence].
Defined.
