(* ===== verification/Uaccess.v ===== *)
(** * User memory: kernel/vm.c's copyin and copyout between user pages and
    kernel objects

    Vm.v has copyin and copyout between two places of the byte memory.  Most
    kernel objects (a character on the stack, the data of a buffer, a struct
    stat) are values of the model and not bytes of that memory; [copyin_to] and
    [copyout_from] are the same loops with such an object at the kernel end.  The
    theorems say when they succeed and which bytes they move, in terms of the
    page table. *)
From stdpp Require Import prelude gmap strings.
From Stdlib Require Import ZArith Lia.
From S2P Require Import Prelude Memory CString Spinlock Riscv Kalloc Vm.
Open Scope Z_scope.

(** [n] bytes of memory from [a], and a list of bytes stored at [a]. *)
Definition rdn (m : mem) (a n : Z) : list Z := rd m <$> seqZ a n.
Fixpoint wrn (m : mem) (a : Z) (bs : list Z) : mem :=
  match bs with [] => m | b :: bs' => wrn (wr m a b) (a + 1) bs' end.

Section Uaccess.
Context {S : Type} `{!Has pmem S}.

Definition copyin_to_body (pagetable : Z) (x : Z * Z * list Z) : K S ((Z * Z * list Z) + (Z * list Z)) :=
  let '(srcva, len, acc) := x in
  if len >? 0 then
    let va0 := PGROUNDDOWN srcva in
    pa0 ← walkaddr pagetable va0;
    if pa0 =? 0 then mret (inr (-1, acc))
    else
      let n := PGSIZE - (srcva - va0) in
      let n := if n >? len then len else n in
      m ← get_mem;
      mret (inl (u64 (va0 + PGSIZE), len - n, acc ++ rdn m (pa0 + (srcva - va0)) n))
  else mret (inr (0, acc)).
Definition copyin_to (pagetable srcva len : Z) : K S (Z * list Z) :=
  loop (Z.to_nat (len / PGSIZE + 3)) (copyin_to_body pagetable) (srcva, len, []).

Definition copyout_from_body (pagetable : Z) (x : Z * list Z) : K S ((Z * list Z) + Z) :=
  let '(dstva, src) := x in
  let len := Z.of_nat (length src) in
  if len >? 0 then
    let va0 := PGROUNDDOWN dstva in
    pa0 ← walkaddr pagetable va0;
    if pa0 =? 0 then mret (inr (-1))
    else
      let n := PGSIZE - (dstva - va0) in
      let n := if n >? len then len else n in
      m ← get_mem;
      put_mem (wrn m (pa0 + (dstva - va0)) (take (Z.to_nat n) src)) ;;
      mret (inl (u64 (va0 + PGSIZE), drop (Z.to_nat n) src))
  else mret (inr 0).
Definition copyout_from (pagetable dstva : Z) (src : list Z) : K S Z :=
  loop (Z.to_nat (Z.of_nat (length src) / PGSIZE + 3)) (copyout_from_body pagetable) (dstva, src).
End Uaccess.

(** ** Bytes *)

Lemma length_rdn m a n : length (rdn m a n) = Z.to_nat n.
Proof. unfold rdn. rewrite length_fmap, length_seqZ. done. Qed.
Lemma rdn_add m a n k : 0 <= n -> 0 <= k -> rdn m a (n + k) = rdn m a n ++ rdn m (a + n) k.
Proof. intros H1 H2. unfold rdn. rewrite seqZ_app by done. by rewrite fmap_app. Qed.
Lemma rdn_0 m a : rdn m a 0 = [].
Proof. done. Qed.

Lemma rd_wrn_out m a bs b : b < a \/ a + Z.of_nat (length bs) <= b -> rd (wrn m a bs) b = rd m b.
Proof.
  revert m a. induction bs as [|x bs IH]; intros m a H; cbn [wrn length] in *; [done|].
  rewrite IH by lia. apply rd_wr_ne. lia.
Qed.
Lemma rd_wrn_in m a bs i x : bs !! i = Some x -> rd (wrn m a bs) (a + Z.of_nat i) = u8 x.
Proof.
  revert m a i. induction bs as [|y bs IH]; intros m a [|i] H; cbn in *; [done..| |].
  - injection H as ->. rewrite Z.add_0_r, rd_wrn_out by lia. apply rd_wr_eq.
  - replace (a + Z.of_nat (Datatypes.S i)) with (a + 1 + Z.of_nat i) by lia. by apply IH.
Qed.
Lemma wrn_app m a xs ys : wrn m a (xs ++ ys) = wrn (wrn m a xs) (a + Z.of_nat (length xs)) ys.
Proof.
  revert m a. induction xs as [|x xs IH]; intros m a; cbn [wrn app length].
  - by rewrite Z.add_0_r.
  - rewrite IH. f_equal. lia.
Qed.

(** Writing an object to memory and reading it back. *)
Lemma rdn_wrn m a bs : Forall (fun b => 0 <= b < 256) bs -> rdn (wrn m a bs) a (Z.of_nat (length bs)) = bs.
Proof.
  intros Hb. apply list_eq. intros i. unfold rdn. rewrite list_lookup_fmap.
  destruct (bs !! i) as [x|] eqn:E.
  - pose proof (lookup_lt_Some _ _ _ E). rewrite lookup_seqZ_lt by lia. cbn.
    rewrite (rd_wrn_in _ _ _ _ _ E). f_equal. apply u8_id. rewrite Forall_lookup in Hb. eauto.
  - apply lookup_ge_None in E. rewrite lookup_seqZ_ge by lia. done.
Qed.

(** ** Translation *)

(** The physical address of the user address [va]. *)
Definition uaddr (m : mem) (T : gmap (list Z) Z) (va : Z) : option Z :=
  let va0 := PGROUNDDOWN va in
  if va0 >=? MAXVA then None
  else let pa := user_pa m T va0 in if pa =? 0 then None else Some (pa + (va - va0)).

Definition mapped (m : mem) T (va len : Z) : Prop := forall i, 0 <= i < len -> is_Some (uaddr m T (va + i)).
Definition user_bytes (m : mem) T (va len : Z) : list Z :=
  (fun a => match uaddr m T a with Some p => rd m p | None => 0 end) <$> seqZ va len.

Lemma PGROUNDDOWN_add va i : 0 <= i -> i < PGSIZE - (va - PGROUNDDOWN va) ->
  PGROUNDDOWN (va + i) = PGROUNDDOWN va.
Proof.
  intros H1 H2. rewrite !PGROUNDDOWN_mod in *. unfold PGSIZE in *.
  pose proof (Z.div_mod va 4096 ltac:(done)). pose proof (Z.mod_pos_bound va 4096 ltac:(done)).
  assert (E : (va + i) mod 4096 = va mod 4096 + i); [|lia].
  symmetry. apply (Z.mod_unique _ _ (va / 4096)); lia.
Qed.

Lemma PGROUNDDOWN_nonneg va : 0 <= va -> 0 <= PGROUNDDOWN va.
Proof.
  intros H. rewrite PGROUNDDOWN_mod. pose proof (Z.mod_le va PGSIZE H ltac:(done)). lia.
Qed.

(** One page's worth of a transfer. *)
Definition chunk (va len : Z) : Z :=
  let n := PGSIZE - (va - PGROUNDDOWN va) in if n >? len then len else n.

Lemma chunk_range va len : 0 < len -> 0 < chunk va len <= len /\ chunk va len <= PGSIZE.
Proof.
  intros H. unfold chunk. pose proof (PGROUNDDOWN_range va). rewrite Z.gtb_ltb.
  destruct (Z.ltb_spec len (PGSIZE - (va - PGROUNDDOWN va))); lia.
Qed.

Lemma uaddr_chunk m T va len i pa : uaddr m T va = Some pa -> 0 <= i < chunk va len ->
  uaddr m T (va + i) = Some (pa + i).
Proof.
  intros H Hi. unfold uaddr in *.
  assert (E : PGROUNDDOWN (va + i) = PGROUNDDOWN va).
  { apply PGROUNDDOWN_add; [lia|]. unfold chunk in Hi. rewrite Z.gtb_ltb in Hi.
    destruct (Z.ltb_spec len (PGSIZE - (va - PGROUNDDOWN va))); lia. }
  rewrite E. destruct (_ >=? MAXVA); [done|]. destruct (_ =? 0); [done|].
  injection H as <-. f_equal. lia.
Qed.

Lemma user_bytes_chunk m T va len pa : uaddr m T va = Some pa -> 0 < len ->
  user_bytes m T va (chunk va len) = rdn m pa (chunk va len).
Proof.
  intros H Hl. apply list_eq. intros i. unfold user_bytes, rdn. rewrite !list_lookup_fmap.
  destruct (decide (i < Z.to_nat (chunk va len))%nat).
  - rewrite !lookup_seqZ_lt by lia. cbn. rewrite (uaddr_chunk m T va len _ pa) by (done || lia). done.
  - rewrite !lookup_seqZ_ge by lia. done.
Qed.

Lemma user_bytes_add m T va n k : 0 <= n -> 0 <= k ->
  user_bytes m T va (n + k) = user_bytes m T va n ++ user_bytes m T (va + n) k.
Proof. intros H1 H2. unfold user_bytes. rewrite seqZ_app by done. by rewrite fmap_app. Qed.

(** The next page. *)
Lemma chunk_next va len : 0 <= va -> va < MAXVA -> chunk va len < len ->
  u64 (PGROUNDDOWN va + PGSIZE) = va + chunk va len /\ (va + chunk va len) mod PGSIZE = 0.
Proof.
  intros H0 H1 H2. unfold chunk in *. rewrite Z.gtb_ltb in *. pose proof (PGROUNDDOWN_range va).
  destruct (Z.ltb_spec len (PGSIZE - (va - PGROUNDDOWN va))); [lia|].
  replace (va + (PGSIZE - (va - PGROUNDDOWN va))) with (PGROUNDDOWN va + PGSIZE) by lia.
  assert (0 <= PGROUNDDOWN va) by by apply PGROUNDDOWN_nonneg.
  change MAXVA with (2 ^ 38) in H1. rewrite u64_id by (unfold PGSIZE in *; lia). split; [done|].
  rewrite <- Z.add_mod_idemp_l by done. rewrite (PGROUNDDOWN_aligned va). done.
Qed.

(** The number of rounds that is enough. *)
Definition rounds (va len : Z) : Z :=
  (len + 4095) / 4096 + (if decide (va mod PGSIZE = 0) then 1 else 2).

Lemma rounds_pos va len : 0 <= len -> 1 <= rounds va len.
Proof. intros H. unfold rounds. pose proof (Z.div_pos (len + 4095) 4096). case_decide; lia. Qed.

Lemma rounds_next va len : 0 <= va < MAXVA -> 0 < len ->
  rounds (u64 (PGROUNDDOWN va + PGSIZE)) (len - chunk va len) + 1 <= rounds va len.
Proof.
  intros Hva Hl. destruct (chunk_range va len Hl) as [H1 H2].
  assert (Ha : u64 (PGROUNDDOWN va + PGSIZE) mod PGSIZE = 0).
  { pose proof (PGROUNDDOWN_nonneg va ltac:(lia)). pose proof (PGROUNDDOWN_range va).
    change MAXVA with (2 ^ 38) in Hva. rewrite u64_id by (unfold PGSIZE in *; lia).
    rewrite <- Z.add_mod_idemp_l by done. by rewrite PGROUNDDOWN_aligned. }
  unfold rounds. rewrite (decide_True _ _ Ha). case_decide as Hv.
  - assert (E : chunk va len = len \/ chunk va len = 4096).
    { unfold chunk. rewrite PGROUNDDOWN_id by done. rewrite Z.gtb_ltb. unfold PGSIZE.
      destruct (Z.ltb_spec len (4096 - (va - va))); lia. }
    destruct E as [-> | ->].
    + rewrite Z.sub_diag. change ((0 + 4095) / 4096) with 0.
      pose proof (Z.div_le_mono 4096 (len + 4095) 4096 ltac:(lia) ltac:(lia)) as Hd.
      change (4096 / 4096) with 1 in Hd. lia.
    + replace (len + 4095) with (len - 4096 + 4095 + 1 * 4096) by lia. rewrite Z.div_add by done. lia.
  - pose proof (Z.div_le_mono (len - chunk va len + 4095) (len + 4095) 4096 ltac:(lia) ltac:(lia)). lia.
Qed.

Lemma rounds_fuel va len : 0 <= len -> rounds va len <= Z.of_nat (Z.to_nat (len / PGSIZE + 3)).
Proof.
  intros H. unfold rounds, PGSIZE. pose proof (Z.div_pos len 4096 H).
  pose proof (Z.div_le_mono (len + 4095) (len + 1 * 4096) 4096 ltac:(lia) ltac:(lia)) as Hd.
  rewrite Z.div_add in Hd by done. case_decide; lia.
Qed.

Lemma uaddr_lt m T va pa : uaddr m T va = Some pa -> va < MAXVA.
Proof.
  unfold uaddr. destruct (_ >=? MAXVA) eqn:G; [done|]. intros _. rewrite Z.geb_leb in G. apply Z.leb_gt in G.
  pose proof (PGROUNDDOWN_range va). pose proof (PGROUNDDOWN_aligned va) as A.
  change MAXVA with (2 ^ 38) in *. unfold PGSIZE in *.
  pose proof (Z.div_mod (PGROUNDDOWN va) 4096 ltac:(done)).
  assert (PGROUNDDOWN va / 4096 < 2 ^ 26) by (apply Z.div_lt_upper_bound; lia). lia.
Qed.

(** A transfer with a hole: past the first chunk the hole is still there. *)
Lemma hole_next m T va len i pa : uaddr m T va = Some pa -> 0 <= va -> 0 <= i < len ->
  uaddr m T (va + i) = None ->
  chunk va len < len /\ u64 (PGROUNDDOWN va + PGSIZE) = va + chunk va len /\
  0 <= i - chunk va len < len - chunk va len /\ uaddr m T (va + chunk va len + (i - chunk va len)) = None.
Proof.
  intros Hpa Hva Hi Hn. destruct (chunk_range va len ltac:(lia)) as [Hc _].
  assert (chunk va len <= i).
  { destruct (Z.le_gt_cases (chunk va len) i); [done|]. rewrite (uaddr_chunk m T va len i pa) in Hn by (done || lia). done. }
  destruct (chunk_next va len Hva (uaddr_lt _ _ _ _ Hpa) ltac:(lia)) as [E _].
  split_and!; [lia|done|lia..|]. by replace (va + chunk va len + (i - chunk va len)) with (va + i) by lia.
Qed.

Section Copyin.
Context {S : Type} `{!Has pmem S} (kend : Z) (kend_pos : 0 < kend).
Implicit Types (w : world S) (T : gmap (list Z) Z).

(** One round on a mapped page and on an unmapped one. *)
Lemma copyin_round w root T va len acc :
  pt_ok kend (pbytes (compc w)) root T -> 0 < len ->
  copyin_to_body root (va, len, acc) w =
  Ok (match uaddr (pbytes (compc w)) T va with
      | Some pa => inl (u64 (PGROUNDDOWN va + PGSIZE), len - chunk va len,
                        acc ++ rdn (pbytes (compc w)) pa (chunk va len))
      | None => inr (-1, acc)
      end, w).
Proof.
  intros Hp Hl. unfold copyin_to_body. rewrite Z.gtb_ltb, (proj2 (Z.ltb_lt _ _)) by done.
  kdo (walkaddr_run kend kend_pos w root T (PGROUNDDOWN va) Hp). unfold uaddr.
  destruct (PGROUNDDOWN va >=? MAXVA); [done|]. destruct (user_pa _ _ _ =? 0); [done|].
  kdo (get_mem_run w). done.
Qed.

Lemma copyin_loop_ok fuel w root T va len acc :
  pt_ok kend (pbytes (compc w)) root T -> 0 <= va -> 0 <= len -> rounds va len <= Z.of_nat fuel ->
  mapped (pbytes (compc w)) T va len ->
  loop fuel (copyin_to_body root) (va, len, acc) w =
  Ok ((0, acc ++ user_bytes (pbytes (compc w)) T va len), w).
Proof.
  intros Hp. revert va len acc. induction fuel as [|f IH]; intros va len acc Hva Hl Hf Hm.
  { pose proof (rounds_pos va len Hl). lia. }
  destruct (decide (len = 0)) as [->|Hne].
  { apply loop_exit. cbn. by rewrite app_nil_r. }
  destruct (Hm 0 ltac:(lia)) as [pa Hpa]. rewrite Z.add_0_r in Hpa.
  pose proof (copyin_round w root T va len acc Hp ltac:(lia)) as E. rewrite Hpa in E.
  rewrite (loop_next _ _ _ _ _ _ E). destruct (chunk_range va len ltac:(lia)) as [Hc _].
  pose proof (uaddr_lt _ _ _ _ Hpa) as Hv.
  pose proof (rounds_next va len ltac:(lia) ltac:(lia)) as Hr.
  destruct (decide (chunk va len = len)) as [Ec|Ec].
  - rewrite Ec, Z.sub_diag in *. destruct f as [|f]; [pose proof (rounds_pos (u64 (PGROUNDDOWN va + PGSIZE)) 0); lia|].
    rewrite (loop_exit f (copyin_to_body root) _ w (0, acc ++ rdn (pbytes (compc w)) pa len) w) by done.
    rewrite <- Ec at 2. rewrite (user_bytes_chunk _ T va len pa) by (done || lia). by rewrite Ec.
  - destruct (chunk_next va len Hva Hv ltac:(lia)) as [En _]. rewrite En in *.
    rewrite IH; [|lia..|].
    + rewrite <- app_assoc, <- (user_bytes_chunk _ T va len pa) by (done || lia).
      rewrite <- user_bytes_add by lia. do 5 f_equal. lia.
    + intros i Hi. rewrite <- Z.add_assoc. apply Hm. lia.
Qed.

Lemma copyin_loop_fail fuel w root T va len acc i :
  pt_ok kend (pbytes (compc w)) root T -> 0 <= va -> 0 <= i < len -> rounds va len <= Z.of_nat fuel ->
  uaddr (pbytes (compc w)) T (va + i) = None ->
  exists acc', loop fuel (copyin_to_body root) (va, len, acc) w = Ok ((-1, acc'), w).
Proof.
  intros Hp. revert va len acc i. induction fuel as [|f IH]; intros va len acc i Hva Hi Hf Hn.
  { pose proof (rounds_pos va len ltac:(lia)). lia. }
  pose proof (copyin_round w root T va len acc Hp ltac:(lia)) as E.
  destruct (uaddr (pbytes (compc w)) T va) as [pa|] eqn:Hpa; [|exists acc; by apply loop_exit].
  rewrite (loop_next _ _ _ _ _ _ E). pose proof (uaddr_lt _ _ _ _ Hpa) as Hv.
  pose proof (rounds_next va len ltac:(lia) ltac:(lia)) as Hr.
  destruct (hole_next _ T va len i pa Hpa Hva Hi Hn) as (H1 & En & H2 & H3). rewrite En in *.
  destruct (chunk_range va len ltac:(lia)) as [Hc _].
  apply (IH (va + chunk va len) (len - chunk va len) _ (i - chunk va len)); try done; lia.
Qed.
End Copyin.

(** ** copyout *)

(** The physical addresses of a user range, and bytes stored at a list of
    addresses. *)
Definition uaddrs (m : mem) T (va len : Z) : list Z := (fun a => default 0 (uaddr m T a)) <$> seqZ va len.
Fixpoint wr_all (m : mem) (addrs bs : list Z) : mem :=
  match addrs, bs with
  | a :: addrs', b :: bs' => wr_all (wr m a b) addrs' bs'
  | _, _ => m
  end.

(** The physical addresses of a user range are not in page-table pages. *)
Definition data_pages (m : mem) T (va len : Z) : Prop := forall i pa k x, 0 <= i < len ->
  uaddr m T (va + i) = Some pa -> T !! k = Some x -> pa < x \/ x + PGSIZE <= pa.

Lemma wr_all_app m a1 a2 b1 b2 : length a1 = length b1 ->
  wr_all m (a1 ++ a2) (b1 ++ b2) = wr_all (wr_all m a1 b1) a2 b2.
Proof.
  revert m b1. induction a1 as [|a a1 IH]; intros m [|b b1] H; cbn in *; try lia; [done|]. apply IH. lia.
Qed.
Lemma wr_all_nil m addrs : wr_all m addrs [] = m.
Proof. by destruct addrs. Qed.
Lemma wr_all_seq m a bs n : n = Z.of_nat (length bs) -> wr_all m (seqZ a n) bs = wrn m a bs.
Proof.
  intros ->. revert m a. induction bs as [|b bs IH]; intros m a; [done|].
  cbn [length]. rewrite seqZ_cons by lia. cbn [wr_all wrn].
  replace (Z.pred (Z.of_nat (Datatypes.S (length bs)))) with (Z.of_nat (length bs)) by lia. apply IH.
Qed.
Lemma rd_wr_all_out m addrs bs b : b ∉ addrs -> rd (wr_all m addrs bs) b = rd m b.
Proof.
  revert m bs. induction addrs as [|a addrs IH]; intros m [|x bs] H; cbn; try done.
  apply not_elem_of_cons in H as [H1 H2]. rewrite IH by done. by apply rd_wr_ne.
Qed.
Lemma rd_wr_all_in m addrs bs i a b : NoDup addrs -> addrs !! i = Some a -> bs !! i = Some b ->
  rd (wr_all m addrs bs) a = u8 b.
Proof.
  revert m bs i. induction addrs as [|a0 addrs IH]; intros m [|b0 bs] [|i] Hnd Ha Hb; cbn in *; try done.
  - injection Ha as ->. injection Hb as ->. apply NoDup_cons in Hnd as [Hn _].
    rewrite rd_wr_all_out by done. apply rd_wr_eq.
  - apply NoDup_cons in Hnd as [_ Hnd]. eauto.
Qed.

(** Page tables only depend on their own pages. *)
Lemma pt_ok_same kend m m' root T :
  (forall k x, T !! k = Some x -> same_on m' m x PGSIZE) ->
  pt_ok kend m root T -> pt_ok kend m' root T.
Proof.
  intros Hs [P1 P2 P3 P4 P5]. split; try done. intros k x i Hk Hlen Hi.
  rewrite (load64_ext m' m); [by apply P4|]. eapply same_on_sub; [by eapply Hs|lia|unfold PGSIZE; lia].
Qed.
Lemma uaddr_same m m' T va :
  (forall k x, T !! k = Some x -> same_on m' m x PGSIZE) -> uaddr m' T va = uaddr m T va.
Proof.
  intros Hs. unfold uaddr. replace (user_pa m' T (PGROUNDDOWN va)) with (user_pa m T (PGROUNDDOWN va)); [done|].
  unfold user_pa, pte_of, pte_addr. destruct (T !! _) as [x|] eqn:E; [|done]. cbn [mbind option_bind].
  rewrite (load64_ext m' m); [done|]. eapply same_on_sub; [by eapply Hs| |];
  pose proof (PX_range 0 (PGROUNDDOWN va) ltac:(lia)); unfold PGSIZE; lia.
Qed.

Section Copyout.
Context {S : Type} `{!Has pmem S} (kend : Z) (kend_pos : 0 < kend).
Implicit Types (w : world S) (T : gmap (list Z) Z).

Definition with_mem w (m : mem) : world S := updc (Pmem m (freelist (compc w))) w.

Lemma copyout_round w root T va src :
  pt_ok kend (pbytes (compc w)) root T -> src <> [] ->
  let n := chunk va (Z.of_nat (length src)) in
  copyout_from_body root (va, src) w =
  match uaddr (pbytes (compc w)) T va with
  | Some pa => Ok (inl (u64 (PGROUNDDOWN va + PGSIZE), drop (Z.to_nat n) src),
                   with_mem w (wrn (pbytes (compc w)) pa (take (Z.to_nat n) src)))
  | None => Ok (inr (-1), w)
  end.
Proof.
  intros Hp Hl. unfold copyout_from_body. rewrite Z.gtb_ltb, (proj2 (Z.ltb_lt _ _)) by (destruct src; cbn; [done|lia]).
  kdo (walkaddr_run kend kend_pos w root T (PGROUNDDOWN va) Hp). unfold uaddr.
  destruct (PGROUNDDOWN va >=? MAXVA); [done|]. destruct (user_pa _ _ _ =? 0); [done|].
  kdo (get_mem_run w). by kdo (put_mem_run (wrn (pbytes (compc w)) (user_pa (pbytes (compc w)) T (PGROUNDDOWN va) +
    (va - PGROUNDDOWN va)) (take (Z.to_nat (chunk va (Z.of_nat (length src)))) src)) w).
Qed.

Lemma uaddrs_chunk m T va len pa : uaddr m T va = Some pa -> 0 < len ->
  uaddrs m T va (chunk va len) = seqZ pa (chunk va len).
Proof.
  intros H Hl. apply list_eq. intros i. unfold uaddrs. rewrite !list_lookup_fmap.
  destruct (decide (i < Z.to_nat (chunk va len))%nat).
  - rewrite !lookup_seqZ_lt by lia. cbn. rewrite (uaddr_chunk m T va len _ pa) by (done || lia). done.
  - rewrite !lookup_seqZ_ge by lia. done.
Qed.

Lemma compc_with_mem w m : compc (with_mem w m) = Pmem m (freelist (compc w)).
Proof. apply compc_updc. Qed.
Lemma with_mem_twice w m m' : with_mem (with_mem w m) m' = with_mem w m'.
Proof. unfold with_mem at 1. rewrite compc_with_mem. apply updc_updc. Qed.
Lemma with_mem_id w : with_mem w (pbytes (compc w)) = w.
Proof.
  unfold with_mem. replace (Pmem _ _) with (compc (T := pmem) w) by (by destruct (compc w)). apply updc_compc.
Qed.

Lemma length_uaddrs m T va len : length (uaddrs m T va len) = Z.to_nat len.
Proof. unfold uaddrs. by rewrite length_fmap, length_seqZ. Qed.

(** The page table is not among the bytes that are written. *)
Lemma chunk_same m T va len pa bs : data_pages m T va len -> uaddr m T va = Some pa -> 0 < len ->
  length bs = Z.to_nat (chunk va len) ->
  forall k x, T !! k = Some x -> same_on (wrn m pa bs) m x PGSIZE.
Proof.
  intros Hd Hpa Hl Hb k x Hx b Hbx. apply rd_wrn_out. destruct (chunk_range va len Hl) as [Hc _].
  destruct (Z.lt_ge_cases b pa) as [|Hge]; [by left|]. right. rewrite Hb, Z2Nat.id by lia.
  destruct (Z.lt_ge_cases b (pa + chunk va len)) as [Hlt|]; [|done]. exfalso.
  pose proof (uaddr_chunk m T va len (b - pa) pa Hpa ltac:(lia)) as E.
  destruct (Hd (b - pa) _ k x ltac:(lia) E Hx); lia.
Qed.

Lemma copyout_loop_ok fuel w root T va src :
  let len := Z.of_nat (length src) in
  pt_ok kend (pbytes (compc w)) root T -> 0 <= va -> rounds va len <= Z.of_nat fuel ->
  mapped (pbytes (compc w)) T va len -> data_pages (pbytes (compc w)) T va len ->
  loop fuel (copyout_from_body root) (va, src) w =
  Ok (0, with_mem w (wr_all (pbytes (compc w)) (uaddrs (pbytes (compc w)) T va len) src)).
Proof.
  cbv zeta. revert w va src. induction fuel as [|f IH]; intros w va src Hp Hva Hf Hm Hd.
  { pose proof (rounds_pos va (Z.of_nat (length src)) ltac:(lia)). lia. }
  set (m := pbytes (compc w)) in *. set (len := Z.of_nat (length src)) in *.
  destruct (decide (src = [])) as [->|Hne].
  { rewrite wr_all_nil. unfold m. rewrite with_mem_id. by apply loop_exit. }
  assert (Hl : 0 < len) by (unfold len; destruct src; [done|cbn; lia]).
  destruct (Hm 0 ltac:(lia)) as [pa Hpa]. rewrite Z.add_0_r in Hpa.
  pose proof (copyout_round w root T va src Hp Hne) as E. cbv zeta in E. fold m len in E. rewrite Hpa in E.
  rewrite (loop_next _ _ _ _ _ _ E). destruct (chunk_range va len Hl) as [Hc _].
  set (n := chunk va len) in *.
  assert (Ht : length (take (Z.to_nat n) src) = Z.to_nat n) by (rewrite length_take; lia).
  set (m1 := wrn m pa (take (Z.to_nat n) src)).
  pose proof (chunk_same m T va len pa _ Hd Hpa Hl Ht) as Hs. fold m1 in Hs.
  pose proof (rounds_next va len ltac:(pose proof (uaddr_lt _ _ _ _ Hpa); lia) Hl) as Hr. fold n in Hr.
  assert (El : Z.of_nat (length (drop (Z.to_nat n) src)) = len - n) by (rewrite length_drop; lia).
  assert (Eu : forall a k, uaddrs m1 T a k = uaddrs m T a k).
  { intros a k. apply list_fmap_ext. intros i b _. by rewrite (uaddr_same m m1) by done. }
  assert (Em : m1 = wr_all m (uaddrs m T va n) (take (Z.to_nat n) src)).
  { unfold n at 1. rewrite (uaddrs_chunk m T va len pa Hpa Hl). symmetry. apply wr_all_seq. fold n. lia. }
  rewrite IH; rewrite ?compc_with_mem; cbn [pbytes]; rewrite ?El.
  - rewrite with_mem_twice, Eu, Em. do 3 f_equal.
    rewrite <- (take_drop (Z.to_nat n) src) at 3. destruct (decide (n = len)) as [En|En].
    + rewrite drop_ge by lia. rewrite En, !wr_all_nil, app_nil_r. done.
    + destruct (chunk_next va len Hva ltac:(by eapply uaddr_lt) ltac:(fold n; lia)) as [-> _]. fold n.
      rewrite <- wr_all_app by (rewrite length_uaddrs; lia). f_equal.
      unfold uaddrs. rewrite <- fmap_app, <- seqZ_app by lia. do 2 f_equal. lia.
  - by eapply pt_ok_same.
  - apply u64_range.
  - lia.
  - intros i Hi. destruct (chunk_next va len Hva ltac:(by eapply uaddr_lt) ltac:(fold n; lia)) as [-> _]. fold n.
    rewrite (uaddr_same m m1) by done. rewrite <- Z.add_assoc. apply Hm. lia.
  - intros i p k x Hi. destruct (chunk_next va len Hva ltac:(by eapply uaddr_lt) ltac:(fold n; lia)) as [-> _]. fold n.
    rewrite (uaddr_same m m1) by done. rewrite <- Z.add_assoc. apply Hd. lia.
Qed.
End Copyout.

(** Bytes stored at the addresses of a user range leave the page table alone. *)
Lemma wr_all_same m T va len src : mapped m T va len -> data_pages m T va len ->
  forall k x, T !! k = Some x -> same_on (wr_all m (uaddrs m T va len) src) m x PGSIZE.
Proof.
  intros Hm Hd k x Hx b Hbx. apply rd_wr_all_out. intros (a & -> & Ha%elem_of_seqZ)%list_elem_of_fmap.
  destruct (Hm (a - va) ltac:(lia)) as [p Ep].
  destruct (Hd (a - va) p k x ltac:(lia) Ep Hx); replace (va + (a - va)) with a in Ep by lia; rewrite Ep in Hbx; cbn in Hbx; unfold id in Hbx; lia.
Qed.

(** Reading back what was stored at the addresses of a user range. *)
Lemma user_bytes_stored m m' T va src : m' = wr_all m (uaddrs m T va (Z.of_nat (length src))) src ->
  (forall k x, T !! k = Some x -> same_on m' m x PGSIZE) ->
  mapped m T va (Z.of_nat (length src)) -> NoDup (uaddrs m T va (Z.of_nat (length src))) ->
  user_bytes m' T va (Z.of_nat (length src)) = u8 <$> src.
Proof.
  intros -> Hs Hm Hu. apply list_eq. intros i. unfold user_bytes. rewrite !list_lookup_fmap.
  destruct (src !! i) as [b|] eqn:Eb.
  - pose proof (lookup_lt_Some _ _ _ Eb). rewrite lookup_seqZ_lt by lia. cbn.
    rewrite (uaddr_same m) by done. destruct (Hm (Z.of_nat i) ltac:(lia)) as [p Ep].
    rewrite Ep. f_equal. rewrite (rd_wr_all_in _ _ src i p b Hu); [done| |done].
    unfold uaddrs. rewrite list_lookup_fmap, lookup_seqZ_lt by lia. cbn. by rewrite Ep.
  - apply lookup_ge_None in Eb. by rewrite lookup_seqZ_ge by lia.
Qed.
Lemma u8_bytes src : Forall (fun b => 0 <= b < 256) src -> u8 <$> src = src.
Proof. induction 1 as [|b src Hb _ IH]; [done|]. cbn. by rewrite IH, u8_id. Qed.

Section Props.
Context {S : Type} `{!Has pmem S} (kend : Z) (kend_pos : 0 < kend).
Implicit Types (w : world S) (T : gmap (list Z) Z).

Lemma copyin_to_ok w root T va len : pt_ok kend (pbytes (compc w)) root T -> 0 <= va -> 0 <= len ->
  mapped (pbytes (compc w)) T va len -> copyin_to root va len w = Ok ((0, user_bytes (pbytes (compc w)) T va len), w).
Proof.
  intros Hp Hva Hl Hm. apply (copyin_loop_ok kend kend_pos _ w root T va len []); try done. by apply rounds_fuel.
Qed.
Lemma copyin_to_bad w root T va len i : pt_ok kend (pbytes (compc w)) root T -> 0 <= va ->
  0 <= i < len -> uaddr (pbytes (compc w)) T (va + i) = None -> exists acc, copyin_to root va len w = Ok ((-1, acc), w).
Proof.
  intros Hp Hva Hi Hn. apply (copyin_loop_fail kend kend_pos _ w root T va len [] i); try done. apply rounds_fuel. lia.
Qed.

Lemma copyout_from_ok w root T va src : let len := Z.of_nat (length src) in
  pt_ok kend (pbytes (compc w)) root T -> 0 <= va ->
  mapped (pbytes (compc w)) T va len -> data_pages (pbytes (compc w)) T va len ->
  copyout_from root va src w = Ok (0, with_mem w (wr_all (pbytes (compc w)) (uaddrs (pbytes (compc w)) T va len) src)).
Proof. intros len Hp Hva Hm Hd. apply (copyout_loop_ok kend kend_pos); try done. apply rounds_fuel. unfold len. lia. Qed.

(** copyin reads exactly the bytes the page table maps at [va], or returns -1
    when some page of the range is not a mapped user page; it changes nothing
    and ends within its bound on rounds. *)
Theorem copyin_correct w root T va len
  (Hp : pt_ok kend (pbytes (compc w)) root T) (Hva : 0 <= va) (Hl : 0 <= len) :
  (mapped (pbytes (compc w)) T va len ->
   copyin_to root va len w = Ok ((0, user_bytes (pbytes (compc w)) T va len), w)) /\
  (forall i, 0 <= i < len -> uaddr (pbytes (compc w)) T (va + i) = None ->
   exists acc, copyin_to root va len w = Ok ((-1, acc), w)).
Proof.
  split; [by apply copyin_to_ok|]. intros i Hi Hn. by eapply copyin_to_bad.
Qed.

(** C28: copyout followed by copyin of the same range gives the bytes back, across
    page boundaries, as long as the range is mapped to distinct bytes outside the
    page table; no other byte of memory changes. *)
Theorem copyout_copyin w root T va src
  (Hp : pt_ok kend (pbytes (compc w)) root T) (Hva : 0 <= va)
  (Hm : mapped (pbytes (compc w)) T va (Z.of_nat (length src)))
  (Hd : data_pages (pbytes (compc w)) T va (Z.of_nat (length src)))
  (Hu : NoDup (uaddrs (pbytes (compc w)) T va (Z.of_nat (length src))))
  (Hb : Forall (fun b => 0 <= b < 256) src) :
  exists w', copyout_from root va src w = Ok (0, w') /\ frame pmem w w' /\
    copyin_to root va (Z.of_nat (length src)) w' = Ok ((0, src), w') /\
    forall b, b ∉ uaddrs (pbytes (compc w)) T va (Z.of_nat (length src)) ->
      rd (pbytes (compc w')) b = rd (pbytes (compc w)) b.
Proof.
  set (m := pbytes (compc w)) in *. set (len := Z.of_nat (length src)) in *.
  set (m' := wr_all m (uaddrs m T va len) src). exists (with_mem w m').
  assert (Hs : forall k x, T !! k = Some x -> same_on m' m x PGSIZE) by (by apply wr_all_same).
  split; [|split; [|split]].
  - by apply copyout_from_ok.
  - unfold with_mem. eauto with xv6.
  - unfold copyin_to.
    rewrite (copyin_loop_ok kend kend_pos _ _ root T); rewrite ?compc_with_mem; cbn [pbytes].
    + do 3 f_equal. etrans; [by apply (user_bytes_stored m m')|by apply u8_bytes].
    + by eapply pt_ok_same.
    + done.
    + unfold len. lia.
    + apply rounds_fuel. unfold len. lia.
    + intros i Hi. rewrite (uaddr_same m m') by done. by apply Hm.
  - intros b Hnb. rewrite compc_with_mem. by apply rd_wr_all_out.
Qed.
End Props.

(** ** An address space with one page *)

(** Page-table pages at pages 4, 3, 2 from the top of memory; virtual page 1 is
    mapped to page 1. *)
Definition us_tree : gmap (list Z) Z :=
  {[ [] := vm_page 4; [0] := vm_page 3; [0; 0] := vm_page 2 ]}.
Definition us_mem : mem :=
  store64 (store64 (store64 ∅ (vm_page 4) (Z.lor (PA2PTE (vm_page 3)) PTE_V))
    (vm_page 3) (Z.lor (PA2PTE (vm_page 2)) PTE_V))
    (vm_page 2 + 8) (Z.lor (PA2PTE (vm_page 1)) (PTE_V + PTE_R + PTE_W + PTE_U)).
Definition us_world : world pmem := boot_world (Pmem us_mem 0).

Lemma us_tree_inv k x : us_tree !! k = Some x ->
  (k = [] /\ x = vm_page 4) \/ (k = [0] /\ x = vm_page 3) \/ (k = [0; 0] /\ x = vm_page 2).
Proof.
  unfold us_tree. intros [[<- <-]|[_ [[<- <-]|[_ [<- <-]%lookup_singleton_Some]]%lookup_insert_Some]]%lookup_insert_Some; auto.
Qed.

Lemma us_pt : pt_ok (vm_page 4) us_mem (vm_page 4) us_tree.
Proof.
  split.
  - done.
  - intros k x [[-> ->]|[[-> ->]|[-> ->]]]%us_tree_inv; apply vm_page_valid; lia.
  - intros k k' x [[-> ->]|[[-> ->]|[-> ->]]]%us_tree_inv [[-> E]|[[-> E]|[-> E]]]%us_tree_inv; done.
  - intros k x i [[-> ->]|[[-> ->]|[-> ->]]]%us_tree_inv Hl Hi; [..|cbn in Hl; lia];
    (destruct (decide (i = 0)) as [->|Hne]; [by vm_compute|]).
    + destruct (us_tree !! _) eqn:E; [apply us_tree_inv in E; naive_solver|].
      unfold us_mem. rewrite !load64_store64_ne by (unfold vm_page, PGSIZE; lia). rewrite (load_zero 8); done.
    + destruct (us_tree !! _) eqn:E; [apply us_tree_inv in E; naive_solver|].
      unfold us_mem. rewrite !load64_store64_ne by (unfold vm_page, PGSIZE; lia). rewrite (load_zero 8); done.
  - intros k i x [[E _]|[[E _]|[E _]]]%us_tree_inv.
    + by destruct k.
    + destruct k as [|? [|]]; [|done..]. split; [by eexists|cbn; lia].
    + destruct k as [|a [|? [|]]]; [done| |done..]. injection E as -> _. split; [by eexists|cbn; lia].
Qed.

Lemma us_addr i : 0 <= i < 8 -> uaddr us_mem us_tree (5000 + i) = Some (vm_page 1 + 904 + i).
Proof.
  intros Hi. unfold uaddr. assert (E : PGROUNDDOWN (5000 + i) = 4096).
  { rewrite PGROUNDDOWN_add; [reflexivity|lia|]. change (PGROUNDDOWN 5000) with 4096. unfold PGSIZE. lia. }
  rewrite E. change (4096 >=? MAXVA) with false. cbv iota.
  assert (Ep : user_pa us_mem us_tree 4096 = vm_page 1) by by vm_compute.
  rewrite Ep. change (vm_page 1 =? 0) with false. cbv iota. f_equal. lia.
Qed.

Lemma copyin_correct_witness : exists bs, length bs = 8%nat /\
  copyin_to (vm_page 4) 5000 8 us_world = Ok ((0, bs), us_world).
Proof.
  eexists. split; [|apply (copyin_correct (S := pmem) (vm_page 4) ltac:(vm_compute; reflexivity) us_world (vm_page 4) us_tree 5000 8 us_pt
    ltac:(lia) ltac:(lia))].
  - reflexivity.
  - intros i Hi. eexists. apply us_addr. exact Hi.
Defined.

Lemma copyout_copyin_witness : exists w', copyout_from (vm_page 4) 5000 [1; 2; 3] us_world = Ok (0, w') /\
  copyin_to (vm_page 4) 5000 3 w' = Ok ((0, [1; 2; 3]), w').
Proof.
  destruct (copyout_copyin (S := pmem) (vm_page 4) ltac:(vm_compute; reflexivity) us_world (vm_page 4) us_tree 5000 [1; 2; 3] us_pt)
    as (w' & E & _ & R & _).
  - lia.
  - intros i Hi. eexists. apply us_addr. cbn in Hi. lia.
  - intros i pa k x Hi Hp Hk. change (pbytes (compc us_world)) with us_mem in Hp. cbn [length] in Hi.
    rewrite us_addr in Hp by lia. injection Hp as <-.
    apply us_tree_inv in Hk as [[_ ->]|[[_ ->]|[_ ->]]]; unfold vm_page, PGSIZE; lia.
  - vm_compute. repeat (apply NoDup_cons; split; [rewrite list_elem_of_In; cbn; lia|]). apply NoDup_nil_2.
  - repeat constructor; lia.
  - exists w'. split; [exact E|exact R].
Defined.
