(* ===== verification/Proc.v ===== *)
(** * kernel/proc.c: the process table, sleep and wakeup

    The process table with the scheduling part of proc.c: pid allocation,
    sleep, wakeup, sched, yield, kill, reparent and the table scans.  [swtch]
    (swtch.S) leaves the running thread; what the rest of the machine does until
    the scheduler switches back is the parameter [resume] of the routines that
    can give up the CPU, so that their theorems hold whatever the other threads
    do. *)
From S2P Require Import Prelude Spinlock Riscv.
From stdpp Require Import prelude gmap strings.
From Stdlib Require Import ZArith Lia.
Open Scope Z_scope.

(** [enum procstate] *)
Inductive procstate := UNUSED | SLEEPING | RUNNABLE | RUNNING | ZOMBIE.

#[export] Instance procstate_eq_dec : EqDecision procstate.
Proof. solve_decision. Defined.

(** The addresses the kernel sleeps on. *)
Inductive wchan :=
| Ch_proc (i : nat)            (* a struct proc: wait() *)
| Ch_buflock (i : nat)         (* &b->lock *)
| Ch_ilock (i : nat)           (* &ip->lock *)
| Ch_log                       (* &log *)
| Ch_ticks                     (* &ticks *)
| Ch_cons_r                    (* &cons.r *)
| Ch_uart_r                    (* &uart_tx_r *)
| Ch_nread (pi : Z)            (* &pi->nread *)
| Ch_nwrite (pi : Z)           (* &pi->nwrite *)
| Ch_vdesc                     (* &disk.free[0] *)
| Ch_buf (i : nat).            (* a struct buf *)

#[export] Instance wchan_eq_dec : EqDecision wchan.
Proof. solve_decision. Defined.

(** [struct proc]; pointers into [proc[]], [ftable.file[]] and [icache.inode[]]
    are indices, [None] is 0. *)
Record proc := Proc {
  p_state : procstate;
  p_parent : option nat;
  p_chan : option wchan;
  p_killed : Z;
  p_xstate : Z;
  p_pid : Z;
  p_kstack : Z;
  p_sz : Z;
  p_pagetable : Z;
  p_trapframe : Z;
  p_ra : Z;                      (* context.ra *)
  p_sp : Z;                      (* context.sp *)
  p_ofile : list (option nat);
  p_cwd : option nat;
  p_name : list Z;
  p_syscall_mask : Z;
}.

(** The table as C's zero initialisation leaves it. *)
Definition proc0 : proc :=
  Proc UNUSED None None 0 0 0 0 0 0 0 0 0 (repeat None 16) None (repeat 0 16) 0.
#[export] Instance proc_inhabited : Inhabited proc := populate proc0.

Definition set_state (s : procstate) (p : proc) : proc :=
  let '(Proc _ a b c d e f g h i j k l m n o) := p in Proc s a b c d e f g h i j k l m n o.
Definition set_parent (x : option nat) (p : proc) : proc :=
  let '(Proc s _ b c d e f g h i j k l m n o) := p in Proc s x b c d e f g h i j k l m n o.
Definition set_chan (x : option wchan) (p : proc) : proc :=
  let '(Proc s a _ c d e f g h i j k l m n o) := p in Proc s a x c d e f g h i j k l m n o.
Definition set_killed (x : Z) (p : proc) : proc :=
  let '(Proc s a b _ d e f g h i j k l m n o) := p in Proc s a b x d e f g h i j k l m n o.
Definition set_xstate (x : Z) (p : proc) : proc :=
  let '(Proc s a b c _ e f g h i j k l m n o) := p in Proc s a b c x e f g h i j k l m n o.

(** [proc[NPROC]], [initproc] and [nextpid]. *)
Record proctab := Proctab { procs : list proc; initproc : option nat; nextpid : Z }.

Definition nproc : nat := Z.to_nat NPROC.

Definition tab_alter (f : proc -> proc) (i : nat) (t : proctab) : proctab :=
  Proctab (alter f i (procs t)) (initproc t) (nextpid t).

Section Proc.
Context {S : Type} `{!Has proctab S}.

Definition get_proc (i : nat) : K S proc := t ← getD; mret (procs t !!! i).
Definition upd_proc (f : proc -> proc) (i : nat) : K S () := t ← getD; putD (tab_alter f i t).

Definition cpuid : K S nat := gets tp.

Definition myproc : K S (option nat) :=
  push_off ;;
  c ← mycpu;
  pop_off ;;
  mret (c_proc c).

(** [myproc()] where the code dereferences the result: a null pointer faults
    in supervisor mode, which is kerneltrap's panic. *)
Definition myproc_deref : K S nat :=
  p ← myproc;
  match p with Some i => mret i | None => panic "kerneltrap" end.

Definition allocpid : K S Z :=
  acquire L_pid ;;
  t ← getD;
  let pid := nextpid t in
  putD (Proctab (procs t) (initproc t) (i32 (nextpid t + 1))) ;;
  release L_pid ;;
  mret pid.

Definition wakeup (chan : wchan) : K S () :=
  for_each (seq 0 nproc) (fun i =>
    acquire (L_proc i) ;;
    p ← get_proc i;
    (if bool_decide (p_state p = SLEEPING) && bool_decide (p_chan p = Some chan)
     then upd_proc (set_state RUNNABLE) i else mret ()) ;;
    release (L_proc i)).

Definition wakeup1 (i : nat) : K S () :=
  h ← holding (L_proc i);
  if h =? 0 then panic "wakeup1"
  else
    p ← get_proc i;
    if bool_decide (p_chan p = Some (Ch_proc i)) && bool_decide (p_state p = SLEEPING)
    then upd_proc (set_state RUNNABLE) i else mret ().

Definition kill (pid : Z) : K S Z :=
  r ← for_break (seq 0 nproc) (fun i =>
    acquire (L_proc i) ;;
    p ← get_proc i;
    if p_pid p =? pid then
      upd_proc (set_killed 1) i ;;
      (if bool_decide (p_state p = SLEEPING) then upd_proc (set_state RUNNABLE) i else mret ()) ;;
      release (L_proc i) ;;
      mret (Some 0)
    else
      release (L_proc i) ;;
      mret None);
  mret (default (-1) r).

Definition reparent (p : nat) : K S () :=
  for_each (seq 0 nproc) (fun pp =>
    q ← get_proc pp;
    if bool_decide (p_parent q = Some p) then
      acquire (L_proc pp) ;;
      t ← getD;
      upd_proc (set_parent (initproc t)) pp ;;
      release (L_proc pp)
    else mret ()).

Definition count_unused_proc_body (num : Z) (i : nat) : K S Z :=
  acquire (L_proc i) ;;
  p ← get_proc i;
  let num' := if bool_decide (p_state p <> UNUSED) then u64 (num + 1) else num in
  release (L_proc i) ;;
  mret num'.
Fixpoint count_unused_proc_from (l : list nat) (num : Z) : K S Z :=
  match l with
  | [] => mret num
  | i :: l' => num' ← count_unused_proc_body num i; count_unused_proc_from l' num'
  end.
Definition count_unused_proc : K S Z := count_unused_proc_from (seq 0 nproc) 0.

(** procdump: the lines it prints, as (pid, state, name). *)
Definition state_name (s : procstate) : string :=
  match s with
  | UNUSED => "unused" | SLEEPING => "sleep " | RUNNABLE => "runble"
  | RUNNING => "run   " | ZOMBIE => "zombie"
  end.
Definition procdump : K S (list (Z * string * list Z)) :=
  t ← getD;
  mret (p ← procs t;
        if bool_decide (p_state p = UNUSED) then []
        else [(p_pid p, state_name (p_state p), p_name p)]).

(** ** Giving up the CPU *)

Section Resume.
(** From the [swtch] away from this thread to the [swtch] back to it. *)
Context (resume : K S ()).

Definition sched : K S () :=
  p ← myproc_deref;
  h ← holding (L_proc p);
  if h =? 0 then panic "sched p->lock"
  else
    c ← mycpu;
    if negb (noff c =? 1) then panic "sched locks"
    else
      q ← get_proc p;
      if bool_decide (p_state q = RUNNING) then panic "sched running"
      else
        i ← intr_get;
        if negb (i =? 0) then panic "sched interruptible"
        else
          c ← mycpu;
          resume ;;
          c' ← mycpu;
          set_mycpu (Cpu (c_proc c') (noff c') (intena c)).

Definition yield : K S () :=
  p ← myproc_deref;
  acquire (L_proc p) ;;
  upd_proc (set_state RUNNABLE) p ;;
  sched ;;
  release (L_proc p).

Definition sleep (chan : wchan) (lk : lock) : K S () :=
  p ← myproc_deref;
  (if bool_decide (lk <> L_proc p) then acquire (L_proc p) ;; release lk else mret ()) ;;
  upd_proc (set_chan (Some chan)) p ;;
  upd_proc (set_state SLEEPING) p ;;
  sched ;;
  upd_proc (set_chan None) p ;;
  (if bool_decide (lk <> L_proc p) then release (L_proc p) ;; acquire lk else mret ()).

End Resume.

(** One pass of the scheduler's loop over the table; [run] is what happens
    from the [swtch] into the chosen process to its [swtch] back. *)
Definition scheduler_pass (run : K S ()) : K S Z :=
  intr_on ;;
  let scan := fix scan (l : list nat) (found : Z) : K S Z :=
    match l with
    | [] => mret found
    | i :: l' =>
        acquire (L_proc i) ;;
        p ← get_proc i;
        found' ← (if bool_decide (p_state p = RUNNABLE) then
                    upd_proc (set_state RUNNING) i ;;
                    c ← mycpu;
                    set_mycpu (Cpu (Some i) (noff c) (intena c)) ;;
                    run ;;
                    c ← mycpu;
                    set_mycpu (Cpu None (noff c) (intena c)) ;;
                    mret 1
                  else mret found);
        release (L_proc i) ;;
        scan l' found'
    end in
  found ← scan (seq 0 nproc) 0;
  (if found =? 0 then intr_on else mret ()) ;;
  mret found.

End Proc.

(** ** One thread: what the table operations do *)

(** No process lock is held. *)
Definition procs_unlocked {S} (w : world S) : Prop :=
  forall i, (i < nproc)%nat -> lock_free (L_proc i) w.

(** What wakeup does to one process. *)
Definition woken (chan : wchan) (p : proc) : proc :=
  if bool_decide (p_state p = SLEEPING) && bool_decide (p_chan p = Some chan)
  then set_state RUNNABLE p else p.

(** What kill does to the process it finds. *)
Definition slain (p : proc) : proc :=
  let p' := set_killed 1 p in
  if bool_decide (p_state p = SLEEPING) then set_state RUNNABLE p' else p'.

Definition tab_map (f : proc -> proc) (t : proctab) : proctab :=
  Proctab (f <$> procs t) (initproc t) (nextpid t).

Section Run.
Context {S : Type} `{!Has proctab S}.
Implicit Types (w : world S) (t : proctab).

Lemma procs_unlocked_touch w : procs_unlocked w -> procs_unlocked (touch w).
Proof. intros H i Hi. by apply lock_free_touch, H. Qed.
Lemma procs_unlocked_updc {T} `{!Has T S} (t : T) w : procs_unlocked w -> procs_unlocked (updc t w).
Proof. intros H i Hi. by apply lock_free_updc, H. Qed.
Lemma procs_unlocked_acq l w : (forall i, l <> L_proc i) -> procs_unlocked w -> procs_unlocked (acq l w).
Proof. intros Hl H i Hi. apply lock_free_acq; [done|]. by apply H. Qed.
Lemma procs_unlocked_kframe w w' : kframe w w' -> procs_unlocked w -> procs_unlocked w'.
Proof. intros F H i Hi. eapply kframe_lock_free; [done|]. by apply H. Qed.
Lemma procs_unlocked_free w i : procs_unlocked w -> (i < nproc)%nat -> lock_free (L_proc i) w.
Proof. intros H Hi. by apply H. Qed.
End Run.

#[export] Hint Resolve procs_unlocked_touch procs_unlocked_updc procs_unlocked_kframe : xv6.
#[export] Hint Extern 3 (lock_free (L_proc _) _) =>
  (apply procs_unlocked_free; [|assumption]) : xv6.
#[export] Hint Extern 3 (procs_unlocked (acq _ _)) =>
  (apply procs_unlocked_acq; [first [assumption|congruence]|]) : xv6.

Section Run2.
Context {S : Type} `{!Has proctab S}.
Implicit Types (w : world S) (t : proctab).

Lemma get_proc_run i w : get_proc i w = Ok (procs (compc (T := proctab) w) !!! i, w).
Proof. done. Qed.
Lemma upd_proc_run f i w :
  upd_proc f i w = Ok ((), updc (tab_alter f i (compc (T := proctab) w)) w).
Proof. done. Qed.

Lemma myproc_run w : cpu_ok w -> myproc w = Ok (c_proc (h_cpu (cur w)), touch w).
Proof.
  intros Hc. unfold myproc, mycpu. rewrite (bind_Ok _ _ _ _ _ (push_off_run w)). ksimp.
  rewrite (bind_Ok _ _ _ _ _ (pop_off_run w Hc)). done.
Qed.

Lemma myproc_deref_run w i : cpu_ok w -> c_proc (h_cpu (cur w)) = Some i ->
  myproc_deref w = Ok (i, touch w).
Proof.
  intros Hc Hp. unfold myproc_deref. rewrite (bind_Ok _ _ _ _ _ (myproc_run w Hc)). by rewrite Hp.
Qed.

(** A loop over locked processes, each round of which has the effect of [f]. *)
Lemma for_each_procs (body : nat -> K S ()) (f : nat -> proctab -> proctab) :
  (forall i t, length (procs (f i t)) = length (procs t)) ->
  (forall i w, cpu_ok w -> procs_unlocked w -> (i < nproc)%nat ->
     length (procs (compc w)) = nproc ->
     body i w = Ok ((), touch (updc (f i (compc w)) w))) ->
  forall l w, cpu_ok w -> procs_unlocked w -> length (procs (compc w)) = nproc ->
  Forall (fun i => (i < nproc)%nat) l -> l <> [] ->
  for_each l body w = Ok ((), touch (updc (foldl (flip f) (compc w) l) w)).
Proof.
  intros Hf Hb l. induction l as [|i l IH]; intros w Hc Hu Hn Hl Hne; [done|].
  cbn [for_each]. apply Forall_cons in Hl as [Hi Hl].
  rewrite (bind_Ok _ _ _ _ _ (Hb i w Hc Hu Hi Hn)). destruct l as [|j l]; [done|].
  rewrite IH; eauto with xv6; knorm; [done|by rewrite Hf].
Qed.

(** Updating every entry in turn is updating the whole table. *)
Lemma alter_all (f : proc -> proc) (l : list proc) n :
  foldl (fun l i => alter f i l) l (seq n (length l - n)) = take n l ++ (f <$> drop n l).
Proof.
  assert (H : forall m n l, m = (length l - n)%nat -> (n <= length l)%nat ->
    foldl (fun l i => alter f i l) l (seq n m) = take n l ++ (f <$> drop n l)).
  { clear l n. intros m. induction m as [|m IH]; intros n l Hm Hn; cbn [seq foldl].
    - rewrite drop_ge by lia. rewrite take_ge by lia. by rewrite app_nil_r.
    - rewrite IH by (rewrite length_alter; lia).
      destruct (lookup_lt_is_Some_2 l n) as [x Hx]; [lia|].
      rewrite (drop_S l x n Hx). rewrite (take_S_r (alter f n l) n (f x)).
      + rewrite take_alter_ge by lia. rewrite drop_alter_lt by lia. by rewrite <- app_assoc.
      + by rewrite list_lookup_alter_eq, Hx. }
  destruct (decide (n <= length l)%nat); [by apply H|].
  replace (length l - n)%nat with 0%nat by lia. cbn. rewrite drop_ge by lia. rewrite take_ge by lia.
  by rewrite app_nil_r.
Qed.

Lemma tab_alter_all (f : proc -> proc) t : length (procs t) = nproc ->
  foldl (flip (tab_alter f)) t (seq 0 nproc) = tab_map f t.
Proof.
  intros Hlen. destruct t as [ps ip np]. unfold tab_map; cbn in *.
  transitivity (Proctab (foldl (fun l i => alter f i l) ps (seq 0 nproc)) ip np).
  - clear Hlen. revert ps. induction (seq 0 nproc) as [|i l IH]; intros ps; [done|]. cbn [foldl flip].
    unfold tab_alter at 2. cbn [procs initproc nextpid]. apply IH.
  - pose proof (alter_all f ps 0) as H. rewrite Nat.sub_0_r, Hlen in H. by rewrite H.
Qed.

Lemma tab_alter_if (f : proc -> proc) (c : proc -> bool) i t : (i < length (procs t))%nat ->
  tab_alter (fun p => if c p then f p else p) i t =
  if c (procs t !!! i) then tab_alter f i t else t.
Proof.
  intros Hi. destruct (lookup_lt_is_Some_2 _ _ Hi) as [p Hp].
  rewrite (list_lookup_total_correct _ _ _ Hp). destruct t as [ps ip np]; unfold tab_alter; cbn in *.
  destruct (c p) eqn:E; f_equal; apply list_eq; intros j;
    (destruct (decide (i = j)) as [<-|];
     [rewrite !list_lookup_alter_eq, Hp; cbn; by rewrite E|by rewrite !list_lookup_alter_ne]).
Qed.

Lemma wakeup_body_run chan i w : cpu_ok w -> procs_unlocked w -> (i < nproc)%nat ->
  length (procs (compc w)) = nproc ->
  (acquire (L_proc i) ;;
    p ← get_proc i;
    (if bool_decide (p_state p = SLEEPING) && bool_decide (p_chan p = Some chan)
     then upd_proc (set_state RUNNABLE) i else mret ()) ;;
    release (L_proc i)) w = Ok ((), touch (updc (tab_alter (woken chan) i (compc w)) w)).
Proof.
  intros Hc Hu Hi Hn. kacquire. rewrite (bind_Ok _ _ _ _ _ (get_proc_run _ _)). knorm.
  unfold woken at 1. rewrite tab_alter_if by lia.
  destruct (bool_decide _ && bool_decide _).
  - rewrite (bind_Ok _ _ _ _ _ (upd_proc_run _ _ _)). knorm. apply release_acq; eauto with xv6.
  - rewrite bind_mret, updc_compc. apply release_acq; eauto with xv6.
Qed.

Lemma seq_lt n m : (n <= m)%nat -> Forall (fun i => (i < m)%nat) (seq 0 n).
Proof. intros H. apply Forall_forall. intros i Hi%elem_of_seq. lia. Qed.

Lemma wakeup_run chan w : cpu_ok w -> procs_unlocked w -> length (procs (compc w)) = nproc ->
  wakeup chan w = Ok ((), touch (updc (tab_map (woken chan) (compc w)) w)).
Proof.
  intros Hc Hu Hn. unfold wakeup.
  rewrite (for_each_procs _ (tab_alter (woken chan))); [|..|done|done|done|by apply seq_lt|done].
  - by rewrite tab_alter_all.
  - intros i t. apply length_alter.
  - intros i w0 Hc0 Hu0 Hi Hn0. by apply wakeup_body_run.
Qed.

Lemma alter_insert (f : proc -> proc) (l : list proc) i p :
  l !! i = Some p -> alter f i l = <[i := f p]> l.
Proof.
  intros Hp. apply list_eq. intros j. destruct (decide (i = j)) as [<-|].
  - rewrite list_lookup_alter_eq, Hp. rewrite list_lookup_insert_eq; [done|].
    by eapply lookup_lt_Some.
  - by rewrite list_lookup_alter_ne, list_lookup_insert_ne.
Qed.
Lemma tab_alter_compose f g i t : tab_alter f i (tab_alter g i t) = tab_alter (f ∘ g) i t.
Proof.
  unfold tab_alter; cbn. f_equal. apply list_eq. intros j. destruct (decide (i = j)) as [<-|].
  - rewrite !list_lookup_alter_eq. by destruct (procs t !! i).
  - by rewrite !list_lookup_alter_ne.
Qed.
Lemma tab_alter_ext f g i t : f (procs t !!! i) = g (procs t !!! i) -> tab_alter f i t = tab_alter g i t.
Proof.
  intros H. unfold tab_alter. f_equal. apply list_eq. intros j. destruct (decide (i = j)) as [<-|].
  - rewrite !list_lookup_alter_eq. destruct (procs t !! i) eqn:E; [|done].
    rewrite (list_lookup_total_correct _ _ _ E) in H. cbn. by rewrite H.
  - by rewrite !list_lookup_alter_ne.
Qed.

Lemma kill_loop pid n m w : (n + m = nproc)%nat -> cpu_ok w -> procs_unlocked w ->
  length (procs (compc w)) = nproc ->
  for_break (seq n m) (fun i =>
    acquire (L_proc i) ;;
    p ← get_proc i;
    if p_pid p =? pid then
      upd_proc (set_killed 1) i ;;
      (if bool_decide (p_state p = SLEEPING) then upd_proc (set_state RUNNABLE) i else mret ()) ;;
      release (L_proc i) ;;
      mret (Some 0)
    else
      release (L_proc i) ;;
      mret None) w =
  match list_find (fun p => p_pid p = pid) (drop n (procs (compc w))) with
  | Some (j, _) => Ok (Some 0, touch (updc (tab_alter slain (n + j) (compc w)) w))
  | None => Ok (None, match m with O => w | _ => touch w end)
  end.
Proof.
  revert n w. induction m as [|m IH]; intros n w Hnm Hc Hu Hn; cbn [seq for_break].
  - by rewrite drop_ge by lia.
  - destruct (lookup_lt_is_Some_2 (procs (compc w)) n) as [x Hx]; [lia|].
    assert (Hi : (n < nproc)%nat) by lia.
    rewrite (drop_S _ _ _ Hx). cbn [list_find]. rewrite bind_assoc. kacquire. rewrite bind_assoc.
    rewrite (bind_Ok _ _ _ _ _ (get_proc_run _ _)). knorm.
    rewrite (list_lookup_total_correct _ _ _ Hx).
    destruct (Z.eqb_spec (p_pid x) pid) as [E|E].
    + rewrite decide_True by done. rewrite !bind_assoc.
      rewrite (bind_Ok _ _ _ _ _ (upd_proc_run _ _ _)). rewrite !bind_assoc.
      rewrite Nat.add_0_r. rewrite (tab_alter_ext slain
        (fun p => if bool_decide (p_state x = SLEEPING) then (set_state RUNNABLE ∘ set_killed 1) p
                  else set_killed 1 p)).
      2: { unfold slain. by rewrite (list_lookup_total_correct _ _ _ Hx). }
      destruct (bool_decide (p_state x = SLEEPING)).
      * rewrite (bind_Ok _ _ _ _ _ (upd_proc_run _ _ _)), bind_assoc. knorm.
        rewrite tab_alter_compose. krelease. done.
      * rewrite bind_mret, bind_assoc. krelease. done.
    + rewrite decide_False by done. rewrite bind_assoc. krelease. rewrite bind_mret.
      rewrite IH by (eauto with xv6 || lia). knorm. destruct (list_find _ _) as [[j y]|]; cbn.
      * replace (n + Datatypes.S j)%nat with (Datatypes.S n + j)%nat by lia. by knorm.
      * by destruct m.
Qed.

Lemma kill_run pid w : cpu_ok w -> procs_unlocked w -> length (procs (compc w)) = nproc ->
  kill pid w =
  match list_find (fun p => p_pid p = pid) (procs (compc w)) with
  | Some (j, _) => Ok (0, touch (updc (tab_alter slain j (compc w)) w))
  | None => Ok (-1, touch w)
  end.
Proof.
  intros Hc Hu Hn. unfold kill. pose proof (kill_loop pid 0 nproc w eq_refl Hc Hu Hn) as E.
  rewrite drop_0 in E. destruct (list_find _ _) as [[j y]|]; by rewrite (bind_Ok _ _ _ _ _ E).
Qed.

Lemma allocpid_run w : cpu_ok w -> lock_free L_pid w ->
  let t := compc (T := proctab) w in
  allocpid w =
  Ok (nextpid t, touch (updc (Proctab (procs t) (initproc t) (i32 (nextpid t + 1))) w)).
Proof.
  intros Hc Hl t. unfold allocpid. kacquire. rewrite bind_getD, bind_putD. knorm. krelease. done.
Qed.

Lemma count_loop n m num w : (n + m = nproc)%nat -> cpu_ok w -> procs_unlocked w ->
  length (procs (compc w)) = nproc -> 0 <= num -> num + Z.of_nat m < 2 ^ 64 ->
  count_unused_proc_from (seq n m) num w =
  Ok (num + Z.of_nat (length (filter (fun p => p_state p <> UNUSED) (drop n (procs (compc w))))),
      match m with O => w | _ => touch w end).
Proof.
  revert n num w. induction m as [|m IH]; intros n num w Hnm Hc Hu Hn H0 Hm;
    cbn [seq count_unused_proc_from].
  - rewrite drop_ge by lia. cbn. by rewrite Z.add_0_r.
  - destruct (lookup_lt_is_Some_2 (procs (compc w)) n) as [x Hx]; [lia|].
    assert (Hi : (n < nproc)%nat) by lia.
    rewrite (drop_S _ _ _ Hx). unfold count_unused_proc_body. rewrite bind_assoc. kacquire.
    rewrite bind_assoc. rewrite (bind_Ok _ _ _ _ _ (get_proc_run _ _)). knorm.
    rewrite (list_lookup_total_correct _ _ _ Hx). rewrite bind_assoc. krelease. rewrite bind_mret.
    rewrite filter_cons. destruct (decide (p_state x <> UNUSED)) as [E|E];
      [rewrite bool_decide_true by done|rewrite bool_decide_false by done].
    + rewrite u64_id by lia. rewrite IH by (eauto with xv6 || lia).
      knorm. cbn [length]. destruct m; do 2 f_equal; lia.
    + rewrite IH by (eauto with xv6 || lia). knorm. by destruct m.
Qed.

Lemma count_unused_proc_run w : cpu_ok w -> procs_unlocked w -> length (procs (compc w)) = nproc ->
  count_unused_proc w =
  Ok (Z.of_nat (length (filter (fun p => p_state p <> UNUSED) (procs (compc w)))), touch w).
Proof.
  intros Hc Hu Hn. unfold count_unused_proc. rewrite count_loop by done. by rewrite drop_0.
Qed.

(** Interrupt state of thread [h] after it runs again on [h2]. *)
Definition thread_hart (h h2 : hart) : hart :=
  let off := Z.land (sstatus h2) (Z.lnot SSTATUS_SIE) in
  Hart (if new_intena h =? 0 then off else Z.lor off SSTATUS_SIE)
       (Cpu (c_proc (h_cpu h2)) (noff (h_cpu h2)) (new_intena h)).

(** sched in a thread that holds exactly its own lock. *)
Lemma sched_run resume p w w2 : cpu_ok w -> noff (h_cpu (cur w)) = 0 ->
  c_proc (h_cpu (cur w)) = Some p -> p_state (procs (compc w) !!! p) <> RUNNING ->
  resume (acq (L_proc p) w) = Ok ((), acq (L_proc p) w2) ->
  sched resume (acq (L_proc p) w) =
  Ok ((), set_hart (Hart (Z.land (sstatus (cur w2)) (Z.lnot SSTATUS_SIE))
    (Cpu (c_proc (h_cpu (cur w2))) (noff (h_cpu (cur w2)) + 1) (new_intena (cur w))))
    (acq (L_proc p) w2)).
Proof.
  intros Hc Hn Hp Hs Hr. unfold sched.
  assert (Hcur : forall w0 : world S, cur (acq (L_proc p) w0) = off_hart (cur w0)).
  { intros w0. change (cur (acq (L_proc p) w0)) with (cur (set_hart (off_hart (cur w0)) w0)).
    apply cur_set_hart. }
  rewrite (bind_Ok _ _ _ _ _ (myproc_deref_run (acq (L_proc p) w) p ltac:(eauto with xv6)
    ltac:(by rewrite Hcur))).
  rewrite touch_acq by done. unfold holding. ksimp.
  cbn [acq set_lock set_hart locks]. rewrite lookup_total_insert_eq. cbn [locked lcpu tp].
  rewrite bool_decide_true by done. ksimp. unfold mycpu, intr_get, r_sstatus, set_mycpu. ksimp.
  rewrite Hcur. cbn [off_hart h_cpu noff]. rewrite Hn. cbn [Z.add Z.eqb Pos.eqb negb].
  change (0 + 1 =? 1) with true. cbn [negb]. rewrite (bind_Ok _ _ _ _ _ (get_proc_run _ _)). knorm.
  rewrite bool_decide_false by done.
  ksimp. rewrite Hcur. cbn [off_hart sstatus]. rewrite land_lnot_SIE. ksimp.
  rewrite (bind_Ok _ _ _ _ _ Hr). ksimp. unfold modify. by rewrite !Hcur.
Qed.

Lemma release_resumed l cp ie w2 : noff (h_cpu (cur w2)) = 0 -> lock_free l w2 ->
  let off := Z.land (sstatus (cur w2)) (Z.lnot SSTATUS_SIE) in
  release l (set_hart (Hart off (Cpu cp (noff (h_cpu (cur w2)) + 1) ie)) (acq l w2)) =
  Ok ((), set_hart (Hart (if ie =? 0 then off else Z.lor off SSTATUS_SIE)
                         (Cpu cp (noff (h_cpu (cur w2))) ie)) w2).
Proof.
  intros Hn [n Hl] off. unfold release, holding. ksimp.
  cbn [acq set_lock set_hart locks tp]. rewrite !lookup_total_insert_eq. cbn [locked lcpu lname].
  rewrite bool_decide_true by done. ksimp.
  unfold acq, set_lock, set_hart; cbn [locks tp harts data].
  rewrite lookup_total_insert_eq, insert_insert_eq, (lookup_total_correct _ _ _ Hl). cbn [lname].
  rewrite insert_insert_eq, (insert_id (locks w2)) by done. rewrite Hn.
  unfold pop_off, mycpu, intr_get, r_sstatus, set_mycpu, intr_on, w_sstatus, r_sstatus. ksimp.
  assert (Hcur : cur (World (tp w2) (<[tp w2:=Hart off (Cpu cp (0 + 1) ie)]> (harts w2))
    (locks w2) (data w2)) = Hart off (Cpu cp 1 ie)) by apply lookup_total_insert_eq.
  rewrite !Hcur. cbn [sstatus h_cpu noff]. subst off. rewrite land_lnot_SIE. ksimp.
  change (1 <? 1) with false. ksimp. change (1 - 1) with 0. cbn [Z.eqb andb].
  destruct (ie =? 0) eqn:E; cbn [negb].
  - unfold mret, M_ret, set_hart; cbn. by rewrite lookup_total_insert_eq, !insert_insert_eq.
  - ksimp. unfold modify, set_hart; cbn. by rewrite !lookup_total_insert_eq, !insert_insert_eq.
Qed.

(** What a process looks like while it sleeps. *)
Definition asleep (chan : wchan) (p : proc) : proc := set_state SLEEPING (set_chan (Some chan) p).

Lemma sleep_run resume chan lk p w w2 :
  cpu_ok w -> noff (h_cpu (cur w)) = 0 -> c_proc (h_cpu (cur w)) = Some p ->
  lk <> L_proc p -> lock_free lk w -> lock_free (L_proc p) w -> (p < length (procs (compc w)))%nat ->
  resume (acq (L_proc p) (updc (tab_alter (asleep chan) p (compc w)) w)) = Ok ((), acq (L_proc p) w2) ->
  noff (h_cpu (cur w2)) = 0 -> lock_free lk w2 -> lock_free (L_proc p) w2 ->
  sleep resume chan lk (acq lk w) =
  Ok ((), acq lk (updc (tab_alter (set_chan None) p (compc w2))
                       (set_hart (thread_hart (cur w) (cur w2)) w2))).
Proof.
  intros Hc Hn Hp Hlk Hfl Hfp Hlen Hr Hn2 Hfl2 Hfp2. unfold sleep.
  assert (Hcur : cur (acq lk w) = off_hart (cur w)).
  { change (cur (acq lk w)) with (cur (set_hart (off_hart (cur w)) w)). apply cur_set_hart. }
  rewrite (bind_Ok _ _ _ _ _ (myproc_deref_run (acq lk w) p ltac:(eauto with xv6) ltac:(by rewrite Hcur))).
  rewrite touch_acq by done. rewrite bool_decide_true by done.
  rewrite bind_assoc. kacquire. rewrite (bind_Ok _ _ _ _ _ (release_swap (L_proc p) lk w ltac:(done) Hc Hfl)).
  rewrite (bind_Ok _ _ _ _ _ (upd_proc_run _ _ _)), (bind_Ok _ _ _ _ _ (upd_proc_run _ _ _)). knorm.
  rewrite tab_alter_compose.
  change (set_state SLEEPING ∘ set_chan (Some chan)) with (asleep chan).
  set (w1 := updc _ w) in *.
  assert (Hs : p_state (procs (compc w1) !!! p) <> RUNNING).
  { subst w1. rewrite compc_updc. cbn.
    destruct (lookup_lt_is_Some_2 _ _ Hlen) as [q Hq].
    rewrite (list_lookup_total_correct _ _ (asleep chan q));
      [by destruct q|by rewrite list_lookup_alter_eq, Hq]. }
  rewrite (bind_Ok _ _ _ _ _ (sched_run resume p w1 w2 ltac:(by apply cpu_ok_updc) Hn Hp Hs Hr)).
  rewrite (bind_Ok _ _ _ _ _ (upd_proc_run _ _ _)).
  set (t2 := tab_alter _ _ _).
  pose proof (release_resumed (L_proc p) (c_proc (h_cpu (cur w2))) (new_intena (cur w1))
    (updc t2 w2) Hn2 Hfp2) as E.
  rewrite (bind_Ok _ _ _ _ _ E). apply acquire_ok. exact Hfl2.
Qed.

End Run2.

(** ** Properties *)

Section Props.
Context {S : Type} `{!Has proctab S}.
Implicit Types (w : world S).

(** wakeup makes exactly the processes that sleep on the channel runnable,
    changes nothing else of the table or of the rest of the kernel, and leaves
    every lock as it found it. *)
Theorem wakeup_correct chan w
  (Hc : cpu_ok w) (Hu : procs_unlocked w) (Hn : length (procs (compc w)) = nproc) :
  exists w', wakeup chan w = Ok ((), w') /\ frame proctab w w' /\
    length (procs (compc w')) = nproc /\
    forall i p, procs (compc w) !! i = Some p ->
      procs (compc w') !! i =
      Some (if decide (p_state p = SLEEPING /\ p_chan p = Some chan)
            then set_state RUNNABLE p else p).
Proof.
  eexists. rewrite wakeup_run by done. split; [done|]. split; [apply frame_upd|].
  rewrite compc_touch, compc_updc. cbn. rewrite length_fmap. split; [done|].
  intros i p Hp. rewrite list_lookup_fmap, Hp. cbn. unfold woken.
  destruct (decide (p_state p = SLEEPING)); [rewrite bool_decide_true by done|
    rewrite bool_decide_false by done; rewrite decide_False by naive_solver; done].
  destruct (decide (p_chan p = Some chan));
    [rewrite bool_decide_true, decide_True by done|
     rewrite bool_decide_false by done; rewrite decide_False by naive_solver]; done.
Qed.

(** kill marks the first process with the pid as killed and makes it runnable
    if it sleeps (so that it returns from its system call); it fails exactly
    when no process has the pid. *)
Theorem kill_correct pid w
  (Hc : cpu_ok w) (Hu : procs_unlocked w) (Hn : length (procs (compc w)) = nproc) :
  ((forall p, p ∈ procs (compc w) -> p_pid p <> pid) /\ kill pid w = Ok (-1, touch w)) \/
  exists i p w', procs (compc w) !! i = Some p /\ p_pid p = pid /\
    (forall j q, (j < i)%nat -> procs (compc w) !! j = Some q -> p_pid q <> pid) /\
    kill pid w = Ok (0, w') /\ frame proctab w w' /\
    procs (compc w') = <[i := slain p]> (procs (compc w)) /\
    p_killed (slain p) = 1 /\ p_state (slain p) <> SLEEPING.
Proof.
  rewrite kill_run by done.
  destruct (list_find (fun p => p_pid p = pid) (procs (compc w))) as [[i p]|] eqn:E.
  - right. apply list_find_Some in E as (Hp & Hpid & Hfirst).
    eexists i, p, _. split_and!; try done.
    + intros j q Hj Hq. by apply (Hfirst j q).
    + apply frame_upd.
    + rewrite compc_touch, compc_updc. cbn. by apply alter_insert.
    + unfold slain. destruct p; cbn. by case_bool_decide.
    + unfold slain. destruct p; cbn. by case_bool_decide.
  - left. split; [|done]. apply list_find_None in E. intros p Hp.
    rewrite Forall_forall in E. by apply E.
Qed.

(** sleep hands the CPU over in the state wakeup looks for: chan and SLEEPING
    are set while p->lock is held and lk is already released, and it is the only
    lock the thread holds.  When the scheduler switches back (with p->lock held,
    as its contract says), sleep clears chan and returns holding lk and only lk,
    with the interrupt state of the thread and not of the CPU that ran it. *)
Theorem sleep_correct (resume : K S ()) chan lk p w w2
  (Hc : cpu_ok w) (Hn : noff (h_cpu (cur w)) = 0) (Hp : c_proc (h_cpu (cur w)) = Some p)
  (Hlk : lk <> L_proc p) (Hfl : lock_free lk w) (Hfp : lock_free (L_proc p) w)
  (Hlen : (p < length (procs (compc w)))%nat)
  (Hr : resume (acq (L_proc p) (updc (tab_alter (asleep chan) p (compc w)) w)) =
        Ok ((), acq (L_proc p) w2))
  (Hn2 : noff (h_cpu (cur w2)) = 0) (Hfl2 : lock_free lk w2) (Hfp2 : lock_free (L_proc p) w2) :
  sleep resume chan lk (acq lk w) =
  Ok ((), acq lk (updc (tab_alter (set_chan None) p (compc w2))
                       (set_hart (thread_hart (cur w) (cur w2)) w2))).
Proof. by apply sleep_run. Qed.

(** count_unused_proc, despite its name, counts the processes that are in
    use. *)
Theorem count_unused_proc_correct w
  (Hc : cpu_ok w) (Hu : procs_unlocked w) (Hn : length (procs (compc w)) = nproc) :
  count_unused_proc w =
  Ok (Z.of_nat (length (filter (fun p => p_state p <> UNUSED) (procs (compc w)))), touch w).
Proof. by apply count_unused_proc_run. Qed.

End Props.

(** A machine whose hart 0 runs process 3; process 5, pid 9, sleeps on &ticks. *)
Definition run_world {S} (p : nat) (d : S) : world S :=
  let w := boot_world d in
  set_hart (Hart (sstatus (cur w)) (Cpu (Some p) 0 0)) w.
Definition tab_example : proctab :=
  Proctab (<[5%nat := Proc SLEEPING None (Some Ch_ticks) 0 0 9 0 0 0 0 0 0 [] None [] 0]>
          (<[3%nat := Proc RUNNING None None 0 0 7 0 0 0 0 0 0 [] None [] 0]> (repeat proc0 64)))
    (Some 0%nat) 10.
Definition proc_world : world proctab := run_world 3 tab_example.

Lemma proc_world_cpu : cpu_ok proc_world.
Proof. split; vm_compute; congruence. Qed.
Lemma proc_world_unlocked : procs_unlocked proc_world.
Proof.
  intros i Hi. exists "". unfold nproc in Hi. change (Z.to_nat NPROC) with 64%nat in Hi.
  do 64 (destruct i as [|i]; [by vm_compute|]). lia.
Qed.

Lemma proc_world_len : length (procs (compc proc_world)) = nproc.
Proof. by vm_compute. Qed.

Lemma wakeup_correct_witness :
  exists w', wakeup Ch_ticks proc_world = Ok ((), w') /\
    p_state (procs (compc w') !!! 5%nat) = RUNNABLE.
Proof.
  destruct (wakeup_correct (S := proctab) Ch_ticks proc_world proc_world_cpu proc_world_unlocked proc_world_len)
    as (w' & E & _ & _ & H).
  exists w'. split; [exact E|].
  rewrite (list_lookup_total_correct _ _ _ (H 5%nat _ eq_refl)). reflexivity.
Defined.

Lemma kill_correct_witness : exists w', kill 9 proc_world = Ok (0, w').
Proof.
  destruct (kill_correct (S := proctab) 9 proc_world proc_world_cpu proc_world_unlocked proc_world_len)
    as [[H _]|(i & p & w' & _ & _ & _ & E & _)].
  - exfalso. apply (H (procs tab_example !!! 5%nat)); [|reflexivity].
    apply (list_elem_of_lookup_2 _ 5%nat). reflexivity.
  - exists w'. exact E.
Defined.

Lemma count_unused_proc_correct_witness :
  count_unused_proc proc_world = Ok (2, touch proc_world).
Proof.
  rewrite (count_unused_proc_correct (S := proctab) proc_world proc_world_cpu proc_world_unlocked proc_world_len).
  reflexivity.
Defined.

(** The scheduler switches straight back to process 3. *)
Lemma sleep_correct_witness :
  exists w', sleep (upd_proc (set_state RUNNING) 3) Ch_ticks L_ticks (acq L_ticks proc_world) =
    Ok ((), acq L_ticks w').
Proof.
  eexists. eapply (sleep_correct (S := proctab) _ Ch_ticks L_ticks 3 proc_world);
    [exact proc_world_cpu|reflexivity|reflexivity|discriminate|..].
  - exists "". by vm_compute.
  - apply proc_world_unlocked. unfold nproc, NPROC. lia.
  - unfold proc_world. cbn. lia.
  - rewrite upd_proc_run, updc_acq, updc_updc. reflexivity.
  - reflexivity.
  - exists "". by vm_compute.
  - exists "". by vm_compute.
Defined.
