(* ===== verification/SleepWake.v ===== *)
(** * sleep and wakeup of kernel/proc.c on many threads

    Any number of threads that wait for a condition with sleep and signal it with
    wakeup, at the granularity of their lock operations: no wakeup is lost. *)
From S2P Require Import Prelude Riscv Proc.
From stdpp Require Import prelude.
From Stdlib Require Import ZArith Lia.

(** ** Many threads: sleep and wakeup at the granularity of lock operations *)
Module SleepWake.

(** Where a thread is.  Thread [i] runs process [i]; a condition is
    protected by a spin lock lk, waited for with
    [while(!cond) sleep(chan, &lk)] and signalled by setting it and calling
    [wakeup(chan)] under lk. *)
Inductive pc :=
| Idle
| Have                 (* holds lk *)
| SAcqP                (* sleep: about to acquire p->lock, holds lk *)
| SRelLk               (* sleep: holds both, about to release lk *)
| SSet                 (* sleep: holds p->lock, about to set chan and state *)
| SSched               (* sleep: in sched, p->lock still held *)
| SAsleep              (* switched away; the scheduler released p->lock *)
| SResumed             (* the scheduler switched back, p->lock held *)
| SReacq               (* sleep: about to reacquire lk *)
| WScan (j : nat)      (* wakeup: about to acquire proc[j].lock, holds lk *)
| WHold (j : nat)      (* wakeup: holds proc[j].lock and lk *)
| Unlock.              (* about to release lk *)

Record st := St {
  lko : option nat;              (* who holds lk *)
  cond : bool;
  plk : nat -> option nat;       (* who holds proc[i].lock *)
  pst : nat -> procstate;        (* proc[i].state *)
  pch : nat -> bool;             (* proc[i].chan = chan *)
  pcs : nat -> pc;
}.

Definition upd {A} (f : nat -> A) (i : nat) (a : A) : nat -> A :=
  fun j => if decide (j = i) then a else f j.

Inductive sw_step : st -> st -> Prop :=
| lock_lk t c plk pst pch pcs : pcs t = Idle ->
    sw_step (St None c plk pst pch pcs) (St (Some t) c plk pst pch (upd pcs t Have))
| must_sleep t o plk pst pch pcs : pcs t = Have ->
    sw_step (St o false plk pst pch pcs) (St o false plk pst pch (upd pcs t SAcqP))
| consume t o c' plk pst pch pcs : pcs t = Have ->
    sw_step (St o true plk pst pch pcs) (St o c' plk pst pch (upd pcs t Unlock))
| signal t o c plk pst pch pcs : pcs t = Have ->
    sw_step (St o c plk pst pch pcs) (St o true plk pst pch (upd pcs t (WScan 0)))
| acq_p t o c plk pst pch pcs : pcs t = SAcqP -> plk t = None ->
    sw_step (St o c plk pst pch pcs) (St o c (upd plk t (Some t)) pst pch (upd pcs t SRelLk))
| rel_lk t o c plk pst pch pcs : pcs t = SRelLk ->
    sw_step (St o c plk pst pch pcs) (St None c plk pst pch (upd pcs t SSet))
| set_sleeping t o c plk pst pch pcs : pcs t = SSet ->
    sw_step (St o c plk pst pch pcs)
         (St o c plk (upd pst t SLEEPING) (upd pch t true) (upd pcs t SSched))
| switch_away t o c plk pst pch pcs : pcs t = SSched ->
    sw_step (St o c plk pst pch pcs) (St o c (upd plk t None) pst pch (upd pcs t SAsleep))
| switch_back t o c plk pst pch pcs : pcs t = SAsleep -> plk t = None -> pst t = RUNNABLE ->
    sw_step (St o c plk pst pch pcs)
         (St o c (upd plk t (Some t)) (upd pst t RUNNING) pch (upd pcs t SResumed))
| tidy_up t o c plk pst pch pcs : pcs t = SResumed ->
    sw_step (St o c plk pst pch pcs)
         (St o c (upd plk t None) pst (upd pch t false) (upd pcs t SReacq))
| reacquire t c plk pst pch pcs : pcs t = SReacq ->
    sw_step (St None c plk pst pch pcs) (St (Some t) c plk pst pch (upd pcs t Have))
| scan_acq t j o c plk pst pch pcs : pcs t = WScan j -> (j < nproc)%nat -> plk j = None ->
    sw_step (St o c plk pst pch pcs) (St o c (upd plk j (Some t)) pst pch (upd pcs t (WHold j)))
| scan_wake t j o c plk pst pch pcs : pcs t = WHold j -> pst j = SLEEPING -> pch j = true ->
    sw_step (St o c plk pst pch pcs)
         (St o c (upd plk j None) (upd pst j RUNNABLE) pch (upd pcs t (WScan (S j))))
| scan_skip t j o c plk pst pch pcs : pcs t = WHold j -> pst j <> SLEEPING \/ pch j = false ->
    sw_step (St o c plk pst pch pcs) (St o c (upd plk j None) pst pch (upd pcs t (WScan (S j))))
| scan_end t o c plk pst pch pcs : pcs t = WScan nproc ->
    sw_step (St o c plk pst pch pcs) (St o c plk pst pch (upd pcs t Unlock))
| unlock t o c plk pst pch pcs : pcs t = Unlock ->
    sw_step (St o c plk pst pch pcs) (St None c plk pst pch (upd pcs t Idle))
| killed i o c plk pst pch pcs : plk i = None -> pst i = SLEEPING ->
    sw_step (St o c plk pst pch pcs) (St o c plk (upd pst i RUNNABLE) pch pcs).

Definition init : st :=
  St None false (fun _ => None) (fun _ => RUNNING) (fun _ => false) (fun _ => Idle).

Definition holds_lk (p : pc) : bool :=
  match p with Have | SAcqP | SRelLk | WScan _ | WHold _ | Unlock => true | _ => false end.
Definition holds_own (p : pc) : bool :=
  match p with SRelLk | SSet | SSched | SResumed => true | _ => false end.
(** In sleep, past the test of the condition, lk not yet released. *)
Definition pre_sleep (p : pc) : bool :=
  match p with SAcqP | SRelLk => true | _ => false end.
Definition risky (p : pc) : bool :=
  match p with SSet | SSched => true | _ => false end.

(** The condition does not hold, or a wakeup under way has still to look at
    process [i]. *)
Definition covered (s : st) (i : nat) : Prop :=
  cond s = false \/
  exists t j, lko s = Some t /\ (pcs s t = WScan j \/ pcs s t = WHold j) /\ (j <= i)%nat.

Record inv (s : st) : Prop := {
  i_lk : forall t, holds_lk (pcs s t) -> lko s = Some t;
  i_own : forall t, holds_own (pcs s t) -> plk s t = Some t;
  i_hold : forall t j, pcs s t = WHold j -> plk s j = Some t;
  i_pre : forall t, pre_sleep (pcs s t) -> cond s = false;
  i_state : forall i, pst s i = SLEEPING -> pcs s i = SSched \/ pcs s i = SAsleep;
  i_chan : forall i, pst s i = SLEEPING -> pch s i = true;
  i_risk : forall i, (i < nproc)%nat -> risky (pcs s i) \/ pst s i = SLEEPING -> covered s i;
}.

Lemma upd_eq {A} (f : nat -> A) i a : upd f i a i = a.
Proof. unfold upd. by rewrite decide_True. Qed.
Lemma upd_ne {A} (f : nat -> A) i j a : j <> i -> upd f i a j = f j.
Proof. intros. unfold upd. by rewrite decide_False. Qed.

Lemma sw_init_inv : inv init.
Proof. split; cbn; naive_solver. Qed.

Lemma i_pre_lk s t : inv s -> pre_sleep (pcs s t) -> lko s = Some t.
Proof. intros Hi H. apply (i_lk _ Hi). by destruct (pcs s t). Qed.

(** All that the invariant says about thread (and process) [t]. *)
Ltac facts Hi t :=
  let H := fresh "F" in pose proof (i_lk _ Hi t) as H;
  let H := fresh "F" in pose proof (i_own _ Hi t) as H;
  let H := fresh "F" in pose proof (i_hold _ Hi t) as H;
  let H := fresh "F" in pose proof (i_pre _ Hi t) as H;
  let H := fresh "F" in pose proof (i_pre_lk _ t Hi) as H;
  let H := fresh "F" in pose proof (i_state _ Hi t) as H;
  let H := fresh "F" in pose proof (i_chan _ Hi t) as H.

(** Name the parts of a step: the thread, its pc and the side conditions. *)
Ltac dstep Hst :=
  destruct Hst as
    [t c plk pst pch pcs Hp|t o plk pst pch pcs Hp|t o c' plk pst pch pcs Hp
    |t o c plk pst pch pcs Hp|t o c plk pst pch pcs Hp Hf|t o c plk pst pch pcs Hp
    |t o c plk pst pch pcs Hp|t o c plk pst pch pcs Hp|t o c plk pst pch pcs Hp Hf Hr
    |t o c plk pst pch pcs Hp|t c plk pst pch pcs Hp|t j o c plk pst pch pcs Hp Hj Hf
    |t j o c plk pst pch pcs Hp Hs Hc|t j o c plk pst pch pcs Hp Hs|t o c plk pst pch pcs Hp
    |t o c plk pst pch pcs Hp|t o c plk pst pch pcs Hf Hs].

(** A clause about one thread [t'], after a step of thread [t]. *)
Ltac clause Hi t t' :=
  facts Hi t; facts Hi t'; cbn in *; unfold upd; repeat case_decide; subst;
  repeat match goal with
  | Hp : ?pcs ?t = ?p, H : context [?pcs ?t] |- _ =>
      lazymatch H with Hp => fail | _ => rewrite Hp in H; cbn in H end
  end; first [done|naive_solver].

Lemma step_lk s s' : sw_step s s' -> inv s -> forall t, holds_lk (pcs s' t) -> lko s' = Some t.
Proof. intros Hst Hi t'. dstep Hst; clause Hi t t'. Qed.
Lemma step_own s s' : sw_step s s' -> inv s -> forall t, holds_own (pcs s' t) -> plk s' t = Some t.
Proof. intros Hst Hi t'. dstep Hst; clause Hi t t'. Qed.
Lemma step_hold s s' : sw_step s s' -> inv s -> forall t j, pcs s' t = WHold j -> plk s' j = Some t.
Proof. intros Hst Hi t' j'. dstep Hst; clause Hi t t'. Qed.
Lemma step_pre s s' : sw_step s s' -> inv s -> forall t, pre_sleep (pcs s' t) -> cond s' = false.
Proof. intros Hst Hi t'. dstep Hst; clause Hi t t'. Qed.
Lemma step_state s s' : sw_step s s' -> inv s ->
  forall i, pst s' i = SLEEPING -> pcs s' i = SSched \/ pcs s' i = SAsleep.
Proof. intros Hst Hi t'. dstep Hst; clause Hi t t'. Qed.
Lemma step_chan s s' : sw_step s s' -> inv s -> forall i, pst s' i = SLEEPING -> pch s' i = true.
Proof. intros Hst Hi t'. dstep Hst; clause Hi t t'. Qed.

(** The wakeup that covers [i] is a thread other than the one that moves. *)
Lemma covered_other s i t : covered s i ->
  (forall j, pcs s t <> WScan j) -> (forall j, pcs s t <> WHold j) ->
  cond s = false \/ exists t' j, t' <> t /\ lko s = Some t' /\
    (pcs s t' = WScan j \/ pcs s t' = WHold j) /\ (j <= i)%nat.
Proof.
  intros [Hc|(t' & j & Hl & Hp & Hj)] H1 H2; [by left|right].
  exists t', j. split; [|done]. intros ->. destruct Hp; naive_solver.
Qed.

Lemma scan_next s i t j : lko s = Some t -> (j <= i)%nat -> (j <> i)%nat ->
  pcs s t = WScan (S j) -> covered s i.
Proof. intros Hl Hj Hne Hp. right. exists t, (S j). split_and!; [done|by left|lia]. Qed.

(** The process a wakeup has locked is not on its way to sleep. *)
Lemma hold_not_risky s t j p : inv s -> pcs s t = WHold j -> risky p = false ->
  ~ risky (upd (pcs s) t p j).
Proof.
  intros Hi Hp Hf Hr. unfold upd in Hr. case_decide; [subst; by rewrite Hf in Hr|].
  pose proof (i_hold _ Hi _ _ Hp). pose proof (i_own _ Hi j) as Ho.
  assert (holds_own (pcs s j)) by (by destruct (pcs s j)). rewrite Ho in H0 by done. congruence.
Qed.

Lemma step_covered s s' i : sw_step s s' -> inv s -> (i < nproc)%nat ->
  risky (pcs s' i) \/ pst s' i = SLEEPING -> covered s i -> covered s' i.
Proof.
  intros Hst Hi Hn Hrk Hcv.
  dstep Hst; [..|exact Hcv];
    try (pose proof (i_lk _ Hi t) as El; cbn in El; rewrite Hp in El; specialize (El I)).
  4: { right. exists t, 0%nat. cbn. rewrite upd_eq. split_and!; [done|by left|lia]. }
  1-10, 15: destruct (covered_other _ _ t Hcv) as [E|(t' & j' & Hne & Hl & Hp' & Hj')];
    cbn in *; try congruence; try (by left);
    right; exists t', j'; cbn; rewrite upd_ne by done; done.
  all: destruct Hcv as [E|(t' & j' & Hl & Hp' & Hj')]; [by left|]; cbn in *;
    assert (t' = t) as -> by congruence.
  1-3: assert (j' = j) as -> by (destruct Hp'; congruence).
  - right. exists t, j. cbn. rewrite upd_eq. split_and!; [done|by right|done].
  - apply (scan_next _ _ t j); cbn; [done..| |by rewrite upd_eq].
    intros ->. destruct Hrk as [Hrk|Hrk]; [|by rewrite upd_eq in Hrk].
    by eapply (hold_not_risky _ t i (WScan (S i)) Hi).
  - apply (scan_next _ _ t j); cbn; [done..| |by rewrite upd_eq].
    intros ->. destruct Hrk as [Hrk|Hrk]; [by eapply (hold_not_risky _ t i (WScan (S i)) Hi)|].
    pose proof (i_chan _ Hi i Hrk). cbn in *. destruct Hs; congruence.
  - exfalso. destruct Hp' as [Hp'|Hp']; rewrite Hp in Hp'; [injection Hp' as <-; lia|done].
Qed.

Lemma step_risk s s' : sw_step s s' -> inv s -> forall i, (i < nproc)%nat ->
  risky (pcs s' i) \/ pst s' i = SLEEPING -> covered s' i.
Proof.
  intros Hst Hi i Hn Hrk.
  assert (risky (pcs s i) \/ pst s i = SLEEPING \/ pcs s i = SRelLk /\ pcs s' i = SSet) as [H|[H|[H _]]].
  { dstep Hst; cbn in *; unfold upd in *; repeat case_decide; subst;
      first [done|naive_solver|rewrite Hp; naive_solver]. }
  1-2: eapply step_covered; [done..|apply (i_risk _ Hi); eauto].
  pose proof (i_pre _ Hi i) as Hcf. rewrite H in Hcf. specialize (Hcf I). left.
  pose proof (i_lk _ Hi i) as Hl. rewrite H in Hl. specialize (Hl I).
  dstep Hst; cbn in *; try done; try congruence.
  pose proof (i_lk _ Hi t) as Hl'. cbn in Hl'. rewrite Hp in Hl'. specialize (Hl' I). congruence.
Qed.

Lemma sw_step_inv s s' : sw_step s s' -> inv s -> inv s'.
Proof.
  intros Hst Hi. split; eauto using step_lk, step_own, step_hold, step_pre, step_state, step_chan,
    step_risk.
Qed.

Lemma sw_reach_inv s : rtc sw_step init s -> inv s.
Proof. intros H. pose proof sw_init_inv as Hi. induction H; eauto using sw_step_inv. Qed.

(** C4: No wakeup is lost: in every interleaving of any number of threads that wait
    for a condition with sleep and signal it with wakeup, a process that sleeps
    while the condition holds is still to be looked at by a wakeup that is under
    way; when the lock is free, no process sleeps while the condition holds. *)
Theorem no_lost_wakeup s i
  (Hr : rtc sw_step init s) (Hi : (i < nproc)%nat) (Hs : pst s i = SLEEPING) (Hc : cond s = true) :
  exists t j, lko s = Some t /\ (pcs s t = WScan j \/ pcs s t = WHold j) /\ (j <= i)%nat.
Proof.
  pose proof (sw_reach_inv s Hr) as Hinv.
  destruct (i_risk _ Hinv i Hi (or_intror Hs)) as [E|E]; [congruence|done].
Qed.

(** The run in which process 1 goes to sleep and process 2 signals. *)
Lemma no_lost_wakeup_witness :
  exists s, rtc sw_step init s /\ pst s 1%nat = SLEEPING /\ cond s = true /\
    exists t j, lko s = Some t /\ (pcs s t = WScan j \/ pcs s t = WHold j) /\ (j <= 1)%nat.
Proof.
  assert (exists s, rtc sw_step init s /\ pst s 1%nat = SLEEPING /\ cond s = true) as (s & Hr & Hs & Hc).
  { eexists. split.
    - eapply rtc_l; [apply (lock_lk 1); reflexivity|].
      eapply rtc_l; [apply (must_sleep 1); reflexivity|].
      eapply rtc_l; [apply (acq_p 1); reflexivity|].
      eapply rtc_l; [apply (rel_lk 1); reflexivity|].
      eapply rtc_l; [apply (set_sleeping 1); reflexivity|].
      eapply rtc_l; [apply (lock_lk 2); reflexivity|].
      eapply rtc_l; [apply (signal 2); reflexivity|]. apply rtc_refl.
    - split; reflexivity. }
  exists s. split; [exact Hr|]. split; [exact Hs|]. split; [exact Hc|].
  apply (no_lost_wakeup s 1 Hr); [unfold nproc, NPROC; lia|exact Hs|exact Hc].
Defined.
End SleepWake.
