(* ===== verification/Bytes.v ===== *)
(** * Byte lists: little-endian fields of disk blocks and structs

    A disk block, or a struct copied byte by byte, is the list of its bytes.
    [get_le k off b] and [put_le k off v b] read and write the [k]-byte
    little-endian field at [off]; [splice] overwrites a range. *)
From S2P Require Import Prelude.
From stdpp Require Import prelude.
From Stdlib Require Import ZArith Lia.
Open Scope Z_scope.

(** The [k] low bytes of [v], least significant first, and back. *)
Fixpoint bytes_of (k : nat) (v : Z) : list Z :=
  match k with
  | O => []
  | S k' => v mod 256 :: bytes_of k' (v / 256)
  end.
Fixpoint of_bytes (l : list Z) : Z :=
  match l with
  | [] => 0
  | x :: l' => x + 256 * of_bytes l'
  end.

Definition byte (x : Z) : Prop := 0 <= x < 256.

Definition splice (off : nat) (xs b : list Z) : list Z :=
  take off b ++ xs ++ drop (off + length xs) b.
Definition slice (off n : nat) (b : list Z) : list Z := take n (drop off b).

Definition get_le (k off : nat) (b : list Z) : Z := of_bytes (slice off k b).
Definition put_le (k off : nat) (v : Z) (b : list Z) : list Z := splice off (bytes_of k v) b.

Lemma length_bytes_of k v : length (bytes_of k v) = k.
Proof. revert v. induction k; intros; cbn; [done|]. by f_equal. Qed.

Lemma bytes_of_byte k v : Forall byte (bytes_of k v).
Proof.
  revert v. induction k; intros v; cbn; constructor; [|done]. apply Z.mod_pos_bound. lia.
Qed.

Lemma of_bytes_of k v : 0 <= v < 256 ^ Z.of_nat k -> of_bytes (bytes_of k v) = v.
Proof.
  revert v. induction k as [|k IH]; intros v Hv; cbn [bytes_of of_bytes].
  - change (256 ^ Z.of_nat 0) with 1 in Hv. lia.
  - rewrite Nat2Z.inj_succ, Z.pow_succ_r in Hv by lia. rewrite IH.
    + pose proof (Z.div_mod v 256 ltac:(done)). lia.
    + split; [apply Z.div_pos; lia|apply Z.div_lt_upper_bound; lia].
Qed.

Lemma of_bytes_range l : Forall byte l -> 0 <= of_bytes l < 256 ^ Z.of_nat (length l).
Proof.
  induction 1 as [|x l Hx Hl IH]; cbn [of_bytes length]; [done|].
  rewrite Nat2Z.inj_succ, Z.pow_succ_r by lia. unfold byte in Hx. lia.
Qed.

Lemma bytes_of_of l : Forall byte l -> bytes_of (length l) (of_bytes l) = l.
Proof.
  induction 1 as [|x l Hx Hl IH]; cbn [of_bytes length bytes_of]; [done|]. unfold byte in Hx.
  replace ((x + 256 * of_bytes l) mod 256) with x.
  - replace ((x + 256 * of_bytes l) / 256) with (of_bytes l); [by f_equal|].
    rewrite Z.mul_comm, Z.div_add, Z.div_small by lia. lia.
  - rewrite Z.mul_comm, Z.mod_add, Z.mod_small by lia. lia.
Qed.

Lemma length_splice off xs b : (off + length xs <= length b)%nat ->
  length (splice off xs b) = length b.
Proof. intros H. unfold splice. rewrite !length_app, length_take, length_drop. lia. Qed.

Lemma length_slice off n b : (off + n <= length b)%nat -> length (slice off n b) = n.
Proof. intros H. unfold slice. rewrite length_take, length_drop. lia. Qed.

(** Reading back what was written, or something else. *)
Lemma slice_splice_eq off xs b : (off + length xs <= length b)%nat ->
  slice off (length xs) (splice off xs b) = xs.
Proof.
  intros H. unfold slice, splice.
  rewrite drop_app_ge by (rewrite length_take; lia). rewrite length_take.
  replace (off - off `min` length b)%nat with 0%nat by lia. rewrite drop_0.
  by rewrite take_app_length.
Qed.

Lemma lookup_splice off xs b i : (off + length xs <= length b)%nat ->
  splice off xs b !! i =
  if decide (off <= i < off + length xs)%nat then xs !! (i - off)%nat else b !! i.
Proof.
  intros H. unfold splice. case_decide as Hi.
  - rewrite lookup_app_r by (rewrite length_take; lia). rewrite length_take.
    rewrite lookup_app_l by lia. f_equal. lia.
  - destruct (decide (i < off)%nat).
    + rewrite lookup_app_l by (rewrite length_take; lia). by rewrite lookup_take_lt by lia.
    + rewrite lookup_app_r by (rewrite length_take; lia). rewrite length_take.
      rewrite lookup_app_r by lia. rewrite lookup_drop. f_equal. lia.
Qed.

Lemma lookup_slice off n b i : slice off n b !! i = if decide (i < n)%nat then b !! (off + i)%nat else None.
Proof.
  unfold slice. case_decide.
  - by rewrite lookup_take_lt, lookup_drop by lia.
  - by rewrite lookup_take_ge by lia.
Qed.

Lemma slice_splice_ne off n off' xs b : (off' + length xs <= length b)%nat ->
  (off + n <= off' \/ off' + length xs <= off)%nat ->
  slice off n (splice off' xs b) = slice off n b.
Proof.
  intros H Hd. apply list_eq. intros i. rewrite !lookup_slice. case_decide; [|done].
  rewrite lookup_splice by done. rewrite decide_False by lia. done.
Qed.

Lemma length_put_le k off v b : (off + k <= length b)%nat -> length (put_le k off v b) = length b.
Proof. intros H. unfold put_le. apply length_splice. rewrite length_bytes_of. lia. Qed.

Lemma get_put_eq k off v b : (off + k <= length b)%nat -> 0 <= v < 256 ^ Z.of_nat k ->
  get_le k off (put_le k off v b) = v.
Proof.
  intros H Hv. unfold get_le, put_le. rewrite <- (length_bytes_of k v) at 1.
  rewrite slice_splice_eq by (rewrite length_bytes_of; lia). by apply of_bytes_of.
Qed.

Lemma get_put_ne k off k' off' v b : (off' + k' <= length b)%nat ->
  (off + k <= off' \/ off' + k' <= off)%nat ->
  get_le k off (put_le k' off' v b) = get_le k off b.
Proof.
  intros H Hd. unfold get_le, put_le.
  rewrite slice_splice_ne by (rewrite length_bytes_of; lia). done.
Qed.

Lemma Forall_splice (P : Z -> Prop) off xs b : Forall P xs -> Forall P b -> Forall P (splice off xs b).
Proof. intros H1 H2. unfold splice. rewrite !Forall_app. split_and!; auto using Forall_take, Forall_drop. Qed.

(** Signed 32-bit fields. *)
Lemma i32_bits v : - 2 ^ 31 <= v < 2 ^ 31 -> i32 (of_bytes (bytes_of 4 v)) = v.
Proof.
  intros Hv. assert (E : bytes_of 4 v = bytes_of 4 (u32 v)).
  { unfold u32. cbn [bytes_of]. rewrite !Z.div_div by lia.
    assert (D : forall k, 0 <= k <= 24 -> v mod 2 ^ 32 / 2 ^ k mod 256 = v / 2 ^ k mod 256).
    { intros k Hk. replace (2 ^ 32) with (2 ^ k * 2 ^ (32 - k)) by (rewrite <- Z.pow_add_r by lia; f_equal; lia).
      rewrite Z.rem_mul_r by lia. rewrite Z.mul_comm, Z.div_add by lia.
      rewrite Z.div_small by (apply Z.mod_pos_bound; lia). rewrite Z.add_0_l.
      replace (2 ^ (32 - k)) with (256 * 2 ^ (24 - k)) by
        (change 256 with (2 ^ 8); rewrite <- Z.pow_add_r by lia; f_equal; lia).
      rewrite Z.rem_mul_r by lia. rewrite Z.mul_comm, Z.mod_add by lia. by rewrite Z.mod_mod. }
    pose proof (D 0 ltac:(lia)) as D0. pose proof (D 8 ltac:(lia)) as D1.
    pose proof (D 16 ltac:(lia)) as D2. pose proof (D 24 ltac:(lia)) as D3.
    change (2 ^ 0) with 1 in D0. rewrite !Z.div_1_r in D0.
    change (2 ^ 8) with 256 in D1. change (2 ^ 16) with (256 * 256) in D2.
    change (2 ^ 24) with (256 * 256 * 256) in D3. rewrite D0, D1, D2, D3. done. }
  rewrite E, of_bytes_of by (apply u32_range). unfold i32, u32.
  destruct (Z_lt_le_dec v 0).
  - rewrite <- (Z.mod_unique v (2 ^ 32) (-1) (v + 2 ^ 32)) by lia.
    rewrite <- (Z.mod_unique (v + 2 ^ 32 + 2 ^ 31) (2 ^ 32) 1 (v + 2 ^ 31)) by lia. lia.
  - rewrite (Z.mod_small v) by lia. rewrite Z.mod_small by lia. lia.
Qed.

Lemma get_put_le_int off v x : (off + 4 <= length x)%nat -> - 2 ^ 31 <= v < 2 ^ 31 ->
  i32 (get_le 4 off (put_le 4 off v x)) = v.
Proof.
  intros Hl Hv. unfold get_le, put_le. rewrite <- (length_bytes_of 4 v) at 1.
  rewrite slice_splice_eq by (rewrite length_bytes_of; lia). by apply i32_bits.
Qed.
