(* ===== verification/State.v ===== *)
(** * The data structures of the kernel

    The structs of sleeplock.h, buf.h, fs.h, file.h, log.c, pipe.c, console.c and
    uart.c, and the record [kstate] of all global data that the kernel routines
    share.  Pointers into the global arrays [bcache.buf], [icache.inode],
    [ftable.file] and [proc] are indices; a pipe is named by the address of its
    page.  The spin locks are in the [world] around the data, and the sleep locks
    in a table of their own, under the name of the spin lock inside them. *)
From S2P Require Import Prelude Memory Spinlock Riscv Kalloc Proc Bytes.
From stdpp Require Import prelude gmap strings.
From Stdlib Require Import ZArith Lia.
Open Scope Z_scope.

(** ** fs.h *)

Definition ROOTINO : Z := 1.
Definition BSIZE : Z := 1024.
Definition FSMAGIC : Z := 0x10203040.
Definition NDIRECT : Z := 12.
Definition NINDIRECT : Z := BSIZE / 4.
Definition MAXFILE : Z := NDIRECT + NINDIRECT.
Definition DIRSIZ : Z := 14.

(** [sizeof(struct dinode)], [sizeof(struct dirent)]: no padding. *)
Definition sizeof_dinode : Z := 64.
Definition sizeof_dirent : Z := 16.
Definition IPB : Z := BSIZE / sizeof_dinode.
Definition BPB : Z := BSIZE * 8.

Record superblock := Superblock {
  sb_magic : Z; sb_size : Z; sb_nblocks : Z; sb_ninodes : Z; sb_nlog : Z;
  sb_logstart : Z; sb_inodestart : Z; sb_bmapstart : Z;
}.
Definition IBLOCK (i : Z) (sb : superblock) : Z := i / IPB + sb_inodestart sb.
Definition BBLOCK (b : Z) (sb : superblock) : Z := b / BPB + sb_bmapstart sb.

Record dinode := Dinode {
  d_type : Z; d_major : Z; d_minor : Z; d_nlink : Z; d_size : Z; d_addrs : list Z;
}.
Record dirent := Dirent { de_inum : Z; de_name : list Z }.

(** A disk block. *)
Abbreviation blk := (list Z).
Definition zero_block : blk := repeat 0 (Z.to_nat BSIZE).
#[global] Opaque zero_block.

(** ** sleeplock.h; the spin lock [lk] is the key of the table *)
Record sleeplock := Sleeplock { sl_locked : Z; sl_name : string; sl_pid : Z }.
#[export] Instance sleeplock_inhabited : Inhabited sleeplock := populate (Sleeplock 0 "" 0).
Abbreviation sltab := (gmap lock sleeplock).

(** ** buf.h and bio.c; index [NBUF] is [bcache.head] *)
Record buf := Buf {
  b_valid : Z; b_disk : Z; b_dev : Z; b_blockno : Z; b_refcnt : Z;
  b_prev : nat; b_next : nat; b_data : blk;
}.
Definition buf0 : buf := Buf 0 0 0 0 0 0 0 zero_block.
#[export] Instance buf_inhabited : Inhabited buf := populate buf0.
Record bcache := Bcache { bufs : list buf }.

(** The disk: its blocks and, newest first, the writes it has completed. *)
Record disk := Disk { d_blocks : gmap Z blk; d_trace : list (Z * blk) }.

(** ** log.c *)
Record logheader := Logheader { lh_n : Z; lh_block : list Z }.
Record log := Log {
  log_start : Z; log_size : Z; log_outstanding : Z; log_committing : Z; log_dev : Z;
  log_lh : logheader;
}.
Definition log0 : log := Log 0 0 0 0 0 (Logheader 0 (repeat 0 (Z.to_nat LOGSIZE))).
Definition sb0 : superblock := Superblock 0 0 0 0 0 0 0 0.

(** ** file.h *)
Record inode := Inode {
  i_dev : Z; i_inum : Z; i_ref : Z; i_valid : Z;
  i_type : Z; i_major : Z; i_minor : Z; i_nlink : Z; i_size : Z; i_addrs : list Z;
}.
Definition inode0 : inode := Inode 0 0 0 0 0 0 0 0 0 (repeat 0 13).
#[export] Instance inode_inhabited : Inhabited inode := populate inode0.
Record icache := Icache { inodes : list inode }.

Inductive fdtype := FD_NONE | FD_PIPE | FD_INODE | FD_DEVICE.
#[export] Instance fdtype_eq_dec : EqDecision fdtype.
Proof. solve_decision. Defined.

Record file := File {
  f_type : fdtype; f_ref : Z; f_readable : Z; f_writable : Z;
  f_pipe : Z; f_ip : option nat; f_off : Z; f_major : Z;
}.
Definition file0 : file := File FD_NONE 0 0 0 0 None 0 0.
#[export] Instance file_inhabited : Inhabited file := populate file0.
Record ftable := Ftable { files : list file }.

Definition T_DIR : Z := 1.
Definition T_FILE : Z := 2.
Definition T_DEVICE : Z := 3.
Definition CONSOLE : Z := 1.

(** ** pipe.c, console.c, uart.c, trap.c *)
Definition PIPESIZE : Z := 512.
Record pipe := Pipe {
  pi_data : list Z; pi_nread : Z; pi_nwrite : Z; pi_readopen : Z; pi_writeopen : Z;
}.
#[export] Instance pipe_inhabited : Inhabited pipe := populate (Pipe (repeat 0 512) 0 0 0 0).
Record pipes := Pipes { pipe_at : gmap Z pipe }.

Definition INPUT_BUF : Z := 128.
Record cons := Cons { c_buf : list Z; c_r : Z; c_w : Z; c_e : Z }.
Definition cons0 : cons := Cons (repeat 0 128) 0 0 0.

Definition UART_TX_BUF_SIZE : Z := 32.
(** [u_wr]: the writes to the device's registers, (register, value), newest
    first. *)
Record uart := Uart { u_buf : list Z; u_w : Z; u_r : Z; u_wr : list (Z * Z) }.
Definition uart0 : uart := Uart (repeat 0 32) 0 0 [].

Record tick := Tick { ticks : Z }.

(** [pr.locking] of printf.c. *)
Record prstate := Prstate { pr_locking : Z }.
(** The control registers of the running hart that trap.c uses. *)
Record csrs := Csrs { c_scause : Z; c_sepc : Z; c_stval : Z; c_stvec : Z; c_sip : Z; c_satp : Z }.
Definition csrs0 : csrs := Csrs 0 0 0 0 0 0.

(** ** virtio.h and virtio_disk.c *)

Definition NUM : Z := 8.
(** What the address in a descriptor points to: the request header on the
    stack (with its type and sector), the data of a buffer, or a status byte. *)
Inductive daddr := DA_null | DA_header (type sector : Z) | DA_data (b : nat) | DA_status (i : nat).
Record VRingDesc := Vringdesc { vr_addr : daddr; vr_len : Z; vr_flags : Z; vr_next : Z }.
Definition desc0 : VRingDesc := Vringdesc DA_null 0 0 0.
#[export] Instance desc_inhabited : Inhabited VRingDesc := populate desc0.
(** [info[i]]: the buffer and the status byte. *)
Record vinfo := Vinfo { vi_b : option nat; vi_status : Z }.
#[export] Instance vinfo_inhabited : Inhabited vinfo := populate (Vinfo None 0).
(** [avail] is [avail[2..]] and [avail_idx] is [avail[1]]; [used_id] and [used]
    are written by the device; [mmio] are the writes to its registers, newest
    first. *)
Record vdisk := Vdisk {
  vd_desc : list VRingDesc; vd_avail_idx : Z; vd_avail : list Z; vd_used_id : Z; vd_used : list Z;
  vd_free : list Z; vd_used_idx : Z; vd_info : list vinfo; vd_mmio : list (Z * Z);
}.
Definition vdisk0 : vdisk :=
  Vdisk (repeat desc0 8) 0 (repeat 0 8) 0 (repeat 0 8) (repeat 0 8) 0 (repeat (Vinfo None 0) 8) [].

(** ** plic.c: the writes to the interrupt controller, (address, value), newest
    first *)
Record plic := Plic { plic_wr : list (Z * Z) }.
(** [first] of forkret (proc.c) and [started] of main.c. *)
Record boot := Boot { fk_first : Z; started : Z }.

(** ** All global data *)
Record kstate := KState {
  ks_pmem : pmem;
  ks_tab : proctab;
  ks_sl : sltab;
  ks_bc : bcache;
  ks_disk : disk;
  ks_log : log;
  ks_sb : superblock;
  ks_ic : icache;
  ks_ft : ftable;
  ks_pipes : pipes;
  ks_cons : cons;
  ks_uart : uart;
  ks_ticks : tick;
  ks_pr : prstate;
  ks_csr : csrs;
  ks_vd : vdisk;
  ks_plic : plic;
  ks_boot : boot;
}.

(** The state as the loader leaves it. *)
Definition kstate0 : kstate :=
  KState (Pmem ∅ 0)
    (Proctab (repeat proc0 64) None 1)
    ∅
    (Bcache (repeat buf0 31))
    (Disk ∅ [])
    log0
    sb0
    (Icache (repeat inode0 50))
    (Ftable (repeat file0 100))
    (Pipes ∅)
    cons0
    uart0
    (Tick 0)
    (Prstate 0)
    csrs0
    vdisk0
    (Plic [])
    (Boot 1 0).

Definition set_pmem (t : pmem) (s : kstate) : kstate :=
  KState t (ks_tab s) (ks_sl s) (ks_bc s) (ks_disk s) (ks_log s) (ks_sb s) (ks_ic s) (ks_ft s)
    (ks_pipes s) (ks_cons s) (ks_uart s) (ks_ticks s) (ks_pr s) (ks_csr s) (ks_vd s) (ks_plic s)
    (ks_boot s).
Definition set_tab (t : proctab) (s : kstate) : kstate :=
  KState (ks_pmem s) t (ks_sl s) (ks_bc s) (ks_disk s) (ks_log s) (ks_sb s) (ks_ic s) (ks_ft s)
    (ks_pipes s) (ks_cons s) (ks_uart s) (ks_ticks s) (ks_pr s) (ks_csr s) (ks_vd s) (ks_plic s)
    (ks_boot s).
Definition set_sl (t : sltab) (s : kstate) : kstate :=
  KState (ks_pmem s) (ks_tab s) t (ks_bc s) (ks_disk s) (ks_log s) (ks_sb s) (ks_ic s) (ks_ft s)
    (ks_pipes s) (ks_cons s) (ks_uart s) (ks_ticks s) (ks_pr s) (ks_csr s) (ks_vd s) (ks_plic s)
    (ks_boot s).
Definition set_bc (t : bcache) (s : kstate) : kstate :=
  KState (ks_pmem s) (ks_tab s) (ks_sl s) t (ks_disk s) (ks_log s) (ks_sb s) (ks_ic s) (ks_ft s)
    (ks_pipes s) (ks_cons s) (ks_uart s) (ks_ticks s) (ks_pr s) (ks_csr s) (ks_vd s) (ks_plic s)
    (ks_boot s).
Definition set_disk (t : disk) (s : kstate) : kstate :=
  KState (ks_pmem s) (ks_tab s) (ks_sl s) (ks_bc s) t (ks_log s) (ks_sb s) (ks_ic s) (ks_ft s)
    (ks_pipes s) (ks_cons s) (ks_uart s) (ks_ticks s) (ks_pr s) (ks_csr s) (ks_vd s) (ks_plic s)
    (ks_boot s).
Definition set_log (t : log) (s : kstate) : kstate :=
  KState (ks_pmem s) (ks_tab s) (ks_sl s) (ks_bc s) (ks_disk s) t (ks_sb s) (ks_ic s) (ks_ft s)
    (ks_pipes s) (ks_cons s) (ks_uart s) (ks_ticks s) (ks_pr s) (ks_csr s) (ks_vd s) (ks_plic s)
    (ks_boot s).
Definition set_sb (t : superblock) (s : kstate) : kstate :=
  KState (ks_pmem s) (ks_tab s) (ks_sl s) (ks_bc s) (ks_disk s) (ks_log s) t (ks_ic s) (ks_ft s)
    (ks_pipes s) (ks_cons s) (ks_uart s) (ks_ticks s) (ks_pr s) (ks_csr s) (ks_vd s) (ks_plic s)
    (ks_boot s).
Definition set_ic (t : icache) (s : kstate) : kstate :=
  KState (ks_pmem s) (ks_tab s) (ks_sl s) (ks_bc s) (ks_disk s) (ks_log s) (ks_sb s) t (ks_ft s)
    (ks_pipes s) (ks_cons s) (ks_uart s) (ks_ticks s) (ks_pr s) (ks_csr s) (ks_vd s) (ks_plic s)
    (ks_boot s).
Definition set_ft (t : ftable) (s : kstate) : kstate :=
  KState (ks_pmem s) (ks_tab s) (ks_sl s) (ks_bc s) (ks_disk s) (ks_log s) (ks_sb s) (ks_ic s) t
    (ks_pipes s) (ks_cons s) (ks_uart s) (ks_ticks s) (ks_pr s) (ks_csr s) (ks_vd s) (ks_plic s)
    (ks_boot s).
Definition set_pipes (t : pipes) (s : kstate) : kstate :=
  KState (ks_pmem s) (ks_tab s) (ks_sl s) (ks_bc s) (ks_disk s) (ks_log s) (ks_sb s) (ks_ic s)
    (ks_ft s) t (ks_cons s) (ks_uart s) (ks_ticks s) (ks_pr s) (ks_csr s) (ks_vd s) (ks_plic s)
    (ks_boot s).
Definition set_cons (t : cons) (s : kstate) : kstate :=
  KState (ks_pmem s) (ks_tab s) (ks_sl s) (ks_bc s) (ks_disk s) (ks_log s) (ks_sb s) (ks_ic s)
    (ks_ft s) (ks_pipes s) t (ks_uart s) (ks_ticks s) (ks_pr s) (ks_csr s) (ks_vd s) (ks_plic s)
    (ks_boot s).
Definition set_uart (t : uart) (s : kstate) : kstate :=
  KState (ks_pmem s) (ks_tab s) (ks_sl s) (ks_bc s) (ks_disk s) (ks_log s) (ks_sb s) (ks_ic s)
    (ks_ft s) (ks_pipes s) (ks_cons s) t (ks_ticks s) (ks_pr s) (ks_csr s) (ks_vd s) (ks_plic s)
    (ks_boot s).
Definition set_ticks (t : tick) (s : kstate) : kstate :=
  KState (ks_pmem s) (ks_tab s) (ks_sl s) (ks_bc s) (ks_disk s) (ks_log s) (ks_sb s) (ks_ic s)
    (ks_ft s) (ks_pipes s) (ks_cons s) (ks_uart s) t (ks_pr s) (ks_csr s) (ks_vd s) (ks_plic s)
    (ks_boot s).
Definition set_pr (t : prstate) (s : kstate) : kstate :=
  KState (ks_pmem s) (ks_tab s) (ks_sl s) (ks_bc s) (ks_disk s) (ks_log s) (ks_sb s) (ks_ic s)
    (ks_ft s) (ks_pipes s) (ks_cons s) (ks_uart s) (ks_ticks s) t (ks_csr s) (ks_vd s) (ks_plic
    s) (ks_boot s).
Definition set_csr (t : csrs) (s : kstate) : kstate :=
  KState (ks_pmem s) (ks_tab s) (ks_sl s) (ks_bc s) (ks_disk s) (ks_log s) (ks_sb s) (ks_ic s)
    (ks_ft s) (ks_pipes s) (ks_cons s) (ks_uart s) (ks_ticks s) (ks_pr s) t (ks_vd s) (ks_plic
    s) (ks_boot s).
Definition set_vd (t : vdisk) (s : kstate) : kstate :=
  KState (ks_pmem s) (ks_tab s) (ks_sl s) (ks_bc s) (ks_disk s) (ks_log s) (ks_sb s) (ks_ic s)
    (ks_ft s) (ks_pipes s) (ks_cons s) (ks_uart s) (ks_ticks s) (ks_pr s) (ks_csr s) t (ks_plic
    s) (ks_boot s).
Definition set_plic (t : plic) (s : kstate) : kstate :=
  KState (ks_pmem s) (ks_tab s) (ks_sl s) (ks_bc s) (ks_disk s) (ks_log s) (ks_sb s) (ks_ic s)
    (ks_ft s) (ks_pipes s) (ks_cons s) (ks_uart s) (ks_ticks s) (ks_pr s) (ks_csr s) (ks_vd s) t
    (ks_boot s).
Definition set_boot (t : boot) (s : kstate) : kstate :=
  KState (ks_pmem s) (ks_tab s) (ks_sl s) (ks_bc s) (ks_disk s) (ks_log s) (ks_sb s) (ks_ic s)
    (ks_ft s) (ks_pipes s) (ks_cons s) (ks_uart s) (ks_ticks s) (ks_pr s) (ks_csr s) (ks_vd s)
    (ks_plic s) t.

#[export] Instance Has_pmem : Has pmem kstate.
Proof. refine {| getc := ks_pmem; putc := set_pmem |}; by repeat intros []. Defined.
#[export] Instance Has_tab : Has proctab kstate.
Proof. refine {| getc := ks_tab; putc := set_tab |}; by repeat intros []. Defined.
#[export] Instance Has_sl : Has sltab kstate.
Proof. refine {| getc := ks_sl; putc := set_sl |}; by repeat intros []. Defined.
#[export] Instance Has_bc : Has bcache kstate.
Proof. refine {| getc := ks_bc; putc := set_bc |}; by repeat intros []. Defined.
#[export] Instance Has_disk : Has disk kstate.
Proof. refine {| getc := ks_disk; putc := set_disk |}; by repeat intros []. Defined.
#[export] Instance Has_log : Has log kstate.
Proof. refine {| getc := ks_log; putc := set_log |}; by repeat intros []. Defined.
#[export] Instance Has_sb : Has superblock kstate.
Proof. refine {| getc := ks_sb; putc := set_sb |}; by repeat intros []. Defined.
#[export] Instance Has_ic : Has icache kstate.
Proof. refine {| getc := ks_ic; putc := set_ic |}; by repeat intros []. Defined.
#[export] Instance Has_ft : Has ftable kstate.
Proof. refine {| getc := ks_ft; putc := set_ft |}; by repeat intros []. Defined.
#[export] Instance Has_pipes : Has pipes kstate.
Proof. refine {| getc := ks_pipes; putc := set_pipes |}; by repeat intros []. Defined.
#[export] Instance Has_cons : Has cons kstate.
Proof. refine {| getc := ks_cons; putc := set_cons |}; by repeat intros []. Defined.
#[export] Instance Has_uart : Has uart kstate.
Proof. refine {| getc := ks_uart; putc := set_uart |}; by repeat intros []. Defined.
#[export] Instance Has_ticks : Has tick kstate.
Proof. refine {| getc := ks_ticks; putc := set_ticks |}; by repeat intros []. Defined.
#[export] Instance Has_pr : Has prstate kstate.
Proof. refine {| getc := ks_pr; putc := set_pr |}; by repeat intros []. Defined.
#[export] Instance Has_csr : Has csrs kstate.
Proof. refine {| getc := ks_csr; putc := set_csr |}; by repeat intros []. Defined.
#[export] Instance Has_vd : Has vdisk kstate.
Proof. refine {| getc := ks_vd; putc := set_vd |}; by repeat intros []. Defined.
#[export] Instance Has_plic : Has plic kstate.
Proof. refine {| getc := ks_plic; putc := set_plic |}; by repeat intros []. Defined.
#[export] Instance Has_boot : Has boot kstate.
Proof. refine {| getc := ks_boot; putc := set_boot |}; by repeat intros []. Defined.

(** Different components do not overlap. *)
#[export] Hint Extern 1 (Indep _ _ kstate) =>
  (constructor; intros ? []; reflexivity) : typeclass_instances.

(** Reading one component past an update of another. *)
Ltac kother :=
  repeat first
    [ rewrite compc_updc | rewrite compc_touch | rewrite compc_acq
    | match goal with
      | |- context [compc (T := ?T1) (updc (T := ?T2) ?t ?w)] =>
          rewrite (compc_updc_ne1 (T1 := T1) (T2 := T2) t w)
      end ].
