(* ===== verification/Sleeplock.v ===== *)
(** * kernel/sleeplock.c

    Sleep locks on top of the spin lock inside them and of sleep/wakeup.  A
    routine that may sleep runs in an environment [Sched]: what the rest of the
    machine does while this thread is switched out, and how often a [while]
    loop around sleep may be woken up in vain before the model gives up. *)
From S2P Require Import Prelude Spinlock Riscv Proc State.
From stdpp Require Import prelude gmap strings.
From Stdlib Require Import ZArith Lia.
Open Scope Z_scope.

Class Sched := { resume : K kstate (); wakeups : nat }.

(** [while (cond) sleep(chan, lk);] *)
Definition sleep_while `{!Sched} (cond : K kstate bool) (chan : wchan) (lk : lock) : K kstate () :=
  loop wakeups (fun _ =>
    b ← cond;
    if b : bool then sleep resume chan lk ;; mret (inl ()) else mret (inr ())) ().

(** The channel of a sleep lock is its own address. *)
Definition sl_chan (l : lock) : wchan :=
  match l with
  | L_inode i => Ch_ilock i
  | L_buf i => Ch_buflock i
  | _ => Ch_buflock 0
  end.

Section Sleeplock.
Context {SC : Sched}.

Definition get_sl (l : lock) : K kstate sleeplock := t ← getD (T := sltab); mret (t !!! l).
Definition put_sl (l : lock) (s : sleeplock) : K kstate () :=
  t ← getD (T := sltab); putD (<[l := s]> t).

Definition mypid : K kstate Z := p ← myproc_deref; q ← get_proc p; mret (p_pid q).

Definition initsleeplock (l : lock) (name : string) : K kstate () :=
  initlock l "sleep lock" ;;
  put_sl l (Sleeplock 0 name 0).

Definition acquiresleep (l : lock) : K kstate () :=
  acquire l ;;
  sleep_while (s ← get_sl l; mret (negb (sl_locked s =? 0))) (sl_chan l) l ;;
  s ← get_sl l;
  put_sl l (Sleeplock 1 (sl_name s) (sl_pid s)) ;;
  pid ← mypid;
  s ← get_sl l;
  put_sl l (Sleeplock (sl_locked s) (sl_name s) pid) ;;
  release l.

Definition releasesleep (l : lock) : K kstate () :=
  acquire l ;;
  s ← get_sl l;
  put_sl l (Sleeplock 0 (sl_name s) 0) ;;
  wakeup (sl_chan l) ;;
  release l.

Definition holdingsleep (l : lock) : K kstate Z :=
  acquire l ;;
  s ← get_sl l;
  r ← (if negb (sl_locked s =? 0) then pid ← mypid; mret (if sl_pid s =? pid then 1 else 0)
       else mret 0);
  release l ;;
  mret r.
End Sleeplock.

(** ** What they do when nobody else runs *)

(** The running process: an entry of the table. *)
Definition runs (w : world kstate) (p : nat) : Prop :=
  c_proc (h_cpu (cur w)) = Some p /\ (p < nproc)%nat /\ length (procs (compc w)) = nproc.

(** The pid of the running process. *)
Definition cur_pid (w : world kstate) : Z :=
  match c_proc (h_cpu (cur w)) with
  | Some p => p_pid (procs (compc w) !!! p)
  | None => 0
  end.

(** The kernel is in a quiet state: interrupts nested properly, a process runs,
    and no process lock is held. *)
Record quiet (w : world kstate) : Prop := {
  q_cpu : cpu_ok w;
  q_proc : exists p, runs w p;
  q_unl : procs_unlocked w;
}.

Lemma c_proc_acq l (w : world kstate) : c_proc (h_cpu (cur (acq l w))) = c_proc (h_cpu (cur w)).
Proof.
  change (cur (acq l w)) with (cur (set_hart (off_hart (cur w)) w)). by rewrite cur_set_hart.
Qed.
Lemma c_proc_touch (w : world kstate) : c_proc (h_cpu (cur (touch w))) = c_proc (h_cpu (cur w)).
Proof. unfold touch. by rewrite cur_set_hart. Qed.

Lemma runs_acq l w p : runs w p -> runs (acq l w) p.
Proof. intros (H1 & H2 & H3). unfold runs. by rewrite c_proc_acq. Qed.
Lemma runs_touch w p : runs w p -> runs (touch w) p.
Proof. intros (H1 & H2 & H3). unfold runs. by rewrite c_proc_touch. Qed.

Lemma quiet_touch w : quiet w -> quiet (touch w).
Proof.
  intros [H1 [p H2] H3]. split; eauto with xv6. exists p. by apply runs_touch.
Qed.
Lemma quiet_acq l w : (forall i, l <> L_proc i) -> quiet w -> quiet (acq l w).
Proof.
  intros Hl [H1 [p H2] H3]. split; eauto with xv6. exists p. by apply runs_acq.
Qed.
(** Updates of anything but the process table. *)
Lemma quiet_updc {T} `{!Has T kstate} `{!Indep proctab T kstate} (t : T) w :
  quiet w -> quiet (updc t w).
Proof.
  intros [H1 [p (H2 & H3 & H4)] H5]. split; eauto with xv6. exists p.
  split_and!; [done..|]. by rewrite compc_updc_ne1.
Qed.
Lemma quiet_tab_upd (t : proctab) w : length (procs t) = nproc -> quiet w -> quiet (updc t w).
Proof.
  intros Hl [H1 [p (H2 & H3 & H4)] H5]. split; eauto with xv6. exists p.
  split_and!; [done..|]. by rewrite compc_updc.
Qed.
Lemma quiet_len w : quiet w -> length (procs (compc w)) = nproc.
Proof. intros [_ [p (_ & _ & H)] _]. done. Qed.

Lemma quiet_tab_map f (t : proctab) w : length (procs t) = nproc -> quiet w ->
  quiet (updc (tab_map f t) w).
Proof. intros Hl. apply quiet_tab_upd. cbn. by rewrite length_fmap. Qed.

#[export] Hint Resolve quiet_touch quiet_tab_map q_cpu q_unl quiet_len : xv6.
#[export] Hint Extern 3 (quiet (updc _ _)) => (apply quiet_updc) : xv6.
#[export] Hint Extern 3 (quiet (acq _ _)) => (apply quiet_acq; [first [assumption|congruence]|]) : xv6.

Lemma mypid_run w : quiet w -> mypid w = Ok (cur_pid w, touch w).
Proof.
  intros [H1 [p (H2 & H3 & H4)] H5]. unfold mypid, cur_pid.
  rewrite (bind_Ok _ _ _ _ _ (myproc_deref_run w p H1 H2)), H2. done.
Qed.

Section Spec.
Context {SC : Sched}.
Implicit Types (w : world kstate) (l : lock).

(** The spin lock inside a sleep lock. *)
Definition sl_lock (l : lock) : bool :=
  match l with L_buf _ | L_inode _ => true | _ => false end.

Lemma sl_lock_ne l i : sl_lock l -> l <> L_proc i.
Proof. by destruct l. Qed.

Lemma get_sl_run l w : get_sl l w = Ok (compc (T := sltab) w !!! l, w).
Proof. done. Qed.
Lemma put_sl_run l s w : put_sl l s w = Ok ((), updc (<[l := s]> (compc (T := sltab) w)) w).
Proof. done. Qed.

Lemma cur_pid_updc {T} `{!Has T kstate} `{!Indep proctab T kstate} (t : T) w :
  cur_pid (updc t w) = cur_pid w.
Proof. unfold cur_pid. by rewrite compc_updc_ne1. Qed.
Lemma cur_pid_acq l w : cur_pid (acq l w) = cur_pid w.
Proof. unfold cur_pid. by rewrite c_proc_acq. Qed.
Lemma cur_pid_touch w : cur_pid (touch w) = cur_pid w.
Proof. unfold cur_pid. by rewrite c_proc_touch. Qed.

(** Taking a sleep lock that is free. *)
Lemma acquiresleep_run l w : quiet w -> lock_free l w -> sl_lock l -> (0 < wakeups)%nat ->
  sl_locked (compc (T := sltab) w !!! l) = 0 ->
  acquiresleep l w =
  Ok ((), touch (updc (<[l := Sleeplock 1 (sl_name (compc (T := sltab) w !!! l)) (cur_pid w)]>
                        (compc (T := sltab) w)) w)).
Proof.
  intros Hq Hl Hsl Hw H0. unfold acquiresleep. kacquire.
  assert (E : sleep_while (s ← get_sl l; mret (negb (sl_locked s =? 0))) (sl_chan l) l (acq l w)
    = Ok ((), acq l w)).
  { unfold sleep_while. destruct wakeups; [lia|]. apply loop_exit.
    rewrite bind_assoc, (bind_Ok _ _ _ _ _ (get_sl_run _ _)). knorm. by rewrite H0. }
  rewrite (bind_Ok _ _ _ _ _ E), (bind_Ok _ _ _ _ _ (get_sl_run _ _)),
    (bind_Ok _ _ _ _ _ (put_sl_run _ _ _)). knorm.
  assert (forall i, l <> L_proc i) by (intros i; by apply sl_lock_ne).
  krun mypid_run. rewrite touch_acq by eauto with xv6.
  rewrite cur_pid_acq, cur_pid_updc.
  rewrite (bind_Ok _ _ _ _ _ (get_sl_run _ _)), (bind_Ok _ _ _ _ _ (put_sl_run _ _ _)). knorm.
  rewrite lookup_total_insert_eq. cbn [sl_name sl_locked]. rewrite insert_insert_eq.
  apply release_acq; eauto with xv6.
Qed.

Lemma releasesleep_run l w : quiet w -> lock_free l w -> sl_lock l ->
  releasesleep l w =
  Ok ((), touch (updc (tab_map (woken (sl_chan l)) (compc w))
                (updc (<[l := Sleeplock 0 (sl_name (compc (T := sltab) w !!! l)) 0]>
                         (compc (T := sltab) w)) w))).
Proof.
  intros Hq Hl Hsl. unfold releasesleep. kacquire.
  rewrite (bind_Ok _ _ _ _ _ (get_sl_run _ _)), (bind_Ok _ _ _ _ _ (put_sl_run _ _ _)). knorm.
  assert (forall i, l <> L_proc i) by (intros i; by apply sl_lock_ne).
  krun wakeup_run. rewrite touch_acq by eauto with xv6.
  rewrite compc_updc_ne1. apply release_acq; eauto with xv6.
Qed.

Lemma holdingsleep_run l w : quiet w -> lock_free l w -> sl_lock l ->
  let s := compc (T := sltab) w !!! l in
  holdingsleep l w =
  Ok (if negb (sl_locked s =? 0) && (sl_pid s =? cur_pid w) then 1 else 0, touch w).
Proof.
  intros Hq Hl Hsl s. unfold holdingsleep. kacquire.
  rewrite (bind_Ok _ _ _ _ _ (get_sl_run _ _)). knorm. fold s.
  assert (forall i, l <> L_proc i) by (intros i; by apply sl_lock_ne).
  destruct (sl_locked s =? 0); cbn [negb andb].
  - rewrite bind_mret. krelease. done.
  - rewrite bind_assoc. krun mypid_run. rewrite touch_acq by eauto with xv6. rewrite cur_pid_acq, bind_mret. krelease. done.
Qed.
End Spec.

(** A scheduler that never gets back to the thread. *)
Definition ex_sched : Sched := {| resume := blocked; wakeups := 1 |}.
