(* ===== verification/Copy.v ===== *)
(** * proc.c's either_copyout and either_copyin

    Copying between the kernel and a place that the caller chooses: a user
    address, a kernel address (a physical page), or a kernel variable, whose
    bytes are then passed as a list. *)
From stdpp Require Import prelude gmap strings.
From Stdlib Require Import ZArith Lia.
From S2P Require Import Prelude Memory CString Spinlock Riscv Kalloc Vm Uaccess Proc Bytes State.
Open Scope Z_scope.

Inductive kdst := D_user (va : Z) | D_kernel (pa : Z) | D_object.
Inductive ksrc := S_user (va : Z) | S_object (bytes : list Z).

(** [dst += m] and [src += m]. *)
Definition dst_add (d : kdst) (m : Z) : kdst :=
  match d with D_user va => D_user (u64 (va + m)) | D_kernel pa => D_kernel (pa + m) | D_object => D_object end.
Definition src_add (s : ksrc) (m : Z) : ksrc :=
  match s with S_user va => S_user (u64 (va + m)) | S_object bs => S_object (drop (Z.to_nat m) bs) end.

(** myproc() is called in both cases; its result is only used for a user address. *)
Definition either_copyout (dst : kdst) (src : list Z) : K kstate Z :=
  p ← myproc;
  match dst with
  | D_user va =>
      match p with
      | Some i => q ← get_proc i; copyout_from (p_pagetable q) va src
      | None => panic "kerneltrap"
      end
  | D_kernel pa => m ← get_mem; put_mem (wrn m pa src) ;; mret 0
  | D_object => mret 0
  end.
Definition either_copyin (src : ksrc) (len : Z) : K kstate (Z * list Z) :=
  p ← myproc;
  match src with
  | S_user va =>
      match p with
      | Some i => q ← get_proc i; copyin_to (p_pagetable q) va len
      | None => panic "kerneltrap"
      end
  | S_object bs => mret (0, take (Z.to_nat len) bs)
  end.

