(* ===== verification/Console.v ===== *)
(** * kernel/uart.c, kernel/console.c and kernel/printf.c

    The transmit ring of the UART driver, the line-editing input buffer of the
    console and the kernel's printf.  The 16550 itself is not kernel code: what its
    LSR and RHR registers answer is given by [UartDev]; writes to its registers are
    recorded in [u_wr].  panic() ends the model's run, so that [panicked] is never
    seen to be 1. *)
From stdpp Require Import prelude gmap strings.
From Stdlib Require Import ZArith Lia.
From S2P Require Import Prelude Memory CString Spinlock Riscv Kalloc Vm Uaccess Proc Bytes State Sleeplock Copy.
Open Scope Z_scope.

(** The device: reads of LSR and RHR, and how often a loop may poll it. *)
Class UartDev := { read_LSR : K kstate Z; read_RHR : K kstate Z; uart_polls : nat }.

(** Register numbers. *)
Definition RHR : Z := 0.
Definition THR : Z := 0.
Definition IER : Z := 1.
Definition IER_TX_ENABLE : Z := Z.shiftl 1 0.
Definition IER_RX_ENABLE : Z := Z.shiftl 1 1.
Definition FCR : Z := 2.
Definition FCR_FIFO_ENABLE : Z := Z.shiftl 1 0.
Definition FCR_FIFO_CLEAR : Z := Z.shiftl 3 1.
Definition LCR : Z := 3.
Definition LCR_EIGHT_BITS : Z := Z.shiftl 3 0.
Definition LCR_BAUD_LATCH : Z := Z.shiftl 1 7.
Definition LSR_RX_READY : Z := Z.shiftl 1 0.
Definition LSR_TX_IDLE : Z := Z.shiftl 1 5.

Definition get_uart : K kstate uart := getD.
Definition upd_uart (f : uart -> uart) : K kstate () := u ← get_uart; putD (f u).
Definition WriteReg (reg v : Z) : K kstate () :=
  upd_uart (fun u => Uart (u_buf u) (u_w u) (u_r u) ((reg, u8 v) :: u_wr u)).

Section Uart.
Context {SC : Sched} {UD : UartDev}.

Definition uartinit : K kstate () :=
  WriteReg IER 0 ;;
  WriteReg LCR LCR_BAUD_LATCH ;;
  WriteReg 0 3 ;;
  WriteReg 1 0 ;;
  WriteReg LCR LCR_EIGHT_BITS ;;
  WriteReg FCR (Z.lor FCR_FIFO_ENABLE FCR_FIFO_CLEAR) ;;
  WriteReg IER (Z.lor IER_TX_ENABLE IER_RX_ENABLE) ;;
  initlock L_uart "uart".

(** One round of uartstart; [inr] is [return]. *)
Definition uartstart_body (_ : ()) : K kstate (() + ()) :=
  u ← get_uart;
  if u_w u =? u_r u then mret (inr ())
  else
    lsr ← read_LSR;
    if Z.land lsr LSR_TX_IDLE =? 0 then mret (inr ())
    else
      u ← get_uart;
      let c := u_buf u !!! Z.to_nat (u_r u) in
      upd_uart (fun u => Uart (u_buf u) (u_w u) ((u_r u + 1) mod UART_TX_BUF_SIZE) (u_wr u)) ;;
      wakeup Ch_uart_r ;;
      WriteReg THR c ;;
      mret (inl ()).
(** At most UART_TX_BUF_SIZE - 1 characters are waiting. *)
Definition uartstart : K kstate () := loop (Z.to_nat UART_TX_BUF_SIZE) uartstart_body ().

Definition uartputc_body (c : Z) (_ : ()) : K kstate (() + ()) :=
  u ← get_uart;
  if (u_w u + 1) mod UART_TX_BUF_SIZE =? u_r u then sleep resume Ch_uart_r L_uart ;; mret (inl ())
  else
    upd_uart (fun u => Uart (<[Z.to_nat (u_w u) := u8 c]> (u_buf u)) ((u_w u + 1) mod UART_TX_BUF_SIZE) (u_r u) (u_wr u)) ;;
    uartstart ;;
    release L_uart ;;
    mret (inr ()).
Definition uartputc (c : Z) : K kstate () :=
  acquire L_uart ;;
  loop wakeups (uartputc_body c) ().

Definition uartputc_sync (c : Z) : K kstate () :=
  push_off ;;
  loop uart_polls (fun _ : () =>
    lsr ← read_LSR; mret (if Z.land lsr LSR_TX_IDLE =? 0 then inl () else inr ())) () ;;
  WriteReg THR c ;;
  pop_off.

Definition uartgetc : K kstate Z :=
  lsr ← read_LSR;
  if negb (Z.land lsr 1 =? 0) then read_RHR else mret (-1).

(** ** console.c *)

Definition BACKSPACE : Z := 0x100.
(** [C(x)]: control-x. *)
Definition ctrl (x : Z) : Z := x - 64.

Definition consputc (c : Z) : K kstate () :=
  if c =? BACKSPACE then uartputc_sync 8 ;; uartputc_sync 32 ;; uartputc_sync 8
  else uartputc_sync c.

Definition get_cons : K kstate cons := getD.
Definition upd_cons (f : cons -> cons) : K kstate () := c ← get_cons; putD (f c).
Definition set_c_r (r : Z) (c : cons) : cons := Cons (c_buf c) r (c_w c) (c_e c).
Definition set_c_w (w : Z) (c : cons) : cons := Cons (c_buf c) (c_r c) w (c_e c).
Definition set_c_e (e : Z) (c : cons) : cons := Cons (c_buf c) (c_r c) (c_w c) e.

Definition consolewrite_body (src : ksrc) (n : Z) (i : Z) : K kstate (Z + Z) :=
  if i <? n then
    '(r, c) ← either_copyin (src_add src i) 1;
    if r =? -1 then mret (inr i)
    else uartputc (c !!! 0%nat) ;; mret (inl (i + 1))
  else mret (inr i).
Definition consolewrite (src : ksrc) (n : Z) : K kstate Z :=
  acquire L_cons ;;
  i ← loop (S (Z.to_nat n)) (consolewrite_body src n) 0;
  release L_cons ;;
  mret i.

(** The inner [while] of consoleread; [false] is [return -1]. *)
Definition wait_line : K kstate bool :=
  loop wakeups (fun _ =>
    c ← get_cons;
    if c_r c =? c_w c then
      p ← myproc_deref;
      q ← get_proc p;
      if negb (p_killed q =? 0) then release L_cons ;; mret (inr false)
      else sleep resume Ch_cons_r L_cons ;; mret (inl ())
    else mret (inr true)) ().

(** [None] is [return -1]; otherwise the final value of [n], and the bytes
    delivered so far. *)
Definition consoleread_body (target : Z) (x : kdst * Z * list Z) : K kstate ((kdst * Z * list Z) + option (Z * list Z)) :=
  let '(dst, n, acc) := x in
  if n >? 0 then
    go ← wait_line;
    if go : bool then
      k ← get_cons;
      let c := c_buf k !!! Z.to_nat (c_r k mod INPUT_BUF) in
      upd_cons (fun k => set_c_r (u32 (c_r k + 1)) k) ;;
      if c =? ctrl 68 then
        (if u32 n <? target then upd_cons (fun k => set_c_r (u32 (c_r k - 1)) k) else mret ()) ;;
        mret (inr (Some (n, acc)))
      else
        r ← either_copyout dst [c];
        if r =? -1 then mret (inr (Some (n, acc)))
        else if c =? 10 then mret (inr (Some (n - 1, acc ++ [c])))
        else mret (inl (dst_add dst 1, n - 1, acc ++ [c]))
    else mret (inr None)
  else mret (inr (Some (n, acc))).
Definition consoleread (dst : kdst) (n : Z) : K kstate (Z * list Z) :=
  let target := u32 n in
  acquire L_cons ;;
  r ← loop (S (Z.to_nat n)) (consoleread_body target) (dst, n, []);
  match r with
  | None => mret (-1, [])
  | Some (n, acc) => release L_cons ;; mret (i32 (target - n), acc)
  end.

(** ** printf.c *)

Definition digits : list Z := [48; 49; 50; 51; 52; 53; 54; 55; 56; 57; 97; 98; 99; 100; 101; 102].

(** The do-while loop of printint: the digits, least significant first. *)
Fixpoint int_digits (fuel : nat) (x base : Z) : list Z :=
  match fuel with
  | O => []
  | S f => digits !!! Z.to_nat (x mod base) :: (if x / base =? 0 then [] else int_digits f (x / base) base)
  end.
(** The contents of [buf] when it is printed, last character first. *)
Definition printint_buf (xx base : Z) (sign : bool) : list Z :=
  let neg := sign && (xx <? 0) in
  let x := if neg then u32 (- xx) else u32 xx in
  int_digits 32 x base ++ (if neg then [45] else []).

Definition printint (xx base : Z) (sign : bool) : K kstate () :=
  for_each (rev (printint_buf xx base sign)) consputc.

Definition printptr_body (x : Z) : K kstate Z :=
  consputc (digits !!! Z.to_nat (Z.shiftr x 60)) ;; mret (u64 (Z.shiftl x 4)).
Fixpoint printptr_loop (k : nat) (x : Z) : K kstate () :=
  match k with O => mret () | S k' => x' ← printptr_body x; printptr_loop k' x' end.
Definition printptr (x : Z) : K kstate () :=
  consputc 48 ;; consputc 120 ;; printptr_loop 16 x.

(** The variable arguments. *)
Inductive parg := A_int (z : Z) | A_ptr (z : Z) | A_str (s : option (list Z)).

Definition str (s : string) : list Z := (fun c => Z.of_N (Ascii.N_of_ascii c)) <$> String.list_ascii_of_string s.

(** A missing or mistyped argument is undefined behaviour; the model stops. *)
Fixpoint printf_loop (fmt : list Z) (args : list parg) : K kstate () :=
  match fmt with
  | [] => mret ()
  | c :: fmt1 =>
      if negb (c =? 37) then consputc c ;; printf_loop fmt1 args
      else
        match fmt1 with
        | [] => mret ()
        | c :: fmt2 =>
            if c =? 100 then
              match args with A_int z :: args' => printint z 10 true ;; printf_loop fmt2 args' | _ => nofuel end
            else if c =? 120 then
              match args with A_int z :: args' => printint z 16 true ;; printf_loop fmt2 args' | _ => nofuel end
            else if c =? 112 then
              match args with A_ptr z :: args' => printptr z ;; printf_loop fmt2 args' | _ => nofuel end
            else if c =? 115 then
              match args with
              | A_str s :: args' => for_each (default (str "(null)") s) consputc ;; printf_loop fmt2 args'
              | _ => nofuel
              end
            else if c =? 37 then consputc 37 ;; printf_loop fmt2 args
            else consputc 37 ;; consputc c ;; printf_loop fmt2 args
        end
  end.
(** [fmt]: the format without its NUL; a null pointer is [None]. *)
Definition printf (fmt : option (list Z)) (args : list parg) : K kstate () :=
  pr ← getD (T := prstate);
  let locking := pr_locking pr in
  (if negb (locking =? 0) then acquire L_pr else mret ()) ;;
  match fmt with
  | None => panic "null fmt"
  | Some fmt =>
      printf_loop fmt args ;;
      if negb (locking =? 0) then release L_pr else mret ()
  end.
Definition printfinit : K kstate () :=
  initlock L_pr "pr" ;;
  putD (Prstate 1).

(** The string in a character array. *)
Fixpoint cstr (l : list Z) : list Z :=
  match l with [] => [] | c :: l' => if c =? 0 then [] else c :: cstr l' end.

(** procdump's output. *)
Definition procdump_print : K kstate () :=
  l ← procdump;
  printf (Some (str "
")) [] ;;
  for_each l (fun '(pid, state, name) =>
    printf (Some (str "%d %s %s")) [A_int pid; A_str (Some (str state)); A_str (Some (cstr name))] ;;
    printf (Some (str "
")) []).

(** ** The console's interrupt handler *)

Definition kill_line_body (_ : ()) : K kstate (() + ()) :=
  k ← get_cons;
  if negb (c_e k =? c_w k) && negb (c_buf k !!! Z.to_nat (u32 (c_e k - 1) mod INPUT_BUF) =? 10) then
    upd_cons (fun k => set_c_e (u32 (c_e k - 1)) k) ;;
    consputc BACKSPACE ;;
    mret (inl ())
  else mret (inr ()).

Definition consoleintr (c : Z) : K kstate () :=
  acquire L_cons ;;
  (if c =? ctrl 80 then procdump_print
   else if c =? ctrl 85 then loop (S (Z.to_nat INPUT_BUF)) kill_line_body ()
   else if (c =? ctrl 72) || (c =? 127) then
     k ← get_cons;
     if negb (c_e k =? c_w k) then upd_cons (fun k => set_c_e (u32 (c_e k - 1)) k) ;; consputc BACKSPACE
     else mret ()
   else
     k ← get_cons;
     if negb (c =? 0) && (u32 (c_e k - c_r k) <? INPUT_BUF) then
       let c := if c =? 13 then 10 else c in
       consputc c ;;
       upd_cons (fun k => Cons (<[Z.to_nat (c_e k mod INPUT_BUF) := u8 c]> (c_buf k)) (c_r k) (c_w k) (u32 (c_e k + 1))) ;;
       k ← get_cons;
       if (c =? 10) || (c =? ctrl 68) || (c_e k =? u32 (c_r k + INPUT_BUF)) then
         upd_cons (fun k => set_c_w (c_e k) k) ;;
         wakeup Ch_cons_r
       else mret ()
     else mret ()) ;;
  release L_cons.

(** The device table that consoleinit fills is [devsw] in File.v. *)
Definition consoleinit : K kstate () :=
  initlock L_cons "cons" ;;
  uartinit.

Definition uartintr : K kstate () :=
  loop uart_polls (fun _ : () =>
    c ← uartgetc;
    if c =? -1 then mret (inr ()) else consoleintr c ;; mret (inl ())) () ;;
  acquire L_uart ;;
  uartstart ;;
  release L_uart.
End Uart.
