(* ===== verification/Pipe.v ===== *)
(** * kernel/pipe.c

    A pipe is a ring of PIPESIZE bytes with two 32-bit counters that wrap
    around.  The specification is a queue of at most PIPESIZE bytes: pipewrite
    appends at its end, piperead takes from its front.  pipealloc, which also
    allocates the two files, is in File.v. *)
From stdpp Require Import prelude gmap strings.
From Stdlib Require Import ZArith Lia.
From S2P Require Import Prelude Memory CString Spinlock Riscv Kalloc Vm Uaccess Proc Bytes State Sleeplock.
Open Scope Z_scope.

Section Pipe.
Context {SC : Sched} (kend : Z).

Definition get_pipe (pi : Z) : K kstate pipe := t ← getD (T := pipes); mret (pipe_at t !!! pi).
Definition put_pipe (pi : Z) (p : pipe) : K kstate () :=
  t ← getD (T := pipes); putD (Pipes (<[pi := p]> (pipe_at t))).
Definition upd_pipe (pi : Z) (f : pipe -> pipe) : K kstate () := p ← get_pipe pi; put_pipe pi (f p).

Definition set_writeopen (x : Z) (p : pipe) : pipe :=
  Pipe (pi_data p) (pi_nread p) (pi_nwrite p) (pi_readopen p) x.
Definition set_readopen (x : Z) (p : pipe) : pipe :=
  Pipe (pi_data p) (pi_nread p) (pi_nwrite p) x (pi_writeopen p).

(** [pi->data[pi->nwrite++ % PIPESIZE] = ch] *)
Definition push_byte (ch : Z) (p : pipe) : pipe :=
  Pipe (<[Z.to_nat (pi_nwrite p mod PIPESIZE) := ch]> (pi_data p)) (pi_nread p) (u32 (pi_nwrite p + 1))
    (pi_readopen p) (pi_writeopen p).
(** [ch = pi->data[pi->nread++ % PIPESIZE]] *)
Definition next_byte (p : pipe) : Z := pi_data p !!! Z.to_nat (pi_nread p mod PIPESIZE).
Definition pop_byte (p : pipe) : pipe :=
  Pipe (pi_data p) (u32 (pi_nread p + 1)) (pi_nwrite p) (pi_readopen p) (pi_writeopen p).

Definition pipeclose (pi writable : Z) : K kstate () :=
  acquire (L_pipe pi) ;;
  (if negb (writable =? 0) then upd_pipe pi (set_writeopen 0) ;; wakeup (Ch_nread pi)
   else upd_pipe pi (set_readopen 0) ;; wakeup (Ch_nwrite pi)) ;;
  p ← get_pipe pi;
  if (pi_readopen p =? 0) && (pi_writeopen p =? 0) then
    release (L_pipe pi) ;;
    kfree kend pi
  else release (L_pipe pi).

(** The inner [while] of pipewrite; [false] is [return -1]. *)
Definition wait_room (pi : Z) (pr : nat) : K kstate bool :=
  loop wakeups (fun _ =>
    p ← get_pipe pi;
    if pi_nwrite p =? u32 (pi_nread p + PIPESIZE) then
      q ← get_proc pr;
      if (pi_readopen p =? 0) || negb (p_killed q =? 0) then
        release (L_pipe pi) ;;
        mret (inr false)
      else
        wakeup (Ch_nread pi) ;;
        sleep resume (Ch_nwrite pi) (L_pipe pi) ;;
        mret (inl ())
    else mret (inr true)) ().

(** One round of the [for] loop; the result is what is left to do after it. *)
Definition pipewrite_body (pi addr n : Z) (pr : nat) (i : Z) : K kstate (Z + option Z) :=
  if i <? n then
    room ← wait_room pi pr;
    if room : bool then
      q ← get_proc pr;
      '(r, ch) ← copyin_to (p_pagetable q) (u64 (addr + i)) 1;
      if r =? -1 then mret (inr (Some i))
      else upd_pipe pi (push_byte (ch !!! 0%nat)) ;; mret (inl (i + 1))
    else mret (inr None)
  else mret (inr (Some i)).
Definition pipewrite (pi addr n : Z) : K kstate Z :=
  pr ← myproc_deref;
  acquire (L_pipe pi) ;;
  r ← loop (S (Z.to_nat n)) (pipewrite_body pi addr n pr) 0;
  match r with
  | None => mret (-1)
  | Some i =>
      wakeup (Ch_nread pi) ;;
      release (L_pipe pi) ;;
      mret i
  end.

(** The [while] of piperead; [false] is [return -1]. *)
Definition wait_bytes (pi : Z) (pr : nat) : K kstate bool :=
  loop wakeups (fun _ =>
    p ← get_pipe pi;
    if (pi_nread p =? pi_nwrite p) && negb (pi_writeopen p =? 0) then
      q ← get_proc pr;
      if negb (p_killed q =? 0) then
        release (L_pipe pi) ;;
        mret (inr false)
      else
        sleep resume (Ch_nread pi) (L_pipe pi) ;;
        mret (inl ())
    else mret (inr true)) ().

Definition piperead_body (pi addr n : Z) (pr : nat) (i : Z) : K kstate (Z + Z) :=
  if i <? n then
    p ← get_pipe pi;
    if pi_nread p =? pi_nwrite p then mret (inr i)
    else
      let ch := next_byte p in
      upd_pipe pi pop_byte ;;
      q ← get_proc pr;
      r ← copyout_from (p_pagetable q) (u64 (addr + i)) [ch];
      if r =? -1 then mret (inr i) else mret (inl (i + 1))
  else mret (inr i).
Definition piperead (pi addr n : Z) : K kstate Z :=
  pr ← myproc_deref;
  acquire (L_pipe pi) ;;
  go ← wait_bytes pi pr;
  if go : bool then
    i ← loop (S (Z.to_nat n)) (piperead_body pi addr n pr) 0;
    wakeup (Ch_nwrite pi) ;;
    release (L_pipe pi) ;;
    mret i
  else mret (-1).
End Pipe.

(** ** The ring as a queue *)

(** [q] are the bytes between the two counters. *)
Record prep (p : pipe) (q : list Z) : Prop := {
  pr_data : length (pi_data p) = 512%nat;
  pr_nread : 0 <= pi_nread p < 2 ^ 32;
  pr_nwrite : pi_nwrite p = u32 (pi_nread p + Z.of_nat (length q));
  pr_len : Z.of_nat (length q) <= PIPESIZE;
  pr_bytes : forall k b, q !! k = Some b ->
    pi_data p !! Z.to_nat ((pi_nread p + Z.of_nat k) mod PIPESIZE) = Some b;
}.

Lemma u32_mod512 z : u32 z mod PIPESIZE = z mod PIPESIZE.
Proof.
  unfold u32, PIPESIZE. rewrite (Z.mod_eq z (2 ^ 32)) by lia.
  replace (z - 2 ^ 32 * (z / 2 ^ 32)) with (z + (- (2 ^ 23 * (z / 2 ^ 32))) * 512) by lia.
  by rewrite Z_mod_plus_full.
Qed.

(** Distances below 2^32 are seen through the wrap-around. *)
Lemma u32_dist a k : 0 <= a < 2 ^ 32 -> 0 <= k < 2 ^ 32 -> u32 (a + k) = a -> k = 0.
Proof.
  intros Ha Hk E. unfold u32 in E. destruct (Z.lt_ge_cases (a + k) (2 ^ 32)).
  - rewrite Z.mod_small in E; lia.
  - replace (a + k) with (a + k - 2 ^ 32 + 1 * 2 ^ 32) in E by lia.
    rewrite Z_mod_plus_full, Z.mod_small in E; lia.
Qed.

(** The full and empty tests of the code. *)
Lemma prep_full p q : prep p q ->
  (pi_nwrite p =? u32 (pi_nread p + PIPESIZE)) = bool_decide (Z.of_nat (length q) = PIPESIZE).
Proof.
  intros [P1 P2 P3 P4 P5]. unfold PIPESIZE in *. rewrite P3. case_bool_decide as H.
  - rewrite H. apply Z.eqb_refl.
  - apply Z.eqb_neq. intros E. apply H. by apply (u32_inj (pi_nread p)); [lia..|].
Qed.
Lemma prep_empty p q : prep p q -> (pi_nread p =? pi_nwrite p) = bool_decide (q = []).
Proof.
  intros [P1 P2 P3 P4 P5]. unfold PIPESIZE in *. rewrite P3. case_bool_decide as H.
  - subst. cbn. rewrite Z.add_0_r, u32_id by lia. apply Z.eqb_refl.
  - apply Z.eqb_neq. intros E. apply H, nil_length_inv.
    pose proof (u32_dist (pi_nread p) (Z.of_nat (length q)) ltac:(lia) ltac:(lia) ltac:(lia)). lia.
Qed.

Lemma ring_ne a j k : 0 <= j < PIPESIZE -> 0 <= k < PIPESIZE -> j <> k ->
  Z.to_nat ((a + j) mod PIPESIZE) <> Z.to_nat ((a + k) mod PIPESIZE).
Proof.
  unfold PIPESIZE. intros Hj Hk Hne E.
  pose proof (Z.mod_pos_bound (a + j) 512 ltac:(lia)). pose proof (Z.mod_pos_bound (a + k) 512 ltac:(lia)).
  assert (E2 : (j - k) mod 512 = 0).
  { replace (j - k) with ((a + j) - (a + k)) by lia. rewrite Zminus_mod.
    replace ((a + j) mod 512) with ((a + k) mod 512) by lia. by rewrite Z.sub_diag. }
  apply Z.mod_divide in E2 as [c Hc]; lia.
Qed.

Lemma prep_push p q b : prep p q -> Z.of_nat (length q) < PIPESIZE -> prep (push_byte b p) (q ++ [b]).
Proof.
  intros [P1 P2 P3 P4 P5] Hl. pose proof (Z.mod_pos_bound (pi_nwrite p) PIPESIZE ltac:(done)) as Hm.
  assert (Hi : pi_nwrite p mod PIPESIZE = (pi_nread p + Z.of_nat (length q)) mod PIPESIZE)
    by (rewrite P3; apply u32_mod512).
  split; cbn [push_byte pi_data pi_nread pi_nwrite].
  - by rewrite length_insert.
  - done.
  - rewrite P3, length_app. cbn. unfold u32. rewrite Zplus_mod_idemp_l. f_equal. lia.
  - rewrite length_app. cbn. lia.
  - intros k x [Hk|[Hk Hx]]%lookup_app_Some.
    + rewrite list_lookup_insert_ne; [by apply P5|]. rewrite Hi. apply lookup_lt_Some in Hk as Hlt.
      apply ring_ne; lia.
    + apply list_lookup_singleton_Some in Hx as [Hk0 <-]. replace k with (length q) by lia. rewrite <- Hi.
      apply list_lookup_insert_eq. unfold PIPESIZE in *. lia.
Qed.

Lemma prep_pop p q b : prep p (b :: q) -> next_byte p = b /\ prep (pop_byte p) q.
Proof.
  intros [P1 P2 P3 P4 P5]. split.
  - apply list_lookup_total_correct. specialize (P5 0%nat b eq_refl). by rewrite Z.add_0_r in P5.
  - split; cbn [pop_byte pi_data pi_nread pi_nwrite] in *.
    + done.
    + apply u32_range.
    + rewrite P3. unfold u32. rewrite Zplus_mod_idemp_l. cbn. f_equal. lia.
    + cbn in P4. lia.
    + intros k x Hk. specialize (P5 (S k) x Hk). rewrite <- P5. do 2 f_equal.
      rewrite <- Zplus_mod_idemp_l, u32_mod512, Zplus_mod_idemp_l. f_equal. lia.
Qed.

Section Spec.
Context {SC : Sched} (Hwk : (0 < wakeups)%nat) (kend : Z) (kend_pos : 0 < kend).
Implicit Types (w : world kstate).

Definition pipe_of w (pi : Z) : pipe := pipe_at (compc w) !!! pi.
Definition with_pipe w (pi : Z) (p : pipe) : world kstate := updc (Pipes (<[pi := p]> (pipe_at (compc w)))) w.

Lemma get_pipe_run pi w : get_pipe pi w = Ok (pipe_of w pi, w).
Proof. done. Qed.
Lemma upd_pipe_run pi f w : upd_pipe pi f w = Ok ((), with_pipe w pi (f (pipe_of w pi))).
Proof. done. Qed.
Lemma pipe_of_with w pi p : pipe_of (with_pipe w pi p) pi = p.
Proof. unfold pipe_of, with_pipe. rewrite compc_updc. apply lookup_total_insert_eq. Qed.
Lemma with_pipe_twice w pi p p' : with_pipe (with_pipe w pi p) pi p' = with_pipe w pi p'.
Proof. unfold with_pipe. rewrite compc_updc, updc_updc. cbn. by rewrite insert_insert_eq. Qed.
Lemma pipe_of_acq w l pi : pipe_of (acq l w) pi = pipe_of w pi.
Proof. done. Qed.
Lemma with_pipe_acq w l pi p : with_pipe (acq l w) pi p = acq l (with_pipe w pi p).
Proof. done. Qed.

Lemma wait_room_run w pi pr q : prep (pipe_of w pi) q -> Z.of_nat (length q) < PIPESIZE ->
  wait_room pi pr w = Ok (true, w).
Proof.
  intros Hp Hl. unfold wait_room. destruct wakeups as [|k]; [lia|]. apply loop_exit.
  kdo (get_pipe_run pi w). rewrite (prep_full _ q Hp), bool_decide_false by lia. done.
Qed.

Lemma wait_bytes_run w pi pr q : prep (pipe_of w pi) q -> q <> [] \/ pi_writeopen (pipe_of w pi) = 0 ->
  wait_bytes pi pr w = Ok (true, w).
Proof.
  intros Hp Hl. unfold wait_bytes. destruct wakeups as [|k]; [lia|]. apply loop_exit.
  kdo (get_pipe_run pi w). rewrite (prep_empty _ q Hp). destruct Hl as [Hl|Hl].
  - by rewrite bool_decide_false.
  - rewrite Hl. by rewrite andb_false_r.
Qed.

(** The byte at user address [va], if it is mapped. *)
Definition user_byte (m : mem) T (va : Z) : option Z := rd m <$> uaddr m T va.

Lemma copyin1 w root T va : pt_ok kend (pbytes (compc w)) root T -> 0 <= va ->
  exists bs, copyin_to root va 1 w =
    Ok (match user_byte (pbytes (compc w)) T va with Some b => (0, [b]) | None => (-1, bs) end, w).
Proof.
  intros Hp Hva. unfold user_byte. destruct (uaddr (pbytes (compc w)) T va) as [pa|] eqn:E; cbn [fmap option_fmap option_map].
  - exists []. unfold copyin_to. rewrite (copyin_loop_ok kend kend_pos _ w root T); try done; try lia.
    + unfold user_bytes. change (seqZ va 1) with [va]. by rewrite fmap_cons, fmap_nil, E.
    + by apply rounds_fuel.
    + intros i Hi. replace (va + i) with va by lia. by eexists.
  - destruct (copyin_loop_fail kend kend_pos (Z.to_nat (1 / PGSIZE + 3)) w root T va 1 [] 0) as [bs Hb]; try done; try lia.
    + by apply rounds_fuel.
    + by rewrite Z.add_0_r.
    + exists bs. exact Hb.
Qed.

(** The two ends a pipe has open. *)
Definition ends (p : pipe) : Z * Z := (pi_readopen p, pi_writeopen p).

(** [bs] is what can be read from user memory at [addr], up to [n] bytes. *)
Definition readable (m : mem) T (addr n : Z) (bs : list Z) : Prop :=
  Z.of_nat (length bs) <= n /\
  (forall j b, bs !! j = Some b -> user_byte m T (u64 (addr + Z.of_nat j)) = Some b) /\
  (Z.of_nat (length bs) < n -> user_byte m T (u64 (addr + Z.of_nat (length bs))) = None).

Lemma pipewrite_loop (k : nat) fuel w pi addr n pr T p q bs (i : nat) :
  let w0 := acq (L_pipe pi) (with_pipe w pi p) in
  pt_ok kend (pbytes (compc w)) (p_pagetable (procs (compc w) !!! pr)) T ->
  readable (pbytes (compc w)) T addr n bs -> (i + k = length bs)%nat -> (k < fuel)%nat ->
  prep p q -> Z.of_nat (length q) + n - Z.of_nat i <= PIPESIZE ->
  exists p', loop fuel (pipewrite_body pi addr n pr) (Z.of_nat i) w0 =
      Ok (Some (Z.of_nat (length bs)), acq (L_pipe pi) (with_pipe w pi p')) /\
    prep p' (q ++ drop i bs) /\ ends p' = ends p.
Proof.
  cbv zeta. intros Hpt (Hn & Hb & Hx). revert fuel p q i.
  assert (Hr : forall p i, exists x, copyin_to (p_pagetable (procs (compc w) !!! pr)) (u64 (addr + Z.of_nat i)) 1
      (acq (L_pipe pi) (with_pipe w pi p)) =
    Ok (match user_byte (pbytes (compc w)) T (u64 (addr + Z.of_nat i)) with Some b => (0, [b]) | None => (-1, x) end,
        acq (L_pipe pi) (with_pipe w pi p))).
  { intros p i. exact (copyin1 (acq (L_pipe pi) (with_pipe w pi p)) _ T _ Hpt (proj1 (u64_range _))). }
  induction k as [|k IH]; intros [|fuel] p q i Hk Hf Hp Hl; try lia.
  - replace i with (length bs) in * by lia. exists p. rewrite drop_all, app_nil_r. split; [|done].
    apply loop_exit. unfold pipewrite_body. destruct (Z.ltb_spec (Z.of_nat (length bs)) n) as [Hlt|]; [|done].
    rewrite (bind_Ok _ _ _ _ _ (wait_room_run _ pi pr q ltac:(rewrite pipe_of_acq, pipe_of_with; exact Hp) ltac:(lia))).
    kdo (get_proc_run pr (acq (L_pipe pi) (with_pipe w pi p))).
    change (procs (compc (acq (L_pipe pi) (with_pipe w pi p))) !!! pr) with (procs (compc w) !!! pr).
    destruct (Hr p (length bs)) as [x E]. kdo E. by rewrite Hx.
  - destruct (lookup_lt_is_Some_2 bs i) as [b Hbi]; [lia|].
    destruct (IH fuel (push_byte b p) (q ++ [b]) (S i)) as (p' & E & Hp' & He).
    { lia. } { lia. } { apply prep_push; [done|lia]. } { rewrite length_app. cbn. lia. }
    exists p'. rewrite <- app_assoc in Hp'. rewrite (drop_S _ _ _ Hbi). split; [|done].
    rewrite <- E. replace (Z.of_nat (S i)) with (Z.of_nat i + 1) by lia. apply loop_next.
    unfold pipewrite_body. rewrite (proj2 (Z.ltb_lt _ _)) by lia.
    rewrite (bind_Ok _ _ _ _ _ (wait_room_run _ pi pr q ltac:(rewrite pipe_of_acq, pipe_of_with; exact Hp) ltac:(lia))).
    kdo (get_proc_run pr (acq (L_pipe pi) (with_pipe w pi p))).
    change (procs (compc (acq (L_pipe pi) (with_pipe w pi p))) !!! pr) with (procs (compc w) !!! pr).
    destruct (Hr p i) as [x E2]. kdo E2. rewrite (Hb i b Hbi). change (0 =? -1) with false. cbv iota.
    kdo (upd_pipe_run pi (push_byte ([b] !!! 0%nat)) (acq (L_pipe pi) (with_pipe w pi p))).
    rewrite with_pipe_acq, pipe_of_acq, pipe_of_with, with_pipe_twice. done.
Qed.

Lemma with_pipe_id w pi p : pipe_at (compc w) !! pi = Some p -> with_pipe w pi p = w.
Proof.
  intros H. unfold with_pipe. rewrite insert_id by done.
  replace (Pipes (pipe_at (compc w))) with (compc (T := pipes) w) by (by destruct (compc (T := pipes) w)).
  apply updc_compc.
Qed.

Lemma quiet_with_pipe w pi p : quiet w -> quiet (with_pipe w pi p).
Proof. unfold with_pipe. eauto with xv6. Qed.
Lemma free_with_pipe l w pi p : lock_free l w -> lock_free l (with_pipe w pi p).
Proof. done. Qed.

(** What every call on a pipe ends with: wake the other side up, release. *)
Lemma wake_release w pi chan (r : Z) : quiet w -> lock_free (L_pipe pi) w ->
  (wakeup chan ;; release (L_pipe pi) ;; mret r) (acq (L_pipe pi) w) =
  Ok (r, touch (updc (tab_map (woken chan) (compc w)) w)).
Proof.
  intros Hq Hf. krun wakeup_run. rewrite touch_acq by eauto with xv6. by krelease.
Qed.

Lemma pipewrite_ok w pi addr n pr T p q bs :
  quiet w -> runs w pr -> lock_free (L_pipe pi) w -> pipe_at (compc w) !! pi = Some p -> prep p q ->
  pt_ok kend (pbytes (compc w)) (p_pagetable (procs (compc w) !!! pr)) T ->
  readable (pbytes (compc w)) T addr n bs -> Z.of_nat (length q) + n <= PIPESIZE ->
  exists p', prep p' (q ++ bs) /\ ends p' = ends p /\
    pipewrite pi addr n w = Ok (Z.of_nat (length bs),
      touch (updc (tab_map (woken (Ch_nread pi)) (compc w)) (with_pipe w pi p'))).
Proof.
  intros Hq (Hpr & _) Hf Hpi Hp Hpt Hbs Hl. pose proof Hbs as (Hn & _). unfold pipewrite.
  rewrite (bind_Ok _ _ _ _ _ (myproc_deref_run w pr ltac:(eauto with xv6) Hpr)). kacquire.
  destruct (pipewrite_loop (length bs) (S (Z.to_nat n)) (touch w) pi addr n pr T p q bs 0) as (p' & E & Hp' & He);
    try done; try lia.
  rewrite with_pipe_id in E by done. kdo E. exists p'. split_and!; [done..|].
  rewrite wake_release by first [done | apply quiet_with_pipe; eauto with xv6].
  change (with_pipe (touch w) pi p') with (touch (with_pipe w pi p')).
  by rewrite updc_touch, touch_touch.
Qed.

(** The bytes piperead moves: as many as fit and are there, while the user
    pages can be written.  [ws] is the number of bytes that can be written. *)
Definition writable (m : mem) T (addr : Z) (ws : nat) : Prop :=
  forall j, (j < ws)%nat -> is_Some (uaddr m T (u64 (addr + Z.of_nat j))) /\
    data_pages m T (u64 (addr + Z.of_nat j)) 1.

Definition user_addrs (m : mem) T (addr : Z) (ws : nat) : list Z :=
  (fun j : nat => default 0 (uaddr m T (u64 (addr + Z.of_nat j)))) <$> seq 0 ws.

Lemma copyout1 w root T va b : pt_ok kend (pbytes (compc w)) root T -> 0 <= va ->
  is_Some (uaddr (pbytes (compc w)) T va) -> data_pages (pbytes (compc w)) T va 1 ->
  copyout_from root va [b] w =
  Ok (0, with_mem w (wr (pbytes (compc w)) (default 0 (uaddr (pbytes (compc w)) T va)) b)).
Proof.
  intros Hp Hva [pa E] Hd. unfold copyout_from.
  rewrite (copyout_loop_ok kend kend_pos _ w root T va [b]); try done.
  - apply rounds_fuel. cbn. lia.
  - intros i Hi. cbn in Hi. replace (va + i) with va by lia. by eexists.
Qed.

Definition user_addr (m : mem) T (addr : Z) (j : nat) : Z := default 0 (uaddr m T (u64 (addr + Z.of_nat j))).

Lemma same_wr (m1 m : mem) (T : gmap (list Z) Z) (a b : Z) : (forall k x, T !! k = Some x -> same_on m1 m x PGSIZE) ->
  (forall k x, T !! k = Some x -> a < x \/ x + PGSIZE <= a) ->
  forall k x, T !! k = Some x -> same_on (wr m1 a b) m x PGSIZE.
Proof.
  intros H1 H2 k x Hx c Hc. rewrite rd_wr_ne; [by eapply H1|]. destruct (H2 k x Hx); lia.
Qed.

Lemma piperead_loop (k : nat) fuel w pi addr n pr T p q m1 (i : nat) :
  let m := pbytes (compc w) in
  pt_ok kend m (p_pagetable (procs (compc w) !!! pr)) T ->
  (forall k x, T !! k = Some x -> same_on m1 m x PGSIZE) ->
  writable m T addr (Z.to_nat n) -> (k = (Z.to_nat n - i) `min` length q)%nat -> (i <= Z.to_nat n)%nat ->
  (k < fuel)%nat -> 0 <= n -> prep p q ->
  exists p', loop fuel (piperead_body pi addr n pr) (Z.of_nat i) (acq (L_pipe pi) (with_pipe (with_mem w m1) pi p)) =
      Ok (Z.of_nat (i + k), acq (L_pipe pi) (with_pipe (with_mem w
        (wr_all m1 (user_addr m T addr <$> seq i k) (take k q))) pi p')) /\
    prep p' (drop k q) /\ ends p' = ends p.
Proof.
  cbv zeta. intros Hpt Hs Hw. set (m := pbytes (compc w)) in *.
  revert fuel p q m1 i Hs. induction k as [|k IH]; intros [|fuel] p q m1 i Hs Hk Hi Hf Hn Hp; try lia.
  - exists p. rewrite Nat.add_0_r. split; [|done]. apply loop_exit. unfold piperead_body.
    destruct (Z.ltb_spec (Z.of_nat i) n) as [Hlt|]; [|done].
    kdo (get_pipe_run pi (acq (L_pipe pi) (with_pipe (with_mem w m1) pi p))).
    rewrite pipe_of_acq, pipe_of_with, (prep_empty _ q Hp), bool_decide_true; [done|].
    apply nil_length_inv. lia.
  - destruct q as [|b q]; [cbn in Hk; lia|]. destruct (prep_pop p q b Hp) as [Hb Hp1].
    destruct (Hw i ltac:(lia)) as [[pa Ha] Hd].
    set (m2 := wr m1 pa b).
    assert (Hs2 : forall k x, T !! k = Some x -> same_on m2 m x PGSIZE).
    { apply same_wr; [done|]. intros k' x Hx. apply (Hd 0 pa k' x); [lia|by rewrite Z.add_0_r|done]. }
    destruct (IH fuel (pop_byte p) q m2 (S i)) as (p' & E & Hp' & He); try done; try (cbn in Hk; lia).
    exists p'. split; [|done]. cbn [seq take]. rewrite fmap_cons.
    unfold user_addr at 1. rewrite Ha. cbn [wr_all default]. change (id pa) with pa. fold m2.
    replace (i + S k)%nat with (S i + k)%nat by lia.
    rewrite <- E. replace (Z.of_nat (S i)) with (Z.of_nat i + 1) by lia. apply loop_next.
    unfold piperead_body. rewrite (proj2 (Z.ltb_lt _ _)) by lia. set (w1 := acq _ _).
    kdo (get_pipe_run pi w1). change (pipe_of w1 pi) with (pipe_of (with_pipe (with_mem w m1) pi p) pi).
    rewrite pipe_of_with, (prep_empty _ _ Hp), bool_decide_false, Hb by done.
    kdo (upd_pipe_run pi pop_byte w1). change (pipe_of w1 pi) with (pipe_of (with_pipe (with_mem w m1) pi p) pi).
    rewrite pipe_of_with. unfold w1. rewrite with_pipe_acq, with_pipe_twice.
    kdo (get_proc_run pr (acq (L_pipe pi) (with_pipe (with_mem w m1) pi (pop_byte p)))).
    change (procs (compc (acq (L_pipe pi) (with_pipe (with_mem w m1) pi (pop_byte p)))) !!! pr)
      with (procs (compc w) !!! pr).
    pose proof (copyout1 (acq (L_pipe pi) (with_pipe (with_mem w m1) pi (pop_byte p)))
      (p_pagetable (procs (compc w) !!! pr)) T (u64 (addr + Z.of_nat i)) b) as Hc.
    change (pbytes (compc (acq (L_pipe pi) (with_pipe (with_mem w m1) pi (pop_byte p))))) with m1 in Hc.
    rewrite (uaddr_same m m1) in Hc by done. rewrite Ha in Hc. cbn [default] in Hc. change (id pa) with pa in Hc. fold m2 in Hc.
    rewrite (bind_Ok _ _ _ _ _ (Hc ltac:(by eapply pt_ok_same) ltac:(apply u64_range) ltac:(by eexists)
      ltac:(intros j x k' y Hj; rewrite (uaddr_same m m1) by done; apply Hd; done))). done.
Qed.

Lemma piperead_ok w pi addr n pr T p q :
  let m := pbytes (compc w) in let k := (Z.to_nat n `min` length q)%nat in
  quiet w -> runs w pr -> lock_free (L_pipe pi) w -> pipe_at (compc w) !! pi = Some p -> prep p q ->
  q <> [] \/ pi_writeopen p = 0 -> 0 <= n ->
  pt_ok kend m (p_pagetable (procs (compc w) !!! pr)) T -> writable m T addr (Z.to_nat n) ->
  exists p', prep p' (drop k q) /\ ends p' = ends p /\
    piperead pi addr n w = Ok (Z.of_nat k, touch (updc (tab_map (woken (Ch_nwrite pi)) (compc w))
      (with_pipe (with_mem w (wr_all m (user_addr m T addr <$> seq 0 k) (take k q))) pi p'))).
Proof.
  cbv zeta. intros Hq (Hpr & _) Hf Hpi Hp Hne Hn Hpt Hw. unfold piperead.
  rewrite (bind_Ok _ _ _ _ _ (myproc_deref_run w pr ltac:(eauto with xv6) Hpr)). kacquire.
  assert (Hpo : pipe_of w pi = p) by (by apply lookup_total_correct).
  rewrite (bind_Ok _ _ _ _ _ (wait_bytes_run (acq (L_pipe pi) (touch w)) pi pr q
    ltac:(change (pipe_of (acq (L_pipe pi) (touch w)) pi) with (pipe_of w pi); by rewrite Hpo)
    ltac:(change (pipe_of (acq (L_pipe pi) (touch w)) pi) with (pipe_of w pi); by rewrite Hpo))).
  destruct (piperead_loop (Z.to_nat n `min` length q) (S (Z.to_nat n)) (touch w) pi addr n pr T p q (pbytes (compc w)) 0)
    as (p' & E & Hp' & He); try done; try lia.
  change (pbytes (compc w)) with (pbytes (compc (touch w))) in E at 1. rewrite with_mem_id, with_pipe_id in E by done. kdo E.
  exists p'. split_and!; [done..|]. rewrite wake_release; [|apply quiet_with_pipe; unfold with_mem; eauto with xv6|done].
  change (pbytes (compc (touch w))) with (pbytes (compc w)).
  set (m' := wr_all _ _ _).
  change (with_pipe (with_mem (touch w) m') pi p') with (touch (with_pipe (with_mem w m') pi p')).
  by rewrite updc_touch, touch_touch.
Qed.
End Spec.

Section Props.
Context {SC : Sched} (Hwk : (0 < wakeups)%nat) (kend : Z) (kend_pos : 0 < kend).
Implicit Types (w : world kstate).

(** A write of [n] bytes that fit into a pipe appends to its queue, in order, the
    bytes that can be read from the caller's memory (all [n], or those before
    the first unmapped page), returns how many, and wakes the readers up.  The
    32-bit counters may wrap around. *)
Theorem pipewrite_fits w pi addr n pr T p q bs
  (Hq : quiet w) (Hr : runs w pr) (Hf : lock_free (L_pipe pi) w)
  (Hpi : pipe_at (compc w) !! pi = Some p) (Hp : prep p q)
  (Hpt : pt_ok kend (pbytes (compc w)) (p_pagetable (procs (compc w) !!! pr)) T)
  (Hbs : readable (pbytes (compc w)) T addr n bs) (Hl : Z.of_nat (length q) + n <= PIPESIZE) :
  exists w', pipewrite pi addr n w = Ok (Z.of_nat (length bs), w') /\
    prep (pipe_of w' pi) (q ++ bs) /\ ends (pipe_of w' pi) = ends p /\ compc (T := pmem) w' = compc w /\
    (forall i, procs (compc w') !!! i = if decide (i < length (procs (compc w)))%nat
               then woken (Ch_nread pi) (procs (compc w) !!! i) else procs (compc w) !!! i) /\
    kframe w w'.
Proof.
  destruct (pipewrite_ok Hwk kend kend_pos w pi addr n pr T p q bs) as (p' & Hp' & He & E); try done.
  eexists. split; [exact E|]. unfold pipe_of.
  rewrite !compc_touch, (compc_updc_ne1 (T1 := pipes) (T2 := proctab)), compc_updc.
  change (pipe_at (compc (with_pipe w pi p')) !!! pi) with (pipe_of (with_pipe w pi p') pi).
  rewrite pipe_of_with. split_and!; [done..| |].
  - intros i. cbn. case_decide as Hi.
    + by apply (list_lookup_total_fmap (woken (Ch_nread pi))).
    + rewrite !list_lookup_total_alt, !lookup_ge_None_2; [done|lia|rewrite length_fmap; lia].
  - etrans; [apply (kframe_updc (Pipes (<[pi := p']> (pipe_at (compc w)))))|].
    etrans; [apply (kframe_updc (tab_map (woken (Ch_nread pi)) (compc w)))|apply kframe_touch].
Qed.

(** C30: A read takes the oldest bytes out of the queue, as many as were asked for
    and are there, puts them into the caller's memory in order and wakes the
    writers up; on an empty pipe whose write end is closed it returns 0. *)
Theorem piperead_correct w pi addr n pr T p q
  (Hq : quiet w) (Hr : runs w pr) (Hf : lock_free (L_pipe pi) w)
  (Hpi : pipe_at (compc w) !! pi = Some p) (Hp : prep p q)
  (Hne : q <> [] \/ pi_writeopen p = 0) (Hn : 0 <= n) (Hb : Forall (fun b => 0 <= b < 256) q)
  (Hpt : pt_ok kend (pbytes (compc w)) (p_pagetable (procs (compc w) !!! pr)) T)
  (Hw : writable (pbytes (compc w)) T addr (Z.to_nat n))
  (Hu : NoDup (user_addr (pbytes (compc w)) T addr <$> seq 0 (Z.to_nat n))) :
  let k := (Z.to_nat n `min` length q)%nat in
  exists w', piperead pi addr n w = Ok (Z.of_nat k, w') /\
    prep (pipe_of w' pi) (drop k q) /\ ends (pipe_of w' pi) = ends p /\ kframe w w' /\
    (forall j b, (j < k)%nat -> q !! j = Some b ->
       rd (pbytes (compc w')) (user_addr (pbytes (compc w)) T addr j) = b) /\
    (forall a, a ∉ (user_addr (pbytes (compc w)) T addr <$> seq 0 k) ->
       rd (pbytes (compc w')) a = rd (pbytes (compc w)) a).
Proof.
  intros k. set (m := pbytes (compc w)) in *.
  destruct (piperead_ok Hwk kend kend_pos w pi addr n pr T p q) as (p' & Hp' & He & E); try done.
  fold m k in E, Hp'. set (m' := wr_all m _ _) in E.
  eexists. split; [exact E|]. set (w1 := with_pipe (with_mem w m') pi p') in *.
  change (pipe_of (touch (updc _ w1)) pi) with (pipe_of w1 pi). unfold w1 at 1 2. rewrite pipe_of_with.
  change (pbytes (compc (touch (updc _ w1)))) with m'. split_and!; [done..| | |].
  - etrans; [apply (kframe_updc (Pmem m' (freelist (compc w))))|].
    etrans; [apply (kframe_updc (Pipes (<[pi := p']> (pipe_at (compc w)))))|].
    etrans; [apply (kframe_updc (tab_map (woken (Ch_nwrite pi)) (compc w)))|apply kframe_touch].
  - intros j b Hj Hqj. unfold m'. rewrite (rd_wr_all_in _ _ _ j _ b).
    + apply u8_id. rewrite Forall_lookup in Hb. by eapply Hb.
    + replace (Z.to_nat n) with (k + (Z.to_nat n - k))%nat in Hu by lia.
      rewrite seq_app, fmap_app in Hu. by apply NoDup_app in Hu as [? _].
    + by rewrite list_lookup_fmap, lookup_seq_lt.
    + by rewrite lookup_take_lt.
  - intros a Ha. by apply rd_wr_all_out.
Qed.
End Props.

(** ** A process with one user page and a pipe whose counters are about to wrap *)

Definition ex_pipe : pipe := Pipe (<[511%nat := 42]> (repeat 0 512)) 4294967295 0 1 1.
Definition pipe_tab : proctab :=
  tab_alter (fun p => Proc (p_state p) (p_parent p) (p_chan p) (p_killed p) (p_xstate p) (p_pid p) (p_kstack p)
    (p_sz p) (vm_page 4) (p_trapframe p) (p_ra p) (p_sp p) (p_ofile p) (p_cwd p) (p_name p) (p_syscall_mask p))
    3 tab_example.
Definition pipe_world : world kstate :=
  set_lock (L_pipe 1) (Spinlock 0 "pipe" None)
    (run_world 3 (set_pipes (Pipes {[ 1 := ex_pipe ]}) (set_pmem (Pmem us_mem 0) (set_tab pipe_tab kstate0)))).

Lemma pipe_world_runs : runs pipe_world 3.
Proof. split_and!; [by vm_compute|unfold nproc, NPROC; lia|by vm_compute]. Qed.
Lemma pipe_world_quiet : quiet pipe_world.
Proof.
  split.
  - split; vm_compute; congruence.
  - exists 3%nat. apply pipe_world_runs.
  - intros i Hi. destruct (proc_world_unlocked i Hi) as [n E]. exists n.
    unfold pipe_world, set_lock. cbn [locks]. by rewrite lookup_insert_ne.
Qed.
Lemma pipe_world_free : lock_free (L_pipe 1) pipe_world.
Proof. exists "pipe". by vm_compute. Qed.
Lemma ex_prep : prep ex_pipe [42].
Proof.
  split; [reflexivity|cbn; lia|reflexivity|cbn; unfold PIPESIZE; lia|].
  intros [|k] b E; [injection E as <-; reflexivity|done].
Qed.
Lemma pipe_world_pt :
  pt_ok (vm_page 4) (pbytes (compc pipe_world)) (p_pagetable (procs (compc pipe_world) !!! 3%nat)) us_tree.
Proof. exact us_pt. Qed.

Lemma pipewrite_fits_witness : exists bs w',
  pipewrite (SC := ex_sched) 1 5000 4 pipe_world = Ok (4, w') /\ length bs = 4%nat /\
  prep (pipe_of w' 1) (42 :: bs).
Proof.
  assert (U : forall j, 0 <= j < 8 -> user_byte us_mem us_tree (u64 (5000 + j)) = Some (rd us_mem (vm_page 1 + 904 + j))).
  { intros j Hj. rewrite u64_id by lia. unfold user_byte. by rewrite us_addr. }
  set (bs := (fun j => rd us_mem (vm_page 1 + 904 + j)) <$> seqZ 0 4).
  destruct (pipewrite_fits (SC := ex_sched) ltac:(cbn; lia) (vm_page 4) ltac:(vm_compute; reflexivity) pipe_world 1 5000 4 3
    us_tree ex_pipe [42] bs pipe_world_quiet pipe_world_runs pipe_world_free eq_refl ex_prep pipe_world_pt)
    as (w' & E & P & _).
  - split_and!.
    + reflexivity.
    + intros j b Hb. unfold bs in Hb. rewrite list_lookup_fmap in Hb.
      assert (Hj : (j < 4)%nat) by (apply fmap_Some in Hb as (x & Hx%lookup_lt_Some & _); rewrite length_seqZ in Hx; lia).
      rewrite lookup_seqZ_lt in Hb by lia. injection Hb as <-. apply U. lia.
    + intros H. change (Z.of_nat (length bs)) with 4 in H. lia.
  - cbn. unfold PIPESIZE. lia.
  - exists bs, w'. split; [exact E|]. split; [reflexivity|exact P].
Defined.

Lemma piperead_correct_witness : exists w',
  piperead (SC := ex_sched) 1 5000 3 pipe_world = Ok (1, w') /\ prep (pipe_of w' 1) [] /\
  rd (pbytes (compc w')) (vm_page 1 + 904) = 42.
Proof.
  assert (U : forall j : nat, (j < 8)%nat -> uaddr us_mem us_tree (u64 (5000 + Z.of_nat j)) = Some (vm_page 1 + 904 + Z.of_nat j)).
  { intros j Hj. rewrite u64_id by lia. apply us_addr. lia. }
  destruct (piperead_correct (SC := ex_sched) ltac:(cbn; lia) (vm_page 4) ltac:(vm_compute; reflexivity) pipe_world 1 5000 3 3
    us_tree ex_pipe [42] pipe_world_quiet pipe_world_runs pipe_world_free eq_refl ex_prep)
    as (w' & E & P & _ & _ & R & _).
  - by left.
  - lia.
  - repeat constructor; lia.
  - exact pipe_world_pt.
  - intros j Hj. change (pbytes (compc pipe_world)) with us_mem. change (Z.to_nat 3) with 3%nat in Hj.
    split; [rewrite U by lia; by eexists|].
    intros i pa k x Hi Hp Hk. replace i with 0 in Hp by lia. rewrite Z.add_0_r, U in Hp by lia. injection Hp as <-.
    apply us_tree_inv in Hk as [[_ ->]|[[_ ->]|[_ ->]]]; unfold vm_page, PGSIZE; lia.
  - vm_compute. repeat (apply NoDup_cons; split; [rewrite list_elem_of_In; cbn; lia|]). apply NoDup_nil_2.
  - exists w'. split; [exact E|]. split; [exact P|].
    specialize (R 0%nat 42 ltac:(cbn; lia) eq_refl). unfold user_addr in R.
    change (pbytes (compc pipe_world)) with us_mem in R. rewrite U in R by lia. cbn [default] in R. unfold id in R.
    by rewrite Z.add_0_r in R.
Defined.
