(* ===== verification/PipeFlow.v ===== *)
(** * kernel/pipe.c: a writer that has to wait

    pipewrite of any length: when the ring is full the writer wakes the readers up and
    sleeps.  The rest of the machine is [resume]: while the writer sleeps, readers may take
    bytes from the front of the queue, close the read end or kill the writer. *)
From stdpp Require Import prelude gmap strings.
From Stdlib Require Import ZArith Lia.
From S2P Require Import Prelude Memory Spinlock Riscv Kalloc Vm Uaccess Proc Bytes State Sleeplock Pipe.
Open Scope Z_scope.

Section Flow.
Context {SC : Sched} (kend : Z) (kend_pos : 0 < kend).
Context (pi : Z) (pr : nat) (root : Z) (T : gmap (list Z) Z) (addr n : Z) (bs : list Z).
Implicit Types (w : world kstate).

(** Process [pr] runs and holds no lock; the queue of the pipe is [q]; [bs] are the bytes
    of the process at [addr]. *)
Record writer w (q : list Z) : Prop := {
  wr_quiet : quiet w;
  wr_noff : noff (h_cpu (cur w)) = 0;
  wr_runs : runs w pr;
  wr_free : lock_free (L_pipe pi) w;
  wr_pipe : prep (pipe_of w pi) q;
  wr_pt : pt_ok kend (pbytes (compc w)) root T;
  wr_bs : readable (pbytes (compc w)) T addr n bs;
  wr_root : p_pagetable (procs (compc w) !!! pr) = root;
}.

(** The reader's end is closed, or somebody has killed the writer. *)
Definition gives_up w : Prop := pi_readopen (pipe_of w pi) = 0 \/ p_killed (procs (compc w) !!! pr) <> 0.

(** What happens from the moment the writer is asleep until it runs again: some of the
    bytes at the front of the queue are taken, unless there is a reason to give up. *)
Definition readers_run : Prop := forall w q, writer w q -> Z.of_nat (length q) = PIPESIZE -> ~ gives_up w ->
  exists w2 j, resume (acq (L_proc pr) (updc (tab_alter (asleep (Ch_nwrite pi)) pr (compc w)) w)) =
      Ok ((), acq (L_proc pr) w2) /\
    writer w2 (drop j q) /\ ((0 < j)%nat \/ gives_up w2).

Lemma writer_touch w q : writer w q -> writer (touch w) q.
Proof.
  intros [W1 W2 W3 W4 W5 W6 W7 W8]. split; try done; [by apply quiet_touch| |].
  - unfold touch. by rewrite cur_set_hart.
  - destruct W3 as (R1 & R2 & R3). split_and!; try done. etrans; [apply c_proc_touch|done].
Qed.
Lemma woken_keeps chan p : p_pagetable (woken chan p) = p_pagetable p /\ p_killed (woken chan p) = p_killed p.
Proof. unfold woken. destruct p. by destruct (_ && _). Qed.
Lemma set_chan_keeps p : p_pagetable (set_chan None p) = p_pagetable p /\ p_killed (set_chan None p) = p_killed p.
Proof. by destruct p. Qed.
Lemma woken_at chan (l : list proc) : (pr < length l)%nat -> (woken chan <$> l) !!! pr = woken chan (l !!! pr).
Proof. intros H. by apply (list_lookup_total_fmap (woken chan)). Qed.
Lemma writer_woken w q chan : writer w q -> writer (updc (tab_map (woken chan) (compc w)) w) q.
Proof.
  intros [W1 W2 W3 W4 W5 W6 W7 W8]. pose proof W3 as (R1 & R2 & R3). split; try done; [eauto with xv6|..].
  - split_and!; try done. rewrite compc_updc. cbn [tab_map procs]. by rewrite length_fmap.
  - rewrite compc_updc. cbn [tab_map procs]. rewrite woken_at by lia. by rewrite (proj1 (woken_keeps _ _)).
Qed.
Lemma gives_up_woken w chan : length (procs (compc w)) = nproc -> (pr < nproc)%nat ->
  gives_up (updc (tab_map (woken chan) (compc w)) w) <-> gives_up w.
Proof.
  intros R3 R2. unfold gives_up. rewrite compc_updc. cbn [tab_map procs]. rewrite woken_at by lia.
  change (pipe_of (updc (tab_map (woken chan) (compc w)) w) pi) with (pipe_of w pi). by rewrite (proj2 (woken_keeps _ _)).
Qed.

(** The bytes stored so far. *)
Lemma writer_push w q b : writer w q -> Z.of_nat (length q) < PIPESIZE ->
  writer (with_pipe w pi (push_byte b (pipe_of w pi))) (q ++ [b]).
Proof.
  intros [W1 W2 W3 W4 W5 W6 W7 W8] Hl. split; try done; [by apply quiet_with_pipe|]. rewrite pipe_of_with. by apply prep_push.
Qed.

Context (Henv : readers_run) (Hwk : (2 <= wakeups)%nat).

(** Waking the readers up and sleeping. *)
Lemma wait_sleep w q : writer w q -> Z.of_nat (length q) = PIPESIZE -> ~ gives_up w ->
  exists w' j, (wakeup (Ch_nread pi) ;; sleep resume (Ch_nwrite pi) (L_pipe pi)) (acq (L_pipe pi) w) = Ok ((), acq (L_pipe pi) w') /\
    writer w' (drop j q) /\ ((0 < j)%nat \/ gives_up w').
Proof.
  intros W Hl Hg. pose proof (wr_quiet _ _ W) as Hq. pose proof (wr_free _ _ W) as Hf. pose proof (wr_runs _ _ W) as (R1 & R2 & R3).
  krun wakeup_run. set (w1 := updc (tab_map (woken (Ch_nread pi)) (compc w)) w) in *.
  assert (W1 : writer w1 q) by by apply writer_woken. assert (Hg1 : ~ gives_up w1) by (unfold w1; by rewrite gives_up_woken).
  pose proof W1 as [A1 A2 (A3 & A4 & A5) A6 A7 A8 A9 A10].
  destruct (Henv w1 q W1 Hl Hg1) as (w2 & j & E & W2 & Hj). pose proof W2 as [B1 B2 (B3 & B4 & B5) B6 B7 B8 B9 B10].
  rewrite (touch_acq (L_pipe pi) w1) by eauto with xv6.
  rewrite (sleep_run resume (Ch_nwrite pi) (L_pipe pi) pr w1 w2); try done; [|eauto with xv6|by apply (q_unl _ A1)|lia|by apply (q_unl _ B1)].
  set (w3 := updc _ _). exists w3, j. split; [done|].
  assert (Hp : procs (compc w3) !!! pr = set_chan None (procs (compc w2) !!! pr)).
  { unfold w3. rewrite compc_updc. cbn [tab_alter procs]. apply list_lookup_total_correct.
    rewrite list_lookup_alter_eq, list_lookup_lookup_total_lt by lia. done. }
  assert (Hcur : cur w3 = thread_hart (cur w1) (cur w2)) by apply cur_set_hart.
  split; [split; try done|].
  - split; [split; rewrite Hcur; cbn [thread_hart h_cpu noff]; rewrite B2; lia| |].
    + exists pr. split_and!; [by rewrite Hcur|done|]. unfold w3. rewrite compc_updc. cbn [tab_alter procs]. by rewrite length_alter.
    + intros i Hi. by apply (q_unl _ B1 i Hi).
  - by rewrite Hcur.
  - split_and!; [by rewrite Hcur|done|]. unfold w3. rewrite compc_updc. cbn [tab_alter procs]. by rewrite length_alter.
  - by rewrite Hp, (proj1 (set_chan_keeps _)).
  - destruct Hj as [Hj|[Hj|Hj]]; [by left|right; by left|right; right]. by rewrite Hp, (proj2 (set_chan_keeps _)).
Qed.

(** Room for a byte, or the call is over. *)
Lemma wait_room_ok w q : writer w q -> exists j,
  (exists w', wait_room pi pr (acq (L_pipe pi) w) = Ok (true, acq (L_pipe pi) w') /\ writer w' (drop j q) /\
     Z.of_nat (length (drop j q)) < PIPESIZE) \/
  (exists w', wait_room pi pr (acq (L_pipe pi) w) = Ok (false, w') /\ writer w' (drop j q) /\ gives_up w' /\
     Z.of_nat (length (drop j q)) = PIPESIZE).
Proof.
  intros W. unfold wait_room. set (f := fun _ : () => _).
  assert (Hroom : forall w q, writer w q -> Z.of_nat (length q) < PIPESIZE -> f () (acq (L_pipe pi) w) = Ok (inr true, acq (L_pipe pi) w)).
  { intros w1 q1 W1 H1. unfold f. kdo (get_pipe_run pi (acq (L_pipe pi) w1)). rewrite pipe_of_acq, (prep_full _ q1 (wr_pipe _ _ W1)).
    by rewrite bool_decide_false by lia. }
  assert (Hover : forall w q, writer w q -> Z.of_nat (length q) = PIPESIZE -> gives_up w ->
    f () (acq (L_pipe pi) w) = Ok (inr false, touch w)).
  { intros w1 q1 W1 H1 G1. pose proof (q_cpu _ (wr_quiet _ _ W1)) as Hq1. pose proof (wr_free _ _ W1) as Hf1.
    unfold f. kdo (get_pipe_run pi (acq (L_pipe pi) w1)). rewrite pipe_of_acq, (prep_full _ q1 (wr_pipe _ _ W1)), bool_decide_true by done.
    kdo (get_proc_run pr (acq (L_pipe pi) w1)). rewrite compc_acq.
    assert (Eb : (pi_readopen (pipe_of w1 pi) =? 0) || negb (p_killed (procs (compc w1) !!! pr) =? 0) = true).
    { destruct G1 as [->|G1]; [done|]. by rewrite (proj2 (Z.eqb_neq _ _) G1), orb_true_r. }
    rewrite Eb. by kdo (release_acq (L_pipe pi) w1 ltac:(eauto with xv6) Hf1). }
  assert (Hfull : Z.of_nat (length q) < PIPESIZE \/ Z.of_nat (length q) = PIPESIZE) by (pose proof (pr_len _ _ (wr_pipe _ _ W)); lia).
  assert (Hk : exists k, wakeups = S (S k)) by (exists (wakeups - 2)%nat; lia). destruct Hk as [k Hk]. rewrite Hk. destruct Hfull as [Hl|Hl].
  { exists 0%nat. left. exists w. rewrite drop_0. split; [|done]. apply loop_exit. by eapply Hroom. }
  assert (Hd : gives_up w \/ ~ gives_up w) by (unfold gives_up; destruct (decide (pi_readopen (pipe_of w pi) = 0)), (decide (p_killed (procs (compc w) !!! pr) = 0)); tauto).
  destruct Hd as [Hg|Hg].
  { exists 0%nat. right. exists (touch w). rewrite drop_0. split; [apply loop_exit; by eapply Hover|]. split; [by apply writer_touch|done]. }
  destruct (wait_sleep w q W Hl Hg) as (w1 & j & E & W1 & Hj). exists j.
  assert (E1 : f () (acq (L_pipe pi) w) = Ok (inl (), acq (L_pipe pi) w1)).
  { unfold f. kdo (get_pipe_run pi (acq (L_pipe pi) w)). rewrite pipe_of_acq, (prep_full _ q (wr_pipe _ _ W)), bool_decide_true by done.
    kdo (get_proc_run pr (acq (L_pipe pi) w)). rewrite compc_acq. unfold gives_up in Hg.
    rewrite (proj2 (Z.eqb_neq (pi_readopen (pipe_of w pi)) 0)) by tauto.
    destruct (Z.eqb_spec (p_killed (procs (compc w) !!! pr)) 0); [|tauto]. cbn [orb negb].
    rewrite <- (bind_assoc (wakeup (Ch_nread pi)) (fun _ => sleep resume (Ch_nwrite pi) (L_pipe pi))). by kdo E. }
  rewrite (loop_next _ _ _ _ _ _ E1). destruct (decide (Z.of_nat (length (drop j q)) < PIPESIZE)) as [Hlt|Hge].
  - left. exists w1. split; [|done]. apply loop_exit. by eapply Hroom.
  - assert (Hl1 : Z.of_nat (length (drop j q)) = PIPESIZE) by (pose proof (pr_len _ _ (wr_pipe _ _ W1)); lia).
    destruct Hj as [Hj|Hj]; [exfalso; rewrite length_drop in Hl1; unfold PIPESIZE in *; lia|].
    right. exists (touch w1). split; [apply loop_exit; by eapply Hover|]. split; [by apply writer_touch|done].
Qed.

(** The loop: what is in the pipe is always the end of what was there followed by what has
    been written. *)
Lemma flow_loop (k : nat) fuel w q0 q (i : nat) :
  (i + k = length bs)%nat -> (k < fuel)%nat -> writer w q -> q `suffix_of` q0 ++ take i bs ->
  (exists w' q', loop fuel (pipewrite_body pi addr n pr) (Z.of_nat i) (acq (L_pipe pi) w) =
      Ok (Some (Z.of_nat (length bs)), acq (L_pipe pi) w') /\ writer w' q' /\ q' `suffix_of` q0 ++ bs) \/
  (exists w' q' i', loop fuel (pipewrite_body pi addr n pr) (Z.of_nat i) (acq (L_pipe pi) w) = Ok (None, w') /\
     writer w' q' /\ gives_up w' /\ Z.of_nat (length q') = PIPESIZE /\ (i' <= length bs)%nat /\ q' `suffix_of` q0 ++ take i' bs).
Proof.
  revert fuel w q i.
  assert (Hr : forall w q i, writer w q -> exists x, copyin_to (p_pagetable (procs (compc (acq (L_pipe pi) w)) !!! pr)) (u64 (addr + Z.of_nat i)) 1
      (acq (L_pipe pi) w) = Ok (match user_byte (pbytes (compc w)) T (u64 (addr + Z.of_nat i)) with Some b => (0, [b]) | None => (-1, x) end,
        acq (L_pipe pi) w)).
  { intros w q i W. rewrite compc_acq, (wr_root _ _ W).
    exact (copyin1 ltac:(lia) kend kend_pos (acq (L_pipe pi) w) _ T _ (wr_pt _ _ W) (proj1 (u64_range _))). }
  assert (Hsuf : forall j q i, q `suffix_of` q0 ++ take i bs -> drop j q `suffix_of` q0 ++ take i bs).
  { intros j q i H. etrans; [|exact H]. exists (take j q). by rewrite take_drop. }
  induction k as [|k IH]; intros [|fuel] w q i Hk Hf W Hq; try lia; pose proof (proj1 (wr_bs _ _ W)) as Hn.
  - replace i with (length bs) in * by lia. rewrite firstn_all in Hq.
    destruct (Z.ltb_spec (Z.of_nat (length bs)) n) as [Hlt|Hge].
    + destruct (wait_room_ok w q W) as (j & [(w1 & E1 & W1 & _)|(w1 & E1 & W1 & G1 & L1)]).
      * left. exists w1, (drop j q). split; [|split; [done|]].
        -- apply loop_exit. unfold pipewrite_body. rewrite (proj2 (Z.ltb_lt _ _)) by done. kdo E1.
           kdo (get_proc_run pr (acq (L_pipe pi) w1)). destruct (Hr w1 _ (length bs) W1) as [x E]. kdo E.
           by rewrite (proj2 (proj2 (wr_bs _ _ W1))).
        -- rewrite <- (firstn_all bs). apply Hsuf. by rewrite firstn_all.
      * right. exists w1, (drop j q), (length bs). split; [|split_and!; try done].
        -- apply loop_exit. unfold pipewrite_body. rewrite (proj2 (Z.ltb_lt _ _)) by done. by kdo E1.
        -- apply Hsuf. by rewrite firstn_all.
    + left. exists w, q. split; [|done]. apply loop_exit. unfold pipewrite_body. by rewrite (proj2 (Z.ltb_ge _ _)).
  - destruct (lookup_lt_is_Some_2 bs i) as [b Hbi]; [lia|].
    destruct (wait_room_ok w q W) as (j & [(w1 & E1 & W1 & L1)|(w1 & E1 & W1 & G1 & L1)]).
    + set (w2 := with_pipe w1 pi (push_byte b (pipe_of w1 pi))).
      assert (E : pipewrite_body pi addr n pr (Z.of_nat i) (acq (L_pipe pi) w) = Ok (inl (Z.of_nat (S i)), acq (L_pipe pi) w2)).
      { unfold pipewrite_body. rewrite (proj2 (Z.ltb_lt _ _)) by lia. kdo E1. kdo (get_proc_run pr (acq (L_pipe pi) w1)).
        destruct (Hr w1 _ i W1) as [x E]. kdo E. rewrite (proj1 (proj2 (wr_bs _ _ W1)) i b Hbi). change (0 =? -1) with false. cbv iota.
        kdo (upd_pipe_run pi (push_byte ([b] !!! 0%nat)) (acq (L_pipe pi) w1)).
        rewrite with_pipe_acq, pipe_of_acq. unfold mret, M_ret. do 3 f_equal. lia. }
      rewrite (loop_next _ _ _ _ _ _ E). apply (IH fuel w2 (drop j q ++ [b]) (S i)); [lia|lia|by apply writer_push|].
      rewrite (take_S_r _ _ _ Hbi), app_assoc. destruct (Hsuf j q i Hq) as [x ->]. exists x. by rewrite app_assoc.
    + right. exists w1, (drop j q), i. split; [|split_and!; try done; [lia|by apply Hsuf]].
      apply loop_exit. unfold pipewrite_body. rewrite (proj2 (Z.ltb_lt _ _)) by lia. by kdo E1.
Qed.
End Flow.

Section Props.
Context {SC : Sched} (kend : Z) (kend_pos : 0 < kend).
Implicit Types (w : world kstate).

End Props.

(** ** A full pipe, and a reader that takes a byte whenever the writer sleeps *)

Definition full_pipe : pipe := Pipe (repeat 7 512) 0 512 1 1.
Definition full_world : world kstate := with_pipe pipe_world 1 full_pipe.
Definition ex_reader : Sched := {| resume := upd_proc (set_state RUNNING) 3 ;; upd_pipe 1 pop_byte; wakeups := 2 |}.

Lemma full_prep : prep full_pipe (repeat 7 512).
Proof.
  split; [reflexivity|cbn; lia|reflexivity|by vm_compute|]. intros k b E. pose proof (lookup_lt_Some _ _ _ E) as Hk. rewrite repeat_length in Hk.
  rewrite lookup_repeat in E by done. injection E as <-. cbn [full_pipe pi_nread pi_data]. unfold PIPESIZE.
  rewrite Z.mod_small by lia. rewrite Z.add_0_l, Nat2Z.id. by apply lookup_repeat.
Qed.
Lemma ex_reader_runs kend root T addr n bs : readers_run (SC := ex_reader) kend 1 3 root T addr n bs.
Proof.
  intros w q [W1 W2 W3 W4 W5 W6 W7 W8] Hl Hg. destruct q as [|b q]; [done|]. destruct (prep_pop _ _ _ W5) as [_ Hpop].
  pose proof W3 as (R1 & R2 & R3).
  set (t := tab_alter (set_state RUNNING) 3 (tab_alter (asleep (Ch_nwrite 1)) 3 (compc w))).
  exists (with_pipe (updc t w) 1 (pop_byte (pipe_of w 1))), 1%nat. split; [|split; [|left; lia]].
  - cbn [resume ex_reader]. rewrite (bind_Ok _ _ _ _ _ (upd_proc_run _ _ _)). rewrite !updc_acq, compc_acq, compc_updc, updc_updc. fold t.
    rewrite upd_pipe_run, with_pipe_acq, pipe_of_acq. done.
  - assert (Ht : procs t !!! 3%nat = set_state RUNNING (asleep (Ch_nwrite 1) (procs (compc w) !!! 3%nat))).
    { unfold t. cbn [tab_alter procs]. apply list_lookup_total_correct.
      rewrite !list_lookup_alter_eq, list_lookup_lookup_total_lt by lia. done. }
    assert (Hlt : length (procs t) = nproc) by (unfold t; cbn [tab_alter procs]; by rewrite !length_alter).
    split; try done.
    + apply quiet_with_pipe. destruct W1 as [Q1 _ Q3]. split; [done|by exists 3%nat|done].
    + by rewrite pipe_of_with.
    + change (p_pagetable (procs t !!! 3%nat) = root). rewrite Ht, <- W8. by destruct (procs (compc w) !!! 3%nat).
Qed.

