(* ===== verification/Bio.v ===== *)
(** * kernel/bio.c: the buffer cache

    The buffers are linked in a circular doubly linked list through [b_prev] and
    [b_next], with [bcache.head] (index NBUF) as its anchor; [head.next] is the
    most recently used buffer.  The disk driver is reached through the class
    [VirtioDisk]: the operation virtio_disk_rw and what the cache relies on. *)
From S2P Require Import Prelude Spinlock Riscv Proc Bytes State Sleeplock.
From stdpp Require Import prelude gmap strings.
From Stdlib Require Import ZArith Lia.
Open Scope Z_scope.

Definition nbuf : nat := Z.to_nat NBUF.
Definition head : nat := nbuf.

Definition set_valid (x : Z) (b : buf) : buf :=
  let '(Buf _ d e n r p q t) := b in Buf x d e n r p q t.
Definition set_disk_own (x : Z) (b : buf) : buf :=
  let '(Buf v _ e n r p q t) := b in Buf v x e n r p q t.
Definition set_ident (dev bno : Z) (b : buf) : buf :=
  let '(Buf v d _ _ r p q t) := b in Buf v d dev bno r p q t.
Definition set_refcnt (x : Z) (b : buf) : buf :=
  let '(Buf v d e n _ p q t) := b in Buf v d e n x p q t.
Definition set_prev (x : nat) (b : buf) : buf :=
  let '(Buf v d e n r _ q t) := b in Buf v d e n r x q t.
Definition set_next (x : nat) (b : buf) : buf :=
  let '(Buf v d e n r p _ t) := b in Buf v d e n r p x t.
Definition set_data (x : blk) (b : buf) : buf :=
  let '(Buf v d e n r p q _) := b in Buf v d e n r p q x.

Definition bc_alter (f : buf -> buf) (i : nat) (bc : bcache) : bcache := Bcache (alter f i (bufs bc)).

Definition get_buf (i : nat) : K kstate buf := c ← getD (T := bcache); mret (bufs c !!! i).
Definition upd_buf (f : buf -> buf) (i : nat) : K kstate () :=
  c ← getD (T := bcache); putD (bc_alter f i c).

(** The contents of a disk block; a block never written is zero. *)
Definition disk_block (d : disk) (n : Z) : blk := default zero_block (d_blocks d !! n).
Definition disk_write (d : disk) (n : Z) (x : blk) : disk :=
  Disk (<[n := x]> (d_blocks d)) ((n, x) :: d_trace d).

(** The effect of a completed virtio_disk_rw(b, write). *)
Definition rw_effect (i : nat) (write : bool) (s : kstate) : kstate :=
  let b := bufs (ks_bc s) !!! i in
  if write then set_disk (disk_write (ks_disk s) (b_blockno b) (b_data b)) s
  else set_bc (bc_alter (set_data (disk_block (ks_disk s) (b_blockno b))) i (ks_bc s)) s.

(** What the cache relies on of virtio_disk.c: a request for a buffer that the
    device does not own completes with the effect above, and with locks and
    interrupts as before. *)
Class VirtioDisk `{!Sched} := {
  virtio_disk_rw : nat -> bool -> K kstate ();
  virtio_disk_rw_ok : forall i write w,
    quiet w -> lock_free L_vdisk w -> (i < nbuf)%nat ->
    length (bufs (compc w)) = Datatypes.S nbuf ->
    b_disk (bufs (compc w) !!! i) = 0 -> 0 <= b_blockno (bufs (compc w) !!! i) < 2 ^ 31 ->
    exists w', virtio_disk_rw i write w = Ok ((), w') /\ kframe w w' /\
      data w' = rw_effect i write (data w);
}.

Section Bio.
Context {SC : Sched} {VD : VirtioDisk}.

(** Put buffer [b] in front of the list. *)
Definition link_front (b : nat) : K kstate () :=
  h ← get_buf head;
  upd_buf (set_next (b_next h)) b ;;
  upd_buf (set_prev head) b.
Definition link_front2 (b : nat) : K kstate () :=
  h ← get_buf head;
  upd_buf (set_prev b) (b_next h) ;;
  upd_buf (set_next b) head.

Definition binit : K kstate () :=
  initlock L_bcache "bcache" ;;
  upd_buf (set_prev head) head ;;
  upd_buf (set_next head) head ;;
  for_each (seq 0 nbuf) (fun b =>
    link_front b ;;
    initsleeplock (L_buf b) "buffer" ;;
    link_front2 b).

(** [for(b = bcache.head.next; b != &bcache.head; b = b->next)]: the cached
    buffer of a block. *)
Definition find_cached (dev blockno : Z) (b : nat) : K kstate (nat + option nat) :=
  if bool_decide (b = head) then mret (inr None)
  else
    x ← get_buf b;
    if (b_dev x =? dev) && (b_blockno x =? blockno) then mret (inr (Some b))
    else mret (inl (b_next x)).
(** [for(b = bcache.head.prev; b != &bcache.head; b = b->prev)]: an unused one. *)
Definition find_unused (b : nat) : K kstate (nat + option nat) :=
  if bool_decide (b = head) then mret (inr None)
  else
    x ← get_buf b;
    if b_refcnt x =? 0 then mret (inr (Some b)) else mret (inl (b_prev x)).

Definition bget (dev blockno : Z) : K kstate nat :=
  acquire L_bcache ;;
  h ← get_buf head;
  r ← loop (Datatypes.S nbuf) (find_cached dev blockno) (b_next h);
  match r with
  | Some b =>
      x ← get_buf b;
      upd_buf (set_refcnt (u32 (b_refcnt x + 1))) b ;;
      release L_bcache ;;
      acquiresleep (L_buf b) ;;
      mret b
  | None =>
      h ← get_buf head;
      r ← loop (Datatypes.S nbuf) find_unused (b_prev h);
      match r with
      | Some b =>
          upd_buf (set_ident dev blockno) b ;;
          upd_buf (set_valid 0) b ;;
          upd_buf (set_refcnt 1) b ;;
          release L_bcache ;;
          acquiresleep (L_buf b) ;;
          mret b
      | None => panic "bget: no buffers"
      end
  end.

Definition bread (dev blockno : Z) : K kstate nat :=
  b ← bget dev blockno;
  x ← get_buf b;
  (if b_valid x =? 0 then
     virtio_disk_rw b false ;;
     upd_buf (set_valid 1) b
   else mret ()) ;;
  mret b.

Definition bwrite (b : nat) : K kstate () :=
  h ← holdingsleep (L_buf b);
  if h =? 0 then panic "bwrite" else virtio_disk_rw b true.

Definition brelse (b : nat) : K kstate () :=
  h ← holdingsleep (L_buf b);
  if h =? 0 then panic "brelse"
  else
    releasesleep (L_buf b) ;;
    acquire L_bcache ;;
    x ← get_buf b;
    upd_buf (set_refcnt (u32 (b_refcnt x - 1))) b ;;
    x ← get_buf b;
    (if b_refcnt x =? 0 then
       upd_buf (set_prev (b_prev x)) (b_next x) ;;
       x ← get_buf b;
       upd_buf (set_next (b_next x)) (b_prev x) ;;
       link_front b ;;
       link_front2 b
     else mret ()) ;;
    release L_bcache.

Definition bpin (b : nat) : K kstate () :=
  acquire L_bcache ;;
  x ← get_buf b;
  upd_buf (set_refcnt (u32 (b_refcnt x + 1))) b ;;
  release L_bcache.

Definition bunpin (b : nat) : K kstate () :=
  acquire L_bcache ;;
  x ← get_buf b;
  upd_buf (set_refcnt (u32 (b_refcnt x - 1))) b ;;
  release L_bcache.

End Bio.

(** ** Blocks of the disk *)

Lemma disk_block_write d n x m :
  disk_block (disk_write d n x) m = if decide (m = n) then x else disk_block d m.
Proof.
  unfold disk_block, disk_write; cbn. case_decide; subst;
    [by rewrite lookup_insert_eq|by rewrite lookup_insert_ne].
Qed.

(** ** Circular doubly linked lists *)

Section Chain.
Implicit Types (nx pv : nat -> nat) (l : list nat).

Definition upd (f : nat -> nat) (i v : nat) : nat -> nat := fun j => if decide (j = i) then v else f j.

(** From [a] the pointers lead through [l] to [b], and back. *)
Fixpoint chain nx pv (a : nat) l (b : nat) : Prop :=
  match l with
  | [] => nx a = b /\ pv b = a
  | x :: l' => nx a = x /\ pv x = a /\ chain nx pv x l' b
  end.

Lemma chain_app nx pv a l1 x l2 b :
  chain nx pv a (l1 ++ x :: l2) b <-> chain nx pv a l1 x /\ chain nx pv x l2 b.
Proof. revert a. induction l1 as [|y l1 IH]; intros a; cbn; [tauto|]. rewrite IH. tauto. Qed.

Lemma chain_ext nx pv nx' pv' a l b :
  (forall k, k ∈ a :: l -> nx' k = nx k) -> (forall k, k ∈ b :: l -> pv' k = pv k) ->
  chain nx pv a l b -> chain nx' pv' a l b.
Proof.
  revert a. induction l as [|x l IH]; intros a Hn Hp; cbn.
  - rewrite Hn, Hp by set_solver. done.
  - intros (H1 & H2 & H3). split_and!; [rewrite Hn; set_solver|rewrite Hp; set_solver|].
    apply IH; [intros k Hk; apply Hn; set_solver|intros k Hk; apply Hp; set_solver|done].
Qed.

Lemma chain_upd_nx nx pv k v a l b : k ∉ a :: l -> chain nx pv a l b -> chain (upd nx k v) pv a l b.
Proof.
  intros Hk. apply chain_ext; [|done]. intros j Hj. unfold upd. rewrite decide_False; [done|].
  intros ->. done.
Qed.
Lemma chain_upd_pv nx pv k v a l b : k ∉ b :: l -> chain nx pv a l b -> chain nx (upd pv k v) a l b.
Proof.
  intros Hk. apply chain_ext; [done|]. intros j Hj. unfold upd. rewrite decide_False; [done|].
  intros ->. done.
Qed.

Lemma chain_next nx pv a l b : chain nx pv a l b -> nx a ∈ b :: l.
Proof. destruct l; cbn; [intros [-> _]|intros (-> & _)]; set_solver. Qed.
Lemma chain_prev nx pv a l b : chain nx pv a l b -> pv b ∈ a :: l.
Proof.
  revert a. induction l as [|x l IH]; intros a; cbn; [intros [_ ->]; set_solver|].
  intros (_ & _ & H). apply IH in H. set_solver.
Qed.

(** Unlinking [x]. *)
Lemma chain_remove nx pv a l1 x l2 b :
  chain nx pv a (l1 ++ x :: l2) b -> NoDup (a :: l1 ++ x :: l2) -> b ∉ l1 ++ x :: l2 ->
  chain (upd nx (pv x) (nx x)) (upd pv (nx x) (pv x)) a (l1 ++ l2) b.
Proof.
  intros Hc Hnd Hb. revert a Hc Hnd. induction l1 as [|y l1 IH]; intros a Hc Hnd.
  - cbn in *. destruct Hc as (<- & Hpx & Hc). rewrite Hpx.
    destruct l2 as [|n l2]; cbn in *.
    + destruct Hc as [-> _]. unfold upd. by rewrite !decide_True.
    + destruct Hc as (-> & _ & Hc). unfold upd at 1 2. rewrite !decide_True by done.
      split_and!; [done..|]. apply NoDup_cons in Hnd as [Ha Hnd].
      apply NoDup_cons in Hnd as [_ Hnd]. apply NoDup_cons in Hnd as [Hn Hnd].
      apply chain_upd_nx; [set_solver|]. apply chain_upd_pv; [set_solver|done].
  - cbn [app chain] in *. destruct Hc as (Ha & Hy & Hc).
    pose proof Hc as [Hc1 Hc2]%chain_app.
    pose proof (chain_next _ _ _ _ _ Hc2) as Hnx. pose proof (chain_prev _ _ _ _ _ Hc1) as Hpv.
    apply NoDup_cons in Hnd as [Hna Hnd]. pose proof Hnd as Hnd'.
    apply NoDup_cons in Hnd' as [Hny _].
    apply not_elem_of_cons in Hb as [Hby Hb].
    split_and!; [| |by apply IH].
    + unfold upd. rewrite decide_False; [done|]. intros E. apply Hna.
      rewrite E. clear - Hpv. set_solver.
    + unfold upd. rewrite decide_False; [done|]. intros E. rewrite <- E in Hnx.
      clear - Hnx Hby Hny. set_solver.
Qed.

(** Linking [x] in front. *)
Lemma chain_push nx pv a x l :
  chain nx pv a l a -> NoDup (a :: l) -> x ∉ a :: l ->
  let nx1 := upd nx x (nx a) in let pv1 := upd pv x a in
  chain (upd nx1 a x) (upd pv1 (nx1 a) x) a (x :: l) a.
Proof.
  intros Hc Hnd Hx nx1 pv1. assert (Hxa : a <> x) by set_solver.
  assert (E1 : nx1 a = nx a) by (unfold nx1, upd; by rewrite decide_False).
  pose proof (chain_next _ _ _ _ _ Hc) as Hna. rewrite E1. cbn.
  assert (Hne : nx a <> x) by (intros E; rewrite E in Hna; done).
  split_and!.
  - unfold upd. by rewrite decide_True.
  - unfold pv1, upd. rewrite decide_False by done. by rewrite decide_True.
  - apply NoDup_cons in Hnd as [Ha Hnd]. destruct l as [|y l]; cbn in *.
    + destruct Hc as [Hnx _]. unfold nx1, upd. split; repeat case_decide; congruence.
    + destruct Hc as (Hnx & Hy & Hc). apply NoDup_cons in Hnd as [Hny Hnd].
      split_and!.
      * unfold nx1, upd. repeat case_decide; congruence.
      * unfold upd. by rewrite decide_True.
      * rewrite Hnx. apply chain_upd_nx; [set_solver|]. apply chain_upd_pv; [set_solver|].
        apply chain_upd_nx; [set_solver|]. apply chain_upd_pv; [set_solver|done].
Qed.
End Chain.

Lemma chain_rev nx pv a l b : chain nx pv a l b -> chain pv nx b (rev l) a.
Proof.
  revert a. induction l as [|x l IH]; intros a; cbn.
  - intros [H1 H2]. done.
  - intros (H1 & H2 & H3). apply chain_app. split; [by apply IH|by cbn].
Qed.

(** ** The cache's list *)

Definition nxt (bc : bcache) (i : nat) : nat := b_next (bufs bc !!! i).
Definition prv (bc : bcache) (i : nat) : nat := b_prev (bufs bc !!! i).

(** The list of the buffers, most recently used first. *)
Record lru (bc : bcache) (l : list nat) : Prop := {
  lru_len : length (bufs bc) = S nbuf;
  lru_nodup : NoDup l;
  lru_all : forall i, i ∈ l <-> (i < nbuf)%nat;
  lru_chain : chain (nxt bc) (prv bc) head l head;
}.

Lemma bc_lookup_alter f i j bc : (i < length (bufs bc))%nat ->
  bufs (bc_alter f i bc) !!! j = if decide (j = i) then f (bufs bc !!! i) else bufs bc !!! j.
Proof.
  intros Hi. cbn. case_decide as E.
  - subst. destruct (lookup_lt_is_Some_2 _ _ Hi) as [b Hb].
    rewrite (list_lookup_total_correct (bufs bc) i b Hb).
    apply list_lookup_total_correct. by rewrite list_lookup_alter_eq, Hb.
  - rewrite !list_lookup_total_alt. by rewrite list_lookup_alter_ne.
Qed.

Lemma bc_alter_length f i bc : length (bufs (bc_alter f i bc)) = length (bufs bc).
Proof. apply length_alter. Qed.

(** Updates that do not touch the pointers keep the list. *)
Lemma lru_alter f i bc l : (forall b, b_next (f b) = b_next b /\ b_prev (f b) = b_prev b) ->
  (i < nbuf)%nat -> lru bc l -> lru (bc_alter f i bc) l.
Proof.
  intros Hf Hi [H1 H2 H3 H4]. split; [by rewrite bc_alter_length|done..|].
  eapply chain_ext; [| |exact H4]; intros k _; unfold nxt, prv; rewrite bc_lookup_alter by lia;
    case_decide; subst; try done; apply Hf.
Qed.

Lemma set_next_ptr v b : b_next (set_next v b) = v /\ b_prev (set_next v b) = b_prev b.
Proof. by destruct b. Qed.
Lemma set_prev_ptr v b : b_prev (set_prev v b) = v /\ b_next (set_prev v b) = b_next b.
Proof. by destruct b. Qed.

Lemma nxt_set_next v i j bc : (i < length (bufs bc))%nat ->
  nxt (bc_alter (set_next v) i bc) j = upd (nxt bc) i v j.
Proof.
  intros Hi. unfold nxt, upd. rewrite bc_lookup_alter by done.
  case_decide; [apply set_next_ptr|done].
Qed.
Lemma nxt_set_prev v i j bc : (i < length (bufs bc))%nat ->
  nxt (bc_alter (set_prev v) i bc) j = nxt bc j.
Proof.
  intros Hi. unfold nxt. rewrite bc_lookup_alter by done.
  case_decide; [subst; apply set_prev_ptr|done].
Qed.
Lemma prv_set_prev v i j bc : (i < length (bufs bc))%nat ->
  prv (bc_alter (set_prev v) i bc) j = upd (prv bc) i v j.
Proof.
  intros Hi. unfold prv, upd. rewrite bc_lookup_alter by done.
  case_decide; [apply set_prev_ptr|done].
Qed.
Lemma prv_set_next v i j bc : (i < length (bufs bc))%nat ->
  prv (bc_alter (set_next v) i bc) j = prv bc j.
Proof.
  intros Hi. unfold prv. rewrite bc_lookup_alter by done.
  case_decide; [subst; apply set_next_ptr|done].
Qed.

Lemma upd_ext f g i v j : (forall k, f k = g k) -> upd f i v j = upd g i v j.
Proof. intros H. unfold upd. by rewrite H. Qed.

(** The cache after b is put in front, and after b is unlinked. *)
Definition bc_push (b : nat) (bc : bcache) : bcache :=
  let bc1 := bc_alter (set_prev head) b (bc_alter (set_next (nxt bc head)) b bc) in
  bc_alter (set_next b) head (bc_alter (set_prev b) (nxt bc1 head) bc1).
Definition bc_unlink (b : nat) (bc : bcache) : bcache :=
  let bc1 := bc_alter (set_prev (prv bc b)) (nxt bc b) bc in
  bc_alter (set_next (nxt bc1 b)) (prv bc1 b) bc1.

Lemma bc_push_chain bc b l : (nbuf < length (bufs bc))%nat -> (b < nbuf)%nat ->
  (forall i, i ∈ l -> (i < nbuf)%nat) -> NoDup l -> b ∉ l ->
  chain (nxt bc) (prv bc) head l head ->
  chain (nxt (bc_push b bc)) (prv (bc_push b bc)) head (b :: l) head.
Proof.
  intros Hlen Hb Hl Hnd Hbl Hc.
  assert (Hh : head ∉ l) by (intros H%Hl; unfold head in H; lia).
  pose proof (chain_push _ _ _ b _ Hc ltac:(by apply NoDup_cons)
    ltac:(unfold head; intros [?|?]%elem_of_cons; [lia|done])) as Hp. cbv zeta in Hp.
  pose proof (chain_next _ _ _ _ _ Hc) as Hn.
  assert (Hnl : (nxt bc head < length (bufs bc))%nat).
  { apply elem_of_cons in Hn as [->|Hn%Hl]; [unfold head; lia|lia]. }
  unfold bc_push. set (bc1 := bc_alter (set_prev head) b _).
  assert (N1 : forall k, nxt bc1 k = upd (nxt bc) b (nxt bc head) k).
  { intros k. unfold bc1. rewrite nxt_set_prev by (rewrite bc_alter_length; lia). apply nxt_set_next. lia. }
  assert (P1 : forall k, prv bc1 k = upd (prv bc) b head k).
  { intros k. unfold bc1. rewrite prv_set_prev by (rewrite bc_alter_length; lia).
    apply upd_ext. intros j. apply prv_set_next. lia. }
  assert (L1 : length (bufs bc1) = length (bufs bc)) by (unfold bc1; by rewrite !bc_alter_length).
  assert (H1 : nxt bc1 head = nxt bc head).
  { rewrite N1. unfold upd, head. by rewrite decide_False by lia. }
  eapply chain_ext; [| |exact Hp]; intros k _.
  - rewrite nxt_set_next by (rewrite bc_alter_length, L1; unfold head; lia).
    apply upd_ext. intros j. rewrite nxt_set_prev by (rewrite H1, L1; lia). apply N1.
  - rewrite prv_set_next by (rewrite bc_alter_length, L1; unfold head; lia).
    rewrite prv_set_prev by (rewrite H1, L1; lia). rewrite <- N1. apply upd_ext. apply P1.
Qed.

Lemma bc_unlink_chain bc l1 b l2 : length (bufs bc) = Datatypes.S nbuf ->
  (forall i, i ∈ l1 ++ b :: l2 -> (i < nbuf)%nat) -> NoDup (l1 ++ b :: l2) ->
  chain (nxt bc) (prv bc) head (l1 ++ b :: l2) head ->
  chain (nxt (bc_unlink b bc)) (prv (bc_unlink b bc)) head (l1 ++ l2) head.
Proof.
  intros Hlen Hl Hnd Hc.
  assert (Hh : head ∉ l1 ++ b :: l2) by (intros H%Hl; unfold head in H; lia).
  pose proof (chain_remove _ _ _ _ _ _ _ Hc ltac:(by apply NoDup_cons) Hh) as Hp.
  pose proof Hc as [Hc1 Hc2]%chain_app.
  assert (Hin : forall k, k = head \/ k ∈ l1 ++ b :: l2 -> (k < length (bufs bc))%nat).
  { intros k [->|Hk%Hl]; unfold head; lia. }
  assert (Hnx : (nxt bc b < length (bufs bc))%nat /\ nxt bc b <> b).
  { pose proof (chain_next _ _ _ _ _ Hc2) as H. apply elem_of_cons in H as [E|H].
    - rewrite E. split; [apply Hin; by left|]. intros <-. apply Hh. set_solver.
    - split; [apply Hin; right; set_solver|]. intros E. rewrite E in H.
      apply NoDup_app in Hnd as (_ & _ & Hnd). apply NoDup_cons in Hnd as [? _]. done. }
  assert (Hpv : (prv bc b < length (bufs bc))%nat).
  { pose proof (chain_prev _ _ _ _ _ Hc1) as H. apply Hin. apply elem_of_cons in H as [->|H];
      [by left|right; set_solver]. }
  unfold bc_unlink. set (bc1 := bc_alter (set_prev _) _ bc).
  assert (Np : prv bc1 b = prv bc b).
  { unfold bc1. rewrite prv_set_prev by apply Hnx. unfold upd. rewrite decide_False; [done|].
    intros E. by destruct Hnx. }
  assert (Nn : forall k, nxt bc1 k = nxt bc k) by (intros k; unfold bc1; apply nxt_set_prev, Hnx).
  assert (L1 : length (bufs bc1) = length (bufs bc)) by apply bc_alter_length.
  rewrite Np, Nn. eapply chain_ext; [| |exact Hp]; intros k _.
  - rewrite nxt_set_next by (rewrite L1; lia). by apply upd_ext.
  - rewrite prv_set_next by (rewrite L1; lia). unfold bc1. apply prv_set_prev, Hnx.
Qed.

(** ** The scans of bget *)

(** The first element of a list of buffers that satisfies a test. *)
Fixpoint first_buf (P : nat -> bool) (l : list nat) : option nat :=
  match l with
  | [] => None
  | i :: l' => if P i then Some i else first_buf P l'
  end.

Lemma first_buf_Some P l i : first_buf P l = Some i -> i ∈ l /\ P i = true.
Proof.
  induction l as [|x l IH]; cbn; [done|]. destruct (P x) eqn:E.
  - intros [= <-]. set_solver.
  - intros H%IH. set_solver.
Qed.
Lemma first_buf_None P l : first_buf P l = None -> forall i, i ∈ l -> P i = false.
Proof.
  induction l as [|x l IH]; cbn; [set_solver|]. destruct (P x) eqn:E; [done|].
  intros H i [->|Hi]%elem_of_cons; [done|by apply IH].
Qed.

(** The buffer caches the block. *)
Definition is_block (bc : bcache) (dev blockno : Z) (i : nat) : bool :=
  (b_dev (bufs bc !!! i) =? dev) && (b_blockno (bufs bc !!! i) =? blockno).
Definition is_unused (bc : bcache) (i : nat) : bool := b_refcnt (bufs bc !!! i) =? 0.

Section Scan.
Implicit Types (w : world kstate).

Lemma get_buf_run i w : get_buf i w = Ok (bufs (compc (T := bcache) w) !!! i, w).
Proof. done. Qed.
Lemma upd_buf_run f i w : upd_buf f i w = Ok ((), updc (bc_alter f i (compc (T := bcache) w)) w).
Proof. done. Qed.

Lemma find_cached_loop dev blockno a l fuel w :
  chain (nxt (compc w)) (prv (compc w)) a l head -> head ∉ l -> (length l < fuel)%nat ->
  loop fuel (find_cached dev blockno) (nxt (compc w) a) w =
  Ok (first_buf (is_block (compc w) dev blockno) l, w).
Proof.
  revert a fuel. induction l as [|x l IH]; intros a [|fuel] Hc Hh Hf; cbn [length] in *; try lia;
    cbn [chain] in Hc.
  - destruct Hc as [-> _]. apply loop_exit. unfold find_cached. by rewrite bool_decide_true.
  - destruct Hc as (-> & _ & Hc). cbn [first_buf]. unfold is_block at 1.
    assert (x <> head) by set_solver.
    destruct (_ && _) eqn:E.
    + apply loop_exit. unfold find_cached. rewrite bool_decide_false by done.
      rewrite (bind_Ok _ _ _ _ _ (get_buf_run _ _)). by rewrite E.
    + rewrite <- (IH x fuel); [|done|set_solver|lia]. apply loop_next.
      unfold find_cached. rewrite bool_decide_false by done.
      rewrite (bind_Ok _ _ _ _ _ (get_buf_run _ _)). by rewrite E.
Qed.

Lemma find_unused_loop a l fuel w :
  chain (prv (compc w)) (nxt (compc w)) a l head -> head ∉ l -> (length l < fuel)%nat ->
  loop fuel find_unused (prv (compc w) a) w = Ok (first_buf (is_unused (compc w)) l, w).
Proof.
  revert a fuel. induction l as [|x l IH]; intros a [|fuel] Hc Hh Hf; cbn [length] in *; try lia;
    cbn [chain] in Hc.
  - destruct Hc as [-> _]. apply loop_exit. unfold find_unused. by rewrite bool_decide_true.
  - destruct Hc as (-> & _ & Hc). cbn [first_buf]. unfold is_unused at 1.
    assert (x <> head) by set_solver.
    destruct (_ =? 0) eqn:E.
    + apply loop_exit. unfold find_unused. rewrite bool_decide_false by done.
      rewrite (bind_Ok _ _ _ _ _ (get_buf_run _ _)). by rewrite E.
    + rewrite <- (IH x fuel); [|done|set_solver|lia]. apply loop_next.
      unfold find_unused. rewrite bool_decide_false by done.
      rewrite (bind_Ok _ _ _ _ _ (get_buf_run _ _)). by rewrite E.
Qed.

Lemma lru_head bc l : lru bc l -> head ∉ l.
Proof. intros H Hin. apply (lru_all _ _ H) in Hin. unfold head in Hin. lia. Qed.
Lemma lru_length bc l : lru bc l -> length l = nbuf.
Proof.
  intros H. transitivity (length (seq 0 nbuf)); [|apply length_seq].
  apply Permutation_length, NoDup_Permutation; [apply H|apply NoDup_seq|].
  intros i. rewrite (lru_all _ _ H), elem_of_seq. lia.
Qed.

Lemma scan_cached dev blockno w l : lru (compc w) l ->
  loop (Datatypes.S nbuf) (find_cached dev blockno) (b_next (bufs (compc w) !!! head)) w =
  Ok (first_buf (is_block (compc w) dev blockno) l, w).
Proof.
  intros H. apply (find_cached_loop dev blockno head l).
  - apply H.
  - by eapply lru_head.
  - rewrite (lru_length _ _ H). lia.
Qed.

Lemma scan_unused w l : lru (compc w) l ->
  loop (Datatypes.S nbuf) find_unused (b_prev (bufs (compc w) !!! head)) w =
  Ok (first_buf (is_unused (compc w)) (rev l), w).
Proof.
  intros H. apply (find_unused_loop head (rev l)).
  - apply chain_rev, H.
  - rewrite list_elem_of_In, <- in_rev, <- list_elem_of_In. by eapply lru_head.
  - rewrite length_rev, (lru_length _ _ H). lia.
Qed.
End Scan.

(** The buffer bget chooses and what it makes of it: the cached one, or the
    least recently used one that nobody uses. *)
Definition bget_choice (bc : bcache) (l : list nat) (dev blockno : Z) : option (nat * (buf -> buf)) :=
  match first_buf (is_block bc dev blockno) l with
  | Some b => Some (b, set_refcnt (u32 (b_refcnt (bufs bc !!! b) + 1)))
  | None =>
      match first_buf (is_unused bc) (rev l) with
      | Some b => Some (b, set_refcnt 1 ∘ set_valid 0 ∘ set_ident dev blockno)
      | None => None
      end
  end.

(** The sleep lock [l] is taken by the running process. *)
Definition take_sl (l : lock) (w : world kstate) : sltab :=
  <[l := Sleeplock 1 (sl_name (compc (T := sltab) w !!! l)) (cur_pid w)]> (compc (T := sltab) w).

Section Spec.
Context {SC : Sched} {VD : VirtioDisk}.
Implicit Types (w : world kstate).

(** All spin locks of the cache are free. *)
Definition bio_unlocked w : Prop :=
  lock_free L_bcache w /\ lock_free L_vdisk w /\ forall i, (i < nbuf)%nat -> lock_free (L_buf i) w.

Lemma bget_tail b (bc : bcache) w : quiet w -> bio_unlocked w -> (b < nbuf)%nat -> (0 < wakeups)%nat ->
  sl_locked (compc (T := sltab) w !!! L_buf b) = 0 ->
  (release L_bcache ;; acquiresleep (L_buf b) ;; mret b) (acq L_bcache (updc bc w)) =
  Ok (b, touch (updc (take_sl (L_buf b) w) (updc bc w))).
Proof.
  intros Hq (Hb & _ & Hbl) Hlt Hw H0. krelease. pose proof (Hbl b Hlt).
  erewrite bind_Ok; [|apply acquiresleep_run; eauto with xv6; by kother]. cbv beta.
  knorm. kother. by rewrite cur_pid_touch, cur_pid_updc.
Qed.

Lemma bc_alter_compose f g i bc : bc_alter f i (bc_alter g i bc) = bc_alter (f ∘ g) i bc.
Proof.
  unfold bc_alter; cbn. f_equal. apply list_eq. intros j. destruct (decide (i = j)) as [<-|].
  - rewrite !list_lookup_alter_eq. by destruct (bufs bc !! i).
  - by rewrite !list_lookup_alter_ne.
Qed.

Lemma bget_run dev blockno w l : quiet w -> bio_unlocked w -> lru (compc w) l -> (0 < wakeups)%nat ->
  match bget_choice (compc w) l dev blockno with
  | Some (b, f) =>
      sl_locked (compc (T := sltab) w !!! L_buf b) = 0 ->
      bget dev blockno w = Ok (b, touch (updc (take_sl (L_buf b) w) (updc (bc_alter f b (compc w)) w)))
  | None => bget dev blockno w = Panic "bget: no buffers"
  end.
Proof.
  intros Hq Hbu Hlru Hw. pose proof Hbu as (Hb & _ & Hbl). unfold bget, bget_choice.
  assert (Hin : forall i, i ∈ l -> (i < nbuf)%nat) by (intros i; apply (lru_all _ _ Hlru)).
  assert (E0 : forall (A : Type) (f : () -> K kstate A), (x ← acquire L_bcache; f x) w = f () (acq L_bcache w)).
  { intros A f. by kacquire. }
  rewrite E0, (bind_Ok _ _ _ _ _ (get_buf_run _ _)).
  rewrite (bind_Ok _ _ _ _ _ (scan_cached dev blockno (acq L_bcache w) l Hlru)).
  change (compc (acq L_bcache w)) with (compc (T := bcache) w).
  destruct (first_buf (is_block _ _ _) l) as [b|] eqn:E1.
  - intros H0. apply first_buf_Some in E1 as [Hbl1%Hin _].
    rewrite (bind_Ok _ _ _ _ _ (get_buf_run _ _)), (bind_Ok _ _ _ _ _ (upd_buf_run _ _ _)). knorm.
    by apply bget_tail.
  - rewrite (bind_Ok _ _ _ _ _ (get_buf_run _ _)).
    rewrite (bind_Ok _ _ _ _ _ (scan_unused (acq L_bcache w) l Hlru)).
    change (compc (acq L_bcache w)) with (compc (T := bcache) w).
    destruct (first_buf (is_unused _) (rev l)) as [b|] eqn:E2; [|done].
    intros H0. apply first_buf_Some in E2 as [Hb2 _].
    rewrite list_elem_of_In, <- in_rev, <- list_elem_of_In in Hb2.
    do 3 rewrite (bind_Ok _ _ _ _ _ (upd_buf_run _ _ _)). knorm.
    rewrite !bc_alter_compose. apply bget_tail; auto.
Qed.

(** The running process holds the sleep lock of buffer [b]. *)
Definition holds_buf w (b : nat) : Prop :=
  let s := compc (T := sltab) w !!! L_buf b in sl_locked s <> 0 /\ sl_pid s = cur_pid w.

Definition drop_sl (l : lock) (t : sltab) : sltab := <[l := Sleeplock 0 (sl_name (t !!! l)) 0]> t.

(** The cache after brelse: the count goes down, and a buffer that nobody uses
    any more moves to the front. *)
Definition brelse_bc (b : nat) (bc : bcache) : bcache :=
  let bc1 := bc_alter (set_refcnt (u32 (b_refcnt (bufs bc !!! b) - 1))) b bc in
  if b_refcnt (bufs bc1 !!! b) =? 0 then bc_push b (bc_unlink b bc1) else bc1.

Lemma link_run b w :
  (link_front b ;; link_front2 b) w = Ok ((), updc (bc_push b (compc w)) w).
Proof.
  unfold link_front, link_front2. rewrite bind_assoc, (bind_Ok _ _ _ _ _ (get_buf_run _ _)), bind_assoc,
    !(bind_Ok _ _ _ _ _ (upd_buf_run _ _ _)). knorm.
  rewrite (bind_Ok _ _ _ _ _ (get_buf_run _ _)), (bind_Ok _ _ _ _ _ (upd_buf_run _ _ _)), upd_buf_run.
  by knorm.
Qed.

Lemma brelse_bc_run b w bc : quiet w -> lock_free L_bcache w -> compc w = bc ->
  (acquire L_bcache ;;
    x ← get_buf b;
    upd_buf (set_refcnt (u32 (b_refcnt x - 1))) b ;;
    x ← get_buf b;
    (if b_refcnt x =? 0 then
       upd_buf (set_prev (b_prev x)) (b_next x) ;;
       x ← get_buf b;
       upd_buf (set_next (b_next x)) (b_prev x) ;;
       link_front b ;;
       link_front2 b
     else mret ()) ;;
    release L_bcache) w = Ok ((), touch (updc (brelse_bc b bc) w)).
Proof.
  intros Hq Hb <-. kacquire. unfold brelse_bc.
  rewrite (bind_Ok _ _ _ _ _ (get_buf_run _ _)), (bind_Ok _ _ _ _ _ (upd_buf_run _ _ _)),
    (bind_Ok _ _ _ _ _ (get_buf_run _ _)). knorm.
  set (bc1 := bc_alter _ _ _). destruct (_ =? 0).
  - rewrite bind_assoc, (bind_Ok _ _ _ _ _ (upd_buf_run _ _ _)), bind_assoc,
      (bind_Ok _ _ _ _ _ (get_buf_run _ _)), bind_assoc, (bind_Ok _ _ _ _ _ (upd_buf_run _ _ _)). knorm.
    rewrite (bind_Ok _ _ _ _ _ (link_run _ _)). knorm. apply release_acq; eauto with xv6.
  - rewrite bind_mret. apply release_acq; eauto with xv6.
Qed.

Lemma brelse_run b w : quiet w -> bio_unlocked w -> (b < nbuf)%nat -> holds_buf w b ->
  brelse b w =
  Ok ((), touch (updc (brelse_bc b (compc w)) (updc (tab_map (woken (Ch_buflock b)) (compc w))
          (updc (drop_sl (L_buf b) (compc w)) w)))).
Proof.
  intros Hq (Hb & _ & Hbl) Hlt [H1 H2]. pose proof (Hbl b Hlt) as Hl. unfold brelse.
  rewrite (bind_Ok _ _ _ _ _ (holdingsleep_run (L_buf b) w Hq Hl I)).
  rewrite (proj2 (Z.eqb_neq (sl_locked _) 0) H1), H2, Z.eqb_refl. cbn [negb andb Z.eqb].
  krun releasesleep_run. rewrite (brelse_bc_run _ _ (compc w)).
  - by knorm.
  - eauto 10 with xv6.
  - eauto with xv6.
  - by kother.
Qed.

Lemma brelse_panic b w : quiet w -> bio_unlocked w -> (b < nbuf)%nat -> ~ holds_buf w b ->
  brelse b w = Panic "brelse".
Proof.
  intros Hq (Hb & _ & Hbl) Hlt Hn. pose proof (Hbl b Hlt) as Hl. unfold brelse.
  rewrite (bind_Ok _ _ _ _ _ (holdingsleep_run (L_buf b) w Hq Hl I)).
  destruct (Z.eqb_spec (sl_locked (compc w !!! L_buf b)) 0) as [E1|E1]; [done|].
  destruct (Z.eqb_spec (sl_pid (compc w !!! L_buf b)) (cur_pid w)) as [E2|E2]; [|done].
  exfalso. by apply Hn.
Qed.

Lemma bpin_run b w : quiet w -> lock_free L_bcache w ->
  bpin b w = Ok ((), touch (updc
    (bc_alter (set_refcnt (u32 (b_refcnt (bufs (compc w) !!! b) + 1))) b (compc w)) w)).
Proof.
  intros Hq Hb. unfold bpin. kacquire.
  rewrite (bind_Ok _ _ _ _ _ (get_buf_run _ _)), (bind_Ok _ _ _ _ _ (upd_buf_run _ _ _)). knorm.
  apply release_acq; eauto with xv6.
Qed.
Lemma bunpin_run b w : quiet w -> lock_free L_bcache w ->
  bunpin b w = Ok ((), touch (updc
    (bc_alter (set_refcnt (u32 (b_refcnt (bufs (compc w) !!! b) - 1))) b (compc w)) w)).
Proof.
  intros Hq Hb. unfold bunpin. kacquire.
  rewrite (bind_Ok _ _ _ _ _ (get_buf_run _ _)), (bind_Ok _ _ _ _ _ (upd_buf_run _ _ _)). knorm.
  apply release_acq; eauto with xv6.
Qed.

End Spec.
