(* ===== verification/Virtio.v ===== *)
(** * kernel/virtio_disk.c

    The driver of the virtio block device: its three-descriptor requests, the
    free list of descriptors, the available and used rings.  The device is not
    kernel code: what its registers answer is given by [VirtioHw]; it writes
    [vd_used], [vd_used_id] and the status bytes while the driver sleeps. *)
From stdpp Require Import prelude gmap strings.
From Stdlib Require Import ZArith Lia.
From S2P Require Import Prelude Memory Spinlock Riscv Kalloc Proc Bytes State Sleeplock Bio.
Open Scope Z_scope.

(** ** virtio.h *)
Definition VIRTIO_MMIO_MAGIC_VALUE : Z := 0x000.
Definition VIRTIO_MMIO_VERSION : Z := 0x004.
Definition VIRTIO_MMIO_DEVICE_ID : Z := 0x008.
Definition VIRTIO_MMIO_VENDOR_ID : Z := 0x00c.
Definition VIRTIO_MMIO_DEVICE_FEATURES : Z := 0x010.
Definition VIRTIO_MMIO_DRIVER_FEATURES : Z := 0x020.
Definition VIRTIO_MMIO_GUEST_PAGE_SIZE : Z := 0x028.
Definition VIRTIO_MMIO_QUEUE_SEL : Z := 0x030.
Definition VIRTIO_MMIO_QUEUE_NUM_MAX : Z := 0x034.
Definition VIRTIO_MMIO_QUEUE_NUM : Z := 0x038.
Definition VIRTIO_MMIO_QUEUE_PFN : Z := 0x040.
Definition VIRTIO_MMIO_QUEUE_NOTIFY : Z := 0x050.
Definition VIRTIO_MMIO_INTERRUPT_STATUS : Z := 0x060.
Definition VIRTIO_MMIO_INTERRUPT_ACK : Z := 0x064.
Definition VIRTIO_MMIO_STATUS : Z := 0x070.
Definition VIRTIO_CONFIG_S_ACKNOWLEDGE : Z := 1.
Definition VIRTIO_CONFIG_S_DRIVER : Z := 2.
Definition VIRTIO_CONFIG_S_DRIVER_OK : Z := 4.
Definition VIRTIO_CONFIG_S_FEATURES_OK : Z := 8.
(** The feature bits the driver turns down. *)
Definition VIRTIO_BLK_F_RO : Z := 5.
Definition VIRTIO_BLK_F_SCSI : Z := 7.
Definition VIRTIO_BLK_F_CONFIG_WCE : Z := 11.
Definition VIRTIO_BLK_F_MQ : Z := 12.
Definition VIRTIO_F_ANY_LAYOUT : Z := 27.
Definition VIRTIO_RING_F_INDIRECT_DESC : Z := 28.
Definition VIRTIO_RING_F_EVENT_IDX : Z := 29.
Definition VRING_DESC_F_NEXT : Z := 1.
Definition VRING_DESC_F_WRITE : Z := 2.
Definition VIRTIO_BLK_T_IN : Z := 0.
Definition VIRTIO_BLK_T_OUT : Z := 1.

(** Reads of the device's registers. *)
Class VirtioHw := { mmio_read : Z -> K kstate Z }.

Definition num : nat := Z.to_nat NUM.

Definition get_vd : K kstate vdisk := getD.
Definition upd_vd (f : vdisk -> vdisk) : K kstate () := v ← get_vd; putD (f v).
Definition set_desc (f : VRingDesc -> VRingDesc) (i : nat) (v : vdisk) : vdisk :=
  Vdisk (alter f i (vd_desc v)) (vd_avail_idx v) (vd_avail v) (vd_used_id v) (vd_used v) (vd_free v) (vd_used_idx v)
    (vd_info v) (vd_mmio v).
Definition set_avail (k : nat) (x : Z) (v : vdisk) : vdisk :=
  Vdisk (vd_desc v) (vd_avail_idx v) (<[k := x]> (vd_avail v)) (vd_used_id v) (vd_used v) (vd_free v) (vd_used_idx v)
    (vd_info v) (vd_mmio v).
Definition set_avail_idx (x : Z) (v : vdisk) : vdisk :=
  Vdisk (vd_desc v) x (vd_avail v) (vd_used_id v) (vd_used v) (vd_free v) (vd_used_idx v) (vd_info v) (vd_mmio v).
Definition set_free (i : nat) (x : Z) (v : vdisk) : vdisk :=
  Vdisk (vd_desc v) (vd_avail_idx v) (vd_avail v) (vd_used_id v) (vd_used v) (<[i := x]> (vd_free v)) (vd_used_idx v)
    (vd_info v) (vd_mmio v).
Definition set_used_idx (x : Z) (v : vdisk) : vdisk :=
  Vdisk (vd_desc v) (vd_avail_idx v) (vd_avail v) (vd_used_id v) (vd_used v) (vd_free v) x (vd_info v) (vd_mmio v).
Definition set_info (f : vinfo -> vinfo) (i : nat) (v : vdisk) : vdisk :=
  Vdisk (vd_desc v) (vd_avail_idx v) (vd_avail v) (vd_used_id v) (vd_used v) (vd_free v) (vd_used_idx v)
    (alter f i (vd_info v)) (vd_mmio v).
Definition add_mmio (r x : Z) (v : vdisk) : vdisk :=
  Vdisk (vd_desc v) (vd_avail_idx v) (vd_avail v) (vd_used_id v) (vd_used v) (vd_free v) (vd_used_idx v)
    (vd_info v) ((r, x) :: vd_mmio v).
Definition mmio_write (r x : Z) : K kstate () := upd_vd (add_mmio r (u32 x)).

Section Virtio.
Context {SC : Sched} {HW : VirtioHw}.

(** [features &= ~(1 << b)] *)
Definition clear_bit (features b : Z) : Z := Z.land features (Z.lnot (Z.shiftl 1 b)).

(** [pages] is the address of the page-aligned array [disk.pages]. *)
Definition virtio_disk_init (pages : Z) : K kstate () :=
  initlock L_vdisk "virtio_disk" ;;
  magic ← mmio_read VIRTIO_MMIO_MAGIC_VALUE;
  version ← mmio_read VIRTIO_MMIO_VERSION;
  id ← mmio_read VIRTIO_MMIO_DEVICE_ID;
  vendor ← mmio_read VIRTIO_MMIO_VENDOR_ID;
  if negb (magic =? 0x74726976) || negb (version =? 1) || negb (id =? 2) || negb (vendor =? 0x554d4551)
  then panic "could not find virtio disk"
  else
    let s1 := VIRTIO_CONFIG_S_ACKNOWLEDGE in
    mmio_write VIRTIO_MMIO_STATUS s1 ;;
    let s2 := Z.lor s1 VIRTIO_CONFIG_S_DRIVER in
    mmio_write VIRTIO_MMIO_STATUS s2 ;;
    features ← mmio_read VIRTIO_MMIO_DEVICE_FEATURES;
    mmio_write VIRTIO_MMIO_DRIVER_FEATURES
      (foldl clear_bit features [VIRTIO_BLK_F_RO; VIRTIO_BLK_F_SCSI; VIRTIO_BLK_F_CONFIG_WCE; VIRTIO_BLK_F_MQ;
         VIRTIO_F_ANY_LAYOUT; VIRTIO_RING_F_EVENT_IDX; VIRTIO_RING_F_INDIRECT_DESC]) ;;
    let s3 := Z.lor s2 VIRTIO_CONFIG_S_FEATURES_OK in
    mmio_write VIRTIO_MMIO_STATUS s3 ;;
    let s4 := Z.lor s3 VIRTIO_CONFIG_S_DRIVER_OK in
    mmio_write VIRTIO_MMIO_STATUS s4 ;;
    mmio_write VIRTIO_MMIO_GUEST_PAGE_SIZE PGSIZE ;;
    mmio_write VIRTIO_MMIO_QUEUE_SEL 0 ;;
    max ← mmio_read VIRTIO_MMIO_QUEUE_NUM_MAX;
    if max =? 0 then panic "virtio disk has no queue 0"
    else if max <? NUM then panic "virtio disk max queue too short"
    else
      mmio_write VIRTIO_MMIO_QUEUE_NUM NUM ;;
      upd_vd (fun v => Vdisk (repeat desc0 num) 0 (repeat 0 num) 0 (repeat 0 num) (vd_free v) (vd_used_idx v)
                        (vd_info v) (vd_mmio v)) ;;
      mmio_write VIRTIO_MMIO_QUEUE_PFN (Z.shiftr pages 12) ;;
      for_each (seq 0 num) (fun i => upd_vd (set_free i 1)).

Definition alloc_desc : K kstate Z :=
  r ← for_break (seq 0 num) (fun i =>
        v ← get_vd;
        if negb (vd_free v !!! i =? 0) then upd_vd (set_free i 0) ;; mret (Some (Z.of_nat i)) else mret None);
  mret (default (-1) r).

Definition free_desc (i : Z) : K kstate () :=
  if i >=? NUM then panic "virtio_disk_intr 1"
  else
    v ← get_vd;
    if negb (vd_free v !!! Z.to_nat i =? 0) then panic "virtio_disk_intr 2"
    else
      upd_vd (set_desc (fun d => Vringdesc DA_null (vr_len d) (vr_flags d) (vr_next d)) (Z.to_nat i)) ;;
      upd_vd (set_free (Z.to_nat i) 1) ;;
      wakeup Ch_vdesc.

(** At most NUM descriptors are in a chain: a second visit panics. *)
Definition free_chain_body (i : Z) : K kstate (Z + ()) :=
  free_desc i ;;
  v ← get_vd;
  let d := vd_desc v !!! Z.to_nat i in
  if negb (Z.land (vr_flags d) VRING_DESC_F_NEXT =? 0) then mret (inl (vr_next d)) else mret (inr ()).
Definition free_chain (i : Z) : K kstate () := loop (S num) free_chain_body i.

(** [None] is -1. *)
Definition alloc3_desc : K kstate (option (Z * Z * Z)) :=
  i0 ← alloc_desc;
  if i0 <? 0 then mret None
  else
    i1 ← alloc_desc;
    if i1 <? 0 then free_desc i0 ;; mret None
    else
      i2 ← alloc_desc;
      if i2 <? 0 then free_desc i0 ;; free_desc i1 ;; mret None
      else mret (Some (i0, i1, i2)).

Definition wait_desc_body (_ : ()) : K kstate (() + (Z * Z * Z)) :=
  r ← alloc3_desc;
  match r with
  | Some idx => mret (inr idx)
  | None => sleep resume Ch_vdesc L_vdisk ;; mret (inl ())
  end.

(** Fill in the three descriptors and hand the chain to the device. *)
Definition submit (b : nat) (write : bool) (idx : Z * Z * Z) : K kstate () :=
  let '(i0, i1, i2) := idx in
  x ← get_buf b;
  let sector := u32 (b_blockno x * (BSIZE / 512)) in
  let type := if write then VIRTIO_BLK_T_OUT else VIRTIO_BLK_T_IN in
  upd_vd (set_desc (fun _ => Vringdesc (DA_header type sector) 16 VRING_DESC_F_NEXT i1) (Z.to_nat i0)) ;;
  upd_vd (set_desc (fun _ => Vringdesc (DA_data b) BSIZE
    (Z.lor (if write then 0 else VRING_DESC_F_WRITE) VRING_DESC_F_NEXT) i2) (Z.to_nat i1)) ;;
  upd_vd (set_info (fun x => Vinfo (vi_b x) 0) (Z.to_nat i0)) ;;
  upd_vd (set_desc (fun _ => Vringdesc (DA_status (Z.to_nat i0)) 1 VRING_DESC_F_WRITE 0) (Z.to_nat i2)) ;;
  upd_buf (set_disk_own 1) b ;;
  upd_vd (set_info (fun x => Vinfo (Some b) (vi_status x)) (Z.to_nat i0)) ;;
  v ← get_vd;
  upd_vd (set_avail (Z.to_nat (vd_avail_idx v mod NUM)) (u16 i0)) ;;
  v ← get_vd;
  upd_vd (set_avail_idx (u16 (vd_avail_idx v + 1))) ;;
  mmio_write VIRTIO_MMIO_QUEUE_NOTIFY 0.

(** The request is over: forget the buffer and give back the descriptors. *)
Definition rw_finish (i0 : Z) : K kstate () :=
  upd_vd (set_info (fun x => Vinfo None (vi_status x)) (Z.to_nat i0)) ;;
  free_chain i0.

Definition driver_rw (b : nat) (write : bool) : K kstate () :=
  acquire L_vdisk ;;
  idx ← loop wakeups wait_desc_body ();
  submit b write idx ;;
  let '(i0, _, _) := idx in
  sleep_while (x ← get_buf b; mret (b_disk x =? 1)) (Ch_buf b) L_vdisk ;;
  rw_finish i0 ;;
  release L_vdisk.

Definition virtio_disk_intr_body (_ : ()) : K kstate (() + ()) :=
  v ← get_vd;
  if negb (vd_used_idx v mod NUM =? vd_used_id v mod NUM) then
    let id := Z.to_nat (vd_used v !!! Z.to_nat (vd_used_idx v)) in
    if negb (vi_status (vd_info v !!! id) =? 0) then panic "virtio_disk_intr status"
    else
      match vi_b (vd_info v !!! id) with
      | None => panic "kerneltrap"
      | Some b =>
          upd_buf (set_disk_own 0) b ;;
          wakeup (Ch_buf b) ;;
          upd_vd (fun v => set_used_idx ((vd_used_idx v + 1) mod NUM) v) ;;
          mret (inl ())
      end
  else mret (inr ()).
Definition virtio_disk_intr : K kstate () :=
  acquire L_vdisk ;;
  loop (S num) virtio_disk_intr_body () ;;
  s ← mmio_read VIRTIO_MMIO_INTERRUPT_STATUS;
  mmio_write VIRTIO_MMIO_INTERRUPT_ACK (Z.land s 3) ;;
  release L_vdisk.
End Virtio.
