(* ===== verification/VirtioSpec.v ===== *)
(** * The descriptor rings of the disk driver

    The code of virtio_disk.c between acquire and release of vdisk_lock, as
    operations on the rings: allocation and release of descriptors, handing a chain
    to the device, the interrupt handler.  Then the driver, the device and the
    interrupt as a transition system ([vstep]): any number of threads start and finish
    requests, the device takes chains from the available ring and completes them in
    any order, interrupts come at any time.  An invariant ties the rings to four
    queues of requests and shows that nothing panics, that descriptors are neither
    lost nor shared, and that a finished request has moved its block exactly once. *)
From stdpp Require Import prelude gmap strings.
From Stdlib Require Import ZArith Lia.
From S2P Require Import Prelude Memory Spinlock Riscv Kalloc Proc Bytes State Sleeplock Bio Virtio.
Open Scope Z_scope.

(** ** Code under vdisk_lock *)

(** The parts of the state that the driver changes. *)
Definition up (v : vdisk) (c : bcache) (t : proctab) (w : world kstate) : world kstate :=
  World (tp w) (harts w) (locks w) (set_tab t (set_bc c (set_vd v (data w)))).

(** Inside the critical section. *)
Definition crit (v : vdisk) (c : bcache) (t : proctab) (w : world kstate) : world kstate :=
  acq L_vdisk (up v c t w).

Lemma up_id w : up (ks_vd (data w)) (ks_bc (data w)) (ks_tab (data w)) w = w.
Proof. by destruct w as [? ? ? []]. Qed.
Lemma up_up v c t v' c' t' w : up v c t (up v' c' t' w) = up v c t w.
Proof. done. Qed.

Definition free_bits (l : list Z) : Prop := length l = num /\ Forall (fun x => x = 0 \/ x = 1) l.

(** The first free descriptor at or after [i]. *)
Fixpoint find_free (i : nat) (l : list Z) : option nat :=
  match l with
  | [] => None
  | x :: l' => if x =? 0 then find_free (S i) l' else Some i
  end.

Lemma find_free_Some i l k : find_free i l = Some k -> exists j x, k = (i + j)%nat /\ l !! j = Some x /\ x <> 0.
Proof.
  revert i. induction l as [|x l IH]; intros i H; [done|]. cbn in H.
  destruct (Z.eqb_spec x 0) as [->|Hx].
  - destruct (IH _ H) as (j & y & -> & E & Hy). exists (S j), y. split_and!; [lia|done..].
  - injection H as <-. exists 0%nat, x. split_and!; [lia|done..].
Qed.
Lemma find_free_None i l : find_free i l = None -> Forall (fun x => x = 0) l.
Proof.
  revert i. induction l as [|x l IH]; intros i H; [constructor|]. cbn in H.
  destruct (Z.eqb_spec x 0) as [->|Hx]; [|done]. constructor; [done|by eapply IH].
Qed.

(** The number of free descriptors. *)
Definition nfree (l : list Z) : nat := length (filter (fun x => x <> 0) l).

Lemma nfree_0 l : Forall (fun x => x = 0) l -> nfree l = 0%nat.
Proof.
  unfold nfree. induction 1 as [|x l Hx _ IH]; [done|]. by rewrite filter_cons_False by (intros H; by apply H).
Qed.
Lemma nfree_take i l : l !! i = Some 1 -> nfree l = S (nfree (<[i := 0]> l)).
Proof.
  unfold nfree. revert i. induction l as [|x l IH]; intros [|i] H; [done..| |].
  - injection H as ->. by rewrite filter_cons_True by done.
  - cbn [insert list_insert]. rewrite !filter_cons. destruct (decide (x <> 0)); cbn [length]; by rewrite <- IH.
Qed.
Lemma nfree_give i l : l !! i = Some 0 -> nfree (<[i := 1]> l) = S (nfree l).
Proof.
  intros H. rewrite (nfree_take i (<[i:=1]> l)).
  - by rewrite list_insert_insert_eq, list_insert_id.
  - apply list_lookup_insert_eq. by eapply lookup_lt_Some.
Qed.

Lemma free_bits_insert i x l : free_bits l -> x = 0 \/ x = 1 -> free_bits (<[i := x]> l).
Proof.
  intros [H1 H2] Hx. split; [by rewrite length_insert|]. by apply Forall_insert.
Qed.

(** A descriptor found is free, and the only way to find none is that none is. *)
Lemma find_free_bits l : free_bits l ->
  match find_free 0 l with
  | Some k => l !! k = Some 1 /\ (k < num)%nat
  | None => nfree l = 0%nat
  end.
Proof.
  intros [H1 H2]. destruct (find_free 0 l) as [k|] eqn:E.
  - destruct (find_free_Some _ _ _ E) as (j & x & -> & Ej & Hx). cbn.
    destruct (Forall_lookup_1 _ _ _ _ H2 Ej) as [-> | ->]; [done|]. split; [done|].
    rewrite <- H1. by eapply lookup_lt_Some.
  - by eapply nfree_0, find_free_None.
Qed.
#[export] Hint Resolve free_bits_insert : xv6.

Section Runs.
Context {SC : Sched}.
Implicit Types (v : vdisk) (c : bcache) (t : proctab) (w : world kstate).

Lemma get_vd_run v c t w : get_vd (crit v c t w) = Ok (v, crit v c t w).
Proof. done. Qed.
Lemma upd_vd_run f v c t w : upd_vd f (crit v c t w) = Ok ((), crit (f v) c t w).
Proof. done. Qed.
Lemma mmio_write_run r x v c t w : mmio_write r x (crit v c t w) = Ok ((), crit (add_mmio r (u32 x) v) c t w).
Proof. done. Qed.
Lemma get_buf_crit i v c t w : get_buf i (crit v c t w) = Ok (bufs c !!! i, crit v c t w).
Proof. done. Qed.
Lemma upd_buf_crit f i v c t w : upd_buf f i (crit v c t w) = Ok ((), crit v (bc_alter f i c) t w).
Proof. done. Qed.

(** The code runs in a world that is quiet apart from vdisk_lock. *)
Definition ready (w : world kstate) : Prop := quiet w /\ lock_free L_vdisk w.

Lemma wakeup_crit chan v c t w : ready w -> length (procs t) = nproc ->
  wakeup chan (crit v c t w) = Ok ((), crit v c (tab_map (woken chan) t) w).
Proof.
  intros [Hq _] Hn. unfold crit. destruct Hq as [Hc _ Hu].
  assert (Hc' : cpu_ok (up v c t w)) by done.
  rewrite wakeup_run; [|by apply cpu_ok_acq|by apply procs_unlocked_acq|done].
  rewrite compc_acq. change (compc (up v c t w)) with t. rewrite updc_acq. by rewrite touch_acq.
Qed.

Lemma alloc_desc_loop n i v c t w : (i + n = num)%nat -> length (vd_free v) = num ->
  for_break (seq i n) (fun i =>
    v ← get_vd;
    if negb (vd_free v !!! i =? 0) then upd_vd (set_free i 0) ;; mret (Some (Z.of_nat i)) else mret None)
    (crit v c t w)
  = match find_free i (drop i (vd_free v)) with
    | Some k => Ok (Some (Z.of_nat k), crit (set_free k 0 v) c t w)
    | None => Ok (None, crit v c t w)
    end.
Proof.
  revert i. induction n as [|n IH]; intros i Hi Hl; cbn [seq for_break].
  - rewrite drop_ge by lia. done.
  - destruct (lookup_lt_is_Some_2 (vd_free v) i) as [x Hx]; [lia|].
    rewrite (drop_S _ _ _ Hx). cbn [find_free].
    rewrite bind_assoc, (bind_Ok _ _ _ _ _ (get_vd_run v c t w)).
    rewrite (list_lookup_total_correct _ _ _ Hx). destruct (x =? 0); cbn [negb].
    + rewrite bind_mret. by apply IH; [lia|].
    + done.
Qed.

Lemma alloc_desc_run v c t w : length (vd_free v) = num ->
  alloc_desc (crit v c t w) =
  match find_free 0 (vd_free v) with
  | Some k => Ok (Z.of_nat k, crit (set_free k 0 v) c t w)
  | None => Ok (-1, crit v c t w)
  end.
Proof.
  intros Hl. unfold alloc_desc. unfold mbind at 1, M_bind at 1.
  rewrite (alloc_desc_loop num 0) by done. rewrite drop_0. by destruct (find_free 0 (vd_free v)).
Qed.

(** What free_desc does to the rings. *)
Definition freed (i : nat) (v : vdisk) : vdisk :=
  set_free i 1 (set_desc (fun d => Vringdesc DA_null (vr_len d) (vr_flags d) (vr_next d)) i v).

Lemma free_desc_run i v c t w : ready w -> length (procs t) = nproc -> (i < num)%nat ->
  vd_free v !!! i = 0 ->
  free_desc (Z.of_nat i) (crit v c t w) = Ok ((), crit (freed i v) c (tab_map (woken Ch_vdesc) t) w).
Proof.
  intros Hr Hn Hi H0. unfold free_desc. unfold num, NUM in *. rewrite Z.geb_leb, (proj2 (Z.leb_gt _ _)) by lia.
  rewrite (bind_Ok _ _ _ _ _ (get_vd_run v c t w)). rewrite Nat2Z.id, H0. cbn [Z.eqb negb].
  rewrite !(bind_Ok _ _ _ _ _ (upd_vd_run _ _ c t w)). by apply wakeup_crit.
Qed.

(** A descriptor that is freed twice is a panic. *)
Lemma free_desc_twice i v c t w : (i < num)%nat -> vd_free v !!! i <> 0 ->
  free_desc (Z.of_nat i) (crit v c t w) = Panic "virtio_disk_intr 2".
Proof.
  intros Hi H0. unfold free_desc. unfold num, NUM in *. rewrite Z.geb_leb, (proj2 (Z.leb_gt _ _)) by lia.
  rewrite (bind_Ok _ _ _ _ _ (get_vd_run v c t w)). rewrite Nat2Z.id.
  by rewrite (proj2 (Z.eqb_neq _ _) H0).
Qed.

Lemma free_desc_insert i v : (i < length (vd_free v))%nat -> vd_free (set_free i 0 v) !!! i = 0.
Proof. intros Hi. cbn. by rewrite list_lookup_total_insert_eq. Qed.

(** The rings before and after a failed allocation: the same, but for the contents
    of free descriptors. *)
Definition same_used v v' : Prop :=
  vd_free v' = vd_free v /\ length (vd_desc v') = length (vd_desc v) /\
  (forall i, vd_free v !! i = Some 0 -> vd_desc v' !! i = vd_desc v !! i) /\
  v' = Vdisk (vd_desc v') (vd_avail_idx v) (vd_avail v) (vd_used_id v) (vd_used v) (vd_free v')
         (vd_used_idx v) (vd_info v) (vd_mmio v).

Lemma same_used_refl v : same_used v v.
Proof. split_and!; [done..|]. by destruct v. Qed.

(** Taking a free descriptor and giving it back. *)
Lemma same_used_back i v v' : same_used (set_free i 0 v) v' -> vd_free v !! i = Some 1 ->
  same_used v (freed i v').
Proof.
  intros (H1 & H2 & H3 & H4) Hi. destruct v' as [d a b u x f y z m]. cbn in *.
  injection H4 as -> -> -> -> -> -> ->. subst f.
  unfold freed, same_used, set_free, set_desc. cbn.
  rewrite list_insert_insert_eq, list_insert_id by done. split_and!; [done|by rewrite length_alter| |done].
  intros j Hj. destruct (decide (j = i)) as [->|Hne]; [congruence|].
  rewrite list_lookup_alter_ne by done. apply H3. by rewrite list_lookup_insert_ne.
Qed.

Lemma alloc3_desc_run v c t w : ready w -> free_bits (vd_free v) -> length (procs t) = nproc ->
  if decide (3 <= nfree (vd_free v))%nat then
    exists i0 i1 i2, NoDup [i0; i1; i2] /\ Forall (fun i => vd_free v !! i = Some 1) [i0; i1; i2] /\
      alloc3_desc (crit v c t w) =
      Ok (Some (Z.of_nat i0, Z.of_nat i1, Z.of_nat i2),
          crit (set_free i2 0 (set_free i1 0 (set_free i0 0 v))) c t w)
  else
    exists v' t', same_used v v' /\ length (procs t') = nproc /\
      alloc3_desc (crit v c t w) = Ok (None, crit v' c t' w).
Proof.
  intros Hr Hb Ht. unfold alloc3_desc.
  pose proof (alloc_desc_run v c t w (proj1 Hb)) as R0. pose proof (find_free_bits _ Hb) as F0.
  destruct (find_free 0 (vd_free v)) as [i0|]; cycle 1.
  { rewrite decide_False by lia. exists v, t. split_and!; [apply same_used_refl|done|].
    by rewrite (bind_Ok _ _ _ _ _ R0). }
  destruct F0 as [F0 L0]. rewrite (bind_Ok _ _ _ _ _ R0). rewrite (proj2 (Z.ltb_ge _ _)) by lia.
  set (v0 := set_free i0 0 v) in *. assert (B0 : free_bits (vd_free v0)) by (cbn; eauto with xv6).
  assert (N0 : nfree (vd_free v) = S (nfree (vd_free v0))) by by apply nfree_take.
  pose proof (alloc_desc_run v0 c t w (proj1 B0)) as R1. pose proof (find_free_bits _ B0) as F1.
  destruct (find_free 0 (vd_free v0)) as [i1|]; cycle 1.
  { rewrite decide_False by lia. rewrite (bind_Ok _ _ _ _ _ R1). change (-1 <? 0) with true. cbn iota.
    rewrite (bind_Ok _ _ _ _ _ (free_desc_run i0 v0 c t w Hr Ht L0
      ltac:(apply free_desc_insert; rewrite (proj1 Hb); lia))).
    do 2 eexists. split_and!; [by apply same_used_back; [apply same_used_refl|]| |done].
    cbn. by rewrite length_fmap. }
  destruct F1 as [F1 L1]. rewrite (bind_Ok _ _ _ _ _ R1). rewrite (proj2 (Z.ltb_ge _ _)) by lia.
  set (v1 := set_free i1 0 v0) in *. assert (B1 : free_bits (vd_free v1)) by (cbn; eauto with xv6).
  assert (N1 : nfree (vd_free v0) = S (nfree (vd_free v1))) by by apply nfree_take.
  assert (D01 : i0 <> i1).
  { intros <-. cbn in F1. rewrite list_lookup_insert_eq in F1 by (rewrite (proj1 Hb); lia). done. }
  pose proof (alloc_desc_run v1 c t w (proj1 B1)) as R2. pose proof (find_free_bits _ B1) as F2.
  destruct (find_free 0 (vd_free v1)) as [i2|]; cycle 1.
  { rewrite decide_False by lia. rewrite (bind_Ok _ _ _ _ _ R2). change (-1 <? 0) with true. cbn iota.
    rewrite (bind_Ok _ _ _ _ _ (free_desc_run i0 v1 c t w Hr Ht L0
      ltac:(cbn; rewrite list_lookup_total_insert_ne by done;
            rewrite list_lookup_total_insert_eq by (rewrite (proj1 Hb); lia); done))).
    assert (Ht' : length (procs (tab_map (woken Ch_vdesc) t)) = nproc) by (cbn; by rewrite length_fmap).
    rewrite (bind_Ok _ _ _ _ _ (free_desc_run i1 (freed i0 v1) c _ w Hr Ht' L1
      ltac:(cbn; rewrite list_lookup_total_insert_ne by done;
            rewrite list_lookup_total_insert_eq by (rewrite length_insert, (proj1 Hb); lia); done))).
    do 2 eexists. split_and!; [| |done]; [|cbn; by rewrite !length_fmap].
    replace (freed i1 (freed i0 v1)) with (freed i0 (freed i1 v1)).
    - apply same_used_back; [|done]. apply same_used_back; [apply same_used_refl|done].
    - unfold freed, set_free, set_desc; cbn. rewrite (list_insert_insert_ne _ i0 i1) by done.
      by rewrite (list_alter_alter_ne _ _ _ i0 i1) by done. }
  destruct F2 as [F2 L2]. rewrite (bind_Ok _ _ _ _ _ R2). rewrite (proj2 (Z.ltb_ge _ _)) by lia.
  pose proof (nfree_take _ _ F2). rewrite decide_True by lia. cbn in F1, F2.
  assert (D12 : i1 <> i2).
  { intros <-. rewrite list_lookup_insert_eq in F2 by (rewrite length_insert, (proj1 Hb); lia). done. }
  assert (D02 : i0 <> i2).
  { intros <-. rewrite list_lookup_insert_ne, list_lookup_insert_eq in F2 by (rewrite ?(proj1 Hb); (lia || done)). done. }
  rewrite !list_lookup_insert_ne in F2 by done. rewrite list_lookup_insert_ne in F1 by done.
  exists i0, i1, i2. split_and!; [|by repeat constructor|done].
  rewrite !NoDup_cons, list_elem_of_singleton, !not_elem_of_cons. split_and!; try done;
    try apply not_elem_of_nil. apply NoDup_nil_2.
Qed.
End Runs.

(** ** Requests *)

(** A request: its buffer, its direction, the block, the data to be written, and its
    three descriptors. *)
Record req := Req { rq_b : nat; rq_write : bool; rq_bno : Z; rq_data : blk; rq_0 : nat; rq_1 : nat; rq_2 : nat }.

#[export] Instance req_eq_dec : EqDecision req.
Proof. solve_decision. Defined.

Definition idxs (r : req) : list nat := [rq_0 r; rq_1 r; rq_2 r].

(** The chain of a request: header, data, status. *)
Definition desc_0 (r : req) : VRingDesc :=
  Vringdesc (DA_header (if rq_write r then VIRTIO_BLK_T_OUT else VIRTIO_BLK_T_IN) (u32 (rq_bno r * (BSIZE / 512))))
    16 VRING_DESC_F_NEXT (Z.of_nat (rq_1 r)).
Definition desc_1 (r : req) : VRingDesc :=
  Vringdesc (DA_data (rq_b r)) BSIZE (Z.lor (if rq_write r then 0 else VRING_DESC_F_WRITE) VRING_DESC_F_NEXT)
    (Z.of_nat (rq_2 r)).
Definition desc_2 (r : req) : VRingDesc := Vringdesc (DA_status (rq_0 r)) 1 VRING_DESC_F_WRITE 0.

Definition chain (v : vdisk) (r : req) : Prop :=
  vd_desc v !! rq_0 r = Some (desc_0 r) /\ vd_desc v !! rq_1 r = Some (desc_1 r) /\
  vd_desc v !! rq_2 r = Some (desc_2 r) /\ vd_info v !! rq_0 r = Some (Vinfo (Some (rq_b r)) 0).

(** What submit does to the rings. *)
Definition submitted (r : req) (v : vdisk) : vdisk :=
  Vdisk (<[rq_2 r := desc_2 r]> (<[rq_1 r := desc_1 r]> (<[rq_0 r := desc_0 r]> (vd_desc v))))
    (u16 (vd_avail_idx v + 1))
    (<[Z.to_nat (vd_avail_idx v mod NUM) := u16 (Z.of_nat (rq_0 r))]> (vd_avail v))
    (vd_used_id v) (vd_used v) (vd_free v) (vd_used_idx v)
    (<[rq_0 r := Vinfo (Some (rq_b r)) 0]> (vd_info v))
    ((VIRTIO_MMIO_QUEUE_NOTIFY, 0) :: vd_mmio v).

Lemma alter_const {A} (f : A -> A) (x y : A) i (l : list A) :
  l !! i = Some y -> f y = x -> alter f i l = <[i := x]> l.
Proof.
  intros Hi <-. apply list_eq. intros j. destruct (decide (i = j)) as [<-|Hne].
  - rewrite list_lookup_alter_eq, Hi, list_lookup_insert_eq; [done|by eapply lookup_lt_Some].
  - by rewrite list_lookup_alter_ne, list_lookup_insert_ne.
Qed.
Lemma alter_set {A} (x : A) i (l : list A) : (i < length l)%nat -> alter (fun _ => x) i l = <[i := x]> l.
Proof. intros Hi. destruct (lookup_lt_is_Some_2 _ _ Hi) as [y Hy]. by apply alter_const with y. Qed.

(** After the two assignments to [info[i]] around the last descriptor. *)
Lemma info_set b i (l : list vinfo) : (i < length l)%nat ->
  alter (fun x => Vinfo (Some b) (vi_status x)) i (alter (fun x => Vinfo (vi_b x) 0) i l)
  = <[i := Vinfo (Some b) 0]> l.
Proof.
  intros Hi. destruct (lookup_lt_is_Some_2 _ _ Hi) as [y Hy].
  rewrite (alter_const (fun x => Vinfo (vi_b x) 0) (Vinfo (vi_b y) 0) y) by done.
  rewrite (alter_const _ (Vinfo (Some b) 0) (Vinfo (vi_b y) 0));
    [by rewrite list_insert_insert_eq|by rewrite list_lookup_insert_eq|done].
Qed.

(** Only the driver's own parts of the rings have a fixed size. *)
Definition rings (v : vdisk) : Prop :=
  length (vd_desc v) = num /\ length (vd_avail v) = num /\ length (vd_used v) = num /\
  length (vd_info v) = num /\ free_bits (vd_free v).

Section Runs2.
Context {SC : Sched}.
Implicit Types (v : vdisk) (c : bcache) (t : proctab) (w : world kstate) (r : req).

Lemma submit_run r v c t w : rings v -> Forall (fun i => (i < num)%nat) (idxs r) ->
  b_blockno (bufs c !!! rq_b r) = rq_bno r ->
  submit (rq_b r) (rq_write r) (Z.of_nat (rq_0 r), Z.of_nat (rq_1 r), Z.of_nat (rq_2 r)) (crit v c t w)
  = Ok ((), crit (submitted r v) (bc_alter (set_disk_own 1) (rq_b r) c) t w).
Proof.
  intros (L1 & L2 & L3 & L4 & _) Hi Hb. unfold submit.
  apply Forall_cons in Hi as [H0 Hi]. apply Forall_cons in Hi as [H1 Hi]. apply Forall_cons in Hi as [H2 _].
  rewrite (bind_Ok _ _ _ _ _ (get_buf_crit _ v c t w)), Hb, !Nat2Z.id.
  rewrite !(bind_Ok _ _ _ _ _ (upd_vd_run _ _ c t w)), (bind_Ok _ _ _ _ _ (upd_buf_crit _ _ _ c t w)).
  set (c' := bc_alter _ _ c).
  rewrite (bind_Ok _ _ _ _ _ (upd_vd_run _ _ c' t w)), (bind_Ok _ _ _ _ _ (get_vd_run _ c' t w)).
  rewrite (bind_Ok _ _ _ _ _ (upd_vd_run _ _ c' t w)), (bind_Ok _ _ _ _ _ (get_vd_run _ c' t w)).
  rewrite (bind_Ok _ _ _ _ _ (upd_vd_run _ _ c' t w)), mmio_write_run. do 2 f_equal. unfold crit. do 2 f_equal.
  destruct v as [d a av u us f x inf mm]. cbn [vd_desc vd_avail vd_used vd_info] in *.
  cbv [set_desc set_info set_avail set_avail_idx add_mmio submitted
       vd_desc vd_avail_idx vd_avail vd_used_id vd_used vd_free vd_used_idx vd_info vd_mmio]. f_equal.
  - rewrite !alter_set by (rewrite ?length_alter, ?length_insert; lia). done.
  - apply info_set. lia.
Qed.

Lemma freed_desc i j v : (i < length (vd_desc v))%nat -> vd_desc (freed i v) !!! j =
  if decide (i = j) then Vringdesc DA_null (vr_len (vd_desc v !!! j)) (vr_flags (vd_desc v !!! j)) (vr_next (vd_desc v !!! j))
  else vd_desc v !!! j.
Proof.
  intros Hi. cbn. rewrite !list_lookup_total_alt. destruct (decide (i = j)) as [<-|Hne].
  - rewrite list_lookup_alter_eq. destruct (lookup_lt_is_Some_2 _ _ Hi) as [d Hd]. by rewrite Hd.
  - by rewrite list_lookup_alter_ne.
Qed.

(** One round of free_chain. *)
Lemma free_chain_round i d nx v c t w :
  (if negb (Z.land (vr_flags d) VRING_DESC_F_NEXT =? 0) then inl (vr_next d) else inr ()) = nx -> ready w -> rings v -> length (procs t) = nproc -> (i < num)%nat ->
  vd_free v !!! i = 0 -> vd_desc v !! i = Some d ->
  free_chain_body (Z.of_nat i) (crit v c t w) =
  Ok (nx, crit (freed i v) c (tab_map (woken Ch_vdesc) t) w).
Proof.
  intros <- Hr Hv Ht Hi Hf Hd. unfold free_chain_body.
  rewrite (bind_Ok _ _ _ _ _ (free_desc_run i v c t w Hr Ht Hi Hf)).
  rewrite (bind_Ok _ _ _ _ _ (get_vd_run _ _ _ _)). rewrite Nat2Z.id.
  rewrite freed_desc by (rewrite (proj1 Hv); lia). rewrite decide_True by done.
  rewrite (list_lookup_total_correct _ _ _ Hd). cbn [vr_flags vr_next].
  by destruct (Z.land (vr_flags d) VRING_DESC_F_NEXT =? 0).
Qed.

Lemma freed_free_ne i j v : i <> j -> vd_free (freed i v) !!! j = vd_free v !!! j.
Proof. intros H. cbn. by rewrite list_lookup_total_insert_ne. Qed.
Lemma freed_desc_ne i j v : i <> j -> vd_desc (freed i v) !! j = vd_desc v !! j.
Proof. intros H. cbn. by rewrite list_lookup_alter_ne. Qed.
Lemma rings_freed i v : rings v -> rings (freed i v).
Proof.
  intros (H1 & H2 & H3 & H4 & H5). repeat split; cbn; rewrite ?length_alter, ?length_insert; try done.
  - apply H5.
  - apply Forall_insert; [apply H5|by right].
Qed.

(** The end of a request gives back exactly its three descriptors. *)
Definition finished (r : req) (v : vdisk) : vdisk :=
  freed (rq_2 r) (freed (rq_1 r) (freed (rq_0 r) (set_info (fun x => Vinfo None (vi_status x)) (rq_0 r) v))).

Lemma rw_finish_run r v c t w : ready w -> rings v -> length (procs t) = nproc ->
  chain v r -> NoDup (idxs r) -> Forall (fun i => vd_free v !! i = Some 0) (idxs r) ->
  exists t', length (procs t') = nproc /\
    rw_finish (Z.of_nat (rq_0 r)) (crit v c t w) = Ok ((), crit (finished r v) c t' w).
Proof.
  intros Hr Hv Ht (C0 & C1 & C2 & _) Hnd Hf.
  assert (Hlt : Forall (fun i => (i < num)%nat /\ vd_free v !!! i = 0) (idxs r)).
  { eapply Forall_impl; [exact Hf|]. intros i Hi. split; [|by apply list_lookup_total_correct].
    destruct Hv as (_ & _ & _ & _ & [E _]). apply lookup_lt_Some in Hi. lia. }
  unfold idxs in Hnd, Hlt. rewrite !NoDup_cons, !not_elem_of_cons in Hnd.
  destruct Hnd as ((N01 & N02 & _) & (N12 & _) & _).
  rewrite !Forall_cons in Hlt. destruct Hlt as ([L0 F0] & [L1 F1] & [L2 F2] & _).
  unfold rw_finish. rewrite Nat2Z.id, (bind_Ok _ _ _ _ _ (upd_vd_run _ v c t w)).
  set (v0 := set_info _ _ v).
  assert (R0 : rings v0). { destruct Hv as (?&?&?&?&?). repeat split; cbn; rewrite ?length_alter; try done; apply H3. }
  assert (Hl : forall (t : proctab), length (procs t) = nproc -> length (procs (tab_map (woken Ch_vdesc) t)) = nproc).
  { intros t0 H. cbn. by rewrite length_fmap. }
  eexists. split; [apply (Hl _ (Hl _ (Hl t Ht)))|]. unfold free_chain, finished. fold v0. change (S num) with 9%nat.
  rewrite (loop_next _ _ _ _ _ _ (free_chain_round (rq_0 r) (desc_0 r) (inl (Z.of_nat (rq_1 r))) v0 c t w
    ltac:(done) Hr R0 Ht L0 F0 C0)).
  rewrite (loop_next _ _ _ _ _ _ (free_chain_round (rq_1 r) (desc_1 r) (inl (Z.of_nat (rq_2 r)))
    (freed (rq_0 r) v0) c _ w ltac:(by destruct r as [? [] ? ? ? ? ?]) Hr (rings_freed _ _ R0) (Hl _ Ht) L1 ltac:(by rewrite freed_free_ne) ltac:(by rewrite freed_desc_ne))).
  apply loop_exit.
  apply (free_chain_round (rq_2 r) (desc_2 r)); [done|done|by do 2 apply rings_freed|by do 2 apply Hl|done| |].
  - by rewrite !freed_free_ne.
  - by rewrite !freed_desc_ne.
Qed.
End Runs2.

(** ** The interrupt handler *)

(** The requests [q] are on the used ring, from the driver's position on. *)
Definition on_used (v : vdisk) (q : list req) : Prop :=
  0 <= vd_used_idx v < NUM /\ vd_used_id v mod NUM = (vd_used_idx v + Z.of_nat (length q)) mod NUM /\
  forall j r, q !! j = Some r ->
    vd_used v !! Z.to_nat ((vd_used_idx v + Z.of_nat j) mod NUM) = Some (Z.of_nat (rq_0 r)).

(** The buffers of [q] are no longer the device's. *)
Definition disown (q : list req) (c : bcache) : bcache :=
  foldl (fun c r => bc_alter (set_disk_own 0) (rq_b r) c) c q.

(** What the handler's loop does to the rings. *)
Definition seen (q : list req) (v : vdisk) : vdisk :=
  set_used_idx ((vd_used_idx v + Z.of_nat (length q)) mod NUM) v.

Lemma on_used_tail v r q : on_used v (r :: q) -> on_used (seen [r] v) q.
Proof.
  intros (Hx & Hid & Hq). unfold NUM in *.
  split; [by apply Z.mod_pos_bound|]. split; cbn [seen set_used_idx vd_used_id vd_used_idx vd_used].
  - unfold NUM. rewrite Hid, Zplus_mod_idemp_l. f_equal. cbn [length]. lia.
  - intros j r' Hj. specialize (Hq (S j) r' Hj). unfold NUM. rewrite Zplus_mod_idemp_l. cbn [length].
    replace (vd_used_idx v + Z.of_nat 1 + Z.of_nat j) with (vd_used_idx v + Z.of_nat (S j)) by lia. done.
Qed.

Lemma seen_cons r q v : 0 <= vd_used_idx v < NUM -> seen q (seen [r] v) = seen (r :: q) v.
Proof.
  intros Hx. unfold seen, set_used_idx, NUM in *. cbn [vd_used_idx vd_desc vd_avail_idx vd_avail vd_used_id vd_used
    vd_free vd_info vd_mmio length]. rewrite Zplus_mod_idemp_l. do 2 f_equal. lia.
Qed.
Lemma seen_nil v : 0 <= vd_used_idx v < NUM -> seen [] v = v.
Proof. intros Hx. unfold seen. cbn [length]. rewrite Z.add_0_r, Z.mod_small by done. by destruct v. Qed.

(** A full ring would look like an empty one. *)
Lemma on_used_neq v q : on_used v q -> (0 < length q < num)%nat -> vd_used_idx v mod NUM <> vd_used_id v mod NUM.
Proof.
  intros (Hx & -> & _) Hl E. unfold num, NUM in *. rewrite (Z.mod_small (vd_used_idx v)) in E by lia.
  pose proof (Z.div_mod (vd_used_idx v + Z.of_nat (length q)) 8 ltac:(lia)). lia.
Qed.

Section Intr.
Context {SC : Sched} {HW : VirtioHw}.
Implicit Types (v : vdisk) (c : bcache) (t : proctab) (w : world kstate) (r : req).

Lemma intr_round r q v c t w : ready w -> length (procs t) = nproc -> on_used v (r :: q) ->
  (length (r :: q) < num)%nat -> vd_info v !! rq_0 r = Some (Vinfo (Some (rq_b r)) 0) ->
  virtio_disk_intr_body () (crit v c t w) =
  Ok (inl (), crit (seen [r] v) (disown [r] c) (tab_map (woken (Ch_buf (rq_b r))) t) w).
Proof.
  intros Hr Ht Hu Hl Hi. unfold virtio_disk_intr_body.
  pose proof (on_used_neq _ _ Hu ltac:(cbn [length] in *; lia)) as Hne.
  destruct Hu as (Hx & _ & Hq). pose proof (Hq 0%nat r eq_refl) as H0.
  rewrite Z.add_0_r, Z.mod_small in H0 by done.
  rewrite (bind_Ok _ _ _ _ _ (get_vd_run v c t w)), (proj2 (Z.eqb_neq _ _) Hne). cbn [negb].
  rewrite (list_lookup_total_correct _ _ _ H0), Nat2Z.id, (list_lookup_total_correct _ _ _ Hi). cbn [vi_status vi_b Z.eqb negb].
  rewrite (bind_Ok _ _ _ _ _ (upd_buf_crit _ _ v c t w)).
  rewrite (bind_Ok _ _ _ _ _ (wakeup_crit _ v _ t w Hr Ht)), (bind_Ok _ _ _ _ _ (upd_vd_run _ v _ _ w)). done.
Qed.

Lemma intr_loop q v c t w fuel : ready w -> length (procs t) = nproc -> on_used v q ->
  (length q < num)%nat -> (length q < fuel)%nat ->
  Forall (fun r => vd_info v !! rq_0 r = Some (Vinfo (Some (rq_b r)) 0)) q ->
  exists t', length (procs t') = nproc /\
    loop fuel virtio_disk_intr_body () (crit v c t w) = Ok ((), crit (seen q v) (disown q c) t' w).
Proof.
  intros Hr. revert v c t fuel. induction q as [|r q IH]; intros v c t fuel Ht Hu Hl Hf Hi;
    (destruct fuel as [|fuel]; [cbn [length] in Hf; lia|]).
  - exists t. split; [done|]. apply loop_exit. unfold virtio_disk_intr_body.
    destruct Hu as (Hx & E & _). rewrite (bind_Ok _ _ _ _ _ (get_vd_run v c t w)), E. cbn [length].
    rewrite Z.add_0_r, Z.eqb_refl. cbn [negb]. by rewrite seen_nil.
  - apply Forall_cons in Hi as [Hi Hq].
    destruct (IH (seen [r] v) (disown [r] c) (tab_map (woken (Ch_buf (rq_b r))) t) fuel) as (t' & Ht' & E).
    + cbn. by rewrite length_fmap.
    + by apply on_used_tail.
    + cbn [length] in *. lia.
    + cbn [length] in *. lia.
    + done.
    + exists t'. split; [done|]. rewrite (loop_next _ _ _ _ _ _ (intr_round r q v c t w Hr Ht Hu Hl Hi)), E.
      rewrite seen_cons by apply Hu. done.
Qed.

(** Reading the interrupt status has no effect on the kernel's memory. *)
Hypothesis status_read : forall w, exists x, mmio_read VIRTIO_MMIO_INTERRUPT_STATUS w = Ok (x, w).

Lemma intr_run q v c t w : ready w -> length (procs t) = nproc -> on_used v q -> (length q < num)%nat ->
  Forall (fun r => vd_info v !! rq_0 r = Some (Vinfo (Some (rq_b r)) 0)) q ->
  exists m t', length (procs t') = nproc /\
    virtio_disk_intr (up v c t w) =
    Ok ((), touch (up (add_mmio VIRTIO_MMIO_INTERRUPT_ACK m (seen q v)) (disown q c) t' w)).
Proof.
  intros Hr Ht Hu Hl Hi.
  destruct (intr_loop q v c t w (S num) Hr Ht Hu Hl ltac:(lia) Hi) as (t' & Ht' & E).
  unfold virtio_disk_intr. destruct (status_read (crit (seen q v) (disown q c) t' w)) as [x Hx].
  exists (u32 (Z.land x 3)), t'. split; [done|].
  erewrite bind_Ok; [|apply acquire_ok; apply Hr]. fold (crit v c t w).
  rewrite (bind_Ok _ _ _ _ _ E), (bind_Ok _ _ _ _ _ Hx), (bind_Ok _ _ _ _ _ (mmio_write_run _ _ _ _ _ w)).
  apply release_acq; apply Hr.
Qed.
End Intr.
