(* ===== verification/VirtioRing.v ===== *)
(** * Many requests at once: threads, device and interrupts

    The driver as a transition system.  A thread starts a request or finishes one in
    one critical section of vdisk_lock each (Spinlock proves that these exclude each
    other); in between it sleeps.  The device takes chains from the available ring
    and completes those it has taken in any order, reading what to do from the
    descriptors; the interrupt handler runs at any time; the rest of the kernel may
    change everything but the rings, the disk and the buffers of requests.  A state
    carries, next to the world and the device, where each request should be: on the
    available ring ([vs_a]), taken by the device ([vs_d]), on the used ring ([vs_u]) or
    acknowledged by the handler ([vs_k]), and all the requests completed so far
    ([vs_done]).  These lists are a record for the statements: no step depends on them.
    The device only knows its own count and the heads it has read off the available
    ring, the handler reads the used ring, and a thread finishes when it finds the
    disk mark of its buffer cleared. *)
From stdpp Require Import prelude gmap strings.
From Stdlib Require Import ZArith Lia.
From S2P Require Import Prelude Memory Spinlock Riscv Kalloc Proc Bytes State Sleeplock Bio Virtio VirtioSpec.
Open Scope Z_scope.

(** ** The device

    How many entries of the available ring it has taken (a 16-bit count), and the
    heads of the chains it works on. *)
Record dev := Dev { dv_seen : Z; dv_work : list Z }.

Definition dev_fetch (v : vdisk) (d : dev) : option dev :=
  if dv_seen d =? vd_avail_idx v then None
  else Some (Dev (u16 (dv_seen d + 1)) (dv_work d ++ [vd_avail v !!! Z.to_nat (dv_seen d mod NUM)])).

(** Put [h] on the used ring and a 0 into the status byte [i]. *)
Definition push_used (h : Z) (i : nat) (v : vdisk) : vdisk :=
  Vdisk (vd_desc v) (vd_avail_idx v) (vd_avail v) (u16 (vd_used_id v + 1))
    (<[Z.to_nat (vd_used_id v mod NUM) := h]> (vd_used v)) (vd_free v) (vd_used_idx v)
    (alter (fun x => Vinfo (vi_b x) 0) i (vd_info v)) (vd_mmio v).

Definition has_flag (d : VRingDesc) (f : Z) : bool := negb (Z.land (vr_flags d) f =? 0).

(** Completing the chain with head [h]: header, data, status, as the descriptors say;
    [None] when they do not describe a request for one block. *)
Definition dev_complete (h : Z) (s : kstate) : option kstate :=
  let v := ks_vd s in
  d0 ← vd_desc v !! Z.to_nat h;
  d1 ← vd_desc v !! Z.to_nat (vr_next d0);
  d2 ← vd_desc v !! Z.to_nat (vr_next d1);
  match vr_addr d0, vr_addr d1, vr_addr d2 with
  | DA_header type sector, DA_data b, DA_status i =>
      if has_flag d0 VRING_DESC_F_NEXT && has_flag d1 VRING_DESC_F_NEXT && negb (has_flag d2 VRING_DESC_F_NEXT)
         && (vr_len d1 =? BSIZE) && has_flag d2 VRING_DESC_F_WRITE
      then
        let n := sector / (BSIZE / 512) in
        let done := set_vd (push_used h i v) in
        if type =? VIRTIO_BLK_T_OUT
        then Some (done (set_disk (disk_write (ks_disk s) n (b_data (bufs (ks_bc s) !!! b))) s))
        else if (type =? VIRTIO_BLK_T_IN) && has_flag d1 VRING_DESC_F_WRITE
        then Some (done (set_bc (bc_alter (set_data (disk_block (ks_disk s) n)) b (ks_bc s)) s))
        else None
      else None
  | _, _, _ => None
  end.

(** ** The system *)

Record vsys := Vsys {
  vs_w : world kstate; vs_dev : dev;
  vs_a : list req; vs_d : list req; vs_u : list req; vs_k : list req;
  vs_done : list req;
}.
Definition in_flight (s : vsys) : list req := vs_a s ++ vs_d s ++ vs_u s ++ vs_k s.

(** A critical section. *)
Definition locked_ {A} (m : K kstate A) : K kstate A :=
  acquire L_vdisk ;; x ← m; release L_vdisk ;; mret x.

(** From the first acquire of virtio_disk_rw to its first sleep. *)
Definition rw_start (b : nat) (write : bool) : K kstate (option (Z * Z * Z)) :=
  r ← alloc3_desc;
  match r with
  | Some idx => submit b write idx ;; mret (Some idx)
  | None => mret None
  end.

Definition the_buf (b : nat) (w : world kstate) : buf := bufs (ks_bc (data w)) !!! b.

(** The buffer can be used for a new request: it is locked by one thread, which has
    no other request under way, and the cache has one buffer per block. *)
Definition startable (s : vsys) (b : nat) : Prop :=
  (b < nbuf)%nat /\ (b ∉ rq_b <$> in_flight s) /\ (b_blockno (the_buf b (vs_w s)) ∉ rq_bno <$> in_flight s) /\
  0 <= b_blockno (the_buf b (vs_w s)) < 2 ^ 31 /\ b_disk (the_buf b (vs_w s)) = 0.

(** The rest of the kernel does not touch what belongs to the driver. *)
Definition others (s : vsys) (w' : world kstate) : Prop :=
  ready w' /\ ks_vd (data w') = ks_vd (data (vs_w s)) /\ ks_disk (data w') = ks_disk (data (vs_w s)) /\
  length (bufs (ks_bc (data w'))) = length (bufs (ks_bc (data (vs_w s)))) /\
  forall b, b ∈ (rq_b <$> in_flight s) -> the_buf b w' = the_buf b (vs_w s).

Section Steps.
Context {SC : Sched} {HW : VirtioHw}.

Inductive vstep : vsys -> vsys -> Prop :=
| v_start w dv a d u k dn b write i0 i1 i2 w' :
    startable (Vsys w dv a d u k dn) b ->
    locked_ (rw_start b write) w = Ok (Some (Z.of_nat i0, Z.of_nat i1, Z.of_nat i2), w') ->
    vstep (Vsys w dv a d u k dn)
      (Vsys w' dv (a ++ [Req b write (b_blockno (the_buf b w)) (b_data (the_buf b w)) i0 i1 i2]) d u k dn)
| v_wait w dv a d u k dn b write w' :
    locked_ (rw_start b write) w = Ok (None, w') ->
    vstep (Vsys w dv a d u k dn) (Vsys w' dv a d u k dn)
| v_fetch w dv a d u k dn dv' :
    dev_fetch (ks_vd (data w)) dv = Some dv' ->
    vstep (Vsys w dv a d u k dn) (Vsys w dv' (tail a) (d ++ take 1 a) u k dn)
| v_complete w dv a d u k dn j h s' :
    dv_work dv !! j = Some h -> dev_complete h (data w) = Some s' ->
    vstep (Vsys w dv a d u k dn)
      (Vsys (World (tp w) (harts w) (locks w) s')
         (Dev (dv_seen dv) (delete j (dv_work dv))) a (delete j d) (u ++ option_list (d !! j)) k (dn ++ option_list (d !! j)))
| v_intr w dv a d u k dn w' :
    virtio_disk_intr w = Ok ((), w') ->
    vstep (Vsys w dv a d u k dn) (Vsys w' dv a d [] (k ++ u) dn)
| v_finish w dv a d u k dn r w' :
    r ∈ in_flight (Vsys w dv a d u k dn) -> b_disk (the_buf (rq_b r) w) <> 1 ->
    locked_ (rw_finish (Z.of_nat (rq_0 r))) w = Ok ((), w') ->
    vstep (Vsys w dv a d u k dn) (Vsys w' dv a d u (filter (fun x => rq_b x <> rq_b r) k) dn)
| v_others w dv a d u k dn w' :
    others (Vsys w dv a d u k dn) w' ->
    vstep (Vsys w dv a d u k dn) (Vsys w' dv a d u k dn).
End Steps.

(** ** The invariant *)

Definition on_avail (v : vdisk) (dv : dev) (q : list req) : Prop :=
  0 <= vd_avail_idx v < 2 ^ 16 /\ vd_avail_idx v = u16 (dv_seen dv + Z.of_nat (length q)) /\
  0 <= dv_seen dv < 2 ^ 16 /\
  forall j r, q !! j = Some r ->
    vd_avail v !! Z.to_nat ((dv_seen dv + Z.of_nat j) mod NUM) = Some (Z.of_nat (rq_0 r)).

Definition all_idxs (l : list req) : list nat := l ≫= idxs.

(** The rings stand for the queues; [l] are all requests in flight. *)
Record ring_inv (v : vdisk) (dv : dev) (a d u l : list req) : Prop := {
  ri_rings : rings v;
  ri_nodup : NoDup (all_idxs l);
  ri_busy : Forall (fun i => vd_free v !! i = Some 0) (all_idxs l);
  ri_count : (nfree (vd_free v) + 3 * length l = num)%nat;
  ri_chain : Forall (chain v) l;
  ri_avail : on_avail v dv a;
  ri_work : dv_work dv = (fun r => Z.of_nat (rq_0 r)) <$> d;
  ri_used : on_used v u;
}.

(** A request whose transfer has happened. *)
Definition moved (D : disk) (x : buf) (r : req) : Prop :=
  if rq_write r then disk_block D (rq_bno r) = rq_data r
  else b_data x = disk_block D (rq_bno r).

Definition req_buf (c : bcache) (r : req) : Prop :=
  (rq_b r < nbuf)%nat /\ 0 <= rq_bno r < 2 ^ 31 /\ b_blockno (bufs c !!! rq_b r) = rq_bno r /\
  (rq_write r -> b_data (bufs c !!! rq_b r) = rq_data r).

(** The buffers of the requests: the device owns those of [q] and [u], the transfers
    of [u] and [k] have happened. *)
Record buf_inv (c : bcache) (D : disk) (q u k : list req) : Prop := {
  bi_len : length (bufs c) = S nbuf;
  bi_bufs : NoDup (rq_b <$> (q ++ u ++ k));
  bi_bnos : NoDup (rq_bno <$> (q ++ u ++ k));
  bi_req : Forall (req_buf c) (q ++ u ++ k);
  bi_own : Forall (fun r => b_disk (bufs c !!! rq_b r) = 1) (q ++ u);
  bi_ack : Forall (fun r => b_disk (bufs c !!! rq_b r) = 0) k;
  bi_moved : Forall (fun r => moved D (bufs c !!! rq_b r) r) (u ++ k);
}.

(** The disk after the completed requests. *)
Definition replay (D : disk) (l : list req) : disk :=
  foldl (fun D r => if rq_write r then disk_write D (rq_bno r) (rq_data r) else D) D l.

Record vinv (D0 : disk) (s : vsys) : Prop := {
  vi_ready : ready (vs_w s);
  vi_ring : ring_inv (ks_vd (data (vs_w s))) (vs_dev s) (vs_a s) (vs_d s) (vs_u s) (in_flight s);
  vi_buf : buf_inv (ks_bc (data (vs_w s))) (ks_disk (data (vs_w s))) (vs_a s ++ vs_d s) (vs_u s) (vs_k s);
  vi_disk : ks_disk (data (vs_w s)) = replay D0 (vs_done s);
}.

(** ** The rings *)

Lemma u16_mod8 z : u16 z mod NUM = z mod NUM.
Proof.
  unfold u16, NUM. apply Z.mod_mod_divide. by exists (2 ^ 13).
Qed.

(** Positions less than a ring apart are different. *)
Lemma ring_pos_inj x i j : 0 <= i < NUM -> 0 <= j < NUM -> (x + i) mod NUM = (x + j) mod NUM -> i = j.
Proof.
  unfold NUM. intros Hi Hj E. pose proof (Z.div_mod (x + i) 8 ltac:(lia)).
  pose proof (Z.div_mod (x + j) 8 ltac:(lia)). lia.
Qed.
Lemma ring_pos_lt z : (Z.to_nat (z mod NUM) < num)%nat.
Proof. unfold num, NUM. pose proof (Z.mod_pos_bound z 8 ltac:(lia)). lia. Qed.

(** Adding an entry behind [n] others, at positions from [x] on. *)
Lemma avail_push (l : list Z) (q : list req) x y h (r : req) : length l = num -> (length q < num)%nat ->
  h = Z.of_nat (rq_0 r) -> y mod NUM = (x + Z.of_nat (length q)) mod NUM ->
  (forall j r, q !! j = Some r -> l !! Z.to_nat ((x + Z.of_nat j) mod NUM) = Some (Z.of_nat (rq_0 r))) ->
  forall j r', (q ++ [r]) !! j = Some r' ->
    <[Z.to_nat (y mod NUM) := h]> l !! Z.to_nat ((x + Z.of_nat j) mod NUM) = Some (Z.of_nat (rq_0 r')).
Proof.
  intros Hl Hq -> Hy Hin j r' Hj. rewrite Hy.
  apply lookup_app_Some in Hj as [Hj|[Hge Hj]].
  - rewrite list_lookup_insert_ne; [by apply Hin|]. apply lookup_lt_Some in Hj. intros E.
    apply Z2Nat.inj in E; [|apply Z.mod_pos_bound; done..].
    apply ring_pos_inj in E; [lia|unfold num, NUM in *; lia..].
  - apply list_lookup_singleton_Some in Hj as [Hj ->]. replace j with (length q) by lia.
    apply list_lookup_insert_eq. rewrite Hl. apply ring_pos_lt.
Qed.

Section Ring.
Implicit Types (v : vdisk) (dv : dev) (r : req) (a d u k l : list req).

Lemma all_idxs_cons r l : all_idxs (r :: l) = idxs r ++ all_idxs l.
Proof. done. Qed.

Lemma ring_inv_perm v dv a d u l l' : l ≡ₚ l' -> ring_inv v dv a d u l -> ring_inv v dv a d u l'.
Proof.
  intros P [H1 H2 H3 H4 H5 H6 H7 H8].
  assert (Pi : all_idxs l ≡ₚ all_idxs l') by (unfold all_idxs; by rewrite P).
  split; [done|by rewrite <- Pi|by rewrite <- Pi|by rewrite <- P|by rewrite <- P|done..].
Qed.

Lemma desc_chain_frame v v' r : chain v r -> (forall i, i ∈ idxs r -> vd_desc v' !! i = vd_desc v !! i) ->
  vd_info v' !! rq_0 r = vd_info v !! rq_0 r -> chain v' r.
Proof.
  intros (C0 & C1 & C2 & C3) Hd Hi. unfold idxs in Hd.
  split_and!; [rewrite Hd; [done|set_solver]..|by rewrite Hi].
Qed.

Lemma idxs_in r l i : r ∈ l -> i ∈ idxs r -> i ∈ all_idxs l.
Proof. intros Hr Hi. apply list_elem_of_bind. eauto. Qed.

(** Not enough descriptors: a failed attempt leaves the rings as they were. *)
Lemma ring_inv_same v v' dv a d u l : same_used v v' -> ring_inv v dv a d u l -> ring_inv v' dv a d u l.
Proof.
  intros (Ef & El & Ed & E) [(L1 & L2 & L3 & L4 & L5) H2 H3 H4 H5 H6 H7 H8].
  destruct v' as [de ai av ui us fr ux inf mm]. cbn in *. injection E as -> -> -> -> -> -> ->. subst fr.
  split; try done.
  - split_and!; [exact (eq_trans El L1)|done..].
  - apply Forall_forall. intros r Hr. rewrite Forall_forall in H5. eapply desc_chain_frame; [by apply H5| |done].
    intros i Hi. apply Ed. rewrite Forall_forall in H3. apply H3. by eapply idxs_in.
Qed.

(** A new request. *)
Lemma ring_inv_submit r v dv a d u l : NoDup (idxs r) ->
  Forall (fun i => vd_free v !! i = Some 1) (idxs r) -> (length a <= length l)%nat ->
  ring_inv v dv a d u l ->
  ring_inv (submitted r (set_free (rq_2 r) 0 (set_free (rq_1 r) 0 (set_free (rq_0 r) 0 v)))) dv (a ++ [r]) d u (r :: l).
Proof.
  intros Hnd Hfree Ha [(L1 & L2 & L3 & L4 & [L5 L6]) H2 H3 H4 H5 H6 H7 H8].
  assert (Hdis : forall i, i ∈ idxs r -> i ∉ all_idxs l).
  { intros i Hi Hl. rewrite Forall_forall in Hfree, H3. specialize (Hfree i Hi). specialize (H3 i Hl). congruence. }
  assert (Hlt : forall i, i ∈ idxs r -> (i < num)%nat).
  { intros i Hi. rewrite <- L5. rewrite Forall_forall in Hfree. by eapply lookup_lt_Some, Hfree. }
  unfold idxs in Hfree. rewrite !Forall_cons in Hfree. destruct Hfree as (F0 & F1 & F2 & _).
  assert (Hnd' := Hnd). unfold idxs in Hnd'. rewrite !NoDup_cons, !not_elem_of_cons in Hnd'.
  destruct Hnd' as ((N01 & N02 & _) & (N12 & _) & _).
  assert (I0 : (rq_0 r < num)%nat) by (apply Hlt; unfold idxs; set_solver).
  assert (I1 : (rq_1 r < num)%nat) by (apply Hlt; unfold idxs; set_solver).
  assert (I2 : (rq_2 r < num)%nat) by (apply Hlt; unfold idxs; set_solver).
  split; cbn [submitted set_free vd_free vd_desc vd_info vd_used vd_used_idx vd_used_id].
  - split_and!; cbn; rewrite ?length_insert; try done.
    repeat apply free_bits_insert; [done|by left..].
  - rewrite all_idxs_cons. apply NoDup_app. split_and!; [done|done|done].
  - rewrite all_idxs_cons. apply Forall_app. split.
    + unfold idxs. repeat constructor.
      * by rewrite !list_lookup_insert_ne, list_lookup_insert_eq by (rewrite ?L5; done).
      * by rewrite list_lookup_insert_ne, list_lookup_insert_eq by (rewrite ?length_insert, ?L5; done).
      * by rewrite list_lookup_insert_eq by (rewrite ?length_insert, ?L5; done).
    + apply Forall_forall. intros i Hi. rewrite Forall_forall in H3.
      assert (forall j, j ∈ idxs r -> j <> i) as Hne by (intros j Hj ->; by eapply Hdis).
      rewrite !list_lookup_insert_ne by (apply Hne; unfold idxs; set_solver). by apply H3.
  - rewrite (nfree_take _ _ F0) in H4.
    rewrite (nfree_take (rq_1 r)) in H4 by by rewrite list_lookup_insert_ne.
    rewrite (nfree_take (rq_2 r)) in H4 by by rewrite !list_lookup_insert_ne.
    cbn [length]. lia.
  - constructor.
    + unfold chain. cbn [submitted set_free vd_desc vd_info]. split_and!.
      * by rewrite !list_lookup_insert_ne, list_lookup_insert_eq by (rewrite ?L1; done).
      * by rewrite list_lookup_insert_ne, list_lookup_insert_eq by (rewrite ?length_insert, ?L1; done).
      * by rewrite list_lookup_insert_eq by (rewrite ?length_insert, ?L1; done).
      * by rewrite list_lookup_insert_eq by (rewrite ?L4; done).
    + apply Forall_forall. intros r' Hr'. rewrite Forall_forall in H5. eapply desc_chain_frame; [by apply H5|..];
        cbn [submitted set_free vd_desc vd_info].
      * intros i Hi. assert (forall j, j ∈ idxs r -> j <> i) as Hne.
        { intros j Hj ->. eapply Hdis; [done|]. by eapply idxs_in. }
        by rewrite !list_lookup_insert_ne by (apply Hne; unfold idxs; set_solver).
      * rewrite list_lookup_insert_ne; [done|]. intros E. eapply (Hdis (rq_0 r)); [unfold idxs; set_solver|].
        eapply idxs_in; [done|]. rewrite E. unfold idxs. set_solver.
  - destruct H6 as (A1 & A2 & A3 & A4). unfold on_avail. cbn [submitted set_free vd_avail_idx vd_avail].
    split; [by apply Z.mod_pos_bound|]. rewrite length_app. cbn [length].
    assert (Hu : u16 (Z.of_nat (rq_0 r)) = Z.of_nat (rq_0 r)).
    { unfold u16. apply Z.mod_small. unfold num, NUM in *. lia. }
    split; [|split; [done|]].
    + rewrite A2. unfold u16. rewrite Zplus_mod_idemp_l. f_equal. lia.
    + rewrite Hu. apply (avail_push (vd_avail v) a); [done|lia|done| |done]. by rewrite A2, u16_mod8.
  - done.
  - exact H8.
Qed.

(** The device takes the oldest entry of the available ring. *)
Lemma ring_inv_fetch v dv dv' a d u l : dev_fetch v dv = Some dv' -> (length a < num)%nat ->
  ring_inv v dv a d u l -> ring_inv v dv' (tail a) (d ++ take 1 a) u l.
Proof.
  unfold dev_fetch. intros Hf Ha [H1 H2 H3 H4 H5 (A1 & A2 & A3 & A4) H7 H8].
  destruct (Z.eqb_spec (dv_seen dv) (vd_avail_idx v)) as [|Hne]; [done|]. injection Hf as <-.
  destruct a as [|r a].
  { exfalso. apply Hne. rewrite A2. cbn [length]. rewrite Z.add_0_r. unfold u16. by rewrite Z.mod_small. }
  split; try done.
  - cbn [length tail dv_seen] in *. split; [done|]. cbn [dv_seen]. split; [|split].
    + rewrite A2. unfold u16. rewrite Zplus_mod_idemp_l. f_equal. lia.
    + by apply Z.mod_pos_bound.
    + intros j r' Hj. specialize (A4 (S j) r' Hj).
      rewrite <- Zplus_mod_idemp_l, u16_mod8, Zplus_mod_idemp_l.
      by replace (dv_seen dv + 1 + Z.of_nat j) with (dv_seen dv + Z.of_nat (S j)) by lia.
  - cbn [dv_work take]. rewrite H7, fmap_app. f_equal. cbn. f_equal.
    specialize (A4 0%nat r eq_refl). rewrite Z.add_0_r in A4. by apply list_lookup_total_correct.
Qed.

(** The device completes a chain it has taken. *)
Lemma ring_inv_complete v dv a d1 r d2 u l : r ∈ l -> (length u < num)%nat ->
  ring_inv v dv a (d1 ++ r :: d2) u l ->
  ring_inv (push_used (Z.of_nat (rq_0 r)) (rq_0 r) v)
    (Dev (dv_seen dv) ((fun r => Z.of_nat (rq_0 r)) <$> (d1 ++ d2))) a (d1 ++ d2) (u ++ [r]) l.
Proof.
  intros Hr Hu [(L1 & L2 & L3 & L4 & L5) H2 H3 H4 H5 H6 H7 (U1 & U2 & U3)].
  split; try done.
  - split_and!; cbn; rewrite ?length_insert, ?length_alter; try done; apply L5.
  - rewrite Forall_forall in H5. apply Forall_forall. intros r' Hr'.
    eapply desc_chain_frame; [by apply H5|done|]. cbn. destruct (decide (rq_0 r = rq_0 r')) as [E|E].
    + rewrite E, list_lookup_alter_eq. destruct (H5 r' Hr') as (_ & _ & _ & ->). done.
    + by rewrite list_lookup_alter_ne.
  - split; [done|]. cbn [push_used vd_used_id vd_used_idx vd_used]. rewrite u16_mod8, length_app. cbn [length]. split.
    + rewrite <- Zplus_mod_idemp_l, U2, Zplus_mod_idemp_l. f_equal. lia.
    + by apply avail_push.
Qed.

(** Freeing one descriptor in use. *)
Lemma nfree_freed i v : vd_free v !! i = Some 0 -> nfree (vd_free (freed i v)) = S (nfree (vd_free v)).
Proof. apply nfree_give. Qed.

(** The end of a request. *)
Lemma ring_inv_finish r v dv a d u l : ring_inv v dv a d u (r :: l) -> ring_inv (finished r v) dv a d u l.
Proof.
  intros [H1 H2 H3 H4 H5 H6 H7 H8]. rewrite all_idxs_cons in H2, H3.
  apply NoDup_app in H2 as (Hnd & Hdis & H2). apply Forall_app in H3 as [Hf H3]. apply Forall_cons in H5 as [_ H5].
  assert (Hne : forall i j, i ∈ idxs r -> j ∈ all_idxs l -> i <> j) by (intros i j Hi Hj ->; by eapply Hdis).
  assert (Q0 : rq_0 r ∈ idxs r) by (unfold idxs; set_solver).
  assert (Q1 : rq_1 r ∈ idxs r) by (unfold idxs; set_solver).
  assert (Q2 : rq_2 r ∈ idxs r) by (unfold idxs; set_solver).
  set (v0 := set_info (fun x => Vinfo None (vi_status x)) (rq_0 r) v).
  assert (Hv0 : rings v0).
  { destruct H1 as (?&?&?&?&?). split_and!; cbn; rewrite ?length_alter; done. }
  split; try done.
  - by do 3 apply rings_freed.
  - rewrite Forall_forall in *. intros i Hi. cbn.
    rewrite !list_lookup_insert_ne by (by apply Hne). by apply H3.
  - unfold idxs in Hnd, Hf. rewrite !NoDup_cons, !not_elem_of_cons in Hnd. rewrite !Forall_cons in Hf.
    destruct Hf as (F0 & F1 & F2 & _). destruct Hnd as ((N01 & N02 & _) & (N12 & _) & _). unfold finished.
    rewrite !nfree_freed; [cbn [length] in H4; cbn [set_info vd_free]; lia|done|cbn; by rewrite list_lookup_insert_ne|].
    cbn. by rewrite !list_lookup_insert_ne.
  - rewrite Forall_forall in *. intros r' Hr'. eapply desc_chain_frame; [by apply H5|..]; cbn.
    + intros i Hi. pose proof (idxs_in _ _ _ Hr' Hi). by rewrite !list_lookup_alter_ne by (by apply Hne).
    + rewrite list_lookup_alter_ne; [done|]. apply Hne; [done|]. eapply idxs_in; [done|]. unfold idxs. set_solver.
Qed.

(** The handler has seen all of the used ring. *)
Lemma ring_inv_intr m v dv a d u l : ring_inv v dv a d u l ->
  ring_inv (add_mmio VIRTIO_MMIO_INTERRUPT_ACK m (seen u v)) dv a d [] l.
Proof.
  intros [H1 H2 H3 H4 H5 H6 H7 (U1 & U2 & U3)]. split; try done.
  split; [by apply Z.mod_pos_bound|]. split; [|done].
  cbn [add_mmio seen set_used_idx vd_used_id vd_used_idx length]. by rewrite U2, Z.add_0_r, Zmod_mod.
Qed.
End Ring.

(** ** The buffers *)

Lemma bc_alter_ne f b b' c : b <> b' -> bufs (bc_alter f b c) !!! b' = bufs c !!! b'.
Proof. intros H. unfold bc_alter; cbn. by rewrite !list_lookup_total_alt, list_lookup_alter_ne. Qed.
Lemma bc_alter_eq f b c : (b < length (bufs c))%nat -> bufs (bc_alter f b c) !!! b = f (bufs c !!! b).
Proof.
  intros H. unfold bc_alter; cbn. destruct (lookup_lt_is_Some_2 _ _ H) as [x Hx].
  by rewrite !list_lookup_total_alt, list_lookup_alter_eq, Hx.
Qed.

(** Requests with other buffers see nothing of a change. *)
Definition same_for (c c' : bcache) (l : list req) : Prop :=
  Forall (fun r => bufs c' !!! rq_b r = bufs c !!! rq_b r) l.

Lemma same_for_alter f r c l : NoDup (rq_b <$> (r :: l)) -> same_for c (bc_alter f (rq_b r) c) l.
Proof.
  intros Hnd. cbn in Hnd. apply NoDup_cons in Hnd as [Hnd _]. apply Forall_forall. intros r' Hr'. apply bc_alter_ne.
  intros E. apply Hnd. rewrite E. by apply list_elem_of_fmap_2.
Qed.

Section Buf.
Implicit Types (c : bcache) (D : disk) (r : req) (q u k l : list req).

Lemma Forall_same (P : buf -> req -> Prop) c c' l : same_for c c' l ->
  Forall (fun r => P (bufs c !!! rq_b r) r) l -> Forall (fun r => P (bufs c' !!! rq_b r) r) l.
Proof.
  intros Hs H. apply Forall_forall. intros r Hr. unfold same_for in Hs. rewrite Forall_forall in Hs, H.
  rewrite Hs by done. by apply H.
Qed.

Lemma buf_inv_perm c D q q' u k k' : q ≡ₚ q' -> k ≡ₚ k' -> buf_inv c D q u k -> buf_inv c D q' u k'.
Proof. intros P Q [H1 H2 H3 H4 H5 H6 H7]. split; by rewrite <- ?P, <- ?Q. Qed.

(** Other parts of the kernel leave the buffers of requests alone. *)
Lemma buf_inv_same c c' D q u k : length (bufs c') = length (bufs c) -> same_for c c' (q ++ u ++ k) ->
  buf_inv c D q u k -> buf_inv c' D q u k.
Proof.
  intros Hl Hs [H1 H2 H3 H4 H5 H6 H7]. unfold same_for in Hs.
  assert (Hs' := Hs). apply Forall_app in Hs' as [Sq Suk]. assert (Suk' := Suk). apply Forall_app in Suk' as [Su Sk].
  split; [by rewrite Hl|done|done|..].
  - by apply (Forall_same (fun x r => (rq_b r < nbuf)%nat /\ 0 <= rq_bno r < 2 ^ 31 /\ b_blockno x = rq_bno r /\
      (rq_write r -> b_data x = rq_data r)) c c').
  - apply (Forall_same (fun x _ => b_disk x = 1) c c'); [|done]. by apply Forall_app.
  - by apply (Forall_same (fun x _ => b_disk x = 0) c c').
  - by apply (Forall_same (fun x r => moved D x r) c c').
Qed.

Lemma buf_inv_submit r c D q u k : buf_inv c D q u k ->
  (rq_b r < nbuf)%nat -> rq_b r ∉ (rq_b <$> (q ++ u ++ k)) -> rq_bno r ∉ (rq_bno <$> (q ++ u ++ k)) ->
  0 <= rq_bno r < 2 ^ 31 -> rq_bno r = b_blockno (bufs c !!! rq_b r) -> rq_data r = b_data (bufs c !!! rq_b r) ->
  buf_inv (bc_alter (set_disk_own 1) (rq_b r) c) D (r :: q) u k.
Proof.
  intros Hinv Hb N1 N2 Hr E1 E2. pose proof (bi_bufs _ _ _ _ _ Hinv) as Hnd.
  assert (Hl := bi_len _ _ _ _ _ Hinv).
  apply (buf_inv_same c (bc_alter (set_disk_own 1) (rq_b r) c)) in Hinv as [H1 H2 H3 H4 H5 H6 H7];
    [|by cbn; rewrite length_alter|apply same_for_alter; cbn; by constructor].
  assert (Ex : bufs (bc_alter (set_disk_own 1) (rq_b r) c) !!! rq_b r = set_disk_own 1 (bufs c !!! rq_b r))
    by (apply bc_alter_eq; lia).
  split; cbn [app fmap list_fmap]; [done|by constructor|by constructor|..|done|done].
  - constructor; [|done]. split_and!; [done|apply Hr|apply Hr|rewrite Ex..]; by destruct (bufs c !!! rq_b r).
  - constructor; [|done]. rewrite Ex. by destruct (bufs c !!! rq_b r).
Qed.

Lemma buf_inv_finish r c D q u k : buf_inv c D q u (r :: k) -> buf_inv c D q u k.
Proof.
  intros [H1 H2 H3 H4 H5 H6 H7].
  assert (P : q ++ u ++ r :: k ≡ₚ r :: q ++ u ++ k) by solve_Permutation.
  rewrite P in H2, H3, H4. cbn in H2, H3. split; [done|..|done| |].
  - by apply NoDup_cons in H2 as [_ ?].
  - by apply NoDup_cons in H3 as [_ ?].
  - by apply Forall_cons in H4 as [_ ?].
  - by apply Forall_cons in H6 as [_ ?].
  - apply Forall_app in H7 as [Hu Hk]. apply Forall_app. split; [done|]. by apply Forall_cons in Hk as [_ ?].
Qed.

(** The queues with [r] in front. *)
Lemma perm_used r q u k : q ++ (u ++ [r]) ++ k ≡ₚ r :: q ++ u ++ k.
Proof. solve_Permutation. Qed.

Lemma buf_inv_write r c D q u k : rq_write r -> buf_inv c D (r :: q) u k ->
  buf_inv c (disk_write D (rq_bno r) (b_data (bufs c !!! rq_b r))) q (u ++ [r]) k.
Proof.
  intros Hw [H1 H2 H3 H4 H5 H6 H7]. cbn [app] in *. split; [done|by rewrite perm_used..| |done|].
  - rewrite app_assoc. change (r :: q ++ u) with ([r] ++ (q ++ u)) in H5. by rewrite (Permutation_app_comm (q ++ u)).
  - assert (E : b_data (bufs c !!! rq_b r) = rq_data r) by (apply Forall_cons in H4 as [(_ & _ & _ & E) _]; auto).
    rewrite E. cbn in H3. apply NoDup_cons in H3 as [Hn _].
    assert (P : (u ++ [r]) ++ k ≡ₚ r :: u ++ k) by solve_Permutation. rewrite P. constructor.
    + unfold moved. destruct (rq_write r); [|done]. rewrite disk_block_write. by rewrite decide_True.
    + eapply Forall_impl; [apply Forall_and; split; [exact H7|apply Forall_forall; intros r' Hr'; exact Hr']|].
      intros r' [Hm Hr']. unfold moved in *. rewrite disk_block_write.
      rewrite decide_False; [done|]. intros Eb. apply Hn. rewrite <- Eb. apply list_elem_of_fmap_2. set_solver.
Qed.

Lemma buf_inv_read r c D q u k : rq_write r = false -> buf_inv c D (r :: q) u k ->
  buf_inv (bc_alter (set_data (disk_block D (rq_bno r))) (rq_b r) c) D q (u ++ [r]) k.
Proof.
  intros Hw [H1 H2 H3 H4 H5 H6 H7]. set (f := set_data _).
  assert (Hs : same_for c (bc_alter f (rq_b r) c) (q ++ u ++ k)) by by apply same_for_alter.
  assert (Hs' := Hs). apply Forall_app in Hs' as [Sq Suk]. assert (Suk' := Suk). apply Forall_app in Suk' as [Su Sk].
  cbn [app] in *. apply Forall_cons in H4 as [(R1 & R2 & R3 & R4) H4]. apply Forall_cons in H5 as [O H5].
  assert (E : bufs (bc_alter f (rq_b r) c) !!! rq_b r = f (bufs c !!! rq_b r)) by (apply bc_alter_eq; lia).
  assert (P : (u ++ [r]) ++ k ≡ₚ r :: u ++ k) by solve_Permutation.
  split; [by cbn; rewrite length_alter|by rewrite perm_used|by rewrite perm_used| | | |].
  - rewrite perm_used. constructor.
    + split_and!; [done|apply R2|apply R2|rewrite E; subst f; by destruct (bufs c !!! rq_b r)|by rewrite Hw].
    + by apply (Forall_same (fun x r => (rq_b r < nbuf)%nat /\ 0 <= rq_bno r < 2 ^ 31 /\ b_blockno x = rq_bno r /\
        (rq_write r -> b_data x = rq_data r)) c).
  - rewrite app_assoc, (Permutation_app_comm (q ++ u)). cbn [app]. constructor.
    + rewrite E. subst f. by destruct (bufs c !!! rq_b r).
    + apply (Forall_same (fun x _ => b_disk x = 1) c); [|done]. by apply Forall_app.
  - by apply (Forall_same (fun x _ => b_disk x = 0) c).
  - rewrite P. constructor; [|by apply (Forall_same (fun x r => moved D x r) c)].
    unfold moved. rewrite Hw, E. subst f. by destruct (bufs c !!! rq_b r).
Qed.

Lemma buf_inv_disown r c D q u k : buf_inv c D q (r :: u) k ->
  buf_inv (bc_alter (set_disk_own 0) (rq_b r) c) D q u (k ++ [r]).
Proof.
  intros [H1 H2 H3 H4 H5 H6 H7].
  assert (P : q ++ (r :: u) ++ k ≡ₚ r :: q ++ u ++ k) by solve_Permutation.
  assert (P' : q ++ u ++ k ++ [r] ≡ₚ r :: q ++ u ++ k) by solve_Permutation.
  rewrite P in H2, H3, H4. apply Forall_cons in H4 as [(R1 & R2 & R3 & R4) H4].
  assert (Hs : same_for c (bc_alter (set_disk_own 0) (rq_b r) c) (q ++ u ++ k)) by by apply same_for_alter.
  assert (Hs' := Hs). apply Forall_app in Hs' as [Sq Suk]. assert (Suk' := Suk). apply Forall_app in Suk' as [Su Sk].
  assert (E : bufs (bc_alter (set_disk_own 0) (rq_b r) c) !!! rq_b r = set_disk_own 0 (bufs c !!! rq_b r))
    by (apply bc_alter_eq; lia).
  split; [by cbn; rewrite length_alter|by rewrite P'|by rewrite P'| | | |].
  - rewrite P'. constructor.
    + split_and!; [done|apply R2|apply R2|rewrite E; by destruct (bufs c !!! rq_b r)..].
    + by apply (Forall_same (fun x r => (rq_b r < nbuf)%nat /\ 0 <= rq_bno r < 2 ^ 31 /\ b_blockno x = rq_bno r /\
        (rq_write r -> b_data x = rq_data r)) c).
  - apply (Forall_same (fun x _ => b_disk x = 1) c); [by apply Forall_app|].
    apply Forall_app in H5 as [Hq Hu]. apply Forall_cons in Hu as [_ Hu]. by apply Forall_app.
  - apply Forall_app. split; [by apply (Forall_same (fun x _ => b_disk x = 0) c)|].
    constructor; [|done]. rewrite E. by destruct (bufs c !!! rq_b r).
  - assert (P2 : u ++ k ++ [r] ≡ₚ r :: u ++ k) by solve_Permutation. rewrite P2.
    cbn [app] in H7. apply Forall_cons in H7 as [M H7].
    constructor; [|by apply (Forall_same (fun x r => moved D x r) c)].
    rewrite E. unfold moved in *. by destruct (bufs c !!! rq_b r).
Qed.

Lemma buf_inv_intr c D q u k : buf_inv c D q u k -> buf_inv (disown u c) D q [] (k ++ u).
Proof.
  revert c k. induction u as [|r u IH]; intros c k H; [by rewrite app_nil_r|].
  apply buf_inv_disown, IH in H. by rewrite <- app_assoc in H.
Qed.
End Buf.
