(* ===== verification/VirtioProto.v ===== *)
(** * The disk driver keeps its promises

    The invariant of VirtioRing holds in every state the threads, the device and the
    interrupts can reach, and what follows from it: no panic, no descriptor lost, and
    exactly one transfer per request.  Then virtio_disk_init, which establishes it,
    and virtio_disk_rw from beginning to end. *)
From stdpp Require Import prelude gmap strings relations.
From Stdlib Require Import ZArith Lia.
From S2P Require Import Prelude Memory Spinlock Riscv Kalloc Proc Bytes State Sleeplock Bio Virtio VirtioSpec VirtioRing.
Open Scope Z_scope.

Section Worlds.
Context {SC : Sched}.
Implicit Types (v : vdisk) (c : bcache) (t : proctab) (w : world kstate).

Lemma ready_up v c t w : length (procs t) = nproc -> ready w -> ready (touch (up v c t w)).
Proof.
  intros Ht [[H1 [p (H2 & H3 & H4)] H5] H6]. split; [|done]. split.
  - by apply cpu_ok_touch.
  - exists p. apply runs_touch. by split_and!.
  - by apply procs_unlocked_touch.
Qed.

(** Everything but the process table may change under a ready world. *)
Lemma ready_data (s : kstate) w : ks_tab s = ks_tab (data w) -> ready w ->
  ready (World (tp w) (harts w) (locks w) s).
Proof.
  intros E [[H1 [p (H2 & H3 & H4)] H5] H6]. split; [|done]. split; [done| |done].
  exists p. split_and!; [done..|]. unfold compc in *. cbn in *. by rewrite E.
Qed.

Lemma locked_run {A} (m : K kstate A) (x : A) v c t w : ready w ->
  m (crit (ks_vd (data w)) (ks_bc (data w)) (ks_tab (data w)) w) = Ok (x, crit v c t w) ->
  locked_ m w = Ok (x, touch (up v c t w)).
Proof.
  intros [Hq Hl] Hm. unfold locked_. rewrite (bind_Ok _ _ _ _ _ (acquire_ok L_vdisk w Hl)).
  unfold crit in Hm at 1. rewrite up_id in Hm. rewrite (bind_Ok _ _ _ _ _ Hm).
  rewrite (bind_Ok _ _ _ ()  (touch (up v c t w))); [done|]. apply release_acq; [by apply Hq|done].
Qed.

Lemma ready_len w : ready w -> length (procs (ks_tab (data w))) = nproc.
Proof. intros [Hq _]. by apply quiet_len in Hq. Qed.

(** An attempt to start a request, when there are descriptors and when not. *)
Lemma start_run b write w : ready w -> rings (ks_vd (data w)) ->
  let v := ks_vd (data w) in let x := the_buf b w in
  if decide (3 <= nfree (vd_free v))%nat then
    exists i0 i1 i2, let r := Req b write (b_blockno x) (b_data x) i0 i1 i2 in
      NoDup (idxs r) /\ Forall (fun i => vd_free v !! i = Some 1) (idxs r) /\
      locked_ (rw_start b write) w =
      Ok (Some (Z.of_nat i0, Z.of_nat i1, Z.of_nat i2),
        touch (up (submitted r (set_free i2 0 (set_free i1 0 (set_free i0 0 v))))
                  (bc_alter (set_disk_own 1) b (ks_bc (data w))) (ks_tab (data w)) w))
  else
    exists v' t', same_used v v' /\ length (procs t') = nproc /\
      locked_ (rw_start b write) w = Ok (None, touch (up v' (ks_bc (data w)) t' w)).
Proof.
  intros Hr Hv v x. assert (Hv' := Hv). destruct Hv' as (L1 & L2 & L3 & L4 & [L5 L6]).
  pose proof (alloc3_desc_run v (ks_bc (data w)) (ks_tab (data w)) w Hr (conj L5 L6) (ready_len w Hr)) as HA.
  destruct (decide (3 <= nfree (vd_free v))%nat).
  - destruct HA as (i0 & i1 & i2 & Hnd & Hf & E). exists i0, i1, i2. intros r. split_and!; [done|done|].
    apply locked_run; [done|]. unfold rw_start. rewrite (bind_Ok _ _ _ _ _ E).
    set (v3 := set_free i2 0 _).
    erewrite bind_Ok; [done|]. apply (submit_run r v3); [| |done].
    + subst v3. split_and!; cbn; try done. repeat apply free_bits_insert; try (by left). done.
    + eapply Forall_impl; [exact Hf|]. intros i Hi. rewrite <- L5. exact (lookup_lt_Some _ _ _ Hi).
  - destruct HA as (v' & t' & Hs & Ht & E). exists v', t'. split_and!; [done|done|].
    apply locked_run; [done|]. unfold rw_start. by rewrite (bind_Ok _ _ _ _ _ E).
Qed.

Lemma finish_run r dv a d u l w : ready w -> ring_inv (ks_vd (data w)) dv a d u (r :: l) ->
  exists t', length (procs t') = nproc /\
    locked_ (rw_finish (Z.of_nat (rq_0 r))) w =
    Ok ((), touch (up (finished r (ks_vd (data w))) (ks_bc (data w)) t' w)).
Proof.
  intros Hr [H1 H2 H3 H4 H5 H6 H7 H8]. rewrite all_idxs_cons in H2, H3.
  apply NoDup_app in H2 as (Hnd & _). apply Forall_app in H3 as [Hf _]. apply Forall_cons in H5 as [Hc _].
  destruct (rw_finish_run r _ (ks_bc (data w)) (ks_tab (data w)) w Hr H1 (ready_len w Hr) Hc Hnd Hf) as (t' & Ht & E).
  exists t'. split; [done|]. by apply locked_run.
Qed.
End Worlds.

(** What the device does with a chain of the driver. *)
Lemma complete_run (s : kstate) (r : req) : chain (ks_vd s) r -> 0 <= rq_bno r < 2 ^ 31 ->
  dev_complete (Z.of_nat (rq_0 r)) s =
  Some (set_vd (push_used (Z.of_nat (rq_0 r)) (rq_0 r) (ks_vd s))
    (if rq_write r then set_disk (disk_write (ks_disk s) (rq_bno r) (b_data (bufs (ks_bc s) !!! rq_b r))) s
     else set_bc (bc_alter (set_data (disk_block (ks_disk s) (rq_bno r))) (rq_b r) (ks_bc s)) s)).
Proof.
  intros (C0 & C1 & C2 & _) Hn. unfold dev_complete. rewrite Nat2Z.id, C0. cbn [mbind option_bind].
  change (vr_next (desc_0 r)) with (Z.of_nat (rq_1 r)). rewrite Nat2Z.id, C1. cbn [mbind option_bind].
  change (vr_next (desc_1 r)) with (Z.of_nat (rq_2 r)). rewrite Nat2Z.id, C2. cbn [mbind option_bind].
  unfold desc_0, desc_1, desc_2. cbn [vr_addr].
  assert (E : u32 (rq_bno r * (BSIZE / 512)) / (BSIZE / 512) = rq_bno r).
  { change (BSIZE / 512) with 2. rewrite u32_id by lia. apply Z.div_mul. lia. }
  rewrite E. by destruct (rq_write r).
Qed.

Section Inv.
Context {SC : Sched} {HW : VirtioHw}.
Hypothesis status_read : forall w, exists x, mmio_read VIRTIO_MMIO_INTERRUPT_STATUS w = Ok (x, w).
Variable D0 : disk.
Implicit Types (s : vsys) (w : world kstate).

Lemma in_flight_few s : vinv D0 s -> (length (in_flight s) <= 2)%nat.
Proof. intros H. pose proof (ri_count _ _ _ _ _ _ (vi_ring _ _ H)). unfold num, NUM in *. lia. Qed.

Lemma queue_few s : vinv D0 s -> (length (vs_a s) <= length (in_flight s))%nat /\ (length (vs_a s) < num)%nat /\
  (length (vs_u s) < num)%nat.
Proof.
  intros H. pose proof (in_flight_few s H) as Hl. unfold in_flight in *. rewrite !length_app in *.
  unfold num, NUM. lia.
Qed.

Lemma vinv_start w dv a d u k dn b write i0 i1 i2 w' :
  startable (Vsys w dv a d u k dn) b ->
  locked_ (rw_start b write) w = Ok (Some (Z.of_nat i0, Z.of_nat i1, Z.of_nat i2), w') ->
  vinv D0 (Vsys w dv a d u k dn) ->
  vinv D0 (Vsys w' dv (a ++ [Req b write (b_blockno (the_buf b w)) (b_data (the_buf b w)) i0 i1 i2]) d u k dn).
Proof.
  intros (S1 & S2 & S3 & S4 & S5) E Hinv. pose proof (queue_few _ Hinv) as (Hq & _ & _).
  destruct Hinv as [Hr Hring Hbuf HD]. cbn [vs_w vs_dev vs_a vs_d vs_u vs_k vs_done in_flight] in *.
  pose proof (start_run b write w Hr (ri_rings _ _ _ _ _ _ Hring)) as HS. cbv zeta in HS. cbn beta in HS.
  case_decide as Hd; [|destruct HS as (? & ? & _ & _ & HS); congruence].
  destruct HS as (j0 & j1 & j2 & Hnd & Hf & HS). rewrite HS in E. injection E as E0 E1 E2 <-.
  apply Nat2Z.inj in E0 as ->. apply Nat2Z.inj in E1 as ->. apply Nat2Z.inj in E2 as ->.
  set (r := Req b write _ _ i0 i1 i2) in *.
  split; cbn [vs_w vs_dev vs_a vs_d vs_u vs_k vs_done].
  - apply ready_up; [by apply ready_len|done].
  - eapply ring_inv_perm; [|by eapply (ring_inv_submit r)].
    unfold in_flight; cbn. solve_Permutation.
  - eapply (buf_inv_perm _ _ (r :: a ++ d)); [solve_Permutation|done|].
    apply (buf_inv_submit r); try done; by rewrite <- app_assoc.
  - done.
Qed.

Lemma vinv_wait w dv a d u k dn b write w' :
  locked_ (rw_start b write) w = Ok (None, w') ->
  vinv D0 (Vsys w dv a d u k dn) -> vinv D0 (Vsys w' dv a d u k dn).
Proof.
  intros E [Hr Hring Hbuf HD]. cbn [vs_w vs_dev vs_a vs_d vs_u vs_k vs_done] in *.
  pose proof (start_run b write w Hr (ri_rings _ _ _ _ _ _ Hring)) as HS. cbv zeta in HS. cbn beta in HS.
  case_decide as Hd; [destruct HS as (? & ? & ? & _ & _ & HS); congruence|].
  destruct HS as (v' & t' & Hs & Ht & HS). rewrite HS in E. injection E as <-.
  split; [by apply ready_up|by eapply ring_inv_same|done|done].
Qed.

Lemma vinv_complete w dv a d u k dn j h (s' : kstate) :
  dv_work dv !! j = Some h -> dev_complete h (data w) = Some s' ->
  vinv D0 (Vsys w dv a d u k dn) ->
  vinv D0 (Vsys (World (tp w) (harts w) (locks w) s')
         (Dev (dv_seen dv) (delete j (dv_work dv))) a (delete j d) (u ++ option_list (d !! j)) k (dn ++ option_list (d !! j))).
Proof.
  intros Hh E Hinv. pose proof (queue_few _ Hinv) as (_ & _ & Hu).
  destruct Hinv as [Hr Hring Hbuf HD]. cbn [vs_w vs_dev vs_a vs_d vs_u vs_k vs_done in_flight] in *.
  pose proof (ri_work _ _ _ _ _ _ Hring) as Ew. rewrite Ew in Hh |- *.
  apply list_lookup_fmap_Some in Hh as (r & -> & Hj). rewrite Hj. change (option_list (Some r)) with [r].
  rewrite <- (take_drop_middle d j r Hj) in Hring, Hbuf. rewrite <- list_fmap_delete, delete_take_drop.
  set (d1 := take j d) in *. set (d2 := drop (S j) d) in *.
  set (l := in_flight _) in Hring.
  assert (Hl : r ∈ l) by (subst l; unfold in_flight; cbn; set_solver).
  assert (Hreq : req_buf (ks_bc (data w)) r).
  { pose proof (bi_req _ _ _ _ _ Hbuf) as H. rewrite Forall_forall in H. apply H. set_solver. }
  pose proof (ri_chain _ _ _ _ _ _ Hring) as Hc. rewrite Forall_forall in Hc. specialize (Hc r Hl).
  rewrite (complete_run _ _ Hc) in E by apply Hreq. injection E as <-.
  assert (Hbuf' : buf_inv (ks_bc (data w)) (ks_disk (data w)) (r :: a ++ d1 ++ d2) u k).
  { eapply buf_inv_perm; [|done|exact Hbuf]. solve_Permutation. }
  assert (P : l ≡ₚ in_flight (Vsys w dv a (d1 ++ d2) (u ++ [r]) k dn)).
  { subst l. unfold in_flight; cbn. solve_Permutation. }
  split; cbn [vs_w vs_dev vs_a vs_d vs_u vs_k vs_done data].
  - apply ready_data; [by destruct (rq_write r)|done].
  - eapply ring_inv_perm; [exact P|]. destruct (rq_write r); by apply ring_inv_complete.
  - destruct (rq_write r) eqn:Hw; [apply buf_inv_write|apply buf_inv_read]; by rewrite ?Hw.
  - unfold replay. rewrite foldl_app. fold (replay D0 dn). rewrite <- HD. cbn [foldl].
    destruct Hreq as (_ & _ & _ & Hdt). destruct (rq_write r) eqn:Hw; [|done].
    cbn. by rewrite Hdt.
Qed.

Lemma vinv_intr w dv a d u k dn w' : virtio_disk_intr w = Ok ((), w') ->
  vinv D0 (Vsys w dv a d u k dn) -> vinv D0 (Vsys w' dv a d [] (k ++ u) dn).
Proof.
  intros E Hinv. pose proof (queue_few _ Hinv) as (_ & _ & Hu).
  destruct Hinv as [Hr Hring Hbuf HD]. cbn [vs_w vs_dev vs_a vs_d vs_u vs_k vs_done] in *.
  assert (Hi : Forall (fun r => vd_info (ks_vd (data w)) !! rq_0 r = Some (Vinfo (Some (rq_b r)) 0)) u).
  { pose proof (ri_chain _ _ _ _ _ _ Hring) as Hc. unfold in_flight in Hc. cbn in Hc.
    rewrite !Forall_app in Hc. destruct Hc as (_ & _ & Hc & _). eapply Forall_impl; [exact Hc|]. by intros ? (_ & _ & _ & ?). }
  destruct (intr_run status_read u _ (ks_bc (data w)) _ w Hr (ready_len w Hr) (ri_used _ _ _ _ _ _ Hring) Hu Hi)
    as (m & t' & Ht & E2).
  rewrite up_id in E2. rewrite E2 in E. injection E as <-.
  split; [by apply ready_up| | |done].
  - eapply ring_inv_perm; [|by apply ring_inv_intr]. unfold in_flight; cbn. solve_Permutation.
  - by apply buf_inv_intr.
Qed.

Lemma filter_one (k1 k2 : list req) r : NoDup (rq_b <$> (k1 ++ r :: k2)) ->
  filter (fun x => rq_b x <> rq_b r) (k1 ++ r :: k2) = k1 ++ k2.
Proof.
  intros Hnd. assert (Ha : forall l : list req, rq_b r ∉ rq_b <$> l -> filter (fun x => rq_b x <> rq_b r) l = l).
  { intros l Hl. induction l as [|x l IH]; [done|]. cbn in Hl. apply not_elem_of_cons in Hl as [H1 H2].
    rewrite filter_cons_True by congruence. by rewrite IH. }
  rewrite fmap_app, fmap_cons in Hnd. apply NoDup_app in Hnd as (_ & H1 & H2). apply NoDup_cons in H2 as [H2 _].
  rewrite filter_app, filter_cons_False by tauto. rewrite !Ha; [done|done|]. intros H. apply (H1 _ H). by left.
Qed.
Lemma vinv_finish w dv a d u k1 r k2 dn w' : locked_ (rw_finish (Z.of_nat (rq_0 r))) w = Ok ((), w') ->
  vinv D0 (Vsys w dv a d u (k1 ++ r :: k2) dn) -> vinv D0 (Vsys w' dv a d u (k1 ++ k2) dn).
Proof.
  intros E [Hr Hring Hbuf HD]. cbn [vs_w vs_dev vs_a vs_d vs_u vs_k vs_done] in *.
  apply (ring_inv_perm _ _ _ _ _ _ (r :: in_flight (Vsys w dv a d u (k1 ++ k2) dn))) in Hring;
    [|unfold in_flight; cbn; solve_Permutation].
  destruct (finish_run r _ _ _ _ _ w Hr Hring) as (t' & Ht & E2). rewrite E2 in E. injection E as <-.
  split; [by apply ready_up|by apply ring_inv_finish| |done].
  eapply buf_inv_finish, buf_inv_perm; [| |exact Hbuf]; [done|solve_Permutation].
Qed.

Lemma vinv_step s s' : vstep s s' -> vinv D0 s -> vinv D0 s'.
Proof.
  intros Hs Hinv. destruct Hs.
  - by eapply vinv_start.
  - by eapply vinv_wait.
  - pose proof (queue_few _ Hinv) as (_ & Ha & _). destruct Hinv as [Hr Hring Hbuf HD].
    split; [done| | |done]; cbn [vs_w vs_dev vs_a vs_d vs_u vs_k] in *.
    + eapply ring_inv_perm; [|by eapply ring_inv_fetch]. unfold in_flight; cbn. destruct a; cbn; [by rewrite app_nil_r|].
      rewrite ?take_0. solve_Permutation.
    + eapply buf_inv_perm; [|done|exact Hbuf]. destruct a; cbn; [by rewrite app_nil_r|]. rewrite ?take_0. solve_Permutation.
  - by eapply vinv_complete.
  - by eapply vinv_intr.
  - assert (Hk : r ∈ k).
    { unfold in_flight in H. cbn in H. rewrite !app_assoc in H. apply elem_of_app in H as [H|H]; [|done].
      destruct H0. pose proof (bi_own _ _ _ _ _ (vi_buf _ _ Hinv)) as Ho. rewrite Forall_forall in Ho. by apply Ho. }
    apply list_elem_of_split in Hk as (k1 & k2 & ->). rewrite filter_one; [by eapply vinv_finish|].
    pose proof (bi_bufs _ _ _ _ _ (vi_buf _ _ Hinv)) as Hb. cbn [vs_k vs_a vs_d vs_u] in Hb.
    rewrite app_assoc, fmap_app in Hb. by apply NoDup_app in Hb as (_ & _ & Hb).
  - destruct H as (Ho & Ev & Ed & El & Eb). destruct Hinv as [Hr Hring Hbuf HD].
    split; cbn [vs_w vs_dev vs_a vs_d vs_u vs_k vs_done] in *; [done|by rewrite Ev| |by rewrite Ed].
    rewrite Ed. eapply buf_inv_same; [exact El| |exact Hbuf]. apply Forall_forall. intros r Hin. apply Eb.
    apply list_elem_of_fmap_2. unfold in_flight. cbn. by rewrite <- app_assoc in Hin.
Qed.
End Inv.

(** ** What follows for every reachable state *)

(** No request is under way. *)
Record idle (v : vdisk) (dv : dev) : Prop := {
  id_rings : rings v;
  id_free : nfree (vd_free v) = num;
  id_avail : on_avail v dv [];
  id_work : dv_work dv = [];
  id_used : on_used v [];
}.

Lemma idle_inv w dv : ready w -> idle (ks_vd (data w)) dv -> length (bufs (ks_bc (data w))) = S nbuf ->
  vinv (ks_disk (data w)) (Vsys w dv [] [] [] [] []).
Proof.
  intros Hr [H1 H2 H3 H4 H5] Hl. split; cbn; [done| | |done].
  - split; try done; [apply NoDup_nil_2|cbn; by rewrite H2].
  - split; cbn; try done; apply NoDup_nil_2.
Qed.

Section Safe.
Context {SC : Sched} {HW : VirtioHw}.
Hypothesis status_read : forall w, exists x, mmio_read VIRTIO_MMIO_INTERRUPT_STATUS w = Ok (x, w).

Lemma vinv_reach D0 s s' : rtc vstep s s' -> vinv D0 s -> vinv D0 s'.
Proof. induction 1 as [|s1 s2 s3 Hs _ IH]; intros H; [done|]. apply IH. by eapply vinv_step. Qed.

Lemma start_total D0 s b write : vinv D0 s ->
  exists x w', locked_ (rw_start b write) (vs_w s) = Ok (x, w') /\ (x = None <-> length (in_flight s) = 2%nat).
Proof.
  intros H. pose proof (in_flight_few _ _ H) as Hl. pose proof (ri_count _ _ _ _ _ _ (vi_ring _ _ H)) as Hn.
  pose proof (start_run b write (vs_w s) (vi_ready _ _ H) (ri_rings _ _ _ _ _ _ (vi_ring _ _ H))) as HS.
  cbv zeta in HS. unfold num, NUM in Hn. case_decide as Hd.
  - destruct HS as (i0 & i1 & i2 & _ & _ & E). do 2 eexists. split; [exact E|]. split; [done|lia].
  - destruct HS as (v' & t' & _ & _ & E). do 2 eexists. split; [exact E|]. split; [lia|done].
Qed.

Lemma intr_total D0 s : vinv D0 s -> exists w', virtio_disk_intr (vs_w s) = Ok ((), w').
Proof.
  intros H. pose proof (queue_few _ _ H) as (_ & _ & Hu). destruct H as [Hr Hring _ _].
  assert (Hi : Forall (fun r => vd_info (ks_vd (data (vs_w s))) !! rq_0 r = Some (Vinfo (Some (rq_b r)) 0)) (vs_u s)).
  { pose proof (ri_chain _ _ _ _ _ _ Hring) as Hc. unfold in_flight in Hc. rewrite !Forall_app in Hc.
    destruct Hc as (_ & _ & Hc & _). eapply Forall_impl; [exact Hc|]. by intros ? (_ & _ & _ & ?). }
  destruct (intr_run status_read _ _ (ks_bc (data (vs_w s))) _ (vs_w s) Hr (ready_len _ Hr)
    (ri_used _ _ _ _ _ _ Hring) Hu Hi) as (m & t' & _ & E).
  rewrite up_id in E. eauto.
Qed.

Lemma complete_total D0 s h : vinv D0 s -> h ∈ dv_work (vs_dev s) -> is_Some (dev_complete h (data (vs_w s))).
Proof.
  intros [_ Hring Hbuf _] Hh. rewrite (ri_work _ _ _ _ _ _ Hring) in Hh. apply list_elem_of_fmap in Hh as (r & -> & Hr).
  pose proof (ri_chain _ _ _ _ _ _ Hring) as Hc. pose proof (bi_req _ _ _ _ _ Hbuf) as Hq.
  rewrite Forall_forall in Hc, Hq. rewrite complete_run; [by eexists|apply Hc|].
  - unfold in_flight. set_solver.
  - apply Hq. set_solver.
Qed.

Lemma finish_total D0 s r : vinv D0 s -> r ∈ vs_k s ->
  exists w', locked_ (rw_finish (Z.of_nat (rq_0 r))) (vs_w s) = Ok ((), w').
Proof.
  intros [Hr Hring _ _] Hk. apply list_elem_of_split in Hk as (k1 & k2 & Ek).
  eapply (ring_inv_perm _ _ _ _ _ _ (r :: vs_a s ++ vs_d s ++ vs_u s ++ k1 ++ k2)) in Hring.
  2:{ unfold in_flight. rewrite Ek. solve_Permutation. }
  destruct (finish_run r _ _ _ _ _ _ Hr Hring) as (t' & _ & E). eauto.
Qed.

(** C9: The disk driver under any interleaving of threads, device and interrupts: in
    every state reached from an idle driver, (1) the descriptors are either free or
    belong to exactly one request, three each, so at most two requests are under way;
    (2) the disk is the original one with the completed writes; (3) an attempt to
    start a request never panics, and it has to wait exactly when two are under way;
    (4) the interrupt handler returns; (5) what the device has read off the available
    ring are the heads of requests that were started, in order, and it finds a
    well-formed chain for each; (6) the owner of a buffer waits exactly until the handler
    has acknowledged its request, then the block has been moved, and giving back the
    descriptors does not panic. *)
Theorem virtio_driver_safe (w0 : world kstate) (dv0 : dev) (s : vsys) :
  ready w0 -> idle (ks_vd (data w0)) dv0 -> length (bufs (ks_bc (data w0))) = S nbuf ->
  rtc vstep (Vsys w0 dv0 [] [] [] [] []) s ->
  (nfree (vd_free (ks_vd (data (vs_w s)))) + 3 * length (in_flight s) = num)%nat /\ NoDup (all_idxs (in_flight s)) /\
  ks_disk (data (vs_w s)) = replay (ks_disk (data w0)) (vs_done s) /\
  (forall b write, exists x w', locked_ (rw_start b write) (vs_w s) = Ok (x, w') /\
     (x = None <-> length (in_flight s) = 2%nat)) /\
  (exists w', virtio_disk_intr (vs_w s) = Ok ((), w')) /\
  dv_work (vs_dev s) = (fun r => Z.of_nat (rq_0 r)) <$> vs_d s /\
  (forall h, h ∈ dv_work (vs_dev s) -> is_Some (dev_complete h (data (vs_w s)))) /\
  (forall r, r ∈ vs_a s ++ vs_d s ++ vs_u s -> b_disk (the_buf (rq_b r) (vs_w s)) = 1) /\
  (forall r, r ∈ vs_k s -> b_disk (the_buf (rq_b r) (vs_w s)) = 0 /\
     moved (ks_disk (data (vs_w s))) (the_buf (rq_b r) (vs_w s)) r /\
     exists w', locked_ (rw_finish (Z.of_nat (rq_0 r))) (vs_w s) = Ok ((), w')).
Proof.
  intros Hr Hi Hl Hs. pose proof (vinv_reach _ _ _ Hs (idle_inv _ _ Hr Hi Hl)) as H.
  split; [apply (vi_ring _ _ H)|]. split; [apply (vi_ring _ _ H)|]. split; [apply (vi_disk _ _ H)|].
  split; [intros; by eapply start_total|]. split; [by eapply intr_total|]. split; [apply (vi_ring _ _ H)|]. split; [intros; by eapply complete_total|].
  pose proof (vi_buf _ _ H) as [_ _ _ _ Ho Ha Hm]. rewrite Forall_forall in Ho, Ha, Hm. split.
  - intros r Hin. apply Ho. by rewrite <- app_assoc.
  - intros r Hin. split; [by apply Ha|]. split; [apply Hm; set_solver|by eapply finish_total].
Qed.
End Safe.

(** ** One request from beginning to end

    A machine on which the calling process is the only one: while it sleeps, the
    scheduler gives up its lock, the device serves the newest entry of the available
    ring, the interrupt handler runs, and the process is resumed. *)
Definition dev_serve : K kstate () := fun w =>
  let v := ks_vd (data w) in
  match dev_complete (vd_avail v !!! Z.to_nat ((vd_avail_idx v - 1) mod NUM)) (data w) with
  | Some s => Ok ((), World (tp w) (harts w) (locks w) s)
  | None => Blocked
  end.

Definition served `{!VirtioHw} : K kstate () :=
  cp ← gets (fun w => c_proc (h_cpu (cur w)));
  match cp with
  | Some p =>
      release (L_proc p) ;; (dev_serve ;; virtio_disk_intr) ;; acquire (L_proc p) ;; upd_proc (set_state RUNNING) p
  | None => blocked
  end.
#[local] Instance disk_sched `{!VirtioHw} : Sched := {| resume := served; wakeups := 2 |}.

Section Whole.
Context {HW : VirtioHw}.
Hypothesis status_read : forall w, exists x, mmio_read VIRTIO_MMIO_INTERRUPT_STATUS w = Ok (x, w).
Implicit Types (v : vdisk) (c : bcache) (t : proctab) (w : world kstate) (r : req).

(** The disk and the buffers after the device has served [r]. *)
Definition rw_data r (s : kstate) : kstate :=
  if rq_write r then set_disk (disk_write (ks_disk s) (rq_bno r) (b_data (bufs (ks_bc s) !!! rq_b r))) s
  else set_bc (bc_alter (set_data (disk_block (ks_disk s) (rq_bno r))) (rq_b r) (ks_bc s)) s.

(** The request is alone on the available ring: the device and the handler take it
    all the way. *)
Lemma serve_run r dv w : ready w -> 0 <= rq_bno r < 2 ^ 31 ->
  ring_inv (ks_vd (data w)) dv [r] [] [] [r] ->
  exists v2 t2 dv2, length (procs t2) = nproc /\ ring_inv v2 dv2 [] [] [] [r] /\
    (dev_serve ;; virtio_disk_intr) w =
    Ok ((), touch (World (tp w) (harts w) (locks w)
      (set_tab t2 (set_bc (disown [r] (ks_bc (rw_data r (data w)))) (set_vd v2 (rw_data r (data w))))))).
Proof.
  intros Hr Hn Hring. set (v := ks_vd (data w)) in *.
  pose proof (ri_avail _ _ _ _ _ _ Hring) as (A1 & A2 & A3 & A4).
  assert (Hh : vd_avail v !!! Z.to_nat ((vd_avail_idx v - 1) mod NUM) = Z.of_nat (rq_0 r)).
  { apply list_lookup_total_correct. specialize (A4 0%nat r eq_refl). rewrite Z.add_0_r in A4.
    rewrite A2. unfold NUM. rewrite <- Zminus_mod_idemp_l. change 8 with NUM. rewrite u16_mod8. unfold NUM.
    rewrite Zminus_mod_idemp_l. cbn [length]. by replace (dv_seen dv + Z.of_nat 1 - 1) with (dv_seen dv) by lia. }
  pose proof (Forall_inv (ri_chain _ _ _ _ _ _ Hring)) as Hc.
  assert (E1 : dev_serve w = Ok ((), World (tp w) (harts w) (locks w)
    (set_vd (push_used (Z.of_nat (rq_0 r)) (rq_0 r) v) (rw_data r (data w))))).
  { unfold dev_serve. fold v. rewrite Hh, (complete_run _ _ Hc Hn). done. }
  assert (Hf : dev_fetch v dv = Some (Dev (u16 (dv_seen dv + 1)) (dv_work dv ++ [vd_avail v !!! Z.to_nat (dv_seen dv mod NUM)]))).
  { unfold dev_fetch. rewrite (proj2 (Z.eqb_neq _ _)); [done|]. rewrite A2. cbn [length]. unfold u16.
    intros E. pose proof (Z.div_mod (dv_seen dv + Z.of_nat 1) (2 ^ 16) ltac:(lia)) as E2.
    rewrite <- E in E2. change (2 ^ 16) with 65536 in E2. lia. }
  assert (H8 : (length [r] < num)%nat) by (unfold num, NUM; cbn; lia).
  pose proof (ring_inv_fetch _ _ _ _ _ _ _ Hf H8 Hring) as R2. cbn [tail take app] in R2.
  apply (ring_inv_complete _ _ _ [] r [] []) in R2; [|set_solver|cbn; lia]. cbn [app] in R2.
  set (v1 := push_used _ _ v) in *. set (w1 := World (tp w) (harts w) (locks w) (set_vd v1 (rw_data r (data w)))) in *.
  assert (Hr1 : ready w1) by (apply ready_data; [unfold rw_data; by destruct (rq_write r)|done]).
  assert (Hv1 : ks_vd (data w1) = v1) by done.
  destruct (intr_run status_read [r] v1 (ks_bc (data w1)) (ks_tab (data w1)) w1 Hr1 (ready_len _ Hr1)
    (ri_used _ _ _ _ _ _ R2) H8
    ltac:(constructor; [apply (Forall_inv (ri_chain _ _ _ _ _ _ R2))|constructor])) as (m & t2 & Ht2 & E2).
  rewrite <- Hv1 in E2 at 1. rewrite up_id in E2.
  do 3 eexists. split; [exact Ht2|]. split; [by eapply ring_inv_intr, R2|].
  rewrite (bind_Ok _ _ _ _ _ E1). exact E2.
Qed.

Lemma ready_kframe w w' : kframe w w' -> length (procs (ks_tab (data w'))) = nproc -> ready w -> ready w'.
Proof.
  intros F Hl [[H1 [p (H2 & H3 & _)] H5] H6]. split; [|by eapply kframe_lock_free]. split.
  - by eapply kframe_cpu_ok.
  - exists p. split_and!; [|done|done]. destruct (kframe_cur _ _ F) as (_ & _ & ->). done.
  - by eapply procs_unlocked_kframe.
Qed.

(** A thread that is resumed on its old hart finds its interrupt state. *)
Lemma kframe_resumed w w' : kframe w w' -> noff (h_cpu (cur w)) = 0 ->
  kframe w (set_hart (thread_hart (cur w) (cur w')) w').
Proof.
  intros F Hn. destruct (kframe_cur _ _ F) as (E1 & E2 & E3). destruct F as (Ht & Hl & Hh).
  assert (E : thread_hart (cur w) (cur w') = Hart (sstatus (cur w)) (Cpu (c_proc (h_cpu (cur w))) 0 (new_intena (cur w)))).
  { unfold thread_hart. rewrite E1, E2, E3, Hn. f_equal. unfold new_intena. rewrite Hn. cbn [Z.eqb].
    destruct (Z.eqb_spec (Z.land (sstatus (cur w)) SSTATUS_SIE) 0) as [E|E]; cbn [negb Z.eqb].
    - by apply sie_clear.
    - by apply sie_restore. }
  rewrite E. split_and!; [done|done|].
  assert (Eh : forall X, <[tp w := X]> (harts w') = <[tp w := X]> (harts w)).
  { intros X. unfold touch, set_hart in Hh. cbn in Hh. rewrite Ht in Hh. apply (f_equal (insert (tp w) X)) in Hh.
    by rewrite !insert_insert_eq in Hh. }
  unfold touch. rewrite cur_set_hart. unfold set_hart; cbn. rewrite Ht, insert_insert_eq, Eh.
  f_equal. f_equal. rewrite Hn. f_equal. unfold new_intena; cbn. by rewrite Hn.
Qed.

Lemma kframe_lift (s : kstate) w : kframe w (World (tp w) (harts w) (locks w) s).
Proof. done. Qed.

(** What the sleeping process finds when it is resumed. *)
Lemma served_run r dv p w : ready w -> runs w p -> 0 <= rq_bno r < 2 ^ 31 ->
  ring_inv (ks_vd (data w)) dv [r] [] [] [r] ->
  exists w2 v2 t2 dv2, length (procs t2) = nproc /\ ring_inv v2 dv2 [] [] [] [r] /\ kframe w w2 /\
    data w2 = set_tab t2 (set_bc (disown [r] (ks_bc (rw_data r (data w)))) (set_vd v2 (rw_data r (data w)))) /\
    served (acq (L_proc p) w) = Ok ((), acq (L_proc p) w2).
Proof.
  intros Hr (Hp & Hlt & Hlen) Hn Hring. assert (Hr' := Hr). destruct Hr' as [Hq _].
  assert (Hrt : ready (touch w)) by (split; [by apply quiet_touch|apply Hr]).
  destruct (serve_run r dv (touch w) Hrt Hn Hring) as (v2 & t2 & dv2 & Ht2 & R2 & E).
  change (data (touch w)) with (data w) in E. set (w' := World _ _ _ _) in E.
  assert (F : kframe w (touch w')).
  { etrans; [apply kframe_touch|]. etrans; [|apply kframe_touch]. done. }
  eexists _, v2, (tab_alter (set_state RUNNING) p t2), dv2.
  split; [by cbn; rewrite length_alter|]. split; [done|].
  assert (Hfree : lock_free (L_proc p) w) by (by apply Hq).
  split; [|split]; cycle 2.
  - unfold served. rewrite bind_gets, c_proc_acq, Hp.
    rewrite (bind_Ok _ _ _ _ _ (release_acq (L_proc p) w (q_cpu _ Hq) Hfree)).
    rewrite (bind_Ok _ _ _ _ _ E).
    rewrite (bind_Ok _ _ _ _ _ (acquire_ok (L_proc p) (touch w') ltac:(by eapply kframe_lock_free))).
    rewrite upd_proc_run, updc_acq. reflexivity.
  - etrans; [exact F|]. apply kframe_updc.
  - done.
Qed.

(** Alterations of one buffer only matter at the buffer. *)
Lemma bc_alter_ext f g b c : f (bufs c !!! b) = g (bufs c !!! b) -> bc_alter f b c = bc_alter g b c.
Proof.
  intros E. unfold bc_alter. f_equal. apply list_eq. intros j. destruct (decide (b = j)) as [<-|Hne].
  - rewrite !list_lookup_alter_eq. rewrite list_lookup_total_alt in E. destruct (bufs c !! b); [|done].
    cbn in *. by rewrite E.
  - by rewrite !list_lookup_alter_ne.
Qed.
Lemma bc_alter_alter f g b c : bc_alter f b (bc_alter g b c) = bc_alter (f ∘ g) b c.
Proof. unfold bc_alter. cbn. f_equal. apply list_eq. intros j. destruct (decide (b = j)) as [<-|Hne].
  - rewrite !list_lookup_alter_eq. by destruct (bufs c !! b).
  - by rewrite !list_lookup_alter_ne.
Qed.
Lemma bc_alter_id b c : bc_alter id b c = c.
Proof.
  destruct c as [l]. unfold bc_alter. cbn. f_equal. apply list_eq. intros j. destruct (decide (b = j)) as [<-|Hne].
  - rewrite list_lookup_alter_eq. by destruct (l !! b).
  - by rewrite list_lookup_alter_ne.
Qed.

Lemma upd_norm1 v v' t t' D c1 (s : kstate) :
  set_tab t' (set_bc (ks_bc s) (set_vd v' (set_disk D (set_tab t (set_bc c1 (set_vd v s)))))) = set_vd v' (set_tab t' (set_disk D s)).
Proof. by destruct s. Qed.
Lemma upd_norm2 v v' t t' c1 c2 c3 (s : kstate) :
  set_tab t' (set_bc c3 (set_vd v' (set_bc c2 (set_tab t (set_bc c1 (set_vd v s)))))) = set_vd v' (set_tab t' (set_bc c3 s)).
Proof. by destruct s. Qed.

(** Giving the buffer to the device, serving the request and taking it back is the
    effect that the buffer cache relies on. *)
Lemma rw_data_effect b write v t (s : kstate) i0 i1 i2 :
  b_disk (bufs (ks_bc s) !!! b) = 0 -> (b < length (bufs (ks_bc s)))%nat ->
  let r := Req b write (b_blockno (bufs (ks_bc s) !!! b)) (b_data (bufs (ks_bc s) !!! b)) i0 i1 i2 in
  let s1 := rw_data r (set_tab t (set_bc (bc_alter (set_disk_own 1) b (ks_bc s)) (set_vd v s))) in
  forall v' t', set_tab t' (set_bc (disown [r] (ks_bc s1)) (set_vd v' s1)) = set_vd v' (set_tab t' (rw_effect b write s)).
Proof.
  intros H0 Hb r s1 v' t'. subst s1 r. unfold rw_data, rw_effect. cbn [rq_write rq_bno rq_b].
  set (c := ks_bc s) in *. set (c1 := bc_alter (set_disk_own 1) b c).
  assert (Ex : bufs c1 !!! b = set_disk_own 1 (bufs c !!! b)) by by apply bc_alter_eq.
  change (ks_bc (set_tab t (set_bc c1 (set_vd v s)))) with c1.
  change (ks_disk (set_tab t (set_bc c1 (set_vd v s)))) with (ks_disk s).
  destruct write; cbn [disown foldl rq_b].
  - change (ks_bc (set_disk ?D (set_tab t (set_bc c1 (set_vd v s))))) with c1. unfold c1 at 1. rewrite bc_alter_alter.
    rewrite (bc_alter_ext _ id), bc_alter_id by (cbn; destruct (bufs c !!! b); cbn in *; by rewrite H0).
    change (set_bc c) with (set_bc (ks_bc s)). rewrite upd_norm1, Ex. by destruct (bufs c !!! b).
  - set (g := set_data _). change (ks_bc (set_bc (bc_alter g b c1) ?s)) with (bc_alter g b c1).
    rewrite upd_norm2. unfold c1. rewrite !bc_alter_alter.
    rewrite (bc_alter_ext _ g); [done|]. subst g. cbn. destruct (bufs c !!! b); cbn in *. by rewrite H0.
Qed.

Lemma rw_effect_disk b write (s : kstate) : b_disk (bufs (ks_bc s) !!! b) = 0 -> (b < length (bufs (ks_bc s)))%nat ->
  b_disk (bufs (ks_bc (rw_effect b write s)) !!! b) = 0.
Proof.
  intros H0 Hb. unfold rw_effect. destruct write; [done|].
  change (ks_bc (set_bc ?c s)) with c. rewrite bc_alter_eq by done. by destruct (bufs (ks_bc s) !!! b).
Qed.

Lemma ring_inv_idle v dv : ring_inv v dv [] [] [] [] -> idle v dv.
Proof. intros [H1 _ _ H4 _ H6 H7 H8]. split; try done. cbn in H4. lia. Qed.

(** The part of virtio_disk_rw up to the request being on the available ring. *)
Lemma submit_idle b write w dv : ready w -> idle (ks_vd (data w)) dv -> length (bufs (ks_bc (data w))) = S nbuf ->
  exists i0 i1 i2 v1, let r := Req b write (b_blockno (the_buf b w)) (b_data (the_buf b w)) i0 i1 i2 in
    ring_inv v1 dv [r] [] [] [r] /\
    (idx ← loop wakeups wait_desc_body (); submit b write idx ;; mret idx) (acq L_vdisk w) =
    Ok ((Z.of_nat i0, Z.of_nat i1, Z.of_nat i2),
        crit v1 (bc_alter (set_disk_own 1) b (ks_bc (data w))) (ks_tab (data w)) w).
Proof.
  intros Hr Hi Hl. pose proof (idle_inv w dv Hr Hi Hl) as [_ Hring _ _]. cbn in Hring.
  destruct (ri_rings _ _ _ _ _ _ Hring) as (L1 & L2 & L3 & L4 & L5).
  pose proof (alloc3_desc_run _ (ks_bc (data w)) _ w Hr L5 (ready_len w Hr)) as HA.
  rewrite decide_True in HA by (rewrite (id_free _ _ Hi); unfold num, NUM; lia).
  destruct HA as (i0 & i1 & i2 & Hnd & Hf & E). exists i0, i1, i2.
  exists (submitted (Req b write (b_blockno (the_buf b w)) (b_data (the_buf b w)) i0 i1 i2)
    (set_free i2 0 (set_free i1 0 (set_free i0 0 (ks_vd (data w)))))). intros r. split.
  { by apply (ring_inv_submit r _ _ [] [] [] []). }
  unfold crit in E at 1. rewrite up_id in E.
  erewrite bind_Ok; [|apply loop_exit; unfold wait_desc_body; rewrite (bind_Ok _ _ _ _ _ E); reflexivity].
  set (v3 := set_free i2 0 _). erewrite bind_Ok; [done|]. apply (submit_run r v3); [| |done].
  - subst v3. split_and!; cbn; try done. repeat apply free_bits_insert; try (by left). done.
  - eapply Forall_impl; [exact Hf|]. intros i Hx. rewrite <- (proj1 L5). exact (lookup_lt_Some _ _ _ Hx).
Qed.

(** The wait for the device. *)
Lemma wait_served r dv p w1 : ready w1 -> runs w1 p -> noff (h_cpu (cur w1)) = 0 -> 0 <= rq_bno r < 2 ^ 31 ->
  ring_inv (ks_vd (data w1)) dv [r] [] [] [r] -> b_disk (the_buf (rq_b r) w1) = 1 ->
  exists t, let s1 := rw_data r (set_tab t (data w1)) in
  b_disk (bufs (disown [r] (ks_bc s1)) !!! rq_b r) = 0 ->
  exists W v2 t2 dv2, ready W /\ kframe w1 W /\ length (procs t2) = nproc /\ ring_inv v2 dv2 [] [] [] [r] /\
    data W = set_tab t2 (set_bc (disown [r] (ks_bc s1)) (set_vd v2 s1)) /\
    sleep_while (x ← get_buf (rq_b r); mret (b_disk x =? 1)) (Ch_buf (rq_b r)) L_vdisk (acq L_vdisk w1)
    = Ok ((), acq L_vdisk W).
Proof.
  intros Hr Hp Hn Hb Hring Hd. assert (Hp' := Hp). destruct Hp' as (Hp1 & Hp2 & Hp3).
  set (tA := tab_alter (asleep (Ch_buf (rq_b r))) p (ks_tab (data w1))). exists tA. intros s1 H0.
  set (w1' := updc tA w1).
  assert (HtA : length (procs tA) = nproc) by (cbn; rewrite length_alter; done).
  assert (F1 : kframe w1 w1') by done.
  assert (Hr1 : ready w1') by (eapply ready_kframe; [exact F1|done|done]).
  assert (Hp1' : runs w1' p) by (by split_and!).
  destruct (served_run r dv p w1' Hr1 Hp1' Hb Hring) as (w2 & v2 & t2 & dv2 & Ht2 & R2 & F2 & D2 & E2).
  change (rw_data r (data w1')) with s1 in D2.
  assert (F12 : kframe w1 w2) by (etrans; [exact F1|exact F2]).
  assert (Hf2 : forall l, lock_free l w1 -> lock_free l w2) by (intros l; by apply kframe_lock_free).
  assert (Hp2f : lock_free (L_proc p) w1) by (by apply Hr).
  pose proof (sleep_run served (Ch_buf (rq_b r)) L_vdisk p w1 w2 ltac:(apply Hr) Hn Hp1 ltac:(done) ltac:(apply Hr)
    Hp2f ltac:(rewrite Hp3; done) E2 ltac:(destruct (kframe_cur _ _ F12) as (_ & -> & _); done)
    (Hf2 _ ltac:(apply Hr)) (Hf2 _ Hp2f)) as ES.
  set (W := updc _ (set_hart _ w2)) in ES.
  assert (HFW : kframe w1 W) by (etrans; [by apply kframe_resumed|apply kframe_updc]).
  assert (DW : data W = set_tab (tab_alter (set_chan None) p t2) (set_bc (disown [r] (ks_bc s1)) (set_vd v2 s1))).
  { change (data W) with (set_tab (tab_alter (set_chan None) p (ks_tab (data w2))) (data w2)). by rewrite D2. }
  exists W, v2, (tab_alter (set_chan None) p t2), dv2.
  assert (HtW : length (procs (tab_alter (set_chan None) p t2)) = nproc) by (cbn; by rewrite length_alter).
  split; [eapply ready_kframe; [exact HFW|by rewrite DW|done]|]. split; [done|]. split; [done|]. split; [done|].
  split; [done|].
  unfold sleep_while. cbn [wakeups disk_sched].
  assert (B1 : bufs (compc (T := bcache) (acq L_vdisk w1)) !!! rq_b r = the_buf (rq_b r) w1) by done.
  rewrite (loop_next _ _ _ _ () (acq L_vdisk W)).
  - apply loop_exit. unfold get_buf. rewrite !bind_assoc, bind_getD, !bind_mret.
    change (compc (T := bcache) (acq L_vdisk W)) with (ks_bc (data W)). rewrite DW.
    change (ks_bc (set_tab ?t (set_bc ?c ?s))) with c. by rewrite H0.
  - unfold get_buf. rewrite !bind_assoc, bind_getD, !bind_mret, B1, Hd. cbn [Z.eqb Pos.eqb].
    by rewrite (bind_Ok _ _ _ _ _ ES).
Qed.

End Whole.

(** ** Initialization *)

Section Init.
Context {HW : VirtioHw} (regs : Z -> Z).
Hypothesis regs_read : forall r w, mmio_read r w = Ok (regs r, w).
Implicit Types (v : vdisk) (w : world kstate).

Lemma upd_vd_at f v w : upd_vd f (updc v w) = Ok ((), updc (f v) w).
Proof. unfold upd_vd, get_vd. rewrite bind_getD, compc_updc. unfold putD. by rewrite updc_updc. Qed.

Lemma upd_vd_any f w : upd_vd f w = Ok ((), updc (f (ks_vd (data w))) w).
Proof. done. Qed.

Lemma free_all n i v w :
  for_each (seq i n) (fun i => upd_vd (set_free i 1)) (updc v w) =
  Ok ((), updc (foldl (fun v i => set_free i 1 v) v (seq i n)) w).
Proof.
  revert i v. induction n as [|n IH]; intros i v; [done|]. cbn [seq for_each].
  rewrite (bind_Ok _ _ _ _ _ (upd_vd_at _ v w)). apply IH.
Qed.

(** The device is the one the driver is written for. *)
Definition right_device : Prop :=
  regs VIRTIO_MMIO_MAGIC_VALUE = 0x74726976 /\ regs VIRTIO_MMIO_VERSION = 1 /\
  regs VIRTIO_MMIO_DEVICE_ID = 2 /\ regs VIRTIO_MMIO_VENDOR_ID = 0x554d4551 /\ NUM <= regs VIRTIO_MMIO_QUEUE_NUM_MAX.

(** The rings after initialization, but for the record of register writes. *)
Definition fresh (ux : Z) (info : list vinfo) (mm : list (Z * Z)) : vdisk :=
  Vdisk (repeat desc0 num) 0 (repeat 0 num) 0 (repeat 0 num) (repeat 1 num) ux info mm.

Lemma fresh_idle info mm : length info = num -> idle (fresh 0 info mm) (Dev 0 []).
Proof.
  intros Hi. split; [split_and!; try done; by vm_compute; repeat constructor; right|done| |done|].
  - split; [done|]. split; [done|]. split; [done|]. by intros j r Hj.
  - split; [done|]. split; [done|]. by intros j r Hj.
Qed.

Lemma init_run pages w : right_device -> length (vd_free (ks_vd (data w))) = num ->
  exists mm, virtio_disk_init pages w =
    Ok ((), updc (fresh (vd_used_idx (ks_vd (data w))) (vd_info (ks_vd (data w))) mm)
      (set_lock L_vdisk (Spinlock 0 "virtio_disk" None) w)).
Proof.
  intros (R1 & R2 & R3 & R4 & R5) Hl. unfold virtio_disk_init, initlock. rewrite bind_modify.
  set (w0 := set_lock _ _ w). set (v := ks_vd (data w)) in *.
  rewrite !(bind_Ok _ _ _ _ _ (regs_read _ w0)), R1, R2, R3, R4. cbn [Z.eqb Pos.eqb negb orb].
  unfold mmio_write.
  rewrite (bind_Ok _ _ _ _ _ (upd_vd_any _ w0)). change (ks_vd (data w0)) with v.
  rewrite (bind_Ok _ _ _ _ _ (upd_vd_at _ _ w0)). rewrite (bind_Ok _ _ _ _ _ (regs_read _ _)).
  do 5 rewrite (bind_Ok _ _ _ _ _ (upd_vd_at _ _ w0)). rewrite (bind_Ok _ _ _ _ _ (regs_read _ _)).
  unfold NUM in R5. rewrite (proj2 (Z.eqb_neq _ _)) by lia. rewrite (proj2 (Z.ltb_ge _ _)) by (unfold NUM; lia).
  do 3 rewrite (bind_Ok _ _ _ _ _ (upd_vd_at _ _ w0)). rewrite free_all.
  destruct v as [de ai av ui us fr ux inf mm]. cbn [vd_free vd_used_idx vd_info] in *.
  destruct fr as [|? [|? [|? [|? [|? [|? [|? [|? [|? ?]]]]]]]]]; try discriminate Hl. eexists. reflexivity.
Qed.

(** virtio_disk_init: with the right device it returns with an idle driver and the
    lock free; the zeroed rings are announced by page number.  With another device, or
    a queue that is too short, it panics. *)
Theorem virtio_disk_init_correct (pages : Z) (w : world kstate) :
  (regs VIRTIO_MMIO_MAGIC_VALUE <> 0x74726976 -> virtio_disk_init pages w = Panic "could not find virtio disk") /\
  (right_device -> vd_used_idx (ks_vd (data w)) = 0 -> length (vd_free (ks_vd (data w))) = num ->
   length (vd_info (ks_vd (data w))) = num ->
   exists w', virtio_disk_init pages w = Ok ((), w') /\ lock_free L_vdisk w' /\
     idle (ks_vd (data w')) (Dev 0 []) /\ forall v, set_vd v (data w') = set_vd v (data w)).
Proof.
  split.
  - intros Hm. unfold virtio_disk_init, initlock. rewrite bind_modify.
    rewrite !(bind_Ok _ _ _ _ _ (regs_read _ _)). by rewrite (proj2 (Z.eqb_neq _ _) Hm).
  - intros Hd H0 Hf Hi. destruct (init_run pages w Hd Hf) as [mm E]. eexists. split; [exact E|]. split_and!.
    + exists "virtio_disk". apply lookup_insert_eq.
    + rewrite H0. by apply fresh_idle.
    + intros v. by destruct w as [? ? ? []].
Qed.
End Init.

(** ** Witnesses *)

Definition ex_hw : VirtioHw := {| mmio_read r := mret (if r =? VIRTIO_MMIO_QUEUE_NUM_MAX then 8 else 0) |}.
Definition ex_vd : vdisk := fresh 0 (repeat (Vinfo None 0) num) [].
Definition ex_vw : world kstate :=
  run_world 3 (set_vd ex_vd (set_tab tab_example kstate0)).

Lemma ex_vw_ready : ready ex_vw.
Proof.
  split; [split|].
  - split; vm_compute; congruence.
  - exists 3%nat. split_and!; [done|unfold nproc, NPROC; lia|by vm_compute].
  - intros i Hi. exact (proc_world_unlocked i Hi).
  - exists "". by vm_compute.
Qed.

Lemma ex_status : forall w, exists x, mmio_read (VirtioHw := ex_hw) VIRTIO_MMIO_INTERRUPT_STATUS w = Ok (x, w).
Proof. intros w. by eexists. Qed.


Lemma virtio_driver_safe_witness :
  exists s, rtc (vstep (HW := ex_hw)) (Vsys ex_vw (Dev 0 []) [] [] [] [] []) s /\
    length (vs_d s) = 1%nat /\ exists h, dv_work (vs_dev s) = [h] /\ is_Some (dev_complete h (data (vs_w s))).
Proof.
  pose proof (start_run 4 true ex_vw ex_vw_ready (id_rings _ _ (fresh_idle (repeat (Vinfo None 0) num) [] eq_refl))) as HS.
  cbv zeta in HS. rewrite decide_True in HS by (vm_compute; lia).
  destruct HS as (i0 & i1 & i2 & _ & _ & E).
  match type of E with _ = Ok (_, ?w1) => set (w' := w1) in E end.
  set (r := Req 4 true (b_blockno (the_buf 4 ex_vw)) (b_data (the_buf 4 ex_vw)) i0 i1 i2) in *.
  assert (Hf : exists dv', dev_fetch (ks_vd (data w')) (Dev 0 []) = Some dv') by by eexists.
  destruct Hf as [dv' Hf].
  assert (Hs : rtc (vstep (HW := ex_hw)) (Vsys ex_vw (Dev 0 []) [] [] [] [] []) (Vsys w' dv' [] [r] [] [] [])).
  { eapply rtc_l, rtc_once, (v_fetch (HW := ex_hw) w' (Dev 0 []) [r] [] [] [] [] dv' Hf).
    apply (v_start (HW := ex_hw) _ _ [] _ _ _ _ 4 true i0 i1 i2); [|exact E].
    split_and!; [vm_compute; lia|by apply not_elem_of_nil..|by vm_compute|by vm_compute|done]. }
  eexists. split; [exact Hs|]. split; [done|].
  destruct (virtio_driver_safe (HW := ex_hw) ex_status ex_vw (Dev 0 []) _ ex_vw_ready
    (fresh_idle (repeat (Vinfo None 0) num) [] eq_refl) eq_refl Hs) as (_ & _ & _ & _ & _ & Hw & Hc & _).
  eexists. split; [exact Hw|]. apply Hc. rewrite Hw. by left.
Defined.
