(* ===== verification/BioView.v ===== *)
(** * The buffer cache as a view of the disk

    What a process sees through bread, how many references each block has, and
    what the operations of bio.c do to that: reading never changes what is
    seen, an update stays visible as long as its buffer is referenced, and a
    buffer is recycled only when it agrees with the disk. *)
From stdpp Require Import prelude gmap strings.
From Stdlib Require Import ZArith Lia.
From S2P Require Import Prelude Spinlock Riscv Proc Bytes State Sleeplock Bio.
Open Scope Z_scope.

(** ** The cache as a view of the disk *)

Section View.
Implicit Types (s : kstate) (n m : Z) (i j : nat).

Definition buf_at s i : buf := bufs (ks_bc s) !!! i.

(** Buffer [i] is the one for block [n]. *)
Definition is_buf s i n : Prop :=
  (i < nbuf)%nat /\ b_dev (buf_at s i) = ROOTDEV /\ b_blockno (buf_at s i) = n.

(** The invariant of the cache.  Every buffer nobody refers to is clean and
    unlocked, except those in [ex] (buffers a routine is in the middle of
    releasing). *)
Record binv s (l : list nat) (ex : nat -> Prop) : Prop := {
  bi_lru : lru (ks_bc s) l;
  bi_buf : forall i, (i < nbuf)%nat ->
    b_disk (buf_at s i) = 0 /\ 0 <= b_blockno (buf_at s i) < 2 ^ 31 /\
    0 <= b_refcnt (buf_at s i) < 2 ^ 32 /\
    (b_valid (buf_at s i) <> 0 -> b_dev (buf_at s i) = ROOTDEV);
  bi_uniq : forall i j n, is_buf s i n -> is_buf s j n -> i = j;
  bi_clean : forall i, (i < nbuf)%nat -> ~ ex i -> b_refcnt (buf_at s i) = 0 -> b_valid (buf_at s i) <> 0 ->
    b_data (buf_at s i) = disk_block (ks_disk s) (b_blockno (buf_at s i));
  bi_lock : forall i, (i < nbuf)%nat -> ~ ex i -> b_refcnt (buf_at s i) = 0 ->
    sl_locked (ks_sl s !!! L_buf i) = 0;
}.

(** No exceptions. *)
Definition none : nat -> Prop := fun _ => False.

Definition cached s n : option nat := first_buf (is_block (ks_bc s) ROOTDEV n) (seq 0 nbuf).

(** What a process that reads block [n] through the cache sees. *)
Definition view s n : blk :=
  match cached s n with
  | Some i => if b_valid (buf_at s i) =? 0 then disk_block (ks_disk s) n else b_data (buf_at s i)
  | None => disk_block (ks_disk s) n
  end.
(** How many references the cache holds on block [n]. *)
Definition refs s n : Z :=
  match cached s n with Some i => b_refcnt (buf_at s i) | None => 0 end.
(** Whether the buffer of block [n] is locked. *)
Definition locked_block s n : Prop :=
  exists i, is_buf s i n /\ sl_locked (ks_sl s !!! L_buf i) <> 0.

Lemma is_block_is_buf s i n : (i < nbuf)%nat -> is_block (ks_bc s) ROOTDEV n i = true <-> is_buf s i n.
Proof.
  intros Hi. unfold is_block, is_buf, buf_at. rewrite andb_true_iff, !Z.eqb_eq. tauto.
Qed.

Lemma cached_Some s l ex i n : binv s l ex -> cached s n = Some i <-> is_buf s i n.
Proof.
  intros Hb. unfold cached. split.
  - intros [Hi%elem_of_seq H]%first_buf_Some. apply is_block_is_buf; [lia|done].
  - intros Hi. destruct (first_buf _ _) as [j|] eqn:E.
    + apply first_buf_Some in E as [Hj%elem_of_seq H]. apply is_block_is_buf in H; [|lia].
      f_equal. by eapply bi_uniq.
    + destruct Hi as [Hlt H]. eapply first_buf_None with (i := i) in E; [|apply elem_of_seq; lia].
      exfalso. rewrite (proj2 (is_block_is_buf s i n Hlt)) in E by by split. done.
Qed.
Lemma cached_None s n : cached s n = None <-> forall i, ~ is_buf s i n.
Proof.
  unfold cached. split.
  - intros E i [Hlt H]. eapply first_buf_None with (i := i) in E; [|apply elem_of_seq; lia].
    rewrite (proj2 (is_block_is_buf s i n Hlt)) in E by by split. done.
  - intros H. destruct (first_buf _ _) as [j|] eqn:E; [|done].
    apply first_buf_Some in E as [Hj%elem_of_seq E]. apply is_block_is_buf in E; [|lia]. by edestruct H.
Qed.

Lemma view_buf s l ex i n : binv s l ex -> is_buf s i n ->
  view s n = if b_valid (buf_at s i) =? 0 then disk_block (ks_disk s) n else b_data (buf_at s i).
Proof. intros Hb Hi. unfold view. by rewrite (proj2 (cached_Some s l ex i n Hb) Hi). Qed.
Lemma view_none s n : (forall i, ~ is_buf s i n) -> view s n = disk_block (ks_disk s) n.
Proof. intros H. unfold view. by rewrite (proj2 (cached_None s n) H). Qed.
Lemma refs_buf s l ex i n : binv s l ex -> is_buf s i n -> refs s n = b_refcnt (buf_at s i).
Proof. intros Hb Hi. unfold refs. by rewrite (proj2 (cached_Some s l ex i n Hb) Hi). Qed.
Lemma refs_none s n : (forall i, ~ is_buf s i n) -> refs s n = 0.
Proof. intros H. unfold refs. by rewrite (proj2 (cached_None s n) H). Qed.

(** A block without references reads as it is on disk. *)
Lemma view_unref s l n : binv s l none -> refs s n = 0 -> view s n = disk_block (ks_disk s) n.
Proof.
  intros Hb Hr. destruct (cached s n) as [i|] eqn:E.
  - apply (cached_Some s l none i n Hb) in E. rewrite (view_buf s l none i n) by done.
    rewrite (refs_buf s l none i n) in Hr by done. destruct (Z.eqb_spec (b_valid (buf_at s i)) 0); [done|].
    destruct E as (Hi & _ & <-). apply (bi_clean _ _ _ Hb); [done|by intros []|done..].
  - apply view_none. by apply cached_None.
Qed.

(** Replacing buffer [i]. *)
Definition put_buf i (x : buf) s : kstate := set_bc (bc_alter (fun _ => x) i (ks_bc s)) s.

Lemma buf_at_put s l ex i j x : binv s l ex -> (i < nbuf)%nat ->
  buf_at (put_buf i x s) j = if decide (j = i) then x else buf_at s j.
Proof.
  intros Hb Hi. unfold buf_at, put_buf. cbn [ks_bc set_bc]. rewrite bc_lookup_alter; [done|].
  pose proof (lru_len _ _ (bi_lru _ _ _ Hb)). lia.
Qed.

(** Two buffers agree on everything the list and the identity depend on. *)
Definition same_place (x y : buf) : Prop :=
  b_next x = b_next y /\ b_prev x = b_prev y /\ b_dev x = b_dev y /\ b_blockno x = b_blockno y.

Lemma is_buf_put s l ex i x j n : binv s l ex -> (i < nbuf)%nat -> same_place x (buf_at s i) ->
  is_buf (put_buf i x s) j n <-> is_buf s j n.
Proof.
  intros Hb Hi (_ & _ & Hd & Hn). unfold is_buf. rewrite (buf_at_put s l ex) by done.
  case_decide; [subst; by rewrite Hd, Hn|done].
Qed.

Lemma lru_put s l ex i x : binv s l ex -> (i < nbuf)%nat ->
  b_next x = b_next (buf_at s i) -> b_prev x = b_prev (buf_at s i) -> lru (ks_bc (put_buf i x s)) l.
Proof.
  intros Hb Hi Hn Hp. destruct (bi_lru _ _ _ Hb) as [L1 L2 L3 L4].
  split; [by cbn; rewrite length_alter|done..|].
  eapply chain_ext; [| |exact L4]; intros k _; unfold nxt, prv;
    change (bufs (ks_bc (put_buf i x s)) !!! k) with (buf_at (put_buf i x s) k);
    rewrite (buf_at_put s l ex) by done; case_decide; subst; done.
Qed.

(** Changing a buffer that stays the buffer of the same block. *)
Lemma binv_put s l ex ex' i x : binv s l ex -> (i < nbuf)%nat -> same_place x (buf_at s i) ->
  b_disk x = 0 -> 0 <= b_refcnt x < 2 ^ 32 -> (b_valid x <> 0 -> b_dev x = ROOTDEV) ->
  (~ ex' i -> b_refcnt x = 0 ->
     sl_locked (ks_sl s !!! L_buf i) = 0 /\
     (b_valid x <> 0 -> b_data x = disk_block (ks_disk s) (b_blockno x))) ->
  (forall j, j <> i -> ~ ex' j -> ~ ex j) ->
  binv (put_buf i x s) l ex'.
Proof.
  intros Hb Hi Hs Hd Hr Hv Hc He. pose proof Hs as (H1 & H2 & H3 & H4). split.
  - by eapply lru_put.
  - intros j Hj. rewrite (buf_at_put s l ex) by done. case_decide; [|by apply (bi_buf _ _ _ Hb)].
    subst. destruct (bi_buf _ _ _ Hb i Hi) as (_ & ? & _). rewrite H4. done.
  - intros j k n Hj Hk. rewrite (is_buf_put s l ex) in Hj, Hk by done. by eapply bi_uniq.
  - intros j Hj Hex. rewrite (buf_at_put s l ex) by done. case_decide; [subst; naive_solver|].
    apply (bi_clean _ _ _ Hb); [done|by apply He].
  - intros j Hj Hex. rewrite (buf_at_put s l ex) by done. case_decide; [subst; naive_solver|].
    apply (bi_lock _ _ _ Hb); [done|by apply He].
Qed.

(** ... and what is then seen of the cache. *)
Lemma view_put s l ex ex' i x n m : binv s l ex -> binv (put_buf i x s) l ex' ->
  same_place x (buf_at s i) -> is_buf s i n ->
  view (put_buf i x s) m =
  if decide (m = n) then (if b_valid x =? 0 then disk_block (ks_disk s) n else b_data x) else view s m.
Proof.
  intros Hb Hb' Hs Hi. pose proof Hi as [Hlt _]. case_decide as E.
  - subst m. rewrite (view_buf _ l ex' i n) by (by rewrite ?(is_buf_put s l ex)).
    rewrite (buf_at_put s l ex) by done. by rewrite decide_True.
  - destruct (cached s m) as [j|] eqn:Ej.
    + apply (cached_Some s l ex) in Ej; [|done].
      assert (j <> i) by (intros ->; destruct Hi as (_ & _ & ?), Ej as (_ & _ & ?); congruence).
      rewrite (view_buf _ l ex' j m), (view_buf s l ex j m) by (by rewrite ?(is_buf_put s l ex)).
      rewrite (buf_at_put s l ex) by done. by rewrite decide_False.
    + pose proof (proj1 (cached_None s m) Ej) as Hn. rewrite !view_none; [done|done|].
      intros j. by rewrite (is_buf_put s l ex).
Qed.

Lemma refs_put s l ex ex' i x n m : binv s l ex -> binv (put_buf i x s) l ex' ->
  same_place x (buf_at s i) -> is_buf s i n ->
  refs (put_buf i x s) m = if decide (m = n) then b_refcnt x else refs s m.
Proof.
  intros Hb Hb' Hs Hi. pose proof Hi as [Hlt _]. case_decide as E.
  - subst m. rewrite (refs_buf _ l ex' i n) by (by rewrite ?(is_buf_put s l ex)).
    rewrite (buf_at_put s l ex) by done. by rewrite decide_True.
  - destruct (cached s m) as [j|] eqn:Ej.
    + apply (cached_Some s l ex) in Ej; [|done].
      assert (j <> i) by (intros ->; destruct Hi as (_ & _ & ?), Ej as (_ & _ & ?); congruence).
      rewrite (refs_buf _ l ex' j m), (refs_buf s l ex j m) by (by rewrite ?(is_buf_put s l ex)).
      rewrite (buf_at_put s l ex) by done. by rewrite decide_False.
    + pose proof (proj1 (cached_None s m) Ej) as Hn. rewrite !refs_none; [done|done|].
      intros j. by rewrite (is_buf_put s l ex).
Qed.

(** Giving an unused buffer to a block that is not cached. *)
Section Recycle.
Context s l i x n (Hb : binv s l none) (Hi : (i < nbuf)%nat)
  (Hr0 : b_refcnt (buf_at s i) = 0) (Hno : forall j, ~ is_buf s j n)
  (Hn : b_next x = b_next (buf_at s i)) (Hp : b_prev x = b_prev (buf_at s i))
  (Hdev : b_dev x = ROOTDEV) (Hbn : b_blockno x = n) (Hd : b_disk x = 0) (Hrc : b_refcnt x = 1)
  (Hnr : 0 <= n < 2 ^ 31) (Hv : b_valid x <> 0) (Hdt : b_data x = disk_block (ks_disk s) n).

Lemma is_buf_recycle j m : is_buf (put_buf i x s) j m <-> (j = i /\ m = n) \/ (j <> i /\ is_buf s j m).
Proof.
  unfold is_buf. rewrite (buf_at_put s l none) by done. case_decide; [subst; naive_solver|naive_solver].
Qed.

Lemma binv_recycle : binv (put_buf i x s) l none.
Proof.
  split.
  - by eapply lru_put.
  - intros j Hj. rewrite (buf_at_put s l none) by done. case_decide; [|by apply (bi_buf _ _ _ Hb)].
    subst n. rewrite Hd, Hrc. split_and!; (done || lia).
  - intros j k m. rewrite !is_buf_recycle. intros [[-> ->]|[Hj1 Hj2]] [[-> Hk]|[Hk1 Hk2]]; try done.
    + by edestruct Hno.
    + subst. by edestruct Hno.
    + by eapply bi_uniq.
  - intros j Hj _. rewrite (buf_at_put s l none) by done. case_decide; [subst; lia|].
    apply (bi_clean _ _ _ Hb); [done|intros []].
  - intros j Hj _. rewrite (buf_at_put s l none) by done. case_decide; [subst; lia|].
    apply (bi_lock _ _ _ Hb); [done|intros []].
Qed.

Lemma view_recycle m : view (put_buf i x s) m = view s m.
Proof.
  destruct (decide (m = n)) as [->|Hne].
  - rewrite (view_buf _ l none i n binv_recycle) by (rewrite is_buf_recycle; by left).
    rewrite (buf_at_put s l none), decide_True by done.
    rewrite (proj2 (Z.eqb_neq (b_valid x) 0) Hv), Hdt. by rewrite view_none.
  - destruct (cached s m) as [j|] eqn:Ej.
    + apply (cached_Some s l none) in Ej; [|done]. destruct (decide (j = i)) as [->|Hji].
      * rewrite (view_unref s l m Hb); [|by rewrite (refs_buf s l none i m)].
        rewrite view_none; [done|]. intros k. rewrite is_buf_recycle. intros [[_ ?]|[Hk1 Hk2]]; [done|].
        apply Hk1. by eapply bi_uniq.
      * rewrite (view_buf _ l none j m binv_recycle), (view_buf s l none j m Hb) by
          (rewrite ?is_buf_recycle; auto).
        rewrite (buf_at_put s l none) by done. by rewrite decide_False.
    + pose proof (proj1 (cached_None s m) Ej) as Hnm. rewrite !view_none; [done|done|].
      intros j. rewrite is_buf_recycle. naive_solver.
Qed.

Lemma refs_recycle m : refs (put_buf i x s) m = if decide (m = n) then 1 else refs s m.
Proof.
  case_decide as E.
  - rewrite E, (refs_buf _ l none i n binv_recycle) by (rewrite is_buf_recycle; by left).
    rewrite (buf_at_put s l none) by done. by rewrite decide_True.
  - destruct (cached s m) as [j|] eqn:Ej.
    + apply (cached_Some s l none) in Ej; [|done]. destruct (decide (j = i)) as [->|Hji].
      * rewrite (refs_buf s l none i m) by done. rewrite Hr0. apply refs_none.
        intros k. rewrite is_buf_recycle. intros [[_ ?]|[Hk1 Hk2]]; [done|].
        apply Hk1. by eapply bi_uniq.
      * rewrite (refs_buf _ l none j m binv_recycle), (refs_buf s l none j m Hb) by
          (rewrite ?is_buf_recycle; auto).
        rewrite (buf_at_put s l none) by done. by rewrite decide_False.
    + pose proof (proj1 (cached_None s m) Ej) as Hnm. rewrite !refs_none; [done|done|].
      intros j. rewrite is_buf_recycle. naive_solver.
Qed.
End Recycle.
End View.

(** ** What the operations do to the view *)

(** What of a process is not a matter of scheduling and counts here. *)
Definition p_ident (p : proc) : Z * Z := (p_pid p, p_pagetable p).

(** Nothing but the cache, the sleep locks, the disk and scheduling states of
    processes changed. *)
Definition bio_frame (s s' : kstate) : Prop :=
  s' = set_bc (ks_bc s') (set_sl (ks_sl s') (set_disk (ks_disk s') (set_tab (ks_tab s') s))) /\
  length (procs (ks_tab s')) = length (procs (ks_tab s)) /\
  (forall p, p_ident (procs (ks_tab s') !!! p) = p_ident (procs (ks_tab s) !!! p)).

#[export] Instance bio_frame_preorder : PreOrder bio_frame.
Proof.
  split.
  - intros s. split; [by destruct s|done].
  - intros s1 s2 s3 (E2 & L2 & P2) (E3 & L3 & P3). split_and!; [|congruence|congruence].
    rewrite E3, E2. done.
Qed.

(** The world of a thread after operations on the cache. *)
Definition bstep (w w' : world kstate) : Prop := kframe w w' /\ bio_frame (data w) (data w').

#[export] Instance bstep_preorder : PreOrder bstep.
Proof.
  split; [by intros w|]. intros w1 w2 w3 [A1 B1] [A2 B2]. split; by etrans.
Qed.

Section Ok.
Context {SC : Sched} {VD : VirtioDisk}.
Implicit Types (w : world kstate).

Lemma bstep_quiet w w' : bstep w w' -> quiet w -> quiet w'.
Proof.
  intros [F (E & L & P)] [H1 [p (H2 & H3 & H4)] H5]. split; eauto with xv6. exists p.
  destruct (kframe_cur _ _ F) as (_ & _ & Ec). split_and!; [by rewrite Ec|done|].
  unfold compc in *. cbn in *. by rewrite L.
Qed.
Lemma bstep_unlocked w w' : bstep w w' -> bio_unlocked w -> bio_unlocked w'.
Proof.
  intros [F _] (H1 & H2 & H3). split_and!; [eauto with xv6..|]. intros i Hi.
  eapply kframe_lock_free; [done|]. by apply H3.
Qed.
Lemma bstep_pid w w' : bstep w w' -> cur_pid w' = cur_pid w.
Proof.
  intros [F (_ & _ & P)]. unfold cur_pid. destruct (kframe_cur _ _ F) as (_ & _ & ->).
  destruct (c_proc _); [|done]. exact (f_equal fst (P _)).
Qed.
Lemma bstep_holds w w' i : bstep w w' -> ks_sl (data w') !!! L_buf i = ks_sl (data w) !!! L_buf i ->
  holds_buf w i -> holds_buf w' i.
Proof.
  intros B E [H1 H2]. split; unfold compc in *; cbn in *; rewrite E; [done|].
  by rewrite (bstep_pid _ _ B).
Qed.

(** A change of cache and sleep locks that touches nothing else. *)
Lemma bstep_intro w w' : kframe w w' ->
  data w' = set_bc (ks_bc (data w')) (set_sl (ks_sl (data w')) (set_disk (ks_disk (data w')) (data w))) ->
  bstep w w'.
Proof.
  intros F E. split; [done|]. assert (Et : ks_tab (data w') = ks_tab (data w)) by (rewrite E; done).
  split_and!; [|by rewrite Et..]. rewrite E at 1. rewrite Et. by destruct (data w).
Qed.

Lemma kframe_updc_touch {T} `{!Has T kstate} (t : T) w w' : kframe (touch w) w' -> kframe w (updc t w').
Proof. intros H. etrans; [apply kframe_touch|]. etrans; [exact H|apply kframe_updc]. Qed.

(** The buffer after bread: reading it if it is not valid. *)
Definition fill (d : disk) (y : buf) : buf :=
  if b_valid y =? 0 then set_valid 1 (set_data (disk_block d (b_blockno y)) y) else y.

Lemma put_alter f i s : put_buf i (f (buf_at s i)) s = set_bc (bc_alter f i (ks_bc s)) s.
Proof.
  unfold put_buf. f_equal. unfold bc_alter. f_equal. apply list_eq. intros j.
  destruct (decide (i = j)) as [<-|]; [|by rewrite !list_lookup_alter_ne].
  rewrite !list_lookup_alter_eq. unfold buf_at.
  destruct (bufs (ks_bc s) !! i) eqn:E; [|done]. by rewrite (list_lookup_total_correct _ _ _ E).
Qed.

Lemma bread_run dev n w l b f : quiet w -> bio_unlocked w -> lru (compc w) l -> (0 < wakeups)%nat ->
  bget_choice (compc w) l dev n = Some (b, f) -> (b < nbuf)%nat ->
  sl_locked (compc (T := sltab) w !!! L_buf b) = 0 ->
  let y := f (buf_at (data w) b) in
  b_disk y = 0 -> 0 <= b_blockno y < 2 ^ 31 ->
  exists w', bread dev n w = Ok (b, w') /\ kframe w w' /\
    data w' = set_sl (take_sl (L_buf b) w) (put_buf b (fill (ks_disk (data w)) y) (data w)).
Proof.
  intros Hq Hu Hl Hw Hch Hlt H0 y Hd Hn. unfold bread.
  pose proof (bget_run dev n w l Hq Hu Hl Hw) as Hg. rewrite Hch in Hg. specialize (Hg H0).
  rewrite (bind_Ok _ _ _ _ _ Hg). set (w1 := touch _) in *.
  assert (Hlen : length (bufs (compc w)) = Datatypes.S nbuf) by apply Hl.
  assert (Ey : bufs (compc w1) !!! b = y).
  { subst w1. kother. rewrite bc_lookup_alter by lia. by rewrite decide_True. }
  assert (D1 : data w1 = set_sl (take_sl (L_buf b) w) (put_buf b y (data w))).
  { unfold y. rewrite put_alter. done. }
  assert (F1 : kframe w w1) by (subst w1; etrans; [|apply kframe_touch]; done).
  rewrite (bind_Ok _ _ _ _ _ (get_buf_run _ _)), Ey. unfold fill. destruct (b_valid y =? 0).
  - destruct (virtio_disk_rw_ok b false w1) as (w2 & E2 & F2 & D2); try done.
    + subst w1. eauto with xv6.
    + subst w1. by apply lock_free_touch, Hu.
    + subst w1. kother. by rewrite bc_alter_length.
    + by rewrite Ey.
    + by rewrite Ey.
    + rewrite bind_assoc, (bind_Ok _ _ _ _ _ E2). eexists. split; [done|].
      split; [etrans; [exact F1|exact F2]|]. cbn [data updc].
      unfold rw_effect in D2. rewrite D1 in D2. unfold compc. rewrite D2.
      cbn [getc Has_bc putc ks_bc set_bc set_sl put_buf ks_disk].
      change (bufs (bc_alter (λ _ : buf, y) b (ks_bc (data w))) !!! b)
        with (buf_at (put_buf b y (data w)) b).
      assert (Eb : buf_at (put_buf b y (data w)) b = y).
      { unfold buf_at, put_buf. cbn [ks_bc set_bc]. rewrite bc_lookup_alter by (unfold compc in Hlen; cbn in Hlen; lia).
        by rewrite decide_True. }
      rewrite Eb, !bc_alter_compose. done.
  - rewrite bind_mret. exists w1. done.
Qed.

(** A buffer can be found for block [n]. *)
Definition avail (s : kstate) (n : Z) : Prop :=
  (exists i, is_buf s i n) \/ (exists i, (i < nbuf)%nat /\ b_refcnt (buf_at s i) = 0).

Lemma first_buf_exists P l i : i ∈ l -> P i = true -> exists j, first_buf P l = Some j.
Proof.
  intros Hi Hp. destruct (first_buf P l) eqn:E; [eauto|].
  by rewrite (first_buf_None _ _ E i Hi) in Hp.
Qed.

(** Which buffer bread uses: the one of the block, or an unused one. *)
Lemma bget_choice_cases s l n : binv s l none -> avail s n ->
  exists b f, bget_choice (ks_bc s) l ROOTDEV n = Some (b, f) /\ (b < nbuf)%nat /\
    (is_buf s b n /\ f = set_refcnt (u32 (b_refcnt (buf_at s b) + 1)) \/
     (forall i, ~ is_buf s i n) /\ b_refcnt (buf_at s b) = 0 /\
       f = set_refcnt 1 ∘ set_valid 0 ∘ set_ident ROOTDEV n).
Proof.
  intros Hb Ha. pose proof (lru_all _ _ (bi_lru _ _ _ Hb)) as Hall. unfold bget_choice.
  destruct (first_buf (is_block (ks_bc s) ROOTDEV n) l) as [b|] eqn:E1.
  - apply first_buf_Some in E1 as [Hl%Hall H]. exists b. eexists. split; [done|].
    split; [done|]. left. split; [by apply is_block_is_buf|done].
  - assert (Hno : forall i, ~ is_buf s i n).
    { intros i Hi. pose proof Hi as [Hlt _]. apply is_block_is_buf in Hi; [|done].
      rewrite (first_buf_None _ _ E1 i) in Hi; [done|by apply Hall]. }
    destruct Ha as [[i Hi]|(i & Hi & Hr)]; [by edestruct Hno|].
    destruct (first_buf_exists (is_unused (ks_bc s)) (rev l) i) as [b E2].
    { rewrite list_elem_of_In, <- in_rev, <- list_elem_of_In. by apply Hall. }
    { unfold is_unused. by apply Z.eqb_eq. }
    rewrite E2. apply first_buf_Some in E2 as [H1 H2].
    rewrite list_elem_of_In, <- in_rev, <- list_elem_of_In in H1. apply Hall in H1.
    exists b. eexists. split; [done|]. split; [done|]. right. split_and!; [done|by apply Z.eqb_eq|done].
Qed.

Record bread_post w (n : Z) (b : nat) w' (l : list nat) : Prop := {
  br_step : bstep w w';
  br_inv : binv (data w') l none;
  br_buf : is_buf (data w') b n;
  br_valid : b_valid (buf_at (data w') b) <> 0;
  br_data : b_data (buf_at (data w') b) = view (data w) n;
  br_holds : holds_buf w' b;
  br_view : forall m, view (data w') m = view (data w) m;
  br_refs : forall m, refs (data w') m = refs (data w) m + (if decide (m = n) then 1 else 0);
  br_other : forall i, i <> b -> buf_at (data w') i = buf_at (data w) i;
  br_sl : forall k, k <> L_buf b -> ks_sl (data w') !!! k = ks_sl (data w) !!! k;
  br_disk : ks_disk (data w') = ks_disk (data w);
  br_before : b_refcnt (buf_at (data w) b) = refs (data w) n;
  br_unlocked : sl_locked (ks_sl (data w) !!! L_buf b) = 0;
}.

(** Sleep locks do not matter to the view, and matter to the invariant only where
    nobody refers to the buffer. *)
Lemma binv_sl s l ex (t : sltab) : binv s l ex ->
  (forall i, (i < nbuf)%nat -> ~ ex i -> b_refcnt (buf_at s i) = 0 -> sl_locked (t !!! L_buf i) = 0) ->
  binv (set_sl t s) l ex.
Proof. intros [B1 B2 B3 B4 B5] H. by split. Qed.

Lemma fill_id d y : b_valid y <> 0 -> fill d y = y.
Proof. intros H. unfold fill. by rewrite (proj2 (Z.eqb_neq _ _) H). Qed.
Lemma fill_place d y : same_place (fill d y) y /\ b_disk (fill d y) = b_disk y /\
  b_refcnt (fill d y) = b_refcnt y /\ b_valid (fill d y) <> 0 /\
  b_data (fill d y) = (if b_valid y =? 0 then disk_block d (b_blockno y) else b_data y).
Proof.
  unfold fill, same_place. destruct y as [v ? ? ? ? ? ? ?]; cbn.
  destruct (Z.eqb_spec v 0); cbn; split_and!; done.
Qed.

Lemma holds_take w w' b : bstep w w' -> ks_sl (data w') = take_sl (L_buf b) w -> holds_buf w' b.
Proof.
  intros B E. unfold holds_buf. rewrite (bstep_pid _ _ B). unfold compc; cbn. rewrite E.
  unfold take_sl. rewrite lookup_total_insert_eq. done.
Qed.

Lemma refs_nonneg s l ex n : binv s l ex -> 0 <= refs s n.
Proof.
  intros Hb. destruct (cached s n) as [k|] eqn:Ek.
  - apply (cached_Some s l ex) in Ek; [|done]. rewrite (refs_buf s l ex k n) by done.
    destruct Ek as [Hk _]. destruct (bi_buf _ _ _ Hb k Hk) as (_ & _ & ? & _). lia.
  - rewrite refs_none; [lia|]. by apply cached_None.
Qed.

(** The effect of bread on the view, as a change of one buffer. *)
Record gets_block s l b x n : Prop := {
  gb_inv : binv (put_buf b x s) l none;
  gb_buf : is_buf (put_buf b x s) b n;
  gb_view : forall m, view (put_buf b x s) m = view s m;
  gb_refs : forall m, refs (put_buf b x s) m = refs s m + (if decide (m = n) then 1 else 0);
  gb_data : b_data x = view s n;
  gb_valid : b_valid x <> 0;
  gb_used : b_refcnt x <> 0;
}.

Lemma gets_hit s l b n : binv s l none -> is_buf s b n -> refs s n < 2 ^ 32 - 1 ->
  gets_block s l b (fill (ks_disk s) (set_refcnt (u32 (b_refcnt (buf_at s b) + 1)) (buf_at s b))) n.
Proof.
  intros Hb Hi Hrf. pose proof (refs_nonneg s l none n Hb) as H0.
  set (y := set_refcnt _ _). destruct (fill_place (ks_disk s) y) as (Hp & Pd & Pr & Pv & Pt).
  set (x := fill (ks_disk s) y) in *. pose proof Hi as (Hlt & Hdv & Hbn).
  destruct (bi_buf _ _ _ Hb b Hlt) as (Bd & Bn & Br & Bv).
  assert (Hy : same_place y (buf_at s b) /\ b_disk y = 0 /\ b_valid y = b_valid (buf_at s b) /\
    b_data y = b_data (buf_at s b)) by (subst y; by destruct (buf_at s b)).
  destruct Hy as ((Y1 & Y2 & Y3 & Y4) & Yd & Yv & Yt). destruct Hp as (P1 & P2 & P3 & P4).
  assert (Hxp : same_place x (buf_at s b)) by (split_and!; congruence).
  assert (Hxr : b_refcnt x = refs s n + 1).
  { rewrite (refs_buf s l none b n) in * by done. rewrite Pr. subst y.
    destruct (buf_at s b); cbn in *. rewrite u32_id; lia. }
  assert (Hxd : b_data x = view s n).
  { rewrite (view_buf s l none b n) by done. rewrite Pt, Y4, Yv, Yt, Hbn. done. }
  assert (Hi' : binv (put_buf b x s) l none).
  { eapply binv_put; try done; [congruence|lia|congruence|]. intros _ ?. lia. }
  split; try done; [by rewrite (is_buf_put s l none)|..|lia]; intros m.
  - rewrite (view_put s l none none b x n) by done. case_decide; [|done]. subst m.
    by rewrite (proj2 (Z.eqb_neq (b_valid x) 0) Pv).
  - rewrite (refs_put s l none none b x n) by done. case_decide; [by subst|lia].
Qed.

Lemma gets_miss s l b n : binv s l none -> (b < nbuf)%nat -> (forall i, ~ is_buf s i n) ->
  b_refcnt (buf_at s b) = 0 -> 0 <= n < 2 ^ 31 ->
  gets_block s l b
    (fill (ks_disk s) ((set_refcnt 1 ∘ set_valid 0 ∘ set_ident ROOTDEV n) (buf_at s b))) n.
Proof.
  intros Hb Hlt Hno Hr Hn. set (y := (_ ∘ _) _).
  destruct (fill_place (ks_disk s) y) as ((P1 & P2 & P3 & P4) & Pd & Pr & Pv & Pt).
  set (x := fill (ks_disk s) y) in *. destruct (bi_buf _ _ _ Hb b Hlt) as (Bd & _).
  assert (Hy : b_next y = b_next (buf_at s b) /\ b_prev y = b_prev (buf_at s b) /\ b_disk y = 0 /\
    b_valid y = 0 /\ b_dev y = ROOTDEV /\ b_blockno y = n /\ b_refcnt y = 1)
    by (subst y; by destruct (buf_at s b)).
  destruct Hy as (Y1 & Y2 & Yd & Yv & Ydv & Ybn & Yr). rewrite Yv, Ybn in Pt. cbn in Pt.
  split; try done; try congruence.
  - eapply (binv_recycle s l b x n); try done; congruence.
  - rewrite (is_buf_recycle s l b x n); try done; try congruence. by left.
  - eapply (view_recycle s l b x n); try done; congruence.
  - intros m. erewrite (refs_recycle s l b x n); try done; try congruence.
    case_decide as Em; [|lia]. rewrite Em. by rewrite refs_none.
  - by rewrite view_none.
Qed.

Lemma bread_ok w l n : quiet w -> bio_unlocked w -> binv (data w) l none -> (0 < wakeups)%nat ->
  0 <= n < 2 ^ 31 -> ~ locked_block (data w) n -> avail (data w) n -> refs (data w) n < 2 ^ 32 - 1 ->
  exists b w', bread ROOTDEV n w = Ok (b, w') /\ bread_post w n b w' l.
Proof.
  intros Hq Hu Hb Hw Hn Hnl Ha Hrf. set (s := data w) in *.
  destruct (bget_choice_cases s l n Hb Ha) as (b & f & Hch & Hlt & Hf).
  destruct (bi_buf _ _ _ Hb b Hlt) as (Bd & _).
  set (y := f (buf_at s b)). set (x := fill (ks_disk s) y).
  assert (Hg : gets_block s l b x n /\ b_refcnt (buf_at s b) = refs s n /\ b_disk y = 0 /\
    b_blockno y = n /\ sl_locked (ks_sl s !!! L_buf b) = 0).
  { unfold x, y. destruct Hf as [[Hi ->]|(Hno & Hr & ->)].
    - split; [by apply gets_hit|]. split; [by rewrite (refs_buf s l none b n)|]. pose proof Hi as (_ & _ & H2).
      split_and!; [by destruct (buf_at s b)|by destruct (buf_at s b)|].
      destruct (decide (sl_locked (ks_sl s !!! L_buf b) = 0)) as [|Hne]; [done|].
      exfalso. apply Hnl. by exists b.
    - split; [by apply gets_miss|]. split; [by rewrite refs_none|]. pose proof (bi_lock _ _ _ Hb b Hlt ltac:(intros []) Hr).
      split_and!; [by destruct (buf_at s b)|by destruct (buf_at s b)|done]. }
  destruct Hg as (G & Hbef & Yd & Yn & Hsl).
  destruct (bread_run ROOTDEV n w l b f) as (w' & E & F & D); try done; [apply Hb|by fold s y; rewrite Yn|].
  exists b, w'. split; [done|]. fold s in D. fold y in D. fold x in D.
  assert (Hs : bstep w w') by (apply bstep_intro; [done|]; by rewrite D).
  assert (Hat : forall j, buf_at (data w') j = if decide (j = b) then x else buf_at s j).
  { intros j. rewrite D. by apply (buf_at_put s l none). }
  destruct G as [G1 G2 G3 G4 G5 G6 G7]. split; try done; rewrite ?D; try done.
  - apply binv_sl; [done|]. intros i Hi _ Hr. rewrite (buf_at_put s l none) in Hr by done.
    case_decide; [done|]. unfold take_sl. rewrite lookup_total_insert_ne by congruence.
    apply (bi_lock _ _ _ Hb); [done|intros []|done].
  - rewrite <- D, Hat, decide_True by done. done.
  - rewrite <- D, Hat, decide_True by done. done.
  - eapply holds_take; [done|]. by rewrite D.
  - intros i Hi. by rewrite <- D, Hat, decide_False.
  - intros k Hk. unfold take_sl. cbn [ks_sl set_sl]. by rewrite lookup_total_insert_ne.
Qed.

(** Everything of a buffer but its place in the list. *)
Definition core (b : buf) := (b_valid b, b_disk b, b_dev b, b_blockno b, b_refcnt b, b_data b).

Lemma core_inj x y : core x = core y ->
  b_valid x = b_valid y /\ b_disk x = b_disk y /\ b_dev x = b_dev y /\ b_blockno x = b_blockno y /\
  b_refcnt x = b_refcnt y /\ b_data x = b_data y.
Proof. unfold core. naive_solver. Qed.

(** Moving buffers in the list changes nothing that is seen of the cache. *)
Lemma binv_core s s' l l' ex : binv s l ex -> lru (ks_bc s') l' ->
  (forall i, (i < nbuf)%nat -> core (buf_at s' i) = core (buf_at s i)) ->
  ks_sl s' = ks_sl s -> ks_disk s' = ks_disk s ->
  binv s' l' ex /\ (forall i n, is_buf s' i n <-> is_buf s i n) /\
  (forall m, view s' m = view s m) /\ (forall m, refs s' m = refs s m).
Proof.
  intros Hb Hl Hc Hs Hd.
  assert (Hi : forall i n, is_buf s' i n <-> is_buf s i n).
  { intros i n. unfold is_buf. split; intros (H1 & H2 & H3);
      destruct (core_inj _ _ (Hc i H1)) as (_ & _ & E1 & E2 & _); split_and!; congruence. }
  assert (Hb' : binv s' l' ex).
  { destruct Hb as [B1 B2 B3 B4 B5]. split; [done|..].
    - intros i Hlt. destruct (core_inj _ _ (Hc i Hlt)) as (-> & -> & -> & -> & -> & _). by apply B2.
    - intros i j n. rewrite !Hi. apply B3.
    - intros i Hlt. destruct (core_inj _ _ (Hc i Hlt)) as (-> & _ & _ & -> & -> & ->).
      rewrite Hd. by apply B4.
    - intros i Hlt. destruct (core_inj _ _ (Hc i Hlt)) as (_ & _ & _ & _ & -> & _).
      rewrite Hs. by apply B5. }
  split_and!; [done..| |]; intros m; destruct (cached s m) as [i|] eqn:E.
  - apply (cached_Some s l ex) in E; [|done]. pose proof E as [Hlt _].
    rewrite (view_buf s l ex i m), (view_buf s' l' ex i m) by (by rewrite ?Hi).
    destruct (core_inj _ _ (Hc i Hlt)) as (-> & _ & _ & _ & _ & ->). by rewrite Hd.
  - pose proof (proj1 (cached_None s m) E) as Hn. rewrite !view_none by (intros i; by rewrite ?Hi).
    by rewrite Hd.
  - apply (cached_Some s l ex) in E; [|done]. pose proof E as [Hlt _].
    rewrite (refs_buf s l ex i m), (refs_buf s' l' ex i m) by (by rewrite ?Hi).
    by destruct (core_inj _ _ (Hc i Hlt)) as (_ & _ & _ & _ & -> & _).
  - pose proof (proj1 (cached_None s m) E) as Hn. by rewrite !refs_none by (intros i; by rewrite ?Hi).
Qed.

Lemma core_ptr f i j bc : (forall b, core (f b) = core b) ->
  core (bufs (bc_alter f i bc) !!! j) = core (bufs bc !!! j).
Proof.
  intros Hf. destruct (decide (i < length (bufs bc))%nat) as [Hi|Hi].
  - rewrite bc_lookup_alter by done. case_decide; [subst; apply Hf|done].
  - f_equal. f_equal. unfold bc_alter; cbn. apply list_eq. intros k.
    destruct (decide (i = k)) as [<-|]; [|by rewrite list_lookup_alter_ne].
    rewrite list_lookup_alter_eq. by rewrite (lookup_ge_None_2 (bufs bc) i) by lia.
Qed.
Lemma core_set_next v b : core (set_next v b) = core b.
Proof. by destruct b. Qed.
Lemma core_set_prev v b : core (set_prev v b) = core b.
Proof. by destruct b. Qed.
Lemma core_move b bc j : core (bufs (bc_push b (bc_unlink b bc)) !!! j) = core (bufs bc !!! j).
Proof.
  unfold bc_push, bc_unlink. cbv zeta.
  repeat (rewrite core_ptr; [|first [apply core_set_next|apply core_set_prev]]). done.
Qed.

(** Moving buffer [b] to the front. *)
Definition to_front (b : nat) (l : list nat) : list nat := b :: filter (.≠ b) l.

Lemma filter_id (b : nat) (l : list nat) : b ∉ l -> filter (.≠ b) l = l.
Proof.
  induction l as [|x l IH]; [done|]. intros H. apply not_elem_of_cons in H as [Hx Hl].
  rewrite filter_cons, decide_True by congruence. by rewrite IH.
Qed.
Lemma filter_split (b : nat) l1 l2 : NoDup (l1 ++ b :: l2) -> filter (.≠ b) (l1 ++ b :: l2) = l1 ++ l2.
Proof.
  intros (H1 & H2 & H3)%NoDup_app. apply NoDup_cons in H3 as [H3 _].
  rewrite filter_app, filter_cons, decide_False by naive_solver.
  rewrite !filter_id; [done|done|]. intros Hx. apply (H2 b); [done|set_solver].
Qed.

Lemma lru_move b bc l : lru bc l -> (b < nbuf)%nat -> lru (bc_push b (bc_unlink b bc)) (to_front b l).
Proof.
  intros [L1 L2 L3 L4] Hb. assert (Hin : b ∈ l) by by apply L3.
  apply list_elem_of_split in Hin as (l1 & l2 & ->). unfold to_front. rewrite filter_split by done.
  assert (Hlt : forall i, i ∈ l1 ++ l2 -> (i < nbuf)%nat) by (intros i Hi; apply L3; set_solver).
  assert (Hp : l1 ++ b :: l2 ≡ₚ b :: l1 ++ l2) by (by rewrite Permutation_middle).
  pose proof L2 as L2'. rewrite Hp in L2'. apply NoDup_cons in L2' as [Hnb Hnd].
  split.
  - unfold bc_push, bc_unlink. cbv zeta. by rewrite !bc_alter_length.
  - by rewrite <- Hp.
  - intros i. rewrite <- Hp. apply L3.
  - apply bc_push_chain; [|done|done|done|done|].
    + unfold bc_unlink. cbv zeta. rewrite !bc_alter_length. lia.
    + apply bc_unlink_chain; [done| |done|done]. intros i. by rewrite L3.
Qed.

(** *** bwrite, brelse, bpin, bunpin and writing into a buffer *)

Lemma binv_disk_write s l ex b n : binv s l ex -> is_buf s b n -> b_valid (buf_at s b) <> 0 ->
  let s' := set_disk (disk_write (ks_disk s) n (b_data (buf_at s b))) s in
  binv s' l ex /\ (forall m, view s' m = view s m) /\ (forall m, refs s' m = refs s m) /\
  disk_block (ks_disk s') n = view s n.
Proof.
  intros Hb Hi Hv s'.
  assert (Hb' : binv s' l ex).
  { destruct Hb as [B1 B2 B3 B4 B5]. split; try done. intros i Hlt Hex Hr Hvi.
    change (buf_at s' i) with (buf_at s i) in *. cbn [ks_disk s' set_disk].
    rewrite disk_block_write. case_decide as E; [|by apply B4].
    destruct (B2 i Hlt) as (_ & _ & _ & Hdev). assert (i = b) as -> by (apply (B3 i b n); [by split_and!; [|apply Hdev|]|done]). done. }
  split_and!; [done| |done|].
  - intros m. destruct (cached s m) as [i|] eqn:E.
    + apply (cached_Some s l ex) in E; [|done].
      rewrite (view_buf s l ex i m), (view_buf s' l ex i m) by done.
      change (buf_at s' i) with (buf_at s i). cbn [ks_disk s' set_disk]. rewrite disk_block_write.
      destruct (Z.eqb_spec (b_valid (buf_at s i)) 0); [|done]. case_decide; [|done].
      subst m. by rewrite (bi_uniq _ _ _ Hb i b n) in * by done.
    + pose proof (proj1 (cached_None s m) E) as Hn. rewrite !view_none by done.
      cbn [ks_disk s' set_disk]. rewrite disk_block_write. case_decide; [|done]. subst.
      by edestruct Hn.
  - cbn [ks_disk s' set_disk]. rewrite disk_block_write, decide_True by done.
    rewrite (view_buf s l ex b n) by done. by rewrite (proj2 (Z.eqb_neq _ _) Hv).
Qed.

Lemma bwrite_ok w l ex b n : quiet w -> bio_unlocked w -> binv (data w) l ex ->
  is_buf (data w) b n -> b_valid (buf_at (data w) b) <> 0 -> holds_buf w b ->
  exists w', bwrite b w = Ok ((), w') /\ bstep w w' /\ binv (data w') l ex /\
    data w' = set_disk (disk_write (ks_disk (data w)) n (view (data w) n)) (data w) /\
    (forall m, view (data w') m = view (data w) m) /\ (forall m, refs (data w') m = refs (data w) m).
Proof.
  intros Hq Hu Hb Hi Hv [H1 H2]. pose proof Hi as (Hlt & Hdev & Hbn). unfold bwrite.
  pose proof Hu as (_ & Hvd & Hbl).
  rewrite (bind_Ok _ _ _ _ _ (holdingsleep_run (L_buf b) w Hq (Hbl b Hlt) I)).
  rewrite (proj2 (Z.eqb_neq (sl_locked _) 0) H1), H2, Z.eqb_refl. cbn [negb andb Z.eqb].
  destruct (bi_buf _ _ _ Hb b Hlt) as (Bd & Bn & _).
  destruct (virtio_disk_rw_ok b true (touch w)) as (w' & E & F & D); eauto with xv6.
  { apply (bi_lru _ _ _ Hb). }
  exists w'. unfold rw_effect in D.
  change (bufs (ks_bc (data (touch w))) !!! b) with (buf_at (data w) b) in D. rewrite Hbn in D.
  change (data (touch w)) with (data w) in D.
  destruct (binv_disk_write (data w) l ex b n Hb Hi Hv) as (I1 & I2 & I3 & _).
  assert (Ev : view (data w) n = b_data (buf_at (data w) b)).
  { rewrite (view_buf _ l ex b n) by done. by rewrite (proj2 (Z.eqb_neq _ _) Hv). }
  rewrite D, Ev. split_and!; try done. apply bstep_intro; [|by rewrite D].
  etrans; [apply kframe_touch|done].
Qed.

Lemma bstep_tab_map f s : (forall p, p_ident (f p) = p_ident p) -> bio_frame s (set_tab (tab_map f (ks_tab s)) s).
Proof.
  intros Hf. split_and!; [by destruct s|cbn; by rewrite length_fmap|]. intros p. cbn.
  rewrite !list_lookup_total_alt, list_lookup_fmap. destruct (_ !! p); [apply Hf|done].
Qed.

(** The exceptions with [b] added, or removed. *)
Definition plus (ex : nat -> Prop) (b : nat) : nat -> Prop := fun i => ex i \/ i = b.
Definition minus (ex : nat -> Prop) (b : nat) : nat -> Prop := fun i => ex i /\ i <> b.

(** Changing the reference count of a buffer. *)
Lemma recount s l ex ex' b n r : binv s l ex -> is_buf s b n -> 0 <= r < 2 ^ 32 ->
  (~ ex' b -> r = 0 -> sl_locked (ks_sl s !!! L_buf b) = 0 /\
     (b_valid (buf_at s b) <> 0 -> b_data (buf_at s b) = disk_block (ks_disk s) n)) ->
  (forall j, j <> b -> ~ ex' j -> ~ ex j) ->
  let s' := put_buf b (set_refcnt r (buf_at s b)) s in
  binv s' l ex' /\ (forall i m, is_buf s' i m <-> is_buf s i m) /\
  (forall m, view s' m = view s m) /\
  (forall m, refs s' m = if decide (m = n) then r else refs s m).
Proof.
  intros Hb Hi Hr Hc He s'. pose proof Hi as (Hlt & Hdev & Hbn).
  destruct (bi_buf _ _ _ Hb b Hlt) as (Bd & Bn & _ & Bv).
  set (x := set_refcnt r (buf_at s b)) in *.
  assert (Hx : same_place x (buf_at s b) /\ b_disk x = 0 /\ b_valid x = b_valid (buf_at s b) /\
    b_data x = b_data (buf_at s b) /\ b_refcnt x = r) by (subst x; by destruct (buf_at s b)).
  destruct Hx as (Hp & Xd & Xv & Xt & Xr). pose proof Hp as (_ & _ & P3 & P4).
  assert (Hb' : binv s' l ex').
  { eapply binv_put; try done; [lia|congruence|]. rewrite Xr, Xv, Xt, P4, Hbn. done. }
  split_and!; [done|intros i m; by apply (is_buf_put s l ex)|..]; intros m.
  - unfold s'. rewrite (view_put s l ex ex' b x n) by done. case_decide; [|done]. subst m.
    by rewrite (view_buf s l ex b n), Xv, Xt.
  - unfold s'. rewrite (refs_put s l ex ex' b x n) by done. by rewrite Xr.
Qed.

Lemma bunpin_ok w l ex b n : quiet w -> bio_unlocked w -> binv (data w) l ex -> is_buf (data w) b n ->
  exists w', bunpin b w = Ok ((), w') /\ bstep w w' /\ binv (data w') l (plus ex b) /\
    data w' = put_buf b (set_refcnt (u32 (refs (data w) n - 1)) (buf_at (data w) b)) (data w) /\
    (forall i m, is_buf (data w') i m <-> is_buf (data w) i m) /\
    (forall m, view (data w') m = view (data w) m) /\
    (forall m, refs (data w') m = if decide (m = n) then u32 (refs (data w) n - 1) else refs (data w) m).
Proof.
  intros Hq (Hbc & Hu) Hb Hi. rewrite bunpin_run by done. eexists. split; [done|].
  set (w' := touch _). set (s := data w) in *.
  assert (D : data w' = put_buf b (set_refcnt (u32 (refs s n - 1)) (buf_at s b)) s).
  { rewrite (refs_buf s l ex b n) by done.
    rewrite (put_alter (set_refcnt (u32 (b_refcnt (buf_at s b) - 1)))). done. }
  destruct (recount s l ex (plus ex b) b n (u32 (refs s n - 1)) Hb Hi) as (R1 & R2 & R3 & R4).
  { apply u32_range. } { unfold plus. naive_solver. } { unfold plus. naive_solver. }
  assert (Hst : bstep w w').
  { apply bstep_intro; [|by rewrite D]. subst w'. etrans; [|apply kframe_touch]. done. }
  rewrite D. split_and!; done.
Qed.

Lemma bpin_ok w l ex b n : quiet w -> bio_unlocked w -> binv (data w) l ex -> is_buf (data w) b n ->
  refs (data w) n < 2 ^ 32 - 1 ->
  exists w', bpin b w = Ok ((), w') /\ bstep w w' /\ binv (data w') l ex /\
    data w' = put_buf b (set_refcnt (refs (data w) n + 1) (buf_at (data w) b)) (data w) /\
    (forall i m, is_buf (data w') i m <-> is_buf (data w) i m) /\
    (forall m, view (data w') m = view (data w) m) /\
    (forall m, refs (data w') m = refs (data w) m + if decide (m = n) then 1 else 0).
Proof.
  intros Hq (Hbc & Hu) Hb Hi Hr. rewrite bpin_run by done. eexists. split; [done|].
  set (w' := touch _). set (s := data w) in *. pose proof (refs_nonneg s l ex n Hb).
  assert (D : data w' = put_buf b (set_refcnt (refs s n + 1) (buf_at s b)) s).
  { rewrite (refs_buf s l ex b n) in * by done. rewrite <- (u32_id (b_refcnt (buf_at s b) + 1)) by lia.
    rewrite (put_alter (set_refcnt (u32 (b_refcnt (buf_at s b) + 1)))). done. }
  destruct (recount s l ex ex b n (refs s n + 1) Hb Hi) as (R1 & R2 & R3 & R4); [lia|lia|done|].
  assert (Hst : bstep w w').
  { apply bstep_intro; [|by rewrite D]. subst w'. etrans; [|apply kframe_touch]. done. }
  rewrite D. split_and!; try done.
  - intros m. rewrite R4. case_decide; [by subst|lia].
Qed.

(** Writing into a locked buffer changes the view of its block, and of no other. *)
Lemma set_data_ok w l ex b n x : binv (data w) l ex -> is_buf (data w) b n ->
  b_valid (buf_at (data w) b) <> 0 -> refs (data w) n <> 0 ->
  exists w', upd_buf (set_data x) b w = Ok ((), w') /\ bstep w w' /\ binv (data w') l ex /\
    data w' = put_buf b (set_data x (buf_at (data w) b)) (data w) /\
    (forall i m, is_buf (data w') i m <-> is_buf (data w) i m) /\
    (forall m, view (data w') m = if decide (m = n) then x else view (data w) m) /\
    (forall m, refs (data w') m = refs (data w) m).
Proof.
  intros Hb Hi Hv Hr. rewrite upd_buf_run. eexists. split; [done|]. set (w' := updc _ _).
  set (s := data w) in *. pose proof Hi as (Hlt & Hdev & Hbn).
  assert (D : data w' = put_buf b (set_data x (buf_at s b)) s).
  { rewrite (put_alter (set_data x)). done. }
  set (y := set_data x (buf_at s b)) in *. destruct (bi_buf _ _ _ Hb b Hlt) as (Bd & Bn & Br & Bv).
  assert (Hy : same_place y (buf_at s b) /\ b_disk y = b_disk (buf_at s b) /\
    b_valid y = b_valid (buf_at s b) /\ b_data y = x /\ b_refcnt y = b_refcnt (buf_at s b))
    by (subst y; by destruct (buf_at s b)).
  destruct Hy as (Hp & Yd & Yv & Yt & Yr). pose proof Hp as (_ & _ & P3 & P4).
  rewrite (refs_buf s l ex b n) in Hr by done.
  assert (Hb' : binv (put_buf b y s) l ex).
  { eapply binv_put; try done; [congruence|lia|congruence|]. intros _ ?. congruence. }
  assert (Hst : bstep w w') by (apply bstep_intro; [done|by rewrite D]).
  rewrite D. split_and!; try done.
  - intros i m. by apply (is_buf_put s l ex).
  - intros m. rewrite (view_put s l ex ex b y n) by done.
    by rewrite Yv, (proj2 (Z.eqb_neq _ _) Hv), Yt.
  - intros m. rewrite (refs_put s l ex ex b y n) by done. case_decide; [|done]. subst m.
    by rewrite Yr, (refs_buf s l ex b n).
Qed.

Lemma lru_length_bufs s l ex : binv s l ex -> length (bufs (ks_bc s)) = Datatypes.S nbuf.
Proof. intros Hb. apply (bi_lru _ _ _ Hb). Qed.

(** The list after brelse leaves [r] references. *)
Definition brelse_list (b : nat) (r : Z) (l : list nat) : list nat :=
  if r =? 0 then to_front b l else l.

Record brelse_post w (n : Z) (b : nat) w' (l : list nat) (ex : nat -> Prop) : Prop := {
  rl_step : bstep w w';
  rl_inv : binv (data w') (brelse_list b (u32 (refs (data w) n - 1)) l) (minus ex b);
  rl_buf : forall i m, is_buf (data w') i m <-> is_buf (data w) i m;
  rl_view : forall m, view (data w') m = view (data w) m;
  rl_refs : forall m, refs (data w') m =
    if decide (m = n) then u32 (refs (data w) n - 1) else refs (data w) m;
  rl_core : forall i, (i < nbuf)%nat -> i <> b -> core (buf_at (data w') i) = core (buf_at (data w) i);
  rl_free : sl_locked (ks_sl (data w') !!! L_buf b) = 0;
  rl_sl : forall k, k <> L_buf b -> ks_sl (data w') !!! k = ks_sl (data w) !!! k;
  rl_disk : ks_disk (data w') = ks_disk (data w);
}.

Lemma drop_sl_inv s l ex b : binv s l ex -> binv (set_sl (drop_sl (L_buf b) (ks_sl s)) s) l ex.
Proof.
  intros Hb. apply binv_sl; [done|]. intros i Hi Hex Hr. unfold drop_sl.
  destruct (decide (i = b)) as [->|Hne]; [by rewrite lookup_total_insert_eq|].
  rewrite lookup_total_insert_ne by congruence. by apply (bi_lock _ _ _ Hb).
Qed.

Lemma ident_woken c p : p_ident (woken c p) = p_ident p.
Proof. unfold woken. destruct p; cbn. by case_match. Qed.

Lemma brelse_ok w l ex b n : quiet w -> bio_unlocked w -> binv (data w) l ex -> is_buf (data w) b n ->
  holds_buf w b ->
  (u32 (refs (data w) n - 1) = 0 -> b_valid (buf_at (data w) b) <> 0 ->
     view (data w) n = disk_block (ks_disk (data w)) n) ->
  exists w', brelse b w = Ok ((), w') /\ brelse_post w n b w' l ex.
Proof.
  intros Hq Hu Hb Hi Hh Hc. pose proof Hi as (Hlt & _). rewrite brelse_run by done.
  eexists. split; [done|]. set (w' := touch _). set (s := data w) in *.
  set (r := u32 (refs s n - 1)) in *. set (s0 := set_sl (drop_sl (L_buf b) (ks_sl s)) s).
  set (s1 := put_buf b (set_refcnt r (buf_at s0 b)) s0).
  assert (Hb0 : binv s0 l ex) by by apply drop_sl_inv.
  assert (Hr : r = u32 (b_refcnt (buf_at s b) - 1)) by (unfold r; by rewrite (refs_buf s l ex b n)).
  destruct (recount s0 l ex (minus ex b) b n r Hb0 Hi) as (R1 & R2 & R3 & R4).
  { apply u32_range. }
  { intros _ E. split; [cbn; unfold drop_sl; by rewrite lookup_total_insert_eq|].
    intros Hv. change (buf_at s0 b) with (buf_at s b) in Hv. rewrite (view_buf s l ex b n) in Hc by done.
    rewrite (proj2 (Z.eqb_neq _ _) Hv) in Hc. by apply Hc. }
  { unfold minus. naive_solver. }
  fold s1 in R1, R2, R3, R4.
  assert (Hbc : ks_bc (data w') = if r =? 0 then bc_push b (bc_unlink b (ks_bc s1)) else ks_bc s1).
  { change (ks_bc (data w')) with (brelse_bc b (ks_bc s)). unfold brelse_bc.
    change (bufs (ks_bc s) !!! b) with (buf_at s b). rewrite <- Hr.
    assert (E1 : bc_alter (set_refcnt r) b (ks_bc s) = ks_bc s1).
    { unfold s1. by rewrite (put_alter (set_refcnt r)). }
    rewrite E1. change (bufs (ks_bc s1) !!! b) with (buf_at s1 b).
    assert (E2 : b_refcnt (buf_at s1 b) = r).
    { unfold s1. rewrite (buf_at_put s0 l ex), decide_True by done. by destruct (buf_at s0 b). }
    by rewrite E2. }
  assert (Hcore : forall i, core (buf_at (data w') i) = core (buf_at s1 i)).
  { intros i. unfold buf_at. rewrite Hbc. destruct (r =? 0); [apply core_move|done]. }
  destruct (binv_core s1 (data w') l (brelse_list b r l) (minus ex b)) as (C1 & C2 & C3 & C4); try done.
  { rewrite Hbc. unfold brelse_list. destruct (r =? 0); [|apply R1]. apply lru_move; [apply R1|done]. }
  split; try done.
  - split; [subst w'; etrans; [|apply kframe_touch]; done|].
    etrans; [apply (bstep_tab_map (woken (Ch_buflock b))); apply ident_woken|]. by split_and!.
  - intros i m. by rewrite C2, R2.
  - intros m. rewrite C3, R3. done.
  - intros m. rewrite C4, R4. done.
  - intros i _ Hne. rewrite Hcore. unfold s1. by rewrite (buf_at_put s0 l ex), decide_False.
  - cbn. unfold drop_sl. by rewrite lookup_total_insert_eq.
  - intros k Hk. cbn. unfold drop_sl. by rewrite lookup_total_insert_ne.
Qed.

(** *** binit *)

Lemma binit_body_run b w :
  (link_front b ;; initsleeplock (L_buf b) "buffer" ;; link_front2 b) w =
  Ok ((), World (tp w) (harts w) (<[L_buf b := Spinlock 0 "sleep lock" None]> (locks w))
     (set_bc (bc_push b (ks_bc (data w)))
        (set_sl (<[L_buf b := Sleeplock 0 "buffer" 0]> (ks_sl (data w))) (data w)))).
Proof.
  unfold link_front, link_front2, initsleeplock, initlock.
  rewrite bind_assoc, (bind_Ok _ _ _ _ _ (get_buf_run _ _)), bind_assoc,
    !(bind_Ok _ _ _ _ _ (upd_buf_run _ _ _)). knorm.
  rewrite bind_assoc, bind_modify, (bind_Ok _ _ _ _ _ (put_sl_run _ _ _)),
    (bind_Ok _ _ _ _ _ (get_buf_run _ _)), (bind_Ok _ _ _ _ _ (upd_buf_run _ _ _)), upd_buf_run. done.
Qed.

(** The first [k] buffers are in the list, the last one in front. *)
Record binit_upto (k : nat) w0 w : Prop := {
  bu_len : length (bufs (ks_bc (data w))) = Datatypes.S nbuf;
  bu_chain : chain (nxt (ks_bc (data w))) (prv (ks_bc (data w))) head (rev (seq 0 k)) head;
  bu_core : forall i, core (buf_at (data w) i) = core (buf_at (data w0) i);
  bu_sl : forall i, (i < k)%nat -> sl_locked (ks_sl (data w) !!! L_buf i) = 0;
  bu_lock : forall i, (i < k)%nat -> lock_free (L_buf i) w;
  bu_other : forall k, (forall i, k <> L_buf i) -> locks w !! k = locks w0 !! k;
  bu_hart : tp w = tp w0 /\ harts w = harts w0;
  bu_rest : data w = set_bc (ks_bc (data w)) (set_sl (ks_sl (data w)) (data w0));
}.

Lemma core_push b bc j : core (bufs (bc_push b bc) !!! j) = core (bufs bc !!! j).
Proof.
  unfold bc_push. cbv zeta.
  repeat (rewrite core_ptr; [|first [apply core_set_next|apply core_set_prev]]). done.
Qed.

Lemma binit_step k w0 w : (k < nbuf)%nat -> binit_upto k w0 w ->
  exists w', (link_front k ;; initsleeplock (L_buf k) "buffer" ;; link_front2 k) w = Ok ((), w') /\
    binit_upto (Datatypes.S k) w0 w'.
Proof.
  intros Hk [B1 B2 B3 B4 B5 B6 B7 B8]. rewrite binit_body_run. eexists. split; [done|]. split; cbn.
  - by rewrite !length_alter.
  - change (chain (nxt (bc_push k (ks_bc (data w)))) (prv (bc_push k (ks_bc (data w)))) head
      (rev (seq 0 (Datatypes.S k))) head).
    rewrite seq_S, rev_app_distr. cbn [app rev Nat.add]. apply bc_push_chain; [lia|done|..|done].
    + intros i. rewrite list_elem_of_In, <- in_rev, in_seq. lia.
    + apply NoDup_ListNoDup, NoDup_rev, NoDup_ListNoDup, NoDup_seq.
    + rewrite list_elem_of_In, <- in_rev, in_seq. lia.
  - intros i. rewrite <- B3. apply core_push.
  - intros i Hi. destruct (decide (i = k)) as [->|]; [by rewrite lookup_total_insert_eq|].
    rewrite lookup_total_insert_ne by congruence. apply B4. lia.
  - intros i Hi. unfold lock_free; cbn. destruct (decide (i = k)) as [->|].
    + rewrite lookup_insert_eq. eauto.
    + rewrite lookup_insert_ne by congruence. apply B5. lia.
  - intros l Hl. rewrite lookup_insert_ne by (by apply not_eq_sym). by apply B6.
  - done.
  - by rewrite B8.
Qed.

Lemma binit_loop m k w0 w : (k + m = nbuf)%nat -> binit_upto k w0 w ->
  exists w', for_each (seq k m) (fun b =>
      link_front b ;; initsleeplock (L_buf b) "buffer" ;; link_front2 b) w = Ok ((), w') /\
    binit_upto nbuf w0 w'.
Proof.
  revert k w. induction m as [|m IH]; intros k w Hk Hu; cbn [seq for_each].
  - exists w. replace nbuf with k by lia. done.
  - destruct (binit_step k w0 w) as (w1 & E1 & U1); [lia|done|].
    destruct (IH (Datatypes.S k) w1) as (w2 & E2 & U2); [lia|done|].
    exists w2. by rewrite (bind_Ok _ _ _ _ _ E1).
Qed.

(** The buffers as C's zero initialisation leaves them. *)
Definition bufs_zero (s : kstate) : Prop :=
  length (bufs (ks_bc s)) = Datatypes.S nbuf /\
  forall i, (i < nbuf)%nat -> core (buf_at s i) = core buf0.

Lemma binit_ok w : bufs_zero (data w) ->
  exists w', binit w = Ok ((), w') /\ binv (data w') (rev (seq 0 nbuf)) none /\
    lock_free L_bcache w' /\ (forall i, (i < nbuf)%nat -> lock_free (L_buf i) w') /\
    (forall k, k <> L_bcache -> (forall i, k <> L_buf i) -> locks w' !! k = locks w !! k) /\
    tp w' = tp w /\ harts w' = harts w /\ (forall i n, ~ is_buf (data w') i n) /\
    (forall i, (i < nbuf)%nat -> core (buf_at (data w') i) = core buf0) /\
    data w' = set_bc (ks_bc (data w')) (set_sl (ks_sl (data w')) (data w)).
Proof.
  intros [Hlen Hz]. unfold binit.
  rewrite (bind_Ok _ _ _ (()) (set_lock L_bcache (Spinlock 0 "bcache" None) w)) by done.
  rewrite !(bind_Ok _ _ _ _ _ (upd_buf_run _ _ _)). set (w1 := updc _ _).
  assert (U0 : binit_upto 0 (set_lock L_bcache (Spinlock 0 "bcache" None) w) w1).
  { split; try done.
    - cbn. by rewrite !length_alter.
    - unfold nxt, prv. cbn [w1 updc data putc Has_bc set_bc ks_bc seq rev chain].
      rewrite compc_updc. unfold compc. cbn [getc Has_bc data set_lock].
      rewrite !bc_lookup_alter by (rewrite ?bc_alter_length; unfold head; lia).
      rewrite decide_True by done. by destruct (bufs (ks_bc (data w)) !!! head).
    - intros i. unfold buf_at at 1. cbn [w1 updc data putc Has_bc set_bc ks_bc]. rewrite compc_updc.
      by repeat (rewrite core_ptr; [|first [apply core_set_next|apply core_set_prev]]).
    - lia. - lia. }
  destruct (binit_loop nbuf 0 _ w1 eq_refl U0) as (w2 & E2 & [U1 U2 U3 U4 U5 U6 [U7a U7b] U8]).
  exists w2. split; [done|].
  assert (Hc : forall i, (i < nbuf)%nat -> core (buf_at (data w2) i) = core buf0).
  { intros i Hi. rewrite U3. by apply Hz. }
  assert (Hno : forall i n, ~ is_buf (data w2) i n).
  { intros i n (Hi & Hd & _). destruct (core_inj _ _ (Hc i Hi)) as (_ & _ & E & _).
    rewrite E in Hd. unfold buf0, ROOTDEV in Hd; cbn [b_dev] in Hd. lia. }
  split_and!; try assumption.
  - split.
    + split; [done| |intros i; rewrite list_elem_of_In, <- in_rev, in_seq; lia|done].
      apply NoDup_ListNoDup, NoDup_rev, NoDup_ListNoDup, NoDup_seq.
    + intros i Hi. destruct (core_inj _ _ (Hc i Hi)) as (-> & -> & -> & -> & -> & _).
      unfold buf0; cbn [b_valid b_disk b_dev b_blockno b_refcnt]. split_and!; [lia..|]. intros ?; lia.
    + intros i j n Hi. destruct (Hno i n Hi).
    + intros i Hi _ _ Hv. destruct (core_inj _ _ (Hc i Hi)) as (E & _).
      rewrite E in Hv. unfold buf0 in Hv; cbn [b_valid] in Hv. lia.
    + intros i Hi _ _. by apply U4.
  - exists "bcache". rewrite U6 by done. apply lookup_insert_eq.
  - intros k Hk1 Hk2. rewrite U6 by done. by apply lookup_insert_ne.
Qed.
End Ok.

(** ** Properties *)

Section Props.
Context {SC : Sched} {VD : VirtioDisk} (Hw : (0 < wakeups)%nat).
Implicit Types (w : world kstate).

(** C25: bread returns the buffer of the block, locked, with what the cache's view has
    for it: cached data if there is any, else the disk's.  The view of every block
    stays the same, the block gets one more reference, no other buffer is
    touched, and nothing is written to disk.  With no cached copy and every
    buffer referenced it panics. *)
Theorem bread_correct w l n
  (Hq : quiet w) (Hu : bio_unlocked w) (Hb : binv (data w) l none)
  (Hn : 0 <= n < 2 ^ 31) (Hnl : ~ locked_block (data w) n) (Hr : refs (data w) n < 2 ^ 32 - 1) :
  (avail (data w) n -> exists b w', bread ROOTDEV n w = Ok (b, w') /\ bread_post w n b w' l) /\
  (~ avail (data w) n -> bread ROOTDEV n w = Panic "bget: no buffers").
Proof.
  split; [intros Ha; by apply bread_ok|]. intros Hna. unfold bread. apply bind_Panic.
  pose proof (bget_run ROOTDEV n w l Hq Hu (bi_lru _ _ _ Hb) Hw) as Hg.
  unfold bget_choice in Hg. pose proof (lru_all _ _ (bi_lru _ _ _ Hb)) as Hall.
  destruct (first_buf (is_block _ _ _) l) as [b|] eqn:E1.
  { exfalso. apply Hna. left. exists b. apply first_buf_Some in E1 as [Hl%Hall H].
    by apply is_block_is_buf. }
  destruct (first_buf (is_unused _) (rev l)) as [b|] eqn:E2; [|done].
  exfalso. apply Hna. right. exists b. apply first_buf_Some in E2 as [H1 H2].
  rewrite list_elem_of_In, <- in_rev, <- list_elem_of_In in H1.
  split; [by apply Hall|by apply Z.eqb_eq].
Qed.

(** Replacement is least recently used.  A block that is not cached gets the
    unused buffer that comes last in the list, and brelse of the last reference
    moves its buffer to the front (and keeps the list and the view, whatever the
    buffer), so that the list orders the buffers by their last release. *)
Theorem bio_lru w l b n
  (Hq : quiet w) (Hu : bio_unlocked w) (Hb : binv (data w) l none) (Hn : 0 <= n < 2 ^ 31) :
  (cached (data w) n = None ->
   first_buf (is_unused (ks_bc (data w))) (rev l) = Some b ->
   exists w', bread ROOTDEV n w = Ok (b, w')) /\
  (is_buf (data w) b n -> holds_buf w b -> refs (data w) n = 1 ->
   view (data w) n = disk_block (ks_disk (data w)) n ->
   exists w', brelse b w = Ok ((), w') /\ binv (data w') (b :: filter (.≠ b) l) none /\
     forall m, view (data w') m = view (data w) m).
Proof.
  split.
  - intros Hc Hf. pose proof (proj1 (cached_None _ _) Hc) as Hno.
    assert (Ha : avail (data w) n).
    { right. exists b. apply first_buf_Some in Hf as [H1 H2].
      rewrite list_elem_of_In, <- in_rev, <- list_elem_of_In in H1.
      split; [by apply (lru_all _ _ (bi_lru _ _ _ Hb))|by apply Z.eqb_eq]. }
    destruct (bread_ok w l n) as (b' & w' & E & P); try done.
    { intros (i & Hi & _). by edestruct Hno. }
    { rewrite refs_none by done. done. }
    exists w'. rewrite E. do 2 f_equal.
    pose proof (bget_run ROOTDEV n w l Hq Hu (bi_lru _ _ _ Hb) Hw) as Hg. unfold bget_choice in Hg.
    destruct (first_buf (is_block _ _ _) l) as [c|] eqn:E1.
    { exfalso. apply first_buf_Some in E1 as [Hl H]. apply (lru_all _ _ (bi_lru _ _ _ Hb)) in Hl.
      apply is_block_is_buf in H; [|done]. by edestruct Hno. }
    change (compc (T := bcache) w) with (ks_bc (data w)) in Hg. rewrite Hf in Hg. apply first_buf_Some in Hf as [H1 H2].
    rewrite list_elem_of_In, <- in_rev, <- list_elem_of_In in H1.
    apply (lru_all _ _ (bi_lru _ _ _ Hb)) in H1. apply Z.eqb_eq in H2.
    specialize (Hg (bi_lock _ _ _ Hb b H1 ltac:(intros []) H2)).
    unfold bread in E. minv E. rewrite Hg in Hr. injection Hr as <- <-.
    by injection E as ->.
  - intros Hi Hh Hr Hv. destruct (brelse_ok w l none b n) as (w' & E & P); try done.
    exists w'. split; [done|]. destruct P as [_ P2 _ P4 _ _ _ _ _]. rewrite Hr in P2.
    change (u32 (1 - 1)) with 0 in P2. split; [|done].
    destruct P2 as [B1 B2 B3 B4 B5]. split; try done; intros i Hlt _; [apply B4|apply B5];
      (done || by intros [[] _]).
Qed.

(** binit links all buffers, the last one in front, and establishes the
    invariant: an empty cache through which the disk is seen as it is. *)
Theorem binit_correct w (Hz : bufs_zero (data w)) :
  exists w', binit w = Ok ((), w') /\ binv (data w') (rev (seq 0 nbuf)) none /\
    lock_free L_bcache w' /\ (forall i, (i < nbuf)%nat -> lock_free (L_buf i) w') /\
    forall n, view (data w') n = disk_block (ks_disk (data w)) n.
Proof.
  destruct (binit_ok w Hz) as (w' & E & B & L1 & L2 & _ & _ & _ & Hno & _ & D). exists w'.
  split; [exact E|]. split; [exact B|]. split; [exact L1|]. split; [exact L2|]. intros n.
  assert (Hd : ks_disk (data w') = ks_disk (data w)) by (rewrite D; done).
  rewrite <- Hd. apply (view_unref _ _ _ B). by apply refs_none.
Qed.
End Props.

(** ** A machine with an ideal disk and a freshly initialised cache *)



Definition ideal_rw (i : nat) (write : bool) : K kstate () :=
  modify (fun w => World (tp w) (harts w) (locks w) (rw_effect i write (data w))).
Definition ex_disk : VirtioDisk (H := ex_sched).
Proof.
  refine (Build_VirtioDisk ex_sched ideal_rw _). intros i write w _ _ _ _ _ _.
  eexists. split; [reflexivity|]. split; [by split_and!|reflexivity].
Defined.

Definition bio_w0 : world kstate := run_world 3 (set_tab tab_example kstate0).

Lemma bio_w0_quiet : quiet bio_w0.
Proof.
  split.
  - split; vm_compute; congruence.
  - exists 3%nat. split_and!; [by vm_compute|unfold nproc, NPROC; lia|by vm_compute].
  - intros i Hi. destruct (proc_world_unlocked i Hi) as [n E]. exists n. exact E.
Qed.
Lemma bio_w0_zero : bufs_zero (data bio_w0).
Proof.
  split; [by vm_compute|]. intros i Hi. f_equal. unfold buf_at, bio_w0, run_world.
  cbn [data set_hart boot_world set_tab ks_bc kstate0 bufs].
  apply list_lookup_total_correct. unfold nbuf in Hi. change (Z.to_nat NBUF) with 30%nat in Hi.
  do 30 (destruct i as [|i]; [reflexivity|]). lia.
Qed.

Lemma bio_world_ok : exists w, binit bio_w0 = Ok ((), w) /\ quiet w /\ bio_unlocked w /\
  binv (data w) (rev (seq 0 nbuf)) none /\ (forall i n, ~ is_buf (data w) i n) /\
  (forall i, (i < nbuf)%nat -> core (buf_at (data w) i) = core buf0).
Proof.
  destruct (binit_ok bio_w0 bio_w0_zero) as (w & E & B & L1 & L2 & L3 & T & Hh & Hno & Hc & D).
  exists w. split; [exact E|].
  assert (F : forall k, k <> L_bcache -> (forall i, k <> L_buf i) -> lock_free k bio_w0 -> lock_free k w).
  { intros k H1 H2 [n Hn]. exists n. by rewrite L3. }
  assert (Hcur : cur w = cur bio_w0) by (unfold cur; by rewrite T, Hh).
  destruct bio_w0_quiet as [[Q1 Q1'] [p (Q2 & Q3 & Q4)] Q5]. split; [split|].
  - split; rewrite Hcur; done.
  - exists p. split_and!; [by rewrite Hcur|done|]. unfold compc. rewrite D. exact Q4.
  - intros i Hi. apply F; [done..|]. by apply Q5.
  - split; [split_and!; [done| |done]|by split_and!]. apply F; [done..|]. exists "". by vm_compute.
Qed.

Lemma bread_correct_witness : exists w b w',
  bread (VD := ex_disk) ROOTDEV 5 w = Ok (b, w') /\ view (data w') 5 = view (data w) 5.
Proof.
  destruct bio_world_ok as (w & _ & Q & U & B & Hno & Hc).
  destruct (bread_correct (SC := ex_sched) (VD := ex_disk) ltac:(cbn; lia) w _ 5 Q U B) as [H _].
  - lia.
  - intros (i & Hi & _). exact (Hno _ _ Hi).
  - rewrite refs_none; [lia|intros i; apply Hno].
  - destruct H as (b & w' & E & P).
    + right. exists 0%nat. split; [unfold nbuf, NBUF, MAXOPBLOCKS; lia|].
      destruct (core_inj _ _ (Hc 0%nat ltac:(unfold nbuf, NBUF, MAXOPBLOCKS; lia))) as (_ & _ & _ & _ & R & _).
      exact R.
    + exists w, b, w'. split; [exact E|apply P].
Defined.

Lemma bio_lru_witness : exists w w', bread (VD := ex_disk) ROOTDEV 5 w = Ok (0%nat, w').
Proof.
  destruct bio_world_ok as (w & _ & Q & U & B & Hno & Hc). exists w.
  apply (bio_lru (SC := ex_sched) (VD := ex_disk) ltac:(cbn; lia) w _ 0 5 Q U B).
  - lia.
  - apply cached_None. intros i. apply Hno.
  - rewrite rev_involutive. change (seq 0 nbuf) with (0%nat :: seq 1 29). cbn [first_buf]. unfold is_unused at 1.
    destruct (core_inj _ _ (Hc 0%nat ltac:(unfold nbuf, NBUF, MAXOPBLOCKS; lia))) as (_ & _ & _ & _ & R & _).
    unfold buf_at in R. rewrite R. reflexivity.
Defined.

Lemma binit_correct_witness : exists w', binit bio_w0 = Ok ((), w') /\
  forall n, view (data w') n = disk_block (ks_disk (data bio_w0)) n.
Proof.
  destruct (binit_correct bio_w0 bio_w0_zero) as (w' & E & _ & _ & _ & H).
  exists w'. split; [exact E|exact H].
Defined.
