(* ===== verification/ConsoleSpec.v ===== *)
(** * What the console does

    Characters that the kernel prints go out in order; printint prints the numeral
    of its argument; and the input ring of console.c is an editor with a queue of
    complete lines and a line being typed. *)
From stdpp Require Import prelude gmap strings.
From Stdlib Require Import ZArith Lia.
From S2P Require Import Prelude Memory CString Spinlock Riscv Kalloc Vm Uaccess Proc Bytes State Sleeplock Copy Console Bio BioView.
Open Scope Z_scope.

(** ** Output *)

(** The registers after the characters [cs] were sent. *)
Definition emit (cs : list Z) (u : uart) : uart :=
  Uart (u_buf u) (u_w u) (u_r u) (rev ((fun c => (THR, u8 c)) <$> cs) ++ u_wr u).

Lemma emit_app a b u : emit b (emit a u) = emit (a ++ b) u.
Proof. unfold emit. cbn. by rewrite fmap_app, rev_app_distr, app_assoc. Qed.
Lemma emit_nil u : emit [] u = u.
Proof. by destruct u. Qed.

Section Output.
Context {SC : Sched} {UD : UartDev}.
Implicit Types (w : world kstate).

(** The transmitter is ready when it is polled. *)
Definition uart_ready : Prop :=
  (0 < uart_polls)%nat /\ forall w, exists v, read_LSR w = Ok (v, w) /\ Z.land v LSR_TX_IDLE <> 0.
Context (Hu : uart_ready).

Lemma uartputc_sync_run c w : cpu_ok w -> uartputc_sync c w = Ok ((), touch (updc (emit [c] (compc w)) w)).
Proof.
  intros Hc. destruct Hu as [Hp Hr]. unfold uartputc_sync. kdo (push_off_run w).
  set (w1 := set_hart (off_hart (cur w)) w). destruct (Hr w1) as (v & Ev & Hv).
  rewrite (bind_Ok _ _ w1 () w1).
  2: { destruct uart_polls as [|n]; [lia|]. apply loop_exit. kdo Ev. by rewrite (proj2 (Z.eqb_neq _ _)). }
  unfold WriteReg, upd_uart, get_uart. rewrite bind_assoc. rewrite (bind_Ok _ _ w1 (compc w1) w1) by done.
  rewrite (bind_Ok _ _ w1 () (updc (emit [c] (compc w1)) w1)) by done.
  change (updc (emit [c] (compc w1)) w1) with
    (set_hart (off_hart (cur (updc (emit [c] (compc w)) w))) (updc (emit [c] (compc w)) w)).
  apply pop_off_run. by apply cpu_ok_updc.
Qed.

Definition echo (c : Z) : list Z := if c =? BACKSPACE then [8; 32; 8] else [c].

Lemma consputc_run c w : cpu_ok w -> consputc c w = Ok ((), touch (updc (emit (echo c) (compc w)) w)).
Proof.
  intros Hc. unfold consputc, echo. destruct (c =? BACKSPACE); [|by apply uartputc_sync_run].
  krun uartputc_sync_run. krun uartputc_sync_run.
  rewrite uartputc_sync_run by eauto with xv6. knorm. by rewrite !emit_app.
Qed.

Lemma print_run cs w : cpu_ok w -> Forall (.≠ BACKSPACE) cs ->
  exists w', for_each cs consputc w = Ok ((), w') /\ frame uart w w' /\ compc w' = emit cs (compc w).
Proof.
  intros Hc Hf. revert w Hc. induction Hf as [|c cs Hne Hf IH]; intros w Hc.
  - exists w. rewrite emit_nil. done.
  - cbn [for_each]. kdo (consputc_run c w Hc). unfold echo. rewrite (proj2 (Z.eqb_neq _ _)) by done.
    destruct (IH (touch (updc (emit [c] (compc w)) w)) ltac:(eauto with xv6)) as (w' & E & F & U).
    exists w'. split; [done|]. split; [etrans; [apply frame_upd|done]|].
    rewrite U, compc_touch, compc_updc. apply emit_app.
Qed.

(** ** printint *)

Definition digit_val (c : Z) : Z := if c <=? 57 then c - 48 else c - 87.
(** The value of a string of digits. *)
Definition value (base : Z) (l : list Z) : Z := fold_left (fun a c => a * base + digit_val c) l 0.

(** [text] is the numeral of [z]: a minus sign exactly when [z] is negative, then digits of
    the base, at least one, with a leading zero only for zero itself. *)
Definition is_numeral (base z : Z) (text : list Z) : Prop := exists ds,
  text = (if z <? 0 then [45] else []) ++ ds /\ value base ds = Z.abs z /\ ds <> [] /\
  Forall (fun c => exists x, 0 <= x < base /\ c = digits !!! Z.to_nat x) ds /\ (ds !! 0%nat = Some 48 -> ds = [48]).

Lemma digit_ok d : 0 <= d < 16 -> digit_val (digits !!! Z.to_nat d) = d /\ 48 <= digits !!! Z.to_nat d < BACKSPACE.
Proof.
  intros Hd. assert (H : forallb (fun i => (digit_val (digits !!! Z.to_nat i) =? i) &&
    (48 <=? digits !!! Z.to_nat i) && (digits !!! Z.to_nat i <? BACKSPACE)) (seqZ 0 16) = true) by reflexivity.
  rewrite forallb_forall in H. specialize (H d). rewrite !andb_true_iff, Z.eqb_eq, Z.leb_le, Z.ltb_lt in H.
  destruct H as [[H1 H2] H3]; [|done]. apply list_elem_of_In, elem_of_seqZ. lia.
Qed.

Lemma value_snoc base l c : value base (l ++ [c]) = value base l * base + digit_val c.
Proof. unfold value. by rewrite fold_left_app. Qed.

Lemma int_digits_spec fuel k x base : 2 <= base <= 16 -> 0 <= x < base ^ Z.of_nat k -> (0 < k <= fuel)%nat ->
  value base (rev (int_digits fuel x base)) = x /\ (0 < length (int_digits fuel x base) <= k)%nat /\
  Forall (fun c => 48 <= c < BACKSPACE) (int_digits fuel x base).
Proof.
  intros Hb. revert k x. induction fuel as [|f IH]; intros k x Hx Hk; [lia|]. cbn [int_digits].
  pose proof (Z.mod_pos_bound x base ltac:(lia)) as Hm. destruct (digit_ok (x mod base) ltac:(lia)) as [D1 D2].
  pose proof (Z.div_mod x base ltac:(lia)) as Hdm. destruct (Z.eqb_spec (x / base) 0) as [E|E].
  - split_and!; [|cbn; lia|cbn; lia|by apply Forall_singleton]. unfold value. cbn. rewrite D1. lia.
  - destruct k as [|k]; [lia|]. rewrite Nat2Z.inj_succ, Z.pow_succ_r in Hx by lia.
    assert (Hq : 0 <= x / base < base ^ Z.of_nat k) by (split; [apply Z.div_pos; lia|apply Z.div_lt_upper_bound; lia]).
    assert (Hk0 : (0 < k)%nat) by (destruct k; [cbn in Hq; lia|lia]).
    destruct (IH k (x / base) Hq ltac:(lia)) as (I1 & I2 & I3). cbn [rev].
    rewrite value_snoc, I1, D1. split_and!; [lia|cbn; lia|cbn; lia|by constructor].
Qed.

(** The digits are digits of the base, and the last one (the first that is printed) is not
    zero unless the number is. *)
Lemma int_digits_base fuel x base : 2 <= base <= 16 -> 0 <= x ->
  Forall (fun c => exists x, 0 <= x < base /\ c = digits !!! Z.to_nat x) (int_digits fuel x base).
Proof.
  intros Hb. revert x. induction fuel as [|f IH]; intros x Hx; cbn [int_digits]; [by constructor|].
  pose proof (Z.mod_pos_bound x base ltac:(lia)) as Hm. constructor; [by exists (x mod base)|].
  destruct (x / base =? 0); [by constructor|]. apply IH, Z.div_pos; lia.
Qed.
Lemma digit_zero d : 0 <= d < 16 -> digits !!! Z.to_nat d = 48 -> d = 0.
Proof. intros Hd E. destruct (digit_ok d Hd) as [<- _]. by rewrite E. Qed.
Lemma int_digits_top fuel k x base : 2 <= base <= 16 -> 0 < x < base ^ Z.of_nat k -> (0 < k <= fuel)%nat ->
  exists l c, int_digits fuel x base = l ++ [c] /\ c <> 48.
Proof.
  intros Hb. revert k x. induction fuel as [|f IH]; intros k x Hx Hk; [lia|]. cbn [int_digits].
  pose proof (Z.mod_pos_bound x base ltac:(lia)) as Hm. pose proof (Z.div_mod x base ltac:(lia)) as Hdm.
  destruct (Z.eqb_spec (x / base) 0) as [E|E].
  - exists [], (digits !!! Z.to_nat (x mod base)). split; [done|]. intros H%digit_zero; lia.
  - destruct k as [|k]; [lia|]. rewrite Nat2Z.inj_succ, Z.pow_succ_r in Hx by lia.
    assert (Hq : 0 <= x / base < base ^ Z.of_nat k) by (split; [apply Z.div_pos; lia|apply Z.div_lt_upper_bound; lia]).
    assert (Hk0 : (0 < k)%nat) by (destruct k; [cbn in Hq; lia|lia]).
    destruct (IH k (x / base) ltac:(lia) ltac:(lia)) as (l & c & -> & Hc). by exists (digits !!! Z.to_nat (x mod base) :: l), c.
Qed.

Lemma printint_text xx base sign : base = 10 \/ base = 16 -> - 2 ^ 31 <= xx < 2 ^ 31 ->
  let text := rev (printint_buf xx base sign) in
  is_numeral base (if sign then xx else u32 xx) text /\ (length text <= 11)%nat /\ Forall (.≠ BACKSPACE) text.
Proof.
  intros Hb Hx text. unfold printint_buf in text. set (neg := sign && (xx <? 0)) in *.
  set (x := if neg then u32 (- xx) else u32 xx) in *. pose proof (u32_range xx) as R1. pose proof (u32_range (- xx)) as R2.
  set (z := if sign then xx else u32 xx).
  assert (Hz : x = Z.abs z /\ (z <? 0) = neg).
  { subst x z neg. destruct sign; cbn [andb]; [|split; [lia|apply Z.ltb_ge; lia]].
    destruct (Z.ltb_spec xx 0); (split; [rewrite u32_id; lia|done]). }
  assert (Hxr : 0 <= x < base ^ Z.of_nat 10).
  { assert (2 ^ 32 < base ^ Z.of_nat 10) by (destruct Hb as [->| ->]; reflexivity). subst x. destruct neg; lia. }
  destruct (int_digits_spec 32 10 x base ltac:(lia) Hxr ltac:(lia)) as (D1 & D2 & D3).
  pose proof (int_digits_base 32 x base ltac:(lia) ltac:(lia)) as D4.
  assert (Et : text = (if neg then [45] else []) ++ rev (int_digits 32 x base)).
  { subst text. rewrite rev_app_distr. by destruct neg. }
  assert (D5 : Forall (.≠ BACKSPACE) (rev (int_digits 32 x base))).
  { apply Forall_rev. eapply Forall_impl; [exact D3|]. cbn. lia. }
  rewrite Et. destruct Hz as [Hz Hneg]. split_and!.
  - exists (rev (int_digits 32 x base)). rewrite Hneg, <- Hz. split_and!; [done|done| |by apply Forall_rev|].
    + intros E. apply (f_equal length) in E. rewrite length_rev in E. cbn in E. lia.
    + intros Hh. destruct (decide (x = 0)) as [E0|E0]; [by rewrite E0|].
      destruct (int_digits_top 32 10 x base ltac:(lia) ltac:(lia) ltac:(lia)) as (l & c & E & Hc).
      rewrite E, rev_app_distr in Hh. cbn in Hh. congruence.
  - rewrite length_app, length_rev. destruct neg; cbn [length]; lia.
  - apply Forall_app. split; [by destruct neg; [apply Forall_singleton|constructor]|done].
Qed.

(** C32: printint prints the numeral of its argument in base 10 or 16 (the bases printf uses):
    a minus sign exactly for a negative one, INT_MIN included, then the digits, most
    significant first and without leading zeros.  Its characters fit into [buf]. *)
Theorem printint_correct xx base sign w
  (Hb : base = 10 \/ base = 16) (Hx : - 2 ^ 31 <= xx < 2 ^ 31) (Hc : cpu_ok w) :
  exists text w', printint xx base sign w = Ok ((), w') /\ frame uart w w' /\
    compc w' = emit text (compc w) /\ (length text <= 16)%nat /\
    is_numeral base (if sign then xx else u32 xx) text.
Proof.
  destruct (printint_text xx base sign Hb Hx) as (T1 & T2 & T3).
  destruct (print_run (rev (printint_buf xx base sign)) w Hc T3) as (w' & E & F & U).
  eexists _, w'. split; [exact E|]. split_and!; [done|exact U|lia|done].
Qed.
End Output.

(** ** Input: lines and the line being typed *)

(** The ring holds the complete input [q] that readers have not taken yet,
    followed by the line [ed] that can still be edited. *)
Record ring (k : cons) (q ed : list Z) : Prop := {
  rg_len : length (c_buf k) = Z.to_nat INPUT_BUF;
  rg_fit : Z.of_nat (length (q ++ ed)) <= INPUT_BUF;
  rg_r : 0 <= c_r k < 2 ^ 32;
  rg_w : c_w k = u32 (c_r k + Z.of_nat (length q));
  rg_e : c_e k = u32 (c_r k + Z.of_nat (length (q ++ ed)));
  rg_buf : forall j x, (q ++ ed) !! j = Some x ->
    c_buf k !!! Z.to_nat (u32 (c_r k + Z.of_nat j) mod INPUT_BUF) = x;
}.

(** What one key does. *)
Definition edit (c : Z) (q ed : list Z) : list Z * list Z :=
  if c =? ctrl 85 then (q, [])
  else if (c =? ctrl 72) || (c =? 127) then (q, removelast ed)
  else if (c =? 0) || (INPUT_BUF <=? Z.of_nat (length (q ++ ed))) then (q, ed)
  else
    let c := if c =? 13 then 10 else c in
    if (c =? 10) || (c =? ctrl 68) || (Z.of_nat (length (q ++ ed)) + 1 =? INPUT_BUF)
    then (q ++ ed ++ [c], []) else (q, ed ++ [c]).

Lemma u32_mod_buf z : u32 z mod INPUT_BUF = z mod INPUT_BUF.
Proof.
  unfold u32, INPUT_BUF. change (2 ^ 32) with (128 * 2 ^ 25). rewrite Z.rem_mul_r by lia.
  rewrite Z.mul_comm, Z.mod_add, Z.mod_mod by lia. done.
Qed.
Lemma u32_sub a n : u32 (u32 (a + n) - 1) = u32 (a + n - 1).
Proof. unfold u32. by rewrite Zminus_mod_idemp_l. Qed.
Lemma u32_succ a n : u32 (u32 (a + n) + 1) = u32 (a + n + 1).
Proof. unfold u32. by rewrite Zplus_mod_idemp_l. Qed.

(** How far apart two places of the ring are. *)
Lemma u32_gap a b n : 0 <= n < 2 ^ 32 -> u32 (u32 (a + (b + n)) - u32 (a + b)) = n.
Proof.
  intros Hn. unfold u32. rewrite <- Zminus_mod. replace (a + (b + n) - (a + b)) with n by lia. by apply Z.mod_small.
Qed.
Lemma u32_gap0 a n : 0 <= n < 2 ^ 32 -> u32 (u32 (a + n) - a) = n.
Proof.
  intros Hn. unfold u32. rewrite Zminus_mod_idemp_l. replace (a + n - a) with n by lia. by apply Z.mod_small.
Qed.

(** Nothing is being typed exactly when [e] is [w]. *)
Lemma ring_empty k q ed : ring k q ed -> (c_e k =? c_w k) = bool_decide (ed = []).
Proof.
  intros [R1 R2 R3 R4 R5 R6]. rewrite R4, R5. rewrite length_app in *. unfold INPUT_BUF in R2.
  case_bool_decide as E.
  - subst. apply Z.eqb_eq. do 2 f_equal. cbn. lia.
  - apply Z.eqb_neq. intros H. apply u32_inj in H; [|lia..]. destruct ed; [done|]. cbn in H. lia.
Qed.

Lemma ring_last k q ed x : ring k q (ed ++ [x]) ->
  c_buf k !!! Z.to_nat (u32 (c_e k - 1) mod INPUT_BUF) = x.
Proof.
  intros [R1 R2 R3 R4 R5 R6]. rewrite R5, u32_sub.
  replace (c_r k + Z.of_nat (length (q ++ ed ++ [x])) - 1) with (c_r k + Z.of_nat (length (q ++ ed)))
    by (rewrite !length_app; cbn; lia).
  apply R6. rewrite app_assoc. apply list_lookup_middle. done.
Qed.

(** Taking the last character back. *)
Lemma ring_back k q ed x : ring k q (ed ++ [x]) -> ring (set_c_e (u32 (c_e k - 1)) k) q ed.
Proof.
  intros [R1 R2 R3 R4 R5 R6]. split; cbn [set_c_e c_buf c_r c_w c_e]; try done.
  - rewrite app_assoc, length_app in R2. cbn in R2. lia.
  - rewrite R5, u32_sub. f_equal. rewrite !length_app. cbn. lia.
  - intros j y Hj. apply R6. rewrite app_assoc. by apply lookup_app_l_Some.
Qed.

(** Adding a character, and handing the line over. *)
Lemma ring_push k q ed c : ring k q ed -> Z.of_nat (length (q ++ ed)) < INPUT_BUF ->
  ring (Cons (<[Z.to_nat (c_e k mod INPUT_BUF) := c]> (c_buf k)) (c_r k) (c_w k) (u32 (c_e k + 1))) q (ed ++ [c]).
Proof.
  intros [R1 R2 R3 R4 R5 R6] Hl. split; cbn [c_buf c_r c_w c_e]; try done.
  - by rewrite length_insert.
  - rewrite app_assoc, length_app. cbn. lia.
  - rewrite R5, u32_succ. f_equal. rewrite app_assoc, (length_app (q ++ ed)). cbn. lia.
  - intros j y Hj. rewrite R5, !u32_mod_buf. rewrite app_assoc in Hj.
    assert (HB : 0 < INPUT_BUF) by done.
    pose proof (Z.mod_pos_bound (c_r k + Z.of_nat (length (q ++ ed))) INPUT_BUF HB).
    apply lookup_app_Some in Hj as [Hj|[Hge Hj]].
    + pose proof (lookup_lt_Some _ _ _ Hj) as Hlt. pose proof (Z.mod_pos_bound (c_r k + Z.of_nat j) INPUT_BUF HB).
      rewrite list_lookup_total_insert_ne; [rewrite <- u32_mod_buf; by apply R6|].
      intros E. assert (E' : (c_r k + Z.of_nat (length (q ++ ed))) mod INPUT_BUF = (c_r k + Z.of_nat j) mod INPUT_BUF) by lia.
      pose proof (Z.div_mod (c_r k + Z.of_nat (length (q ++ ed))) INPUT_BUF ltac:(done)).
      pose proof (Z.div_mod (c_r k + Z.of_nat j) INPUT_BUF ltac:(done)). unfold INPUT_BUF in *. lia.
    + destruct (j - length (q ++ ed))%nat eqn:Ej; [|done]. injection Hj as <-. replace j with (length (q ++ ed)) by lia.
      rewrite list_lookup_total_insert_eq; [done|]. rewrite R1. lia.
Qed.

Lemma ring_commit k q ed : ring k q ed -> ring (set_c_w (c_e k) k) (q ++ ed) [].
Proof. intros [R1 R2 R3 R4 R5 R6]. split; cbn [set_c_w c_buf c_r c_w c_e]; rewrite ?app_nil_r; done. Qed.

Lemma ring_full k q ed : ring k q ed -> (u32 (c_e k - c_r k) <? INPUT_BUF) = negb (INPUT_BUF <=? Z.of_nat (length (q ++ ed))).
Proof.
  intros [R1 R2 R3 R4 R5 R6]. rewrite R5, u32_gap0 by (unfold INPUT_BUF in *; lia). by rewrite Z.ltb_antisym.
Qed.
Lemma ring_now_full k q ed : ring k q ed ->
  (c_e k =? u32 (c_r k + INPUT_BUF)) = (Z.of_nat (length (q ++ ed)) =? INPUT_BUF).
Proof.
  intros [R1 R2 R3 R4 R5 R6]. rewrite R5. unfold INPUT_BUF in *.
  destruct (Z.eqb_spec (Z.of_nat (length (q ++ ed))) 128) as [E|E].
  - apply Z.eqb_eq. by rewrite E.
  - apply Z.eqb_neq. intros H. apply E. apply (u32_inj (c_r k)); [lia..|done].
Qed.

Section Input.
Context {SC : Sched} {UD : UartDev} (Hu : uart_ready).
Implicit Types (w : world kstate).

Lemma get_cons_run w : get_cons w = Ok (compc w, w).
Proof. done. Qed.
Lemma upd_cons_run f w : upd_cons f w = Ok ((), updc (f (compc w)) w).
Proof. done. Qed.

(** Inside the lock: the console and the output have changed. *)
Definition typed w w' : Prop := exists (k : cons) (u : uart), w' = updc k (updc u w).

Lemma typed_cons w w' (k : cons) : typed w w' -> typed w (updc k w').
Proof. intros (k1 & u1 & ->). exists k, u1. by rewrite updc_updc. Qed.
Lemma typed_uart w w' (u : uart) : typed w w' -> typed w (updc u w').
Proof. intros (k1 & u1 & ->). exists k1, u. by destruct w as [? ? ? []]. Qed.
Lemma typed_refl w : typed w w.
Proof. exists (compc w), (compc w). by rewrite !updc_compc. Qed.
Lemma typed_cpu w w' : typed w w' -> cpu_ok w -> cpu_ok w'.
Proof. intros (k & u & ->) H. eauto with xv6. Qed.
Lemma typed_lock l w w' : typed w w' -> lock_free l w -> lock_free l w'.
Proof. intros (k & u & ->) H. eauto with xv6. Qed.
Lemma typed_kframe w w' : typed w w' -> kframe w w'.
Proof. intros (k & u & ->). etrans; [apply (kframe_updc u)|apply kframe_updc]. Qed.

Lemma echo_run c w : cpu_ok w ->
  exists w', consputc c (acq L_cons w) = Ok ((), acq L_cons w') /\ typed w w' /\ compc (T := cons) w' = compc w.
Proof.
  intros Hc. exists (updc (emit (echo c) (compc w)) w). split; [|split; [apply typed_uart, typed_refl|done]].
  rewrite (consputc_run Hu) by eauto with xv6. knorm. by rewrite touch_acq by eauto with xv6.
Qed.

(** Control-U. *)
Lemma kill_line_run fuel ed w q : cpu_ok w -> ring (compc w) q ed -> 10 ∉ ed -> (length ed < fuel)%nat ->
  exists w', loop fuel kill_line_body () (acq L_cons w) = Ok ((), acq L_cons w') /\ typed w w' /\ ring (compc w') q [].
Proof.
  revert ed w. induction fuel as [|f IH]; intros ed w Hc Hr Hn Hf; [lia|].
  destruct ed as [|x ed _] using rev_ind.
  - exists w. split; [|split; [apply typed_refl|done]]. apply loop_exit. unfold kill_line_body.
    kdo (get_cons_run (acq L_cons w)). knorm. rewrite (ring_empty _ _ _ Hr). done.
  - pose proof (ring_back _ _ _ _ Hr) as Hb. set (w1 := updc (set_c_e (u32 (c_e (compc w) - 1)) (compc w)) w).
    destruct (echo_run BACKSPACE w1) as (w2 & E2 & S2 & K2); [by unfold w1; eauto with xv6|].
    assert (Hk : compc w1 = set_c_e (u32 (c_e (compc w) - 1)) (compc w)) by (unfold w1; by rewrite compc_updc).
    destruct (IH ed w2) as (w3 & E3 & S3 & R3).
    { eapply typed_cpu; [exact S2|]. unfold w1. eauto with xv6. }
    { by rewrite K2, Hk. } { intros H. apply Hn, elem_of_app. by left. } { rewrite length_app in Hf. cbn in Hf. lia. }
    exists w3. split; [|split; [|done]].
    + erewrite loop_next; [exact E3|]. unfold kill_line_body. kdo (get_cons_run (acq L_cons w)). knorm.
      rewrite (ring_empty _ _ _ Hr), bool_decide_false by (by destruct ed). cbn [negb andb].
      rewrite (ring_last _ _ _ _ Hr), (proj2 (Z.eqb_neq x 10)).
      2: { intros ->. apply Hn, elem_of_app. right. by apply list_elem_of_singleton. }
      cbn [negb]. kdo (upd_cons_run (fun k => set_c_e (u32 (c_e k - 1)) k) (acq L_cons w)). knorm. by kdo E2.
    + destruct S3 as (k3 & u3 & ->). apply typed_cons, typed_uart. destruct S2 as (k2 & u2 & ->).
      apply typed_cons, typed_uart. unfold w1. apply typed_cons, typed_refl.
Qed.

Lemma removelast_snoc {A} (l : list A) x : removelast (l ++ [x]) = l.
Proof. apply removelast_last. Qed.

(** Backspace. *)
Lemma backspace_run w q ed : cpu_ok w -> ring (compc w) q ed ->
  exists w', (k ← get_cons;
      if negb (c_e k =? c_w k) then upd_cons (fun k => set_c_e (u32 (c_e k - 1)) k) ;; consputc BACKSPACE
      else mret ()) (acq L_cons w) = Ok ((), acq L_cons w') /\ typed w w' /\ ring (compc w') q (removelast ed).
Proof.
  intros Hc Hr. kdo (get_cons_run (acq L_cons w)). knorm. rewrite (ring_empty _ _ _ Hr).
  destruct ed as [|x ed _] using rev_ind; [exists w; split; [done|split; [apply typed_refl|done]]|].
  rewrite bool_decide_false by (by destruct ed). cbn [negb].
  kdo (upd_cons_run (fun k => set_c_e (u32 (c_e k - 1)) k) (acq L_cons w)). knorm.
  set (w1 := updc _ w). destruct (echo_run BACKSPACE w1) as (w2 & E2 & S2 & K2); [unfold w1; eauto with xv6|].
  exists w2. split; [done|]. split.
  - destruct S2 as (k2 & u2 & ->). apply typed_cons, typed_uart. unfold w1. apply typed_cons, typed_refl.
  - rewrite K2, removelast_snoc. unfold w1. rewrite compc_updc. by eapply ring_back.
Qed.

(** An ordinary key. *)
Definition new_line (c : Z) (q ed : list Z) : bool :=
  (c =? 10) || (c =? ctrl 68) || (Z.of_nat (length (q ++ ed)) + 1 =? INPUT_BUF).

Lemma key_run c w q ed : quiet w -> ring (compc w) q ed -> Z.of_nat (length (q ++ ed)) < INPUT_BUF -> 0 <= c < 256 ->
  exists w1, (consputc c ;;
       upd_cons (fun k => Cons (<[Z.to_nat (c_e k mod INPUT_BUF) := u8 c]> (c_buf k)) (c_r k) (c_w k) (u32 (c_e k + 1))) ;;
       k ← get_cons;
       if (c =? 10) || (c =? ctrl 68) || (c_e k =? u32 (c_r k + INPUT_BUF)) then
         upd_cons (fun k => set_c_w (c_e k) k) ;;
         wakeup Ch_cons_r
       else mret ()) (acq L_cons w) =
    Ok ((), acq L_cons (if new_line c q ed then updc (tab_map (woken Ch_cons_r) (compc w)) w1 else w1)) /\
    typed w w1 /\ if new_line c q ed then ring (compc w1) (q ++ ed ++ [c]) [] else ring (compc w1) q (ed ++ [c]).
Proof.
  intros Hq Hr Hlen Hc. destruct (echo_run c w) as (w1 & E1 & S1 & K1); [eauto with xv6|].
  kdo E1. kdo (upd_cons_run (fun k => Cons (<[Z.to_nat (c_e k mod INPUT_BUF) := u8 c]> (c_buf k)) (c_r k) (c_w k) (u32 (c_e k + 1))) (acq L_cons w1)).
  knorm. rewrite K1, u8_id by lia. pose proof (ring_push _ _ _ c Hr Hlen) as Hp. set (k2 := Cons _ _ _ _) in *.
  kdo (get_cons_run (acq L_cons (updc k2 w1))). knorm. rewrite (ring_now_full _ _ _ Hp).
  replace (Z.of_nat (length (q ++ ed ++ [c]))) with (Z.of_nat (length (q ++ ed)) + 1)
    by (rewrite !length_app; cbn; lia). fold (new_line c q ed).
  destruct (new_line c q ed).
  - kdo (upd_cons_run (fun k => set_c_w (c_e k) k) (acq L_cons (updc k2 w1))). knorm.
    exists (updc (set_c_w (c_e k2) k2) w1).
    assert (S2 : typed w (updc (set_c_w (c_e k2) k2) w1)) by by apply typed_cons.
    split; [|split; [done|]].
    + assert (Ht : compc (T := proctab) (updc (set_c_w (c_e k2) k2) w1) = compc w) by (by destruct S1 as (? & ? & ->)).
      rewrite wakeup_run.
      * knorm. rewrite Ht. rewrite touch_acq; [done|]. apply cpu_ok_updc. eapply typed_cpu; [exact S2|]. eauto with xv6.
      * eapply cpu_ok_acq, typed_cpu; [exact S2|]. eauto with xv6.
      * intros i Hi. apply lock_free_acq; [congruence|]. eapply typed_lock; [exact S2|]. by apply (q_unl _ Hq).
      * knorm. rewrite Ht. by apply quiet_len.
    + rewrite compc_updc. rewrite app_assoc. apply (ring_commit k2 q (ed ++ [c])) in Hp. by rewrite app_assoc in Hp.
  - exists (updc k2 w1). split; [done|]. split; [by apply typed_cons|]. by rewrite compc_updc.
Qed.

(** C31: The input side of the console is a line editor: a key other than the process
    listing changes the pending lines and the line being typed as [edit] says
    (erase and kill never reach into a line handed over, carriage return counts as
    newline, a key that finds the ring full is dropped, a line is handed over at
    newline, end-of-file or a full ring), and readers are woken up exactly when a
    line is handed over.  The 32-bit indices may wrap around. *)
Theorem consoleintr_correct c w q ed
  (Hq : quiet w) (Hl : lock_free L_cons w) (Hr : ring (compc w) q ed) (Hn : 10 ∉ ed)
  (Hc : 0 <= c < 256) (Hp : c <> ctrl 80) :
  exists w', consoleintr c w = Ok ((), w') /\ kframe w w' /\
    ring (compc w') (edit c q ed).1 (edit c q ed).2 /\ 10 ∉ (edit c q ed).2 /\
    compc (T := proctab) w' = if bool_decide ((edit c q ed).1 = q) then compc w
                              else tab_map (woken Ch_cons_r) (compc w).
Proof.
  unfold consoleintr, edit. kacquire. rewrite (proj2 (Z.eqb_neq c (ctrl 80))) by done.
  assert (Fin : forall w1 q' ed', typed w w1 -> ring (compc w1) q' ed' -> 10 ∉ ed' -> q' = q ->
    exists w', release L_cons (acq L_cons w1) = Ok ((), w') /\ kframe w w' /\ ring (compc w') q' ed' /\ 10 ∉ ed' /\
      compc (T := proctab) w' = if bool_decide (q' = q) then compc w else tab_map (woken Ch_cons_r) (compc w)).
  { intros w1 q' ed' S1 R1 N1 ->. exists (touch w1). split.
    { apply release_acq; [eapply typed_cpu; [exact S1|]; eauto with xv6|by eapply typed_lock]. }
    split; [etrans; [by apply typed_kframe|apply kframe_touch]|]. rewrite compc_touch. split; [done|]. split; [done|].
    rewrite bool_decide_true by done. by destruct S1 as (? & ? & ->). }
  destruct (c =? ctrl 85).
  { destruct (kill_line_run (S (Z.to_nat INPUT_BUF)) ed w q) as (w1 & E1 & S1 & R1); [eauto with xv6|done|done| |].
    { pose proof (rg_fit _ _ _ Hr) as F. rewrite length_app in F. lia. }
    kdo E1. apply Fin; [done|done|apply not_elem_of_nil|done]. }
  destruct ((c =? ctrl 72) || (c =? 127)).
  { destruct (backspace_run w q ed) as (w1 & E1 & S1 & R1); [eauto with xv6|done|]. kdo E1. apply Fin; try done.
    destruct ed as [|x ed _] using rev_ind; [done|]. rewrite removelast_snoc. intros H. apply Hn, elem_of_app. by left. }
  rewrite bind_assoc. kdo (get_cons_run (acq L_cons w)). knorm. rewrite (ring_full _ _ _ Hr).
  replace (negb (c =? 0) && negb (INPUT_BUF <=? Z.of_nat (length (q ++ ed)))) with
    (negb ((c =? 0) || (INPUT_BUF <=? Z.of_nat (length (q ++ ed))))) by apply negb_orb.
  destruct ((c =? 0) || (INPUT_BUF <=? Z.of_nat (length (q ++ ed)))) eqn:Ef; cbn [negb].
  { rewrite bind_mret. apply Fin; [apply typed_refl|done..]. }
  apply orb_false_iff in Ef as [_ Ef%Z.leb_gt]. set (c' := if c =? 13 then 10 else c).
  destruct (key_run c' w q ed Hq Hr Ef) as (w1 & E1 & S1 & R1); [subst c'; destruct (c =? 13); lia|].
  kdo E1. fold (new_line c' q ed). destruct (new_line c' q ed) eqn:El; cbn [fst snd].
  - set (w2 := updc _ w1). exists (touch w2). split.
    { apply release_acq; unfold w2; [apply cpu_ok_updc; eapply typed_cpu; [exact S1|]; eauto with xv6|].
      apply lock_free_updc. by eapply typed_lock. }
    split; [etrans; [by apply typed_kframe|]; etrans; [|apply kframe_touch]; apply kframe_updc|].
    rewrite !compc_touch. unfold w2. rewrite (compc_updc_ne1 (T1 := cons)), compc_updc. split; [done|].
    split; [apply not_elem_of_nil|]. rewrite bool_decide_false; [done|]. intros H.
    apply (f_equal length) in H. rewrite !length_app in H. cbn in H. lia.
  - apply Fin; try done. unfold new_line in El. apply orb_false_iff in El as [[El%Z.eqb_neq _]%orb_false_iff _].
    intros [H|H%list_elem_of_singleton]%elem_of_app; congruence.
Qed.
End Input.

(** ** A device that is always ready, and a console on which "ab" was typed *)

Definition ex_uart : UartDev := {| read_LSR := mret LSR_TX_IDLE; read_RHR := mret 0; uart_polls := 1 |}.

Lemma ex_uart_ready : uart_ready (UD := ex_uart).
Proof. split; [cbn; lia|]. intros w. exists LSR_TX_IDLE. split; [reflexivity|]. by vm_compute. Qed.

Lemma printint_correct_witness : exists text w', printint (UD := ex_uart) (- 2 ^ 31) 10 true bio_w0 = Ok ((), w') /\
  compc w' = emit text (compc bio_w0) /\ (length text <= 16)%nat /\ is_numeral 10 (- 2147483648) text.
Proof.
  destruct (printint_correct (UD := ex_uart) ex_uart_ready (- 2 ^ 31) 10 true bio_w0) as (text & w' & E & _ & U & L & N).
  - by left.
  - lia.
  - apply bio_w0_quiet.
  - exists text, w'. split; [exact E|]. split; [exact U|]. split; [exact L|exact N].
Defined.

Definition ex_typed : cons := Cons (<[0%nat := 97]> (<[1%nat := 98]> (repeat 0 128))) 0 0 2.

Lemma ex_ring : ring ex_typed [] [97; 98].
Proof.
  split; try reflexivity; try (cbn; lia).
  - by vm_compute.
  - intros [|[|j]] x [= <-]; reflexivity.
Qed.

Lemma consoleintr_correct_witness : exists w',
  consoleintr (UD := ex_uart) 13 (updc ex_typed bio_w0) = Ok ((), w') /\ ring (compc w') [97; 98; 10] [].
Proof.
  destruct (consoleintr_correct (UD := ex_uart) ex_uart_ready 13 (updc ex_typed bio_w0) [] [97; 98])
    as (w' & E & _ & R & _).
  - apply quiet_updc, bio_w0_quiet.
  - apply lock_free_updc. exists "". reflexivity.
  - rewrite compc_updc. exact ex_ring.
  - apply (bool_decide_unpack _). vm_compute. exact I.
  - lia.
  - by vm_compute.
  - exists w'. split; [exact E|exact R].
Defined.
