(* ===== verification/BioClient.v ===== *)
(** * Working with the buffer cache

    The state of a thread that uses the cache, as its client sees it: the view
    of every block, the number of references, the disk, the buffers the thread
    holds and the number of buffers nobody refers to.  The lemmas [cs_*] give
    the effect of each operation of bio.c in these terms; the log and the file
    system are verified on top of them. *)
From stdpp Require Import prelude gmap strings.
From Stdlib Require Import ZArith Lia.
From S2P Require Import Prelude Spinlock Riscv Proc Bytes State Sleeplock Bio BioView.
Open Scope Z_scope.

(** Functions updated at one point. *)
Definition fupd {A} (f : Z -> A) (n : Z) (x : A) : Z -> A := fun m => if decide (m = n) then x else f m.

Lemma fupd_eq {A} (f : Z -> A) n x : fupd f n x n = x.
Proof. unfold fupd. by rewrite decide_True. Qed.
Lemma fupd_ne {A} (f : Z -> A) n x m : m <> n -> fupd f n x m = f m.
Proof. intros H. unfold fupd. by rewrite decide_False. Qed.

(** Evaluate updated functions at known points. *)
Ltac fsimp_in C :=
  repeat match type of C with
  | context [fupd ?f ?n ?x ?n] => rewrite (fupd_eq f n x) in C
  | context [fupd ?f ?n ?x ?m] =>
      rewrite (fupd_ne f n x m) in C by (assumption || (apply not_eq_sym; assumption))
  end.

(** ** Counting the unreferenced buffers *)

Definition nfree (s : kstate) : nat :=
  length (filter (fun i => b_refcnt (buf_at s i) = 0) (seq 0 nbuf)).

(** 1 if the count is 0. *)
Definition zero1 (r : Z) : nat := if decide (r = 0) then 1%nat else 0%nat.

Lemma zero1_0 : zero1 0 = 1%nat.
Proof. done. Qed.
Lemma zero1_ne r : r <> 0 -> zero1 r = 0%nat.
Proof. intros H. unfold zero1. by rewrite decide_False. Qed.

Lemma filter_same {A} (P Q : A -> Prop) `{!forall i, Decision (P i), !forall i, Decision (Q i)} (l : list A) :
  (forall i, i ∈ l -> P i <-> Q i) -> filter P l = filter Q l.
Proof.
  induction l as [|x l IH]; [done|]. intros Heq. rewrite !filter_cons, IH by set_solver.
  pose proof (Heq x ltac:(set_solver)). repeat case_decide; naive_solver.
Qed.

Lemma filter_change {A} `{!EqDecision A} (P Q : A -> Prop) `{!forall i, Decision (P i), !forall i, Decision (Q i)} (l : list A) b :
  NoDup l -> b ∈ l -> (forall i, i ∈ l -> i <> b -> P i <-> Q i) ->
  (length (filter Q l) + (if decide (P b) then 1 else 0) =
   length (filter P l) + (if decide (Q b) then 1 else 0))%nat.
Proof.
  induction l as [|x l IH]; [set_solver|]. intros [Hx Hnd]%NoDup_cons Hb Heq.
  rewrite !filter_cons. destruct (decide (x = b)) as [->|Hne].
  - rewrite (filter_same Q P l) by (intros i Hi; symmetry; apply Heq; set_solver).
    repeat case_decide; cbn; lia.
  - apply elem_of_cons in Hb as [->|Hb]; [done|].
    specialize (IH Hnd Hb ltac:(intros i Hi; apply Heq; set_solver)).
    pose proof (Heq x ltac:(set_solver) Hne). repeat case_decide; cbn; try lia; naive_solver.
Qed.

Lemma nfree_change s s' b : (b < nbuf)%nat ->
  (forall i, (i < nbuf)%nat -> i <> b -> b_refcnt (buf_at s' i) = b_refcnt (buf_at s i)) ->
  (nfree s' + zero1 (b_refcnt (buf_at s b)) = nfree s + zero1 (b_refcnt (buf_at s' b)))%nat.
Proof.
  intros Hb H. unfold nfree, zero1. pose proof (filter_change (fun i => b_refcnt (buf_at s i) = 0)
    (fun i => b_refcnt (buf_at s' i) = 0) (seq 0 nbuf) b) as Hc. apply Hc.
  - apply NoDup_seq.
  - apply elem_of_seq. lia.
  - intros i Hi%elem_of_seq Hne. rewrite H by lia. done.
Qed.

Lemma nfree_pos s : (0 < nfree s)%nat -> exists i, (i < nbuf)%nat /\ b_refcnt (buf_at s i) = 0.
Proof.
  unfold nfree. destruct (filter _ _) as [|i l'] eqn:E; cbn; [lia|]. intros _. exists i.
  assert (Hi : i ∈ filter (fun i => b_refcnt (buf_at s i) = 0) (seq 0 nbuf)) by (rewrite E; set_solver).
  apply list_elem_of_filter in Hi as [H1 H2%elem_of_seq]. split; [lia|done].
Qed.

(** ** The client's view of the cache *)

(** Operations on the cache leave the locks of inodes alone. *)
Definition cstep (w w' : world kstate) : Prop :=
  bstep w w' /\ forall i, ks_sl (data w') !!! L_inode i = ks_sl (data w) !!! L_inode i.

#[export] Instance cstep_preorder : PreOrder cstep.
Proof.
  split; [by intros w; split|]. intros w1 w2 w3 [A1 B1] [A2 B2]. split; [by etrans|].
  intros i. by rewrite B2, B1.
Qed.

(** [cs w V R d F ex H]: the view is [V], the references [R], the disk [d]; [F]
    buffers are unreferenced; the thread holds the buffers [H], each with its
    block; [ex] are buffers in the middle of their release. *)
Record cs (w : world kstate) (V : Z -> blk) (R : Z -> Z) (d : disk) (F : nat)
    (ex : nat -> Prop) (H : list (nat * Z)) : Prop := {
  cs_quiet : quiet w;
  cs_unl : bio_unlocked w;
  cs_inv : exists l, binv (data w) l ex;
  cs_view : forall m, view (data w) m = V m;
  cs_refs : forall m, refs (data w) m = R m;
  cs_disk : ks_disk (data w) = d;
  cs_free : nfree (data w) = F;
  cs_held : forall b n, (b, n) ∈ H ->
    is_buf (data w) b n /\ b_valid (buf_at (data w) b) <> 0 /\ holds_buf w b;
  cs_unheld : forall i, (i < nbuf)%nat -> (forall n, (i, n) ∉ H) ->
    sl_locked (ks_sl (data w) !!! L_buf i) = 0;
}.

Section Client.
Context {SC : Sched} {VD : VirtioDisk}.
Implicit Types (w : world kstate).

Lemma cs_held_inj w V R d F ex H b n b' n' : cs w V R d F ex H -> (b, n) ∈ H -> (b', n') ∈ H ->
  b = b' <-> n = n'.
Proof.
  intros C H1 H2. destruct (cs_held _ _ _ _ _ _ _ C _ _ H1) as (I1 & _).
  destruct (cs_held _ _ _ _ _ _ _ C _ _ H2) as (I2 & _). destruct (cs_inv _ _ _ _ _ _ _ C) as [l B].
  split; [intros ->|intros ->; by eapply bi_uniq].
  destruct I1 as (_ & _ & <-), I2 as (_ & _ & <-). done.
Qed.

Lemma cs_not_locked w V R d F ex H n : cs w V R d F ex H -> (forall b, (b, n) ∉ H) ->
  ~ locked_block (data w) n.
Proof.
  intros C Hn (i & Hi & Hs). apply Hs. apply (cs_unheld _ _ _ _ _ _ _ C); [apply Hi|].
  intros m Hm. destruct (cs_held _ _ _ _ _ _ _ C _ _ Hm) as (Him & _).
  destruct Hi as (_ & _ & <-), Him as (_ & _ & <-). by eapply Hn.
Qed.

Lemma cs_avail w V R d F ex H n : cs w V R d F ex H -> (0 < F)%nat \/ R n <> 0 -> avail (data w) n.
Proof.
  intros C [HF|HR].
  - right. apply nfree_pos. by rewrite (cs_free _ _ _ _ _ _ _ C).
  - left. rewrite <- (cs_refs _ _ _ _ _ _ _ C) in HR. unfold refs in HR.
    destruct (cached (data w) n) as [i|] eqn:E; [|done].
    destruct (cs_inv _ _ _ _ _ _ _ C) as [l B]. exists i. by apply (cached_Some _ l ex).
Qed.

Lemma cs_bread w V R d F H n : cs w V R d F none H -> (0 < wakeups)%nat ->
  0 <= n < 2 ^ 31 -> (forall b, (b, n) ∉ H) -> (0 < F)%nat \/ R n <> 0 -> R n < 2 ^ 32 - 1 ->
  exists b w', bread ROOTDEV n w = Ok (b, w') /\ cstep w w' /\
    cs w' V (fupd R n (R n + 1)) d (F - zero1 (R n))%nat none ((b, n) :: H).
Proof.
  intros C Hw Hn Hnh Ha Hr. pose proof C as [Q U [l B] CV CR CD CF CH CU].
  destruct (bread_ok w l n) as (b & w' & E & P); try done.
  { by eapply cs_not_locked. } { by eapply cs_avail. } { by rewrite CR. }
  exists b, w'. split; [done|].
  destruct P as [P1 P2 P3 P4 P5 P6 P7 P8 P9 P10 P11 P12 P13].
  split; [split; [done|]; intros i; by apply P10|].
  assert (Hb : forall m, (b, m) ∉ H).
  { intros m Hm. destruct (CH _ _ Hm) as (_ & _ & Hh & _). apply Hh. exact P13. }
  split; [by eapply bstep_quiet|by eapply bstep_unlocked|by eexists|..].
  - intros m. by rewrite P7.
  - intros m. rewrite P8, CR. unfold fupd. case_decide; [by subst|lia].
  - congruence.
  - pose proof P3 as (Hlt & _).
    pose proof (nfree_change (data w) (data w') b Hlt) as Hc. rewrite CF, P12, CR in Hc.
    assert (Hz : zero1 (b_refcnt (buf_at (data w') b)) = 0%nat).
    { unfold zero1. rewrite decide_False; [done|]. rewrite <- (refs_buf _ l none b n) by done.
      rewrite P8, CR, decide_True by done. pose proof (refs_nonneg _ _ _ n B). rewrite CR in *. lia. }
    rewrite Hz in Hc. specialize (Hc ltac:(intros i _ Hi; by rewrite P9)). lia.
  - intros b' m [[= -> ->]|Hm]%elem_of_cons; [done|]. destruct (CH _ _ Hm) as (I1 & I2 & I3).
    assert (b' <> b) by (intros ->; by eapply Hb). unfold is_buf in *. rewrite P9 by done.
    split_and!; try apply I1; [done|]. eapply bstep_holds; [done| |done]. apply P10. congruence.
  - intros i Hi Hni. rewrite P10; [apply CU; [done|]|intros [= ->]; by eapply Hni; left].
    intros m Hm. eapply Hni. by right.
Qed.

(** The contents of a held buffer. *)
Lemma cs_get w V R d F ex H b n : cs w V R d F ex H -> (b, n) ∈ H ->
  b_data (bufs (compc w) !!! b) = V n /\ b_blockno (bufs (compc w) !!! b) = n.
Proof.
  intros C Hb. destruct (cs_held _ _ _ _ _ _ _ C _ _ Hb) as (I & Hv & _).
  destruct (cs_inv _ _ _ _ _ _ _ C) as [l B]. rewrite <- (cs_view _ _ _ _ _ _ _ C).
  rewrite (view_buf _ l ex b n) by done. rewrite (proj2 (Z.eqb_neq _ _) Hv).
  split; [done|apply I].
Qed.

(** Steps that change one held buffer only. *)
Lemma cs_change w w' V V' R R' d d' F F' ex ex' H b n :
  cs w V R d F ex H -> (b, n) ∈ H -> cstep w w' -> (exists l, binv (data w') l ex') ->
  (forall m, view (data w') m = V' m) -> (forall m, refs (data w') m = R' m) ->
  ks_disk (data w') = d' ->
  (F' + zero1 (R n) = F + zero1 (R' n))%nat ->
  (forall i m, is_buf (data w') i m <-> is_buf (data w) i m) ->
  (forall i, i <> b -> b_refcnt (buf_at (data w') i) = b_refcnt (buf_at (data w) i)) ->
  (forall i, b_valid (buf_at (data w') i) = b_valid (buf_at (data w) i)) ->
  ks_sl (data w') = ks_sl (data w) ->
  cs w' V' R' d' F' ex' H.
Proof.
  intros C Hb St [l' B'] HV HR HD HF HI Hrc Hval Hsl. pose proof C as [Q U [l B] CV CR CD CF CH CU].
  pose proof St as [St1 _]. destruct (CH _ _ Hb) as (Ib & _). pose proof Ib as (Hlt & _).
  split; [by eapply bstep_quiet|by eapply bstep_unlocked|by eexists|done|done|done|..].
  - pose proof (nfree_change (data w) (data w') b Hlt ltac:(auto)) as Hc.
    rewrite <- (refs_buf _ l ex b n), <- (refs_buf (data w') l' ex' b n), HR, CR in Hc
      by (done || by apply HI). lia.
  - intros b' m Hm. destruct (CH _ _ Hm) as (I1 & I2 & I3). rewrite HI, Hval.
    split_and!; [done..|]. eapply bstep_holds; [done|by rewrite Hsl|done].
  - intros i Hi Hn. rewrite Hsl. by apply CU.
Qed.

Lemma cs_set w V R d F ex H b n x : cs w V R d F ex H -> (b, n) ∈ H -> R n <> 0 ->
  exists w', upd_buf (set_data x) b w = Ok ((), w') /\ cstep w w' /\
    cs w' (fupd V n x) R d F ex H.
Proof.
  intros C Hb Hr. pose proof C as [Q U [l B] CV CR CD CF CH CU].
  destruct (CH _ _ Hb) as (I1 & I2 & I3). pose proof I1 as (Hlt & _).
  destruct (set_data_ok w l ex b n x) as (w' & E & S1 & B' & D & HI & HV & HR); try done.
  { by rewrite CR. }
  exists w'. split; [done|].
  assert (Hat : forall i, buf_at (data w') i = if decide (i = b) then set_data x (buf_at (data w) b) else buf_at (data w) i).
  { intros i. rewrite D. by apply (buf_at_put _ l ex). }
  assert (St : cstep w w') by (split; [done|]; intros i; by rewrite D). split; [done|].
  eapply cs_change; try done.
  - by eexists.
  - intros m. rewrite HV. unfold fupd. by rewrite CV.
  - intros m. by rewrite HR, CR.
  - by rewrite D.
  - intros i Hi. by rewrite Hat, decide_False.
  - intros i. rewrite Hat. case_decide; [subst; by destruct (buf_at (data w) b)|done].
  - by rewrite D.
Qed.

Lemma cs_bwrite w V R d F ex H b n : cs w V R d F ex H -> (b, n) ∈ H ->
  exists w', bwrite b w = Ok ((), w') /\ cstep w w' /\ cs w' V R (disk_write d n (V n)) F ex H.
Proof.
  intros C Hb. pose proof C as [Q U [l B] CV CR CD CF CH CU].
  destruct (CH _ _ Hb) as (I1 & I2 & I3).
  destruct (bwrite_ok w l ex b n) as (w' & E & S1 & B' & D & HV & HR); try done.
  exists w'. split; [done|].
  assert (St : cstep w w') by (split; [done|]; intros i; by rewrite D). split; [done|].
  eapply cs_change; try done; try (by rewrite D).
  - by eexists.
  - intros m. by rewrite HV.
  - rewrite D. cbn. by rewrite CV, CD.
Qed.

Lemma zero1_le w V R d F ex H b n : cs w V R d F ex H -> (b, n) ∈ H -> (zero1 (R n) <= F)%nat.
Proof.
  intros C Hb. destruct (cs_held _ _ _ _ _ _ _ C _ _ Hb) as (I1 & _). pose proof I1 as (Hlt & _).
  destruct (cs_inv _ _ _ _ _ _ _ C) as [l B]. unfold zero1. case_decide as Hz; [|lia].
  rewrite <- (cs_free _ _ _ _ _ _ _ C). unfold nfree.
  assert (Hin : b ∈ filter (fun i => b_refcnt (buf_at (data w) i) = 0) (seq 0 nbuf)).
  { apply list_elem_of_filter. split; [|apply elem_of_seq; lia].
    by rewrite <- (refs_buf _ l ex b n), (cs_refs _ _ _ _ _ _ _ C). }
  destruct (filter _ _); [set_solver|cbn; lia].
Qed.

(** 1 more or less unreferenced buffer. *)
Lemma cs_bunpin w V R d F ex H b n : cs w V R d F ex H -> (b, n) ∈ H ->
  exists w', bunpin b w = Ok ((), w') /\ cstep w w' /\
    cs w' V (fupd R n (u32 (R n - 1))) d (F + zero1 (u32 (R n - 1)) - zero1 (R n))%nat (plus ex b) H.
Proof.
  intros C Hb. pose proof C as [Q U [l B] CV CR CD CF CH CU].
  destruct (CH _ _ Hb) as (I1 & I2 & I3). pose proof I1 as (Hlt & _).
  destruct (bunpin_ok w l ex b n) as (w' & E & S1 & B' & D & HI & HV & HR); try done.
  exists w'. split; [done|]. rewrite CR in *.
  assert (Hat : forall i, buf_at (data w') i =
    if decide (i = b) then set_refcnt (u32 (R n - 1)) (buf_at (data w) b) else buf_at (data w) i).
  { intros i. rewrite D. by apply (buf_at_put _ l ex). }
  assert (St : cstep w w') by (split; [done|]; intros i; by rewrite D). split; [done|].
  pose proof (zero1_le _ _ _ _ _ _ _ _ _ C Hb) as HF.
  eapply cs_change; try done.
  - by eexists.
  - intros m. by rewrite HV.
  - intros m. rewrite HR. unfold fupd. by rewrite CR.
  - by rewrite D.
  - rewrite fupd_eq. lia.
  - intros i Hi. by rewrite Hat, decide_False.
  - intros i. rewrite Hat. case_decide; [subst; by destruct (buf_at (data w) b)|done].
  - by rewrite D.
Qed.

Lemma cs_bpin w V R d F ex H b n : cs w V R d F ex H -> (b, n) ∈ H -> 0 < R n < 2 ^ 32 - 1 ->
  exists w', bpin b w = Ok ((), w') /\ cstep w w' /\ cs w' V (fupd R n (R n + 1)) d F ex H.
Proof.
  intros C Hb Hr. pose proof C as [Q U [l B] CV CR CD CF CH CU].
  destruct (CH _ _ Hb) as (I1 & I2 & I3). pose proof I1 as (Hlt & _).
  destruct (bpin_ok w l ex b n) as (w' & E & S1 & B' & D & HI & HV & HR); try done.
  { rewrite CR. lia. }
  exists w'. split; [done|]. rewrite CR in *.
  assert (Hat : forall i, buf_at (data w') i =
    if decide (i = b) then set_refcnt (R n + 1) (buf_at (data w) b) else buf_at (data w) i).
  { intros i. rewrite D. by apply (buf_at_put _ l ex). }
  assert (St : cstep w w') by (split; [done|]; intros i; by rewrite D). split; [done|].
  eapply cs_change; try done.
  - by eexists.
  - intros m. by rewrite HV.
  - intros m. rewrite HR, CR. unfold fupd. case_decide; [by subst|lia].
  - by rewrite D.
  - rewrite fupd_eq. unfold zero1. rewrite !decide_False by lia. lia.
  - intros i Hi. by rewrite Hat, decide_False.
  - intros i. rewrite Hat. case_decide; [subst; by destruct (buf_at (data w) b)|done].
  - by rewrite D.
Qed.

(** The held buffers without [b]. *)
Definition unhold (b : nat) (H : list (nat * Z)) : list (nat * Z) := filter (fun p => p.1 <> b) H.

Lemma unhold_eq b n H : unhold b ((b, n) :: H) = unhold b H.
Proof. unfold unhold. rewrite filter_cons, decide_False; [done|]. cbn. tauto. Qed.
Lemma unhold_ne b b' n H : b' <> b -> unhold b ((b', n) :: H) = (b', n) :: unhold b H.
Proof. intros E. unfold unhold. by rewrite filter_cons, decide_True. Qed.

Lemma minus_none s l b : binv s l (minus none b) -> binv s l none.
Proof.
  intros [B1 B2 B3 B4 B5]. split; try done; intros i Hi _; [apply B4|apply B5]; try done; by intros [[] _].
Qed.
Lemma minus_plus s l b : binv s l (minus (plus none b) b) -> binv s l none.
Proof.
  intros [B1 B2 B3 B4 B5]. split; try done; intros i Hi _; [apply B4|apply B5]; try done;
    intros [[[]|?] ?]; done.
Qed.

Lemma cs_brelse w V R d F ex H b n : cs w V R d F ex H -> (b, n) ∈ H ->
  (u32 (R n - 1) = 0 -> V n = disk_block d n) ->
  exists w', brelse b w = Ok ((), w') /\ cstep w w' /\
    cs w' V (fupd R n (u32 (R n - 1))) d (F + zero1 (u32 (R n - 1)) - zero1 (R n))%nat
      (minus ex b) (unhold b H).
Proof.
  intros C Hb Hcl. pose proof (zero1_le _ _ _ _ _ _ _ _ _ C Hb) as HF.
  pose proof C as [Q U [l B] CV CR CD CF CH CU].
  destruct (CH _ _ Hb) as (I1 & I2 & I3). pose proof I1 as (Hlt & _).
  destruct (brelse_ok w l ex b n) as (w' & E & P); try done.
  { rewrite CR, CV, CD. auto. }
  exists w'. split; [done|].
  destruct P as [P1 P2 P3 P4 P5 P6 P7 P8 P9]. rewrite CR in *.
  split; [split; [done|]; intros i; by apply P8|].
  split; [by eapply bstep_quiet|by eapply bstep_unlocked|by eexists|..].
  - intros m. by rewrite P4.
  - intros m. rewrite P5. unfold fupd. by rewrite CR.
  - congruence.
  - pose proof (nfree_change (data w) (data w') b Hlt) as Hc.
    rewrite <- (refs_buf _ l ex b n), <- (refs_buf (data w') _ _ b n P2), P5, CR, CF, decide_True in Hc
      by (done || by apply P3).
    specialize (Hc ltac:(intros i Hi Hne; by destruct (core_inj _ _ (P6 i Hi Hne)) as (_ & _ & _ & _ & -> & _))).
    lia.
  - intros b' m [Hne Hm]%list_elem_of_filter. cbn in Hne. destruct (CH _ _ Hm) as (J1 & J2 & J3).
    pose proof J1 as (Hlt' & _). destruct (core_inj _ _ (P6 b' Hlt' Hne)) as (-> & _).
    rewrite P3. split_and!; [done..|]. eapply bstep_holds; [done| |done]. apply P8. congruence.
  - intros i Hi Hni. destruct (decide (i = b)) as [->|Hne]; [done|].
    rewrite P8 by congruence. apply CU; [done|]. intros m Hm. apply (Hni m).
    by apply list_elem_of_filter.
Qed.
End Client.

(** ** A machine that has just booted with disk [D] *)

Lemma cs_boot (D : disk) : exists w, cs w (disk_block D) (fun _ => 0) D nbuf none [] /\
  compc (T := log) w = log0 /\ lock_free L_log w /\ lock_free L_icache w /\ lock_free L_ftable w /\
  (forall i, (i < 50)%nat -> lock_free (L_inode i) w).
Proof.
  destruct bio_world_ok as (w & E & Q & U & B & Hno & Hc). exists (updc D w).
  assert (Hlog : compc (T := log) (updc D w) = log0 /\ lock_free L_log (updc D w) /\
    lock_free L_icache (updc D w) /\ lock_free L_ftable (updc D w) /\ forall i, (i < 50)%nat -> lock_free (L_inode i) (updc D w)).
  { destruct (binit_ok bio_w0 bio_w0_zero) as (w' & E' & _ & _ & _ & L3 & _ & _ & _ & _ & D').
    rewrite E in E'. injection E' as <-.
    assert (Hl : forall k, k <> L_bcache -> (forall i, k <> L_buf i) -> locks bio_w0 !! k = Some (Spinlock 0 "" None) ->
      lock_free k (updc D w)).
    { intros k H1 H2 H3. exists "". change (locks (updc D w) !! k) with (locks w !! k). by rewrite L3. }
    clear E. split; [unfold compc; cbn; rewrite D'; reflexivity|].
    split_and!; [apply Hl; [discriminate|discriminate|reflexivity]..|].
    intros i Hi. apply Hl; [discriminate|discriminate|].
    do 50 (destruct i as [|i]; [reflexivity|]). lia. }
  clear E. split; [|exact Hlog]. clear Hlog.
  assert (Hz : forall i, (i < nbuf)%nat ->
    b_valid (buf_at (data w) i) = 0 /\ b_refcnt (buf_at (data w) i) = 0).
  { intros i Hi. by destruct (core_inj _ _ (Hc i Hi)) as (E1 & _ & _ & _ & E2 & _). }
  destruct B as [B1 B2 B3 B4 B5]. split.
  - eauto with xv6.
  - done.
  - exists (rev (seq 0 nbuf)). split; try done. intros i Hi _ _ Hv. by destruct (Hv (proj1 (Hz i Hi))).
  - intros m. unfold view. rewrite (proj2 (cached_None _ _)); [done|]. intros i. apply Hno.
  - intros m. apply refs_none. intros i. apply Hno.
  - done.
  - unfold nfree. rewrite (filter_same _ (fun _ => True) (seq 0 nbuf)); [done|].
    intros i Hi%elem_of_seq. destruct (Hz i) as [_ R]; [lia|]. done.
  - set_solver.
  - intros i Hi _. apply B5; [done|intros []|]. by apply Hz.
Qed.
