(* ===== verification/Log.v ===== *)
(** * kernel/log.c: the write-ahead log

    The header block has the count [n] in its first four bytes, then the block
    numbers; both are C ints.  Everything goes through the buffer cache, as in
    the C code.  An index beyond [lh.block[LOGSIZE]] would be undefined behaviour
    in C; the model stops there. *)
From stdpp Require Import prelude gmap strings.
From Stdlib Require Import ZArith Lia.
From S2P Require Import Prelude Spinlock Riscv Proc Bytes State Sleeplock Bio BioView BioClient.
Open Scope Z_scope.

(** Fields of the on-disk header. *)
Definition hdr_n (d : blk) : Z := i32 (get_le 4 0 d).
Definition hdr_off (i : Z) : nat := Z.to_nat (4 + 4 * i).
Definition hdr_block (d : blk) (i : Z) : Z := i32 (get_le 4 (hdr_off i) d).
Definition put_hdr_n (n : Z) (d : blk) : blk := put_le 4 0 n d.
Definition put_hdr_block (i v : Z) (d : blk) : blk := put_le 4 (hdr_off i) v d.

Definition sizeof_logheader : Z := 4 * (LOGSIZE + 1).

Definition set_lh_n (n : Z) (l : log) : log :=
  Log (log_start l) (log_size l) (log_outstanding l) (log_committing l) (log_dev l)
      (Logheader n (lh_block (log_lh l))).
Definition set_lh_block (i v : Z) (l : log) : log :=
  Log (log_start l) (log_size l) (log_outstanding l) (log_committing l) (log_dev l)
      (Logheader (lh_n (log_lh l)) (<[Z.to_nat i := v]> (lh_block (log_lh l)))).
Definition set_outstanding (x : Z) (l : log) : log :=
  Log (log_start l) (log_size l) x (log_committing l) (log_dev l) (log_lh l).
Definition set_committing (x : Z) (l : log) : log :=
  Log (log_start l) (log_size l) (log_outstanding l) x (log_dev l) (log_lh l).

Definition get_log : K kstate log := getD.
Definition upd_log (f : log -> log) : K kstate () := l ← getD; putD (f l).

(** Reads and writes of [log.lh.block[i]]. *)
Definition lh_at (l : log) (i : Z) : Z := lh_block (log_lh l) !!! Z.to_nat i.

(** The number of rounds of a [for (i = 0; i < log.lh.n; i++)] loop. *)
Definition log_fuel : nat := Z.to_nat (LOGSIZE + 1).

Section Log.
Context {SC : Sched} {VD : VirtioDisk}.

Definition install_body (tail : Z) : K kstate (Z + ()) :=
  l ← get_log;
  if tail <? lh_n (log_lh l) then
    lbuf ← bread (log_dev l) (u32 (log_start l + tail + 1));
    dbuf ← bread (log_dev l) (u32 (lh_at l tail));
    x ← get_buf lbuf;
    upd_buf (set_data (b_data x)) dbuf ;;
    bwrite dbuf ;;
    bunpin dbuf ;;
    brelse lbuf ;;
    brelse dbuf ;;
    mret (inl (tail + 1))
  else mret (inr ()).
Definition install_trans : K kstate () := loop log_fuel install_body 0.

Definition read_head_body (d : blk) (i : Z) : K kstate (Z + ()) :=
  l ← get_log;
  if i <? lh_n (log_lh l) then
    if i >=? LOGSIZE then nofuel
    else upd_log (set_lh_block i (hdr_block d i)) ;; mret (inl (i + 1))
  else mret (inr ()).
Definition read_head : K kstate () :=
  l ← get_log;
  buf ← bread (log_dev l) (u32 (log_start l));
  x ← get_buf buf;
  upd_log (set_lh_n (hdr_n (b_data x))) ;;
  loop log_fuel (read_head_body (b_data x)) 0 ;;
  brelse buf.

Definition write_head_body (buf : nat) (i : Z) : K kstate (Z + ()) :=
  l ← get_log;
  if i <? lh_n (log_lh l) then
    x ← get_buf buf;
    upd_buf (set_data (put_hdr_block i (lh_at l i) (b_data x))) buf ;;
    mret (inl (i + 1))
  else mret (inr ()).
Definition write_head : K kstate () :=
  l ← get_log;
  buf ← bread (log_dev l) (u32 (log_start l));
  x ← get_buf buf;
  upd_buf (set_data (put_hdr_n (lh_n (log_lh l)) (b_data x))) buf ;;
  loop log_fuel (write_head_body buf) 0 ;;
  bwrite buf ;;
  brelse buf.

Definition recover_from_log : K kstate () :=
  read_head ;;
  install_trans ;;
  upd_log (set_lh_n 0) ;;
  write_head.

Definition initlog (dev : Z) (sb : superblock) : K kstate () :=
  if sizeof_logheader >=? BSIZE then panic "initlog: too big logheader"
  else
    initlock L_log "log" ;;
    upd_log (fun l => Log (i32 (sb_logstart sb)) (i32 (sb_nlog sb)) (log_outstanding l)
                          (log_committing l) dev (log_lh l)) ;;
    recover_from_log.

(** [while(1) { ... sleep ... }]: [inr] leaves the loop. *)
Definition begin_op_body (_ : ()) : K kstate (() + ()) :=
  l ← get_log;
  if negb (log_committing l =? 0) then sleep resume Ch_log L_log ;; mret (inl ())
  else if lh_n (log_lh l) + (log_outstanding l + 1) * MAXOPBLOCKS >? LOGSIZE
  then sleep resume Ch_log L_log ;; mret (inl ())
  else
    upd_log (set_outstanding (log_outstanding l + 1)) ;;
    release L_log ;;
    mret (inr ()).
Definition begin_op : K kstate () :=
  acquire L_log ;;
  loop wakeups begin_op_body ().

Definition write_log_body (tail : Z) : K kstate (Z + ()) :=
  l ← get_log;
  if tail <? lh_n (log_lh l) then
    to ← bread (log_dev l) (u32 (log_start l + tail + 1));
    from ← bread (log_dev l) (u32 (lh_at l tail));
    x ← get_buf from;
    upd_buf (set_data (b_data x)) to ;;
    bwrite to ;;
    brelse from ;;
    brelse to ;;
    mret (inl (tail + 1))
  else mret (inr ()).
Definition write_log : K kstate () := loop log_fuel write_log_body 0.

Definition commit : K kstate () :=
  l ← get_log;
  if lh_n (log_lh l) >? 0 then
    write_log ;;
    write_head ;;
    install_trans ;;
    upd_log (set_lh_n 0) ;;
    write_head
  else mret ().

Definition end_op : K kstate () :=
  acquire L_log ;;
  l ← get_log;
  upd_log (set_outstanding (log_outstanding l - 1)) ;;
  l ← get_log;
  if negb (log_committing l =? 0) then panic "log.committing"
  else
    do_commit ← (if log_outstanding l =? 0 then upd_log (set_committing 1) ;; mret true
                 else wakeup Ch_log ;; mret false);
    release L_log ;;
    if do_commit : bool then
      commit ;;
      acquire L_log ;;
      upd_log (set_committing 0) ;;
      wakeup Ch_log ;;
      release L_log
    else mret ().

(** [for (i = 0; i < log.lh.n; i++) if (log.lh.block[i] == b->blockno) break;] *)
Fixpoint absorb (blockno : Z) (l : list Z) (n : nat) : nat :=
  match n, l with
  | Datatypes.S n', x :: l' => if u32 x =? blockno then 0%nat else Datatypes.S (absorb blockno l' n')
  | _, _ => 0%nat
  end.

Definition log_write (b : nat) : K kstate () :=
  l ← get_log;
  if (lh_n (log_lh l) >=? LOGSIZE) || (lh_n (log_lh l) >=? log_size l - 1)
  then panic "too big a transaction"
  else if log_outstanding l <? 1 then panic "log_write outside of trans"
  else
    acquire L_log ;;
    l ← get_log;
    x ← get_buf b;
    let i := Z.of_nat (absorb (b_blockno x) (lh_block (log_lh l)) (Z.to_nat (lh_n (log_lh l)))) in
    upd_log (set_lh_block i (i32 (b_blockno x))) ;;
    (if i =? lh_n (log_lh l) then
       bpin b ;;
       l ← get_log;
       upd_log (set_lh_n (lh_n (log_lh l) + 1))
     else mret ()) ;;
    release L_log.
End Log.
