(* ===== verification/Fs.v ===== *)
(** * kernel/fs.c: blocks, inodes, directories and path names

    Everything on disk is bytes in buffers, as in the C code: the bitmap, the
    dinodes (64 bytes, [get_dinode] and [put_dinode]) and the directory entries
    (16 bytes).  A pointer to a [struct inode] is an index into [icache].
    Strings are the lists of their bytes before the NUL.  The destination of
    readi and the source of writei are those of Copy.v. *)
From stdpp Require Import prelude gmap strings.
From Stdlib Require Import ZArith Lia.
From S2P Require Import Prelude Memory CString Spinlock Riscv Kalloc Vm Uaccess Proc Bytes State Sleeplock Copy Bio BioView BioClient Log.
Open Scope Z_scope.

(** [short] *)
Definition i16 (z : Z) : Z := (z + 2 ^ 15) mod 2 ^ 16 - 2 ^ 15.

(** ** Formats *)

Definition get_dinode (i : Z) (d : blk) : dinode :=
  let o := Z.to_nat (sizeof_dinode * i) in
  Dinode (i16 (get_le 2 o d)) (i16 (get_le 2 (o + 2) d)) (i16 (get_le 2 (o + 4) d)) (i16 (get_le 2 (o + 6) d))
    (get_le 4 (o + 8) d) ((fun k : nat => get_le 4 (o + 12 + 4 * k) d) <$> seq 0 13).

Definition dinode_bytes (x : dinode) : list Z :=
  bytes_of 2 (d_type x) ++ bytes_of 2 (d_major x) ++ bytes_of 2 (d_minor x) ++ bytes_of 2 (d_nlink x) ++
  bytes_of 4 (d_size x) ++ (a ← d_addrs x; bytes_of 4 a).
Definition put_dinode (i : Z) (x : dinode) (d : blk) : blk :=
  splice (Z.to_nat (sizeof_dinode * i)) (dinode_bytes x) d.

Definition dirent_of (bs : list Z) : dirent := Dirent (get_le 2 0 bs) (slice 2 14 bs).
Definition dirent_bytes (de : dirent) : list Z := bytes_of 2 (de_inum de) ++ de_name de.

Definition sb_of (d : blk) : superblock :=
  Superblock (get_le 4 0 d) (get_le 4 4 d) (get_le 4 8 d) (get_le 4 12 d) (get_le 4 16 d) (get_le 4 20 d)
    (get_le 4 24 d) (get_le 4 28 d).

(** [data[i]] of a buffer. *)
Definition byte_at (d : blk) (i : Z) : Z := d !!! Z.to_nat i.
Definition set_byte (i v : Z) (d : blk) : blk := <[Z.to_nat i := v]> d.
(** [a[i]] with [uint *a = (uint* )bp->data]. *)
Definition uint_at (d : blk) (i : Z) : Z := get_le 4 (Z.to_nat (4 * i)) d.
Definition set_uint (i v : Z) (d : blk) : blk := put_le 4 (Z.to_nat (4 * i)) v d.

(** ** Inode cache entries *)

Definition ninode : nat := Z.to_nat NINODE.

Definition set_i_ref (r : Z) (ip : inode) : inode :=
  Inode (i_dev ip) (i_inum ip) r (i_valid ip) (i_type ip) (i_major ip) (i_minor ip) (i_nlink ip) (i_size ip) (i_addrs ip).
Definition set_i_valid (v : Z) (ip : inode) : inode :=
  Inode (i_dev ip) (i_inum ip) (i_ref ip) v (i_type ip) (i_major ip) (i_minor ip) (i_nlink ip) (i_size ip) (i_addrs ip).
Definition set_i_type (t : Z) (ip : inode) : inode :=
  Inode (i_dev ip) (i_inum ip) (i_ref ip) (i_valid ip) t (i_major ip) (i_minor ip) (i_nlink ip) (i_size ip) (i_addrs ip).
Definition set_i_dev (ma mi : Z) (ip : inode) : inode :=
  Inode (i_dev ip) (i_inum ip) (i_ref ip) (i_valid ip) (i_type ip) ma mi (i_nlink ip) (i_size ip) (i_addrs ip).
Definition set_i_nlink (n : Z) (ip : inode) : inode :=
  Inode (i_dev ip) (i_inum ip) (i_ref ip) (i_valid ip) (i_type ip) (i_major ip) (i_minor ip) n (i_size ip) (i_addrs ip).
Definition set_i_size (n : Z) (ip : inode) : inode :=
  Inode (i_dev ip) (i_inum ip) (i_ref ip) (i_valid ip) (i_type ip) (i_major ip) (i_minor ip) (i_nlink ip) n (i_addrs ip).
Definition set_i_addr (k v : Z) (ip : inode) : inode :=
  Inode (i_dev ip) (i_inum ip) (i_ref ip) (i_valid ip) (i_type ip) (i_major ip) (i_minor ip) (i_nlink ip) (i_size ip)
    (<[Z.to_nat k := v]> (i_addrs ip)).
(** The fields copied between a dinode and an inode. *)
Definition set_i_dinode (d : dinode) (ip : inode) : inode :=
  Inode (i_dev ip) (i_inum ip) (i_ref ip) (i_valid ip) (d_type d) (d_major d) (d_minor d) (d_nlink d) (d_size d) (d_addrs d).
Definition dinode_of (ip : inode) : dinode :=
  Dinode (i_type ip) (i_major ip) (i_minor ip) (i_nlink ip) (i_size ip) (i_addrs ip).

Definition get_inode (i : nat) : K kstate inode := c ← getD (T := icache); mret (inodes c !!! i).
Definition upd_inode (f : inode -> inode) (i : nat) : K kstate () :=
  c ← getD (T := icache); putD (Icache (alter f i (inodes c))).
Definition get_sb : K kstate superblock := getD.

(** ** Strings *)

(** [strncmp] and [strncpy] (string.c) on arrays. *)
Fixpoint strncmp_l (n : nat) (p q : list Z) : Z :=
  match n with
  | O => 0
  | S n' =>
      let a := default 0 (p !! 0%nat) in let b := default 0 (q !! 0%nat) in
      if negb (a =? 0) && (a =? b) then strncmp_l n' (tail p) (tail q) else a - b
  end.
Definition strncpy_l (n : nat) (t : list Z) : list Z := take n (t ++ repeat 0 n).

Definition namecmp (s t : list Z) : Z := strncmp_l (Z.to_nat DIRSIZ) s t.

Fixpoint skip_slashes (path : list Z) : list Z :=
  match path with c :: p => if c =? 47 then skip_slashes p else path | [] => [] end.
(** The bytes before the next slash, and the rest. *)
Fixpoint span_elem (path : list Z) : list Z * list Z :=
  match path with
  | c :: p => if c =? 47 then ([], path) else let '(s, r) := span_elem p in (c :: s, r)
  | [] => ([], [])
  end.

(** [name] is the caller's array of DIRSIZ bytes. *)
Definition skipelem (path name : list Z) : option (list Z * list Z) :=
  let path := skip_slashes path in
  match path with
  | [] => None
  | _ =>
      let '(s, rest) := span_elem path in
      let name := if Z.of_nat (length s) >=? DIRSIZ then take (Z.to_nat DIRSIZ) s
                  else splice 0 (s ++ [0]) name in
      Some (skip_slashes rest, name)
  end.

Section Fs.
Context {SC : Sched} {VD : VirtioDisk}.

(** ** Blocks *)

Definition readsb (dev : Z) : K kstate () :=
  bp ← bread dev 1;
  x ← get_buf bp;
  putD (sb_of (b_data x)) ;;
  brelse bp.

Definition fsinit (dev : Z) : K kstate () :=
  readsb dev ;;
  sb ← get_sb;
  if negb (sb_magic sb =? FSMAGIC) then panic "invalid file system" else initlog dev sb.

Definition bzero (dev bno : Z) : K kstate () :=
  bp ← bread dev (u32 bno);
  upd_buf (set_data zero_block) bp ;;
  log_write bp ;;
  brelse bp.

(** The inner loop of balloc: the first free bit. *)
Fixpoint scan_bits (fuel : nat) (d : blk) (b bi size : Z) : option Z :=
  match fuel with
  | O => None
  | S f =>
      if (bi <? BPB) && (b + bi <? size) then
        if Z.land (byte_at d (bi / 8)) (Z.shiftl 1 (bi mod 8)) =? 0 then Some bi
        else scan_bits f d b (bi + 1) size
      else None
  end.

Definition balloc_body (dev : Z) (b : Z) : K kstate (Z + Z) :=
  sb ← get_sb;
  if b <? sb_size sb then
    bp ← bread dev (u32 (BBLOCK b sb));
    x ← get_buf bp;
    match scan_bits (S (Z.to_nat BPB)) (b_data x) b 0 (sb_size sb) with
    | Some bi =>
        upd_buf (set_data (set_byte (bi / 8) (Z.lor (byte_at (b_data x) (bi / 8)) (Z.shiftl 1 (bi mod 8))) (b_data x))) bp ;;
        log_write bp ;;
        brelse bp ;;
        bzero dev (b + bi) ;;
        mret (inr (b + bi))
    | None => brelse bp ;; mret (inl (b + BPB))
    end
  else panic "balloc: out of blocks".
Definition balloc (dev : Z) : K kstate Z :=
  sb ← get_sb; loop (S (S (Z.to_nat (sb_size sb / BPB)))) (balloc_body dev) 0.

Definition bfree (dev b : Z) : K kstate () :=
  sb ← get_sb;
  bp ← bread dev (u32 (BBLOCK b sb));
  x ← get_buf bp;
  let bi := b mod BPB in
  let m := Z.shiftl 1 (bi mod 8) in
  if Z.land (byte_at (b_data x) (bi / 8)) m =? 0 then panic "freeing free block"
  else
    upd_buf (set_data (set_byte (bi / 8) (Z.land (byte_at (b_data x) (bi / 8)) (Z.lnot m)) (b_data x))) bp ;;
    log_write bp ;;
    brelse bp.

(** ** Inodes *)

Definition iinit : K kstate () :=
  initlock L_icache "icache" ;;
  for_each (seq 0 ninode) (fun i => initsleeplock (L_inode i) "inode").

(** The scan of iget: a cached entry, or the first free slot. *)
Fixpoint iget_scan (t : icache) (dev inum : Z) (l : list nat) (empty : option nat) : nat + option nat :=
  match l with
  | [] => inr empty
  | i :: l' =>
      let ip := inodes t !!! i in
      if (i_ref ip >? 0) && (i_dev ip =? dev) && (i_inum ip =? inum) then inl i
      else iget_scan t dev inum l'
             (match empty with None => if i_ref ip =? 0 then Some i else None | Some _ => empty end)
  end.

Definition iget (dev inum : Z) : K kstate nat :=
  acquire L_icache ;;
  t ← getD (T := icache);
  match iget_scan t dev inum (seq 0 ninode) None with
  | inl i =>
      upd_inode (fun ip => set_i_ref (i_ref ip + 1) ip) i ;;
      release L_icache ;;
      mret i
  | inr None => panic "iget: no inodes"
  | inr (Some i) =>
      upd_inode (fun ip => Inode dev inum 1 0 (i_type ip) (i_major ip) (i_minor ip) (i_nlink ip) (i_size ip) (i_addrs ip)) i ;;
      release L_icache ;;
      mret i
  end.

Definition ialloc_body (dev type : Z) (inum : Z) : K kstate (Z + nat) :=
  sb ← get_sb;
  if inum <? sb_ninodes sb then
    bp ← bread dev (u32 (IBLOCK inum sb));
    x ← get_buf bp;
    if d_type (get_dinode (inum mod IPB) (b_data x)) =? 0 then
      upd_buf (set_data (put_dinode (inum mod IPB) (Dinode (i16 type) 0 0 0 0 (repeat 0 13)) (b_data x))) bp ;;
      log_write bp ;;
      brelse bp ;;
      i ← iget dev inum;
      mret (inr i)
    else brelse bp ;; mret (inl (inum + 1))
  else panic "ialloc: no inodes".
Definition ialloc (dev type : Z) : K kstate nat :=
  sb ← get_sb; loop (S (Z.to_nat (sb_ninodes sb))) (ialloc_body dev type) 1.

Definition iupdate (i : nat) : K kstate () :=
  ip ← get_inode i;
  sb ← get_sb;
  bp ← bread (i_dev ip) (u32 (IBLOCK (i_inum ip) sb));
  x ← get_buf bp;
  upd_buf (set_data (put_dinode (i_inum ip mod IPB) (dinode_of ip) (b_data x))) bp ;;
  log_write bp ;;
  brelse bp.

Definition idup (i : nat) : K kstate nat :=
  acquire L_icache ;;
  upd_inode (fun ip => set_i_ref (i_ref ip + 1) ip) i ;;
  release L_icache ;;
  mret i.

(** [None] is the null pointer. *)
Definition ilock (o : option nat) : K kstate () :=
  match o with
  | None => panic "ilock"
  | Some i =>
      ip ← get_inode i;
      if i_ref ip <? 1 then panic "ilock"
      else
        acquiresleep (L_inode i) ;;
        ip ← get_inode i;
        if i_valid ip =? 0 then
          sb ← get_sb;
          bp ← bread (i_dev ip) (u32 (IBLOCK (i_inum ip) sb));
          x ← get_buf bp;
          upd_inode (set_i_dinode (get_dinode (i_inum ip mod IPB) (b_data x))) i ;;
          brelse bp ;;
          upd_inode (set_i_valid 1) i ;;
          ip ← get_inode i;
          if i_type ip =? 0 then panic "ilock: no type" else mret ()
        else mret ()
  end.

Definition iunlock (o : option nat) : K kstate () :=
  match o with
  | None => panic "iunlock"
  | Some i =>
      h ← holdingsleep (L_inode i);
      ip ← get_inode i;
      if (h =? 0) || (i_ref ip <? 1) then panic "iunlock" else releasesleep (L_inode i)
  end.

(** ** Inode content *)

Definition bmap (i : nat) (bn : Z) : K kstate Z :=
  ip ← get_inode i;
  if bn <? NDIRECT then
    let addr := i_addrs ip !!! Z.to_nat bn in
    if addr =? 0 then
      addr ← balloc (i_dev ip);
      upd_inode (set_i_addr bn addr) i ;;
      mret addr
    else mret addr
  else
    let bn := bn - NDIRECT in
    if bn <? NINDIRECT then
      addr ← (if i_addrs ip !!! Z.to_nat NDIRECT =? 0 then
                addr ← balloc (i_dev ip);
                upd_inode (set_i_addr NDIRECT addr) i ;;
                mret addr
              else mret (i_addrs ip !!! Z.to_nat NDIRECT));
      bp ← bread (i_dev ip) addr;
      x ← get_buf bp;
      addr ← (if uint_at (b_data x) bn =? 0 then
                addr ← balloc (i_dev ip);
                x ← get_buf bp;
                upd_buf (set_data (set_uint bn addr (b_data x))) bp ;;
                log_write bp ;;
                mret addr
              else mret (uint_at (b_data x) bn));
      brelse bp ;;
      mret addr
    else panic "bmap: out of range".

Definition itrunc (i : nat) : K kstate () :=
  for_each (seqZ 0 NDIRECT) (fun k =>
    ip ← get_inode i;
    if negb (i_addrs ip !!! Z.to_nat k =? 0) then
      bfree (i_dev ip) (i_addrs ip !!! Z.to_nat k) ;;
      upd_inode (set_i_addr k 0) i
    else mret ()) ;;
  ip ← get_inode i;
  (if negb (i_addrs ip !!! Z.to_nat NDIRECT =? 0) then
     bp ← bread (i_dev ip) (i_addrs ip !!! Z.to_nat NDIRECT);
     for_each (seqZ 0 NINDIRECT) (fun j =>
       x ← get_buf bp;
       if negb (uint_at (b_data x) j =? 0) then bfree (i_dev ip) (uint_at (b_data x) j) else mret ()) ;;
     brelse bp ;;
     ip ← get_inode i;
     bfree (i_dev ip) (i_addrs ip !!! Z.to_nat NDIRECT) ;;
     upd_inode (set_i_addr NDIRECT 0) i
   else mret ()) ;;
  upd_inode (set_i_size 0) i ;;
  iupdate i.

Definition iput (i : nat) : K kstate () :=
  acquire L_icache ;;
  ip ← get_inode i;
  (if (i_ref ip =? 1) && negb (i_valid ip =? 0) && (i_nlink ip =? 0) then
     acquiresleep (L_inode i) ;;
     release L_icache ;;
     itrunc i ;;
     upd_inode (set_i_type 0) i ;;
     iupdate i ;;
     upd_inode (set_i_valid 0) i ;;
     releasesleep (L_inode i) ;;
     acquire L_icache
   else mret ()) ;;
  upd_inode (fun ip => set_i_ref (i_ref ip - 1) ip) i ;;
  release L_icache.

Definition iunlockput (i : nat) : K kstate () := iunlock (Some i) ;; iput i.

(** [struct stat] *)
Record stat := Stat { st_dev : Z; st_ino : Z; st_type : Z; st_nlink : Z; st_size : Z }.
Definition stati (i : nat) : K kstate stat :=
  ip ← get_inode i;
  mret (Stat (i32 (i_dev ip)) (i_inum ip) (i_type ip) (i_nlink ip) (i_size ip)).

(** One round of readi; [acc] are the bytes read so far. *)
Definition readi_body (i : nat) (n : Z) (x : Z * Z * kdst * list Z) : K kstate ((Z * Z * kdst * list Z) + (Z * list Z)) :=
  let '(tot, off, dst, acc) := x in
  if tot <? n then
    ip ← get_inode i;
    a ← bmap i (off / BSIZE);
    bp ← bread (i_dev ip) a;
    let m := Z.min (n - tot) (BSIZE - off mod BSIZE) in
    x ← get_buf bp;
    let bs := slice (Z.to_nat (off mod BSIZE)) (Z.to_nat m) (b_data x) in
    r ← either_copyout dst bs;
    if r =? -1 then brelse bp ;; mret (inr (tot, acc))
    else brelse bp ;; mret (inl (tot + m, u32 (off + m), dst_add dst m, acc ++ bs))
  else mret (inr (tot, acc)).
Definition readi (i : nat) (dst : kdst) (off n : Z) : K kstate (Z * list Z) :=
  ip ← get_inode i;
  if (off >? i_size ip) || (u32 (off + n) <? off) then mret (0, [])
  else
    let n := if u32 (off + n) >? i_size ip then i_size ip - off else n in
    loop (S (S (Z.to_nat (n / BSIZE + 1)))) (readi_body i n) (0, off, dst, []).

Definition writei_body (i : nat) (n : Z) (x : Z * Z * ksrc) : K kstate ((Z * Z * ksrc) + Z) :=
  let '(tot, off, src) := x in
  if tot <? n then
    ip ← get_inode i;
    a ← bmap i (off / BSIZE);
    bp ← bread (i_dev ip) a;
    let m := Z.min (n - tot) (BSIZE - off mod BSIZE) in
    '(r, bs) ← either_copyin src m;
    x ← get_buf bp;
    upd_buf (set_data (splice (Z.to_nat (off mod BSIZE)) bs (b_data x))) bp ;;
    if r =? -1 then brelse bp ;; mret (inr off)
    else log_write bp ;; brelse bp ;; mret (inl (tot + m, u32 (off + m), src_add src m))
  else mret (inr off).
Definition writei (i : nat) (src : ksrc) (off n : Z) : K kstate Z :=
  ip ← get_inode i;
  if (off >? i_size ip) || (u32 (off + n) <? off) then mret (-1)
  else if u32 (off + n) >? MAXFILE * BSIZE then mret (-1)
  else
    off ← loop (S (S (Z.to_nat (n / BSIZE + 1)))) (writei_body i n) (0, off, src);
    (if n >? 0 then
       ip ← get_inode i;
       (if off >? i_size ip then upd_inode (set_i_size off) i else mret ()) ;;
       iupdate i
     else mret ()) ;;
    mret (i32 n).

(** ** Directories *)

Definition dirlookup_body (dp : nat) (name : list Z) (off : Z) : K kstate (Z + option (nat * Z)) :=
  ip ← get_inode dp;
  if off <? i_size ip then
    '(r, bs) ← readi dp D_object off sizeof_dirent;
    if negb (r =? sizeof_dirent) then panic "dirlookup read"
    else
      let de := dirent_of bs in
      if de_inum de =? 0 then mret (inl (u32 (off + sizeof_dirent)))
      else if namecmp name (de_name de) =? 0 then
        i ← iget (i_dev ip) (de_inum de);
        mret (inr (Some (i, off)))
      else mret (inl (u32 (off + sizeof_dirent)))
  else mret (inr None).
(** The inode and the offset of the entry ([*poff]). *)
Definition dirlookup (dp : nat) (name : list Z) : K kstate (option (nat * Z)) :=
  ip ← get_inode dp;
  if negb (i_type ip =? T_DIR) then panic "dirlookup not DIR"
  else loop (S (S (Z.to_nat (i_size ip / sizeof_dirent)))) (dirlookup_body dp name) 0.

Definition dirlink_body (dp : nat) (off : Z) : K kstate (Z + Z) :=
  ip ← get_inode dp;
  if off <? i_size ip then
    '(r, bs) ← readi dp D_object off sizeof_dirent;
    if negb (r =? sizeof_dirent) then panic "dirlink read"
    else if de_inum (dirent_of bs) =? 0 then mret (inr off)
    else mret (inl (off + sizeof_dirent))
  else mret (inr off).
Definition dirlink (dp : nat) (name : list Z) (inum : Z) : K kstate Z :=
  o ← dirlookup dp name;
  match o with
  | Some (i, _) => iput i ;; mret (-1)
  | None =>
      ip ← get_inode dp;
      off ← loop (S (S (Z.to_nat (i_size ip / sizeof_dirent)))) (dirlink_body dp) 0;
      let de := Dirent (u16 inum) (strncpy_l (Z.to_nat DIRSIZ) name) in
      r ← writei dp (S_object (dirent_bytes de)) off sizeof_dirent;
      if negb (r =? sizeof_dirent) then panic "dirlink" else mret 0
  end.

(** ** Paths *)

(** One round of namex: [inr] is the result, with the name buffer. *)
Definition namex_body (nameiparent : bool) (x : nat * list Z * list Z) :
    K kstate ((nat * list Z * list Z) + (option nat * list Z)) :=
  let '(ip, path, name) := x in
  match skipelem path name with
  | None => if nameiparent then iput ip ;; mret (inr (None, name)) else mret (inr (Some ip, name))
  | Some (path, name) =>
      ilock (Some ip) ;;
      dp ← get_inode ip;
      if negb (i_type dp =? T_DIR) then iunlockput ip ;; mret (inr (None, name))
      else if nameiparent && bool_decide (path = []) then iunlock (Some ip) ;; mret (inr (Some ip, name))
      else
        next ← dirlookup ip name;
        match next with
        | None => iunlockput ip ;; mret (inr (None, name))
        | Some (next, _) => iunlockput ip ;; mret (inl (next, path, name))
        end
  end.
Definition namex (path : list Z) (nameiparent : bool) (name : list Z) : K kstate (option nat * list Z) :=
  ip ← (if bool_decide (path !! 0%nat = Some 47) then iget ROOTDEV ROOTINO
        else
          p ← myproc_deref;
          q ← get_proc p;
          match p_cwd q with Some c => idup c | None => panic "kerneltrap" end);
  loop (S (length path)) (namex_body nameiparent) (ip, path, name).

(** [char name[DIRSIZ]] is not initialised; its contents do not matter. *)
Definition namei (path : list Z) : K kstate (option nat) :=
  '(ip, _) ← namex path false (repeat 0 (Z.to_nat DIRSIZ)); mret ip.
Definition nameiparent (path name : list Z) : K kstate (option nat * list Z) := namex path true name.
End Fs.
