(* ===== verification/File.v ===== *)
(** * kernel/file.c, and pipealloc of kernel/pipe.c

    The table of open files.  [devsw] is the table as consoleinit leaves it: only
    the console has read and write functions. *)
From stdpp Require Import prelude gmap strings.
From Stdlib Require Import ZArith Lia.
From S2P Require Import Prelude Memory CString Spinlock Riscv Kalloc Vm Uaccess Proc Bytes State Sleeplock Copy Pipe Console Bio BioView BioClient Log Fs.
Open Scope Z_scope.

Definition nfile : nat := Z.to_nat NFILE.

Definition get_file (i : nat) : K kstate file := t ← getD (T := ftable); mret (files t !!! i).
Definition upd_file (f : file -> file) (i : nat) : K kstate () :=
  t ← getD (T := ftable); putD (Ftable (alter f i (files t))).

Definition set_f_ref (r : Z) (f : file) : file :=
  File (f_type f) r (f_readable f) (f_writable f) (f_pipe f) (f_ip f) (f_off f) (f_major f).
Definition set_f_type (t : fdtype) (f : file) : file :=
  File t (f_ref f) (f_readable f) (f_writable f) (f_pipe f) (f_ip f) (f_off f) (f_major f).
Definition set_f_off (o : Z) (f : file) : file :=
  File (f_type f) (f_ref f) (f_readable f) (f_writable f) (f_pipe f) (f_ip f) o (f_major f).
Definition set_f_major (m : Z) (f : file) : file :=
  File (f_type f) (f_ref f) (f_readable f) (f_writable f) (f_pipe f) (f_ip f) (f_off f) m.
(** The fields pipealloc sets. *)
Definition set_f_pipe (r w pi : Z) (f : file) : file :=
  File FD_PIPE (f_ref f) r w pi (f_ip f) (f_off f) (f_major f).
(** [f->ip = ip; f->readable = r; f->writable = w]. *)
Definition set_f_inode (ip : nat) (r w : Z) (f : file) : file :=
  File (f_type f) (f_ref f) r w (f_pipe f) (Some ip) (f_off f) (f_major f).

(** A pointer that should not be null. *)
Definition deref (o : option nat) : K kstate nat :=
  match o with Some i => mret i | None => panic "kerneltrap" end.

(** [struct stat] as copyout sees it: the alignment of [size] is 8. *)
Definition stat_bytes (s : stat) : list Z :=
  bytes_of 4 (st_dev s) ++ bytes_of 4 (st_ino s) ++ bytes_of 2 (st_type s) ++ bytes_of 2 (st_nlink s) ++
  repeat 0 4 ++ bytes_of 8 (st_size s).

Section File.
Context {SC : Sched} {VD : VirtioDisk} {UD : UartDev} (kend : Z).

Definition fileinit : K kstate () := initlock L_ftable "ftable".

Definition filealloc : K kstate (option nat) :=
  acquire L_ftable ;;
  r ← for_break (seq 0 nfile) (fun i =>
        f ← get_file i;
        if f_ref f =? 0 then
          upd_file (set_f_ref 1) i ;;
          release L_ftable ;;
          mret (Some i)
        else mret None);
  match r with
  | Some i => mret (Some i)
  | None => release L_ftable ;; mret None
  end.

Definition filedup (i : nat) : K kstate nat :=
  acquire L_ftable ;;
  f ← get_file i;
  if f_ref f <? 1 then panic "filedup"
  else
    upd_file (fun f => set_f_ref (f_ref f + 1) f) i ;;
    release L_ftable ;;
    mret i.

Definition fileclose (i : nat) : K kstate () :=
  acquire L_ftable ;;
  f ← get_file i;
  if f_ref f <? 1 then panic "fileclose"
  else
    upd_file (fun f => set_f_ref (f_ref f - 1) f) i ;;
    f ← get_file i;
    if f_ref f >? 0 then release L_ftable
    else
      let ff := f in
      upd_file (set_f_ref 0) i ;;
      upd_file (set_f_type FD_NONE) i ;;
      release L_ftable ;;
      match f_type ff with
      | FD_PIPE => pipeclose kend (f_pipe ff) (f_writable ff)
      | FD_INODE | FD_DEVICE =>
          begin_op ;;
          ip ← deref (f_ip ff);
          iput ip ;;
          end_op
      | FD_NONE => mret ()
      end.

(** The [bad] label of pipealloc. *)
Definition pipealloc_bad (pi : Z) (f0 f1 : option nat) : K kstate Z :=
  (if negb (pi =? 0) then kfree kend pi else mret ()) ;;
  match f0 with Some i => fileclose i | None => mret () end ;;
  match f1 with Some i => fileclose i | None => mret () end ;;
  mret (-1).
(** The result, [*f0] and [*f1].  kalloc fills the page with 5s, which is what
    the data of a new pipe is. *)
Definition pipealloc : K kstate (Z * option nat * option nat) :=
  f0 ← filealloc;
  match f0 with
  | None => r ← pipealloc_bad 0 None None; mret (r, None, None)
  | Some i0 =>
      f1 ← filealloc;
      match f1 with
      | None => r ← pipealloc_bad 0 f0 None; mret (r, f0, None)
      | Some i1 =>
          pi ← kalloc;
          if pi =? 0 then r ← pipealloc_bad 0 f0 f1; mret (r, f0, f1)
          else
            put_pipe pi (Pipe (repeat 5 (Z.to_nat PIPESIZE)) 0 0 1 1) ;;
            initlock (L_pipe pi) "pipe" ;;
            upd_file (set_f_pipe 1 0 pi) i0 ;;
            upd_file (set_f_pipe 0 1 pi) i1 ;;
            mret (0, f0, f1)
      end
  end.

Definition filestat (i : nat) (addr : Z) : K kstate Z :=
  p ← myproc_deref;
  f ← get_file i;
  match f_type f with
  | FD_INODE | FD_DEVICE =>
      ilock (f_ip f) ;;
      ip ← deref (f_ip f);
      st ← stati ip;
      iunlock (f_ip f) ;;
      q ← get_proc p;
      r ← copyout_from (p_pagetable q) addr (stat_bytes st);
      mret (if r <? 0 then -1 else 0)
  | _ => mret (-1)
  end.

(** [devsw[major].read] and [.write]. *)
Definition devsw_read (major : Z) : option (Z -> Z -> K kstate Z) :=
  if major =? CONSOLE then Some (fun addr n => '(r, _) ← consoleread (D_user addr) n; mret r) else None.
Definition devsw_write (major : Z) : option (Z -> Z -> K kstate Z) :=
  if major =? CONSOLE then Some (fun addr n => consolewrite (S_user addr) n) else None.

Definition fileread (i : nat) (addr n : Z) : K kstate Z :=
  f ← get_file i;
  if f_readable f =? 0 then mret (-1)
  else
    match f_type f with
    | FD_PIPE => piperead (f_pipe f) addr n
    | FD_DEVICE =>
        if (f_major f <? 0) || (f_major f >=? NDEV) then mret (-1)
        else match devsw_read (f_major f) with None => mret (-1) | Some rd => rd addr n end
    | FD_INODE =>
        ilock (f_ip f) ;;
        f ← get_file i;
        ip ← deref (f_ip f);
        '(r, _) ← readi ip (D_user addr) (f_off f) (u32 n);
        (if i32 r >? 0 then upd_file (fun f => set_f_off (u32 (f_off f + i32 r)) f) i else mret ()) ;;
        iunlock (f_ip f) ;;
        mret (i32 r)
    | FD_NONE => panic "fileread"
    end.

(** [((MAXOPBLOCKS-1-1-2) / 2) * BSIZE] *)
Definition write_max : Z := ((MAXOPBLOCKS - 1 - 1 - 2) / 2) * BSIZE.

(** One round of filewrite's loop; [inr] is the final value of [i]. *)
Definition filewrite_body (fi : nat) (addr n : Z) (i : Z) : K kstate (Z + Z) :=
  if i <? n then
    let n1 := n - i in
    let n1 := if n1 >? write_max then write_max else n1 in
    begin_op ;;
    f ← get_file fi;
    ilock (f_ip f) ;;
    f ← get_file fi;
    ip ← deref (f_ip f);
    r ← writei ip (S_user (u64 (addr + i))) (f_off f) n1;
    (if r >? 0 then upd_file (fun f => set_f_off (u32 (f_off f + r)) f) fi else mret ()) ;;
    iunlock (f_ip f) ;;
    end_op ;;
    if r <? 0 then mret (inr i)
    else if negb (r =? n1) then panic "short filewrite"
    else mret (inl (i + r))
  else mret (inr i).

Definition filewrite (fi : nat) (addr n : Z) : K kstate Z :=
  f ← get_file fi;
  if f_writable f =? 0 then mret (-1)
  else
    match f_type f with
    | FD_PIPE => pipewrite (f_pipe f) addr n
    | FD_DEVICE =>
        if (f_major f <? 0) || (f_major f >=? NDEV) then mret (-1)
        else match devsw_write (f_major f) with None => mret (-1) | Some wr => wr addr n end
    | FD_INODE =>
        i ← loop (S (S (Z.to_nat (n / write_max)))) (filewrite_body fi addr n) 0;
        mret (if i =? n then n else -1)
    | FD_NONE => panic "filewrite"
    end.
End File.
