(* ===== verification/Process.v ===== *)
(** * kernel/proc.c: the life of a process

    allocproc, freeproc, fork, exit, wait and what they call, on top of the table
    operations of Proc.v.  The trap frame is a page of memory; [tf_get] and
    [tf_set] are [p->trapframe->field].  Linker symbols and code addresses
    (trampoline, forkret, initcode) are parameters. *)
From stdpp Require Import prelude gmap strings.
From Stdlib Require Import ZArith Lia.
From S2P Require Import Prelude Memory CString Spinlock Riscv Kalloc Vm Uaccess Proc Bytes State Sleeplock Copy Pipe Console Bio BioView BioClient Log Fs File.
Open Scope Z_scope.

Definition set_pid (x : Z) (p : proc) : proc :=
  let '(Proc s a b c d _ f g h i j k l m n o) := p in Proc s a b c d x f g h i j k l m n o.
Definition set_kstack (x : Z) (p : proc) : proc :=
  let '(Proc s a b c d e _ g h i j k l m n o) := p in Proc s a b c d e x g h i j k l m n o.
Definition set_sz (x : Z) (p : proc) : proc :=
  let '(Proc s a b c d e f _ h i j k l m n o) := p in Proc s a b c d e f x h i j k l m n o.
Definition set_pagetable (x : Z) (p : proc) : proc :=
  let '(Proc s a b c d e f g _ i j k l m n o) := p in Proc s a b c d e f g x i j k l m n o.
Definition set_trapframe (x : Z) (p : proc) : proc :=
  let '(Proc s a b c d e f g h _ j k l m n o) := p in Proc s a b c d e f g h x j k l m n o.
Definition set_context (ra sp : Z) (p : proc) : proc :=
  let '(Proc s a b c d e f g h i _ _ l m n o) := p in Proc s a b c d e f g h i ra sp l m n o.
Definition set_ofile (fd : nat) (x : option nat) (p : proc) : proc :=
  let '(Proc s a b c d e f g h i j k l m n o) := p in Proc s a b c d e f g h i j k (<[fd := x]> l) m n o.
Definition set_cwd (x : option nat) (p : proc) : proc :=
  let '(Proc s a b c d e f g h i j k l _ n o) := p in Proc s a b c d e f g h i j k l x n o.
Definition set_pname (x : list Z) (p : proc) : proc :=
  let '(Proc s a b c d e f g h i j k l m _ o) := p in Proc s a b c d e f g h i j k l m x o.
Definition set_mask (x : Z) (p : proc) : proc :=
  let '(Proc s a b c d e f g h i j k l m n _) := p in Proc s a b c d e f g h i j k l m n x.

(** Offsets in [struct trapframe], and its size. *)
Definition tf_kernel_satp : Z := 0.
Definition tf_kernel_sp : Z := 8.
Definition tf_kernel_trap : Z := 16.
Definition tf_epc : Z := 24.
Definition tf_kernel_hartid : Z := 32.
Definition tf_sp : Z := 48.
Definition tf_a0 : Z := 112.
Definition tf_a1 : Z := 120.
Definition tf_a7 : Z := 168.
Definition sizeof_trapframe : Z := 288.

Definition tf_get (i : nat) (off : Z) : K kstate Z :=
  p ← get_proc i; m ← get_mem; mret (load64 m (p_trapframe p + off)).
Definition tf_set (i : nat) (off v : Z) : K kstate () :=
  p ← get_proc i; m ← get_mem; put_mem (store64 m (p_trapframe p + off) v).

(** [safestrcpy(p->name, t, sizeof(p->name))] on the 16-byte array. *)
Definition safestrcpy_l (n : nat) (t old : list Z) : list Z := splice 0 (take (n - 1) (cstr t) ++ [0]) old.

Section Process.
Context {SC : Sched} {VD : VirtioDisk} {UD : UartDev}.
(** The linker symbols [end] and [trampoline], the address of forkret and of the
    array initcode. *)
Context (kend trampoline forkret_addr initcode : Z).

(** [kernel_pagetable] of vm.c is an argument, as in Vm.v. *)
Definition procinit (kernel_pagetable : Z) : K kstate () :=
  initlock L_pid "nextpid" ;;
  for_each (seq 0 nproc) (fun i =>
    initlock (L_proc i) "proc" ;;
    pa ← kalloc;
    if pa =? 0 then panic "kalloc"
    else
      let va := KSTACK (Z.of_nat i) in
      kvmmap kernel_pagetable va pa PGSIZE (Z.lor PTE_R PTE_W) ;;
      upd_proc (set_kstack va) i).

Definition proc_pagetable (i : nat) : K kstate Z :=
  pagetable ← uvmcreate;
  if pagetable =? 0 then mret 0
  else
    r ← mappages pagetable TRAMPOLINE PGSIZE trampoline (Z.lor PTE_R PTE_X);
    if r <? 0 then uvmfree kend pagetable 0 ;; mret 0
    else
      p ← get_proc i;
      r ← mappages pagetable TRAPFRAME PGSIZE (p_trapframe p) (Z.lor PTE_R PTE_W);
      if r <? 0 then
        uvmunmap kend pagetable TRAMPOLINE 1 false ;;
        uvmfree kend pagetable 0 ;;
        mret 0
      else mret pagetable.

Definition proc_freepagetable (pagetable sz : Z) : K kstate () :=
  uvmunmap kend pagetable TRAMPOLINE 1 false ;;
  uvmunmap kend pagetable TRAPFRAME 1 false ;;
  uvmfree kend pagetable sz.

Definition freeproc (i : nat) : K kstate () :=
  p ← get_proc i;
  (if negb (p_trapframe p =? 0) then kfree kend (p_trapframe p) else mret ()) ;;
  upd_proc (set_trapframe 0) i ;;
  p ← get_proc i;
  (if negb (p_pagetable p =? 0) then proc_freepagetable (p_pagetable p) (p_sz p) else mret ()) ;;
  upd_proc (set_pagetable 0) i ;;
  upd_proc (set_sz 0) i ;;
  upd_proc (set_pid 0) i ;;
  upd_proc (set_parent None) i ;;
  upd_proc (fun p => set_pname (<[0%nat := 0]> (p_name p)) p) i ;;
  upd_proc (set_chan None) i ;;
  upd_proc (set_killed 0) i ;;
  upd_proc (set_xstate 0) i ;;
  upd_proc (set_state UNUSED) i.

(** The [found] label of allocproc. *)
Definition allocproc_found (i : nat) : K kstate (option nat) :=
  pid ← allocpid;
  upd_proc (set_pid pid) i ;;
  tf ← kalloc;
  upd_proc (set_trapframe tf) i ;;
  if tf =? 0 then release (L_proc i) ;; mret None
  else
    pt ← proc_pagetable i;
    upd_proc (set_pagetable pt) i ;;
    if pt =? 0 then freeproc i ;; release (L_proc i) ;; mret None
    else
      upd_proc (fun p => set_context forkret_addr (p_kstack p + PGSIZE) p) i ;;
      mret (Some i).
Definition allocproc : K kstate (option nat) :=
  r ← for_break (seq 0 nproc) (fun i =>
        acquire (L_proc i) ;;
        p ← get_proc i;
        if bool_decide (p_state p = UNUSED) then mret (Some i)
        else release (L_proc i) ;; mret None);
  match r with
  | None => mret None
  | Some i => allocproc_found i
  end.

(** allocproc cannot fail here without a null dereference. *)
Definition userinit : K kstate () :=
  o ← allocproc;
  t ← getD (T := proctab);
  putD (Proctab (procs t) o (nextpid t)) ;;
  i ← deref o;
  p ← get_proc i;
  uvminit (p_pagetable p) initcode 52 ;;
  upd_proc (set_sz PGSIZE) i ;;
  tf_set i tf_epc 0 ;;
  tf_set i tf_sp PGSIZE ;;
  upd_proc (fun p => set_pname (safestrcpy_l 16 (str "initcode") (p_name p)) p) i ;;
  cwd ← namei (str "/");
  upd_proc (set_cwd cwd) i ;;
  upd_proc (set_state RUNNABLE) i ;;
  release (L_proc i).

(** [sz] is a [uint]: sizes of 2^32 and more are truncated. *)
Definition growproc (n : Z) : K kstate Z :=
  i ← myproc_deref;
  p ← get_proc i;
  let sz := u32 (p_sz p) in
  if n >? 0 then
    r ← uvmalloc kend (p_pagetable p) sz (u32 (sz + n));
    let sz := u32 r in
    if sz =? 0 then mret (-1) else upd_proc (set_sz sz) i ;; mret 0
  else if n <? 0 then
    r ← uvmdealloc kend (p_pagetable p) sz (u32 (sz + n));
    upd_proc (set_sz (u32 r)) i ;; mret 0
  else upd_proc (set_sz sz) i ;; mret 0.

Definition fork_files (i np : nat) : K kstate () :=
  for_each (seq 0 (Z.to_nat NOFILE)) (fun fd =>
    p ← get_proc i;
    match p_ofile p !!! fd with
    | Some f => f' ← filedup f; upd_proc (set_ofile fd (Some f')) np
    | None => mret ()
    end).

Definition fork : K kstate Z :=
  i ← myproc_deref;
  o ← allocproc;
  match o with
  | None => mret (-1)
  | Some np =>
      p ← get_proc i;
      q ← get_proc np;
      r ← uvmcopy kend (p_pagetable p) (p_pagetable q) (p_sz p);
      if r <? 0 then freeproc np ;; release (L_proc np) ;; mret (-1)
      else
        upd_proc (set_sz (p_sz p)) np ;;
        upd_proc (set_parent (Some i)) np ;;
        upd_proc (set_mask (p_syscall_mask p)) np ;;
        m ← get_mem;
        put_mem (KString.memmove m (p_trapframe q) (p_trapframe p) sizeof_trapframe) ;;
        tf_set np tf_a0 0 ;;
        fork_files i np ;;
        c ← deref (p_cwd p);
        c' ← idup c;
        upd_proc (set_cwd (Some c')) np ;;
        upd_proc (fun q => set_pname (safestrcpy_l 16 (p_name p) (p_name q)) q) np ;;
        q ← get_proc np;
        upd_proc (set_state RUNNABLE) np ;;
        release (L_proc np) ;;
        mret (p_pid q)
  end.

Definition exit (status : Z) : K kstate () :=
  i ← myproc_deref;
  t ← getD (T := proctab);
  if bool_decide (initproc t = Some i) then panic "init exiting"
  else
    for_each (seq 0 (Z.to_nat NOFILE)) (fun fd =>
      p ← get_proc i;
      match p_ofile p !!! fd with
      | Some f => fileclose kend f ;; upd_proc (set_ofile fd None) i
      | None => mret ()
      end) ;;
    begin_op ;;
    p ← get_proc i;
    c ← deref (p_cwd p);
    iput c ;;
    end_op ;;
    upd_proc (set_cwd None) i ;;
    init ← deref (initproc t);
    acquire (L_proc init) ;;
    wakeup1 init ;;
    release (L_proc init) ;;
    acquire (L_proc i) ;;
    p ← get_proc i;
    release (L_proc i) ;;
    original_parent ← deref (p_parent p);
    acquire (L_proc original_parent) ;;
    acquire (L_proc i) ;;
    reparent i ;;
    wakeup1 original_parent ;;
    upd_proc (set_xstate status) i ;;
    upd_proc (set_state ZOMBIE) i ;;
    release (L_proc original_parent) ;;
    sched resume ;;
    panic "zombie exit".

(** The scan of the table in wait: [inl] is [return], [inr] is [havekids]. *)
Fixpoint wait_scan (i : nat) (addr : Z) (l : list nat) (havekids : bool) : K kstate (Z + bool) :=
  match l with
  | [] => mret (inr havekids)
  | np :: l' =>
      n ← get_proc np;
      if bool_decide (p_parent n = Some i) then
        acquire (L_proc np) ;;
        n ← get_proc np;
        if bool_decide (p_state n = ZOMBIE) then
          p ← get_proc i;
          r ← (if negb (addr =? 0) then copyout_from (p_pagetable p) addr (bytes_of 4 (p_xstate n)) else mret 0);
          if r <? 0 then
            release (L_proc np) ;;
            release (L_proc i) ;;
            mret (inl (-1))
          else
            freeproc np ;;
            release (L_proc np) ;;
            release (L_proc i) ;;
            mret (inl (p_pid n))
        else
          release (L_proc np) ;;
          wait_scan i addr l' true
      else wait_scan i addr l' havekids
  end.
Definition wait_body (i : nat) (addr : Z) (_ : ()) : K kstate (() + Z) :=
  r ← wait_scan i addr (seq 0 nproc) false;
  match r with
  | inl r => mret (inr r)
  | inr havekids =>
      p ← get_proc i;
      if negb havekids || negb (p_killed p =? 0) then
        release (L_proc i) ;;
        mret (inr (-1))
      else
        sleep resume (Ch_proc i) (L_proc i) ;;
        mret (inl ())
  end.
Definition wait (addr : Z) : K kstate Z :=
  i ← myproc_deref;
  acquire (L_proc i) ;;
  loop wakeups (wait_body i addr) ().
End Process.
