(* ===== verification/Exec.v ===== *)
(** * kernel/exec.c

    exec: read the ELF headers, build a new address space, load the segments,
    push the arguments and commit.  The argument strings are in kernel pages, given
    by their addresses; each [goto bad] is [exec_bad] with the page table and size
    built so far. *)
From stdpp Require Import prelude gmap strings.
From Stdlib Require Import ZArith Lia.
From S2P Require Import Prelude Memory CString Spinlock Riscv Kalloc Vm Uaccess Proc Bytes State Sleeplock Copy Pipe Console Bio BioView BioClient Log Fs File Process.
Open Scope Z_scope.

(** ** elf.h *)
Definition ELF_MAGIC : Z := 0x464C457F.
Definition ELF_PROG_LOAD : Z := 1.
Record elfhdr := Elfhdr { e_magic : Z; e_entry : Z; e_phoff : Z; e_phnum : Z }.
Record proghdr := Proghdr { ph_type : Z; ph_off : Z; ph_vaddr : Z; ph_filesz : Z; ph_memsz : Z }.
Definition sizeof_elfhdr : Z := 64.
Definition sizeof_proghdr : Z := 56.
Definition elfhdr_of (bs : list Z) : elfhdr :=
  Elfhdr (get_le 4 0 bs) (get_le 8 24 bs) (get_le 8 32 bs) (get_le 2 56 bs).
Definition proghdr_of (bs : list Z) : proghdr :=
  Proghdr (get_le 4 0 bs) (get_le 8 8 bs) (get_le 8 16 bs) (get_le 8 32 bs) (get_le 8 40 bs).

(** [for(last=s=path; *s; s++) if( *s == '/') last = s+1;] *)
Fixpoint last_elem (s last : list Z) : list Z :=
  match s with
  | [] => last
  | c :: s' => last_elem s' (if c =? 47 then s' else last)
  end.

(** The lines vmprint prints. *)
Definition vmprint_print {UD : UartDev} (pagetable : Z) : K kstate () :=
  '(root, l) ← vmprint pagetable;
  printf (Some (str "page table %p
")) [A_ptr root] ;;
  for_each l (fun '(level, i, pte, pa) =>
    for_each (seqZ 0 level) (fun _ => printf (Some (str "..  ")) []) ;;
    printf (Some (str "..%d: pte %p pa %p
")) [A_int i; A_ptr pte; A_ptr pa]).

Section Exec.
Context {SC : Sched} {VD : VirtioDisk} {UD : UartDev}.
Context (kend trampoline : Z).

Definition loadseg_body (pagetable va : Z) (ip : nat) (offset sz : Z) (i : Z) : K kstate (Z + Z) :=
  if i <? sz then
    pa ← walkaddr pagetable (u64 (va + i));
    if pa =? 0 then panic "loadseg: address should exist"
    else
      let n := if sz - i <? PGSIZE then sz - i else PGSIZE in
      '(r, _) ← readi ip (D_kernel pa) (u32 (offset + i)) n;
      if negb (i32 r =? i32 n) then mret (inr (-1)) else mret (inl (u32 (i + PGSIZE)))
  else mret (inr 0).
Definition loadseg (pagetable va : Z) (ip : nat) (offset sz : Z) : K kstate Z :=
  if negb (va mod PGSIZE =? 0) then panic "loadseg: va must be page aligned"
  else loop (S (S (Z.to_nat (sz / PGSIZE)))) (loadseg_body pagetable va ip offset sz) 0.

(** The [bad] label; [ip] is [Some] while the inode is locked. *)
Definition exec_bad (pagetable sz : Z) (ip : option nat) : K kstate Z :=
  (if negb (pagetable =? 0) then proc_freepagetable kend pagetable sz else mret ()) ;;
  match ip with
  | Some ip => iunlockput ip ;; end_op
  | None => mret ()
  end ;;
  mret (-1).

(** One program header: the next state, or the end of the loop with whether
    all went well and the size. *)
Definition exec_segment (pagetable : Z) (ip : nat) (phnum : Z) (x : Z * Z * Z) : K kstate ((Z * Z * Z) + (bool * Z)) :=
  let '(i, off, sz) := x in
  if i <? phnum then
    '(r, bs) ← readi ip D_object (u32 off) sizeof_proghdr;
    if negb (r =? sizeof_proghdr) then mret (inr (false, sz))
    else
      let ph := proghdr_of bs in
      let next := fun sz => mret (inl (i + 1, i32 (off + sizeof_proghdr), sz)) in
      if negb (ph_type ph =? ELF_PROG_LOAD) then next sz
      else if ph_memsz ph <? ph_filesz ph then mret (inr (false, sz))
      else if u64 (ph_vaddr ph + ph_memsz ph) <? ph_vaddr ph then mret (inr (false, sz))
      else
        sz1 ← uvmalloc kend pagetable sz (u64 (ph_vaddr ph + ph_memsz ph));
        if sz1 =? 0 then mret (inr (false, sz))
        else if negb (ph_vaddr ph mod PGSIZE =? 0) then mret (inr (false, sz1))
        else
          r ← loadseg pagetable (ph_vaddr ph) ip (u32 (ph_off ph)) (u32 (ph_filesz ph));
          if r <? 0 then mret (inr (false, sz1)) else next sz1
  else mret (inr (true, sz)).

(** One argument string; [None] is [goto bad]. *)
Definition exec_arg (pagetable stackbase : Z) (argv : list Z) (x : Z * Z * list Z) :
    K kstate ((Z * Z * list Z) + option (Z * Z * list Z)) :=
  let '(argc, sp, ustack) := x in
  let a := default 0 (argv !! Z.to_nat argc) in
  if negb (a =? 0) then
    if argc >=? MAXARG then mret (inr None)
    else
      m ← get_mem;
      match KString.strlen (Z.to_nat PGSIZE) m a with
      | None => nofuel
      | Some len =>
          let sp := u64 (sp - (len + 1)) in
          let sp := sp - sp mod 16 in
          if sp <? stackbase then mret (inr None)
          else
            r ← copyout pagetable sp a (len + 1);
            if r <? 0 then mret (inr None) else mret (inl (argc + 1, sp, ustack ++ [sp]))
      end
  else mret (inr (Some (argc, sp, ustack ++ [0]))).

(** From [p->trapframe->a1 = sp] to the end. *)
Definition exec_commit (i : nat) (path : list Z) (pagetable sz sp entry argc oldsz : Z) : K kstate Z :=
  tf_set i tf_a1 sp ;;
  upd_proc (fun p => set_pname (safestrcpy_l 16 (last_elem path path) (p_name p)) p) i ;;
  p ← get_proc i;
  let oldpagetable := p_pagetable p in
  upd_proc (set_pagetable pagetable) i ;;
  upd_proc (set_sz sz) i ;;
  tf_set i tf_epc entry ;;
  tf_set i tf_sp sp ;;
  proc_freepagetable kend oldpagetable oldsz ;;
  p ← get_proc i;
  (if p_pid p =? 1 then vmprint_print (p_pagetable p) else mret ()) ;;
  mret (i32 argc).

(** From the allocation of the stack pages on; the inode is unlocked. *)
Definition exec_stack (i : nat) (path argv : list Z) (pagetable sz entry : Z) : K kstate Z :=
  p ← get_proc i;
  let oldsz := p_sz p in
  let sz := PGROUNDUP sz in
  sz1 ← uvmalloc kend pagetable sz (u64 (sz + 2 * PGSIZE));
  if sz1 =? 0 then exec_bad pagetable sz None
  else
    let sz := sz1 in
    uvmclear pagetable (u64 (sz - 2 * PGSIZE)) ;;
    let stackbase := u64 (sz - PGSIZE) in
    r ← loop (S (S (Z.to_nat MAXARG))) (exec_arg pagetable stackbase argv) (0, sz, []);
    match r with
    | None => exec_bad pagetable sz None
    | Some (argc, sp, ustack) =>
        let sp := u64 (sp - (argc + 1) * 8) in
        let sp := sp - sp mod 16 in
        if sp <? stackbase then exec_bad pagetable sz None
        else
          r ← copyout_from pagetable sp (a ← ustack; bytes_of 8 a);
          if r <? 0 then exec_bad pagetable sz None
          else exec_commit i path pagetable sz sp entry argc oldsz
    end.

Definition exec (path argv : list Z) : K kstate Z :=
  i ← myproc_deref;
  begin_op ;;
  o ← namei path;
  match o with
  | None => end_op ;; mret (-1)
  | Some ip =>
      ilock (Some ip) ;;
      '(r, bs) ← readi ip D_object 0 sizeof_elfhdr;
      if negb (r =? sizeof_elfhdr) then exec_bad 0 0 (Some ip)
      else
        let elf := elfhdr_of bs in
        if negb (e_magic elf =? ELF_MAGIC) then exec_bad 0 0 (Some ip)
        else
          pagetable ← proc_pagetable kend trampoline i;
          if pagetable =? 0 then exec_bad 0 0 (Some ip)
          else
            '(ok, sz) ← loop (S (Z.to_nat (e_phnum elf))) (exec_segment pagetable ip (e_phnum elf)) (0, i32 (e_phoff elf), 0);
            if negb (ok : bool) then exec_bad pagetable sz (Some ip)
            else
              iunlockput ip ;;
              end_op ;;
              i ← myproc_deref;
              exec_stack i path argv pagetable sz (e_entry elf)
  end.
End Exec.
