(* ===== verification/Syscall.v ===== *)
(** * kernel/syscall.c, kernel/sysproc.c and kernel/sysfile.c

    Argument fetching, the system calls and their dispatch.  A path is fetched into
    an array of MAXPATH bytes on the kernel stack ([argstr]); the arguments of exec
    are fetched into pages ([fetchstr]).  System calls return a [uint64]; -1 is
    written [ERR]. *)
From stdpp Require Import prelude gmap strings.
From Stdlib Require Import ZArith Lia.
From S2P Require Import Prelude Memory CString Spinlock Riscv Kalloc Vm Uaccess Proc Bytes State Sleeplock Copy Pipe Console Bio BioView BioClient Log Fs File Process Exec.
Open Scope Z_scope.

Definition ERR : Z := 2 ^ 64 - 1.

(** ** fcntl.h *)
Definition O_RDONLY : Z := 0x000.
Definition O_WRONLY : Z := 0x001.
Definition O_RDWR : Z := 0x002.
Definition O_CREATE : Z := 0x200.
Definition O_TRUNC : Z := 0x400.

(** copyinstr (vm.c) into a kernel array: the bytes before the NUL. *)
Fixpoint copyinstr_page_to (m : mem) (p : Z) (n : nat) : list Z * bool :=
  match n with
  | O => ([], false)
  | S n' =>
      if rd m p =? 0 then ([], true)
      else let '(bs, got) := copyinstr_page_to m (p + 1) n' in (rd m p :: bs, got)
  end.
Definition copyinstr_to_body (pagetable : Z) (x : Z * Z * list Z * bool) :
    K kstate ((Z * Z * list Z * bool) + (Z * list Z)) :=
  let '(srcva, max, acc, got_null) := x in
  if negb got_null && (max >? 0) then
    let va0 := PGROUNDDOWN srcva in
    pa0 ← walkaddr pagetable va0;
    if pa0 =? 0 then mret (inr (-1, acc))
    else
      let n := PGSIZE - (srcva - va0) in
      let n := if n >? max then max else n in
      m ← get_mem;
      let '(bs, got) := copyinstr_page_to m (pa0 + (srcva - va0)) (Z.to_nat n) in
      mret (inl (u64 (va0 + PGSIZE), max - Z.of_nat (length bs), acc ++ bs, got))
  else mret (inr (if got_null then 0 else -1, acc)).
Definition copyinstr_to (pagetable srcva max : Z) : K kstate (Z * list Z) :=
  loop (Z.to_nat (max / PGSIZE + 3)) (copyinstr_to_body pagetable) (srcva, max, [], false).

Section Syscall.
Context {SC : Sched} {VD : VirtioDisk} {UD : UartDev}.
Context (kend trampoline forkret_addr : Z).

(** ** syscall.c *)

Definition fetchaddr (addr : Z) : K kstate (Z * Z) :=
  i ← myproc_deref;
  p ← get_proc i;
  if (addr >=? p_sz p) || (u64 (addr + 8) >? p_sz p) then mret (-1, 0)
  else
    '(r, bs) ← copyin_to (p_pagetable p) addr 8;
    if negb (r =? 0) then mret (-1, 0) else mret (0, of_bytes bs).

(** Into the page at [buf]. *)
Definition fetchstr (addr buf max : Z) : K kstate Z :=
  i ← myproc_deref;
  p ← get_proc i;
  err ← copyinstr (p_pagetable p) buf addr max;
  if err <? 0 then mret err
  else
    m ← get_mem;
    match KString.strlen (Z.to_nat max) m buf with Some n => mret n | None => nofuel end.
(** Into an array; the string is returned too. *)
Definition fetchstr_to (addr max : Z) : K kstate (Z * list Z) :=
  i ← myproc_deref;
  p ← get_proc i;
  '(err, bs) ← copyinstr_to (p_pagetable p) addr max;
  if err <? 0 then mret (err, bs) else mret (Z.of_nat (length bs), bs).

Definition argraw (n : Z) : K kstate Z :=
  i ← myproc_deref;
  if (0 <=? n) && (n <=? 5) then tf_get i (tf_a0 + 8 * n) else panic "argraw".
Definition argint (n : Z) : K kstate Z := x ← argraw n; mret (i32 x).
Definition argaddr (n : Z) : K kstate Z := argraw n.
Definition argstr (n max : Z) : K kstate (Z * list Z) := addr ← argaddr n; fetchstr_to addr max.

(** ** sysproc.c *)

Definition sys_exit : K kstate Z := n ← argint 0; exit kend n ;; mret 0.
Definition sys_getpid : K kstate Z := i ← myproc_deref; p ← get_proc i; mret (u64 (p_pid p)).
Definition sys_fork : K kstate Z := r ← fork kend trampoline forkret_addr; mret (u64 r).
Definition sys_wait : K kstate Z := p ← argaddr 0; r ← wait kend p; mret (u64 r).
Definition sys_sbrk : K kstate Z :=
  n ← argint 0;
  i ← myproc_deref;
  p ← get_proc i;
  let addr := i32 (p_sz p) in
  r ← growproc kend n;
  if r <? 0 then mret ERR else mret (u64 addr).

Definition sys_sleep_body (n ticks0 : Z) (_ : ()) : K kstate (() + Z) :=
  t ← getD (T := tick);
  if u32 (ticks t - ticks0) <? u32 n then
    i ← myproc_deref;
    p ← get_proc i;
    if negb (p_killed p =? 0) then release L_ticks ;; mret (inr ERR)
    else sleep resume Ch_ticks L_ticks ;; mret (inl ())
  else release L_ticks ;; mret (inr 0).
Definition sys_sleep : K kstate Z :=
  n ← argint 0;
  acquire L_ticks ;;
  t ← getD (T := tick);
  loop wakeups (sys_sleep_body n (ticks t)) ().

Definition sys_kill : K kstate Z := pid ← argint 0; r ← kill pid; mret (u64 r).
Definition sys_uptime : K kstate Z :=
  acquire L_ticks ;;
  t ← getD (T := tick);
  release L_ticks ;;
  mret (ticks t).
Definition sys_trace : K kstate Z :=
  mask ← argint 0;
  i ← myproc_deref;
  upd_proc (set_mask mask) i ;;
  mret 0.
(** [npages] bounds the walk of the free list. *)
Definition sys_sysinfo (npages : nat) : K kstate Z :=
  u_dst ← argaddr 0;
  freemem ← count_free_kmem npages;
  nproc ← count_unused_proc;
  i ← myproc_deref;
  p ← get_proc i;
  r ← copyout_from (p_pagetable p) u_dst (bytes_of 8 freemem ++ bytes_of 8 nproc);
  if r <? 0 then mret ERR else mret 0.

(** ** sysfile.c *)

(** [Some (fd, f)], or -1. *)
Definition argfd (n : Z) : K kstate (option (Z * nat)) :=
  fd ← argint n;
  if (fd <? 0) || (fd >=? NOFILE) then mret None
  else
    i ← myproc_deref;
    p ← get_proc i;
    match p_ofile p !!! Z.to_nat fd with Some f => mret (Some (fd, f)) | None => mret None end.

Definition fdalloc (f : nat) : K kstate Z :=
  i ← myproc_deref;
  r ← for_break (seq 0 (Z.to_nat NOFILE)) (fun fd =>
        p ← get_proc i;
        match p_ofile p !!! fd with
        | None => upd_proc (set_ofile fd (Some f)) i ;; mret (Some (Z.of_nat fd))
        | Some _ => mret None
        end);
  mret (default (-1) r).

Definition sys_dup : K kstate Z :=
  o ← argfd 0;
  match o with
  | None => mret ERR
  | Some (_, f) =>
      fd ← fdalloc f;
      if fd <? 0 then mret ERR else filedup f ;; mret fd
  end.

(** The arguments of read and write: the file, n and p, fetched in this order. *)
Definition sys_read : K kstate Z :=
  o ← argfd 0;
  match o with
  | None => mret ERR
  | Some (_, f) => n ← argint 2; p ← argaddr 1; r ← fileread f p n; mret (u64 r)
  end.
Definition sys_write : K kstate Z :=
  o ← argfd 0;
  match o with
  | None => mret ERR
  | Some (_, f) => n ← argint 2; p ← argaddr 1; r ← filewrite f p n; mret (u64 r)
  end.

Definition sys_close : K kstate Z :=
  o ← argfd 0;
  match o with
  | None => mret ERR
  | Some (fd, f) =>
      i ← myproc_deref;
      upd_proc (set_ofile (Z.to_nat fd) None) i ;;
      fileclose kend f ;;
      mret 0
  end.
Definition sys_fstat : K kstate Z :=
  o ← argfd 0;
  match o with
  | None => mret ERR
  | Some (_, f) => st ← argaddr 1; r ← filestat f st; mret (u64 r)
  end.

(** An uninitialised [char name[DIRSIZ]]. *)
Definition name0 : list Z := repeat 0 (Z.to_nat DIRSIZ).

(** The [bad] label of sys_link. *)
Definition link_bad (ip : nat) : K kstate Z :=
  ilock (Some ip) ;;
  upd_inode (fun x => set_i_nlink (i16 (i_nlink x - 1)) x) ip ;;
  iupdate ip ;;
  iunlockput ip ;;
  end_op ;;
  mret ERR.
Definition sys_link : K kstate Z :=
  '(r0, old) ← argstr 0 MAXPATH;
  if r0 <? 0 then mret ERR
  else
    '(r1, new) ← argstr 1 MAXPATH;
    if r1 <? 0 then mret ERR
    else
      begin_op ;;
      o ← namei old;
      match o with
      | None => end_op ;; mret ERR
      | Some ip =>
          ilock (Some ip) ;;
          x ← get_inode ip;
          if i_type x =? T_DIR then iunlockput ip ;; end_op ;; mret ERR
          else
            upd_inode (fun x => set_i_nlink (i16 (i_nlink x + 1)) x) ip ;;
            iupdate ip ;;
            iunlock (Some ip) ;;
            '(d, name) ← nameiparent new name0;
            match d with
            | None => link_bad ip
            | Some dp =>
                ilock (Some dp) ;;
                y ← get_inode dp;
                x ← get_inode ip;
                r ← (if negb (i_dev y =? i_dev x) then mret (-1) else dirlink dp name (i_inum x));
                if r <? 0 then iunlockput dp ;; link_bad ip
                else
                  iunlockput dp ;;
                  iput ip ;;
                  end_op ;;
                  mret 0
            end
      end.

Definition isdirempty_body (dp : nat) (off : Z) : K kstate (Z + bool) :=
  x ← get_inode dp;
  if off <? i_size x then
    '(r, bs) ← readi dp D_object off sizeof_dirent;
    if negb (r =? sizeof_dirent) then panic "isdirempty: readi"
    else if negb (de_inum (dirent_of bs) =? 0) then mret (inr false)
    else mret (inl (off + sizeof_dirent))
  else mret (inr true).
Definition isdirempty (dp : nat) : K kstate bool :=
  x ← get_inode dp;
  loop (S (Z.to_nat (i_size x / sizeof_dirent))) (isdirempty_body dp) (2 * sizeof_dirent).

(** The [bad] label of sys_unlink. *)
Definition unlink_bad (dp : nat) : K kstate Z := iunlockput dp ;; end_op ;; mret ERR.
Definition sys_unlink : K kstate Z :=
  '(r, path) ← argstr 0 MAXPATH;
  if r <? 0 then mret ERR
  else
    begin_op ;;
    '(d, name) ← nameiparent path name0;
    match d with
    | None => end_op ;; mret ERR
    | Some dp =>
        ilock (Some dp) ;;
        if (namecmp name (str ".") =? 0) || (namecmp name (str "..") =? 0) then unlink_bad dp
        else
          o ← dirlookup dp name;
          match o with
          | None => unlink_bad dp
          | Some (ip, off) =>
              ilock (Some ip) ;;
              x ← get_inode ip;
              if i_nlink x <? 1 then panic "unlink: nlink < 1"
              else
                busy ← (if i_type x =? T_DIR then e ← isdirempty ip; mret (negb e) else mret false);
                if busy : bool then iunlockput ip ;; unlink_bad dp
                else
                  r ← writei dp (S_object (repeat 0 (Z.to_nat sizeof_dirent))) off sizeof_dirent;
                  if negb (r =? sizeof_dirent) then panic "unlink: writei"
                  else
                    x ← get_inode ip;
                    (if i_type x =? T_DIR then
                       upd_inode (fun y => set_i_nlink (i16 (i_nlink y - 1)) y) dp ;; iupdate dp
                     else mret ()) ;;
                    iunlockput dp ;;
                    upd_inode (fun x => set_i_nlink (i16 (i_nlink x - 1)) x) ip ;;
                    iupdate ip ;;
                    iunlockput ip ;;
                    end_op ;;
                    mret 0
          end
    end.

Definition create (path : list Z) (type major minor : Z) : K kstate (option nat) :=
  '(d, name) ← nameiparent path name0;
  match d with
  | None => mret None
  | Some dp =>
      ilock (Some dp) ;;
      o ← dirlookup dp name;
      match o with
      | Some (ip, _) =>
          iunlockput dp ;;
          ilock (Some ip) ;;
          x ← get_inode ip;
          if (type =? T_FILE) && ((i_type x =? T_FILE) || (i_type x =? T_DEVICE)) then mret (Some ip)
          else iunlockput ip ;; mret None
      | None =>
          y ← get_inode dp;
          ip ← ialloc (i_dev y) type;
          ilock (Some ip) ;;
          upd_inode (set_i_dev (i16 major) (i16 minor)) ip ;;
          upd_inode (set_i_nlink 1) ip ;;
          iupdate ip ;;
          (if type =? T_DIR then
             upd_inode (fun y => set_i_nlink (i16 (i_nlink y + 1)) y) dp ;;
             iupdate dp ;;
             x ← get_inode ip;
             r ← dirlink ip (str ".") (i_inum x);
             if r <? 0 then panic "create dots"
             else
               y ← get_inode dp;
               r ← dirlink ip (str "..") (i_inum y);
               if r <? 0 then panic "create dots" else mret ()
           else mret ()) ;;
          x ← get_inode ip;
          r ← dirlink dp name (i_inum x);
          if r <? 0 then panic "create: dirlink"
          else
            iunlockput dp ;;
            mret (Some ip)
      end
  end.

(** sys_open after the inode has been found and locked. *)
Definition open_inode (ip : nat) (omode : Z) : K kstate Z :=
  x ← get_inode ip;
  if (i_type x =? T_DEVICE) && ((i_major x <? 0) || (i_major x >=? NDEV)) then
    iunlockput ip ;; end_op ;; mret ERR
  else
    o ← filealloc;
    match o with
    | None => iunlockput ip ;; end_op ;; mret ERR
    | Some f =>
        fd ← fdalloc f;
        if fd <? 0 then
          fileclose kend f ;;
          iunlockput ip ;;
          end_op ;;
          mret ERR
        else
          (if i_type x =? T_DEVICE then
             upd_file (set_f_type FD_DEVICE) f ;; upd_file (set_f_major (i_major x)) f
           else upd_file (set_f_type FD_INODE) f ;; upd_file (set_f_off 0) f) ;;
          let wronly := negb (Z.land omode O_WRONLY =? 0) in
          let rdwr := negb (Z.land omode O_RDWR =? 0) in
          upd_file (set_f_inode ip (if wronly then 0 else 1) (if wronly || rdwr then 1 else 0)) f ;;
          (if negb (Z.land omode O_TRUNC =? 0) && (i_type x =? T_FILE) then itrunc ip else mret ()) ;;
          iunlock (Some ip) ;;
          end_op ;;
          mret fd
    end.
Definition sys_open : K kstate Z :=
  '(n, path) ← argstr 0 MAXPATH;
  if n <? 0 then mret ERR
  else
    omode ← argint 1;
    begin_op ;;
    if negb (Z.land omode O_CREATE =? 0) then
      o ← create path T_FILE 0 0;
      match o with
      | None => end_op ;; mret ERR
      | Some ip => open_inode ip omode
      end
    else
      o ← namei path;
      match o with
      | None => end_op ;; mret ERR
      | Some ip =>
          ilock (Some ip) ;;
          x ← get_inode ip;
          if (i_type x =? T_DIR) && negb (omode =? O_RDONLY) then iunlockput ip ;; end_op ;; mret ERR
          else open_inode ip omode
      end.

(** begin_op; create; unlock: what mkdir and mknod end with. *)
Definition create_node (o : option nat) : K kstate Z :=
  match o with
  | None => end_op ;; mret ERR
  | Some ip => iunlockput ip ;; end_op ;; mret 0
  end.
Definition sys_mkdir : K kstate Z :=
  begin_op ;;
  '(r, path) ← argstr 0 MAXPATH;
  o ← (if r <? 0 then mret None else create path T_DIR 0 0);
  create_node o.
Definition sys_mknod : K kstate Z :=
  begin_op ;;
  '(r, path) ← argstr 0 MAXPATH;
  o ← (if r <? 0 then mret None
       else major ← argint 1; minor ← argint 2; create path T_DEVICE (i16 major) (i16 minor));
  create_node o.

Definition sys_chdir : K kstate Z :=
  i ← myproc_deref;
  begin_op ;;
  '(r, path) ← argstr 0 MAXPATH;
  o ← (if r <? 0 then mret None else namei path);
  match o with
  | None => end_op ;; mret ERR
  | Some ip =>
      ilock (Some ip) ;;
      x ← get_inode ip;
      if negb (i_type x =? T_DIR) then iunlockput ip ;; end_op ;; mret ERR
      else
        iunlock (Some ip) ;;
        p ← get_proc i;
        c ← deref (p_cwd p);
        iput c ;;
        end_op ;;
        upd_proc (set_cwd (Some ip)) i ;;
        mret 0
  end.

(** The loop of sys_exec: [argv] so far; the result says whether it ended well. *)
Definition exec_args_body (uargv : Z) (argv : list Z) : K kstate (list Z + (bool * list Z)) :=
  let i := Z.of_nat (length argv) in
  if i >=? MAXARG then mret (inr (false, argv))
  else
    '(r, uarg) ← fetchaddr (u64 (uargv + 8 * i));
    if r <? 0 then mret (inr (false, argv))
    else if uarg =? 0 then mret (inr (true, argv))
    else
      pg ← kalloc;
      if pg =? 0 then mret (inr (false, argv))
      else
        r ← fetchstr uarg pg PGSIZE;
        if r <? 0 then mret (inr (false, argv ++ [pg])) else mret (inl (argv ++ [pg])).
Definition sys_exec : K kstate Z :=
  '(r, path) ← argstr 0 MAXPATH;
  if r <? 0 then mret ERR
  else
    uargv ← argaddr 1;
    '(ok, argv) ← loop (S (Z.to_nat MAXARG)) (exec_args_body uargv) [];
    if ok : bool then
      ret ← exec kend trampoline path argv;
      for_each argv (kfree kend) ;;
      mret (u64 ret)
    else for_each argv (kfree kend) ;; mret ERR.

Definition sys_pipe : K kstate Z :=
  i ← myproc_deref;
  fdarray ← argaddr 0;
  '(r, o0, o1) ← pipealloc kend;
  if r <? 0 then mret ERR
  else
    rf ← deref o0;
    wf ← deref o1;
    fd0 ← fdalloc rf;
    fd1 ← (if fd0 <? 0 then mret (-1) else fdalloc wf);
    if (fd0 <? 0) || (fd1 <? 0) then
      (if fd0 >=? 0 then upd_proc (set_ofile (Z.to_nat fd0) None) i else mret ()) ;;
      fileclose kend rf ;;
      fileclose kend wf ;;
      mret ERR
    else
      p ← get_proc i;
      r0 ← copyout_from (p_pagetable p) fdarray (bytes_of 4 fd0);
      r1 ← (if r0 <? 0 then mret (-1) else copyout_from (p_pagetable p) (u64 (fdarray + 4)) (bytes_of 4 fd1));
      if r1 <? 0 then
        upd_proc (set_ofile (Z.to_nat fd0) None) i ;;
        upd_proc (set_ofile (Z.to_nat fd1) None) i ;;
        fileclose kend rf ;;
        fileclose kend wf ;;
        mret ERR
      else mret 0.

(** ** Dispatch *)

(** The tables [syscalls] and [syscallname], in the order of syscall.h. *)
Definition syscalls (npages : nat) : list (string * K kstate Z) :=
  [("fork", sys_fork); ("exit", sys_exit); ("wait", sys_wait); ("pipe", sys_pipe); ("read", sys_read);
   ("kill", sys_kill); ("exec", sys_exec); ("fstat", sys_fstat); ("chdir", sys_chdir); ("dup", sys_dup);
   ("getpid", sys_getpid); ("sbrk", sys_sbrk); ("sleep", sys_sleep); ("uptime", sys_uptime); ("open", sys_open);
   ("write", sys_write); ("mknod", sys_mknod); ("unlink", sys_unlink); ("link", sys_link); ("mkdir", sys_mkdir);
   ("close", sys_close); ("trace", sys_trace); ("sysinfo", sys_sysinfo npages)].

Definition syscall (npages : nat) : K kstate () :=
  i ← myproc_deref;
  a7 ← tf_get i tf_a7;
  let num := i32 a7 in
  match (if num >? 0 then syscalls npages !! Z.to_nat (num - 1) else None) with
  | Some (name, f) =>
      r ← f;
      tf_set i tf_a0 r ;;
      p ← get_proc i;
      if negb (Z.land (Z.shiftr (p_syscall_mask p) num) 1 =? 0) then
        a0 ← tf_get i tf_a0;
        printf (Some (str "%d: syscall %s -> %d
")) [A_int (p_pid p); A_str (Some (str name)); A_int (i32 a0)]
      else mret ()
  | None =>
      p ← get_proc i;
      printf (Some (str "%d %s: unknown sys call %d
")) [A_int (p_pid p); A_str (Some (cstr (p_name p))); A_int num] ;;
      tf_set i tf_a0 ERR
  end.
End Syscall.
