(* ===== verification/Trap.v ===== *)
(** * kernel/trap.c, kernel/plic.c, and forkret of kernel/proc.c

    Traps from user space and from the kernel, device interrupts and the clock.
    The control registers are those of the running hart ([ks_csr]; [sstatus] is in
    the hart).  What the PLIC's claim register answers is given by [PlicHw]; the
    writes to it are recorded.  The assembly of trampoline.S and kernelvec.S is not
    modelled: the addresses of its labels are parameters, and the jump at the end
    of usertrapret is its result. *)
From stdpp Require Import prelude gmap strings.
From Stdlib Require Import ZArith Lia.
From S2P Require Import Prelude Memory CString Spinlock Riscv Kalloc Vm Uaccess Proc Bytes State Sleeplock Copy Pipe Console Bio Virtio BioView BioClient Log Fs File Process Exec Syscall.
Open Scope Z_scope.

(** ** riscv.h *)
Definition SSTATUS_SPP : Z := Z.shiftl 1 8.
Definition SSTATUS_SPIE : Z := Z.shiftl 1 5.

Definition get_csr : K kstate csrs := getD.
Definition upd_csr (f : csrs -> csrs) : K kstate () := c ← get_csr; putD (f c).
Definition r_scause : K kstate Z := c ← get_csr; mret (c_scause c).
Definition r_stval : K kstate Z := c ← get_csr; mret (c_stval c).
Definition r_sepc : K kstate Z := c ← get_csr; mret (c_sepc c).
Definition w_sepc (x : Z) : K kstate () :=
  upd_csr (fun c => Csrs (c_scause c) x (c_stval c) (c_stvec c) (c_sip c) (c_satp c)).
Definition w_stvec (x : Z) : K kstate () :=
  upd_csr (fun c => Csrs (c_scause c) (c_sepc c) (c_stval c) x (c_sip c) (c_satp c)).
Definition r_sip : K kstate Z := c ← get_csr; mret (c_sip c).
Definition w_sip (x : Z) : K kstate () :=
  upd_csr (fun c => Csrs (c_scause c) (c_sepc c) (c_stval c) (c_stvec c) x (c_satp c)).
Definition r_satp : K kstate Z := c ← get_csr; mret (c_satp c).
Definition w_satp (x : Z) : K kstate () :=
  upd_csr (fun c => Csrs (c_scause c) (c_sepc c) (c_stval c) (c_stvec c) (c_sip c) x).
Definition r_tp : K kstate Z := h ← cpuid; mret (Z.of_nat h).

(** ** memlayout.h and plic.c *)
Definition UART0_IRQ : Z := 10.
Definition VIRTIO0_IRQ : Z := 1.
Definition PLIC_SENABLE (hart : Z) : Z := PLIC + 0x2080 + hart * 0x100.
Definition PLIC_SPRIORITY (hart : Z) : Z := PLIC + 0x201000 + hart * 0x2000.
Definition PLIC_SCLAIM (hart : Z) : Z := PLIC + 0x201004 + hart * 0x2000.

(** Reads of the interrupt controller. *)
Class PlicHw := { plic_read : Z -> K kstate Z }.

Definition plic_write (a x : Z) : K kstate () :=
  p ← getD (T := plic); putD (Plic ((a, u32 x) :: plic_wr p)).

Definition plicinit : K kstate () :=
  plic_write (PLIC + UART0_IRQ * 4) 1 ;;
  plic_write (PLIC + VIRTIO0_IRQ * 4) 1.

Definition plicinithart : K kstate () :=
  hart ← r_tp;
  plic_write (PLIC_SENABLE hart) (Z.lor (Z.shiftl 1 UART0_IRQ) (Z.shiftl 1 VIRTIO0_IRQ)) ;;
  plic_write (PLIC_SPRIORITY hart) 0.

Definition plic_claim `{!PlicHw} : K kstate Z :=
  hart ← r_tp;
  irq ← plic_read (PLIC_SCLAIM hart);
  mret (i32 irq).

Definition plic_complete (irq : Z) : K kstate () :=
  hart ← r_tp;
  plic_write (PLIC_SCLAIM hart) irq.

(** ** trap.c *)
Section Trap.
Context {SC : Sched} {VD : VirtioDisk} {UD : UartDev} {VH : VirtioHw} {PH : PlicHw}.
(** The linker symbols, and the addresses of kernelvec, uservec, userret and
    usertrap. *)
Context (kend trampoline forkret_addr : Z) (npages : nat).
Context (kernelvec uservec userret usertrap_addr : Z).

Definition trapinit : K kstate () := initlock L_ticks "time".

Definition trapinithart : K kstate () := w_stvec kernelvec.

Definition clockintr : K kstate () :=
  acquire L_ticks ;;
  t ← getD (T := tick);
  putD (Tick (u32 (ticks t + 1))) ;;
  wakeup Ch_ticks ;;
  release L_ticks.

Definition devintr : K kstate Z :=
  scause ← r_scause;
  if negb (Z.land scause 0x8000000000000000 =? 0) && (Z.land scause 0xff =? 9) then
    irq ← plic_claim;
    (if irq =? UART0_IRQ then uartintr
     else if irq =? VIRTIO0_IRQ then virtio_disk_intr
     else if negb (irq =? 0) then printf (Some (str "unexpected interrupt irq=%d
")) [A_int irq]
     else mret ()) ;;
    (if negb (irq =? 0) then plic_complete irq else mret ()) ;;
    mret 1
  else if scause =? 0x8000000000000001 then
    h ← cpuid;
    (if bool_decide (h = 0%nat) then clockintr else mret ()) ;;
    sip ← r_sip;
    w_sip (Z.land sip (Z.lnot 2)) ;;
    mret 2
  else mret 0.

(** The result is the call of trampoline.S's userret: its address and its two
    arguments. *)
Definition usertrapret : K kstate (Z * Z * Z) :=
  i ← myproc_deref;
  intr_off ;;
  w_stvec (TRAMPOLINE + (uservec - trampoline)) ;;
  satp ← r_satp;
  tf_set i tf_kernel_satp satp ;;
  p ← get_proc i;
  tf_set i tf_kernel_sp (p_kstack p + PGSIZE) ;;
  tf_set i tf_kernel_trap usertrap_addr ;;
  hartid ← r_tp;
  tf_set i tf_kernel_hartid hartid ;;
  x ← r_sstatus;
  w_sstatus (Z.lor (Z.land x (Z.lnot SSTATUS_SPP)) SSTATUS_SPIE) ;;
  epc ← tf_get i tf_epc;
  w_sepc epc ;;
  p ← get_proc i;
  mret (TRAMPOLINE + (userret - trampoline), TRAPFRAME, MAKE_SATP (p_pagetable p)).

Definition usertrap : K kstate (Z * Z * Z) :=
  x ← r_sstatus;
  if negb (Z.land x SSTATUS_SPP =? 0) then panic "usertrap: not from user mode"
  else
    w_stvec kernelvec ;;
    i ← myproc_deref;
    sepc ← r_sepc;
    tf_set i tf_epc sepc ;;
    scause ← r_scause;
    which_dev ← (if scause =? 8 then
        p ← get_proc i;
        (if negb (p_killed p =? 0) then exit kend (-1) else mret ()) ;;
        epc ← tf_get i tf_epc;
        tf_set i tf_epc (u64 (epc + 4)) ;;
        intr_on ;;
        syscall kend trampoline forkret_addr npages ;;
        mret 0
      else
        d ← devintr;
        if negb (d =? 0) then mret d
        else
          scause ← r_scause;
          p ← get_proc i;
          printf (Some (str "usertrap(): unexpected scause %p pid=%d
")) [A_ptr scause; A_int (p_pid p)] ;;
          sepc ← r_sepc;
          stval ← r_stval;
          printf (Some (str "            sepc=%p stval=%p
")) [A_ptr sepc; A_ptr stval] ;;
          upd_proc (set_killed 1) i ;;
          mret 0);
    p ← get_proc i;
    (if negb (p_killed p =? 0) then exit kend (-1) else mret ()) ;;
    (if which_dev =? 2 then yield resume else mret ()) ;;
    usertrapret.

Definition kerneltrap : K kstate () :=
  sepc ← r_sepc;
  sstatus ← r_sstatus;
  scause ← r_scause;
  if Z.land sstatus SSTATUS_SPP =? 0 then panic "kerneltrap: not from supervisor mode"
  else
    on ← intr_get;
    if negb (on =? 0) then panic "kerneltrap: interrupts enabled"
    else
      which_dev ← devintr;
      if which_dev =? 0 then
        printf (Some (str "scause %p
")) [A_ptr scause] ;;
        sepc ← r_sepc;
        stval ← r_stval;
        printf (Some (str "sepc=%p stval=%p
")) [A_ptr sepc; A_ptr stval] ;;
        panic "kerneltrap"
      else
        (if which_dev =? 2 then
           o ← myproc;
           match o with
           | None => mret ()
           | Some _ =>
               i ← myproc_deref;
               p ← get_proc i;
               if bool_decide (p_state p = RUNNING) then yield resume else mret ()
           end
         else mret ()) ;;
        w_sepc sepc ;;
        w_sstatus sstatus.

(** ** proc.c: forkret *)
Definition forkret : K kstate (Z * Z * Z) :=
  i ← myproc_deref;
  release (L_proc i) ;;
  b ← getD (T := boot);
  (if negb (fk_first b =? 0) then
     putD (Boot 0 (started b)) ;;
     fsinit ROOTDEV
   else mret ()) ;;
  usertrapret.
End Trap.
