(* ===== verification/TrapSpec.v ===== *)
(** * What trap.c does

    usertrapret leaves the registers and the trap frame as the trampoline and the
    next trap need them; kerneltrap returns to the interrupted code with the trap
    registers it found. *)
From stdpp Require Import prelude gmap strings.
From Stdlib Require Import ZArith Lia.
From S2P Require Import Prelude Memory CString Spinlock Riscv Kalloc Vm Uaccess Proc Bytes State Sleeplock Copy Pipe Console Bio Virtio BioView ConsoleSpec BioClient Log Fs File Process Exec Syscall Trap.
Open Scope Z_scope.

Section Ret.
Implicit Types (w : world kstate).
Context (trampoline uservec userret usertrap_addr : Z).

(** The memory after the four stores of usertrapret. *)
Definition ret_mem (m : mem) (tf satp sp hartid : Z) : mem :=
  store64 (store64 (store64 (store64 m (tf + tf_kernel_satp) satp) (tf + tf_kernel_sp) sp)
    (tf + tf_kernel_trap) usertrap_addr) (tf + tf_kernel_hartid) hartid.

Lemma tf_set_run i off v w : tf_set i off v w =
  Ok ((), updc (Pmem (store64 (pbytes (compc w)) (p_trapframe (procs (compc w) !!! i) + off) v) (freelist (compc w))) w).
Proof. done. Qed.
Lemma tf_get_run i off w : tf_get i off w = Ok (load64 (pbytes (compc w)) (p_trapframe (procs (compc w) !!! i) + off), w).
Proof. done. Qed.
Lemma get_csr_run w : get_csr w = Ok (compc w, w).
Proof. done. Qed.
Lemma upd_csr_run f w : upd_csr f w = Ok ((), updc (f (compc w)) w).
Proof. done. Qed.
Lemma r_tp_run w : r_tp w = Ok (Z.of_nat (tp w), w).
Proof. done. Qed.

(** [sstatus] as userret's sret needs it. *)
Definition ret_sstatus (x : Z) : Z :=
  Z.lor (Z.land (Z.land x (Z.lnot SSTATUS_SIE)) (Z.lnot SSTATUS_SPP)) SSTATUS_SPIE.

Lemma ret_sstatus_bits x : Z.testbit (ret_sstatus x) 1 = false /\ Z.testbit (ret_sstatus x) 8 = false /\
  Z.testbit (ret_sstatus x) 5 = true /\
  forall n, 0 <= n -> n <> 1 -> n <> 5 -> n <> 8 -> Z.testbit (ret_sstatus x) n = Z.testbit x n.
Proof.
  unfold ret_sstatus, SSTATUS_SPIE, SSTATUS_SPP, SSTATUS_SIE. rewrite !Z.shiftl_1_l. change 2 with (2 ^ 1).
  assert (B : forall n, 0 <= n -> Z.testbit (Z.lor (Z.land (Z.land x (Z.lnot (2 ^ 1))) (Z.lnot (2 ^ 8))) (2 ^ 5)) n =
    (Z.testbit x n && negb (n =? 1) && negb (n =? 8)) || (n =? 5)).
  { intros n Hn. rewrite Z.lor_spec, !Z.land_spec, !Z.lnot_spec, !Z.pow2_bits_eqb by lia.
    by rewrite !(Z.eqb_sym n). }
  rewrite !B by lia. split_and!; [by destruct (Z.testbit x 1)|by destruct (Z.testbit x 8)|apply orb_true_r|].
  intros n Hn H1 H5 H8. rewrite B, !(proj2 (Z.eqb_neq _ _)) by done. by rewrite !andb_true_r, orb_false_r.
Qed.

Lemma intr_off_run w : intr_off w = Ok ((), set_hart (Hart (Z.land (sstatus (cur w)) (Z.lnot SSTATUS_SIE)) (h_cpu (cur w))) w).
Proof. done. Qed.
Lemma w_sstatus_run x w : w_sstatus x w = Ok ((), set_hart (Hart x (h_cpu (cur w))) w).
Proof. done. Qed.
Lemma r_sstatus_run w : r_sstatus w = Ok (sstatus (cur w), w).
Proof. done. Qed.

(** Bit [n] of sstatus for the return to user mode: SIE (1) and SPP (8) clear,
    SPIE (5) set, the others as they were. *)
Definition user_bit (n : Z) (old : bool) : bool :=
  if decide (n = 1 \/ n = 8) then false else if decide (n = 5) then true else old.

(** usertrapret: interrupts off, previous mode user with interrupts on, traps to
    uservec, the saved user pc in sepc, and the four kernel fields of the trap
    frame set for the next trap; no other byte of memory changes.  It hands the
    trap frame's address and the process's page table to userret. *)
Theorem usertrapret_correct w i
  (Hc : cpu_ok w) (Hp : c_proc (h_cpu (cur w)) = Some i)
  (Hsatp : 0 <= c_satp (compc w) < 2 ^ 64) (Hstk : 0 <= p_kstack (procs (compc w) !!! i) < 2 ^ 64 - PGSIZE)
  (Htrap : 0 <= usertrap_addr < 2 ^ 64) (Htp : Z.of_nat (tp w) < 2 ^ 64) :
  let p := procs (compc w) !!! i in
  let tf := p_trapframe p in
  exists w', usertrapret trampoline uservec userret usertrap_addr w =
      Ok ((TRAMPOLINE + (userret - trampoline), TRAPFRAME, MAKE_SATP (p_pagetable p)), w') /\
    (forall n, 0 <= n -> Z.testbit (sstatus (cur w')) n = user_bit n (Z.testbit (sstatus (cur w)) n)) /\
    c_stvec (compc w') = TRAMPOLINE + (uservec - trampoline) /\
    c_sepc (compc w') = load64 (pbytes (compc w)) (tf + tf_epc) /\
    load64 (pbytes (compc w')) (tf + tf_kernel_satp) = c_satp (compc w) /\
    load64 (pbytes (compc w')) (tf + tf_kernel_sp) = p_kstack p + PGSIZE /\
    load64 (pbytes (compc w')) (tf + tf_kernel_trap) = usertrap_addr /\
    load64 (pbytes (compc w')) (tf + tf_kernel_hartid) = Z.of_nat (tp w) /\
    (forall a, a < tf \/ tf + 24 <= a < tf + 32 \/ tf + 40 <= a -> rd (pbytes (compc w')) a = rd (pbytes (compc w)) a).
Proof.
  intros p tf. unfold usertrapret, w_stvec, w_sepc, r_satp, tf_kernel_satp, tf_kernel_sp, tf_kernel_trap, tf_kernel_hartid, tf_epc.
  kdo (myproc_deref_run w i Hc Hp). kdo (intr_off_run (touch w)).
  set (h0 := Hart _ _). set (w0 := set_hart h0 (touch w)).
  kdo (upd_csr_run (fun c => Csrs (c_scause c) (c_sepc c) (c_stval c) (TRAMPOLINE + (uservec - trampoline)) (c_sip c) (c_satp c)) w0).
  set (w1 := updc _ w0). rewrite bind_assoc. kdo (get_csr_run w1). rewrite bind_mret.
  kdo (tf_set_run i 0 (c_satp (compc w1)) w1). set (w2 := updc _ w1). kdo (get_proc_run i w2).
  kdo (tf_set_run i 8 (p_kstack (procs (compc w2) !!! i) + PGSIZE) w2). set (w3 := updc _ w2).
  kdo (tf_set_run i 16 usertrap_addr w3). set (w4 := updc _ w3). kdo (r_tp_run w4).
  kdo (tf_set_run i 32 (Z.of_nat (tp w4)) w4). set (w5 := updc _ w4). kdo (r_sstatus_run w5).
  kdo (w_sstatus_run (Z.lor (Z.land (sstatus (cur w5)) (Z.lnot SSTATUS_SPP)) SSTATUS_SPIE) w5). set (w6 := set_hart _ w5).
  kdo (tf_get_run i 24 w6). set (epc := load64 _ _).
  kdo (upd_csr_run (fun c => Csrs (c_scause c) epc (c_stval c) (c_stvec c) (c_sip c) (c_satp c)) w6).
  set (w7 := updc _ w6). kdo (get_proc_run i w7). exists w7. split; [done|].
  assert (Hm : pbytes (compc w7) = store64 (store64 (store64 (store64 (pbytes (compc w)) (tf + 0) (c_satp (compc w)))
    (tf + 8) (p_kstack p + PGSIZE)) (tf + 16) usertrap_addr) (tf + 32) (Z.of_nat (tp w))) by reflexivity.
  assert (Hepc : c_sepc (compc w7) = load64 (pbytes (compc w7)) (tf + 24)) by reflexivity.
  split; [|split; [reflexivity|]].
  - intros n Hn. unfold user_bit. change (cur w7) with (cur w6). unfold w6. rewrite cur_set_hart. cbn [sstatus].
    change (cur w5) with (cur w0). unfold w0. rewrite cur_set_hart. unfold h0. cbn [sstatus].
    change (sstatus (cur (touch w))) with (sstatus (cur (touch w))).
    replace (sstatus (cur (touch w))) with (sstatus (cur w)) by (unfold touch; by rewrite cur_set_hart).
    fold (ret_sstatus (sstatus (cur w))). destruct (ret_sstatus_bits (sstatus (cur w))) as (B1 & B8 & B5 & B).
    destruct (decide (n = 1 \/ n = 8)) as [[->| ->]|H18]; [done|done|]. destruct (decide (n = 5)) as [->|H5]; [done|].
    apply B; [done|tauto..].
  - rewrite Hepc, Hm. split; [by rewrite !load64_store64_ne by lia|].
    assert (0 <= PGSIZE) by done.
    split; [rewrite 3!load64_store64_ne, load64_store64_eq by lia; done|].
    split; [rewrite 2!load64_store64_ne, load64_store64_eq by (unfold p; lia); done|].
    split; [rewrite load64_store64_ne, load64_store64_eq by lia; done|].
    split; [rewrite load64_store64_eq by lia; done|].
    intros a Ha. by rewrite !rd_store64_out by lia.
Qed.
End Ret.

Section Kernel.
Context {SC : Sched} {UD : UartDev} {VH : VirtioHw} {PH : PlicHw}.
Implicit Types (w : world kstate).

Lemma clockintr_run w : cpu_ok w -> procs_unlocked w -> length (procs (compc w)) = nproc -> lock_free L_ticks w ->
  clockintr w = Ok ((), touch (updc (tab_map (woken Ch_ticks) (compc w)) (updc (Tick (u32 (ticks (compc w) + 1))) w))).
Proof.
  intros Hc Hu Hn Hl. unfold clockintr. kacquire.
  assert (Hg : getD (T := tick) (acq L_ticks w) = Ok (compc w, acq L_ticks w)) by done. kdo Hg.
  assert (Hput : putD (Tick (u32 (ticks (compc w) + 1))) (acq L_ticks w) = Ok ((), updc (Tick (u32 (ticks (compc w) + 1))) (acq L_ticks w))) by done.
  kdo Hput. knorm. set (w1 := updc _ w).
  assert (Hc1 : cpu_ok w1) by (unfold w1; eauto with xv6).
  assert (Hl1 : lock_free L_ticks w1) by (unfold w1; eauto with xv6).
  rewrite (bind_Ok _ _ _ _ _ (wakeup_run Ch_ticks (acq L_ticks w1) ltac:(eauto with xv6)
    ltac:(intros i Hi; apply lock_free_acq; [congruence|unfold w1; apply lock_free_updc; by apply Hu]) Hn)).
  knorm. rewrite touch_acq by eauto with xv6. apply release_acq; eauto with xv6.
Qed.

Definition timer_cause : Z := 0x8000000000000001.

(** What a timer interrupt does to the clock and to the processes that wait for
    it: only hart 0 counts. *)
Definition ticked w : world kstate :=
  if bool_decide (tp w = 0%nat)
  then touch (updc (tab_map (woken Ch_ticks) (compc w)) (updc (Tick (u32 (ticks (compc w) + 1))) w))
  else w.

Lemma devintr_timer w : cpu_ok w -> procs_unlocked w -> length (procs (compc w)) = nproc -> lock_free L_ticks w ->
  c_scause (compc w) = timer_cause ->
  devintr w = Ok (2, updc (let c := compc w in
    Csrs (c_scause c) (c_sepc c) (c_stval c) (c_stvec c) (Z.land (c_sip c) (Z.lnot 2)) (c_satp c)) (ticked w)).
Proof.
  intros Hc Hu Hn Hl Hs. unfold devintr, r_scause. rewrite bind_assoc. kdo (get_csr_run w). rewrite bind_mret, Hs.
  change (negb (Z.land timer_cause 0x8000000000000000 =? 0) && (Z.land timer_cause 255 =? 9)) with false.
  change (timer_cause =? 0x8000000000000001) with true. cbv iota.
  assert (Hid : cpuid w = Ok (tp w, w)) by done. kdo Hid.
  assert (Ht : (if bool_decide (tp w = 0%nat) then clockintr else mret ()) w = Ok ((), ticked w)).
  { unfold ticked. case_bool_decide; [|done]. by apply clockintr_run. }
  kdo Ht. unfold r_sip, w_sip. rewrite bind_assoc. kdo (get_csr_run (ticked w)). rewrite bind_mret.
  kdo (upd_csr_run (fun c => Csrs (c_scause c) (c_sepc c) (c_stval c) (c_stvec c) (Z.land (c_sip (compc (ticked w))) (Z.lnot 2)) (c_satp c)) (ticked w)).
  cbv beta. replace (compc (T := csrs) (ticked w)) with (compc (T := csrs) w) by (unfold ticked; by case_bool_decide). by rewrite Hs.
Qed.

(** The end of kerneltrap. *)
Lemma restore_run sepc x w : (w_sepc sepc ;; w_sstatus x) w = Ok ((), set_hart (Hart x (h_cpu (cur w)))
  (updc (let c := compc w in Csrs (c_scause c) sepc (c_stval c) (c_stvec c) (c_sip c) (c_satp c)) w)).
Proof. done. Qed.

(** kerneltrap after its checks. *)
Definition kt_tail (sepc x scause : Z) : K kstate () :=
  which_dev ← devintr;
  if which_dev =? 0 then
    printf (Some (str "scause %p
")) [A_ptr scause] ;;
    sepc ← r_sepc;
    stval ← r_stval;
    printf (Some (str "sepc=%p stval=%p
")) [A_ptr sepc; A_ptr stval] ;;
    panic "kerneltrap"
  else
    (if which_dev =? 2 then
       o ← myproc;
       match o with
       | None => mret ()
       | Some _ =>
           i ← myproc_deref;
           p ← get_proc i;
           if bool_decide (p_state p = RUNNING) then yield resume else mret ()
       end
     else mret ()) ;;
    w_sepc sepc ;;
    w_sstatus x.

Lemma r_sepc_run w : r_sepc w = Ok (c_sepc (compc w), w).
Proof. done. Qed.
Lemma r_scause_run w : r_scause w = Ok (c_scause (compc w), w).
Proof. done. Qed.
Lemma intr_get_run w : intr_get w = Ok (if negb (Z.land (sstatus (cur w)) SSTATUS_SIE =? 0) then 1 else 0, w).
Proof. done. Qed.

Lemma kerneltrap_eq w : kerneltrap w =
  if Z.land (sstatus (cur w)) SSTATUS_SPP =? 0 then Panic "kerneltrap: not from supervisor mode"
  else if negb (Z.land (sstatus (cur w)) SSTATUS_SIE =? 0) then Panic "kerneltrap: interrupts enabled"
  else kt_tail (c_sepc (compc w)) (sstatus (cur w)) (c_scause (compc w)) w.
Proof.
  unfold kerneltrap. kdo (r_sepc_run w). kdo (r_sstatus_run w). kdo (r_scause_run w).
  destruct (Z.land (sstatus (cur w)) SSTATUS_SPP =? 0); [done|]. kdo (intr_get_run w).
  by destruct (Z.land (sstatus (cur w)) SSTATUS_SIE =? 0).
Qed.

Lemma kt_tail_restores sepc x scause w w' : kt_tail sepc x scause w = Ok ((), w') ->
  c_sepc (compc w') = sepc /\ sstatus (cur w') = x.
Proof.
  unfold kt_tail. intros H. apply bind_inv in H as (d & w1 & _ & H). destruct (d =? 0).
  - minv H. discriminate H.
  - apply bind_inv in H as ([] & w2 & _ & H). rewrite restore_run in H. injection H as <-.
    by rewrite cur_set_hart.
Qed.

(** kerneltrap returns to the interrupted kernel code with the trap registers it
    found, whatever ran in between on this hart (a process that yields runs again
    after others did).  A trap that is not from supervisor mode, or with
    interrupts on, is a panic.  A timer interrupt while no process runs advances
    the clock on hart 0 and acknowledges the interrupt. *)
Theorem kerneltrap_correct w :
  (Z.land (sstatus (cur w)) SSTATUS_SPP = 0 -> kerneltrap w = Panic "kerneltrap: not from supervisor mode") /\
  (Z.land (sstatus (cur w)) SSTATUS_SPP <> 0 -> Z.land (sstatus (cur w)) SSTATUS_SIE <> 0 ->
     kerneltrap w = Panic "kerneltrap: interrupts enabled") /\
  (forall w', kerneltrap w = Ok ((), w') ->
     c_sepc (compc w') = c_sepc (compc w) /\ sstatus (cur w') = sstatus (cur w)) /\
  (cpu_ok w -> procs_unlocked w -> length (procs (compc w)) = nproc -> lock_free L_ticks w ->
   c_scause (compc w) = timer_cause -> c_proc (h_cpu (cur w)) = None ->
   Z.land (sstatus (cur w)) SSTATUS_SPP <> 0 -> Z.land (sstatus (cur w)) SSTATUS_SIE = 0 ->
   exists w', kerneltrap w = Ok ((), w') /\ c_sip (compc w') = Z.land (c_sip (compc w)) (Z.lnot 2) /\
     ticks (compc w') = (if bool_decide (tp w = 0%nat) then u32 (ticks (compc w) + 1) else ticks (compc w)) /\
     compc (T := proctab) w' = if bool_decide (tp w = 0%nat) then tab_map (woken Ch_ticks) (compc w) else compc w).
Proof.
  rewrite kerneltrap_eq. split_and!.
  - intros H. by rewrite (proj2 (Z.eqb_eq _ _) H).
  - intros H1 H2. by rewrite (proj2 (Z.eqb_neq _ _) H1), (proj2 (Z.eqb_neq _ _) H2).
  - intros w'. destruct (_ =? 0); [done|]. destruct (negb _); [done|]. apply kt_tail_restores.
  - intros Hc Hu Hn Hl Hs Hp H1 H2. rewrite (proj2 (Z.eqb_neq _ _) H1), (proj2 (Z.eqb_eq _ _) H2). cbn [negb].
    unfold kt_tail. kdo (devintr_timer w Hc Hu Hn Hl Hs). cbn [Z.eqb Pos.eqb]. set (w1 := updc _ (ticked w)).
    assert (Hc1 : cpu_ok w1). { unfold w1, ticked. apply cpu_ok_updc. case_bool_decide; eauto with xv6. }
    assert (Hp1 : c_proc (h_cpu (cur w1)) = None).
    { unfold w1. change (cur (updc _ (ticked w))) with (cur (ticked w)). unfold ticked. case_bool_decide; [|done].
      by rewrite c_proc_touch. }
    rewrite bind_assoc. kdo (myproc_run w1 Hc1). rewrite Hp1, bind_mret, restore_run. eexists. split; [done|].
    split; [done|]. unfold w1, ticked. case_bool_decide; done.
Qed.
End Kernel.

Lemma usertrapret_correct_witness : exists w',
  usertrapret 0x80007000 0x80007000 0x80007090 0x80002000 bio_w0 =
    Ok ((TRAMPOLINE + 0x90, TRAPFRAME, MAKE_SATP 0), w') /\
  Z.testbit (sstatus (cur w')) 8 = false /\ c_stvec (compc w') = TRAMPOLINE.
Proof.
  destruct (usertrapret_correct 0x80007000 0x80007000 0x80007090 0x80002000 bio_w0 3) as (w' & E & B & V & _).
  - apply bio_w0_quiet.
  - by vm_compute.
  - by vm_compute.
  - by vm_compute.
  - by vm_compute.
  - by vm_compute.
  - exists w'. split; [exact E|]. split; [exact (B 8 ltac:(lia))|exact V].
Defined.

Definition ex_virtio : VirtioHw := {| mmio_read _ := mret 0 |}.
Definition ex_plic : PlicHw := {| plic_read _ := mret 0 |}.

(** Hart 0 in the scheduler, interrupted by its timer. *)
Definition ex_timer : world kstate :=
  set_hart (Hart 256 (Cpu None 0 0)) (updc (Csrs timer_cause 0x80001234 0 0 2 0) bio_w0).

Lemma kerneltrap_correct_witness : exists w',
  kerneltrap (SC := ex_sched) (UD := ex_uart) (VH := ex_virtio) (PH := ex_plic) ex_timer = Ok ((), w') /\
  ticks (compc w') = 1 /\ c_sepc (compc w') = 0x80001234.
Proof.
  destruct (kerneltrap_correct (SC := ex_sched) (UD := ex_uart) (VH := ex_virtio) (PH := ex_plic) ex_timer)
    as (_ & _ & R & T).
  destruct T as (w' & E & _ & K & _); [split; vm_compute; congruence| | | | | | | |].
  - intros i Hi. destruct (proc_world_unlocked i Hi) as [n En]. exists n. exact En.
  - by vm_compute.
  - exists "". reflexivity.
  - by vm_compute.
  - by vm_compute.
  - by vm_compute.
  - by vm_compute.
  - exists w'. split; [exact E|]. split; [exact K|exact (proj1 (R w' E))].
Defined.
