(* ===== verification/Boot.v ===== *)
(** * kernel/start.c and kernel/main.c

    [start] runs in machine mode on the registers of one hart ([mregs]); what it
    leaves is what supervisor mode starts with.  [main] brings up the components in
    the order of the source and returns where the source calls scheduler, which
    does not return.  The global [kernel_pagetable] is the result of kvminit, passed
    on. *)
From stdpp Require Import prelude gmap strings.
From Stdlib Require Import ZArith Lia.
From S2P Require Import Prelude Memory CString Spinlock Riscv Kalloc Vm Uaccess Proc Bytes State Sleeplock Copy Pipe Console Bio Virtio BioView BioClient Log Fs File Process Exec Syscall Trap.
Open Scope Z_scope.

(** ** riscv.h: machine mode *)
Definition MSTATUS_MPP_MASK : Z := Z.shiftl 3 11.
Definition MSTATUS_MPP_S : Z := Z.shiftl 1 11.
Definition MSTATUS_MIE : Z := Z.shiftl 1 3.
Definition SIE_SEIE : Z := Z.shiftl 1 9.
Definition SIE_STIE : Z := Z.shiftl 1 5.
Definition SIE_SSIE : Z := Z.shiftl 1 1.
Definition MIE_MTIE : Z := Z.shiftl 1 7.

(** The registers start uses, the CLINT's two, and [mscratch0]. *)
Record mregs := Mregs {
  m_status : Z; m_epc : Z; m_satp : Z; m_edeleg : Z; m_ideleg : Z; m_sie : Z; m_ie : Z;
  m_tvec : Z; m_scratch : Z; m_tp : Z; m_time : Z; m_timecmp : Z -> Z; mscratch0 : gmap Z Z;
}.
Definition CLINT_MTIMECMP (hartid : Z) : Z := CLINT + 0x4000 + 8 * hartid.

(** [scratch_addr] is the address of the array mscratch0. *)
Definition timerinit (mhartid timervec scratch_addr : Z) (r : mregs) : mregs :=
  let id := i32 mhartid in
  let interval := 1000000 in
  let timecmp a := if a =? CLINT_MTIMECMP id then u64 (m_time r + interval) else m_timecmp r a in
  let scratch := 32 * id in
  Mregs (Z.lor (m_status r) MSTATUS_MIE) (m_epc r) (m_satp r) (m_edeleg r) (m_ideleg r) (m_sie r)
    (Z.lor (m_ie r) MIE_MTIE) timervec (scratch_addr + 8 * scratch) (m_tp r) (m_time r) timecmp
    (<[scratch + 5 := interval]> (<[scratch + 4 := CLINT_MTIMECMP id]> (mscratch0 r))).

(** The state at the final mret. *)
Definition start (mhartid main_addr timervec scratch_addr : Z) (r : mregs) : mregs :=
  let x := Z.lor (Z.land (m_status r) (Z.lnot MSTATUS_MPP_MASK)) MSTATUS_MPP_S in
  let r := Mregs x main_addr 0 0xffff 0xffff
             (Z.lor (Z.lor (Z.lor (m_sie r) SIE_SEIE) SIE_STIE) SIE_SSIE) (m_ie r)
             (m_tvec r) (m_scratch r) (m_tp r) (m_time r) (m_timecmp r) (mscratch0 r) in
  let r := timerinit mhartid timervec scratch_addr r in
  Mregs (m_status r) (m_epc r) (m_satp r) (m_edeleg r) (m_ideleg r) (m_sie r) (m_ie r) (m_tvec r)
    (m_scratch r) (i32 mhartid) (m_time r) (m_timecmp r) (mscratch0 r).

(** ** vm.c: kvminithart; sfence_vma has no effect on the model, which has no TLB *)
Definition kvminithart (kernel_pagetable : Z) : K kstate () := w_satp (MAKE_SATP kernel_pagetable).

(** ** main.c *)
Section Main.
Context {SC : Sched} {VD : VirtioDisk} {UD : UartDev} {VH : VirtioHw}.
Context (kend etext trampoline forkret_addr initcode kernelvec pages : Z).

Definition say (s : string) : K kstate () := printf (Some (str s)) [].

(** The branch of hart 0; the result is [kernel_pagetable]. *)
Definition main_boot : K kstate Z :=
  consoleinit ;;
  printfinit ;;
  say "
" ;;
  say "xv6 kernel is booting
" ;;
  say "
" ;;
  kinit kend ;;
  kernel_pagetable ← kvminit etext trampoline;
  kvminithart kernel_pagetable ;;
  procinit kernel_pagetable ;;
  trapinit ;;
  trapinithart kernelvec ;;
  plicinit ;;
  plicinithart ;;
  binit ;;
  iinit ;;
  fileinit ;;
  virtio_disk_init pages ;;
  userinit kend trampoline forkret_addr initcode ;;
  b ← getD (T := boot);
  putD (Boot (fk_first b) 1) ;;
  mret kernel_pagetable.

(** The branch of the other harts, which spin on [started] first. *)
Definition main_hart (kernel_pagetable : Z) : K kstate () :=
  b ← getD (T := boot);
  if started b =? 0 then blocked
  else
    h ← cpuid;
    printf (Some (str "hart %d starting
")) [A_int (Z.of_nat h)] ;;
    kvminithart kernel_pagetable ;;
    trapinithart kernelvec ;;
    plicinithart.
End Main.
