(* ===== verification/LogSpec.v ===== *)
(** * The log: what each routine of kernel/log.c writes

    The sequence of disk writes of write_log, write_head, install_trans and
    commit, and their effect on the view and the references of the cache. *)
From stdpp Require Import prelude gmap strings.
From Stdlib Require Import ZArith Lia.
From S2P Require Import Prelude Spinlock Riscv Proc Bytes State Sleeplock Bio BioView BioClient Log.
Open Scope Z_scope.

(** ** Sequences of writes *)

Definition dws (d : disk) (ws : list (Z * blk)) : disk :=
  foldl (fun d p => disk_write d p.1 p.2) d ws.
Definition vws (V : Z -> blk) (ws : list (Z * blk)) : Z -> blk :=
  foldl (fun V p => fupd V p.1 p.2) V ws.

Lemma dws_snoc d ws n x : dws d (ws ++ [(n, x)]) = disk_write (dws d ws) n x.
Proof. unfold dws. by rewrite foldl_app. Qed.
Lemma dws_app d ws ws' : dws d (ws ++ ws') = dws (dws d ws) ws'.
Proof. apply foldl_app. Qed.
Lemma vws_snoc V ws n x : vws V (ws ++ [(n, x)]) = fupd (vws V ws) n x.
Proof. unfold vws. by rewrite foldl_app. Qed.
Lemma vws_app V ws ws' : vws V (ws ++ ws') = vws (vws V ws) ws'.
Proof. apply foldl_app. Qed.

(** The disk keeps the order of its writes. *)
Lemma dws_trace d ws : d_trace (dws d ws) = rev ws ++ d_trace d.
Proof.
  revert d. induction ws as [|[n x] ws IH]; intros d; [done|]. cbn. rewrite IH. cbn.
  by rewrite <- app_assoc.
Qed.

Lemma vws_notin V ws m : m ∉ ws.*1 -> vws V ws m = V m.
Proof.
  revert V. induction ws as [|[n x] ws IH]; intros V Hm; [done|]. cbn in *.
  apply not_elem_of_cons in Hm as [Hn Hm]. rewrite IH by done. by apply fupd_ne.
Qed.

(** The contents of the disk after a sequence of writes. *)
Lemma disk_block_dws d ws m : disk_block (dws d ws) m = vws (disk_block d) ws m.
Proof.
  revert d. induction ws as [|[n x] ws IH]; intros d; [done|]. cbn. rewrite IH. cbn.
  clear IH. assert (E : forall k, disk_block (disk_write d n x) k = fupd (disk_block d) n x k).
  { intros k. apply disk_block_write. }
  revert E. generalize (disk_block (disk_write d n x)) (fupd (disk_block d) n x).
  induction ws as [|[n' x'] ws IH]; intros f g E; [apply E|]. cbn. apply IH.
  intros k. unfold fupd. by rewrite E.
Qed.

Lemma vws_ext V V' ws m : V m = V' m -> vws V ws m = vws V' ws m.
Proof.
  revert V V'. induction ws as [|[n x] ws IH]; intros V V' E; [done|]. cbn. apply IH.
  unfold fupd. by rewrite E.
Qed.

(** ** The state of the log *)

Section Rep.
Implicit Types (w : world kstate) (V : Z -> blk) (R : Z -> Z).

Lemma cs_ext w V V' R R' d F F' ex ex' H : cs w V R d F ex H ->
  (forall m, V m = V' m) -> (forall m, R m = R' m) -> F = F' -> (forall i, ~ ex' i -> ~ ex i) ->
  cs w V' R' d F' ex' H.
Proof.
  intros [C1 C2 [l C3] C4 C5 C6 C7 C8 C9] HV HR <- He. split; try done.
  - exists l. destruct C3 as [B1 B2 B3 B4 B5]. split; try done; intros i Hi Hex; [apply B4|apply B5]; auto.
  - intros m. by rewrite C4.
  - intros m. by rewrite C5.
Qed.

(** Changing the log's own data. *)
Lemma cs_log w V R d F ex H (l : log) : cs w V R d F ex H -> cs (updc l w) V R d F ex H.
Proof.
  intros [C1 C2 [l0 [B1 B2 B3 B4 B5]] C4 C5 C6 C7 C8 C9]. split; try done; [eauto with xv6|].
  exists l0. by split.
Qed.

Lemma cs_clean w V R d F H m : cs w V R d F none H -> R m = 0 -> V m = disk_block d m.
Proof.
  intros C HR. destruct (cs_inv _ _ _ _ _ _ _ C) as [l B].
  rewrite <- (cs_view _ _ _ _ _ _ _ C), <- (cs_disk _ _ _ _ _ _ _ C).
  apply (view_unref _ _ _ B). by rewrite (cs_refs _ _ _ _ _ _ _ C).
Qed.

Lemma cstep_log w w' : cstep w w' -> compc (T := log) w' = compc w.
Proof. intros [[_ (E & _)] _]. unfold compc; cbn. by rewrite E. Qed.

(** The log area as mkfs lays it out: LOGSIZE blocks, the header and one less
    than LOGSIZE for data. *)
Definition in_log (st m : Z) : Prop := st <= m < st + LOGSIZE.

Record log_ok (l : log) (st : Z) (Bs : list Z) : Prop := {
  lo_start : log_start l = st;
  lo_dev : log_dev l = ROOTDEV;
  lo_n : lh_n (log_lh l) = Z.of_nat (length Bs);
  lo_len : length (lh_block (log_lh l)) = Z.to_nat LOGSIZE;
  lo_max : (length Bs < Z.to_nat LOGSIZE)%nat;
  lo_blocks : take (length Bs) (lh_block (log_lh l)) = Bs;
  lo_nodup : NoDup Bs;
  lo_home : forall m, m ∈ Bs -> 0 <= m < 2 ^ 31 /\ ~ in_log st m;
  lo_area : 0 <= st /\ st + LOGSIZE < 2 ^ 31;
  lo_size : 1 < log_size l <= LOGSIZE;
}.

Lemma lh_at_eq l st Bs i n : log_ok l st Bs -> Bs !! i = Some n ->
  lh_at l (Z.of_nat i) = n /\ u32 (lh_at l (Z.of_nat i)) = n /\ 0 <= n < 2 ^ 31 /\ ~ in_log st n.
Proof.
  intros Ho Hi. assert (E : lh_at l (Z.of_nat i) = n).
  { unfold lh_at. rewrite Nat2Z.id. apply list_lookup_total_correct.
    rewrite <- (lo_blocks _ _ _ Ho) in Hi. by apply lookup_take_Some in Hi as [? _]. }
  destruct (lo_home _ _ _ Ho n) as [H1 H2]; [by eapply list_elem_of_lookup_2|].
  rewrite E. split_and!; [done|apply u32_id; lia|lia..|done].
Qed.

(** The writes of write_log for the first [i] blocks, and of install_trans. *)
Definition log_writes (st : Z) (V : Z -> blk) (Bs : list Z) (i : nat) : list (Z * blk) :=
  imap (fun j n => (st + Z.of_nat j + 1, V n)) (take i Bs).
Definition home_writes (st : Z) (V : Z -> blk) (Bs : list Z) (i : nat) : list (Z * blk) :=
  imap (fun j n => (n, V (st + Z.of_nat j + 1))) (take i Bs).

Lemma log_writes_S st V Bs i n : Bs !! i = Some n ->
  log_writes st V Bs (S i) = log_writes st V Bs i ++ [(st + Z.of_nat i + 1, V n)].
Proof.
  intros Hi. unfold log_writes. rewrite (take_S_r _ _ _ Hi), imap_app. cbn.
  rewrite length_take_le; [by rewrite Nat.add_0_r|]. apply lookup_lt_Some in Hi. lia.
Qed.
Lemma home_writes_S st V Bs i n : Bs !! i = Some n ->
  home_writes st V Bs (S i) = home_writes st V Bs i ++ [(n, V (st + Z.of_nat i + 1))].
Proof.
  intros Hi. unfold home_writes. rewrite (take_S_r _ _ _ Hi), imap_app. cbn.
  rewrite length_take_le; [by rewrite Nat.add_0_r|]. apply lookup_lt_Some in Hi. lia.
Qed.

Lemma log_writes_fst st V Bs i m : m ∈ (log_writes st V Bs i).*1 ->
  exists j, (j < i)%nat /\ (j < length Bs)%nat /\ m = st + Z.of_nat j + 1.
Proof.
  intros ([n x] & -> & Hp)%list_elem_of_fmap. unfold log_writes in Hp.
  apply elem_of_lookup_imap in Hp as (j & y & E & Hj). apply lookup_take_Some in Hj as [Hj ?].
  exists j. injection E as -> _. apply lookup_lt_Some in Hj. cbn. lia.
Qed.
Lemma home_writes_fst st V Bs i : (home_writes st V Bs i).*1 = take i Bs.
Proof.
  unfold home_writes. generalize (take i Bs) as l. intros l. apply list_eq. intros j.
  rewrite list_lookup_fmap, list_lookup_imap. by destruct (l !! j).
Qed.

Lemma get_log_run w : get_log w = Ok (compc w, w).
Proof. done. Qed.

(** Reference counts a thread may meet. *)
Definition small (R : Z -> Z) : Prop := forall m, 0 <= R m < 2 ^ 32 - 1.

Lemma u32_pred r : 0 < r < 2 ^ 32 -> u32 (r - 1) = r - 1.
Proof. intros H. apply u32_id. lia. Qed.

Lemma refs_nonneg_cs {w V R d F ex H} : cs w V R d F ex H -> forall m, 0 <= R m.
Proof.
  intros C m. rewrite <- (cs_refs _ _ _ _ _ _ _ C). destruct (cs_inv _ _ _ _ _ _ _ C) as [l B].
  by eapply refs_nonneg.
Qed.


(** The home blocks of a transaction are referenced, the log area is not. *)
Definition refs_log st (R : Z -> Z) : Prop := forall m, in_log st m -> R m = 0.

Lemma log_block_in st (Bs : list Z) i : (length Bs < Z.to_nat LOGSIZE)%nat -> (i < length Bs)%nat ->
  in_log st (st + Z.of_nat i + 1).
Proof. unfold in_log, LOGSIZE, MAXOPBLOCKS. lia. Qed.

Lemma home_not_log l st Bs V i n : log_ok l st Bs -> n ∈ Bs -> n ∉ (log_writes st V Bs i).*1.
Proof.
  intros Ho Hn (j & _ & Hj & ->)%log_writes_fst.
  destruct (lo_home _ _ _ Ho _ Hn) as [_ Hh]. apply Hh.
  apply (log_block_in st Bs); [apply Ho|done].
Qed.

(** References after the first [i] home blocks were installed. *)
Definition unpinned (Bs : list Z) (R : Z -> Z) (i : nat) : Z -> Z :=
  fun m => if decide (m ∈ take i Bs) then u32 (R m - 1) else R m.

Lemma unpinned_S (Bs : list Z) R i n m : NoDup Bs -> Bs !! i = Some n ->
  fupd (unpinned Bs R i) n (u32 (R n - 1)) m = unpinned Bs R (Datatypes.S i) m.
Proof.
  intros Hnd Hn. unfold unpinned, fupd. rewrite (take_S_r _ _ _ Hn).
  destruct (decide (m = n)) as [->|Hne]; [rewrite decide_True by set_solver; done|].
  destruct (decide (m ∈ take i Bs)); [rewrite decide_True by set_solver|rewrite decide_False by set_solver]; done.
Qed.
Lemma unpinned_at Bs R i n : NoDup Bs -> Bs !! i = Some n -> unpinned Bs R i n = R n.
Proof.
  intros Hnd Hn. unfold unpinned. rewrite decide_False; [done|].
  intros (j & Hj)%list_elem_of_lookup. apply lookup_take_Some in Hj as [Hj Hlt].
  pose proof (NoDup_lookup _ _ _ _ Hnd Hj Hn). lia.
Qed.

(** How many home blocks from the [i]th on are not referenced. *)
Definition unref (Bs : list Z) (R : Z -> Z) (i : nat) : nat :=
  length (filter (fun n => R n = 0) (drop i Bs)).
Lemma unref_S Bs R i n : Bs !! i = Some n -> unref Bs R i = (zero1 (R n) + unref Bs R (Datatypes.S i))%nat.
Proof.
  intros Hn. unfold unref. rewrite (drop_S _ _ _ Hn), filter_cons. unfold zero1.
  by destruct (decide (R n = 0)).
Qed.

(** The header block write_head makes of the old header [x]. *)
Definition put_blocks (Bs : list Z) (x : blk) : blk :=
  foldl (fun x p => put_hdr_block (Z.of_nat p.1) p.2 x) x (imap pair Bs).
Definition hdr (Bs : list Z) (x : blk) : blk := put_blocks Bs (put_hdr_n (Z.of_nat (length Bs)) x).

Lemma put_blocks_snoc Bs n x : put_blocks (Bs ++ [n]) x = put_hdr_block (Z.of_nat (length Bs)) n (put_blocks Bs x).
Proof. unfold put_blocks. rewrite imap_app, foldl_app. cbn. by rewrite Nat.add_0_r. Qed.

Lemma put_blocks_length Bs x : (length Bs < Z.to_nat LOGSIZE)%nat -> length x = Z.to_nat BSIZE ->
  length (put_blocks Bs x) = Z.to_nat BSIZE.
Proof.
  unfold LOGSIZE, MAXOPBLOCKS, BSIZE. intros Hl Hx. induction Bs as [|n Bs IH] using rev_ind; [done|].
  rewrite length_app in Hl. cbn in Hl. rewrite put_blocks_snoc. unfold put_hdr_block, hdr_off.
  rewrite length_put_le; rewrite IH by lia; lia.
Qed.

Lemma hdr_n_put_blocks Bs x : (length Bs < Z.to_nat LOGSIZE)%nat -> length x = Z.to_nat BSIZE ->
  hdr_n (put_blocks Bs x) = hdr_n x.
Proof.
  unfold LOGSIZE, MAXOPBLOCKS. intros Hl Hx. induction Bs as [|n Bs IH] using rev_ind; [done|].
  rewrite length_app in Hl. cbn in Hl. rewrite put_blocks_snoc. unfold hdr_n, put_hdr_block.
  rewrite get_put_ne; [apply IH; lia|..].
  - rewrite put_blocks_length by (done || (unfold LOGSIZE, MAXOPBLOCKS; lia)).
    unfold hdr_off, BSIZE. lia.
  - unfold hdr_off. lia.
Qed.

Lemma hdr_block_put_blocks Bs x i n : (length Bs < Z.to_nat LOGSIZE)%nat -> length x = Z.to_nat BSIZE ->
  Bs !! i = Some n -> - 2 ^ 31 <= n < 2 ^ 31 -> hdr_block (put_blocks Bs x) (Z.of_nat i) = n.
Proof.
  intros Hl Hx. revert i. induction Bs as [|k Bs IH] using rev_ind; intros i Hi Hn; [done|].
  rewrite length_app in Hl. cbn in Hl. rewrite put_blocks_snoc. unfold hdr_block, put_hdr_block.
  assert (Hb : length (put_blocks Bs x) = Z.to_nat BSIZE) by (apply put_blocks_length; [lia|done]).
  assert (Ho : (hdr_off (Z.of_nat (length Bs)) + 4 <= length (put_blocks Bs x))%nat).
  { rewrite Hb. unfold hdr_off, BSIZE, LOGSIZE, MAXOPBLOCKS in *. lia. }
  apply lookup_snoc_Some in Hi as [[Hi Hk]|[-> ->]].
  - rewrite get_put_ne; [apply IH; [lia|done|done]|done|unfold hdr_off; lia].
  - by apply get_put_le_int.
Qed.

(** The header block says what the in-memory header said. *)
Lemma hdr_read Bs x : (length Bs < Z.to_nat LOGSIZE)%nat -> length x = Z.to_nat BSIZE ->
  (forall n, n ∈ Bs -> 0 <= n < 2 ^ 31) ->
  hdr_n (hdr Bs x) = Z.of_nat (length Bs) /\
  (forall i n, Bs !! i = Some n -> hdr_block (hdr Bs x) (Z.of_nat i) = n) /\
  length (hdr Bs x) = Z.to_nat BSIZE.
Proof.
  intros Hl Hx Hr. unfold hdr.
  assert (Hy : length (put_hdr_n (Z.of_nat (length Bs)) x) = Z.to_nat BSIZE).
  { unfold put_hdr_n. rewrite length_put_le; [done|]. rewrite Hx. unfold BSIZE. lia. }
  split_and!.
  - rewrite hdr_n_put_blocks by done. apply get_put_le_int; [rewrite Hx; unfold BSIZE; lia|].
    unfold LOGSIZE, MAXOPBLOCKS in *. lia.
  - intros i n Hi. apply hdr_block_put_blocks; [done..|].
    pose proof (Hr n ltac:(by eapply list_elem_of_lookup_2)). lia.
  - by apply put_blocks_length.
Qed.
End Rep.


(** ** What the routines do *)

Section Run.
Context {SC : Sched} {VD : VirtioDisk} (Hwk : (0 < wakeups)%nat).
Implicit Types (w : world kstate) (V : Z -> blk) (R : Z -> Z).

(** One round of write_log: the log block gets a copy of the cached block. *)
Lemma write_log_round w V R d F l st Bs i n :
  cs w V R d F none [] -> compc w = l -> log_ok l st Bs -> Bs !! i = Some n ->
  R n <> 0 -> R n < 2 ^ 32 - 1 -> R (st + Z.of_nat i + 1) = 0 -> (0 < F)%nat ->
  let a := st + Z.of_nat i + 1 in
  exists w', write_log_body (Z.of_nat i) w = Ok (inl (Z.of_nat i + 1), w') /\ cstep w w' /\
    cs w' (fupd V a (V n)) R (disk_write d a (V n)) F none [].
Proof.
  intros C Hl Ho Hi Hn0 Hn1 Ha HF a. pose proof (refs_nonneg_cs C n) as Hn2.
  fold a in Ha.
  destruct (lh_at_eq l st Bs i n Ho Hi) as (_ & Eu & Hr & Hh).
  assert (Hai : 0 <= a < 2 ^ 31 /\ in_log st a).
  { pose proof (lookup_lt_Some _ _ _ Hi). pose proof (lo_max _ _ _ Ho). pose proof (lo_area _ _ _ Ho).
    unfold in_log, a. lia. }
  assert (Hna : n <> a) by (intros ->; tauto).
  unfold write_log_body. kdo (get_log_run w). rewrite Hl, (lo_n _ _ _ Ho).
  rewrite (proj2 (Z.ltb_lt _ _)) by (apply lookup_lt_Some in Hi; lia).
  rewrite (lo_start _ _ _ Ho), (lo_dev _ _ _ Ho), Eu, u32_id by lia. fold a.
  destruct (cs_bread w V R d F [] a C Hwk) as (to & w1 & E1 & S1 & C1); [tauto|set_solver|by left|lia|].
  kdo E1.
  destruct (cs_bread w1 _ _ _ _ _ n C1 Hwk Hr) as (from & w2 & E2 & S2 & C2).
  { intros b [[= _ ?]|?]%elem_of_cons; [done|set_solver]. }
  { right. by rewrite fupd_ne. } { by rewrite fupd_ne. }
  rewrite fupd_ne in C2 by done. kdo E2. kdo (get_buf_run from w2).
  destruct (cs_get _ _ _ _ _ _ _ from n C2) as [Ed _]; [set_solver|]. rewrite Ed.
  destruct (cs_set _ _ _ _ _ _ _ to a (V n) C2) as (w3 & E3 & S3 & C3); [set_solver| |].
  { rewrite fupd_ne, fupd_eq by done. lia. }
  kdo E3. destruct (cs_bwrite _ _ _ _ _ _ _ to a C3) as (w4 & E4 & S4 & C4); [set_solver|].
  rewrite fupd_eq in C4. kdo E4.
  assert (Hft : to <> from).
  { intros <-. apply Hna. eapply (cs_held_inj _ _ _ _ _ _ _ to n to a C4); set_solver. }
  destruct (cs_brelse _ _ _ _ _ _ _ from n C4) as (w5 & E5 & S5 & C5); [set_solver| |].
  { rewrite fupd_eq, u32_pred by lia. lia. }
  kdo E5. rewrite unhold_eq, (unhold_ne from to) in C5 by done.
  destruct (cs_brelse _ _ _ _ _ _ _ to a C5) as (w6 & E6 & S6 & C6); [set_solver| |].
  { intros _. rewrite fupd_eq. by rewrite disk_block_write, decide_True. }
  kdo E6. exists w6. split; [done|]. split.
  { do 5 (etrans; [eassumption|]). done. }
  fsimp_in C6. rewrite Ha in C6. rewrite !(u32_id (R n + 1 - 1)) in C6 by lia.
  change (u32 (0 + 1 - 1)) with 0 in C6. rewrite unhold_eq in C6.
  eapply cs_ext; [exact C6|done|..].
  - intros m. unfold fupd. repeat case_decide; subst; lia.
  - rewrite zero1_0, !zero1_ne by lia. lia.
  - intros j _ [[[] _] _].
Qed.

(** One round of install_trans: the home block gets the log block and loses one
    reference (the pin of log_write; nobody's, when the log is recovered). *)
Lemma install_round w V R d F l st Bs i n :
  cs w V R d F none [] -> compc w = l -> log_ok l st Bs -> Bs !! i = Some n ->
  R n < 2 ^ 32 - 1 -> R (st + Z.of_nat i + 1) = 0 -> (zero1 (R n) < F)%nat ->
  let a := st + Z.of_nat i + 1 in
  exists w', install_body (Z.of_nat i) w = Ok (inl (Z.of_nat i + 1), w') /\ cstep w w' /\
    cs w' (fupd V n (V a)) (fupd R n (u32 (R n - 1))) (disk_write d n (V a))
       (F + zero1 (u32 (R n - 1)) - zero1 (R n))%nat none [].
Proof.
  intros C Hl Ho Hi Hn1 Ha HF a. pose proof (refs_nonneg_cs C n) as Hn2. fold a in Ha.
  destruct (lh_at_eq l st Bs i n Ho Hi) as (_ & Eu & Hr & Hh).
  assert (Hai : 0 <= a < 2 ^ 31 /\ in_log st a).
  { pose proof (lookup_lt_Some _ _ _ Hi). pose proof (lo_max _ _ _ Ho). pose proof (lo_area _ _ _ Ho).
    unfold in_log, a. lia. }
  assert (Hna : n <> a) by (intros ->; tauto).
  pose proof (cs_clean _ _ _ _ _ _ a C Ha) as Hcl.
  unfold install_body. kdo (get_log_run w). rewrite Hl, (lo_n _ _ _ Ho).
  rewrite (proj2 (Z.ltb_lt _ _)) by (apply lookup_lt_Some in Hi; lia).
  rewrite (lo_start _ _ _ Ho), (lo_dev _ _ _ Ho), Eu, u32_id by lia. fold a.
  destruct (cs_bread w V R d F [] a C Hwk) as (lb & w1 & E1 & S1 & C1); [tauto|set_solver|left; lia|lia|].
  rewrite Ha, zero1_0 in C1. kdo E1.
  destruct (cs_bread w1 _ _ _ _ _ n C1 Hwk Hr) as (db & w2 & E2 & S2 & C2).
  { intros b [[= _ ?]|?]%elem_of_cons; [done|set_solver]. }
  { rewrite fupd_ne by done. destruct (decide (R n = 0)) as [E|]; [|by right].
    rewrite E, zero1_0 in HF. left. lia. }
  { by rewrite fupd_ne. }
  fsimp_in C2. kdo E2. kdo (get_buf_run lb w2).
  destruct (cs_get _ _ _ _ _ _ _ lb a C2) as [Ed _]; [set_solver|]. rewrite Ed.
  destruct (cs_set _ _ _ _ _ _ _ db n (V a) C2) as (w3 & E3 & S3 & C3); [set_solver|rewrite fupd_eq; lia|].
  kdo E3. destruct (cs_bwrite _ _ _ _ _ _ _ db n C3) as (w4 & E4 & S4 & C4); [set_solver|].
  fsimp_in C4. kdo E4.
  destruct (cs_bunpin _ _ _ _ _ _ _ db n C4) as (w5 & E5 & S5 & C5); [set_solver|].
  fsimp_in C5. rewrite !(u32_id (R n + 1 - 1)) in C5 by lia. kdo E5.
  assert (Hft : db <> lb).
  { intros <-. apply Hna. eapply (cs_held_inj _ _ _ _ _ _ _ db n db a C5); set_solver. }
  destruct (cs_brelse _ _ _ _ _ _ _ lb a C5) as (w6 & E6 & S6 & C6); [set_solver| |].
  { intros _. rewrite fupd_ne, disk_block_write, decide_False by (by apply not_eq_sym). done. }
  fsimp_in C6. kdo E6. rewrite (unhold_ne lb db), unhold_eq in C6 by done.
  destruct (cs_brelse _ _ _ _ _ _ _ db n C6) as (w7 & E7 & S7 & C7); [set_solver| |].
  { intros _. by rewrite fupd_eq, disk_block_write, decide_True. }
  fsimp_in C7. kdo E7. exists w7. split; [done|]. split; [by do 6 (etrans; [eassumption|])|].
  rewrite unhold_eq in C7. change (u32 (0 + 1 - 1)) with 0 in C7.
  replace (R n + 1 - 1) with (R n) in C7 by lia.
  eapply cs_ext; [exact C7|done|..].
  - intros m. unfold fupd. repeat case_decide; subst; lia.
  - rewrite zero1_0, (zero1_ne (R n + 1)), (zero1_ne (0 + 1)) by lia.
    unfold zero1 in *. repeat case_decide; lia.
  - intros j _ [[[[]|?] _] ?]. done.
Qed.

(** Leaving the loops. *)
Lemma write_log_done w l st Bs : compc w = l -> log_ok l st Bs ->
  write_log_body (Z.of_nat (length Bs)) w = Ok (inr (), w).
Proof.
  intros Hl Ho. unfold write_log_body. kdo (get_log_run w). rewrite Hl, (lo_n _ _ _ Ho).
  by rewrite Z.ltb_irrefl.
Qed.
Lemma install_done w l st Bs : compc w = l -> log_ok l st Bs ->
  install_body (Z.of_nat (length Bs)) w = Ok (inr (), w).
Proof.
  intros Hl Ho. unfold install_body. kdo (get_log_run w). rewrite Hl, (lo_n _ _ _ Ho).
  by rewrite Z.ltb_irrefl.
Qed.

Lemma write_log_loop m w V R d F l st Bs i fuel :
  log_ok l st Bs -> (forall n, n ∈ Bs -> 0 < R n < 2 ^ 32 - 1) -> refs_log st R -> (0 < F)%nat ->
  (i + m = length Bs)%nat -> (m < fuel)%nat -> compc w = l ->
  cs w (vws V (log_writes st V Bs i)) R (dws d (log_writes st V Bs i)) F none [] ->
  exists w', loop fuel write_log_body (Z.of_nat i) w = Ok ((), w') /\ cstep w w' /\
    cs w' (vws V (log_writes st V Bs (length Bs))) R (dws d (log_writes st V Bs (length Bs))) F none [].
Proof.
  intros Ho HR HL HF. revert i fuel w.
  induction m as [|m IH]; intros i [|fuel] w Hi Hf Hl C; try lia.
  - replace i with (length Bs) in * by lia. exists w. split; [|done].
    apply loop_exit. by eapply write_log_done.
  - destruct (lookup_lt_is_Some_2 Bs i) as [n Hn]; [lia|].
    assert (Hin : n ∈ Bs) by (by eapply list_elem_of_lookup_2). pose proof (HR n Hin).
    pose proof (log_block_in st Bs i (lo_max _ _ _ Ho) ltac:(lia)) as Ha.
    destruct (write_log_round w _ _ _ _ l st Bs i n C Hl Ho Hn) as (w1 & E1 & S1 & C1);
      [lia|lia|by apply HL|done|].
    rewrite (vws_notin _ _ n) in C1 by (by eapply home_not_log).
    rewrite <- vws_snoc, <- dws_snoc, <- (log_writes_S _ _ _ _ _ Hn) in C1.
    destruct (IH (Datatypes.S i) fuel w1) as (w2 & E2 & S2 & C2); [lia|lia| |done|].
    { by rewrite (cstep_log _ _ S1). }
    exists w2. split; [|split; [by etrans|done]]. rewrite <- E2.
    replace (Z.of_nat (Datatypes.S i)) with (Z.of_nat i + 1) by lia. by apply loop_next.
Qed.

Lemma write_log_ok w V R d F l st Bs :
  cs w V R d F none [] -> compc w = l -> log_ok l st Bs ->
  (forall n, n ∈ Bs -> 0 < R n < 2 ^ 32 - 1) -> refs_log st R -> (0 < F)%nat ->
  exists w', write_log w = Ok ((), w') /\ cstep w w' /\
    let ws := log_writes st V Bs (length Bs) in cs w' (vws V ws) R (dws d ws) F none [].
Proof.
  intros C Hl Ho HR HL HF. unfold write_log.
  apply (write_log_loop (length Bs) w V R d F l st Bs 0); try done.
  pose proof (lo_max _ _ _ Ho). unfold log_fuel, LOGSIZE, MAXOPBLOCKS in *. lia.
Qed.

Lemma install_loop m w V R d F l st Bs i fuel :
  log_ok l st Bs -> (forall n, R n < 2 ^ 32 - 1) -> refs_log st R ->
  (unref Bs R i < F)%nat -> (i + m = length Bs)%nat -> (m < fuel)%nat -> compc w = l ->
  cs w (vws V (home_writes st V Bs i)) (unpinned Bs R i) (dws d (home_writes st V Bs i)) F none [] ->
  exists w' F', loop fuel install_body (Z.of_nat i) w = Ok ((), w') /\ cstep w w' /\ (0 < F')%nat /\
    cs w' (vws V (home_writes st V Bs (length Bs))) (unpinned Bs R (length Bs))
      (dws d (home_writes st V Bs (length Bs))) F' none [].
Proof.
  intros Ho HR HL. revert i fuel w F.
  induction m as [|m IH]; intros i [|fuel] w F HF Hi Hf Hl C; try lia.
  - replace i with (length Bs) in * by lia. exists w, F. split; [|split_and!; [done|lia|done]].
    apply loop_exit. by eapply install_done.
  - destruct (lookup_lt_is_Some_2 Bs i) as [n Hn]; [lia|].
    pose proof (log_block_in st Bs i (lo_max _ _ _ Ho) ltac:(lia)) as Ha.
    pose proof (lo_nodup _ _ _ Ho) as Hnd. pose proof (unpinned_at Bs R i n Hnd Hn) as Hun.
    pose proof (unref_S Bs R i n Hn) as Hu.
    assert (Hnl : forall k, k ∈ take i Bs -> k <> st + Z.of_nat i + 1).
    { intros k Hk ->. destruct (lo_home _ _ _ Ho (st + Z.of_nat i + 1)); [|done].
      apply list_elem_of_lookup in Hk as [j Hj]. apply lookup_take_Some in Hj as [Hj _].
      by eapply list_elem_of_lookup_2. }
    destruct (install_round w _ _ _ _ l st Bs i n C Hl Ho Hn) as (w1 & E1 & S1 & C1).
    { by rewrite Hun. }
    { unfold unpinned. rewrite decide_False; [by apply HL|]. intros Hk. by apply (Hnl _ Hk). }
    { rewrite Hun. lia. }
    rewrite Hun in C1. rewrite (vws_notin _ _ (st + Z.of_nat i + 1)) in C1
      by (rewrite home_writes_fst; intros Hk; by apply (Hnl _ Hk)).
    rewrite <- vws_snoc, <- dws_snoc, <- (home_writes_S _ _ _ _ _ Hn) in C1.
    eapply (cs_ext _ _ _ _ (unpinned Bs R (Datatypes.S i))) in C1;
      [|done|intros k; by apply unpinned_S|reflexivity|by intros ? ?].
    edestruct (IH (Datatypes.S i) fuel w1) as (w2 & F2 & E2 & S2 & HF2 & C2); [|lia|lia| |exact C1|].
    { unfold zero1 in *. repeat case_decide; lia. } { by rewrite (cstep_log _ _ S1). }
    exists w2, F2. split; [|split; [by etrans|done]]. rewrite <- E2.
    replace (Z.of_nat (Datatypes.S i)) with (Z.of_nat i + 1) by lia. by apply loop_next.
Qed.

Lemma install_trans_ok w V R d F l st Bs :
  cs w V R d F none [] -> compc w = l -> log_ok l st Bs ->
  (forall n, R n < 2 ^ 32 - 1) -> refs_log st R -> (unref Bs R 0 < F)%nat ->
  exists w' F', install_trans w = Ok ((), w') /\ cstep w w' /\ (0 < F')%nat /\
    let ws := home_writes st V Bs (length Bs) in
    cs w' (vws V ws) (unpinned Bs R (length Bs)) (dws d ws) F' none [].
Proof.
  intros C Hl Ho HR HL HF. unfold install_trans.
  apply (install_loop (length Bs) w V R d F l st Bs 0); try done.
  pose proof (lo_max _ _ _ Ho). unfold log_fuel, LOGSIZE, MAXOPBLOCKS in *. lia.
Qed.

Lemma write_head_loop m w V R d F l st Bs i fuel b x :
  log_ok l st Bs -> R st <> 0 -> (i + m = length Bs)%nat -> (m < fuel)%nat -> compc w = l ->
  cs w (fupd V st (put_blocks (take i Bs) x)) R d F none [(b, st)] ->
  exists w', loop fuel (write_head_body b) (Z.of_nat i) w = Ok ((), w') /\ cstep w w' /\
    cs w' (fupd V st (put_blocks Bs x)) R d F none [(b, st)].
Proof.
  intros Ho HR. revert i fuel w.
  induction m as [|m IH]; intros i [|fuel] w Hi Hf Hl C; try lia.
  - replace i with (length Bs) in * by lia. rewrite firstn_all in C. exists w. split; [|done].
    apply loop_exit. unfold write_head_body. kdo (get_log_run w). rewrite Hl, (lo_n _ _ _ Ho).
    by rewrite Z.ltb_irrefl.
  - destruct (lookup_lt_is_Some_2 Bs i) as [n Hn]; [lia|].
    destruct (lh_at_eq l st Bs i n Ho Hn) as (El & _).
    destruct (cs_get _ _ _ _ _ _ _ b st C) as [Ed _]; [set_solver|]. rewrite fupd_eq in Ed.
    destruct (cs_set _ _ _ _ _ _ _ b st (put_hdr_block (Z.of_nat i) n (put_blocks (take i Bs) x)) C)
      as (w1 & E1 & S1 & C1); [set_solver|done|].
    eapply (cs_ext _ _ (fupd V st (put_blocks (take (Datatypes.S i) Bs) x))) in C1;
      [|..|done|done|by intros ? ?].
    2: { intros k. rewrite (take_S_r _ _ _ Hn), put_blocks_snoc, length_take_le by lia.
         unfold fupd. by repeat case_decide. }
    destruct (IH (Datatypes.S i) fuel w1) as (w2 & E2 & S2 & C2); [lia|lia| |done|].
    { by rewrite (cstep_log _ _ S1). }
    exists w2. split; [|split; [by etrans|done]]. rewrite <- E2.
    replace (Z.of_nat (Datatypes.S i)) with (Z.of_nat i + 1) by lia. apply loop_next.
    unfold write_head_body. kdo (get_log_run w). rewrite Hl, (lo_n _ _ _ Ho).
    rewrite (proj2 (Z.ltb_lt _ _)) by lia. kdo (get_buf_run b w). rewrite Ed, El. by kdo E1.
Qed.

Lemma write_head_ok w V R d F l st Bs :
  cs w V R d F none [] -> compc w = l -> log_ok l st Bs -> R st = 0 -> (0 < F)%nat ->
  exists w', write_head w = Ok ((), w') /\ cstep w w' /\
    cs w' (fupd V st (hdr Bs (V st))) R (disk_write d st (hdr Bs (V st))) F none [].
Proof.
  intros C Hl Ho HR HF. unfold write_head. kdo (get_log_run w). rewrite Hl.
  destruct (lo_area _ _ _ Ho) as [Ha1 Ha2].
  assert (Hst : st < 2 ^ 31) by (unfold LOGSIZE, MAXOPBLOCKS in *; lia).
  rewrite (lo_dev _ _ _ Ho), (lo_start _ _ _ Ho), u32_id, (lo_n _ _ _ Ho) by lia.
  destruct (cs_bread w V R d F [] st C Hwk) as (b & w1 & E1 & S1 & C1); [lia|set_solver|by left|lia|].
  kdo E1. kdo (get_buf_run b w1).
  destruct (cs_get _ _ _ _ _ _ _ b st C1) as [Ed _]; [set_solver|]. rewrite Ed.
  destruct (cs_set _ _ _ _ _ _ _ b st (put_hdr_n (Z.of_nat (length Bs)) (V st)) C1)
    as (w2 & E2 & S2 & C2); [set_solver|rewrite fupd_eq; lia|].
  kdo E2.
  destruct (write_head_loop (length Bs) w2 V (fupd R st (R st + 1)) d (F - zero1 (R st)) l st Bs 0
    log_fuel b (put_hdr_n (Z.of_nat (length Bs)) (V st)) Ho) as (w3 & E3 & S3 & C3); try done.
  { rewrite fupd_eq. lia. }
  { pose proof (lo_max _ _ _ Ho). unfold log_fuel, LOGSIZE, MAXOPBLOCKS in *. lia. }
  { by rewrite (cstep_log _ _ S2), (cstep_log _ _ S1). }
  kdo E3. destruct (cs_bwrite _ _ _ _ _ _ _ b st C3) as (w4 & E4 & S4 & C4); [set_solver|].
  fsimp_in C4. kdo E4.
  destruct (cs_brelse _ _ _ _ _ _ _ b st C4) as (w5 & E5 & S5 & C5); [set_solver| |].
  { intros _. by rewrite fupd_eq, disk_block_write, decide_True. }
  exists w5. split; [done|]. split; [by do 4 (etrans; [eassumption|])|].
  fsimp_in C5. rewrite unhold_eq, HR in C5. change (u32 (0 + 1 - 1)) with 0 in C5.
  eapply cs_ext; [exact C5|done|..].
  - intros m. unfold fupd. repeat case_decide; subst; lia.
  - rewrite zero1_0, zero1_ne by lia. lia.
  - intros j _ [[] _].
Qed.

(** *** Reading a header back *)

End Run.
