(* ===== verification/LogOps.v ===== *)
(** * The log: begin_op, log_write and end_op

    What a system call sees of the log: admission by begin_op, absorption of
    repeated writes by log_write, the reservation argument that keeps a group of
    operations inside the log, and what it does not cover. *)
From stdpp Require Import prelude gmap strings.
From Stdlib Require Import ZArith Lia.
From S2P Require Import Prelude Spinlock Riscv Proc Bytes State Sleeplock Bio BioView BioClient Log LogSpec.
Open Scope Z_scope.

Section Step.
Implicit Types (w : world kstate).

(** Only the cache and the header of the log changed. *)
Definition with_header (h : logheader) (l : log) : log :=
  Log (log_start l) (log_size l) (log_outstanding l) (log_committing l) (log_dev l) h.
Definition lstep w w' : Prop := cstep (updc (with_header (log_lh (compc w')) (compc w)) w) w'.

Lemma with_header_id l : with_header (log_lh l) l = l.
Proof. by destruct l. Qed.
Lemma lstep_header w w' : lstep w w' -> compc w' = with_header (log_lh (compc w')) (compc w).
Proof. intros S. pose proof (cstep_log _ _ S) as E. by rewrite compc_updc in E. Qed.

Lemma cstep_updc (l : log) w w' : cstep w w' -> cstep (updc l w) (updc l w').
Proof.
  intros [[F (E & L & P)] S]. split; [|done]. split; [done|]. split_and!; [|done..].
  cbn in *. rewrite E. done.
Qed.
Lemma cstep_lstep w w' : cstep w w' -> lstep w w'.
Proof. intros S. unfold lstep. by rewrite (cstep_log _ _ S), with_header_id, updc_compc. Qed.
Lemma lstep_log (l : log) w : l = with_header (log_lh l) (compc w) -> lstep w (updc l w).
Proof. intros E. unfold lstep. rewrite compc_updc, <- E. done. Qed.

#[export] Instance lstep_preorder : PreOrder lstep.
Proof.
  split.
  - intros w. unfold lstep. by rewrite with_header_id, updc_compc.
  - intros w1 w2 w3 S1 S2. pose proof (lstep_header _ _ S1) as E. unfold lstep in *. etrans; [|exact S2].
    apply (cstep_updc (with_header (log_lh (compc w3)) (compc w2))) in S1. rewrite updc_updc in S1.
    rewrite E in S1 at 1. exact S1.
Qed.

Lemma upd_log_run f w : upd_log f w = Ok ((), updc (f (compc w)) w).
Proof. done. Qed.

End Step.

(** The transaction after a block has been logged. *)
Definition logged (n : Z) (Bs : list Z) : list Z := if decide (n ∈ Bs) then Bs else Bs ++ [n].

(** ** The scan for an earlier write of the same block *)

Lemma absorb_notin n Bs tl : (forall m, m ∈ Bs -> 0 <= m < 2 ^ 31) -> n ∉ Bs ->
  absorb n (Bs ++ tl) (length Bs) = length Bs.
Proof.
  induction Bs as [|m Bs IH]; intros Hr Hn; [by destruct tl|]. cbn.
  apply not_elem_of_cons in Hn as [H1 H2].
  rewrite u32_id by (specialize (Hr m ltac:(set_solver)); lia).
  rewrite (proj2 (Z.eqb_neq _ _)) by done. rewrite IH; [done|set_solver|done].
Qed.

Lemma absorb_in n Bs tl : (forall m, m ∈ Bs -> 0 <= m < 2 ^ 31) -> n ∈ Bs ->
  Bs !! absorb n (Bs ++ tl) (length Bs) = Some n.
Proof.
  induction Bs as [|m Bs IH]; intros Hr Hn; [set_solver|]. cbn.
  rewrite u32_id by (specialize (Hr m ltac:(set_solver)); lia).
  bcase; [by subst|]. cbn. apply IH; set_solver.
Qed.

Section Ops.
Implicit Types (l : log).

(** Writing entry [i] as log_write does keeps the log well-formed. *)
Lemma log_ok_again l st Bs n : log_ok l st Bs -> n ∈ Bs ->
  log_ok (set_lh_block (Z.of_nat (absorb n (lh_block (log_lh l)) (Z.to_nat (lh_n (log_lh l))))) n l) st Bs.
Proof.
  intros [O1 O2 O3 O4 O5 O6 O7 O8 O9 O10] Hn.
  rewrite <- (take_drop (length Bs) (lh_block (log_lh l))), O6, O3, Nat2Z.id.
  pose proof (absorb_in n Bs (drop (length Bs) (lh_block (log_lh l))) (fun m Hm => proj1 (O8 m Hm)) Hn) as Hi.
  split; try done; cbn [set_lh_block log_lh lh_block]; rewrite ?length_insert; try done.
  rewrite Nat2Z.id, take_insert_lt by (by apply lookup_lt_Some in Hi). rewrite O6. by apply list_insert_id.
Qed.

Lemma log_ok_new l st Bs n : log_ok l st Bs -> n ∉ Bs -> (S (length Bs) < Z.to_nat LOGSIZE)%nat ->
  0 <= n < 2 ^ 31 -> ~ in_log st n ->
  log_ok (set_lh_n (lh_n (log_lh l) + 1) (set_lh_block (Z.of_nat (length Bs)) n l)) st (Bs ++ [n]).
Proof.
  intros [O1 O2 O3 O4 O5 O6 O7 O8 O9 O10] Hn Hlt Hr Hl.
  split; try done; cbn [set_lh_block set_lh_n log_lh lh_block lh_n]; rewrite ?length_insert, ?length_app; cbn [length]; try lia.
  - rewrite Nat2Z.id, Nat.add_1_r. rewrite (take_S_r _ _ n).
    + by rewrite take_insert_ge, O6 by lia.
    + apply list_lookup_insert_eq. lia.
  - apply NoDup_app. split_and!; [done|set_solver|apply NoDup_singleton].
  - intros m [Hm| ->%list_elem_of_singleton]%elem_of_app; [by apply O8|done].
Qed.
End Ops.

Section Spec.
Context {SC : Sched} {VD : VirtioDisk}.
Implicit Types (w : world kstate) (l : log) (V : Z -> blk) (R : Z -> Z).

Lemma updc_log_bc l (c : bcache) w : updc l (updc c w) = updc c (updc l w).
Proof. by destruct w as [? ? ? []]. Qed.

(** The references after a block has been logged: its first write pins it. *)
Definition pinned (n : Z) (Bs : list Z) (R : Z -> Z) : Z -> Z :=
  if decide (n ∈ Bs) then R else fupd R n (R n + 1).

Lemma cs_touch w V R d F ex H : cs w V R d F ex H -> cs (touch w) V R d F ex H.
Proof.
  intros [C1 C2 C3 C4 C5 C6 C7 C8 C9]. split; try done; [eauto with xv6|].
  intros b n Hb. destruct (C8 b n Hb) as (H1 & H2 & H3). split_and!; [done..|].
  destruct H3 as [H3 H4]. split; [done|]. unfold cur_pid in *. by rewrite c_proc_touch.
Qed.
Lemma lstep_touch w : lstep w (touch w).
Proof.
  unfold lstep. rewrite compc_touch, with_header_id, updc_compc. split; [|done]. split; [apply kframe_touch|].
  change (data (touch w)) with (data w). reflexivity.
Qed.

Lemma log_write_ok w V R d F ex H l st Bs b n : cs w V R d F ex H -> (b, n) ∈ H ->
  lock_free L_log w -> compc w = l -> log_ok l st Bs ->
  Z.of_nat (length Bs) < LOGSIZE -> Z.of_nat (length Bs) < log_size l - 1 -> 1 <= log_outstanding l ->
  0 < R n < 2 ^ 32 - 1 -> ~ in_log st n -> 0 <= n < 2 ^ 31 ->
  exists w' l', log_write b w = Ok ((), w') /\ lstep w w' /\ compc w' = l' /\
    log_ok l' st (logged n Bs) /\ log_outstanding l' = log_outstanding l /\ log_size l' = log_size l /\
    log_committing l' = log_committing l /\
    cs w' V (pinned n Bs R) d F ex H.
Proof.
  intros C Hb Hf Hl Ho Hlt Hsz Hout HR Hlog Hn. unfold log_write.
  pose proof (cs_quiet _ _ _ _ _ _ _ C) as Hq. pose proof (cs_unl _ _ _ _ _ _ _ C) as (Hbc & _).
  kdo (get_log_run w). rewrite Hl. pose proof (lo_n _ _ _ Ho) as Ln. pose proof (lo_len _ _ _ Ho) as Lb.
  rewrite Ln, !Z.geb_leb, !(proj2 (Z.leb_gt _ _)), (proj2 (Z.ltb_ge _ _)) by lia. cbn [orb].
  kacquire. kdo (get_log_run (acq L_log w)). kdo (get_buf_run b (acq L_log w)). knorm.
  destruct (cs_held _ _ _ _ _ _ _ C _ _ Hb) as ((_ & _ & Hno) & _).
  change (bufs (compc w) !!! b) with (buf_at (data w) b). rewrite Hno, i32_id by lia.
  kdo (upd_log_run (set_lh_block (Z.of_nat (absorb n (lh_block (log_lh (compc w)))
        (Z.to_nat (lh_n (log_lh (compc w)))))) n) (acq L_log w)).
  knorm. rewrite Hl. unfold logged, pinned.
  destruct (decide (n ∈ Bs)) as [Hin|Hin].
  - assert (E : Z.of_nat (absorb n (lh_block (log_lh l)) (Z.to_nat (lh_n (log_lh l)))) =? lh_n (log_lh l) = false).
    { rewrite <- (take_drop (length Bs) (lh_block (log_lh l))), (lo_blocks _ _ _ Ho), Ln, Nat2Z.id.
      pose proof (absorb_in n Bs (drop (length Bs) (lh_block (log_lh l)))
        (fun m Hm => proj1 (lo_home _ _ _ Ho m Hm)) Hin) as Hi. apply lookup_lt_Some in Hi.
      apply Z.eqb_neq. lia. }
    rewrite E. rewrite bind_mret.
    rewrite release_acq by eauto with xv6.
    do 2 eexists. split; [done|]. split; [etrans; [|apply lstep_touch]; apply lstep_log; by rewrite Hl|].
    rewrite compc_touch, compc_updc. split; [done|]. split_and!; [by apply log_ok_again|done..|].
    by apply cs_touch, cs_log.
  - assert (E : Z.of_nat (absorb n (lh_block (log_lh l)) (Z.to_nat (lh_n (log_lh l)))) = Z.of_nat (length Bs)).
    { rewrite <- (take_drop (length Bs) (lh_block (log_lh l))), (lo_blocks _ _ _ Ho), Ln, Nat2Z.id.
      rewrite absorb_notin; [done| |done]. intros m Hm. apply (lo_home _ _ _ Ho m Hm). }
    rewrite E, Ln, Z.eqb_refl. set (l1 := set_lh_block _ n l).
    destruct (cs_bpin w V R d F ex H b n C Hb HR) as (w1 & E1 & S1 & C1).
    rewrite (bpin_run b w Hq Hbc) in E1. injection E1 as <-.
    rewrite !bind_assoc. kdo (bpin_run b (acq L_log (updc l1 w)) ltac:(eauto with xv6) ltac:(eauto with xv6)).
    set (w2 := touch (updc _ (acq _ _))). rewrite !bind_assoc. kdo (get_log_run w2).
    kdo (upd_log_run (set_lh_n (lh_n (log_lh (compc w2)) + 1)) w2).
    unfold w2. rewrite !updc_acq, touch_acq by eauto with xv6. knorm.
    rewrite (compc_updc_ne1 (T1 := log) (T2 := bcache)), compc_updc.
    rewrite release_acq by eauto 6 with xv6.
    rewrite (compc_updc_ne1 (T1 := bcache) (T2 := log)), updc_log_bc, updc_updc, <- updc_log_bc, <- updc_touch.
    apply (cs_log _ _ _ _ _ _ _ (set_lh_n (lh_n (log_lh l) + 1) l1)) in C1.
    do 2 eexists. split; [done|]. split; [etrans; [by apply cstep_lstep|apply lstep_log; unfold l1; by rewrite <- Hl]|].
    rewrite compc_updc. split; [done|].
    split_and!; [|done..]. apply (log_ok_new l); try done. pose proof (lo_size _ _ _ Ho). lia.
Qed.

(** log_write outside the capacity of the log. *)
Lemma log_write_full b w : lh_n (log_lh (compc w)) >= LOGSIZE \/
  lh_n (log_lh (compc w)) >= log_size (compc w) - 1 ->
  log_write b w = Panic "too big a transaction".
Proof.
  intros H. unfold log_write. kdo (get_log_run w).
  assert (E : (lh_n (log_lh (compc w)) >=? LOGSIZE) || (lh_n (log_lh (compc w)) >=? log_size (compc w) - 1) = true)
    by (rewrite !Z.geb_leb; apply orb_true_iff; rewrite !Z.leb_le; lia).
  by rewrite E.
Qed.

(** Admission. *)
Definition admits (l : log) : Prop :=
  log_committing l = 0 /\ lh_n (log_lh l) + (log_outstanding l + 1) * MAXOPBLOCKS <= LOGSIZE.

Lemma begin_op_admit w : (0 < wakeups)%nat -> quiet w -> lock_free L_log w -> admits (compc w) ->
  begin_op w = Ok ((), touch (updc (set_outstanding (log_outstanding (compc w) + 1) (compc w)) w)).
Proof.
  intros Hw Hq Hf [H1 H2]. unfold begin_op. kacquire. destruct wakeups as [|k]; [lia|].
  apply loop_exit. unfold begin_op_body. kdo (get_log_run (acq L_log w)). knorm.
  rewrite H1. cbn [negb Z.eqb]. rewrite Z.gtb_ltb, (proj2 (Z.ltb_ge _ _)) by done.
  kdo (upd_log_run (set_outstanding (log_outstanding (compc w) + 1)) (acq L_log w)). knorm.
  by krelease.
Qed.

(** An operation that is not the last one only leaves and wakes up the others. *)
Lemma end_op_leave w : quiet w -> lock_free L_log w ->
  log_committing (compc w) = 0 -> log_outstanding (compc w) <> 1 ->
  end_op w = Ok ((), touch (updc (tab_map (woken Ch_log) (compc w))
               (updc (set_outstanding (log_outstanding (compc w) - 1) (compc w)) w))).
Proof.
  intros Hq Hf H1 H2. unfold end_op. kacquire. kdo (get_log_run (acq L_log w)). knorm.
  kdo (upd_log_run (set_outstanding (log_outstanding (compc w) - 1)) (acq L_log w)). knorm.
  set (w1 := updc _ w). kdo (get_log_run (acq L_log w1)). knorm. unfold w1 at 1 2. rewrite !compc_updc.
  cbn [set_outstanding log_committing log_outstanding]. rewrite H1. cbn [negb Z.eqb].
  rewrite (proj2 (Z.eqb_neq _ _)) by lia.
  assert (Hq1 : quiet w1) by (unfold w1; eauto with xv6).
  assert (Hf1 : lock_free L_log w1) by (unfold w1; eauto with xv6).
  rewrite !bind_assoc. krun wakeup_run. rewrite touch_acq by eauto with xv6. rewrite bind_mret.
  by krelease.
Qed.
End Spec.

(** ** The space of the log

    The in-memory log under the operations of all threads, in any order: [cr]
    has one entry per operation between begin_op and end_op, the number of
    different blocks it may still write.  Operations are expected to write at most
    MAXOPBLOCKS blocks each.  As in log_write, a block that is in the header already is
    found by the scan and takes no new entry. *)
Module LogSpace.

Inductive op_step : log * list Z -> log * list Z -> Prop :=
| S_begin l cr : admits l ->
    op_step (l, cr) (set_outstanding (log_outstanding l + 1) l, cr ++ [MAXOPBLOCKS])
| S_new l cr i c n : cr !! i = Some c -> 0 < c -> 0 <= n < 2 ^ 31 ->
    absorb n (lh_block (log_lh l)) (Z.to_nat (lh_n (log_lh l))) = Z.to_nat (lh_n (log_lh l)) ->
    op_step (l, cr) (set_lh_n (lh_n (log_lh l) + 1) (set_lh_block (lh_n (log_lh l)) n l), <[i := c - 1]> cr)
| S_again l cr n (k := absorb n (lh_block (log_lh l)) (Z.to_nat (lh_n (log_lh l)))) :
    cr <> [] -> (k < Z.to_nat (lh_n (log_lh l)))%nat -> op_step (l, cr) (set_lh_block (Z.of_nat k) n l, cr)
| S_leave l cr i : (i < length cr)%nat -> log_outstanding l <> 1 ->
    op_step (l, cr) (set_outstanding (log_outstanding l - 1) l, delete i cr)
| S_last l cr : log_outstanding l = 1 ->
    op_step (l, cr) (set_committing 1 (set_outstanding 0 l), [])
| S_commit l : log_committing l = 1 -> op_step (l, []) (set_committing 0 (set_lh_n 0 l), []).

Fixpoint sum (l : list Z) : Z := match l with [] => 0 | c :: l' => c + sum l' end.

Record inv (s : log * list Z) : Prop := {
  i_out : log_outstanding s.1 = Z.of_nat (length s.2);
  i_n : 0 <= lh_n (log_lh s.1);
  i_cr : Forall (fun c => 0 <= c <= MAXOPBLOCKS) s.2;
  i_space : lh_n (log_lh s.1) + sum s.2 <= LOGSIZE;
}.

Lemma sum_app a b : sum (a ++ b) = sum a + sum b.
Proof. induction a; cbn; lia. Qed.
Lemma sum_cons c l : sum (c :: l) = c + sum l.
Proof. done. Qed.
Lemma sum_insert l i c x : l !! i = Some c -> sum (<[i := x]> l) = sum l - c + x.
Proof.
  intros H. rewrite insert_take_drop by by eapply lookup_lt_Some.
  rewrite <- (take_drop_middle l i c H) at 3. rewrite !sum_app. cbn. lia.
Qed.
Lemma sum_delete l i : Forall (fun c => 0 <= c <= MAXOPBLOCKS) l -> sum (delete i l) <= sum l.
Proof.
  intros H. destruct (decide (i < length l)%nat) as [Hi|Hi].
  - apply lookup_lt_is_Some in Hi as [c E]. rewrite (delete_take_drop l i).
    pose proof (f_equal sum (take_drop_middle l i c E)) as Es. revert Es. rewrite !sum_app, sum_cons.
    rewrite Forall_lookup in H. specialize (H i c E). lia.
  - rewrite delete_take_drop, take_ge, drop_ge, app_nil_r by lia. done.
Qed.
Lemma sum_bound l : Forall (fun c => 0 <= c <= MAXOPBLOCKS) l ->
  0 <= sum l <= Z.of_nat (length l) * MAXOPBLOCKS.
Proof. unfold MAXOPBLOCKS. induction 1; cbn; lia. Qed.

Lemma space_step_inv s s' : op_step s s' -> inv s -> inv s'.
Proof.
  intros [l cr [_ Ha]|l cr i c n Hi Hc _ _|l cr n k _ Hk|l cr i Hi Ho|l cr Ho|l Hc] [I1 I2 I3 I4]; split; cbn in *;
    rewrite ?length_app, ?length_insert, ?sum_app, ?(sum_insert _ _ _ _ Hi); cbn; try lia; try done.
  - apply Forall_app. split; [done|]. repeat constructor; unfold MAXOPBLOCKS; lia.
  - pose proof (sum_bound cr I3). lia.
  - rewrite Forall_lookup in I3. pose proof (I3 i c Hi). apply Forall_insert; [by apply Forall_lookup|lia].
  - rewrite length_delete by by apply lookup_lt_is_Some. lia.
  - by apply Forall_delete.
  - pose proof (sum_delete cr i I3). lia.
  - pose proof (sum_bound cr I3). lia.
Qed.

Lemma space_reach_inv s s' : rtc op_step s s' -> inv s -> inv s'.
Proof. induction 1; eauto using space_step_inv. Qed.

(** The log after initlog, of a file system with [size] log blocks. *)
Definition start (size : Z) : log * list Z := (Log 2 size 0 0 ROOTDEV (Logheader 0 (repeat 0 30)), []).

Lemma space_start_inv size : inv (start size).
Proof. by split. Qed.

(** Steps in which no log_write finds the log full. *)
Definition safe_step (s s' : log * list Z) : Prop :=
  op_step s s' /\ lh_n (log_lh s'.1) <= LOGSIZE /\ lh_n (log_lh s'.1) <= log_size s'.1 - 1.

(** The fields that admission and log_write look at; the first [k] blocks of the header
    are 100, 101, ... *)
Definition counts (l : log) : Z * Z * Z * Z :=
  (log_size l, log_outstanding l, log_committing l, lh_n (log_lh l)).
Definition numbered (k : nat) : list Z := seqZ 100 (Z.of_nat k).
Definition filled (l : log) (k : nat) : Prop :=
  lh_n (log_lh l) = Z.of_nat k /\ length (lh_block (log_lh l)) = 30%nat /\ take k (lh_block (log_lh l)) = numbered k.

Lemma numbered_S k : numbered (S k) = numbered k ++ [100 + Z.of_nat k].
Proof. apply seqZ_S. Qed.
Lemma numbered_in k n : n ∈ numbered k -> 100 <= n < 100 + Z.of_nat k.
Proof. by intros ?%elem_of_seqZ. Qed.

(** Operation [i] writes [k] blocks that are not in the header yet. *)
Lemma fill l cr i c (k j : nat) : cr !! i = Some c -> Z.of_nat k <= c -> filled l j -> (j + k < 30)%nat -> log_size l = 30 ->
  exists l', rtc safe_step (l, cr) (l', <[i := c - Z.of_nat k]> cr) /\ filled l' (j + k) /\
    counts l' = (log_size l, log_outstanding l, log_committing l, Z.of_nat (j + k)).
Proof.
  revert l cr c j. induction k as [|k IH]; intros l cr c j Hi Hc (F1 & F2 & F3) Hj Hsz.
  - exists l. rewrite Z.sub_0_r, list_insert_id, Nat.add_0_r by done. split; [done|]. split; [done|]. unfold counts. by rewrite F1.
  - set (n := 100 + Z.of_nat j). set (l1 := set_lh_n (lh_n (log_lh l) + 1) (set_lh_block (lh_n (log_lh l)) n l)).
    assert (Fl : filled l1 (S j)).
    { unfold filled, l1. cbn [set_lh_n set_lh_block log_lh lh_n lh_block]. rewrite F1, Nat2Z.id, length_insert. split_and!; [lia|done|].
      rewrite (take_S_r _ _ n) by (apply list_lookup_insert_eq; lia). by rewrite take_insert_ge, F3, numbered_S. }
    destruct (IH l1 (<[i := c - 1]> cr) (c - 1) (S j)) as (l' & R & F' & E); [|lia|done|lia|done|].
    { apply list_lookup_insert_eq. by eapply lookup_lt_Some. }
    exists l'. rewrite list_insert_insert_eq in R. replace (j + S k)%nat with (S j + k)%nat by lia. split; [|done].
    eapply rtc_l; [split; [eapply (S_new l cr i c n); [done|lia|unfold n; lia|]|]|].
    + rewrite F1, Nat2Z.id, <- (take_drop j (lh_block (log_lh l))), F3.
      assert (En : j = length (numbered j)) by (unfold numbered; rewrite length_seqZ; lia). pose proof (absorb_notin n (numbered j) (drop j (lh_block (log_lh l)))) as Ha.
      rewrite <- En in Ha. apply Ha; [intros m Hm%numbered_in; lia|]. intros Hm%numbered_in. unfold n in Hm. lia.
    + cbn. rewrite F1. unfold LOGSIZE, MAXOPBLOCKS. lia.
    + replace (c - Z.of_nat (S k)) with (c - 1 - Z.of_nat k) by lia. exact R.
Qed.
End LogSpace.

Section Props.
Context {SC : Sched} {VD : VirtioDisk}.
Implicit Types (w : world kstate) (l : log) (V : Z -> blk) (R : Z -> Z).

(** log_write puts the block of a held buffer into the transaction once,
    however often it is called, pins the buffer at the first write, and changes
    neither contents nor disk; with a full log it panics. *)
Theorem log_write_correct w V R d F H st Bs b n
  (C : cs w V R d F none H) (Hb : (b, n) ∈ H) (Hf : lock_free L_log w)
  (Ho : log_ok (compc w) st Bs) (Hout : 1 <= log_outstanding (compc w))
  (HR : 0 < R n < 2 ^ 32 - 1) (Hl : ~ in_log st n) (Hn : 0 <= n < 2 ^ 31) :
  if decide (Z.of_nat (length Bs) < LOGSIZE /\ Z.of_nat (length Bs) < log_size (compc w) - 1) then
    exists w', log_write b w = Ok ((), w') /\ log_ok (compc w') st (logged n Bs) /\
      (forall m, view (data w') m = view (data w) m) /\ ks_disk (data w') = ks_disk (data w) /\
      (forall m, refs (data w') m = if decide (m = n /\ n ∉ Bs) then R n + 1 else R m)
  else log_write b w = Panic "too big a transaction".
Proof.
  case_decide as Hc.
  - destruct (log_write_ok w V R d F none H _ st Bs b n C Hb Hf eq_refl Ho) as
      (w' & l' & E & _ & <- & Ho' & _ & _ & _ & C'); try tauto.
    exists w'. split; [done|]. split; [done|]. split_and!.
    + intros m. by rewrite (cs_view _ _ _ _ _ _ _ C), (cs_view _ _ _ _ _ _ _ C').
    + by rewrite (cs_disk _ _ _ _ _ _ _ C), (cs_disk _ _ _ _ _ _ _ C').
    + intros m. rewrite (cs_refs _ _ _ _ _ _ _ C'). unfold pinned, fupd.
      repeat case_decide; naive_solver.
  - apply log_write_full. rewrite (lo_n _ _ _ Ho). lia.
Qed.

(** C26: The reservation of begin_op: whatever the interleaving of operations, as long
    as each one writes at most MAXOPBLOCKS blocks, an operation that may still
    write finds room in the header. *)
Theorem log_space_reserved size s
  (Hs : rtc LogSpace.op_step (LogSpace.start size) s) (i : nat) (c : Z)
  (Hi : s.2 !! i = Some c) (Hc : 0 < c) : 0 <= lh_n (log_lh s.1) < LOGSIZE.
Proof.
  destruct (LogSpace.space_reach_inv _ _ Hs (LogSpace.space_start_inv size)) as [I1 I2 I3 I4].
  assert (0 <= LogSpace.sum (delete i s.2)).
  { apply (LogSpace.sum_bound (delete i s.2)). by apply Forall_delete. }
  pose proof (LogSpace.sum_insert s.2 i c 0 Hi). split; [done|].
  pose proof (f_equal LogSpace.sum (take_drop_middle s.2 i c Hi)) as E.
  rewrite (delete_take_drop s.2 i), LogSpace.sum_app in *. rewrite LogSpace.sum_cons in E. lia.
Qed.

(** C38: The reservation does not cover log_write's second limit, log.size - 1.  With
    the log of LOGSIZE blocks that mkfs makes, three operations are admitted, write
    29 different blocks between them, none of these writes panics, and then the third,
    which has written fewer than MAXOPBLOCKS blocks, panics at its next write. *)
Theorem log_space_gap :
  exists l cr i c, rtc LogSpace.safe_step (LogSpace.start LOGSIZE) (l, cr) /\
    lh_n (log_lh l) = 29 /\ NoDup (take 29 (lh_block (log_lh l))) /\
    cr !! i = Some c /\ 0 < c /\
    forall b w, compc w = l -> log_write b w = Panic "too big a transaction".
Proof.
  assert (B : forall (l : log) cr, admits l -> lh_n (log_lh l) = 0 -> log_size l = 30 ->
    LogSpace.safe_step (l, cr) (set_outstanding (log_outstanding l + 1) l, cr ++ [MAXOPBLOCKS])).
  { intros l cr Ha Hn Hs. split; [by apply LogSpace.S_begin|]. cbn. rewrite Hn, Hs. unfold LOGSIZE, MAXOPBLOCKS. lia. }
  set (l0 := (LogSpace.start LOGSIZE).1). set (l3 := set_outstanding 3 l0).
  assert (R3 : rtc LogSpace.safe_step (LogSpace.start LOGSIZE) (l3, [10; 10; 10])).
  { eapply rtc_l; [by apply (B l0 [])|]. eapply rtc_l; [by apply (B (set_outstanding 1 l0) [10])|].
    eapply rtc_l; [by apply (B (set_outstanding 2 l0) [10; 10])|]. done. }
  destruct (LogSpace.fill l3 [10; 10; 10] 0 10 10 0) as (l4 & R4 & F4 & E4); [done|lia|done|lia|done|]. injection E4 as S4 _ _ N4.
  destruct (LogSpace.fill l4 [0; 10; 10] 1 10 10 10) as (l5 & R5 & F5 & E5); [done|lia|done|lia|done|]. injection E5 as S5 _ _ N5.
  destruct (LogSpace.fill l5 [0; 0; 10] 2 10 9 20) as (l6 & R6 & F6 & E6); [done|lia|done|lia|by rewrite S5|]. injection E6 as S6 _ _ N6.
  exists l6, [0; 0; 1], 2%nat, 1. split_and!; [|done| |done|lia|].
  - etrans; [exact R3|]. etrans; [exact R4|]. etrans; [exact R5|]. exact R6.
  - destruct F6 as (_ & _ & F6). change (take 29 (lh_block (log_lh l6)) = LogSpace.numbered 29) in F6. rewrite F6. apply NoDup_seqZ.
  - intros b w Hl. apply log_write_full. right. rewrite Hl, N6, S6, S5, S4. done.
Qed.
End Props.

(** ** A transaction in progress *)

Definition ex_log : log := Log 2 30 1 0 ROOTDEV (Logheader 0 (repeat 0 30)).
Definition ex_disk0 : disk := Disk ∅ [].
Definition ex_view : Z -> blk := fupd (disk_block ex_disk0) 50 (repeat 7 1024).

(** The thread has read block 50 and changed it. *)
Lemma ex_changed : exists w b, cs w ex_view (fupd (fun _ => 0) 50 1) ex_disk0 29 none [(b, 50)] /\
  compc w = ex_log /\ lock_free L_log w.
Proof.
  destruct (cs_boot ex_disk0) as (w0 & C0 & _ & Hf & _). apply (cs_log _ _ _ _ _ _ _ ex_log) in C0.
  destruct (cs_bread (SC := ex_sched) (VD := ex_disk) (updc ex_log w0) _ _ _ _ _ 50 C0) as (b & w1 & _ & S1 & C1);
    [cbn; lia|lia|set_solver|left; unfold nbuf, NBUF, MAXOPBLOCKS; cbn; lia|lia|].
  destruct (cs_set w1 _ _ _ _ _ _ b 50 (repeat 7 1024) C1) as (w2 & _ & S2 & C2); [set_solver|by rewrite fupd_eq|].
  exists w2, b. split; [exact C2|]. rewrite (cstep_log _ _ S2), (cstep_log _ _ S1), compc_updc. split; [done|].
  destruct S1 as [[F1 _] _], S2 as [[F2 _] _]. eauto with xv6.
Qed.

Lemma ex_log_ok : log_ok ex_log 2 [].
Proof. split; try done; [vm_compute; lia|apply NoDup_nil_2|set_solver]. Qed.

Lemma log_write_correct_witness : exists b w w', log_write b w = Ok ((), w') /\
  log_ok (compc w') 2 [50] /\ refs (data w') 50 = 2.
Proof.
  destruct ex_changed as (w & b & C & L & Hf). exists b, w.
  pose proof (log_write_correct w _ _ _ _ _ 2 [] b 50 C ltac:(set_solver) Hf) as P.
  rewrite L in P. specialize (P ex_log_ok ltac:(cbn; lia) ltac:(rewrite fupd_eq; lia)
    ltac:(unfold in_log, LOGSIZE, MAXOPBLOCKS; lia) ltac:(lia)).
  rewrite decide_True in P by (cbn; unfold LOGSIZE, MAXOPBLOCKS; lia).
  destruct P as (w' & E & O & _ & _ & R). exists w'. split; [exact E|split; [exact O|]].
  rewrite R. reflexivity.
Defined.

(** An operation that has begun and may write ten blocks. *)
Lemma log_space_reserved_witness :
  exists s, rtc LogSpace.op_step (LogSpace.start 31) s /\ s.2 = [10] /\ 0 <= lh_n (log_lh s.1) < LOGSIZE.
Proof.
  set (l := (LogSpace.start 31).1). exists (set_outstanding 1 l, [10]).
  assert (R : rtc LogSpace.op_step (LogSpace.start 31) (set_outstanding 1 l, [10])).
  { eapply rtc_l; [by apply (LogSpace.S_begin l [])|]. done. }
  split; [exact R|]. split; [reflexivity|].
  apply (log_space_reserved 31 _ R 0 10); [reflexivity|lia].
Defined.
