(* ===== verification/FsTx.v ===== *)
(** * Transactions of the file system

    The state of a system call as fs.c works with it, between begin_op and end_op or
    (with capacity 0) outside:
    the contents [V] of every block, the disk [d], the blocks [Bs] in the
    transaction, the blocks [D] changed but not yet logged, the number [k] of
    buffers nobody refers to and the buffers [H] the thread holds.  The lemmas
    [tx_*] give the effect of bread, of a change to a buffer, of log_write and of
    brelse; the routines of fs.c are composed of these. *)
From stdpp Require Import prelude gmap strings.
From Stdlib Require Import ZArith Lia.
From S2P Require Import Prelude Spinlock Riscv Proc Bytes State Sleeplock Bio BioView BioClient Log LogSpec LogOps.
Open Scope Z_scope.

Definition ind (P : Prop) `{!Decision P} : Z := if decide P then 1 else 0.

Lemma ind_iff (P Q : Prop) `{!Decision P, !Decision Q} : (P <-> Q) -> ind P = ind Q.
Proof. intros E. unfold ind. by rewrite (decide_ext P Q). Qed.

Lemma ind_range (P : Prop) `{!Decision P} : 0 <= ind P <= 1.
Proof. unfold ind. case_decide; lia. Qed.

(** A block is referenced once by the log and once by a holder. *)
Definition trefs (Bs : list Z) (H : list (nat * Z)) (m : Z) : Z := ind (m ∈ Bs) + ind (m ∈ H.*2).

(** How many blocks log_write takes: none outside of begin_op and end_op. *)
Definition log_cap (l : log) : Z :=
  if log_outstanding l <? 1 then 0 else Z.min LOGSIZE (log_size l - 1).

Record tx (w : world kstate) (V : Z -> blk) (d : disk) (st cap : Z) (Bs D : list Z) (k : nat)
    (H : list (nat * Z)) : Prop := {
  tx_cs : cs w V (trefs Bs H) d k none H;
  tx_lk : lock_free L_log w;
  tx_log : log_ok (compc w) st Bs;
  tx_cap : log_cap (compc w) = cap;
  tx_clean : forall m, m ∉ Bs -> m ∉ D -> V m = disk_block d m;
}.

Lemma trefs_range Bs H m : 0 <= trefs Bs H m <= 2.
Proof. unfold trefs, ind. repeat case_decide; lia. Qed.

Lemma held_trefs Bs H b n : (b, n) ∈ H -> trefs Bs H n = ind (n ∈ Bs) + 1.
Proof.
  intros Hb. unfold trefs, ind at 2. rewrite decide_True; [done|]. apply list_elem_of_fmap. by exists (b, n).
Qed.

Lemma filter_keep {A} (P : A -> Prop) `{!forall x, Decision (P x)} (l : list A) :
  (forall x, x ∈ l -> P x) -> filter P l = l.
Proof.
  induction l as [|x l IH]; [done|]. intros Hl. rewrite filter_cons, decide_True by set_solver.
  f_equal. apply IH. set_solver.
Qed.

Lemma length_logged n Bs : length (logged n Bs) = (length Bs + (if decide (n ∈ Bs) then 0 else 1))%nat.
Proof. unfold logged. case_decide; rewrite ?length_app; cbn; lia. Qed.
Lemma elem_of_logged m n Bs : m ∈ logged n Bs <-> m ∈ Bs \/ m = n.
Proof. unfold logged. case_decide; set_solver. Qed.

Section Tx.
Context {SC : Sched} {VD : VirtioDisk}.
Implicit Types (w : world kstate).

Lemma tx_bread (Hwk : (0 < wakeups)%nat) w V d st cap Bs D k H n : tx w V d st cap Bs D k H ->
  0 <= n < 2 ^ 31 -> n ∉ H.*2 -> (0 < k)%nat \/ n ∈ Bs ->
  exists b w', bread ROOTDEV n w = Ok (b, w') /\ lstep w w' /\
    tx w' V d st cap Bs D (k - (if decide (n ∈ Bs) then 0 else 1))%nat ((b, n) :: H).
Proof.
  intros [T1 T2 T3 T5 T6] Hn Hh Hk.
  assert (Hr : trefs Bs H n = ind (n ∈ Bs)).
  { unfold trefs, ind at 2. rewrite decide_False by done. lia. }
  destruct (cs_bread w V _ d k H n T1 Hwk Hn) as (b & w' & E & S & C).
  { intros b Hb. apply Hh. apply list_elem_of_fmap. by exists (b, n). }
  { destruct Hk as [|Hin]; [by left|right]. rewrite Hr. unfold ind. by rewrite decide_True. }
  { pose proof (trefs_range Bs H n). lia. }
  exists b, w'. split; [done|]. split; [by apply cstep_lstep|].
  pose proof (cstep_log _ _ S) as L. split; rewrite ?L; try done.
  - replace (zero1 (trefs Bs H n)) with (if decide (n ∈ Bs) then 0%nat else 1%nat) in C.
    2:{ rewrite Hr. unfold ind, zero1. by repeat case_decide. }
    refine (cs_ext _ _ _ _ _ _ _ _ _ _ _ C (fun _ => eq_refl) _ eq_refl (fun _ H => H)). intros m. unfold fupd. destruct (decide (m = n)) as [E1|E1].
    + subst. rewrite Hr, (held_trefs _ _ b) by set_solver. done.
    + unfold trefs. f_equal. apply ind_iff. set_solver.
  - destruct S as [[F _] _]. eauto with xv6.
Qed.

Lemma tx_get w V d st cap Bs D k H b n : tx w V d st cap Bs D k H -> (b, n) ∈ H ->
  b_data (bufs (compc w) !!! b) = V n.
Proof. intros T Hb. eapply cs_get; [apply (tx_cs _ _ _ _ _ _ _ _ _ T)|done]. Qed.

Lemma tx_set w V d st cap Bs D k H b n x : tx w V d st cap Bs D k H -> (b, n) ∈ H ->
  exists w', upd_buf (set_data x) b w = Ok ((), w') /\ lstep w w' /\
    tx w' (fupd V n x) d st cap Bs (n :: D) k H.
Proof.
  intros [T1 T2 T3 T5 T6] Hb.
  destruct (cs_set w V _ d k none H b n x T1 Hb) as (w' & E & S & C).
  { rewrite (held_trefs _ _ _ _ Hb). pose proof (ind_range (n ∈ Bs)). lia. }
  exists w'. split; [done|]. split; [by apply cstep_lstep|].
  pose proof (cstep_log _ _ S) as L. split; rewrite ?L; try done.
  - destruct S as [[F _] _]. eauto with xv6.
  - intros m H1 [H2 H3]%not_elem_of_cons. rewrite fupd_ne by done. by apply T6.
Qed.

Lemma tx_log_write w V d st cap Bs D k H b n : tx w V d st cap Bs D k H -> (b, n) ∈ H ->
  Z.of_nat (length Bs) < cap -> ~ in_log st n -> 0 <= n < 2 ^ 31 ->
  exists w', log_write b w = Ok ((), w') /\ lstep w w' /\
    tx w' V d st cap (logged n Bs) (filter (.≠ n) D) k H.
Proof.
  intros [T1 T2 T3 T5 T6] Hb Hc Hl Hn.
  assert (Ho : 1 <= log_outstanding (compc w) /\ cap <= LOGSIZE /\ cap <= log_size (compc w) - 1).
  { rewrite <- T5 in Hc |- *. unfold log_cap in *. destruct (Z.ltb_spec (log_outstanding (compc w)) 1); lia. }
  destruct (log_write_ok w V _ d k none H _ st Bs b n T1 Hb T2 eq_refl T3) as
    (w' & l' & E & S & L & O & L1 & L2 & L3 & C); try done; try lia.
  { rewrite (held_trefs _ _ _ _ Hb). pose proof (ind_range (n ∈ Bs)). lia. }
  exists w'. split; [done|]. split; [done|]. rewrite <- L in O, L1, L2. split; try done.
  - refine (cs_ext _ _ _ _ _ _ _ _ _ _ _ C (fun _ => eq_refl) _ eq_refl (fun _ H => H)). intros m. unfold pinned, logged. case_decide as Hin; [done|].
    unfold fupd. destruct (decide (m = n)) as [E1|E1].
    + subst. rewrite !(held_trefs _ _ b) by done. unfold ind. repeat case_decide; set_solver.
    + unfold trefs. f_equal. apply ind_iff. set_solver.
  - destruct S as [[[F1 [F2 F3]] _] _]. destruct T2 as [nm T2]. exists nm. rewrite F2. done.
  - unfold log_cap. by rewrite L1, L2.
  - intros m H1 H2. apply T6.
    + unfold logged in H1. case_decide; set_solver.
    + intros H3. apply H2. apply list_elem_of_filter. split; [|done]. intros ->.
      apply H1. unfold logged. case_decide; set_solver.
Qed.

Lemma tx_brelse w V d st cap Bs D k H b n : tx w V d st cap Bs D k ((b, n) :: H) -> n ∉ H.*2 ->
  n ∈ Bs \/ n ∉ D ->
  exists w', brelse b w = Ok ((), w') /\ lstep w w' /\
    tx w' V d st cap Bs D (k + (if decide (n ∈ Bs) then 0 else 1))%nat H.
Proof.
  intros [T1 T2 T3 T5 T6] Hn Hd.
  assert (Hr : trefs Bs ((b, n) :: H) n - 1 = ind (n ∈ Bs)).
  { rewrite (held_trefs _ _ b) by set_solver. lia. }
  assert (Hu : u32 (ind (n ∈ Bs)) = ind (n ∈ Bs)).
  { apply u32_id. pose proof (ind_range (n ∈ Bs)). lia. }
  destruct (cs_brelse w V _ d k none _ b n T1 ltac:(set_solver)) as (w' & E & S & C).
  { rewrite Hr, Hu. intros Hz. apply T6; unfold ind in Hz; case_decide; naive_solver. }
  exists w'. split; [done|]. split; [by apply cstep_lstep|].
  assert (Hun : unhold b ((b, n) :: H) = H).
  { rewrite unhold_eq. unfold unhold. apply filter_keep. intros [b' n'] Hin. cbn. intros ->.
    destruct (cs_held_inj _ _ _ _ _ _ _ b n b n' T1 ltac:(set_solver) ltac:(set_solver)) as [Hb _].
    rewrite (Hb eq_refl) in Hn. apply Hn. apply list_elem_of_fmap. by exists (b, n'). }
  rewrite Hun, Hr, Hu in C. pose proof (cstep_log _ _ S) as L. split; rewrite ?L; try done.
  - replace (k + zero1 (ind (n ∈ Bs)) - zero1 (trefs Bs ((b, n) :: H) n))%nat with
      (k + (if decide (n ∈ Bs) then 0 else 1))%nat in C.
    2:{ replace (trefs Bs ((b, n) :: H) n) with (ind (n ∈ Bs) + 1) by lia.
        unfold ind. destruct (decide (n ∈ Bs)); [rewrite !zero1_ne by lia|rewrite zero1_0, zero1_ne by lia]; lia. }
    destruct C as [C1 C2 [l C3] C4 C5 C6 C7 C8 C9].
    split; try done.
    + exists l. by eapply minus_none.
    + intros m. rewrite C5. unfold fupd. destruct (decide (m = n)) as [E1|E1].
      * subst. unfold trefs, ind at 3. rewrite (decide_False (P := n ∈ H.*2)) by done. lia.
      * unfold trefs. f_equal. apply ind_iff. set_solver.
  - destruct S as [[F _] _]. eauto with xv6.
Qed.

(** What the transaction does not depend on may change. *)
Record apart (w w' : world kstate) : Prop := {
  ap_frame : kframe w w';
  ap_quiet : quiet w -> quiet w';
  ap_bc : ks_bc (data w') = ks_bc (data w);
  ap_disk : ks_disk (data w') = ks_disk (data w);
  ap_log : ks_log (data w') = ks_log (data w);
  ap_sl : forall i, ks_sl (data w') !!! L_buf i = ks_sl (data w) !!! L_buf i;
  ap_pid : cur_pid w' = cur_pid w;
}.

#[export] Instance apart_preorder : PreOrder apart.
Proof.
  split; [by intros w; split|]. intros w1 w2 w3 [A1 A2 A3 A4 A5 A6 A7] [B1 B2 B3 B4 B5 B6 B7].
  split; [by etrans|auto|congruence..| |congruence]. intros i. by rewrite B6.
Qed.

Lemma apart_touch w : apart w (touch w).
Proof. split; try done; [apply kframe_touch|apply quiet_touch|apply cur_pid_touch]. Qed.
Lemma apart_ic (c : icache) w : apart w (updc c w).
Proof. split; try done. intros; by apply quiet_updc. Qed.
Lemma apart_sl i (s : sleeplock) w : apart w (updc (<[L_inode i := s]> (compc (T := sltab) w)) w).
Proof.
  split; try done; [intros; by apply quiet_updc|].
  intros j. cbn. by rewrite lookup_total_insert_ne.
Qed.

Lemma apart_frame w w' : frame icache w w' -> apart w w'.
Proof.
  intros Hf. pose proof (frame_kframe _ _ Hf) as Hk. pose proof (kframe_cur _ _ Hk) as (_ & _ & Hp).
  assert (Hd : data w' = set_ic (compc w') (data w)) by exact (f_equal data Hf).
  split; rewrite ?Hd; try done.
  - intros [Q1 [p (R1 & R2 & R3)] Q3]. split; [by eapply kframe_cpu_ok| |].
    + exists p. unfold runs. rewrite Hp. split_and!; [done..|]. unfold compc. cbn. rewrite Hd. exact R3.
    + intros i Hi. eapply kframe_lock_free; [done|]. by apply Q3.
  - unfold cur_pid. rewrite Hp. case_match; [|done]. unfold compc. cbn. by rewrite Hd.
Qed.

Lemma cs_apart w w' V R d F ex H : apart w w' -> cs w V R d F ex H -> cs w' V R d F ex H.
Proof.
  intros [A1 A2 A3 A4 A5 A6 A7] [C1 (U1 & U2 & U3) [l [B1 B2 B3 B4 B5]] C4 C5 C6 C7 C8 C9].
  assert (Hb : forall i, buf_at (data w') i = buf_at (data w) i) by (intros i; unfold buf_at; by rewrite A3).
  assert (Hi : forall i n, is_buf (data w') i n <-> is_buf (data w) i n) by (intros i n; unfold is_buf; by rewrite Hb).
  split; [auto| | | | | | | |].
  - split_and!; [by eapply kframe_lock_free..|]. intros i Hlt. eapply kframe_lock_free; [done|]. by apply U3.
  - exists l. split; [by rewrite A3| | | |]; try setoid_rewrite Hb; rewrite ?A4; try done.
    + intros i j n. rewrite !Hi. apply B3.
    + intros i. rewrite A6. apply B5.
  - intros m. rewrite <- C4. unfold view, cached, buf_at. by rewrite A3, A4.
  - intros m. rewrite <- C5. unfold refs, cached, buf_at. by rewrite A3.
  - congruence.
  - rewrite <- C7. unfold nfree, buf_at. by rewrite A3.
  - intros b n Hin. destruct (C8 b n Hin) as (I1 & I2 & I3 & I4). rewrite Hi, Hb. split_and!; [done..|].
    unfold holds_buf, compc in *. cbn in *. by rewrite A6, A7.
  - intros i Hlt Hn. rewrite A6. by apply C9.
Qed.
Lemma tx_apart w w' V d st cap Bs D k H : apart w w' -> tx w V d st cap Bs D k H -> tx w' V d st cap Bs D k H.
Proof.
  intros A [T1 T2 T3 T5 T6]. assert (L : compc (T := log) w' = compc w) by exact (ap_log _ _ A).
  split; rewrite ?L; [by eapply cs_apart|eapply kframe_lock_free; [apply A|done]|done..].
Qed.

(** Write back a buffer of the transaction: change it, log it, release it. *)
Lemma tx_put w V d st cap Bs k H b n x : tx w V d st cap Bs [] k ((b, n) :: H) -> n ∉ H.*2 ->
  Z.of_nat (length Bs) < cap -> ~ in_log st n -> 0 <= n < 2 ^ 31 ->
  exists w', (upd_buf (set_data x) b ;; log_write b ;; brelse b : K kstate ()) w = Ok ((), w') /\
    (forall A (m : K kstate A), (upd_buf (set_data x) b ;; log_write b ;; brelse b ;; m) w = m w') /\
    lstep w w' /\ tx w' (fupd V n x) d st cap (logged n Bs) [] k H.
Proof.
  intros T Hh Hc Hl Hn.
  destruct (tx_set _ _ _ _ _ _ _ _ _ b n x T ltac:(set_solver)) as (w1 & E1 & S1 & T1).
  destruct (tx_log_write _ _ _ _ _ _ _ _ _ b n T1 ltac:(set_solver) Hc Hl Hn) as (w2 & E2 & S2 & T2).
  assert (Hin : n ∈ logged n Bs) by (unfold logged; case_decide; set_solver).
  rewrite filter_cons, decide_False in T2 by tauto. cbn in T2.
  destruct (tx_brelse _ _ _ _ _ _ _ _ _ b n T2 Hh ltac:(by left)) as (w3 & E3 & S3 & T3).
  rewrite decide_True, Nat.add_0_r in T3 by done.
  exists w3. split; [by kdo E1; kdo E2|]. split; [intros A m; by kdo E1; kdo E2; kdo E3|].
  split; [|done]. etrans; [exact S1|]. by etrans.
Qed.

(** Read a block and release it again. *)
Lemma tx_look (Hwk : (0 < wakeups)%nat) w V d st cap Bs D k H n : tx w V d st cap Bs D k H -> 0 <= n < 2 ^ 31 ->
  (0 < k)%nat \/ n ∈ Bs -> n ∉ D -> n ∉ H.*2 ->
  exists b w1 w2, bread ROOTDEV n w = Ok (b, w1) /\ b_data (bufs (compc w1) !!! b) = V n /\
    brelse b w1 = Ok ((), w2) /\ lstep w w1 /\ lstep w w2 /\ tx w2 V d st cap Bs D k H.
Proof.
  intros T Hn Hk Hd Hh.
  destruct (tx_bread Hwk _ _ _ _ _ _ _ _ _ n T Hn Hh Hk) as (b & w1 & E1 & S1 & T1).
  destruct (tx_brelse _ _ _ _ _ _ _ _ _ b n T1 Hh ltac:(by right)) as (w2 & E2 & S2 & T2).
  exists b, w1, w2. split; [done|]. split; [eapply tx_get; [done|set_solver]|]. split; [done|].
  split; [done|]. split; [by etrans|].
  replace k with (k - (if decide (n ∈ Bs) then 0 else 1) + (if decide (n ∈ Bs) then 0 else 1))%nat
    by (case_decide; naive_solver lia). done.
Qed.
End Tx.
