(* ===== verification/FsAlloc.v ===== *)
(** * fs.c: the block bitmap

    Which blocks are in use is one bit per block, in the bitmap blocks.  balloc
    takes the lowest free block, bfree gives one back; both are one transaction's
    worth of changes seen through FsTx.v. *)
From stdpp Require Import prelude gmap strings.
From Stdlib Require Import ZArith Lia.
From S2P Require Import Prelude Memory CString Spinlock Riscv Kalloc Vm Uaccess Proc Bytes State Sleeplock Copy Bio BioView BioClient Log Fs LogSpec LogOps FsTx.
Open Scope Z_scope.

(** ** Bits of a block *)

Definition bit (d : blk) (i : Z) : bool := Z.testbit (byte_at d (i / 8)) (i mod 8).

Lemma land_bit x j : 0 <= j -> (Z.land x (Z.shiftl 1 j) =? 0) = negb (Z.testbit x j).
Proof.
  intros Hj. rewrite Z.shiftl_1_l. destruct (Z.testbit x j) eqn:E; cbn.
  - apply Z.eqb_neq. intros H. assert (Hb : Z.testbit (Z.land x (2 ^ j)) j = false) by (rewrite H; apply Z.bits_0).
    rewrite Z.land_spec, Z.pow2_bits_true, E in Hb by done. done.
  - apply Z.eqb_eq, Z.bits_inj_0. intros i. rewrite Z.land_spec. destruct (decide (i = j)) as [->|Hi].
    + by rewrite E.
    + rewrite Z.pow2_bits_false by congruence. apply andb_false_r.
Qed.

Lemma lor_bit x j i : 0 <= j -> Z.testbit (Z.lor x (Z.shiftl 1 j)) i = Z.testbit x i || bool_decide (i = j).
Proof.
  intros Hj. rewrite Z.lor_spec, Z.shiftl_1_l. f_equal. case_bool_decide as E.
  - subst. by apply Z.pow2_bits_true.
  - apply Z.pow2_bits_false. congruence.
Qed.

Lemma clear_bit_spec x j i : 0 <= i -> 0 <= j ->
  Z.testbit (Z.land x (Z.lnot (Z.shiftl 1 j))) i = Z.testbit x i && negb (bool_decide (i = j)).
Proof.
  intros Hi Hj. rewrite Z.land_spec, Z.lnot_spec, Z.shiftl_1_l by done. f_equal. f_equal.
  case_bool_decide as E.
  - subst. by apply Z.pow2_bits_true.
  - apply Z.pow2_bits_false. congruence.
Qed.

(** Change the byte that has bit [j]. *)
Lemma bit_set_byte (d : blk) (f : Z -> Z) j i : length d = Z.to_nat BSIZE -> 0 <= j < BPB -> 0 <= i < BPB ->
  bit (set_byte (j / 8) (f (byte_at d (j / 8))) d) i =
  if decide (i / 8 = j / 8) then Z.testbit (f (byte_at d (j / 8))) (i mod 8) else bit d i.
Proof.
  unfold BPB, BSIZE, bit, set_byte, byte_at. intros Hl Hj Hi.
  assert (0 <= j / 8 < 1024) by (split; [apply Z.div_pos; lia|apply Z.div_lt_upper_bound; lia]).
  assert (0 <= i / 8 < 1024) by (split; [apply Z.div_pos; lia|apply Z.div_lt_upper_bound; lia]).
  case_decide as E.
  - rewrite E, list_lookup_total_insert_eq; [done|]. rewrite Hl. lia.
  - rewrite list_lookup_total_insert_ne; [done|]. intros H'. apply E. lia.
Qed.

Lemma div_mod_inj i j : i / 8 = j / 8 -> i mod 8 = j mod 8 -> i = j.
Proof. intros H1 H2. rewrite (Z.div_mod i 8), (Z.div_mod j 8) by lia. congruence. Qed.

Lemma bit_alloc (d : blk) j i : length d = Z.to_nat BSIZE -> 0 <= j < BPB -> 0 <= i < BPB ->
  bit (set_byte (j / 8) (Z.lor (byte_at d (j / 8)) (Z.shiftl 1 (j mod 8))) d) i = bit d i || bool_decide (i = j).
Proof.
  intros Hl Hj Hi. rewrite (bit_set_byte d (fun x => Z.lor x (Z.shiftl 1 (j mod 8)))) by done.
  pose proof (Z.mod_pos_bound j 8). case_decide as E.
  - rewrite lor_bit by lia. unfold bit. rewrite E. f_equal. apply bool_decide_ext.
    split; [|congruence]. by apply div_mod_inj.
  - rewrite bool_decide_false by (intros ->; done). by rewrite orb_false_r.
Qed.

Lemma bit_free (d : blk) j i : length d = Z.to_nat BSIZE -> 0 <= j < BPB -> 0 <= i < BPB ->
  bit (set_byte (j / 8) (Z.land (byte_at d (j / 8)) (Z.lnot (Z.shiftl 1 (j mod 8)))) d) i =
  bit d i && negb (bool_decide (i = j)).
Proof.
  intros Hl Hj Hi. rewrite (bit_set_byte d (fun x => Z.land x (Z.lnot (Z.shiftl 1 (j mod 8))))) by done.
  pose proof (Z.mod_pos_bound j 8). pose proof (Z.mod_pos_bound i 8). case_decide as E.
  - rewrite clear_bit_spec by lia. unfold bit. rewrite E. f_equal. f_equal. apply bool_decide_ext.
    split; [|congruence]. by apply div_mod_inj.
  - rewrite bool_decide_false by (intros ->; done). by rewrite andb_true_r.
Qed.

(** The scan of one bitmap block finds its first free bit. *)
Lemma scan_bits_spec fuel d b bi size : 0 <= bi -> BPB - bi < Z.of_nat fuel ->
  match scan_bits fuel d b bi size with
  | Some j => bi <= j < BPB /\ b + j < size /\ bit d j = false /\ forall i, bi <= i < j -> bit d i = true
  | None => forall i, bi <= i < BPB -> b + i < size -> bit d i = true
  end.
Proof.
  revert bi. induction fuel as [|f IH]; intros bi H0 Hf; cbn [scan_bits]; [lia|].
  destruct (Z.ltb_spec bi BPB), (Z.ltb_spec (b + bi) size); cbn [andb]; try (intros; lia).
  rewrite land_bit by (apply Z.mod_pos_bound; lia). fold (bit d bi).
  destruct (bit d bi) eqn:E; cbn [negb]; [|repeat split; [lia..|done|intros; lia]].
  specialize (IH (bi + 1) ltac:(lia) ltac:(lia)). destruct (scan_bits f d b (bi + 1) size) as [j|].
  - destruct IH as (I1 & I2 & I3 & I4). repeat split; try lia; [done|].
    intros i Hi. destruct (decide (i = bi)) as [->|]; [done|]. apply I4. lia.
  - intros i Hi Hs. destruct (decide (i = bi)) as [->|]; [done|]. apply IH; lia.
Qed.

(** ** The file system's bitmap *)

Definition used (V : Z -> blk) (sb : superblock) (n : Z) : bool := bit (V (BBLOCK n sb)) (n mod BPB).

(** The superblock describes a disk whose bitmap is outside the log. *)
Record bitmap_ok (sb : superblock) (st : Z) : Prop := {
  bm_size : 0 < sb_size sb < 2 ^ 31;
  bm_start : 0 <= sb_bmapstart sb /\ sb_bmapstart sb + sb_size sb / BPB < 2 ^ 31;
  bm_log : forall m, 0 <= m < sb_size sb -> ~ in_log st (BBLOCK m sb);
}.
Definition block_lens (V : Z -> blk) : Prop := forall n, length (V n) = Z.to_nat BSIZE.

(** [n] is the lowest free block, and a data block. *)
Record first_free (V : Z -> blk) (sb : superblock) (st n : Z) : Prop := {
  ff_range : 0 <= n < sb_size sb;
  ff_free : used V sb n = false;
  ff_low : forall m, 0 <= m < n -> used V sb m = true;
  ff_log : ~ in_log st n;
  ff_bm : forall m, 0 <= m < sb_size sb -> BBLOCK m sb <> n;
}.

Lemma lstep_sb w w' : lstep w w' -> compc (T := superblock) w' = compc w.
Proof. intros [[_ (E & _)] _]. unfold compc; cbn in *. by rewrite E. Qed.

Lemma BBLOCK_range sb st n : bitmap_ok sb st -> 0 <= n < sb_size sb -> 0 <= BBLOCK n sb < 2 ^ 31.
Proof.
  intros [B1 B2 _] Hn. unfold BBLOCK, BPB, BSIZE in *.
  assert (0 <= n / (1024 * 8) <= sb_size sb / (1024 * 8)); [|lia].
  split; [apply Z.div_pos; lia|apply Z.div_le_mono; lia].
Qed.

(** ** Allocating and freeing a block *)

(** What balloc does to the blocks. *)
Definition alloc_view (V : Z -> blk) (sb : superblock) (n : Z) : Z -> blk :=
  let bb := BBLOCK n sb in let bi := n mod BPB in
  fupd (fupd V bb (set_byte (bi / 8) (Z.lor (byte_at (V bb) (bi / 8)) (Z.shiftl 1 (bi mod 8))) (V bb))) n zero_block.

Definition alloc_blocks (sb : superblock) (n : Z) (Bs : list Z) : list Z := logged n (logged (BBLOCK n sb) Bs).

Lemma used_fupd_other V sb n x m : BBLOCK m sb <> n -> used (fupd V n x) sb m = used V sb m.
Proof. intros H. unfold used. by rewrite fupd_ne. Qed.

Lemma same_bitmap m n sb : BBLOCK m sb = BBLOCK n sb -> m mod BPB = n mod BPB -> m = n.
Proof.
  unfold BBLOCK. intros H1 H2. assert (HB : BPB <> 0) by done.
  rewrite (Z.div_mod m BPB), (Z.div_mod n BPB) by done. replace (m / BPB) with (n / BPB) by lia. lia.
Qed.

(** A change of bit [n] of the bitmap. *)
Lemma used_fupd V sb n x (f : bool -> bool -> bool) m :
  (forall b, f b false = b) ->
  (forall i, 0 <= i < BPB -> bit x i = f (bit (V (BBLOCK n sb)) i) (bool_decide (i = n mod BPB))) ->
  used (fupd V (BBLOCK n sb) x) sb m = f (used V sb m) (bool_decide (m = n)).
Proof.
  intros Hf Hx. unfold used. destruct (decide (BBLOCK m sb = BBLOCK n sb)) as [E|E].
  - rewrite E, fupd_eq, Hx by (apply Z.mod_pos_bound; done). f_equal. apply bool_decide_ext.
    split; [|by intros ->]. by eapply same_bitmap.
  - rewrite fupd_ne by done. rewrite bool_decide_false by (intros ->; done). by rewrite Hf.
Qed.

Lemma alloc_view_used V sb st n m : block_lens V -> first_free V sb st n -> 0 <= m < sb_size sb ->
  used (alloc_view V sb n) sb m = used V sb m || bool_decide (m = n).
Proof.
  intros Hl [F1 F2 F3 F4 F5] Hm. unfold alloc_view. rewrite used_fupd_other by by apply F5.
  apply (used_fupd V sb n _ orb); [intros []; done|]. intros i Hi.
  apply bit_alloc; [done|by apply Z.mod_pos_bound|done].
Qed.

(** Freeing a block. *)
Definition free_view (V : Z -> blk) (sb : superblock) (n : Z) : Z -> blk :=
  let bb := BBLOCK n sb in let bi := n mod BPB in
  fupd V bb (set_byte (bi / 8) (Z.land (byte_at (V bb) (bi / 8)) (Z.lnot (Z.shiftl 1 (bi mod 8)))) (V bb)).

Lemma free_view_used V sb n m : block_lens V ->
  used (free_view V sb n) sb m = used V sb m && negb (bool_decide (m = n)).
Proof.
  intros Hl. unfold free_view.
  apply (used_fupd V sb n _ (fun b c => b && negb c)); [intros []; done|]. intros i Hi.
  apply bit_free; [done|by apply Z.mod_pos_bound|done].
Qed.

Section Alloc.
Context {SC : Sched} {VD : VirtioDisk}.
Implicit Types (w : world kstate).
Context (Hwk : (0 < wakeups)%nat).

Lemma bzero_ok w V d st cap Bs k H n : tx w V d st cap Bs [] k H -> 0 <= n < 2 ^ 31 -> ~ in_log st n ->
  Z.of_nat (length Bs) < cap -> n ∉ H.*2 -> (0 < k)%nat \/ n ∈ Bs ->
  exists w', bzero ROOTDEV n w = Ok ((), w') /\ lstep w w' /\
    tx w' (fupd V n zero_block) d st cap (logged n Bs) [] (k - (if decide (n ∈ Bs) then 0 else 1))%nat H.
Proof.
  intros T Hn Hl Hc Hh Hk. unfold bzero. rewrite u32_id by lia.
  destruct (tx_bread Hwk _ _ _ _ _ _ _ _ _ n T Hn Hh Hk) as (b & w1 & E1 & S1 & T1).
  destruct (tx_put _ _ _ _ _ _ _ _ b n zero_block T1 Hh Hc Hl Hn) as (w2 & E2 & _ & S2 & T2).
  exists w2. split; [by kdo E1|]. split; [by etrans|done].
Qed.

Lemma get_sb_run w : get_sb w = Ok (compc w, w).
Proof. done. Qed.

(** A block of bitmap [q]. *)
Lemma BBLOCK_at sb q j : 0 <= j < BPB -> BBLOCK (q * BPB + j) sb = BBLOCK (q * BPB) sb /\ (q * BPB + j) mod BPB = j.
Proof.
  unfold BBLOCK, BPB, BSIZE. intros Hj. replace (q * (1024 * 8) + j) with (j + q * (1024 * 8)) by lia.
  rewrite Z.mod_add, Z.mod_small, Z.div_add, Z.div_small, Z.div_mul by lia. lia.
Qed.

(** The thread holds none of the blocks balloc works on. *)
Definition bitmap_unheld (sb : superblock) (H : list (nat * Z)) : Prop :=
  forall m, 0 <= m < sb_size sb -> BBLOCK m sb ∉ H.*2.

Lemma balloc_round w V d st cap Bs k H sb q : tx w V d st cap Bs [] k H -> compc w = sb -> bitmap_ok sb st ->
  bitmap_unheld sb H -> 0 <= q -> q * BPB < sb_size sb -> (2 <= k)%nat ->
  (forall n, first_free V sb st n -> n ∉ H.*2 -> q * BPB <= n < q * BPB + BPB -> Z.of_nat (length Bs) + 2 <= cap ->
   exists w' k', balloc_body ROOTDEV (q * BPB) w = Ok (inr n, w') /\ lstep w w' /\
     tx w' (alloc_view V sb n) d st cap (alloc_blocks sb n Bs) [] k' H /\
     (k' + length (alloc_blocks sb n Bs) = k + length Bs)%nat) /\
  ((forall n, q * BPB <= n < q * BPB + BPB -> n < sb_size sb -> used V sb n = true) ->
   exists w', balloc_body ROOTDEV (q * BPB) w = Ok (inl ((q + 1) * BPB), w') /\ lstep w w' /\
     tx w' V d st cap Bs [] k H).
Proof.
  intros T Hsb Hbm Hun Hq Hlt Hk. assert (HB : 0 < BPB) by done.
  pose proof (BBLOCK_range sb st (q * BPB) Hbm ltac:(lia)) as Hbb.
  pose proof (scan_bits_spec (S (Z.to_nat BPB)) (V (BBLOCK (q * BPB) sb)) (q * BPB) 0 (sb_size sb)
    ltac:(lia) ltac:(lia)) as Hs.
  assert (Hu : forall j, 0 <= j < BPB -> used V sb (q * BPB + j) = bit (V (BBLOCK (q * BPB) sb)) j).
  { intros j Hj. unfold used. by destruct (BBLOCK_at sb q j Hj) as [-> ->]. }
  unfold balloc_body. kdo (get_sb_run w). rewrite Hsb, (proj2 (Z.ltb_lt _ _)) by done.
  rewrite u32_id by lia. split.
  - intros n [F1 F2 F3 F4 F5] Hnh Hn Hc. set (j := n - q * BPB) in *.
    assert (Hj : scan_bits (S (Z.to_nat BPB)) (V (BBLOCK (q * BPB) sb)) (q * BPB) 0 (sb_size sb) = Some j).
    { replace n with (q * BPB + j) in F2 by lia. rewrite Hu in F2 by lia.
      destruct (scan_bits _ _ _ _ _) as [i|].
      - f_equal. destruct Hs as (S1 & S2 & S3 & S4). destruct (Z.lt_trichotomy i j) as [?|[?|?]]; [|done|].
        + rewrite <- Hu, F3 in S3 by lia. done.
        + rewrite S4 in F2 by lia. done.
      - rewrite Hs in F2 by lia. done. }
    destruct (tx_bread Hwk _ _ _ _ _ _ _ _ _ (BBLOCK (q * BPB) sb) T Hbb (Hun (q * BPB) ltac:(lia)) ltac:(left; lia)) as (b & w1 & E1 & S1 & T1).
    kdo E1. kdo (get_buf_run b w1). rewrite (tx_get _ _ _ _ _ _ _ _ _ b _ T1) by by left. rewrite Hj.
    match goal with |- context [set_data ?y] => set (x := y) end.
    destruct (tx_put _ _ _ _ _ _ _ _ b _ x T1 (Hun (q * BPB) ltac:(lia))) as (w2 & _ & E2 & S2 & T2);
      [lia|apply (bm_log _ _ Hbm); lia|done|]. rewrite E2.
    replace (q * BPB + j) with n by lia.
    destruct (bzero_ok w2 _ d st cap _ _ H n T2) as (w3 & E3 & S3 & T3); [destruct Hbm; lia|done|..].
    { rewrite length_logged. case_decide; lia. }
    { done. }
    { left. case_decide; lia. }
    kdo E3. do 2 eexists. split; [done|]. split; [etrans; [exact S1|]; by etrans|].
    destruct (BBLOCK_at sb q j ltac:(lia)) as [Ea Eb]. replace (q * BPB + j) with n in * by lia.
    unfold alloc_view, alloc_blocks. rewrite Ea, Eb. split; [exact T3|].
    rewrite !length_logged. repeat case_decide; lia.
  - intros Hall. assert (Hj : scan_bits (S (Z.to_nat BPB)) (V (BBLOCK (q * BPB) sb)) (q * BPB) 0 (sb_size sb) = None).
    { destruct (scan_bits _ _ _ _ _) as [i|]; [|done]. destruct Hs as (S1 & S2 & S3 & S4).
      rewrite <- Hu, Hall in S3 by lia. done. }
    destruct (tx_look Hwk _ _ _ _ _ _ _ _ _ (BBLOCK (q * BPB) sb) T Hbb ltac:(left; lia) (not_elem_of_nil _) (Hun (q * BPB) ltac:(lia))) as (b & w1 & w2 & E1 & Ed & E2 & S1 & S2 & T2).
    kdo E1. kdo (get_buf_run b w1). rewrite Ed, Hj. kdo E2. exists w2. split; [|done].
    unfold mret, M_ret. do 3 f_equal. lia.
Qed.

Lemma balloc_panic w sb b : compc w = sb -> sb_size sb <= b -> balloc_body ROOTDEV b w = Panic "balloc: out of blocks".
Proof.
  intros Hsb Hb. unfold balloc_body. kdo (get_sb_run w). by rewrite Hsb, (proj2 (Z.ltb_ge _ _)).
Qed.

(** The loop of balloc from bitmap block [q] on. *)
Lemma balloc_loop fuel w V d st cap Bs k H sb q : tx w V d st cap Bs [] k H -> compc w = sb -> bitmap_ok sb st ->
  bitmap_unheld sb H -> 0 <= q -> (2 <= k)%nat -> sb_size sb / BPB + 2 <= q + Z.of_nat fuel -> Z.of_nat (length Bs) + 2 <= cap ->
  (forall n, first_free V sb st n -> n ∉ H.*2 -> q * BPB <= n ->
   exists w' k', loop fuel (balloc_body ROOTDEV) (q * BPB) w = Ok (n, w') /\ lstep w w' /\
     tx w' (alloc_view V sb n) d st cap (alloc_blocks sb n Bs) [] k' H /\
     (k' + length (alloc_blocks sb n Bs) = k + length Bs)%nat) /\
  ((forall n, 0 <= n < sb_size sb -> used V sb n = true) -> q <= sb_size sb / BPB + 1 ->
   loop fuel (balloc_body ROOTDEV) (q * BPB) w = Panic "balloc: out of blocks").
Proof.
  revert w q. induction fuel as [|f IH]; intros w q T Hsb Hbm Hun Hq Hk Hf Hc.
  { split; [|lia]. intros n [F1 _ _ _ _] _ Hn. unfold BPB, BSIZE in *.
    change (1024 * 8) with 8192 in *.
    pose proof (Z.div_le_mono (q * 8192) (sb_size sb) 8192 ltac:(lia) ltac:(lia)) as Hd.
    rewrite Z.div_mul in Hd by lia. lia. }
  destruct (decide (q * BPB < sb_size sb)) as [Hlt|Hge].
  - destruct (balloc_round w V d st cap Bs k H sb q T Hsb Hbm Hun Hq Hlt Hk) as [R1 R2].
    assert (Next : (forall n, q * BPB <= n < q * BPB + BPB -> n < sb_size sb -> used V sb n = true) ->
      exists w', loop (S f) (balloc_body ROOTDEV) (q * BPB) w = loop f (balloc_body ROOTDEV) ((q + 1) * BPB) w' /\
        lstep w w' /\ compc w' = sb /\ tx w' V d st cap Bs [] k H).
    { intros Hu. destruct (R2 Hu) as (w' & E & S' & T'). exists w'. split; [by apply loop_next|].
      split; [done|]. split; [|done]. rewrite <- Hsb. by apply lstep_sb. }
    split.
    + intros n Hn Hnh Hle. destruct (decide (n < q * BPB + BPB)) as [Hin|Hout].
      * destruct (R1 n Hn Hnh ltac:(lia) Hc) as (w' & k' & E & S' & T'). exists w', k'.
        split; [by apply loop_exit|done].
      * destruct Next as (w1 & E1 & S1 & Hsb1 & T1).
        { intros m Hm _. apply (ff_low _ _ _ _ Hn). unfold BPB, BSIZE in *. lia. }
        destruct (IH w1 (q + 1) T1 Hsb1 Hbm Hun) as [I1 _]; [lia..|].
        destruct (I1 n Hn Hnh ltac:(lia)) as (w' & k' & E & S' & T'). exists w', k'. rewrite E1.
        split; [done|]. split; [by etrans|done].
    + intros Hall Hqm. destruct Next as (w1 & E1 & S1 & Hsb1 & T1).
      { intros m Hm Hs. apply Hall. unfold BPB, BSIZE in *. lia. }
      rewrite E1. apply (IH w1 (q + 1)); try done; try lia.
      unfold BPB, BSIZE in *. change (1024 * 8) with 8192 in *.
      pose proof (Z.div_le_mono (q * 8192) (sb_size sb) 8192 ltac:(lia) ltac:(lia)) as Hd.
      rewrite Z.div_mul in Hd by lia. lia.
  - split; [intros n [F1 _ _ _ _] _ Hn; lia|]. intros _ _. cbn [loop].
    rewrite (bind_Panic _ _ _ "balloc: out of blocks"); [done|]. eapply balloc_panic; [done|lia].
Qed.

Lemma bfree_ok w V d st cap Bs k H sb n : tx w V d st cap Bs [] k H -> compc w = sb -> bitmap_ok sb st ->
  0 <= n < sb_size sb -> (0 < k)%nat \/ BBLOCK n sb ∈ Bs -> Z.of_nat (length Bs) < cap -> BBLOCK n sb ∉ H.*2 ->
  if used V sb n then
    exists w', bfree ROOTDEV n w = Ok ((), w') /\ lstep w w' /\
      tx w' (free_view V sb n) d st cap (logged (BBLOCK n sb) Bs) [] (k - (if decide (BBLOCK n sb ∈ Bs) then 0 else 1))%nat H
  else bfree ROOTDEV n w = Panic "freeing free block".
Proof.
  intros T Hsb Hbm Hn Hk Hc Hh. pose proof (BBLOCK_range sb st n Hbm Hn) as Hbb.
  destruct (tx_bread Hwk _ _ _ _ _ _ _ _ _ (BBLOCK n sb) T Hbb Hh Hk) as (b & w1 & E1 & S1 & T1).
  destruct (tx_put _ _ _ _ _ _ _ _ b _ (free_view V sb n (BBLOCK n sb)) T1 Hh) as (w2 & E2 & _ & S2 & T2);
    [lia|apply (bm_log _ _ Hbm); lia|done|].
  unfold free_view in E2 at 1. rewrite fupd_eq in E2.
  assert (Hgo : bfree ROOTDEV n w = if used V sb n then Ok ((), w2) else Panic "freeing free block").
  { unfold bfree. kdo (get_sb_run w). rewrite Hsb, u32_id by lia. kdo E1. kdo (get_buf_run b w1).
    rewrite (tx_get _ _ _ _ _ _ _ _ _ b _ T1) by by left.
    rewrite land_bit by (apply Z.mod_pos_bound; lia). fold (bit (V (BBLOCK n sb)) (n mod BPB)).
    fold (used V sb n). destruct (used V sb n); cbn [negb]; [exact E2|done]. }
  rewrite Hgo. destruct (used V sb n); [|done]. exists w2. split; [done|]. split; [by etrans|].
  unfold free_view in T2 at 1. rewrite fupd_eq in T2. exact T2.
Qed.
End Alloc.

Section Props.
Context {SC : Sched} {VD : VirtioDisk}.

(** balloc returns the lowest free block, zeroed, sets exactly its bit in the
    bitmap, changes no other block and puts the two blocks into the transaction
    (nothing reaches the disk); when every block is in use it panics.  The scan
    ends within its bound on rounds. *)
Theorem balloc_correct w V d st cap Bs k (sb : superblock)
  (Hwk : (0 < wakeups)%nat) (T : tx w V d st cap Bs [] k []) (Hsb : compc w = sb) (Hbm : bitmap_ok sb st)
  (Hl : block_lens V) (Hk : (2 <= k)%nat) (Hc : Z.of_nat (length Bs) + 2 <= cap) :
  (forall n, first_free V sb st n ->
   exists w' V' k', balloc ROOTDEV w = Ok (n, w') /\ lstep w w' /\
     tx w' V' d st cap (alloc_blocks sb n Bs) [] k' [] /\
     (forall m, 0 <= m < sb_size sb -> used V' sb m = used V sb m || bool_decide (m = n)) /\
     V' n = zero_block /\ (forall m, m <> n -> m <> BBLOCK n sb -> V' m = V m)) /\
  ((forall m, 0 <= m < sb_size sb -> used V sb m = true) ->
   balloc ROOTDEV w = Panic "balloc: out of blocks").
Proof.
  assert (Hq : 0 <= sb_size sb / BPB) by (apply Z.div_pos; [destruct Hbm; lia|done]).
  destruct (balloc_loop Hwk (S (S (Z.to_nat (sb_size sb / BPB)))) w V d st cap Bs k [] sb 0) as [L1 L2];
    try done; try lia; [intros m _; apply not_elem_of_nil|].
  unfold balloc. split.
  - intros n Hn. destruct (L1 n Hn (not_elem_of_nil _)) as (w' & k' & E & S' & T' & _); [destruct Hn; lia|].
    exists w', (alloc_view V sb n), k'. kdo (get_sb_run w). rewrite Hsb. split; [exact E|]. split; [done|].
    split; [done|]. split; [intros m Hm; by eapply alloc_view_used|].
    unfold alloc_view. split; [by rewrite fupd_eq|]. intros m H1 H2. by rewrite !fupd_ne.
  - intros Hall. kdo (get_sb_run w). rewrite Hsb. apply L2; [done|lia].
Qed.

(** bfree clears exactly the block's bit, so that balloc can hand it out again;
    freeing a block that is not in use is a panic. *)
Theorem bfree_correct w V d st cap Bs k (sb : superblock) n
  (Hwk : (0 < wakeups)%nat) (T : tx w V d st cap Bs [] k []) (Hsb : compc w = sb) (Hbm : bitmap_ok sb st)
  (Hl : block_lens V) (Hn : 0 <= n < sb_size sb) (Hk : (1 <= k)%nat) (Hc : Z.of_nat (length Bs) < cap) :
  if used V sb n then
    exists w' V' k', bfree ROOTDEV n w = Ok ((), w') /\ lstep w w' /\
      tx w' V' d st cap (logged (BBLOCK n sb) Bs) [] k' [] /\
      (forall m, used V' sb m = used V sb m && negb (bool_decide (m = n))) /\
      (forall m, m <> BBLOCK n sb -> V' m = V m)
  else bfree ROOTDEV n w = Panic "freeing free block".
Proof.
  pose proof (bfree_ok Hwk w V d st cap Bs k [] sb n T Hsb Hbm Hn ltac:(left; lia) Hc (not_elem_of_nil _)) as P.
  destruct (used V sb n); [|done]. destruct P as (w' & E & S' & T').
  do 3 eexists. split; [done|]. split; [done|]. split; [exact T'|].
  split; [intros m; by apply free_view_used|]. intros m Hm. unfold free_view. by rewrite fupd_ne.
Qed.
End Props.

(** ** A file system in use: blocks 0 to 45 are taken *)

Definition ex_sb : superblock := Superblock FSMAGIC 1000 954 200 30 2 32 45.
Definition ex_bitmap : blk := repeat 255 5 ++ [63] ++ repeat 0 1018.
Definition ex_fsdisk : disk := Disk {[45 := ex_bitmap]} [].

Lemma cs_sb w V R d F ex H (sb : superblock) : cs w V R d F ex H -> cs (updc sb w) V R d F ex H.
Proof.
  intros [C1 C2 [l0 [B1 B2 B3 B4 B5]] C4 C5 C6 C7 C8 C9]. split; try done; [eauto with xv6|].
  exists l0. by split.
Qed.

Lemma ex_tx (D : disk) (sb : superblock) : exists w,
  tx w (disk_block D) D 2 29 [] [] nbuf [] /\ compc w = sb /\ compc w = ex_log /\
  lock_free L_icache w /\ lock_free (L_inode 0) w.
Proof.
  destruct (cs_boot D) as (w0 & C0 & _ & Hf & Hf2 & _ & Hf3). exists (updc sb (updc ex_log w0)).
  split; [|split_and!; [done|done|eauto with xv6|apply lock_free_updc, lock_free_updc, Hf3; lia]]. split; try done.
  - by apply cs_sb, cs_log.
  - exact ex_log_ok.
Qed.

Lemma ex_lens : block_lens (disk_block ex_fsdisk).
Proof.
  intros n. unfold disk_block, ex_fsdisk. cbn. destruct (decide (n = 45)) as [->|Hn].
  - rewrite lookup_singleton_eq. reflexivity.
  - rewrite lookup_singleton_ne by done. reflexivity.
Qed.

Lemma ex_bm_ok : bitmap_ok ex_sb 2.
Proof.
  split; [cbn; lia|by vm_compute|]. intros m Hm. unfold in_log, BBLOCK, LOGSIZE, MAXOPBLOCKS, BPB, BSIZE. cbn in *.
  rewrite Z.div_small by lia. lia.
Qed.

Lemma ex_first_free : first_free (disk_block ex_fsdisk) ex_sb 2 46.
Proof.
  split; [cbn; lia|reflexivity| | |].
  - intros m Hm. assert (A : forallb (fun i => used (disk_block ex_fsdisk) ex_sb (Z.of_nat i)) (seq 0 46) = true)
      by reflexivity.
    rewrite forallb_forall in A. rewrite <- (Z2Nat.id m) by lia. apply A. apply in_seq. lia.
  - unfold in_log, LOGSIZE, MAXOPBLOCKS. lia.
  - intros m Hm. unfold BBLOCK, BPB, BSIZE. cbn in *. rewrite Z.div_small by lia. lia.
Qed.

Lemma balloc_correct_witness : exists w w' V', balloc (SC := ex_sched) (VD := ex_disk) ROOTDEV w = Ok (46, w') /\
  used V' ex_sb 46 = true /\ used V' ex_sb 47 = false /\ V' 46 = zero_block.
Proof.
  destruct (ex_tx ex_fsdisk ex_sb) as (w & T & Hsb & _). exists w.
  destruct (balloc_correct (SC := ex_sched) (VD := ex_disk) w _ _ _ _ _ _ ex_sb ltac:(cbn; lia) T Hsb ex_bm_ok ex_lens
    ltac:(unfold nbuf, NBUF, MAXOPBLOCKS; cbn; lia) ltac:(cbn; lia)) as [P _].
  destruct (P 46 ex_first_free) as (w' & V' & k' & E & _ & _ & U & Z0 & _).
  exists w', V'. split; [exact E|]. split; [|split; [|exact Z0]].
  - rewrite U by (cbn; lia). reflexivity.
  - rewrite U by (cbn; lia). reflexivity.
Defined.

Lemma bfree_correct_witness : exists w w' V', bfree (SC := ex_sched) (VD := ex_disk) ROOTDEV 45 w = Ok ((), w') /\
  used V' ex_sb 45 = false /\ used V' ex_sb 44 = true.
Proof.
  destruct (ex_tx ex_fsdisk ex_sb) as (w & T & Hsb & _). exists w.
  pose proof (bfree_correct (SC := ex_sched) (VD := ex_disk) w _ _ _ _ _ _ ex_sb 45 ltac:(cbn; lia) T Hsb ex_bm_ok ex_lens
    ltac:(cbn; lia) ltac:(unfold nbuf, NBUF, MAXOPBLOCKS; cbn; lia) ltac:(cbn; lia)) as P.
  change (used (disk_block ex_fsdisk) ex_sb 45) with true in P. cbv iota in P.
  destruct P as (w' & V' & k' & E & _ & _ & U & _). exists w', V'. split; [exact E|].
  rewrite !U. split; reflexivity.
Defined.
