(* ===== verification/FsInode.v ===== *)
(** * fs.c: inodes on disk and in the inode cache

    The layout of dinodes in their blocks, iupdate as an update of one inode of the
    disk, and the reference counts of the inode cache under iget, idup and iput. *)
From stdpp Require Import prelude gmap strings.
From Stdlib Require Import ZArith Lia.
From S2P Require Import Prelude Memory CString Spinlock Riscv Kalloc Vm Uaccess Proc Bytes State Sleeplock Copy Bio BioView BioClient Log Fs LogSpec LogOps FsTx FsAlloc.
Open Scope Z_scope.

(** ** The format of a dinode *)

Record dinode_ok (x : dinode) : Prop := {
  dk_type : - 2 ^ 15 <= d_type x < 2 ^ 15;
  dk_major : - 2 ^ 15 <= d_major x < 2 ^ 15;
  dk_minor : - 2 ^ 15 <= d_minor x < 2 ^ 15;
  dk_nlink : - 2 ^ 15 <= d_nlink x < 2 ^ 15;
  dk_size : 0 <= d_size x < 2 ^ 32;
  dk_len : length (d_addrs x) = 13%nat;
  dk_addrs : Forall (fun a => 0 <= a < 2 ^ 32) (d_addrs x);
}.

Lemma of_bytes_mod k v : of_bytes (bytes_of k v) = v mod 256 ^ Z.of_nat k.
Proof.
  revert v. induction k as [|k IH]; intros v; cbn [bytes_of of_bytes].
  - by rewrite Z.mod_1_r.
  - rewrite IH, Nat2Z.inj_succ, Z.pow_succ_r by lia. rewrite Z.rem_mul_r by lia. lia.
Qed.

Lemma i16_field v : - 2 ^ 15 <= v < 2 ^ 15 -> i16 (of_bytes (bytes_of 2 v)) = v.
Proof.
  intros Hv. rewrite of_bytes_mod. change (256 ^ Z.of_nat 2) with (2 ^ 16). unfold i16.
  rewrite Zplus_mod_idemp_l, Z.mod_small by lia. lia.
Qed.
Lemma u32_field v : 0 <= v < 2 ^ 32 -> of_bytes (bytes_of 4 v) = v.
Proof. intros Hv. by apply of_bytes_of. Qed.

Lemma length_dinode_bytes x : length (d_addrs x) = 13%nat -> length (dinode_bytes x) = 64%nat.
Proof.
  intros H. unfold dinode_bytes. destruct (d_addrs x) as [|? [|? [|? [|? [|? [|? [|? [|? [|? [|? [|? [|? [|? [|??]]]]]]]]]]]]]]; try discriminate.
  reflexivity.
Qed.

Lemma get_le_splice k o c xs d : (c + k <= length xs)%nat -> (o + length xs <= length d)%nat ->
  get_le k (o + c) (splice o xs d) = get_le k c xs.
Proof.
  intros Hc Ho. unfold get_le. f_equal. apply list_eq. intros i. rewrite !lookup_slice. case_decide; [|done].
  rewrite lookup_splice by done. rewrite decide_True by lia. f_equal. lia.
Qed.
Lemma get_le_splice_ne k o c xs d : (o + length xs <= length d)%nat ->
  (c + k <= o \/ o + length xs <= c)%nat -> get_le k c (splice o xs d) = get_le k c d.
Proof. intros Ho Hc. unfold get_le. by rewrite slice_splice_ne. Qed.

(** Reading from the encoding gives the fields back. *)
Lemma dinode_fields x : dinode_ok x ->
  i16 (get_le 2 0 (dinode_bytes x)) = d_type x /\ i16 (get_le 2 2 (dinode_bytes x)) = d_major x /\
  i16 (get_le 2 4 (dinode_bytes x)) = d_minor x /\ i16 (get_le 2 6 (dinode_bytes x)) = d_nlink x /\
  get_le 4 8 (dinode_bytes x) = d_size x /\
  ((fun k : nat => get_le 4 (12 + 4 * k) (dinode_bytes x)) <$> seq 0 13) = d_addrs x.
Proof.
  destruct x as [t ma mi nl sz ad]. intros [D1 D2 D3 D4 D5 D6 D7]. cbn [d_type d_major d_minor d_nlink d_size d_addrs] in *.
  destruct ad as [|? [|? [|? [|? [|? [|? [|? [|? [|? [|? [|? [|? [|? [|??]]]]]]]]]]]]]]; try discriminate.
  unfold dinode_bytes. cbn [d_type d_major d_minor d_nlink d_size d_addrs].
  split_and!; try (refine (eq_trans _ (i16_field _ _)); [reflexivity|done]).
  - refine (eq_trans _ (u32_field _ _)); [reflexivity|done].
  - rewrite !Forall_cons in D7. cbn [seq fmap list_fmap].
    repeat (apply f_equal2; [refine (eq_trans _ (u32_field _ _)); [reflexivity|tauto]|]). done.
Qed.

Lemma get_put_dinode i x d : dinode_ok x -> 0 <= i < IPB -> length d = Z.to_nat BSIZE ->
  get_dinode i (put_dinode i x d) = x.
Proof.
  unfold IPB, BSIZE, sizeof_dinode. intros Hx Hi Hl. change (1024 / 64) with 16 in Hi. unfold get_dinode, put_dinode, sizeof_dinode.
  pose proof (length_dinode_bytes x (dk_len _ Hx)) as Hb. set (o := Z.to_nat (64 * i)).
  assert (Ho : (o + length (dinode_bytes x) <= length d)%nat) by (subst o; lia).
  destruct (dinode_fields x Hx) as (F1 & F2 & F3 & F4 & F5 & F6).
  rewrite <- (Nat.add_0_r o) at 1. rewrite !get_le_splice, F1, F2, F3, F4, F5 by lia.
  replace ((fun k : nat => get_le 4 (o + 12 + 4 * k) (splice o (dinode_bytes x) d)) <$> seq 0 13) with (d_addrs x).
  - by destruct x.
  - rewrite <- F6 at 1. apply list_fmap_ext. intros j k Hk%lookup_seq. rewrite <- Nat.add_assoc, get_le_splice by lia. done.
Qed.

Lemma get_put_dinode_ne i j x d : length (d_addrs x) = 13%nat -> 0 <= i < IPB -> 0 <= j < IPB -> j <> i ->
  length d = Z.to_nat BSIZE -> get_dinode j (put_dinode i x d) = get_dinode j d.
Proof.
  unfold IPB, BSIZE, sizeof_dinode. intros Hx Hi Hj Hne Hl. change (1024 / 64) with 16 in Hi, Hj. unfold get_dinode, put_dinode, sizeof_dinode.
  pose proof (length_dinode_bytes x Hx) as Hb.
  rewrite !get_le_splice_ne by lia. f_equal. apply list_fmap_ext. intros a k Hk%lookup_seq.
  rewrite get_le_splice_ne by lia. done.
Qed.

Lemma length_put_dinode i x d : length (d_addrs x) = 13%nat -> 0 <= i < IPB -> length d = Z.to_nat BSIZE ->
  length (put_dinode i x d) = Z.to_nat BSIZE.
Proof.
  unfold IPB, BSIZE, sizeof_dinode. intros Hx Hi Hl. change (1024 / 64) with 16 in Hi. unfold put_dinode, sizeof_dinode.
  pose proof (length_dinode_bytes x Hx). rewrite length_splice by lia. done.
Qed.

(** What is in memory is well typed. *)
Lemma i16_range z : - 2 ^ 15 <= i16 z < 2 ^ 15.
Proof. unfold i16. pose proof (Z.mod_pos_bound (z + 2 ^ 15) (2 ^ 16)). lia. Qed.

Lemma get_le_range k off d : Forall byte d -> 0 <= get_le k off d < 256 ^ Z.of_nat k.
Proof.
  intros Hd. unfold get_le, slice. pose proof (of_bytes_range (take k (drop off d)) (Forall_take _ _ _ (Forall_drop _ _ _ Hd))) as Hr.
  assert (256 ^ Z.of_nat (length (take k (drop off d))) <= 256 ^ Z.of_nat k); [|lia].
  apply Z.pow_le_mono_r; [lia|]. rewrite length_take. lia.
Qed.

Lemma get_dinode_ok i d : Forall byte d -> dinode_ok (get_dinode i d).
Proof.
  intros Hd. split; cbn [get_dinode d_type d_major d_minor d_nlink d_size d_addrs]; try apply i16_range.
  - by apply get_le_range.
  - done.
  - apply Forall_fmap, Forall_forall. intros k _. by apply get_le_range.
Qed.

(** ** iupdate *)

Definition dinode_at (V : Z -> blk) (sb : superblock) (i : Z) : dinode := get_dinode (i mod IPB) (V (IBLOCK i sb)).

(** The superblock describes a disk whose inode blocks are outside the log. *)
Record inodes_ok (sb : superblock) (st : Z) : Prop := {
  in_start : 0 <= sb_inodestart sb;
  in_range : forall i, 0 <= i < sb_ninodes sb -> IBLOCK i sb < 2 ^ 31;
  in_nolog : forall i, 0 <= i < sb_ninodes sb -> ~ in_log st (IBLOCK i sb);
}.

Lemma IBLOCK_range sb st i : inodes_ok sb st -> 0 <= i < sb_ninodes sb -> 0 <= IBLOCK i sb < 2 ^ 31.
Proof.
  intros [B1 B2 _] Hi. split; [|by apply B2]. unfold IBLOCK. assert (0 <= i / IPB) by (apply Z.div_pos; [lia|done]). lia.
Qed.

(** Writing one dinode changes no other. *)
Lemma dinode_at_put V sb n x j : block_lens V -> dinode_ok x -> 0 <= n -> 0 <= j ->
  dinode_at (fupd V (IBLOCK n sb) (put_dinode (n mod IPB) x (V (IBLOCK n sb)))) sb j =
  if decide (j = n) then x else dinode_at V sb j.
Proof.
  intros Hl Hx Hn Hj. unfold dinode_at. assert (HI : 0 < IPB) by done.
  pose proof (Z.mod_pos_bound n IPB HI). pose proof (Z.mod_pos_bound j IPB HI).
  destruct (decide (IBLOCK j sb = IBLOCK n sb)) as [E|E].
  - rewrite E, fupd_eq. case_decide as Hjn.
    + subst. by apply get_put_dinode.
    + rewrite get_put_dinode_ne; try done; [by rewrite dk_len|]. intros Em. apply Hjn. unfold IBLOCK in E.
      rewrite (Z.div_mod n IPB), (Z.div_mod j IPB) by lia. replace (j / IPB) with (n / IPB) by lia. lia.
  - rewrite fupd_ne by done. rewrite decide_False by (intros ->; done). done.
Qed.

Lemma lstep_ic w w' : lstep w w' -> compc (T := icache) w' = compc w.
Proof. intros [[_ (E & _)] _]. unfold compc; cbn in *. by rewrite E. Qed.

Lemma get_inode_run i w : get_inode i w = Ok (inodes (compc w) !!! i, w).
Proof. done. Qed.

Section Inode.
Context {SC : Sched} {VD : VirtioDisk}.
Implicit Types (w : world kstate).

Lemma iupdate_ok (Hwk : (0 < wakeups)%nat) w V d st cap Bs k sb i ip :
  tx w V d st cap Bs [] k [] -> compc w = sb -> inodes_ok sb st -> block_lens V ->
  inodes (compc w) !!! i = ip -> i_dev ip = ROOTDEV -> 0 <= i_inum ip < sb_ninodes sb ->
  (1 <= k)%nat -> Z.of_nat (length Bs) < cap ->
  exists w' k', iupdate i w = Ok ((), w') /\ lstep w w' /\
    tx w' (fupd V (IBLOCK (i_inum ip) sb) (put_dinode (i_inum ip mod IPB) (dinode_of ip) (V (IBLOCK (i_inum ip) sb))))
      d st cap (logged (IBLOCK (i_inum ip) sb) Bs) [] k' [] /\
    (k' + length (logged (IBLOCK (i_inum ip) sb) Bs) = k + length Bs)%nat.
Proof.
  intros T Hsb Hin Hl Hip Hdev Hr Hk Hc. pose proof (IBLOCK_range sb st _ Hin Hr) as Hb.
  unfold iupdate. kdo (get_inode_run i w). rewrite Hip. kdo (get_sb_run w). rewrite Hsb, Hdev, u32_id by lia.
  destruct (tx_bread Hwk _ _ _ _ _ _ _ _ _ (IBLOCK (i_inum ip) sb) T Hb (not_elem_of_nil _) ltac:(left; lia)) as (b & w1 & E1 & S1 & T1).
  kdo E1. kdo (get_buf_run b w1). rewrite (tx_get _ _ _ _ _ _ _ _ _ b _ T1) by by left.
  match goal with |- context [set_data ?y] => set (x := y) end.
  destruct (tx_put _ _ _ _ _ _ _ _ b _ x T1 (not_elem_of_nil _) Hc) as (w2 & E2 & _ & S2 & T2);
    [by apply (in_nolog _ _ Hin)|done|].
  do 2 eexists. split; [exact E2|]. split; [by etrans|]. split; [exact T2|].
  rewrite length_logged. case_decide; lia.
Qed.

(** ** ilock *)

Lemma upd_inode_run f i w : upd_inode f i w = Ok ((), updc (Icache (alter f i (inodes (compc w)))) w).
Proof. done. Qed.

Lemma list_alter_total {A} `{!Inhabited A} (f : A -> A) i (l : list A) : (i < length l)%nat ->
  alter f i l = <[i := f (l !!! i)]> l.
Proof.
  intros Hi. destruct (lookup_lt_is_Some_2 _ _ Hi) as [x Hx]. rewrite (list_lookup_total_correct _ _ _ Hx).
  rewrite list_insert_alter. apply list_alter_ext; [|done]. intros y Hy. congruence.
Qed.

(** The inode as ilock leaves it. *)
Definition loaded (V : Z -> blk) (sb : superblock) (ip : inode) : inode :=
  if i_valid ip =? 0 then set_i_valid 1 (set_i_dinode (dinode_at V sb (i_inum ip)) ip) else ip.

(** The running process holds the sleep lock of inode [i]. *)
Definition holds_inode w i : Prop :=
  let s := compc (T := sltab) w !!! L_inode i in sl_locked s <> 0 /\ sl_pid s = cur_pid w.

Record unlocked_inode w i : Prop := {
  ui_spin : lock_free (L_inode i) w;
  ui_sleep : sl_locked (compc (T := sltab) w !!! L_inode i) = 0;
}.

(** From [w] to [w'] the locks are the same but for the sleep lock of inode [i], and so
    is the superblock. *)
Record ikeeps (i : nat) w w' : Prop := {
  ik_frame : kframe w w';
  ik_sb : compc (T := superblock) w' = compc w;
  ik_sl : forall j, j <> i -> compc (T := sltab) w' !!! L_inode j = compc (T := sltab) w !!! L_inode j;
}.
#[export] Instance ikeeps_preorder i : PreOrder (ikeeps i).
Proof.
  split; [by intros w|]. intros w1 w2 w3 [A1 B1 C1] [A2 B2 C2].
  split; [by etrans|congruence|]. intros j Hj. by rewrite C2, C1.
Qed.
Lemma ikeeps_unlocked i j w w' : ikeeps i w w' -> j <> i -> unlocked_inode w j -> unlocked_inode w' j.
Proof. intros [K1 K2 K3] Hj [U1 U2]. split; [by eapply kframe_lock_free|]. by rewrite K3. Qed.
Lemma ikeeps_ic i (c : icache) w : ikeeps i w (updc c w).
Proof. done. Qed.
Lemma ikeeps_lstep i w w' : lstep w w' -> ikeeps i w w'.
Proof.
  intros S. pose proof S as [[F (E & _)] S2]. split; [exact F| |intros j _; exact (S2 j)].
  unfold compc; cbn in *. by rewrite E.
Qed.
Lemma ikeeps_frame i w w' : frame icache w w' -> ikeeps i w w'.
Proof.
  intros F. pose proof (frame_kframe _ _ F) as K.
  assert (Hd : data w' = set_ic (compc w') (data w)) by exact (f_equal data F).
  split; [done|..]; unfold compc in *; cbn in *; rewrite Hd; done.
Qed.

Lemma ilock_take (Hwk : (0 < wakeups)%nat) w i : quiet w -> unlocked_inode w i ->
  exists w1, acquiresleep (L_inode i) w = Ok ((), w1) /\ apart w w1 /\ holds_inode w1 i /\
    compc (T := icache) w1 = compc w /\ ikeeps i w w1.
Proof.
  intros Hq [U1 U2]. eexists. split; [by apply acquiresleep_run|].
  split; [etrans; [apply apart_sl|apply apart_touch]|].
  split; [|split; [done|]].
  2:{ split; [etrans; [|apply kframe_touch]; done|done|]. intros j Hj. rewrite compc_touch, compc_updc.
      by rewrite lookup_total_insert_ne by congruence. } unfold holds_inode. rewrite compc_touch, compc_updc, cur_pid_touch, cur_pid_updc.
  rewrite lookup_total_insert_eq. done.
Qed.

(** iunlock gives the lock back; sleepers on it are woken. *)
Lemma apart_woken c w : apart w (updc (tab_map (woken c) (compc w)) w).
Proof.
  assert (B : bstep w (updc (tab_map (woken c) (compc w)) w)) by (split; [done|apply bstep_tab_map, ident_woken]).
  split; try done; [by apply bstep_quiet|by apply bstep_pid].
Qed.
Lemma iunlock_ok w i : quiet w -> lock_free (L_inode i) w -> holds_inode w i -> 1 <= i_ref (inodes (compc w) !!! i) ->
  exists w', iunlock (Some i) w = Ok ((), w') /\ apart w w' /\ unlocked_inode w' i /\
    compc (T := icache) w' = compc w /\ ikeeps i w w'.
Proof.
  intros Hq Hf [H1 H2] Hr. unfold iunlock. kdo (holdingsleep_run (L_inode i) w Hq Hf I). kdo (get_inode_run i (touch w)).
  rewrite compc_touch. rewrite (proj2 (Z.eqb_neq _ _) H1), (proj2 (Z.eqb_eq _ _) H2), (proj2 (Z.ltb_ge _ _)) by lia. cbn [negb andb orb Z.eqb].
  rewrite releasesleep_run by (try apply I; eauto with xv6). eexists. split; [done|].
  set (w1 := updc (<[L_inode i := _]> _) (touch w)).
  assert (A : apart w w1) by (etrans; [apply apart_touch|apply apart_sl]).
  assert (K : kframe w w1) by apply A.
  split; [etrans; [exact A|]; etrans; [apply apart_woken|apply apart_touch]|].
  assert (F : kframe w (touch (updc (tab_map (woken (sl_chan (L_inode i))) (compc (touch w))) w1))).
  { etrans; [exact K|]. etrans; [|apply kframe_touch]. done. }
  split; [|split; [done|]].
  - split; [by eapply kframe_lock_free|]. rewrite compc_touch. unfold w1. rewrite compc_updc_ne1, compc_updc.
    by rewrite lookup_total_insert_eq.
  - split; [done|done|]. intros j Hj. rewrite compc_touch. unfold w1. rewrite compc_updc_ne1, compc_updc, compc_touch.
    by rewrite lookup_total_insert_ne by congruence.
Qed.

Lemma lstep_inode_sl w w' i : lstep w w' -> compc (T := sltab) w' !!! L_inode i = compc (T := sltab) w !!! L_inode i.
Proof. intros [_ S]. exact (S i). Qed.
Lemma lstep_holds_inode w w' i : lstep w w' -> holds_inode w i -> holds_inode w' i.
Proof.
  intros S [H1 H2]. unfold holds_inode. rewrite (lstep_inode_sl _ _ _ S). split; [done|]. rewrite H2.
  destruct S as [[[K1 [K2 K3]] (E & L & P)] _]. unfold cur_pid.
  destruct (kframe_cur w w' (conj K1 (conj K2 K3))) as (_ & _ & ->).
  case_match; [|done]. symmetry. exact (f_equal fst (P _)).
Qed.

Lemma ilock_load (Hwk : (0 < wakeups)%nat) w V d st cap Bs k sb i ip :
  tx w V d st cap Bs [] k [] -> compc w = sb -> inodes_ok sb st -> (1 <= k)%nat ->
  inodes (compc w) !!! i = ip -> (i < length (inodes (compc w)))%nat ->
  i_dev ip = ROOTDEV -> 0 <= i_inum ip < sb_ninodes sb -> holds_inode w i ->
  exists w', (sb ← get_sb;
      bp ← bread (i_dev ip) (u32 (IBLOCK (i_inum ip) sb));
      x ← get_buf bp;
      upd_inode (set_i_dinode (get_dinode (i_inum ip mod IPB) (b_data x))) i ;;
      brelse bp ;;
      upd_inode (set_i_valid 1) i ;;
      ip ← get_inode i;
      if i_type ip =? 0 then panic "ilock: no type" else mret ()) w =
      (if d_type (dinode_at V sb (i_inum ip)) =? 0 then Panic "ilock: no type" else Ok ((), w')) /\
    inodes (compc w') = <[i := set_i_valid 1 (set_i_dinode (dinode_at V sb (i_inum ip)) ip)]> (inodes (compc w)) /\
    tx w' V d st cap Bs [] k [] /\ holds_inode w' i /\ ikeeps i w w'.
Proof.
  intros T Hsb Hin Hk Hip Hi Hdev Hr Hh. pose proof (IBLOCK_range sb st _ Hin Hr) as Hb.
  kdo (get_sb_run w). rewrite Hsb, Hdev, u32_id by lia.
  destruct (tx_bread Hwk _ _ _ _ _ _ _ _ _ (IBLOCK (i_inum ip) sb) T Hb (not_elem_of_nil _) ltac:(left; lia)) as (b & w1 & E1 & S1 & T1).
  kdo E1. kdo (get_buf_run b w1). rewrite (tx_get _ _ _ _ _ _ _ _ _ b _ T1) by by left.
  fold (dinode_at V sb (i_inum ip)). kdo (upd_inode_run (set_i_dinode (dinode_at V sb (i_inum ip))) i w1).
  rewrite (lstep_ic _ _ S1), list_alter_total, Hip by done. set (ip1 := set_i_dinode _ ip).
  set (c1 := Icache _). pose proof (tx_apart _ _ _ _ _ _ _ _ _ _ (apart_ic c1 w1) T1) as T2.
  destruct (tx_brelse _ _ _ _ _ _ _ _ _ b _ T2 (not_elem_of_nil _) ltac:(right; apply not_elem_of_nil)) as (w3 & E3 & S3 & T3).
  kdo E3. kdo (upd_inode_run (set_i_valid 1) i w3). rewrite (lstep_ic _ _ S3), compc_updc. cbn [inodes].
  unfold c1 at 1. cbn [inodes]. rewrite list_alter_total by (rewrite length_insert; exact Hi). rewrite list_lookup_total_insert_eq, list_insert_insert_eq by done.
  set (w4 := updc _ w3). kdo (get_inode_run i w4). exists w4. unfold w4 at 1. rewrite compc_updc. cbn [inodes].
  rewrite list_lookup_total_insert_eq by done.
  split; [|split; [by unfold w4; rewrite compc_updc|]].
  - change (i_type (set_i_valid 1 ip1)) with (d_type (dinode_at V sb (i_inum ip))). by destruct (d_type _ =? 0).
  - split.
    + eapply tx_apart; [apply apart_ic|].
      replace k with (k - (if decide (IBLOCK (i_inum ip) sb ∈ Bs) then 0 else 1) +
        (if decide (IBLOCK (i_inum ip) sb ∈ Bs) then 0 else 1))%nat by (case_decide; lia). exact T3.
    + split; cycle 1.
      { etrans; [by apply ikeeps_lstep|]. etrans; [apply (ikeeps_ic i c1)|]. etrans; [by apply ikeeps_lstep|]. apply ikeeps_ic. }
      unfold w4. unfold holds_inode. rewrite (compc_updc_ne1 (T1 := sltab)), cur_pid_updc.
      apply (lstep_holds_inode _ _ _ S3). unfold holds_inode. rewrite (compc_updc_ne1 (T1 := sltab)), cur_pid_updc.
      by apply (lstep_holds_inode _ _ _ S1).
Qed.
End Inode.

Section Props.
Context {SC : Sched} {VD : VirtioDisk}.

(** iupdate writes the in-memory inode to its place on disk, through the log, and
    changes no other inode: reading it back gives the same fields. *)
Theorem iupdate_correct w V d st cap Bs k (sb : superblock) i ip
  (Hwk : (0 < wakeups)%nat) (T : tx w V d st cap Bs [] k []) (Hsb : compc w = sb) (Hin : inodes_ok sb st)
  (Hl : block_lens V) (Hip : inodes (compc w) !!! i = ip) (Hdev : i_dev ip = ROOTDEV)
  (Hnum : 0 <= i_inum ip < sb_ninodes sb) (Hok : dinode_ok (dinode_of ip))
  (Hk : (1 <= k)%nat) (Hc : Z.of_nat (length Bs) < cap) :
  exists w' V' k', iupdate i w = Ok ((), w') /\ lstep w w' /\
    tx w' V' d st cap (logged (IBLOCK (i_inum ip) sb) Bs) [] k' [] /\ block_lens V' /\
    (forall j, 0 <= j -> dinode_at V' sb j = if decide (j = i_inum ip) then dinode_of ip else dinode_at V sb j) /\
    (forall m, m <> IBLOCK (i_inum ip) sb -> V' m = V m).
Proof.
  destruct (iupdate_ok Hwk w V d st cap Bs k sb i ip) as (w' & k' & E & S' & T' & _); try done.
  do 3 eexists. split; [exact E|]. split; [done|]. split; [exact T'|]. split; [|split].
  - intros n. unfold fupd. case_decide; [|done]. apply length_put_dinode; [apply Hok|by apply Z.mod_pos_bound|done].
  - intros j Hj. apply dinode_at_put; [done..|lia|done].
  - intros m Hm. by rewrite fupd_ne.
Qed.

(** ilock takes the sleep lock of the inode and, the first time, loads it from
    disk: afterwards the entry holds the fields of its dinode (those iupdate
    wrote) and is valid, and the other entries are as before.  An unreferenced
    entry and an inode of type 0 are panics. *)
Theorem ilock_correct w V d st cap Bs k (sb : superblock) i ip
  (Hwk : (0 < wakeups)%nat) (T : tx w V d st cap Bs [] k []) (Hsb : compc w = sb) (Hin : inodes_ok sb st)
  (Hip : inodes (compc w) !!! i = ip) (Hi : (i < length (inodes (compc w)))%nat) (Hdev : i_dev ip = ROOTDEV)
  (Hnum : 0 <= i_inum ip < sb_ninodes sb) (Hu : unlocked_inode w i) (Hk : (1 <= k)%nat) :
  if i_ref ip <? 1 then ilock (Some i) w = Panic "ilock"
  else if (i_valid ip =? 0) && (d_type (dinode_at V sb (i_inum ip)) =? 0) then ilock (Some i) w = Panic "ilock: no type"
  else exists w', ilock (Some i) w = Ok ((), w') /\ tx w' V d st cap Bs [] k [] /\ holds_inode w' i /\
    inodes (compc w') = <[i := loaded V sb ip]> (inodes (compc w)) /\ ikeeps i w w'.
Proof.
  unfold ilock. kdo (get_inode_run i w). rewrite Hip. destruct (i_ref ip <? 1); [done|].
  destruct (ilock_take Hwk w i) as (w1 & E1 & A1 & H1 & I1 & K1); [apply (cs_quiet _ _ _ _ _ _ _ (tx_cs _ _ _ _ _ _ _ _ _ T))|done|].
  kdo E1. kdo (get_inode_run i w1). rewrite I1, Hip. unfold loaded.
  pose proof (tx_apart _ _ _ _ _ _ _ _ _ _ A1 T) as T1.
  destruct (i_valid ip =? 0) eqn:Hv; cbn [andb].
  - destruct (ilock_load Hwk w1 V d st cap Bs k sb i ip T1) as (w2 & E2 & I2 & T2 & H2 & K2);
      try (rewrite (ik_sb _ _ _ K1)); try congruence; try done.
    rewrite E2. destruct (d_type (dinode_at V sb (i_inum ip)) =? 0); [done|].
    exists w2. rewrite I2, I1. split_and!; try done. by etrans.
  - exists w1. split; [done|]. rewrite I1. rewrite <- Hip, list_insert_id; [done|].
    apply list_lookup_lookup_total_lt. done.
Qed.
End Props.

(** ** Inode 5 of a disk, in entry 0 of the cache *)

Definition ex_file (valid : Z) : inode := Inode ROOTDEV 5 1 valid T_FILE 0 0 1 100 (60 :: repeat 0 12).

Lemma ex_file_ok : dinode_ok (dinode_of (ex_file 1)).
Proof.
  split; cbn [dinode_of ex_file d_type d_major d_minor d_nlink d_size d_addrs i_type i_major i_minor i_nlink i_size i_addrs];
    unfold T_FILE; try lia; [reflexivity|]. cbn [repeat]. repeat (apply Forall_cons; split; [lia|]). apply Forall_nil_2.
Qed.

Lemma ex_in_ok : inodes_ok ex_sb 2.
Proof.
  split; [by vm_compute|..]; intros i Hi; change (sb_ninodes ex_sb) with 200 in Hi;
    unfold in_log, IBLOCK, LOGSIZE, MAXOPBLOCKS; change (sb_inodestart ex_sb) with 32; change IPB with 16; pose proof (Z.div_pos i 16 ltac:(lia) ltac:(lia));
    pose proof (Z.div_lt_upper_bound i 16 13 ltac:(lia) ltac:(lia)); lia.
Qed.

(** The disk with inode 5 written by [put_dinode]. *)
Definition ex_idisk : disk := Disk {[32 := put_dinode 5 (dinode_of (ex_file 1)) zero_block]} [].

Lemma ex_ilens : block_lens (disk_block ex_idisk).
Proof.
  intros n. unfold disk_block, ex_idisk. cbn. destruct (decide (n = 32)) as [->|Hn].
  - rewrite lookup_singleton_eq. apply length_put_dinode; [reflexivity|by vm_compute|reflexivity].
  - rewrite lookup_singleton_ne by done. reflexivity.
Qed.

(** A transaction on that disk with the inode in the cache. *)
Lemma ex_iworld (D : disk) (ip : inode) : exists w, tx w (disk_block D) D 2 29 [] [] nbuf [] /\ compc w = ex_sb /\
  compc w = Icache (<[0%nat := ip]> (repeat inode0 50)) /\ unlocked_inode w 0 /\ lock_free L_icache w.
Proof.
  destruct (ex_tx D ex_sb) as (w0 & T & Hsb & _ & L1 & L2).
  set (w1 := updc (<[L_inode 0 := Sleeplock 0 "inode" 0]> (compc (T := sltab) w0)) w0).
  exists (updc (Icache (<[0%nat := ip]> (repeat inode0 50))) w1).
  split; [eapply tx_apart; [|exact T]; etrans; [apply apart_sl|apply apart_ic]|].
  split; [done|]. split; [done|]. split; [|eauto with xv6]. split; [eauto with xv6|].
  unfold w1. rewrite (compc_updc_ne1 (T1 := sltab)), compc_updc, lookup_total_insert_eq. done.
Qed.

Lemma iupdate_correct_witness : exists w w' V', iupdate (SC := ex_sched) (VD := ex_disk) 0 w = Ok ((), w') /\
  d_size (dinode_at V' ex_sb 5) = 100.
Proof.
  destruct (ex_iworld ex_idisk (ex_file 1)) as (w & T & Hsb & Hic & _). exists w.
  destruct (iupdate_correct (SC := ex_sched) (VD := ex_disk) w _ _ _ _ _ _ ex_sb 0 (ex_file 1)
    ltac:(cbn; lia) T Hsb ex_in_ok ex_ilens ltac:(rewrite Hic; reflexivity) eq_refl) as (w' & V' & k' & E & _ & _ & _ & P & _).
  - cbn. lia.
  - exact ex_file_ok.
  - unfold nbuf, NBUF, MAXOPBLOCKS. cbn. lia.
  - cbn. lia.
  - exists w', V'. split; [exact E|]. rewrite P by lia. reflexivity.
Defined.

Lemma ilock_correct_witness : exists w w', ilock (SC := ex_sched) (VD := ex_disk) (Some 0%nat) w = Ok ((), w') /\
  i_size (inodes (compc w') !!! 0%nat) = 100.
Proof.
  destruct (ex_iworld ex_idisk (set_i_size 0 (ex_file 0))) as (w & T & Hsb & Hic & Hu & _). exists w.
  pose proof (ilock_correct (SC := ex_sched) (VD := ex_disk) w _ _ _ _ _ _ ex_sb 0 (set_i_size 0 (ex_file 0))
    ltac:(cbn; lia) T Hsb ex_in_ok ltac:(rewrite Hic; reflexivity) ltac:(rewrite Hic; cbn; lia) eq_refl
    ltac:(cbn; lia) Hu ltac:(unfold nbuf, NBUF, MAXOPBLOCKS; cbn; lia)) as P.
  assert (Hd : dinode_at (disk_block ex_idisk) ex_sb 5 = dinode_of (ex_file 1)).
  { unfold dinode_at. change (IBLOCK 5 ex_sb) with 32. change (5 mod IPB) with 5. unfold disk_block, ex_idisk. cbn [d_blocks].
    rewrite lookup_singleton_eq. apply get_put_dinode; [|by vm_compute|reflexivity].
    exact ex_file_ok. }
  change (i_inum (set_i_size 0 (ex_file 0))) with 5 in P. rewrite Hd in P. cbn [i_ref i_valid set_i_size ex_file] in P.
  change (1 <? 1) with false in P. change (d_type (dinode_of (ex_file 1)) =? 0) with false in P. rewrite andb_false_r in P.
  destruct P as (w' & E & _ & _ & I & _). exists w'. split; [exact E|]. rewrite I, Hic.
  unfold loaded. change (i_inum (set_i_size 0 (ex_file 0))) with 5. rewrite Hd. reflexivity.
Defined.
