(* ===== verification/Icache.v ===== *)
(** * fs.c: reference counts of the inode cache

    An entry of the cache stands for the inode (dev, inum) while its count is
    positive, and no two entries stand for the same inode.  iget, idup and iput
    (where it is not the last reference of a deleted file) count references. *)
From stdpp Require Import prelude gmap strings.
From Stdlib Require Import ZArith Lia.
From S2P Require Import Prelude Memory CString Spinlock Riscv Kalloc Vm Uaccess Proc Bytes State Sleeplock Copy Bio BioView BioClient Log Fs LogSpec LogOps FsTx FsAlloc FsInode.
Open Scope Z_scope.

(** Entry [i] stands for inode (dev, inum). *)
Definition stands (c : icache) (dev inum : Z) (i : nat) : Prop :=
  0 < i_ref (inodes c !!! i) /\ i_dev (inodes c !!! i) = dev /\ i_inum (inodes c !!! i) = inum.

Record icache_ok (c : icache) : Prop := {
  ic_len : length (inodes c) = ninode;
  ic_ref : forall i, (i < ninode)%nat -> 0 <= i_ref (inodes c !!! i);
  ic_uniq : forall i j dev inum, (i < ninode)%nat -> (j < ninode)%nat ->
    stands c dev inum i -> stands c dev inum j -> i = j;
}.

#[export] Instance stands_dec c dev inum i : Decision (stands c dev inum i).
Proof. unfold stands. apply _. Defined.

(** The number of references to an inode. *)
Definition irefs (c : icache) (dev inum : Z) : Z :=
  match list_find (stands c dev inum) (seq 0 ninode) with
  | Some (_, i) => i_ref (inodes c !!! i)
  | None => 0
  end.

Lemma irefs_stands c dev inum i : icache_ok c -> (i < ninode)%nat -> stands c dev inum i ->
  irefs c dev inum = i_ref (inodes c !!! i).
Proof.
  intros Hc Hi Hs. unfold irefs. destruct (list_find _ _) as [[k j]|] eqn:E.
  - apply list_find_Some in E as (Hk%lookup_seq & Hj & _). f_equal. f_equal.
    apply (ic_uniq _ Hc _ _ dev inum); [lia|done..].
  - apply list_find_None in E. rewrite Forall_forall in E. exfalso. apply (E i); [|done].
    apply elem_of_seq. lia.
Qed.
Lemma irefs_none c dev inum : (forall i, (i < ninode)%nat -> ~ stands c dev inum i) -> irefs c dev inum = 0.
Proof.
  intros H. unfold irefs. destruct (list_find _ _) as [[k j]|] eqn:E; [|done].
  apply list_find_Some in E as (Hk%lookup_seq & Hj & _). exfalso. eapply H; [|done]. lia.
Qed.

(** Change the entry [i] to [x], which stands for an inode no other entry stands
    for (or is free). *)
Definition put_inode (i : nat) (x : inode) (c : icache) : icache := Icache (<[i := x]> (inodes c)).

Lemma stands_put c i x dev inum j : icache_ok c -> (i < ninode)%nat ->
  stands (put_inode i x c) dev inum j <->
  if decide (j = i) then 0 < i_ref x /\ i_dev x = dev /\ i_inum x = inum else stands c dev inum j.
Proof.
  intros Hc Hi. unfold stands, put_inode. cbn [inodes]. case_decide as E.
  - subst. by rewrite list_lookup_total_insert_eq by by rewrite (ic_len _ Hc).
  - by rewrite list_lookup_total_insert_ne by done.
Qed.

Lemma put_inode_ok c i x : icache_ok c -> (i < ninode)%nat -> 0 <= i_ref x ->
  (0 < i_ref x -> forall j, (j < ninode)%nat -> stands c (i_dev x) (i_inum x) j -> j = i) ->
  icache_ok (put_inode i x c).
Proof.
  intros Hc Hi Hx Hu. split.
  - unfold put_inode. cbn. by rewrite length_insert, (ic_len _ Hc).
  - intros j Hj. unfold put_inode. cbn. destruct (decide (j = i)) as [->|Hne].
    + by rewrite list_lookup_total_insert_eq by by rewrite (ic_len _ Hc).
    + rewrite list_lookup_total_insert_ne by done. by apply (ic_ref _ Hc).
  - intros a b dev inum Ha Hb. rewrite !stands_put by done. repeat case_decide; subst; intros H1 H2; [done|..].
    + destruct H1 as (P & <- & <-). by rewrite (Hu P b Hb H2).
    + destruct H2 as (P & <- & <-). by rewrite (Hu P a Ha H1).
    + by eapply (ic_uniq _ Hc).
Qed.

(** The counts after such a change. *)
Lemma irefs_put c i x dev inum : icache_ok c -> icache_ok (put_inode i x c) -> (i < ninode)%nat ->
  (i_dev (inodes c !!! i) = i_dev x /\ i_inum (inodes c !!! i) = i_inum x \/ i_ref (inodes c !!! i) = 0) ->
  (i_ref (inodes c !!! i) = 0 -> 0 < i_ref x -> forall j, (j < ninode)%nat -> ~ stands c (i_dev x) (i_inum x) j) ->
  irefs (put_inode i x c) dev inum =
  irefs c dev inum + if decide (i_dev x = dev /\ i_inum x = inum)
                     then i_ref x - i_ref (inodes c !!! i) else 0.
Proof.
  intros Hc Hc' Hi Hid Hnew. pose proof (ic_ref _ Hc i Hi) as Hr0. pose proof (ic_ref _ Hc' i Hi) as Hr.
  unfold put_inode in Hr. cbn in Hr. rewrite list_lookup_total_insert_eq in Hr by by rewrite (ic_len _ Hc).
  assert (Hat : inodes (put_inode i x c) !!! i = x).
  { unfold put_inode. cbn. by rewrite list_lookup_total_insert_eq by by rewrite (ic_len _ Hc). }
  assert (Hother : forall j, (j < ninode)%nat -> j <> i -> stands c dev inum j ->
    irefs (put_inode i x c) dev inum = irefs c dev inum).
  { intros j Hj Hne Hs. rewrite (irefs_stands c dev inum j) by done.
    rewrite (irefs_stands _ dev inum j); [|done..|by rewrite stands_put, decide_False].
    unfold put_inode. cbn. by rewrite list_lookup_total_insert_ne. }
  destruct (list_find (stands c dev inum) (seq 0 ninode)) as [[k j]|] eqn:E.
  - apply list_find_Some in E as (Hk%lookup_seq & Hs & _). assert (Hj : (j < ninode)%nat) by lia.
    destruct (decide (j = i)) as [->|Hne].
    + rewrite (irefs_stands c dev inum i) by done. pose proof Hs as (S1 & S2 & S3).
      destruct Hid as [[D1 D2]|D]; [|lia]. rewrite decide_True by (split; congruence).
      destruct (decide (0 < i_ref x)).
      * rewrite (irefs_stands _ dev inum i), Hat; [lia|done|done|].
        rewrite stands_put, decide_True by done. split_and!; congruence.
      * rewrite irefs_none; [lia|]. intros a Ha. rewrite stands_put by done. case_decide; [lia|].
        intros Ha'. assert (a = i); [|done]. by eapply (ic_uniq _ Hc).
    + rewrite (Hother j) by done. destruct (decide (_ /\ _)) as [[D1 D2]|]; [|lia].
      destruct (decide (0 < i_ref (inodes c !!! i))) as [P|P].
      * destruct Hid as [[E1 E2]|]; [|lia]. exfalso. apply Hne. apply (ic_uniq _ Hc _ _ dev inum); [done..|].
        split_and!; congruence.
      * destruct (decide (0 < i_ref x)); [|lia]. exfalso. apply (Hnew ltac:(lia) ltac:(done) j Hj). by rewrite D1, D2.
  - apply list_find_None in E. rewrite Forall_forall in E.
    assert (Hno : forall j, (j < ninode)%nat -> ~ stands c dev inum j) by (intros j Hj; apply E, elem_of_seq; lia).
    rewrite (irefs_none c) by done. destruct (decide (_ /\ _)) as [[D1 D2]|D].
    + assert (i_ref (inodes c !!! i) = 0).
      { destruct Hid as [[E1 E2]|]; [|done]. destruct (decide (0 < i_ref (inodes c !!! i))); [|lia].
        exfalso. apply (Hno i Hi). split_and!; congruence. }
      destruct (decide (0 < i_ref x)).
      * rewrite (irefs_stands _ dev inum i), Hat; [lia|done|done|]. by rewrite stands_put, decide_True.
      * rewrite irefs_none; [lia|]. intros a Ha. rewrite stands_put by done. case_decide; [lia|by apply Hno].
    + rewrite irefs_none; [lia|]. intros a Ha. rewrite stands_put by done. case_decide; [tauto|by apply Hno].
Qed.

(** ** The scan of iget *)

Lemma iget_scan_spec c dev inum l e :
  match iget_scan c dev inum l e with
  | inl i => i ∈ l /\ stands c dev inum i
  | inr o => (forall i, i ∈ l -> ~ stands c dev inum i) /\
      match o with
      | Some i => e = Some i \/ (i ∈ l /\ i_ref (inodes c !!! i) = 0)
      | None => e = None /\ forall i, i ∈ l -> i_ref (inodes c !!! i) <> 0
      end
  end.
Proof.
  revert e. induction l as [|i l IH]; intros e; cbn [iget_scan].
  { split; [by intros ? ?%elem_of_nil|]. destruct e; [by left|]. split; [done|]. by intros ? ?%elem_of_nil. }
  destruct ((i_ref (inodes c !!! i) >? 0) && (i_dev (inodes c !!! i) =? dev) && (i_inum (inodes c !!! i) =? inum)) eqn:E.
  { split; [by left|]. rewrite !andb_true_iff, !Z.eqb_eq, Z.gtb_lt in E. unfold stands. tauto. }
  assert (Hn : ~ stands c dev inum i).
  { intros (S1 & S2 & S3). rewrite (proj2 (Z.gtb_lt _ _)), (proj2 (Z.eqb_eq _ _) S2), (proj2 (Z.eqb_eq _ _) S3) in E; done. }
  set (e' := match e with None => _ | Some _ => _ end). specialize (IH e'). destruct (iget_scan c dev inum l e') as [j|o].
  - destruct IH as [H1 H2]. split; [by right|done].
  - destruct IH as [H1 H2]. split; [intros j [->|Hj]%elem_of_cons; [done|by apply H1]|].
    subst e'. destruct o as [j|].
    + destruct H2 as [H2|[H2 H3]]; [|right; split; [by right|done]]. destruct e as [e|]; [by left|].
      destruct (i_ref (inodes c !!! i) =? 0) eqn:Ei; [|done]. apply Z.eqb_eq in Ei. injection H2 as <-.
      right. split; [by left|done].
    + destruct H2 as [H2 H3]. destruct e as [e|]; [done|]. split; [done|].
      destruct (Z.eqb_spec (i_ref (inodes c !!! i)) 0) as [Ei|Ei]; [done|].
      intros j [->|Hj]%elem_of_cons; [done|by apply H3].
Qed.

Lemma upd_inode_put f i w : icache_ok (compc w) -> (i < ninode)%nat ->
  upd_inode f i w = Ok ((), updc (put_inode i (f (inodes (compc w) !!! i)) (compc w)) w).
Proof.
  intros Hc Hi. rewrite upd_inode_run. unfold put_inode. by rewrite list_alter_total by by rewrite (ic_len _ Hc).
Qed.

(** An entry as iget makes it. *)
Definition fresh_inode (dev inum : Z) (ip : inode) : inode :=
  Inode dev inum 1 0 (i_type ip) (i_major ip) (i_minor ip) (i_nlink ip) (i_size ip) (i_addrs ip).

(** One more or one fewer reference on an entry that is in use. *)
Lemma icache_count c i dev inum r : icache_ok c -> (i < ninode)%nat -> stands c dev inum i -> 0 <= r ->
  icache_ok (put_inode i (set_i_ref r (inodes c !!! i)) c) /\
  forall dev' inum', irefs (put_inode i (set_i_ref r (inodes c !!! i)) c) dev' inum' =
    if decide (dev' = dev /\ inum' = inum) then r else irefs c dev' inum'.
Proof.
  intros Hc Hi Hs Hr. pose proof Hs as (S1 & S2 & S3).
  assert (Hc' : icache_ok (put_inode i (set_i_ref r (inodes c !!! i)) c)).
  { apply put_inode_ok; [done..|]. cbn. intros _ j Hj Hsj. apply (ic_uniq _ Hc _ _ dev inum); [done..| |done].
    by rewrite S2, S3 in Hsj. }
  split; [done|]. intros dev' inum'. rewrite irefs_put; [|done|done|done|left; done|cbn; lia]. cbn.
  destruct (decide (_ = dev' /\ _)) as [[D1 D2]|D].
  - rewrite decide_True by (split; congruence). rewrite <- D1, <- D2, S2, S3, (irefs_stands c dev inum i) by done. lia.
  - rewrite decide_False by (intros [-> ->]; apply D; done). lia.
Qed.

Section Icache.
Context {SC : Sched} {VD : VirtioDisk}.

(** iget returns the entry of the inode with one more reference: the entry that
    stands for it, unchanged but for the count, if there is one, and else a free
    entry, not yet valid.  No other entry changes, two entries never stand
    for one inode, and with no free entry left it panics. *)
Theorem iget_correct w (dev inum : Z)
  (Hc : cpu_ok w) (Hl : lock_free L_icache w) (Hi : icache_ok (compc w)) :
  (exists i w', iget dev inum w = Ok (i, w') /\ frame icache w w' /\ (i < ninode)%nat /\
     icache_ok (compc w') /\ stands (compc w') dev inum i /\
     (forall dev' inum', irefs (compc w') dev' inum' =
        irefs (compc w) dev' inum' + if decide (dev' = dev /\ inum' = inum) then 1 else 0) /\
     (forall j, j <> i -> inodes (compc w') !!! j = inodes (compc w) !!! j) /\
     (inodes (compc w') !!! i = set_i_ref (i_ref (inodes (compc w) !!! i) + 1) (inodes (compc w) !!! i) /\
        stands (compc w) dev inum i \/
      i_valid (inodes (compc w') !!! i) = 0 /\ irefs (compc w) dev inum = 0 /\ i_ref (inodes (compc w) !!! i) = 0)) \/
  (iget dev inum w = Panic "iget: no inodes" /\ irefs (compc w) dev inum = 0 /\
   forall i, (i < ninode)%nat -> i_ref (inodes (compc w) !!! i) <> 0).
Proof.
  unfold iget. kacquire. pose proof (iget_scan_spec (compc w) dev inum (seq 0 ninode) None) as Hs.
  assert (Hg : getD (T := icache) (acq L_icache w) = Ok (compc w, acq L_icache w)) by done. kdo Hg.
  set (c := compc w) in *. destruct (iget_scan c dev inum (seq 0 ninode) None) as [i|[i|]].
  - left. destruct Hs as [Hin%elem_of_seq Hs]. assert (Hlt : (i < ninode)%nat) by lia.
    kdo (upd_inode_put (fun ip => set_i_ref (i_ref ip + 1) ip) i (acq L_icache w) Hi Hlt). knorm. fold c.
    kdo (release_acq L_icache (updc (put_inode i (set_i_ref (i_ref (inodes c !!! i) + 1) (inodes c !!! i)) c) w)
      ltac:(eauto with xv6) ltac:(eauto with xv6)).
    destruct (icache_count c i dev inum (i_ref (inodes c !!! i) + 1) Hi Hlt Hs) as [K1 K2]; [destruct Hs as (P0 & _); lia|].
    do 2 eexists. split; [done|]. split; [apply frame_upd|]. rewrite compc_touch, compc_updc. split; [done|]. split; [done|].
    split; [rewrite stands_put, decide_True by done; cbn [set_i_ref i_ref i_dev i_inum]; destruct Hs as (? & ? & ?); split_and!; [lia|done..]|].
    split; [|split; [|left; split; [|done]]].
    + intros dev' inum'. rewrite K2. case_decide as D; [|lia]. destruct D as [-> ->].
      by rewrite (irefs_stands c dev inum i).
    + intros j Hne. unfold put_inode. cbn. by rewrite list_lookup_total_insert_ne.
    + unfold put_inode. cbn [inodes]. by rewrite list_lookup_total_insert_eq by by rewrite (ic_len _ Hi).
  - left. destruct Hs as [Hno [Hs|[Hin%elem_of_seq Hz]]]; [done|]. assert (Hlt : (i < ninode)%nat) by lia.
    assert (Hno' : forall j, (j < ninode)%nat -> ~ stands c dev inum j) by (intros j Hj; apply Hno, elem_of_seq; lia).
    kdo (upd_inode_put (fresh_inode dev inum) i (acq L_icache w) Hi Hlt). knorm. fold c.
    kdo (release_acq L_icache (updc (put_inode i (fresh_inode dev inum (inodes c !!! i)) c) w)
      ltac:(eauto with xv6) ltac:(eauto with xv6)).
    assert (Hok : icache_ok (put_inode i (fresh_inode dev inum (inodes c !!! i)) c)).
    { apply put_inode_ok; [done|done|cbn; lia|]. cbn. intros _ j Hj Hsj. by destruct (Hno' j Hj). }
    do 2 eexists. split; [done|]. split; [apply frame_upd|]. rewrite compc_touch, compc_updc. split; [done|]. split; [done|].
    split; [rewrite stands_put, decide_True by done; cbn; split_and!; [lia|done..]|].
    split; [|split; [|right; split_and!]].
    + intros dev' inum'. rewrite irefs_put; [|done|done|done|by right|by cbn; auto]. cbn [fresh_inode i_ref i_dev i_inum]. rewrite Hz.
      repeat case_decide; naive_solver lia.
    + intros j Hne. unfold put_inode. cbn. by rewrite list_lookup_total_insert_ne.
    + unfold put_inode. cbn [inodes]. by rewrite list_lookup_total_insert_eq by by rewrite (ic_len _ Hi).
    + by apply irefs_none.
    + done.
  - right. destruct Hs as [Hno [_ Hz]]. split; [done|]. split.
    + apply irefs_none. intros j Hj. apply Hno, elem_of_seq. lia.
    + intros j Hj. apply Hz, elem_of_seq. lia.
Qed.

Lemma iput_ok w i : cpu_ok w -> lock_free L_icache w -> icache_ok (compc w) -> (i < ninode)%nat ->
  ~ (i_ref (inodes (compc w) !!! i) = 1 /\ i_valid (inodes (compc w) !!! i) <> 0 /\ i_nlink (inodes (compc w) !!! i) = 0) ->
  exists w', iput i w = Ok ((), w') /\ frame icache w w' /\
    compc w' = put_inode i (set_i_ref (i_ref (inodes (compc w) !!! i) - 1) (inodes (compc w) !!! i)) (compc w).
Proof.
  intros Hc Hl Hi Hlt Hno. set (c := compc w) in *. unfold iput. kacquire. kdo (get_inode_run i (acq L_icache w)). knorm. fold c.
  assert (E : (i_ref (inodes c !!! i) =? 1) && negb (i_valid (inodes c !!! i) =? 0) && (i_nlink (inodes c !!! i) =? 0) = false).
  { apply not_true_iff_false. rewrite !andb_true_iff, negb_true_iff, !Z.eqb_eq, Z.eqb_neq. tauto. }
  rewrite E, bind_mret.
  kdo (upd_inode_put (fun ip => set_i_ref (i_ref ip - 1) ip) i (acq L_icache w) Hi Hlt). knorm. fold c.
  rewrite (release_acq L_icache (updc (put_inode i (set_i_ref (i_ref (inodes c !!! i) - 1) (inodes c !!! i)) c) w))
    by eauto with xv6.
  eexists. split; [done|]. split; [apply frame_upd|]. by rewrite compc_touch, compc_updc.
Qed.

(** idup adds a reference; iput takes one away (here where it is not the last
    reference to a file without links, which is freed on disk): together they
    leave the counts as they were. *)
Theorem idup_iput_correct w (dev inum : Z) i
  (Hc : cpu_ok w) (Hl : lock_free L_icache w) (Hi : icache_ok (compc w)) (Hlt : (i < ninode)%nat)
  (Hs : stands (compc w) dev inum i) :
  (exists w', idup i w = Ok (i, w') /\ frame icache w w' /\ icache_ok (compc w') /\
     forall dev' inum', irefs (compc w') dev' inum' =
       irefs (compc w) dev' inum' + if decide (dev' = dev /\ inum' = inum) then 1 else 0) /\
  (~ (i_ref (inodes (compc w) !!! i) = 1 /\ i_valid (inodes (compc w) !!! i) <> 0 /\ i_nlink (inodes (compc w) !!! i) = 0) ->
   exists w', iput i w = Ok ((), w') /\ frame icache w w' /\ icache_ok (compc w') /\
     forall dev' inum', irefs (compc w') dev' inum' =
       irefs (compc w) dev' inum' - if decide (dev' = dev /\ inum' = inum) then 1 else 0).
Proof.
  set (c := compc w) in *. pose proof Hs as (S1 & S2 & S3). split.
  - unfold idup. kacquire. kdo (upd_inode_put (fun ip => set_i_ref (i_ref ip + 1) ip) i (acq L_icache w) Hi Hlt). knorm. fold c.
    kdo (release_acq L_icache (updc (put_inode i (set_i_ref (i_ref (inodes c !!! i) + 1) (inodes c !!! i)) c) w)
      ltac:(eauto with xv6) ltac:(eauto with xv6)).
    destruct (icache_count c i dev inum (i_ref (inodes c !!! i) + 1) Hi Hlt Hs) as [K1 K2]; [lia|].
    eexists. split; [done|]. split; [apply frame_upd|]. rewrite compc_touch, compc_updc. split; [done|].
    intros dev' inum'. rewrite K2. case_decide as D; [|lia]. destruct D as [-> ->]. by rewrite (irefs_stands c dev inum i).
  - intros Hno. destruct (iput_ok w i Hc Hl Hi Hlt Hno) as (w' & E & F & I'). fold c in I'.
    destruct (icache_count c i dev inum (i_ref (inodes c !!! i) - 1) Hi Hlt Hs) as [K1 K2]; [lia|].
    exists w'. split; [done|]. split; [done|]. rewrite I'. split; [done|].
    intros dev' inum'. rewrite K2. case_decide as D; [|lia]. destruct D as [-> ->]. by rewrite (irefs_stands c dev inum i).
Qed.
End Icache.

(** ** A cache with one inode in it *)

Definition ex_ic (ip : inode) : icache := Icache (<[0%nat := ip]> (repeat inode0 50)).

Lemma ex_ic_at ip i : (i < ninode)%nat -> inodes (ex_ic ip) !!! i = if decide (i = 0%nat) then ip else inode0.
Proof.
  intros Hi. unfold ex_ic. cbn [inodes]. case_decide as E.
  - subst. by rewrite list_lookup_total_insert_eq.
  - rewrite list_lookup_total_insert_ne by done. apply list_lookup_total_correct, lookup_repeat. exact Hi.
Qed.

Lemma ex_ic_ok ip : 0 < i_ref ip -> icache_ok (ex_ic ip).
Proof.
  intros Hr. split.
  - reflexivity.
  - intros i Hi. rewrite ex_ic_at by done. case_decide; [lia|done].
  - intros i j dev inum Hi Hj [H1 _] [H2 _]. rewrite ex_ic_at in H1, H2 by done.
    repeat case_decide; subst; [done|cbn in *; lia..].
Qed.

Definition ex_ip : inode := Inode ROOTDEV 1 1 1 T_DIR 0 0 1 48 (50 :: repeat 0 12).
Definition ex_icw : world kstate := updc (ex_ic ex_ip) bio_w0.

Lemma ex_icw_ok : cpu_ok ex_icw /\ lock_free L_icache ex_icw /\ icache_ok (compc ex_icw).
Proof.
  split; [apply cpu_ok_updc, bio_w0_quiet|]. split; [exists ""; reflexivity|].
  unfold ex_icw. rewrite compc_updc. by apply ex_ic_ok.
Qed.

(** A second reference to inode 1, and a first one to inode 7. *)
Lemma iget_correct_witness : exists i w', iget ROOTDEV 1 ex_icw = Ok (i, w') /\
  irefs (compc w') ROOTDEV 1 = 2 /\ irefs (compc w') ROOTDEV 7 = 0.
Proof.
  destruct ex_icw_ok as (Hc & Hl & Hi).
  destruct (iget_correct ex_icw ROOTDEV 1 Hc Hl Hi) as [(i & w' & E & _ & _ & _ & _ & R & _)|(_ & P & _)].
  - exists i, w'. split; [exact E|]. rewrite !R. split; reflexivity.
  - discriminate P.
Defined.

Lemma idup_iput_correct_witness : exists w1 w2, idup 0 ex_icw = Ok (0%nat, w1) /\ irefs (compc w1) ROOTDEV 1 = 2 /\
  iput (SC := ex_sched) (VD := ex_disk) 0 ex_icw = Ok ((), w2) /\ irefs (compc w2) ROOTDEV 1 = 0.
Proof.
  destruct ex_icw_ok as (Hc & Hl & Hi).
  destruct (idup_iput_correct (SC := ex_sched) (VD := ex_disk) ex_icw ROOTDEV 1 0 Hc Hl Hi) as [(w1 & E1 & _ & _ & R1) P].
  - unfold ninode, NINODE. lia.
  - by vm_compute.
  - destruct P as (w2 & E2 & _ & _ & R2); [intros (_ & _ & H); by vm_compute in H|].
    exists w1, w2. split; [exact E1|]. rewrite R1, R2. split; [reflexivity|]. split; [exact E2|reflexivity].
Defined.
