(* ===== verification/FsFile.v ===== *)
(** * fs.c: the contents of files and directories

    An inode stands for a sequence of bytes, found through its direct blocks and
    its indirect block.  readi returns a range of them, and dirlookup finds the
    first directory entry with a name. *)
From stdpp Require Import prelude gmap strings.
From Stdlib Require Import ZArith Lia.
From S2P Require Import Prelude Memory CString Spinlock Riscv Kalloc Vm Uaccess Proc Bytes State Sleeplock Copy Console Bio BioView BioClient Log Fs LogSpec LogOps FsTx FsAlloc FsInode Icache.
Open Scope Z_scope.

(** ** Files as byte sequences *)

(** The block with the [bn]th part of the file, 0 if there is none. *)
Definition fblock (V : Z -> blk) (ip : inode) (bn : Z) : Z :=
  if bn <? NDIRECT then i_addrs ip !!! Z.to_nat bn
  else let a := i_addrs ip !!! Z.to_nat NDIRECT in if a =? 0 then 0 else uint_at (V a) (bn - NDIRECT).

Definition file_byte (V : Z -> blk) (ip : inode) (off : Z) : Z :=
  V (fblock V ip (off / BSIZE)) !!! Z.to_nat (off mod BSIZE).
Definition file_bytes (V : Z -> blk) (ip : inode) (off n : Z) : list Z := file_byte V ip <$> seqZ off n.

(** The blocks up to the size are allocated. *)
Record file_ok (V : Z -> blk) (ip : inode) : Prop := {
  fo_dev : i_dev ip = ROOTDEV;
  fo_size : 0 <= i_size ip <= MAXFILE * BSIZE;
  fo_block : forall bn, 0 <= bn -> bn * BSIZE < i_size ip -> 0 < fblock V ip bn < 2 ^ 31;
  fo_ind : NDIRECT * BSIZE < i_size ip -> 0 < i_addrs ip !!! Z.to_nat NDIRECT < 2 ^ 31;
}.

Lemma fo_max V ip : file_ok V ip -> i_size ip < 2 ^ 32.
Proof. intros [_ F _ _]. change (MAXFILE * BSIZE) with 274432 in F. lia. Qed.

(** ** Where the bytes go *)

(** [either_copyout] can store [n] bytes at [dst]; [T] is the page table of the process. *)
Definition dest (w : world kstate) (T : gmap (list Z) Z) (dst : kdst) (n : Z) : Prop :=
  match dst with
  | D_user va => exists p kend, c_proc (h_cpu (cur w)) = Some p /\ 0 < kend /\ 0 <= va /\ va + n < 2 ^ 64 /\
      pt_ok kend (pbytes (compc w)) (p_pagetable (procs (compc w) !!! p)) T /\
      mapped (pbytes (compc w)) T va n /\ data_pages (pbytes (compc w)) T va n
  | _ => True
  end.

(** The memory with [bs] stored at [dst]. *)
Definition deliver (m : mem) (T : gmap (list Z) Z) (dst : kdst) (bs : list Z) : mem :=
  match dst with
  | D_user va => wr_all m (uaddrs m T va (Z.of_nat (length bs))) bs
  | D_kernel pa => wrn m pa bs
  | D_object => m
  end.

(** [m'] is [m] with [bs] at [dst] and no other change: at the addresses that the page
    table gives for a user range, or at physical addresses. *)
Definition delivered (m m' : mem) (T : gmap (list Z) Z) (dst : kdst) (bs : list Z) : Prop :=
  let n := Z.of_nat (length bs) in
  match dst with
  | D_user va => (NoDup (uaddrs m T va n) -> user_bytes m' T va n = u8 <$> bs) /\
      (forall b, b ∉ uaddrs m T va n -> rd m' b = rd m b)
  | D_kernel pa => rdn m' pa n = u8 <$> bs /\ (forall b, b < pa \/ pa + n <= b -> rd m' b = rd m b)
  | D_object => m' = m
  end.

Section Dest.
Implicit Types (w : world kstate) (T : gmap (list Z) Z).

Lemma uaddrs_app m T va a b : 0 <= a -> 0 <= b -> uaddrs m T va (a + b) = uaddrs m T va a ++ uaddrs m T (va + a) b.
Proof. intros Ha Hb. unfold uaddrs. by rewrite seqZ_app, fmap_app by done. Qed.

Lemma dest_le w T dst n k : dest w T dst n -> k <= n -> dest w T dst k.
Proof.
  intros H Hk. destruct dst as [va| |]; [|done..]. destruct H as (p & ke & H1 & H2 & H3 & H4 & H5 & H6 & H7).
  exists p, ke. split_and!; try done; [lia|intros i Hi; apply H6; lia|intros i pa j x Hi; apply H7; lia].
Qed.

(** Storing bytes of the range leaves the rest of it where it is. *)
Lemma dest_same w T va n bs : dest w T (D_user va) n -> Z.of_nat (length bs) <= n ->
  forall k x, T !! k = Some x -> same_on (deliver (pbytes (compc w)) T (D_user va) bs) (pbytes (compc w)) x PGSIZE.
Proof. intros H Hn. destruct (dest_le _ _ _ _ _ H Hn) as (p & ke & _ & _ & _ & _ & _ & H6 & H7). by apply wr_all_same. Qed.

Lemma dest_next w T dst n bs : dest w T dst n -> Z.of_nat (length bs) <= n ->
  dest (with_mem w (deliver (pbytes (compc w)) T dst bs)) T (dst_add dst (Z.of_nat (length bs))) (n - Z.of_nat (length bs)).
Proof.
  intros H Hn. destruct dst as [va| |]; [|done..]. pose proof (dest_same _ _ _ _ bs H Hn) as Hs.
  set (m' := deliver _ _ _ _) in *. destruct H as (p & ke & H1 & H2 & H3 & H4 & H5 & H6 & H7). exists p, ke.
  rewrite compc_with_mem. cbn [pbytes]. rewrite u64_id by lia. split_and!; [done|done|lia|lia|by eapply pt_ok_same|..].
  - intros i Hi. rewrite (uaddr_same (pbytes (compc w)) m') by done. rewrite <- Z.add_assoc. apply H6. lia.
  - intros i pa k x Hi. rewrite (uaddr_same (pbytes (compc w)) m') by done. rewrite <- Z.add_assoc. apply H7. lia.
Qed.
Lemma deliver_app w T dst n bs1 bs2 : dest w T dst n -> Z.of_nat (length (bs1 ++ bs2)) <= n ->
  let m := pbytes (compc w) in
  deliver m T dst (bs1 ++ bs2) = deliver (deliver m T dst bs1) T (dst_add dst (Z.of_nat (length bs1))) bs2.
Proof.
  intros H Hn m. rewrite length_app in Hn. destruct dst as [va|pa|]; [|apply wrn_app|done].
  pose proof (dest_same _ _ _ _ bs1 H ltac:(lia)) as Hs. destruct H as (p & ke & _ & _ & H3 & H4 & _).
  cbn [deliver dst_add] in *. rewrite u64_id by lia. rewrite length_app, Nat2Z.inj_add, uaddrs_app by lia.
  rewrite wr_all_app by (rewrite length_uaddrs; lia). f_equal.
  apply list_fmap_ext. intros i b _. f_equal. symmetry. by apply uaddr_same.
Qed.

Lemma copyout_dest w T dst bs : cpu_ok w -> dest w T dst (Z.of_nat (length bs)) ->
  either_copyout dst bs w = Ok (0, with_mem (touch w) (deliver (pbytes (compc w)) T dst bs)).
Proof.
  intros Hc H. unfold either_copyout. rewrite (bind_Ok _ _ _ _ _ (myproc_run w Hc)). destruct dst as [va|pa|].
  - destruct H as (p & ke & H1 & H2 & H3 & H4 & H5 & H6 & H7). rewrite H1. rewrite (bind_Ok _ _ _ _ _ (get_proc_run _ _)). knorm.
    by apply (copyout_from_ok ke H2 (touch w)).
  - kdo (get_mem_run (touch w)). by kdo (put_mem_run (wrn (pbytes (compc (touch w))) pa bs) (touch w)).
  - exact (eq_sym (f_equal (fun x => Ok (0, x)) (with_mem_id (touch w)))).
Qed.

Lemma deliver_delivered w T dst bs : dest w T dst (Z.of_nat (length bs)) ->
  delivered (pbytes (compc w)) (deliver (pbytes (compc w)) T dst bs) T dst bs.
Proof.
  intros H. destruct dst as [va|pa|]; [| |done].
  - split; [|intros b Hb; by apply rd_wr_all_out]. intros Hu. pose proof (dest_same _ _ _ _ bs H ltac:(lia)) as Hs.
    destruct H as (p & ke & H1 & H2 & H3 & H4 & H5 & H6 & H7). by eapply user_bytes_stored.
  - split; [|intros b Hb; by apply rd_wrn_out]. apply list_eq. intros i. unfold rdn. rewrite !list_lookup_fmap.
    destruct (bs !! i) as [x|] eqn:E.
    + pose proof (lookup_lt_Some _ _ _ E). rewrite lookup_seqZ_lt by lia. cbn. by rewrite (rd_wrn_in _ _ _ _ _ E).
    + apply lookup_ge_None in E. by rewrite lookup_seqZ_ge by lia.
Qed.

(** Cache operations and the memory. *)
Lemma apart_mem (m : pmem) w : apart w (updc m w).
Proof. split; try done. intros; by apply quiet_updc. Qed.
Lemma lstep_frame w w' : lstep w w' -> compc (T := pmem) w' = compc w /\
  c_proc (h_cpu (cur w')) = c_proc (h_cpu (cur w)) /\
  forall p, p_pagetable (procs (compc w') !!! p) = p_pagetable (procs (compc w) !!! p).
Proof.
  unfold lstep. intros [[F (E & _ & P)] _]. pose proof (kframe_cur _ _ F) as (_ & _ & Hp).
  split_and!; [unfold compc; cbn in *; by rewrite E|done|]. intros p. exact (f_equal snd (P p)).
Qed.
Lemma dest_lstep w w' T dst n : lstep w w' -> dest w T dst n -> dest w' T dst n.
Proof.
  intros S. destruct (lstep_frame _ _ S) as (E1 & E2 & E3). destruct dst; [|done..].
  unfold dest. setoid_rewrite E1. setoid_rewrite E2. setoid_rewrite E3. done.
Qed.
Lemma lstep_mem (m : mem) w w' : lstep w w' -> lstep (with_mem w m) (with_mem w' m).
Proof.
  intros S. pose proof (lstep_frame _ _ S) as [E1 _]. unfold lstep, with_mem in *. rewrite E1.
  destruct S as [[F (E & L & P)] Hs]. split; [|done]. split; [done|]. split_and!; [|done..]. cbn in *. rewrite E. done.
Qed.
End Dest.

Section Read.
Context {SC : Sched} {VD : VirtioDisk}.
Implicit Types (w : world kstate).

(** bmap of an allocated block only looks it up. *)
Lemma bmap_look (Hwk : (0 < wakeups)%nat) w V d st cap Bs k i ip bn :
  tx w V d st cap Bs [] k [] -> inodes (compc w) !!! i = ip -> file_ok V ip ->
  0 <= bn -> bn * BSIZE < i_size ip -> (1 <= k)%nat ->
  exists w', bmap i bn w = Ok (fblock V ip bn, w') /\ lstep w w' /\ tx w' V d st cap Bs [] k [].
Proof.
  intros T Hip [F1 F2 F3 F4] Hbn Hlt Hk. specialize (F3 bn Hbn Hlt).
  unfold bmap. kdo (get_inode_run i w). rewrite Hip. unfold fblock in *.
  destruct (Z.ltb_spec bn NDIRECT).
  - rewrite (proj2 (Z.eqb_neq _ _)) by lia. exists w. split; [done|]. split; [reflexivity|done].
  - assert (bn - NDIRECT < NINDIRECT).
    { unfold MAXFILE in F2. destruct (Z_lt_ge_dec (bn - NDIRECT) NINDIRECT); [done|].
      assert ((NDIRECT + NINDIRECT) * BSIZE <= bn * BSIZE); [|lia].
      apply Z.mul_le_mono_nonneg_r; [done|lia]. }
    rewrite (proj2 (Z.ltb_lt _ _)) by done.
    assert (F5 : 0 < i_addrs ip !!! Z.to_nat NDIRECT < 2 ^ 31).
    { apply F4. assert (NDIRECT * BSIZE <= bn * BSIZE); [|lia]. apply Z.mul_le_mono_nonneg_r; [done|lia]. }
    rewrite (proj2 (Z.eqb_neq (i_addrs ip !!! Z.to_nat NDIRECT) 0)) in * by lia. rewrite bind_mret, F1.
    destruct (tx_look Hwk _ _ _ _ _ _ _ _ _ (i_addrs ip !!! Z.to_nat NDIRECT) T) as (b & w1 & w2 & E1 & Ed & E2 & S1 & S2 & T2);
      [lia|left; lia|apply not_elem_of_nil..|].
    kdo E1. kdo (get_buf_run b w1). rewrite Ed, (proj2 (Z.eqb_neq _ 0)) by lia. rewrite bind_mret. kdo E2.
    exists w2. done.
Qed.

Lemma slice_file_bytes V ip off n : block_lens V -> 0 <= off -> 0 <= n -> off mod BSIZE + n <= BSIZE ->
  slice (Z.to_nat (off mod BSIZE)) (Z.to_nat n) (V (fblock V ip (off / BSIZE))) = file_bytes V ip off n.
Proof.
  intros Hl Ho Hn Hm. assert (HB : 0 < BSIZE) by done. pose proof (Z.mod_pos_bound off BSIZE HB) as Hr.
  apply list_eq. intros j. rewrite lookup_slice. unfold file_bytes. rewrite list_lookup_fmap.
  case_decide as Hj.
  - rewrite lookup_seqZ_lt by lia. cbn [fmap option_fmap option_map]. unfold file_byte.
    assert (E1 : (off + Z.of_nat j) / BSIZE = off / BSIZE).
    { rewrite (Z.div_mod off BSIZE) at 1 by lia. rewrite <- Z.add_assoc, Z.mul_comm, Z.add_comm, Z.div_add by lia.
      rewrite Z.div_small by lia. lia. }
    assert (E2 : (off + Z.of_nat j) mod BSIZE = off mod BSIZE + Z.of_nat j).
    { rewrite (Z.div_mod off BSIZE) at 1 by lia. rewrite <- Z.add_assoc, Z.mul_comm, Z.add_comm, Z.mod_add by lia.
      rewrite Z.mod_small by lia. lia. }
    rewrite E1, E2, Z2Nat.inj_add, Nat2Z.id by lia. apply list_lookup_lookup_total_lt. rewrite Hl. lia.
  - rewrite lookup_seqZ_ge by lia. done.
Qed.

Lemma file_bytes_app V ip off a b : 0 <= a -> 0 <= b ->
  file_bytes V ip off (a + b) = file_bytes V ip off a ++ file_bytes V ip (off + a) b.
Proof. intros Ha Hb. unfold file_bytes. by rewrite seqZ_app, fmap_app by done. Qed.

Lemma length_file_bytes V ip off n : length (file_bytes V ip off n) = Z.to_nat n.
Proof. unfold file_bytes. by rewrite length_fmap, length_seqZ. Qed.
Lemma deliver_nil m PT dst : deliver m PT dst [] = m.
Proof. destruct dst; [apply wr_all_nil|done..]. Qed.

Lemma lstep_apart_touch w w' : lstep w w' -> lstep w (touch w').
Proof. intros H. etrans; [exact H|apply lstep_touch]. Qed.

(** One round of readi copies the part of the range that is in one block. *)
Lemma readi_round (Hwk : (0 < wakeups)%nat) w V d st cap Bs k i ip n tot off PT dst acc :
  tx w V d st cap Bs [] k [] -> inodes (compc w) !!! i = ip -> file_ok V ip -> block_lens V ->
  0 <= off -> 0 <= tot < n -> off + (n - tot) <= i_size ip -> (1 <= k)%nat -> dest w PT dst (n - tot) ->
  let m := Z.min (n - tot) (BSIZE - off mod BSIZE) in
  exists w', readi_body i n (tot, off, dst, acc) w =
      Ok (inl (tot + m, off + m, dst_add dst m, acc ++ file_bytes V ip off m), w') /\
    lstep (with_mem w (deliver (pbytes (compc w)) PT dst (file_bytes V ip off m))) w' /\ tx w' V d st cap Bs [] k [].
Proof.
  intros T Hip Hf Hl Ho Ht Hs Hk Hdst m. assert (HB : 0 < BSIZE) by done.
  pose proof (Z.mod_pos_bound off BSIZE HB) as Hr. pose proof (Z.div_mod off BSIZE ltac:(done)) as Hd.
  assert (Hq : 0 <= off / BSIZE) by (apply Z.div_pos; lia).
  assert (Hb : off / BSIZE * BSIZE < i_size ip) by lia.
  unfold readi_body. rewrite (proj2 (Z.ltb_lt _ _)) by lia. kdo (get_inode_run i w). rewrite Hip.
  destruct (bmap_look Hwk w V d st cap Bs k i ip (off / BSIZE) T Hip Hf Hq Hb Hk) as (w1 & E1 & S1 & T1). kdo E1.
  rewrite (fo_dev _ _ Hf). pose proof (fo_block _ _ Hf _ Hq Hb) as Hfb.
  destruct (tx_bread Hwk _ _ _ _ _ _ _ _ _ (fblock V ip (off / BSIZE)) T1 ltac:(lia) (not_elem_of_nil _) ltac:(left; lia)) as (b & w2 & E2 & S2 & T2).
  kdo E2. kdo (get_buf_run b w2). rewrite (tx_get _ _ _ _ _ _ _ _ _ b _ T2) by by left. fold m.
  rewrite slice_file_bytes by (done || lia).
  pose proof (q_cpu _ (cs_quiet _ _ _ _ _ _ _ (tx_cs _ _ _ _ _ _ _ _ _ T2))) as Q2.
  assert (S12 : lstep w w2) by by etrans. destruct (lstep_frame _ _ S12) as [Em _].
  assert (D2 : dest w2 PT dst (Z.of_nat (length (file_bytes V ip off m)))).
  { eapply dest_le; [by eapply dest_lstep|]. rewrite length_file_bytes. lia. }
  kdo (copyout_dest w2 PT dst (file_bytes V ip off m) Q2 D2). cbn [Z.eqb]. rewrite Em.
  set (mem' := deliver _ _ _ _). set (w3 := with_mem (touch w2) mem').
  assert (T3 : tx w3 V d st cap Bs [] _ _) by (eapply tx_apart; [etrans; [apply apart_touch|apply apart_mem]|exact T2]).
  destruct (tx_brelse _ _ _ _ _ _ _ _ _ b _ T3 (not_elem_of_nil _) ltac:(right; apply not_elem_of_nil)) as (w4 & E4 & S4 & T4).
  kdo E4. exists w4. split; [|split].
  - unfold mret, M_ret. rewrite u32_id; [done|]. pose proof (fo_max _ _ Hf). lia.
  - etrans; [|exact S4]. apply lstep_mem. etrans; [exact S12|apply lstep_touch].
  - replace k with (k - (if decide (fblock V ip (off / BSIZE) ∈ Bs) then 0 else 1) +
      (if decide (fblock V ip (off / BSIZE) ∈ Bs) then 0 else 1))%nat by (case_decide; lia). exact T4.
Qed.

Lemma readi_loop (Hwk : (0 < wakeups)%nat) fuel w V d st cap Bs k i ip n tot off PT dst acc :
  tx w V d st cap Bs [] k [] -> inodes (compc w) !!! i = ip -> file_ok V ip -> block_lens V ->
  0 <= off -> 0 <= tot <= n -> off + (n - tot) <= i_size ip -> (1 <= k)%nat -> (0 < fuel)%nat ->
  (n = tot \/ (n - tot) + off mod BSIZE <= BSIZE * (Z.of_nat fuel - 1)) -> dest w PT dst (n - tot) ->
  exists w', loop fuel (readi_body i n) (tot, off, dst, acc) w =
      Ok ((n, acc ++ file_bytes V ip off (n - tot)), w') /\
    lstep (with_mem w (deliver (pbytes (compc w)) PT dst (file_bytes V ip off (n - tot)))) w' /\ tx w' V d st cap Bs [] k [].
Proof.
  revert w tot off dst acc. induction fuel as [|f IH]; intros w tot off dst acc T Hip Hf Hl Ho Ht Hs Hk Hpos Hfuel Hdst; [lia|].
  assert (HB : 0 < BSIZE) by done. pose proof (Z.mod_pos_bound off BSIZE HB) as Hr.
  destruct (decide (tot = n)) as [->|Hne].
  - rewrite Z.sub_diag. change (file_bytes V ip off 0) with (@nil Z). rewrite deliver_nil, with_mem_id, app_nil_r.
    exists w. split; [|split; [reflexivity|done]]. apply loop_exit. unfold readi_body. by rewrite Z.ltb_irrefl.
  - destruct (readi_round Hwk w V d st cap Bs k i ip n tot off PT dst acc T Hip Hf Hl Ho ltac:(lia) Hs Hk Hdst) as (w1 & E1 & S1 & T1).
    rewrite (loop_next _ _ _ _ _ _ E1). set (m := Z.min (n - tot) (BSIZE - off mod BSIZE)) in *.
    assert (Hm : 0 < m <= n - tot) by lia.
    assert (Hnext : n - (tot + m) = 0 \/ (off + m) mod BSIZE = 0).
    { destruct (decide (n - tot <= BSIZE - off mod BSIZE)); [left; lia|right].
      replace (off + m) with ((off / BSIZE + 1) * BSIZE) by (pose proof (Z.div_mod off BSIZE); lia).
      by apply Z.mod_mul. }
    pose proof (Z.mod_pos_bound (off + m) BSIZE HB) as Hr'.
    assert (Hlen : Z.of_nat (length (file_bytes V ip off m)) = m) by (rewrite length_file_bytes; lia).
    assert (Hsplit : file_bytes V ip off (n - tot) = file_bytes V ip off m ++ file_bytes V ip (off + m) (n - (tot + m))).
    { rewrite <- file_bytes_app by lia. f_equal. lia. }
    destruct (IH w1 (tot + m) (off + m) (dst_add dst m) (acc ++ file_bytes V ip off m)) as (w' & E' & S' & T'); try done; try lia.
    { by rewrite (lstep_ic _ _ S1). }
    { eapply dest_lstep; [exact S1|]. rewrite <- Hlen at 2. replace (n - (tot + m)) with (n - tot - Z.of_nat (length (file_bytes V ip off m))) by lia.
      apply dest_next; [done|lia]. }
    exists w'. rewrite E', Hsplit, app_assoc. split; [done|]. split; [|done].
    rewrite (deliver_app w PT dst (n - tot)) by (done || (rewrite <- Hsplit, length_file_bytes; lia)). rewrite Hlen.
    etrans; [|exact S']. destruct (lstep_frame _ _ S1) as [Em _]. rewrite Em, compc_with_mem. cbn [pbytes].
    apply (lstep_mem (deliver (deliver (pbytes (compc w)) PT dst (file_bytes V ip off m)) PT (dst_add dst m) (file_bytes V ip (off + m) (n - (tot + m))))) in S1.
    by rewrite with_mem_twice in S1.
Qed.

(** The length readi delivers. *)
Definition read_len (ip : inode) (off n : Z) : Z :=
  if (i_size ip <? off) || (2 ^ 32 <=? off + n) then 0 else Z.min n (i_size ip - off).

Lemma read_len_range ip off n : 0 <= off < 2 ^ 32 -> 0 <= n < 2 ^ 32 ->
  0 <= read_len ip off n /\ read_len ip off n <= n /\ off + read_len ip off n <= Z.max off (i_size ip).
Proof.
  intros Ho Hn. unfold read_len. destruct (Z.ltb_spec (i_size ip) off); cbn [orb]; [lia|].
  destruct (Z.leb_spec (2 ^ 32) (off + n)); lia.
Qed.

Lemma readi_run (Hwk : (0 < wakeups)%nat) w V d st cap Bs k i ip PT dst off n (bs := file_bytes V ip off (read_len ip off n)) :
  tx w V d st cap Bs [] k [] -> inodes (compc w) !!! i = ip -> file_ok V ip -> block_lens V ->
  0 <= off < 2 ^ 32 -> 0 <= n < 2 ^ 32 -> (1 <= k)%nat -> dest w PT dst (read_len ip off n) ->
  exists w', readi i dst off n w = Ok ((read_len ip off n, bs), w') /\
    lstep (with_mem w (deliver (pbytes (compc w)) PT dst bs)) w' /\ tx w' V d st cap Bs [] k [].
Proof.
  intros T Hip Hf Hl Ho Hn Hk Hdst. subst bs. unfold readi, read_len in *. kdo (get_inode_run i w). rewrite Hip, !Z.gtb_ltb.
  destruct (Z.ltb_spec (i_size ip) off); cbn [orb] in *.
  { exists w. change (file_bytes V ip off 0) with (@nil Z). rewrite deliver_nil, with_mem_id. split; [|split; [reflexivity|done]]. done. }
  assert (E : (u32 (off + n) <? off) = (2 ^ 32 <=? off + n)).
  { unfold u32. destruct (Z.leb_spec (2 ^ 32) (off + n)).
    - apply Z.ltb_lt. rewrite <- (Z.mod_unique (off + n) (2 ^ 32) 1 (off + n - 2 ^ 32)) by lia. lia.
    - apply Z.ltb_ge. rewrite Z.mod_small by lia. lia. }
  rewrite E. destruct (Z.leb_spec (2 ^ 32) (off + n)).
  { exists w. change (file_bytes V ip off 0) with (@nil Z). rewrite deliver_nil, with_mem_id. split; [|split; [reflexivity|done]]. done. }
  rewrite u32_id by lia.
  replace (if i_size ip <? off + n then i_size ip - off else n) with (Z.min n (i_size ip - off))
    by (destruct (Z.ltb_spec (i_size ip) (off + n)); lia).
  set (n' := Z.min n (i_size ip - off)) in *. assert (HB : BSIZE = 1024) by done.
  pose proof (Z.mod_pos_bound off BSIZE ltac:(lia)). pose proof (Z.div_mod n' BSIZE ltac:(lia)).
  pose proof (Z.mod_pos_bound n' BSIZE ltac:(lia)). assert (0 <= n' / BSIZE) by (apply Z.div_pos; lia).
  destruct (readi_loop Hwk (S (S (Z.to_nat (n' / BSIZE + 1)))) w V d st cap Bs k i ip n' 0 off PT dst []) as (w' & E' & S' & T');
    rewrite ?Z.sub_0_r; try done; try lia.
  rewrite Z.sub_0_r in *. exists w'. rewrite E'. done.
Qed.

(** Reading into an object of the kernel. *)
Lemma readi_ok (Hwk : (0 < wakeups)%nat) w V d st cap Bs k i ip off n :
  tx w V d st cap Bs [] k [] -> inodes (compc w) !!! i = ip -> file_ok V ip -> block_lens V ->
  0 <= off < 2 ^ 32 -> 0 <= n < 2 ^ 32 -> (1 <= k)%nat ->
  exists w', readi i D_object off n w = Ok ((read_len ip off n, file_bytes V ip off (read_len ip off n)), w') /\
    lstep w w' /\ tx w' V d st cap Bs [] k [].
Proof.
  intros T Hip Hf Hl Ho Hn Hk.
  destruct (readi_run Hwk w V d st cap Bs k i ip ∅ D_object off n) as (w' & E' & S' & T'); try done.
  cbn [deliver] in S'. rewrite with_mem_id in S'. by exists w'.
Qed.
End Read.

(** ** Directories *)

(** A name as the directory code compares it: at most DIRSIZ bytes before a NUL. *)
Definition dname (l : list Z) : list Z := take (Z.to_nat DIRSIZ) (cstr l).

Lemma strncmp_l_spec n p q : strncmp_l n p q = 0 <-> take n (cstr p) = take n (cstr q).
Proof.
  revert p q. induction n as [|n IH]; intros p q; [done|]. cbn [strncmp_l].
  destruct p as [|a p], q as [|b q]; cbn [lookup list_lookup from_option cstr take tail]; unfold id; rewrite ?Z.eqb_refl; cbn [negb andb].
  - done.
  - destruct (Z.eqb_spec b 0); [subst; done|]. split; [lia|done].
  - destruct (Z.eqb_spec a 0); cbn; [subst; done|]. split; [lia|done].
  - destruct (Z.eqb_spec a 0) as [->|Ha]; cbn [negb andb].
    + destruct (Z.eqb_spec b 0) as [->|Hb]; [done|]. split; [lia|done].
    + destruct (Z.eqb_spec a b) as [->|Hab].
      * rewrite (proj2 (Z.eqb_neq b 0)) by done. rewrite IH. cbn. split; [by intros ->|by intros [= ->]].
      * split; [lia|]. destruct (Z.eqb_spec b 0); cbn; congruence.
Qed.

Lemma namecmp_spec s t : (namecmp s t =? 0) = bool_decide (dname s = dname t).
Proof.
  unfold namecmp, dname. destruct (Z.eqb_spec (strncmp_l (Z.to_nat DIRSIZ) s t) 0) as [E|E]; symmetry;
    [apply bool_decide_true|apply bool_decide_false]; by rewrite <- strncmp_l_spec.
Qed.

Lemma dname_strncpy n m t : (n <= m)%nat -> take n (cstr (take n (t ++ repeat 0 m))) = take n (cstr t).
Proof.
  revert m t. induction n as [|n IH]; intros m t Hm; [done|]. destruct m as [|m]; [lia|]. destruct t as [|x t]; [done|].
  cbn. destruct (x =? 0); [done|]. cbn. f_equal.
  destruct m as [|m]; [destruct n; [done|lia]|]. replace (0 :: repeat 0 (S m)) with (repeat 0 (S (S m))) by done. apply IH. lia.
Qed.

Lemma dirent_of_bytes de : 0 <= de_inum de < 2 ^ 16 -> length (de_name de) = 14%nat -> dirent_of (dirent_bytes de) = de.
Proof.
  intros H1 H2. unfold dirent_of, dirent_bytes, get_le, slice.
  rewrite drop_0, take_app_le by (by rewrite length_bytes_of). rewrite take_ge by (by rewrite length_bytes_of).
  rewrite of_bytes_of by done. rewrite drop_app_le by (by rewrite length_bytes_of). rewrite drop_ge by (by rewrite length_bytes_of).
  cbn [app]. rewrite take_ge by lia. by destruct de.
Qed.

(** The entries of a directory. *)
Definition dir_entry (V : Z -> blk) (ip : inode) (j : Z) : dirent :=
  dirent_of (file_bytes V ip (j * sizeof_dirent) sizeof_dirent).
Definition dir_entries (V : Z -> blk) (ip : inode) : list dirent :=
  dir_entry V ip <$> seqZ 0 (i_size ip / sizeof_dirent).

(** An entry in use with the name. *)
Definition names (name : list Z) (de : dirent) : Prop := de_inum de <> 0 /\ dname (de_name de) = dname name.
#[export] Instance names_dec name de : Decision (names name de).
Proof. unfold names. apply _. Defined.

Section Dir.
Context {SC : Sched} {VD : VirtioDisk}.
Implicit Types (w : world kstate).

(** A directory: a file of whole entries. *)
Record dir_ok (V : Z -> blk) (ip : inode) : Prop := {
  do_file : file_ok V ip;
  do_size : i_size ip = sizeof_dirent * (i_size ip / sizeof_dirent);
}.

(** Entry [j] is read. *)
Lemma read_entry (Hwk : (0 < wakeups)%nat) w V d st cap Bs k dp ip j :
  tx w V d st cap Bs [] k [] -> inodes (compc w) !!! dp = ip -> dir_ok V ip -> block_lens V -> (1 <= k)%nat ->
  0 <= j < i_size ip / sizeof_dirent -> j * sizeof_dirent < i_size ip /\
  exists w1, readi dp D_object (j * sizeof_dirent) sizeof_dirent w =
      Ok ((sizeof_dirent, file_bytes V ip (j * sizeof_dirent) sizeof_dirent), w1) /\
    lstep w w1 /\ tx w1 V d st cap Bs [] k [].
Proof.
  intros T Hip [Hf Hsz] Hl Hk Hj. pose proof (fo_max _ _ Hf) as Hmax. assert (HD : sizeof_dirent = 16) by done.
  assert (Hoff : j * sizeof_dirent + sizeof_dirent <= i_size ip) by lia. split; [lia|].
  destruct (readi_ok Hwk w V d st cap Bs k dp ip (j * sizeof_dirent) sizeof_dirent T Hip Hf Hl) as (w1 & E1 & S1 & T1);
    [lia|lia|done|].
  assert (Hlen : read_len ip (j * sizeof_dirent) sizeof_dirent = sizeof_dirent).
  { unfold read_len. destruct (Z.ltb_spec (i_size ip) (j * sizeof_dirent)); [lia|]. cbn [orb].
    destruct (Z.leb_spec (2 ^ 32) (j * sizeof_dirent + sizeof_dirent)); lia. }
  rewrite Hlen in E1. by exists w1.
Qed.

Lemma dirlookup_round (Hwk : (0 < wakeups)%nat) w V d st cap Bs k dp ip name j :
  tx w V d st cap Bs [] k [] -> inodes (compc w) !!! dp = ip -> dir_ok V ip -> block_lens V -> (1 <= k)%nat ->
  0 <= j < i_size ip / sizeof_dirent ->
  exists w1, lstep w w1 /\ tx w1 V d st cap Bs [] k [] /\
    dirlookup_body dp name (j * sizeof_dirent) w =
    if decide (names name (dir_entry V ip j))
    then (i ← iget ROOTDEV (de_inum (dir_entry V ip j)); mret (inr (Some (i, j * sizeof_dirent)))) w1
    else Ok (inl ((j + 1) * sizeof_dirent), w1).
Proof.
  intros T Hip Hd Hl Hk Hj. destruct (read_entry Hwk w V d st cap Bs k dp ip j T Hip Hd Hl Hk Hj) as (Hlt & w1 & E1 & S1 & T1).
  exists w1. split; [done|]. split; [done|]. destruct Hd as [Hf Hsz]. pose proof (fo_max _ _ Hf) as Hmax. assert (HD : sizeof_dirent = 16) by done.
  unfold dirlookup_body. kdo (get_inode_run dp w). rewrite Hip, (proj2 (Z.ltb_lt _ _)) by lia.
  rewrite (bind_Ok _ _ _ _ _ E1). rewrite Z.eqb_refl. cbn [negb]. fold (dir_entry V ip j).
  rewrite namecmp_spec, (fo_dev _ _ Hf).
  replace (u32 (j * sizeof_dirent + sizeof_dirent)) with ((j + 1) * sizeof_dirent) by (rewrite u32_id; lia).
  unfold names. destruct (Z.eqb_spec (de_inum (dir_entry V ip j)) 0) as [E|E].
  - by rewrite decide_False by tauto.
  - case_bool_decide as B; [rewrite decide_True by (split; congruence)|rewrite decide_False by (intros [_ ?]; congruence)]; done.
Qed.

Lemma dirlookup_loop (Hwk : (0 < wakeups)%nat) fuel w V d st cap Bs k dp ip name j :
  tx w V d st cap Bs [] k [] -> inodes (compc w) !!! dp = ip -> dir_ok V ip -> block_lens V -> (1 <= k)%nat ->
  0 <= j <= i_size ip / sizeof_dirent -> i_size ip / sizeof_dirent - j < Z.of_nat fuel ->
  (forall j', j <= j' < i_size ip / sizeof_dirent -> names name (dir_entry V ip j') ->
     (forall a, j <= a < j' -> ~ names name (dir_entry V ip a)) ->
     exists w1, lstep w w1 /\ tx w1 V d st cap Bs [] k [] /\
       loop fuel (dirlookup_body dp name) (j * sizeof_dirent) w =
       (i ← iget ROOTDEV (de_inum (dir_entry V ip j')); mret (Some (i, j' * sizeof_dirent))) w1) /\
  ((forall a, j <= a < i_size ip / sizeof_dirent -> ~ names name (dir_entry V ip a)) ->
     exists w1, lstep w w1 /\ tx w1 V d st cap Bs [] k [] /\
       loop fuel (dirlookup_body dp name) (j * sizeof_dirent) w = Ok (None, w1)).
Proof.
  revert w j. induction fuel as [|f IH]; intros w j T Hip Hd Hl Hk Hj Hfuel; [lia|].
  destruct (decide (j = i_size ip / sizeof_dirent)) as [Hend|Hlt].
  { split; [lia|]. intros _. exists w. split; [reflexivity|]. split; [done|]. apply loop_exit. unfold dirlookup_body.
    kdo (get_inode_run dp w). rewrite Hip, (proj2 (Z.ltb_ge _ _)); [done|]. pose proof (do_size _ _ Hd). lia. }
  destruct (dirlookup_round Hwk w V d st cap Bs k dp ip name j T Hip Hd Hl Hk ltac:(lia)) as (w1 & S1 & T1 & E1).
  destruct (decide (names name (dir_entry V ip j))) as [Hn|Hn].
  - split; [|intros Hall; exfalso; apply (Hall j); [lia|done]]. intros j' Hj' Hn' Hlow.
    assert (j' = j) as ->. { destruct (decide (j' = j)); [done|]. exfalso. apply (Hlow j); [lia|done]. }
    exists w1. split; [done|]. split; [done|]. cbn [loop]. unfold mbind, M_bind at 1. rewrite E1.
    unfold mbind, M_bind. by destruct (iget ROOTDEV (de_inum (dir_entry V ip j)) w1) as [[i w2]| | |].
  - destruct (IH w1 (j + 1) T1) as [I1 I2]; try done; try lia; [by rewrite (lstep_ic _ _ S1)|].
    rewrite (loop_next _ _ _ _ _ _ E1). split.
    + intros j' Hj' Hn' Hlow. destruct (decide (j' = j)) as [->|]; [done|].
      destruct (I1 j') as (w2 & S2 & T2 & E2); [lia|done|intros a Ha; apply Hlow; lia|].
      exists w2. split; [by etrans|]. split; [done|exact E2].
    + intros Hall. destruct I2 as (w2 & S2 & T2 & E2); [intros a Ha; apply Hall; lia|].
      exists w2. split; [by etrans|]. split; [done|exact E2].
Qed.

(** The first entry with the name. *)
Lemma find_entry V ip name : dir_ok V ip ->
  match list_find (names name) (dir_entries V ip) with
  | Some (j, de) => Z.of_nat j < i_size ip / sizeof_dirent /\ de = dir_entry V ip (Z.of_nat j) /\ names name de /\
      forall a, 0 <= a < Z.of_nat j -> ~ names name (dir_entry V ip a)
  | None => forall a, 0 <= a < i_size ip / sizeof_dirent -> ~ names name (dir_entry V ip a)
  end.
Proof.
  intros Hd. unfold dir_entries.
  assert (Hlook : forall a, 0 <= a < i_size ip / sizeof_dirent ->
    (dir_entry V ip <$> seqZ 0 (i_size ip / sizeof_dirent)) !! Z.to_nat a = Some (dir_entry V ip a)).
  { intros a Ha. rewrite list_lookup_fmap, lookup_seqZ_lt by lia. cbn. do 2 f_equal. lia. }
  destruct (list_find _ _) as [[j de]|] eqn:E.
  - apply list_find_Some in E as (E1 & E2 & E3). rewrite list_lookup_fmap, fmap_Some in E1.
    destruct E1 as (x & [-> Hlt]%lookup_seqZ & ->). rewrite Z.add_0_l in *. split; [done|]. split; [done|]. split; [done|].
    intros a Ha. apply (E3 (Z.to_nat a)); [apply Hlook; lia|lia].
  - apply list_find_None in E. rewrite Forall_forall in E. intros a Ha. apply E.
    eapply list_elem_of_lookup_2. by apply Hlook.
Qed.

(** The inode cache has an entry for (dev, inum), or room for it. *)
Definition iget_room (c : icache) (dev inum : Z) : Prop :=
  irefs c dev inum <> 0 \/ exists i, (i < ninode)%nat /\ i_ref (inodes c !!! i) = 0.

Lemma dirlookup_found (Hwk : (0 < wakeups)%nat) w V d st cap Bs k dp ip name j de :
  tx w V d st cap Bs [] k [] -> inodes (compc w) !!! dp = ip -> dir_ok V ip -> block_lens V -> (1 <= k)%nat ->
  icache_ok (compc w) -> lock_free L_icache w -> i_type ip = T_DIR ->
  list_find (names name) (dir_entries V ip) = Some (j, de) -> iget_room (compc w) ROOTDEV (de_inum de) ->
  exists i w1 w', dirlookup dp name w = Ok (Some (i, Z.of_nat j * sizeof_dirent), w') /\
    lstep w w1 /\ frame icache w1 w' /\ tx w' V d st cap Bs [] k [] /\
    (i < ninode)%nat /\ icache_ok (compc w') /\ stands (compc w') ROOTDEV (de_inum de) i /\
    irefs (compc w') ROOTDEV (de_inum de) = irefs (compc w) ROOTDEV (de_inum de) + 1 /\
    (irefs (compc w) ROOTDEV (de_inum de) = 0 -> i_valid (inodes (compc w') !!! i) = 0 /\ i_ref (inodes (compc w) !!! i) = 0) /\
    (forall j, j <> i -> inodes (compc w') !!! j = inodes (compc w) !!! j) /\
    (inodes (compc w') !!! i = set_i_ref (i_ref (inodes (compc w) !!! i) + 1) (inodes (compc w) !!! i) /\
       stands (compc w) ROOTDEV (de_inum de) i \/
     i_valid (inodes (compc w') !!! i) = 0 /\ i_ref (inodes (compc w) !!! i) = 0).
Proof.
  intros T Hip Hd Hl Hk Hc Hf Ht Hfind Hroom. unfold dirlookup. kdo (get_inode_run dp w). rewrite Hip, Ht. cbn [negb Z.eqb Pos.eqb T_DIR].
  pose proof (find_entry V ip name Hd) as Hfe. rewrite Hfind in Hfe. destruct Hfe as (F1 & -> & F3 & F4).
  assert (Hn : 0 <= i_size ip / sizeof_dirent) by (apply Z.div_pos; [destruct Hd as [[_ F _ _] _]; lia|done]).
  destruct (dirlookup_loop Hwk (S (S (Z.to_nat (i_size ip / sizeof_dirent)))) w V d st cap Bs k dp ip name 0 T Hip Hd Hl Hk) as [L1 _];
    [lia|lia|].
  destruct (L1 (Z.of_nat j) ltac:(lia) F3 F4) as (w1 & S1 & T1 & E1).
  pose proof (lstep_ic _ _ S1) as I1. assert (Hc1 : icache_ok (compc w1)) by by rewrite I1.
  assert (Hf1 : lock_free L_icache w1). { destruct S1 as [[F _] _]. eapply kframe_lock_free; [exact F|]. by apply lock_free_updc. }
  destruct (iget_correct w1 ROOTDEV (de_inum (dir_entry V ip (Z.of_nat j)))) as [P|(_ & P1 & P2)];
    [apply (cs_quiet _ _ _ _ _ _ _ (tx_cs _ _ _ _ _ _ _ _ _ T1))|done|done| |].
  - destruct P as (i & w' & E & Fr & Hi & Hok & Hst & Hrf & Hoth & Hnew). exists i, w1, w'.
    change (0 * sizeof_dirent) with 0 in E1. rewrite E1. kdo E. split; [done|]. split; [done|]. split; [done|].
    split; [eapply tx_apart; [by apply apart_frame|done]|]. split; [done|]. split; [done|]. split; [done|].
    split; [rewrite Hrf, decide_True, I1 by done; done|]. rewrite <- I1. split; [|split; [done|naive_solver]]. intros H0.
    destruct Hnew as [[_ Hst0]|(Hv & _ & Hz)]; [|done]. rewrite (irefs_stands _ _ _ i Hc1 Hi Hst0) in H0. destruct Hst0. lia.
  - rewrite I1 in P1, P2. exfalso. destruct Hroom as [Hr|(i & Hi & Hr)]; [done|]. by apply (P2 i).
Qed.

Lemma dirlookup_absent (Hwk : (0 < wakeups)%nat) w V d st cap Bs k dp ip name :
  tx w V d st cap Bs [] k [] -> inodes (compc w) !!! dp = ip -> dir_ok V ip -> block_lens V -> (1 <= k)%nat ->
  i_type ip = T_DIR -> list_find (names name) (dir_entries V ip) = None ->
  exists w', dirlookup dp name w = Ok (None, w') /\ lstep w w' /\ tx w' V d st cap Bs [] k [].
Proof.
  intros T Hip Hd Hl Hk Ht Hfind. unfold dirlookup. kdo (get_inode_run dp w). rewrite Hip, Ht. cbn [negb Z.eqb Pos.eqb T_DIR].
  pose proof (find_entry V ip name Hd) as Hfe. rewrite Hfind in Hfe.
  assert (Hn : 0 <= i_size ip / sizeof_dirent) by (apply Z.div_pos; [destruct Hd as [[_ F _ _] _]; lia|done]).
  destruct (dirlookup_loop Hwk (S (S (Z.to_nat (i_size ip / sizeof_dirent)))) w V d st cap Bs k dp ip name 0 T Hip Hd Hl Hk) as [_ L2];
    [lia|lia|].
  destruct (L2 ltac:(intros a Ha; apply Hfe; lia)) as (w1 & S1 & T1 & E1). by exists w1.
Qed.

(** C17: dirlookup returns the inode and the offset of the first entry in use with the
    name (names are compared up to DIRSIZ bytes), with a reference on the inode;
    0 when there is none.  It changes no block.  An inode that is not a directory
    is a panic.  The scan ends within its bound on rounds. *)
Theorem dirlookup_correct w V d st cap Bs k dp ip name
  (Hwk : (0 < wakeups)%nat) (T : tx w V d st cap Bs [] k []) (Hip : inodes (compc w) !!! dp = ip)
  (Hd : dir_ok V ip) (Hl : block_lens V) (Hk : (1 <= k)%nat)
  (Hc : icache_ok (compc w)) (Hf : lock_free L_icache w) :
  if decide (i_type ip = T_DIR) then
    match list_find (names name) (dir_entries V ip) with
    | Some (j, de) => iget_room (compc w) ROOTDEV (de_inum de) ->
        exists i w', dirlookup dp name w = Ok (Some (i, Z.of_nat j * sizeof_dirent), w') /\
          tx w' V d st cap Bs [] k [] /\ stands (compc w') ROOTDEV (de_inum de) i /\
          irefs (compc w') ROOTDEV (de_inum de) = irefs (compc w) ROOTDEV (de_inum de) + 1
    | None => exists w', dirlookup dp name w = Ok (None, w') /\ lstep w w' /\ tx w' V d st cap Bs [] k []
    end
  else dirlookup dp name w = Panic "dirlookup not DIR".
Proof.
  case_decide as Ht.
  - destruct (list_find _ _) as [[j de]|] eqn:E.
    + intros Hroom. destruct (dirlookup_found Hwk w V d st cap Bs k dp ip name j de) as (i & w1 & w' & R); try done.
      exists i, w'. by destruct R as (? & _ & _ & ? & _ & _ & ? & ? & _).
    + by apply (dirlookup_absent Hwk w V d st cap Bs k dp ip name).
  - unfold dirlookup. kdo (get_inode_run dp w). rewrite Hip. by rewrite (proj2 (Z.eqb_neq _ _)).
Qed.

(** C12: readi delivers the bytes of the file at the offset, cut off at its size, and
    nothing past the end or when the offset and the length overflow.  They go, block after
    block, to consecutive addresses of the destination: to the bytes that the page table
    of the process maps at a user address, to physical memory at a kernel address, or into
    an object of the kernel; no other byte of memory changes, no block of the disk or of
    the cache changes, and readi ends within its bound on rounds. *)
Theorem readi_correct w V d st cap Bs k i ip PT dst off n (len := read_len ip off n) (bs := file_bytes V ip off len)
  (Hwk : (0 < wakeups)%nat) (T : tx w V d st cap Bs [] k []) (Hip : inodes (compc w) !!! i = ip)
  (Hf : file_ok V ip) (Hl : block_lens V) (Hoff : 0 <= off < 2 ^ 32) (Hn : 0 <= n < 2 ^ 32) (Hk : (1 <= k)%nat)
  (Hdst : dest w PT dst len) :
  exists w', readi i dst off n w = Ok ((len, bs), w') /\
    delivered (pbytes (compc w)) (pbytes (compc w')) PT dst bs /\
    lstep (with_mem w (pbytes (compc w'))) w' /\ tx w' V d st cap Bs [] k [] /\
    (0 <= len /\ len <= n /\ off + len <= Z.max off (i_size ip)).
Proof.
  pose proof (read_len_range ip off n Hoff Hn) as Hr. fold len in Hr.
  assert (Hlen : Z.of_nat (length bs) = len) by (unfold bs; rewrite length_file_bytes; lia).
  destruct (readi_run Hwk w V d st cap Bs k i ip PT dst off n) as (w' & E & S' & T'); try done.
  fold len bs in E, S'. exists w'. destruct (lstep_frame _ _ S') as [Em _]. rewrite Em, compc_with_mem. cbn [pbytes].
  split_and!; try done; try lia. apply deliver_delivered. by rewrite Hlen.
Qed.
End Dir.

(** ** A directory with three entries, the second one deleted *)

Definition ex_name (s : string) : list Z := strncpy_l 14 (str s).
Definition ex_dirblock : blk :=
  dirent_bytes (Dirent 1 (ex_name ".")) ++ dirent_bytes (Dirent 0 (ex_name "init")) ++
  dirent_bytes (Dirent 7 (ex_name "init")) ++ repeat 0 976.
Definition ex_dirdisk : disk := Disk {[50 := ex_dirblock]} [].

Lemma ex_dirlens : block_lens (disk_block ex_dirdisk).
Proof.
  intros n. unfold disk_block, ex_dirdisk. cbn. destruct (decide (n = 50)) as [->|Hn].
  - rewrite lookup_singleton_eq. reflexivity.
  - rewrite lookup_singleton_ne by done. reflexivity.
Qed.

Lemma ex_dir_file : file_ok (disk_block ex_dirdisk) ex_ip.
Proof.
  split; [done|by vm_compute| |by vm_compute]. intros bn H0 Hlt. change (i_size ex_ip) with 48 in Hlt. unfold BSIZE in Hlt.
  assert (bn = 0) as -> by lia. by vm_compute.
Qed.
Lemma ex_dir_ok : dir_ok (disk_block ex_dirdisk) ex_ip.
Proof. split; [apply ex_dir_file|done]. Qed.

(** A process with a page table. *)
Definition set_pagetable (pt : Z) (p : proc) : proc :=
  Proc (p_state p) (p_parent p) (p_chan p) (p_killed p) (p_xstate p) (p_pid p) (p_kstack p) (p_sz p) pt (p_trapframe p)
    (p_ra p) (p_sp p) (p_ofile p) (p_cwd p) (p_name p) (p_syscall_mask p).

(** The running process gets the memory of the example in Uaccess. *)
Definition user_world (p : nat) (w : world kstate) : world kstate :=
  updc (tab_alter (set_pagetable (vm_page 4)) p (compc w)) (updc (Pmem us_mem 0) w).
Lemma user_world_ok w p : quiet w -> runs w p -> apart w (user_world p w) /\
  pt_ok (vm_page 4) us_mem (p_pagetable (procs (compc (user_world p w)) !!! p)) us_tree.
Proof.
  intros Q (P1 & P2 & P3). pose proof Q as [Q1 _ Q3]. unfold user_world.
  assert (Hp : alter (set_pagetable (vm_page 4)) p (procs (compc (T := proctab) w)) !!! p = set_pagetable (vm_page 4) (procs (compc w) !!! p)).
  { apply list_lookup_total_correct. rewrite list_lookup_alter_eq, list_lookup_lookup_total_lt by lia. done. }
  split; [split; try done|].
  - intros _. split; [eauto with xv6| |eauto with xv6]. exists p. split_and!; [done|done|].
    rewrite compc_updc. cbn [tab_alter procs]. by rewrite length_alter.
  - unfold cur_pid. change (c_proc _) with (c_proc (h_cpu (cur w))). rewrite P1, compc_updc. cbn [tab_alter procs].
    by rewrite Hp.
  - rewrite compc_updc. cbn [tab_alter procs]. rewrite Hp. exact us_pt.
Qed.

Lemma ex_dest w p n : quiet w -> runs w p -> n <= 8 -> dest (user_world p w) us_tree (D_user 5000) n.
Proof.
  intros Q P Hn. destruct (user_world_ok w p Q P) as [A Hpt]. exists p, (vm_page 4).
  split; [apply P|]. split; [done|]. split; [lia|]. split; [lia|]. split; [exact Hpt|]. split.
  - intros i Hi. eexists. apply us_addr. lia.
  - intros i pa k x Hi Hp Hk. change (pbytes (compc (user_world p w))) with us_mem in Hp. rewrite us_addr in Hp by lia. injection Hp as <-.
    apply us_tree_inv in Hk as [[_ ->]|[[_ ->]|[_ ->]]]; unfold vm_page, PGSIZE; lia.
Qed.

Lemma readi_correct_witness : exists w w',
  readi (SC := ex_sched) (VD := ex_disk) 0 (D_user 5000) 32 8 w = Ok ((8, [7; 0; 105; 110; 105; 116; 0; 0]), w') /\
  user_bytes (pbytes (compc w')) us_tree 5000 8 = [7; 0; 105; 110; 105; 116; 0; 0].
Proof.
  destruct (ex_iworld ex_dirdisk ex_ip) as (w & T & Hsb & Hic & _).
  pose proof (cs_quiet _ _ _ _ _ _ _ (tx_cs _ _ _ _ _ _ _ _ _ T)) as Q. pose proof Q as [_ [p P] _].
  destruct (user_world_ok w p Q P) as [A _]. exists (user_world p w).
  destruct (readi_correct (SC := ex_sched) (VD := ex_disk) (user_world p w) _ _ _ _ _ _ 0 ex_ip us_tree (D_user 5000) 32 8
    ltac:(cbn; lia) (tx_apart _ _ _ _ _ _ _ _ _ _ A T) ltac:(change (compc (T := icache) (user_world p w)) with (compc (T := icache) w); rewrite Hic; reflexivity)
    ex_dir_file ex_dirlens ltac:(lia) ltac:(lia) ltac:(unfold nbuf, NBUF, MAXOPBLOCKS; cbn; lia) (ex_dest w p 8 Q P ltac:(lia)))
    as (w' & E & [D _] & _).
  exists w'. split; [exact E|]. etrans; [apply D|reflexivity].
  vm_compute. repeat (apply NoDup_cons; split; [rewrite list_elem_of_In; cbn; lia|]). apply NoDup_nil_2.
Defined.

Lemma dirlookup_correct_witness : exists w i w',
  dirlookup (SC := ex_sched) (VD := ex_disk) 0 (str "init") w = Ok (Some (i, 32), w') /\ irefs (compc w') ROOTDEV 7 = 1.
Proof.
  destruct (ex_iworld ex_dirdisk ex_ip) as (w & T & Hsb & Hic & _ & Hf). exists w.
  pose proof (dirlookup_correct (SC := ex_sched) (VD := ex_disk) w _ _ _ _ _ _ 0 ex_ip (str "init")
    ltac:(cbn; lia) T ltac:(rewrite Hic; reflexivity) ex_dir_ok ex_dirlens
    ltac:(unfold nbuf, NBUF, MAXOPBLOCKS; cbn; lia) ltac:(rewrite Hic; by apply (ex_ic_ok ex_ip)) Hf) as P.
  rewrite decide_True in P by done.
  assert (F : list_find (names (str "init")) (dir_entries (disk_block ex_dirdisk) ex_ip) =
    Some (2%nat, Dirent 7 (ex_name "init"))) by (by vm_compute).
  rewrite F in P. destruct P as (i & w' & E & _ & _ & R).
  - right. exists 1%nat. rewrite Hic. split; [unfold ninode, NINODE; lia|reflexivity].
  - exists i, w'. split; [exact E|]. rewrite Hic in R. exact R.
Defined.
