(* ===== verification/FsBmap.v ===== *)
(** * fs.c: bmap and the blocks of a file

    The blocks an inode refers to are [MAXFILE] slots and the slot of its indirect
    block.  bmap fills an empty slot with a fresh block; the file keeps its
    contents, and nothing that belongs to another file changes. *)
From stdpp Require Import prelude gmap strings.
From Stdlib Require Import ZArith Lia.
From S2P Require Import Prelude Memory CString Spinlock Riscv Kalloc Vm Uaccess Proc Bytes State Sleeplock Copy Console Bio BioView BioClient Log Fs LogSpec LogOps FsTx FsAlloc FsInode Icache FsFile.
Open Scope Z_scope.

(** ** The disk and its free blocks *)

(** A block that can belong to a file: none of the boot block, the log, the inodes
    and the bitmap. *)
Record home (sb : superblock) (st n : Z) : Prop := {
  hm_range : 0 < n < sb_size sb;
  hm_log : ~ in_log st n;
  hm_bm : forall m, 0 <= m < sb_size sb -> BBLOCK m sb <> n;
  hm_ino : forall j, 0 <= j < sb_ninodes sb -> IBLOCK j sb <> n;
}.

(** The other blocks are marked as used. *)
Definition meta_used (V : Z -> blk) (sb : superblock) (st : Z) : Prop :=
  forall n, 0 <= n < sb_size sb -> used V sb n = false -> home sb st n.

Definition taken (V : Z -> blk) (sb : superblock) (st n : Z) : Prop := home sb st n /\ used V sb n = true.

(** How many blocks are free. *)
Definition free_count (V : Z -> blk) (sb : superblock) : nat :=
  length (filter (fun n => used V sb n = false) (seqZ 0 (sb_size sb))).

Lemma first_free_ex V sb st : meta_used V sb st -> (0 < free_count V sb)%nat ->
  exists n, first_free V sb st n /\ home sb st n.
Proof.
  intros Hm Hf. destruct (list_find (fun n => used V sb n = false) (seqZ 0 (sb_size sb))) as [[j n]|] eqn:E.
  - apply list_find_Some in E as (E1 & E2 & E3). apply lookup_seqZ in E1 as [-> Hj].
    exists (0 + Z.of_nat j). pose proof (Hm (0 + Z.of_nat j) ltac:(lia) E2) as [H1 H2 H3 H4].
    split; [|done]. split; [lia|done| |done|done]. intros m Hr.
    destruct (used V sb m) eqn:Em; [done|]. exfalso. apply (E3 (Z.to_nat m) m); [|lia|done].
    rewrite lookup_seqZ_lt by lia. f_equal. lia.
  - apply list_find_None in E. unfold free_count in Hf.
    destruct (filter _ _) as [|x l] eqn:Ef; [cbn in Hf; lia|].
    assert (Hx : x ∈ filter (fun n => used V sb n = false) (seqZ 0 (sb_size sb))) by (rewrite Ef; by left).
    apply list_elem_of_filter in Hx as [H1 H2]. rewrite Forall_forall in E. by destruct (E x H2).
Qed.

Lemma filter_less {A} `{!EqDecision A} (P Q : A -> Prop) `{!forall x, Decision (P x), !forall x, Decision (Q x)} (l : list A) n :
  NoDup l -> n ∈ l -> P n -> ~ Q n -> (forall x, x ∈ l -> x <> n -> (Q x <-> P x)) ->
  length (filter P l) = S (length (filter Q l)).
Proof.
  intros Hnd Hn HP HQ Heq. pose proof (filter_change P Q l n Hnd Hn) as Hc.
  rewrite (decide_True (P := P n)), (decide_False (P := Q n)) in Hc by done.
  specialize (Hc ltac:(intros x Hx Hne; split; intros; by apply Heq)). lia.
Qed.

Lemma free_count_alloc V V' sb n : 0 <= n < sb_size sb -> used V sb n = false ->
  (forall m, 0 <= m < sb_size sb -> used V' sb m = used V sb m || bool_decide (m = n)) ->
  free_count V sb = S (free_count V' sb).
Proof.
  intros Hn Hf Hu. unfold free_count. apply (filter_less _ _ _ n); [apply NoDup_seqZ|apply elem_of_seqZ; lia|done| |].
  - rewrite Hu, bool_decide_true, orb_true_r by done. done.
  - intros x Hx%elem_of_seqZ Hne. rewrite Hu, bool_decide_false, orb_false_r by (done || lia). done.
Qed.

(** ** The slots of an inode *)

(** Slot [bn] is the block with the [bn]th part of the file, slot MAXFILE the
    indirect block; 0 where there is none. *)
Definition slot (V : Z -> blk) (ip : inode) (s : Z) : Z :=
  if s =? MAXFILE then i_addrs ip !!! Z.to_nat NDIRECT else fblock V ip s.

Definition is_slot (s : Z) : Prop := 0 <= s <= MAXFILE.

(** Every slot is empty or has a block of its own, which is marked as used. *)
Record file_wf (V : Z -> blk) (sb : superblock) (st : Z) (ip : inode) : Prop := {
  fw_dev : i_dev ip = ROOTDEV;
  fw_len : length (i_addrs ip) = 13%nat;
  fw_taken : forall s, is_slot s -> slot V ip s = 0 \/ taken V sb st (slot V ip s);
  fw_inj : forall s s', is_slot s -> is_slot s' -> slot V ip s = slot V ip s' -> slot V ip s <> 0 -> s = s';
}.

Record file_inv (V : Z -> blk) (sb : superblock) (st : Z) (ip : inode) : Prop := {
  fv_wf : file_wf V sb st ip;
  fv_meta : meta_used V sb st;
  fv_lens : block_lens V;
}.

(** The [bn]th part of the file; a hole reads as zeroes. *)
Definition content (V : Z -> blk) (ip : inode) (bn : Z) : blk :=
  let a := fblock V ip bn in if a =? 0 then zero_block else V a.

Lemma slot_block V ip bn : bn < MAXFILE -> slot V ip bn = fblock V ip bn.
Proof. intros H. unfold slot. by rewrite (proj2 (Z.eqb_neq _ _)) by lia. Qed.
Lemma slot_ind V ip : slot V ip MAXFILE = i_addrs ip !!! Z.to_nat NDIRECT.
Proof. unfold slot. by rewrite Z.eqb_refl. Qed.

(** Only the block addresses of the inode changed. *)
Definition same_inode (ip ip' : inode) : Prop :=
  ip' = Inode (i_dev ip) (i_inum ip) (i_ref ip) (i_valid ip) (i_type ip) (i_major ip) (i_minor ip)
    (i_nlink ip) (i_size ip) (i_addrs ip').

(** [(V', ip')] is the file [(V, ip)] with at most [c] more blocks, taken from the
    free ones, and perhaps other contents; what belongs to other files is as
    before. *)
Record kept (sb : superblock) (st : Z) (c : nat) (V : Z -> blk) (ip : inode) (V' : Z -> blk) (ip' : inode) : Prop := {
  gw_inv : file_inv V' sb st ip';
  gw_inode : same_inode ip ip';
  gw_slot : forall s, is_slot s -> slot V' ip' s = slot V ip s \/
    (slot V ip s = 0 /\ home sb st (slot V' ip' s) /\ used V sb (slot V' ip' s) = false);
  gw_used : forall m, 0 <= m < sb_size sb -> used V sb m = true -> used V' sb m = true;
  gw_other : forall m, (forall q, 0 <= q < sb_size sb -> BBLOCK q sb <> m) ->
    (home sb st m -> used V sb m = true) -> (forall s, is_slot s -> slot V ip s <> m) -> V' m = V m;
  gw_free : (free_count V sb <= c + free_count V' sb)%nat;
}.
(** ... with the same contents. *)
Record grew (sb : superblock) (st : Z) (c : nat) (V : Z -> blk) (ip : inode) (V' : Z -> blk) (ip' : inode) : Prop := {
  gw_kept :> kept sb st c V ip V' ip';
  gw_content : forall bn, 0 <= bn < MAXFILE -> content V' ip' bn = content V ip bn;
}.

Lemma kept_refl sb st V ip : file_inv V sb st ip -> kept sb st 0 V ip V ip.
Proof. intros H. split; try done; [by destruct ip|by left]. Qed.
Lemma grew_refl sb st V ip : file_inv V sb st ip -> grew sb st 0 V ip V ip.
Proof. intros H. split; [by apply kept_refl|done]. Qed.

Lemma home_nonzero sb st n : home sb st n -> n <> 0.
Proof. intros [H _ _ _]. lia. Qed.

Lemma kept_trans sb st c1 c2 V1 ip1 V2 ip2 V3 ip3 :
  kept sb st c1 V1 ip1 V2 ip2 -> kept sb st c2 V2 ip2 V3 ip3 -> kept sb st (c1 + c2) V1 ip1 V3 ip3.
Proof.
  intros [A1 A2 A4 A5 A6 A7] [B1 B2 B4 B5 B6 B7]. split; [done| | | | |lia].
  - unfold same_inode in *. rewrite B2, A2. done.
  - intros s Hs. destruct (A4 s Hs) as [E1|(Z1 & H1 & U1)], (B4 s Hs) as [E2|(Z2 & H2 & U2)].
    + left. congruence.
    + right. split; [congruence|]. split; [done|]. destruct (used V1 sb _) eqn:E; [|done].
      rewrite A5 in U2; [done|destruct H2; lia|done].
    + right. by rewrite E2.
    + apply home_nonzero in H1. done.
  - auto.
  - intros m M1 M2 M3. rewrite B6; [by apply A6|done|..].
    + intros Hm. apply A5; [destruct Hm; lia|auto].
    + intros s Hs E. destruct (A4 s Hs) as [E1|(Z1 & H1 & U1)]; [rewrite E1 in E; by apply (M3 s)|].
      rewrite E in H1, U1. by rewrite M2 in U1.
Qed.
Lemma grew_trans sb st c1 c2 V1 ip1 V2 ip2 V3 ip3 :
  grew sb st c1 V1 ip1 V2 ip2 -> grew sb st c2 V2 ip2 V3 ip3 -> grew sb st (c1 + c2) V1 ip1 V3 ip3.
Proof. intros [A1 A2] [B1 B2]. split; [by eapply kept_trans|]. intros bn Hbn. by rewrite B2, A2. Qed.

(** Filling one slot with a free block. *)
Lemma grew_fill sb st s0 n V ip V' ip' :
  file_inv V sb st ip -> is_slot s0 -> slot V ip s0 = 0 -> home sb st n -> used V sb n = false ->
  same_inode ip ip' -> length (i_addrs ip') = 13%nat ->
  (forall s, is_slot s -> slot V' ip' s = if decide (s = s0) then n else slot V ip s) ->
  (forall m, 0 <= m < sb_size sb -> used V' sb m = used V sb m || bool_decide (m = n)) ->
  V' n = zero_block -> block_lens V' ->
  (forall m, (forall q, 0 <= q < sb_size sb -> BBLOCK q sb <> m) -> m <> n -> m <> slot V ip MAXFILE -> V' m = V m) ->
  grew sb st 1 V ip V' ip'.
Proof.
  intros [[W1 W2 W3 W4] Hm Hl] Hs0 Hz Hh Hf Hi Hlen Hsl Hu Hn Hl' Ho.
  assert (Hnu : forall s, is_slot s -> slot V ip s <> n).
  { intros s Hs E. destruct (W3 s Hs) as [E0|[_ U]]; [rewrite E in E0; by apply home_nonzero in Hh|]. congruence. }
  assert (Hup : forall m, 0 <= m < sb_size sb -> used V sb m = true -> used V' sb m = true).
  { intros m Hr Hum. by rewrite Hu, Hum. }
  pose proof (hm_range _ _ _ Hh) as Hr.
  split; [split; [split; [split| |done]|done| |done| |]|].
  - unfold same_inode in Hi. by rewrite Hi.
  - done.
  - intros s Hs. rewrite Hsl by done. destruct (decide (s = s0)) as [->|].
    + right. split; [done|]. rewrite Hu, bool_decide_true, orb_true_r by (done || lia). done.
    + destruct (W3 s Hs) as [|[H1 H2]]; [by left|right]. split; [done|]. apply Hup; [destruct H1; lia|done].
  - intros s s' Hs Hs'. rewrite !Hsl by done. repeat case_decide; [congruence|..|by apply W4].
    + intros E. by destruct (Hnu s' Hs').
    + intros E. by destruct (Hnu s Hs).
  - intros m Hrm. rewrite Hu by done. intros [H1 _]%orb_false_iff. by apply Hm.
  - intros s Hs. rewrite Hsl by done. destruct (decide (s = s0)) as [->|]; [right|by left]. done.
  - intros m M1 M2 M3. apply Ho; [done| |apply not_eq_sym, M3; unfold is_slot; split; done].
    intros ->. rewrite M2 in Hf by done. done.
  - by rewrite (free_count_alloc V V' sb n) by (done || lia).
  - intros bn Hbn. assert (Hs : is_slot bn) by (unfold is_slot; lia). unfold content.
    rewrite <- !slot_block by lia. rewrite Hsl by done. destruct (decide (bn = s0)) as [->|].
    + rewrite Hz, Z.eqb_refl. by rewrite (proj2 (Z.eqb_neq _ _) (home_nonzero _ _ _ Hh)).
    + destruct (Z.eqb_spec (slot V ip bn) 0) as [|Hne]; [done|]. apply Ho.
      * intros q Hq. destruct (W3 bn Hs) as [|[H1 _]]; [done|]. by apply H1.
      * by apply Hnu.
      * intros E. assert (bn = MAXFILE); [|lia]. apply W4; try done.
Qed.

(** ** alloc_view in the three places of bmap *)

Lemma alloc_view_other V sb n m : m <> n -> m <> BBLOCK n sb -> alloc_view V sb n m = V m.
Proof. intros H1 H2. unfold alloc_view. by rewrite !fupd_ne. Qed.
Lemma alloc_view_new V sb n : alloc_view V sb n n = zero_block.
Proof. unfold alloc_view. by rewrite fupd_eq. Qed.
Lemma length_zero_block : length zero_block = Z.to_nat BSIZE.
Proof. with_strategy transparent [zero_block] apply repeat_length. Qed.
Lemma block_lens_fupd V n x : block_lens V -> length x = Z.to_nat BSIZE -> block_lens (fupd V n x).
Proof. intros Hl Hx m. unfold fupd. case_decide; [done|apply Hl]. Qed.
Lemma alloc_view_lens V sb n : block_lens V -> block_lens (alloc_view V sb n).
Proof.
  intros Hl. unfold alloc_view. apply block_lens_fupd; [|apply length_zero_block]. apply block_lens_fupd; [done|].
  unfold set_byte. by rewrite length_insert.
Qed.

Lemma uint_zero j : 0 <= j -> uint_at zero_block j = 0.
Proof.
  intros Hj. unfold uint_at, get_le. assert (H : Forall (eq 0) (slice (Z.to_nat (4 * j)) 4 zero_block)).
  { unfold slice. apply Forall_take, Forall_drop. apply Forall_forall. intros x Hx. symmetry.
    apply list_elem_of_In in Hx. with_strategy transparent [zero_block] unfold zero_block in Hx. by apply repeat_spec in Hx. }
  induction H as [|x l <- _ IH]; [done|]. cbn [of_bytes]. by rewrite IH.
Qed.

Section Fill.
Context (sb : superblock) (st : Z) (V : Z -> blk) (ip : inode) (n : Z).
Context (Hv : file_inv V sb st ip) (Hff : first_free V sb st n) (Hh : home sb st n).

Let Hl : block_lens V := fv_lens _ _ _ _ Hv.

Lemma slot_not_new s : is_slot s -> slot V ip s <> n.
Proof.
  intros Hs E. pose proof (home_nonzero _ _ _ Hh) as Hn. destruct (fw_taken _ _ _ _ (fv_wf _ _ _ _ Hv) s Hs) as [E0|[_ U]].
  - congruence.
  - rewrite E, (ff_free _ _ _ _ Hff) in U. done.
Qed.
Lemma alloc_view_slot s : is_slot s -> slot V ip s <> 0 -> alloc_view V sb n (slot V ip s) = V (slot V ip s).
Proof.
  intros Hs Hz. apply alloc_view_other; [by apply slot_not_new|].
  destruct (fw_taken _ _ _ _ (fv_wf _ _ _ _ Hv) s Hs) as [|[H1 _]]; [done|]. apply not_eq_sym, H1, (ff_range _ _ _ _ Hff).
Qed.

Lemma max_slot : is_slot MAXFILE.
Proof. split; done. Qed.

Lemma grew_direct bn : 0 <= bn < NDIRECT -> fblock V ip bn = 0 ->
  grew sb st 1 V ip (alloc_view V sb n) (set_i_addr bn n ip) /\
  fblock (alloc_view V sb n) (set_i_addr bn n ip) bn = n.
Proof.
  intros Hbn Hz. pose proof (fv_wf _ _ _ _ Hv) as [W1 W2 W3 W4].
  assert (HN : NDIRECT < MAXFILE) by done. assert (HD : NDIRECT = 12) by done.
  assert (Hsl : forall s, is_slot s -> slot (alloc_view V sb n) (set_i_addr bn n ip) s =
    if decide (s = bn) then n else slot V ip s).
  { intros s Hs. unfold slot at 1, fblock. cbn [set_i_addr i_addrs].
    assert (Hi : (<[Z.to_nat bn:=n]> (i_addrs ip) : list Z) !!! Z.to_nat NDIRECT = i_addrs ip !!! Z.to_nat NDIRECT).
    { apply list_lookup_total_insert_ne. lia. }
    rewrite Hi. destruct (Z.eqb_spec s MAXFILE) as [->|].
    { rewrite decide_False by lia. by rewrite slot_ind. }
    unfold is_slot in Hs. rewrite slot_block by lia. unfold fblock. destruct (Z.ltb_spec s NDIRECT).
    - case_decide as E; [subst; apply list_lookup_total_insert_eq; lia|]. apply list_lookup_total_insert_ne. lia.
    - rewrite decide_False by lia. destruct (Z.eqb_spec (i_addrs ip !!! Z.to_nat NDIRECT) 0) as [|Hne]; [done|].
      pose proof (alloc_view_slot MAXFILE max_slot) as E. rewrite slot_ind in E. by rewrite E. }
  split.
  - apply (grew_fill sb st bn n); try done.
    + split; lia.
    + by rewrite slot_block by lia.
    + apply (ff_free _ _ _ _ Hff).
    + cbn. by rewrite length_insert.
    + intros m Hm. by apply (alloc_view_used V sb st).
    + apply alloc_view_new.
    + by apply alloc_view_lens.
    + intros m M1 M2 _. apply alloc_view_other; [done|]. apply not_eq_sym, M1, (ff_range _ _ _ _ Hff).
  - rewrite <- slot_block by lia. rewrite Hsl by (split; lia). by rewrite decide_True.
Qed.

Lemma grew_ind : i_addrs ip !!! Z.to_nat NDIRECT = 0 ->
  grew sb st 1 V ip (alloc_view V sb n) (set_i_addr NDIRECT n ip) /\
  i_addrs (set_i_addr NDIRECT n ip) !!! Z.to_nat NDIRECT = n.
Proof.
  intros Hz. pose proof (fv_wf _ _ _ _ Hv) as [W1 W2 W3 W4].
  assert (HN : NDIRECT < MAXFILE) by done. assert (HD : NDIRECT = 12) by done.
  assert (Hi : i_addrs (set_i_addr NDIRECT n ip) !!! Z.to_nat NDIRECT = n).
  { apply list_lookup_total_insert_eq. lia. }
  split; [|done]. apply (grew_fill sb st MAXFILE n); try done.
  - apply (ff_free _ _ _ _ Hff).
  - cbn. by rewrite length_insert.
  - intros s Hs. destruct (decide (s = MAXFILE)) as [->|Hne]; [by rewrite slot_ind|]. unfold is_slot in Hs.
    rewrite !slot_block by lia. unfold fblock. rewrite Hi, Hz, Z.eqb_refl, alloc_view_new.
    rewrite (proj2 (Z.eqb_neq _ _) (home_nonzero _ _ _ Hh)).
    destruct (Z.ltb_spec s NDIRECT); [apply list_lookup_total_insert_ne; lia|apply uint_zero; lia].
  - intros m Hm. by apply (alloc_view_used V sb st).
  - apply alloc_view_new.
  - by apply alloc_view_lens.
  - intros m M1 M2 _. apply alloc_view_other; [done|]. apply not_eq_sym, M1, (ff_range _ _ _ _ Hff).
Qed.

Lemma grew_entry bn a (Hsz : sb_size sb < 2 ^ 31) : i_addrs ip !!! Z.to_nat NDIRECT = a -> a <> 0 -> NDIRECT <= bn < MAXFILE -> fblock V ip bn = 0 ->
  grew sb st 1 V ip (fupd (alloc_view V sb n) a (set_uint (bn - NDIRECT) n (V a))) ip /\
  fblock (fupd (alloc_view V sb n) a (set_uint (bn - NDIRECT) n (V a))) ip bn = n.
Proof.
  intros Ha Hne Hbn Hz. pose proof (fv_wf _ _ _ _ Hv) as [W1 W2 W3 W4]. pose proof (hm_range _ _ _ Hh) as Hr.
  assert (HN : MAXFILE = 268) by done. assert (HD : NDIRECT = 12) by done. pose proof (Hl a) as Hla. change (Z.to_nat BSIZE) with 1024%nat in Hla.
  set (V' := fupd _ a _).
  assert (Hsl : forall s, is_slot s -> slot V' ip s = if decide (s = bn) then n else slot V ip s).
  { intros s Hs. unfold is_slot in Hs. destruct (decide (s = MAXFILE)) as [->|Hm].
    { rewrite decide_False by lia. by rewrite !slot_ind. }
    rewrite !slot_block by lia. unfold fblock. destruct (Z.ltb_spec s NDIRECT); [by rewrite decide_False by lia|].
    rewrite Ha, (proj2 (Z.eqb_neq a 0)) by done. unfold V'. rewrite fupd_eq. unfold uint_at, set_uint.
    case_decide as E; [subst s; apply get_put_eq; lia|apply get_put_ne; lia]. }
  assert (Hat : taken V sb st a).
  { rewrite <- Ha, <- (slot_ind V). destruct (W3 MAXFILE max_slot) as [E|]; [|done]. rewrite slot_ind in E. congruence. }
  assert (Han : a <> n). { rewrite <- Ha, <- (slot_ind V). apply slot_not_new, max_slot. }
  split; [|rewrite <- slot_block by lia; rewrite Hsl by (split; lia); by rewrite decide_True].
  apply (grew_fill sb st bn n); try done.
  - split; lia.
  - by rewrite slot_block by lia.
  - apply (ff_free _ _ _ _ Hff).
  - by destruct ip.
  - intros m Hm. unfold V'. rewrite used_fupd_other; [by apply (alloc_view_used V sb st)|]. by apply (hm_bm _ _ _ (proj1 Hat)).
  - unfold V'. rewrite fupd_ne by congruence. apply alloc_view_new.
  - apply block_lens_fupd; [by apply alloc_view_lens|]. unfold set_uint. rewrite length_put_le; [done|]. lia.
  - intros m M1 M2 M3. rewrite slot_ind, Ha in M3. unfold V'. rewrite fupd_ne by done.
    apply alloc_view_other; [done|]. apply not_eq_sym, M1, (ff_range _ _ _ _ Hff).
Qed.
End Fill.

(** ** bmap *)

(** Only the cache, the log and the table of inodes changed. *)
Definition fstep (w w' : world kstate) : Prop := lstep (updc (compc (T := icache) w') w) w'.

Lemma lstep_updc_ic (c : icache) w w' : lstep w w' -> lstep (updc c w) (updc c w').
Proof.
  unfold lstep. intros [[F (E & L & P)] S]. split; [|done]. split; [done|]. split_and!; [|done..].
  cbn in *. rewrite E. done.
Qed.
Lemma lstep_fstep w w' : lstep w w' -> fstep w w'.
Proof. intros S. unfold fstep. by rewrite (lstep_ic _ _ S), updc_compc. Qed.
Lemma fstep_ic (c : icache) w : fstep w (updc c w).
Proof. unfold fstep. rewrite compc_updc. done. Qed.
#[export] Instance fstep_preorder : PreOrder fstep.
Proof.
  split.
  - intros w. unfold fstep. by rewrite updc_compc.
  - intros w1 w2 w3 S1 S2. unfold fstep in *. etrans; [|exact S2].
    apply (lstep_updc_ic (compc w3)) in S1. by rewrite updc_updc in S1.
Qed.
Lemma fstep_sb w w' : fstep w w' -> compc (T := superblock) w' = compc w.
Proof. intros S. by rewrite (lstep_sb _ _ S). Qed.

Lemma fstep_kframe w w' : fstep w w' -> kframe w w'.
Proof. intros [[F _] _]. etrans; [|exact F]. done. Qed.

Lemma grew_weaken sb st c c' V ip V' ip' : (c <= c')%nat -> grew sb st c V ip V' ip' -> grew sb st c' V ip V' ip'.
Proof. intros Hc [[A1 A2 A4 A5 A6 A7] A3]. split; [split|]; try done. lia. Qed.

Section Bmap.
Context {SC : Sched} {VD : VirtioDisk}.
Implicit Types (w : world kstate).
Context (Hwk : (0 < wakeups)%nat).

Lemma balloc_any w V d st cap Bs k H sb : tx w V d st cap Bs [] k H -> compc w = sb -> bitmap_ok sb st ->
  meta_used V sb st -> (forall m, m ∈ H.*2 -> taken V sb st m) -> (2 <= k)%nat -> Z.of_nat (length Bs) + 2 <= cap ->
  (0 < free_count V sb)%nat ->
  exists n w' k', balloc ROOTDEV w = Ok (n, w') /\ lstep w w' /\ first_free V sb st n /\ home sb st n /\
    tx w' (alloc_view V sb n) d st cap (alloc_blocks sb n Bs) [] k' H /\
    (k' + length (alloc_blocks sb n Bs) = k + length Bs)%nat.
Proof.
  intros T Hsb Hbm Hm Hh Hk Hc Hf. destruct (first_free_ex V sb st Hm Hf) as (n & Hff & Hn).
  assert (Hun : bitmap_unheld sb H). { intros q Hq Hin. destruct (Hh _ Hin) as [Hhm _]. by apply (hm_bm _ _ _ Hhm q). }
  assert (Hq : 0 <= sb_size sb / BPB) by (apply Z.div_pos; [destruct Hbm; lia|done]).
  destruct (balloc_loop Hwk (S (S (Z.to_nat (sb_size sb / BPB)))) w V d st cap Bs k H sb 0) as [L _]; try done; try lia.
  destruct (L n Hff) as (w' & k' & E & S' & T' & K').
  { intros Hin. destruct (Hh _ Hin) as [_ U]. rewrite (ff_free _ _ _ _ Hff) in U. done. }
  { destruct (hm_range _ _ _ Hn). lia. }
  exists n, w', k'. unfold balloc. kdo (get_sb_run w). by rewrite Hsb.
Qed.

(** What bmap may put into the transaction. *)
Definition bmap_logs (sb : superblock) (Bs Bs' : list Z) (V' : Z -> blk) (ip' : inode) (bn : Z) : Prop :=
  forall m, m ∈ Bs' -> m ∈ Bs \/ (exists q, 0 <= q < sb_size sb /\ m = BBLOCK q sb) \/
    m <> 0 /\ (m = slot V' ip' MAXFILE \/ m = slot V' ip' bn).

Lemma alloc_logs sb st n Bs m : home sb st n -> m ∈ alloc_blocks sb n Bs ->
  m ∈ Bs \/ (exists q, 0 <= q < sb_size sb /\ m = BBLOCK q sb) \/ m <> 0 /\ m = n.
Proof.
  intros Hh. unfold alloc_blocks. rewrite !elem_of_logged. intros [[?| ->]| ->]; [by left|right; left|right; right].
  - exists n. destruct (hm_range _ _ _ Hh). split; [lia|done].
  - split; [by eapply home_nonzero|done].
Qed.
Lemma alloc_blocks_length sb n Bs : (length (alloc_blocks sb n Bs) <= length Bs + 2)%nat.
Proof. unfold alloc_blocks. rewrite !length_logged. repeat case_decide; lia. Qed.

(** The result of a routine that only fills slots: at most [c] of them, with at
    most [l] more blocks in the transaction. *)
Record filled w V d st cap Bs k sb i ip bn (c l : nat) w' V' ip' Bs' k' : Prop := {
  fi_step : fstep w w';
  fi_ino : inodes (compc w') = <[i := ip']> (inodes (compc w));
  fi_tx : tx w' V' d st cap Bs' [] k' [];
  fi_k : (k' + length Bs' = k + length Bs)%nat;
  fi_len : (length Bs' <= length Bs + l)%nat;
  fi_grew : grew sb st c V ip V' ip';
  fi_logs : bmap_logs sb Bs Bs' V' ip' bn;
}.

Lemma filled_same w w' V d st cap Bs k sb i ip bn c l : lstep w w' -> tx w' V d st cap Bs [] k [] ->
  inodes (compc w) !!! i = ip -> (i < length (inodes (compc w)))%nat -> file_inv V sb st ip ->
  filled w V d st cap Bs k sb i ip bn c l w' V ip Bs k.
Proof.
  intros S T Hip Hi Hv. split; [by apply lstep_fstep| |done|done|lia| |intros m Hm; by left].
  - rewrite (lstep_ic _ _ S), <- Hip, list_insert_id; [done|]. by apply list_lookup_lookup_total_lt.
  - apply (grew_weaken _ _ 0); [lia|]. by apply grew_refl.
Qed.

Lemma updc_inode_same f i w : (i < length (inodes (compc w)))%nat ->
  updc (Icache (alter f i (inodes (compc w)))) w = updc (Icache (<[i := f (inodes (compc w) !!! i)]> (inodes (compc w)))) w.
Proof. intros Hi. by rewrite list_alter_total. Qed.

(** balloc for slot [s], whose address is number [a] of the inode. *)
Lemma balloc_slot w V d st cap Bs k sb i ip bn a s : tx w V d st cap Bs [] k [] -> compc w = sb -> bitmap_ok sb st ->
  file_inv V sb st ip -> inodes (compc w) !!! i = ip -> (i < length (inodes (compc w)))%nat ->
  s = MAXFILE \/ s = bn ->
  (forall n, first_free V sb st n -> home sb st n ->
     grew sb st 1 V ip (alloc_view V sb n) (set_i_addr a n ip) /\ slot (alloc_view V sb n) (set_i_addr a n ip) s = n) ->
  (2 <= k)%nat -> Z.of_nat (length Bs) + 2 <= cap -> (0 < free_count V sb)%nat ->
  exists w' V' ip' Bs' k', (addr ← balloc (i_dev ip); upd_inode (set_i_addr a addr) i ;; mret addr) w = Ok (slot V' ip' s, w') /\
    filled w V d st cap Bs k sb i ip bn 1 2 w' V' ip' Bs' k' /\ slot V' ip' s <> 0.
Proof.
  intros T Hsb Hbm Hv Hip Hi Hs Hg Hk Hc Hf. rewrite (fw_dev _ _ _ _ (fv_wf _ _ _ _ Hv)).
  destruct (balloc_any w V d st cap Bs k [] sb T Hsb Hbm (fv_meta _ _ _ _ Hv)) as (n & w1 & k1 & E1 & S1 & F1 & H1 & T1 & K1);
    [set_solver|done..|]. kdo E1. destruct (Hg n F1 H1) as [G1 G2].
  kdo (upd_inode_run (set_i_addr a n) i w1). rewrite updc_inode_same; rewrite (lstep_ic _ _ S1); [|done].
  rewrite Hip. do 5 eexists. split; [by rewrite G2|]. split; [|rewrite G2; by eapply home_nonzero]. split.
  - etrans; [by apply lstep_fstep|apply fstep_ic].
  - by rewrite compc_updc.
  - eapply tx_apart; [apply apart_ic|exact T1].
  - done.
  - apply alloc_blocks_length.
  - exact G1.
  - intros m Hm. destruct (alloc_logs _ _ _ _ _ H1 Hm) as [?|[?|[? ->]]]; [by left|right; by left|right; right].
    split; [done|]. destruct Hs as [<-|<-]; [left|right]; done.
Qed.
(** The entry of the indirect block. *)
Lemma bmap_entry w V d st cap Bs k sb i ip bn a : tx w V d st cap Bs [] k [] -> compc w = sb -> bitmap_ok sb st ->
  file_inv V sb st ip -> inodes (compc w) !!! i = ip -> (i < length (inodes (compc w)))%nat ->
  i_addrs ip !!! Z.to_nat NDIRECT = a -> a <> 0 -> NDIRECT <= bn < MAXFILE ->
  (3 <= k)%nat -> Z.of_nat (length Bs) + 3 <= cap -> (0 < free_count V sb)%nat ->
  exists w' V' Bs' k', (bp ← bread ROOTDEV a;
      x ← get_buf bp;
      addr ← (if uint_at (b_data x) (bn - NDIRECT) =? 0 then
                addr ← balloc ROOTDEV;
                x ← get_buf bp;
                upd_buf (set_data (set_uint (bn - NDIRECT) addr (b_data x))) bp ;;
                log_write bp ;;
                mret addr
              else mret (uint_at (b_data x) (bn - NDIRECT)));
      brelse bp ;;
      mret addr) w = Ok (fblock V' ip bn, w') /\
    filled w V d st cap Bs k sb i ip bn 1 3 w' V' ip Bs' k' /\ fblock V' ip bn <> 0.
Proof.
  intros T Hsb Hbm Hv Hip Hi Ha Hne Hbn Hk Hc Hf. assert (HD : NDIRECT = 12) by done.
  assert (Hat : taken V sb st a).
  { destruct (fw_taken _ _ _ _ (fv_wf _ _ _ _ Hv) MAXFILE max_slot) as [E|E]; rewrite slot_ind, Ha in E; done. }
  assert (Hra : 0 <= a < 2 ^ 31). { destruct Hat as [[[? ?] _ _ _] _], Hbm as [[? ?] _ _]. lia. }
  assert (Hfb : fblock V ip bn = uint_at (V a) (bn - NDIRECT)).
  { unfold fblock. by rewrite (proj2 (Z.ltb_ge _ _)), Ha, (proj2 (Z.eqb_neq a 0)) by (done || lia). }
  destruct (tx_bread Hwk _ _ _ _ _ _ _ _ _ a T Hra (not_elem_of_nil _) ltac:(left; lia)) as (b & w1 & E1 & S1 & T1).
  kdo E1. kdo (get_buf_run b w1). rewrite (tx_get _ _ _ _ _ _ _ _ _ b _ T1) by by left. rewrite <- Hfb.
  destruct (Z.eqb_spec (fblock V ip bn) 0) as [Hz|Hnz].
  - rewrite !bind_assoc.
    destruct (balloc_any w1 V d st cap Bs _ [(b, a)] sb T1) as (n & w2 & k2 & E2 & S2 & F2 & H2 & T2 & K2);
      [by rewrite (lstep_sb _ _ S1)|done|apply Hv|intros m [->|[]%not_elem_of_nil]%elem_of_cons; done|case_decide; lia|lia|done|].
    kdo E2. rewrite bind_assoc. kdo (get_buf_run b w2). rewrite (tx_get _ _ _ _ _ _ _ _ _ b _ T2) by by left.
    assert (Eva : alloc_view V sb n a = V a).
    { rewrite <- Ha, <- (slot_ind V). apply (alloc_view_slot sb st V ip n Hv F2 H2); [apply max_slot|]. rewrite slot_ind. congruence. }
    rewrite Eva. destruct (grew_entry sb st V ip n Hv F2 H2 bn a) as [G1 G2]; [destruct Hbm; lia|done..|].
    pose proof (alloc_blocks_length sb n Bs) as Hlen.
    destruct (tx_put _ _ _ _ _ _ _ _ b a (set_uint (bn - NDIRECT) n (V a)) T2 (not_elem_of_nil _)) as (w3 & _ & E3 & S3 & T3);
      [lia|apply Hat|done|].
    eexists w3, _, _, _. split.
    { rewrite G2, bind_assoc. etrans; [|exact (E3 _ (mret n))]. unfold mbind, M_bind.
      destruct (upd_buf _ b w2) as [[[] w4]| | |]; [|done..]. by destruct (log_write b w4) as [[[] w5]| | |]. }
    split; [|rewrite G2; by eapply home_nonzero]. assert (S' : lstep w w3) by (etrans; [exact S1|]; by etrans). split.
    + by apply lstep_fstep.
    + rewrite (lstep_ic _ _ S'), <- Hip, list_insert_id; [done|]. by apply list_lookup_lookup_total_lt.
    + exact T3.
    + rewrite length_logged, (decide_ext _ (a ∈ Bs)); [case_decide; lia|]. unfold alloc_blocks.
      rewrite !elem_of_logged. split; [|tauto]. intros [[?|Eb]|En]; [done|..].
      * by destruct (hm_bm _ _ _ (proj1 Hat) n ltac:(destruct (hm_range _ _ _ H2); lia)).
      * rewrite En in Hat. destruct Hat as [_ U]. by rewrite (ff_free _ _ _ _ F2) in U.
    + rewrite length_logged. clear -Hlen. destruct (decide (a ∈ alloc_blocks sb n Bs)); lia.
    + exact G1.
    + intros m Hm. apply elem_of_logged in Hm as [Hm| ->].
      * destruct (alloc_logs _ _ _ _ _ H2 Hm) as [?|[?|[? ->]]]; [by left|right; by left|right; right].
        split; [done|right]. by rewrite slot_block by lia.
      * right; right. split; [done|left]. by rewrite slot_ind.
  - rewrite bind_mret. destruct (tx_brelse _ _ _ _ _ _ _ _ _ b _ T1 (not_elem_of_nil _) ltac:(right; apply not_elem_of_nil)) as (w2 & E2 & S2 & T2).
    kdo E2. exists w2, V, Bs, k. split; [done|]. split; [|done]. apply filled_same; try done; [by etrans|].
    replace k with (k - (if decide (a ∈ Bs) then 0 else 1) + (if decide (a ∈ Bs) then 0 else 1))%nat by (case_decide; lia). exact T2.
Qed.
Lemma slot_stays sb st c V ip V' ip' s : kept sb st c V ip V' ip' -> is_slot s -> slot V ip s <> 0 ->
  slot V' ip' s = slot V ip s.
Proof. intros G Hs Hz. by destruct (gw_slot _ _ _ _ _ _ _ G s Hs) as [|(E & _)]. Qed.

Lemma filled_trans w V d st cap Bs k sb i ip bn c1 l1 w1 V1 ip1 Bs1 k1 c2 l2 w2 V2 ip2 Bs2 k2 : 0 <= bn < MAXFILE ->
  filled w V d st cap Bs k sb i ip bn c1 l1 w1 V1 ip1 Bs1 k1 ->
  filled w1 V1 d st cap Bs1 k1 sb i ip1 bn c2 l2 w2 V2 ip2 Bs2 k2 ->
  filled w V d st cap Bs k sb i ip bn (c1 + c2) (l1 + l2) w2 V2 ip2 Bs2 k2.
Proof.
  intros Hbn [A1 A2 A3 A4 A5 A6 A7] [B1 B2 B3 B4 B5 B6 B7]. split; [by etrans| |done|lia|lia|by eapply grew_trans|].
  - by rewrite B2, A2, list_insert_insert_eq.
  - intros m Hm. destruct (B7 m Hm) as [H1|[H1|H1]]; [|right; by left|right; by right].
    destruct (A7 m H1) as [H2|[H2|[Hz [E|E]]]]; [by left|right; by left|..]; right; right; (split; [done|]); [left|right];
      rewrite E in Hz |- *; symmetry; (eapply slot_stays; [exact B6| |done]); [apply max_slot|unfold is_slot; lia].
Qed.

Lemma bmap_ok w V d st cap Bs k sb i ip bn : tx w V d st cap Bs [] k [] -> compc w = sb -> bitmap_ok sb st ->
  file_inv V sb st ip -> inodes (compc w) !!! i = ip -> (i < length (inodes (compc w)))%nat -> 0 <= bn < MAXFILE ->
  (5 <= k)%nat -> Z.of_nat (length Bs) + 5 <= cap -> (2 <= free_count V sb)%nat ->
  exists w' V' ip' Bs' k', bmap i bn w = Ok (fblock V' ip' bn, w') /\
    filled w V d st cap Bs k sb i ip bn 2 5 w' V' ip' Bs' k' /\ fblock V' ip' bn <> 0.
Proof.
  intros T Hsb Hbm Hv Hip Hi Hbn Hk Hc Hf. assert (HM : MAXFILE = NDIRECT + NINDIRECT) by done.
  unfold bmap. kdo (get_inode_run i w). rewrite Hip. destruct (Z.ltb_spec bn NDIRECT) as [Hd|Hd].
  - assert (Hfb : fblock V ip bn = i_addrs ip !!! Z.to_nat bn) by (unfold fblock; by rewrite (proj2 (Z.ltb_lt _ _))).
    rewrite <- Hfb. destruct (Z.eqb_spec (fblock V ip bn) 0) as [Hz|Hnz].
    + destruct (balloc_slot w V d st cap Bs k sb i ip bn bn bn) as (w' & V' & ip' & Bs' & k' & E & F & Z'); try done; try lia; try (by right).
      { intros n F1 H1. rewrite slot_block by lia. apply (grew_direct sb st V ip n Hv F1 H1); [lia|done]. }
      rewrite slot_block in E, Z' by lia. exists w', V', ip', Bs', k'. split; [exact E|]. split; [|done].
      destruct F. split; try done; [lia|]. by eapply grew_weaken; [|done]; lia.
    + exists w, V, ip, Bs, k. split; [done|]. split; [|done]. by apply filled_same.
  - rewrite (proj2 (Z.ltb_lt (bn - NDIRECT) NINDIRECT)) by lia.
    assert (P1 : exists w1 V1 ip1 Bs1 k1, (if i_addrs ip !!! Z.to_nat NDIRECT =? 0 then
        addr ← balloc (i_dev ip); upd_inode (set_i_addr NDIRECT addr) i ;; mret addr
      else mret (i_addrs ip !!! Z.to_nat NDIRECT)) w = Ok (i_addrs ip1 !!! Z.to_nat NDIRECT, w1) /\
      filled w V d st cap Bs k sb i ip bn 1 2 w1 V1 ip1 Bs1 k1 /\ i_addrs ip1 !!! Z.to_nat NDIRECT <> 0).
    { destruct (Z.eqb_spec (i_addrs ip !!! Z.to_nat NDIRECT) 0) as [Hz|Hnz].
      - destruct (balloc_slot w V d st cap Bs k sb i ip bn NDIRECT MAXFILE) as (w' & V' & ip' & Bs' & k' & E & F & Z'); try done; try lia; try (by left).
        { intros n F1 H1. rewrite slot_ind. by apply (grew_ind sb st V ip n Hv F1 H1). }
        rewrite slot_ind in E, Z'. by exists w', V', ip', Bs', k'.
      - exists w, V, ip, Bs, k. split; [done|]. split; [|done]. by apply filled_same. }
    destruct P1 as (w1 & V1 & ip1 & Bs1 & k1 & E1 & F1 & Z1). kdo E1. rewrite (fw_dev _ _ _ _ (fv_wf _ _ _ _ Hv)).
    pose proof F1 as [A1 A2 A3 A4 A5 A6 A7].
    destruct (bmap_entry w1 V1 d st cap Bs1 k1 sb i ip1 bn (i_addrs ip1 !!! Z.to_nat NDIRECT)) as (w2 & V2 & Bs2 & k2 & E2 & F2 & Z2);
      try done; try lia.
    { by rewrite (fstep_sb _ _ A1). }
    { apply A6. }
    { rewrite A2. by apply list_lookup_total_insert_eq. }
    { by rewrite A2, length_insert. }
    { pose proof (gw_free _ _ _ _ _ _ _ A6). lia. }
    exists w2, V2, ip1, Bs2, k2. split; [exact E2|]. split; [|done]. exact (filled_trans _ _ _ _ _ _ _ _ _ _ _ 1 2 _ _ _ _ _ 1 3 _ _ _ _ _ Hbn F1 F2).
Qed.
End Bmap.
