(* ===== verification/FsWrite.v ===== *)
(** * fs.c: writei

    A file is a map from offsets to bytes; writei overwrites a range of it, extends
    the file where the range passes its end, and stays within the number of log
    blocks that begin_op reserves for a system call. *)
From stdpp Require Import prelude gmap strings.
From Stdlib Require Import ZArith Lia.
From S2P Require Import Prelude Memory CString Spinlock Riscv Kalloc Vm Uaccess Proc Bytes State Sleeplock Copy Console Bio BioView BioClient Log Fs File LogSpec LogOps FsTx FsAlloc FsInode Icache FsFile FsBmap.
Open Scope Z_scope.

(** ** Where the bytes come from *)

(** [either_copyin] finds the bytes [bs] at [src]. *)
Definition source (w : world kstate) (src : ksrc) (bs : list Z) : Prop :=
  match src with
  | S_object l => l = bs
  | S_user va => exists p kend T, c_proc (h_cpu (cur w)) = Some p /\ 0 < kend /\
      0 <= va /\ va + Z.of_nat (length bs) < 2 ^ 64 /\
      pt_ok kend (pbytes (compc w)) (p_pagetable (procs (compc w) !!! p)) T /\
      mapped (pbytes (compc w)) T va (Z.of_nat (length bs)) /\
      user_bytes (pbytes (compc w)) T va (Z.of_nat (length bs)) = bs
  end.

Lemma user_bytes_app m T va a b : 0 <= a -> 0 <= b ->
  user_bytes m T va (a + b) = user_bytes m T va a ++ user_bytes m T (va + a) b.
Proof. intros Ha Hb. unfold user_bytes. by rewrite seqZ_app, fmap_app by done. Qed.
Lemma length_user_bytes m T va n : length (user_bytes m T va n) = Z.to_nat n.
Proof. unfold user_bytes. by rewrite length_fmap, length_seqZ. Qed.

(** The first [a] bytes, and the rest. *)
Lemma user_bytes_take m T va bs a : (a <= length bs)%nat -> user_bytes m T va (Z.of_nat (length bs)) = bs ->
  user_bytes m T va (Z.of_nat a) = take a bs /\
  user_bytes m T (va + Z.of_nat a) (Z.of_nat (length (drop a bs))) = drop a bs.
Proof.
  intros Ha E. rewrite length_drop. replace (Z.of_nat (length bs)) with (Z.of_nat a + Z.of_nat (length bs - a)) in E by lia.
  rewrite user_bytes_app in E by lia.
  assert (Hl : length (user_bytes m T va (Z.of_nat a)) = a) by (rewrite length_user_bytes; lia).
  pose proof (f_equal (take a) E) as E1. pose proof (f_equal (drop a) E) as E2.
  rewrite take_app_le, take_ge in E1 by lia. rewrite drop_app_ge, Hl, Nat.sub_diag, drop_0 in E2 by lia. done.
Qed.

Lemma source_copyin w src bs m : cpu_ok w -> source w src bs -> 0 <= m <= Z.of_nat (length bs) ->
  either_copyin src m w = Ok ((0, take (Z.to_nat m) bs), touch w).
Proof.
  intros Hc Hs Hm. unfold either_copyin. rewrite (bind_Ok _ _ _ _ _ (myproc_run w Hc)). destruct src as [va|l].
  - destruct Hs as (p & kend & T & Hp & Hk & Hva & _ & Hpt & Hmp & Hu). rewrite Hp.
    rewrite (bind_Ok _ _ _ _ _ (get_proc_run _ _)). knorm.
    destruct (user_bytes_take _ T va bs (Z.to_nat m) ltac:(lia) Hu) as [<- _]. rewrite Z2Nat.id by lia.
    apply (copyin_to_ok kend Hk (touch w)); [done|done|lia|]. intros i Hi. apply Hmp. lia.
  - by rewrite Hs.
Qed.

Lemma source_add w src bs m : source w src bs -> 0 <= m <= Z.of_nat (length bs) ->
  source w (src_add src m) (drop (Z.to_nat m) bs).
Proof.
  intros Hs Hm. destruct src as [va|l]; [|cbn in *; by rewrite Hs].
  destruct Hs as (p & kend & T & Hp & Hk & Hva & Hb & Hpt & Hmp & Hu). exists p, kend, T.
  rewrite u64_id by lia. split_and!; [done|done|lia|rewrite length_drop; lia|done| |].
  - intros i Hi. rewrite length_drop in Hi. rewrite <- Z.add_assoc. apply Hmp. lia.
  - destruct (user_bytes_take _ T va bs (Z.to_nat m) ltac:(lia) Hu) as [_ E]. by rewrite Z2Nat.id in E by lia.
Qed.

Lemma fstep_frame w w' : fstep w w' -> compc (T := pmem) w' = compc w /\
  c_proc (h_cpu (cur w')) = c_proc (h_cpu (cur w)) /\
  forall p, p_pagetable (procs (compc w') !!! p) = p_pagetable (procs (compc w) !!! p).
Proof.
  unfold fstep, lstep. intros [[F (E & _ & P)] _]. pose proof (kframe_cur _ _ F) as (_ & _ & Hp).
  split_and!; [unfold compc; cbn in *; by rewrite E|done|]. intros p. exact (f_equal snd (P p)).
Qed.
Lemma source_fstep w w' src bs : fstep w w' -> source w src bs -> source w' src bs.
Proof.
  intros S. destruct (fstep_frame _ _ S) as (E1 & E2 & E3). destruct src; [|done].
  unfold source. setoid_rewrite E1. setoid_rewrite E2. setoid_rewrite E3. done.
Qed.

(** ** The bytes of a file *)

(** The byte at an offset; a hole reads as zeroes. *)
Definition fbyte (V : Z -> blk) (ip : inode) (x : Z) : Z := content V ip (x / BSIZE) !!! Z.to_nat (x mod BSIZE).

(** Inside the allocated part this is what readi delivers. *)
Lemma fbyte_file_byte V ip x : fblock V ip (x / BSIZE) <> 0 -> file_byte V ip x = fbyte V ip x.
Proof. intros H. unfold file_byte, fbyte, content. by rewrite (proj2 (Z.eqb_neq _ _)). Qed.

Lemma content_length V ip bn : block_lens V -> length (content V ip bn) = Z.to_nat BSIZE.
Proof. intros Hl. unfold content. destruct (_ =? 0); [apply length_zero_block|apply Hl]. Qed.

(** Changing the contents of a block of the file. *)
Lemma kept_write sb st V ip bn x : file_inv V sb st ip -> 0 <= bn < MAXFILE -> fblock V ip bn <> 0 ->
  length x = Z.to_nat BSIZE ->
  let V' := fupd V (fblock V ip bn) x in
  kept sb st 0 V ip V' ip /\ (forall s, is_slot s -> slot V' ip s = slot V ip s) /\
  forall bn', 0 <= bn' < MAXFILE -> content V' ip bn' = if decide (bn' = bn) then x else content V ip bn'.
Proof.
  intros Hv Hbn Hnz Hx V'. pose proof Hv as [[W1 W2 W3 W4] Hm Hl]. set (a := fblock V ip bn) in *.
  assert (Ea : a = slot V ip bn) by (unfold a; by rewrite slot_block by lia).
  assert (Hs : is_slot bn) by (unfold is_slot; lia).
  assert (Ht : taken V sb st a) by (rewrite Ea in Hnz |- *; by destruct (W3 bn Hs)).
  assert (Hi : forall s, is_slot s -> slot V ip s = a -> s = bn).
  { intros s Hss E. apply W4; [done..|congruence|congruence]. }
  assert (Hsl : forall s, is_slot s -> slot V' ip s = slot V ip s).
  { intros s Hss. unfold is_slot in Hss. destruct (decide (s = MAXFILE)) as [->|]; [by rewrite !slot_ind|].
    rewrite !slot_block by lia. unfold fblock. destruct (s <? NDIRECT); [done|].
    destruct (Z.eqb_spec (i_addrs ip !!! Z.to_nat NDIRECT) 0); [done|]. unfold V'. rewrite fupd_ne; [done|].
    rewrite <- (slot_ind V). intros E. apply Hi in E; [lia|apply max_slot]. }
  assert (Hu : forall m, 0 <= m < sb_size sb -> used V' sb m = used V sb m).
  { intros m Hr. unfold V'. apply used_fupd_other. by apply (hm_bm _ _ _ (proj1 Ht)). }
  split; [|split; [done|]].
  - split; [split; [split|..]|by destruct ip|..].
    + done.
    + done.
    + intros s Hss. rewrite Hsl by done. destruct (W3 s Hss) as [|[H1 H2]]; [by left|right]. split; [done|].
      rewrite Hu by (destruct H1; lia). done.
    + intros s s' H1 H2. rewrite !Hsl by done. by apply W4.
    + intros m Hr. rewrite Hu by done. by apply Hm.
    + by apply block_lens_fupd.
    + intros s Hss. left. by apply Hsl.
    + intros m Hr. by rewrite Hu.
    + intros m _ _ M3. unfold V'. rewrite fupd_ne; [done|]. intros ->. by apply (M3 bn).
    + unfold free_count. rewrite (filter_same (fun n => used V' sb n = false) (fun n => used V sb n = false)); [lia|].
      intros m Hr%elem_of_seqZ. by rewrite Hu by lia.
  - intros bn' Hbn'. unfold content. rewrite <- !slot_block by lia. rewrite Hsl by (unfold is_slot; lia).
    case_decide as E.
    + subst bn'. rewrite <- Ea, (proj2 (Z.eqb_neq _ _)) by done. unfold V'. by rewrite fupd_eq.
    + destruct (Z.eqb_spec (slot V ip bn') 0); [done|]. unfold V'. rewrite fupd_ne; [done|].
      intros Eb. apply E. apply Hi; [unfold is_slot; lia|done].
Qed.

(** The bytes after writing [bs] at [off] within a block. *)
Lemma fbyte_splice V ip V' ip' off bs : block_lens V -> 0 <= off ->
  off mod BSIZE + Z.of_nat (length bs) <= BSIZE -> off / BSIZE < MAXFILE ->
  (forall bn, 0 <= bn < MAXFILE -> content V' ip' bn =
     if decide (bn = off / BSIZE) then splice (Z.to_nat (off mod BSIZE)) bs (content V ip bn) else content V ip bn) ->
  forall x, 0 <= x < MAXFILE * BSIZE -> fbyte V' ip' x =
    if decide (off <= x < off + Z.of_nat (length bs)) then bs !!! Z.to_nat (x - off) else fbyte V ip x.
Proof.
  intros Hl Ho Hm Hlt Hc x Hx. assert (HB : BSIZE = 1024) by done. unfold fbyte.
  pose proof (Z.div_mod x BSIZE ltac:(lia)). pose proof (Z.mod_pos_bound x BSIZE ltac:(lia)).
  pose proof (Z.div_mod off BSIZE ltac:(lia)). pose proof (Z.mod_pos_bound off BSIZE ltac:(lia)).
  assert (Hd : 0 <= x / BSIZE < MAXFILE) by (split; [apply Z.div_pos|apply Z.div_lt_upper_bound]; lia).
  rewrite Hc by done. pose proof (content_length V ip (x / BSIZE) Hl) as Hlen.
  destruct (decide (x / BSIZE = off / BSIZE)) as [E|E].
  - rewrite list_lookup_total_alt, lookup_splice by (rewrite Hlen; lia). case_decide as D1; case_decide as D2; try (exfalso; lia).
    + rewrite list_lookup_total_alt. do 2 f_equal. lia.
    + by rewrite list_lookup_total_alt.
  - rewrite decide_False; [done|]. intros [? ?]. apply E. assert (x / BSIZE = off / BSIZE); [|done].
    symmetry. apply (Z.div_unique x BSIZE (off / BSIZE) (x - BSIZE * (off / BSIZE))); lia.
Qed.

(** ** The loop of writei *)

(** What a write to the blocks [b0] to [b1 - 1] of the file may put into the
    transaction. *)
Definition write_logs (sb : superblock) (Bs Bs' : list Z) (V' : Z -> blk) (ip' : inode) (b0 b1 : Z) : Prop :=
  forall m, m ∈ Bs' -> m ∈ Bs \/ (exists q, 0 <= q < sb_size sb /\ m = BBLOCK q sb) \/
    m <> 0 /\ (m = slot V' ip' MAXFILE \/ exists bn, b0 <= bn < b1 /\ m = slot V' ip' bn).

(** With one bitmap block these are at most two blocks more than were written. *)
Lemma write_logs_length sb Bs Bs' V' ip' b0 b1 : sb_size sb <= BPB -> b0 <= b1 -> NoDup Bs' ->
  write_logs sb Bs Bs' V' ip' b0 b1 -> Z.of_nat (length Bs') <= Z.of_nat (length Bs) + 2 + (b1 - b0).
Proof.
  intros Hone Hb Hnd Hw. set (L := Bs ++ [BBLOCK 0 sb; slot V' ip' MAXFILE] ++ (slot V' ip' <$> seqZ b0 (b1 - b0))).
  assert (Hs : Bs' ⊆+ L).
  { apply NoDup_submseteq; [done|]. intros m Hm. unfold L. rewrite !elem_of_app.
    destruct (Hw m Hm) as [?|[(q & Hq & ->)|[_ [->|(bn & Hbn & ->)]]]]; [by left|right; left|right; left|right; right].
    - unfold BBLOCK. rewrite Z.div_small, Z.div_small by (try lia; by split). set_solver.
    - set_solver.
    - apply list_elem_of_fmap. exists bn. split; [done|]. apply elem_of_seqZ. lia. }
  apply submseteq_length in Hs. unfold L in Hs. rewrite !length_app, length_fmap, length_seqZ in Hs. cbn in Hs. lia.
Qed.

(** The state after writing the first [tot] bytes, in [j] rounds. *)
Record wrote w0 V0 d st cap Bs0 (k0 : nat) sb i ip0 (off : Z) (bs : list Z) (tot j : Z) w V ip Bs (k : nat) : Prop := {
  wr_step : fstep w0 w;
  wr_ino : inodes (compc w) = <[i := ip]> (inodes (compc w0));
  wr_tx : tx w V d st cap Bs [] k [];
  wr_k : (k + length Bs = k0 + length Bs0)%nat;
  wr_kept : kept sb st (2 * Z.to_nat j) V0 ip0 V ip;
  wr_logs : write_logs sb Bs0 Bs V ip (off / BSIZE) (off / BSIZE + j);
  wr_bytes : forall x, 0 <= x < MAXFILE * BSIZE -> fbyte V ip x =
    if decide (off <= x < off + tot) then bs !!! Z.to_nat (x - off) else fbyte V0 ip0 x;
  wr_alloc : forall bn, off / BSIZE <= bn < off / BSIZE + j -> fblock V ip bn <> 0;
}.

Section Loop.
Context {SC : Sched} {VD : VirtioDisk} (Hwk : (0 < wakeups)%nat).
Context (w0 : world kstate) (V0 : Z -> blk) (d : disk) (st cap : Z) (Bs0 : list Z) (k0 : nat) (sb : superblock)
  (i : nat) (ip0 : inode) (off : Z) (bs : list Z).
Abbreviation n := (Z.of_nat (length bs)).
Context (T0 : tx w0 V0 d st cap Bs0 [] k0 []) (Hsb : compc w0 = sb) (Hbm : bitmap_ok sb st) (Hone : sb_size sb <= BPB)
  (Hip : inodes (compc w0) !!! i = ip0) (Hi : (i < length (inodes (compc w0)))%nat) (Hv : file_inv V0 sb st ip0)
  (Hoff : 0 <= off) (Hend : off + n <= MAXFILE * BSIZE) (Hfour : off mod BSIZE + n <= 4 * BSIZE)
  (Hk : (10 <= k0)%nat) (Hc : Z.of_nat (length Bs0) + MAXOPBLOCKS <= cap) (Hf : (8 <= free_count V0 sb)%nat).

Lemma wrote_start : wrote w0 V0 d st cap Bs0 k0 sb i ip0 off bs 0 0 w0 V0 ip0 Bs0 k0.
Proof.
  split; [reflexivity| |done|done|by apply kept_refl|intros m Hm; by left| |lia].
  - rewrite <- Hip, list_insert_id; [done|]. by apply list_lookup_lookup_total_lt.
  - intros x Hx. by rewrite decide_False by lia.
Qed.

Lemma wrote_len tot j w V ip Bs k : wrote w0 V0 d st cap Bs0 k0 sb i ip0 off bs tot j w V ip Bs k -> 0 <= j ->
  Z.of_nat (length Bs) <= Z.of_nat (length Bs0) + 2 + j.
Proof.
  intros Hw Hj. clear -Hone Hw Hj. replace j with (off / BSIZE + j - off / BSIZE) by lia.
  apply (write_logs_length sb _ _ V ip); [done|lia| |apply Hw]. apply (lo_nodup _ _ _ (tx_log _ _ _ _ _ _ _ _ _ (wr_tx _ _ _ _ _ _ _ _ _ _ _ _ _ _ _ _ _ _ _ Hw))).
Qed.

(** bmap in a round. *)
Lemma wrote_bmap tot j w V ip Bs k : wrote w0 V0 d st cap Bs0 k0 sb i ip0 off bs tot j w V ip Bs k ->
  0 <= j < 4 -> 0 <= off / BSIZE + j < MAXFILE ->
  exists w' V' ip' Bs' k', bmap i (off / BSIZE + j) w = Ok (fblock V' ip' (off / BSIZE + j), w') /\
    fblock V' ip' (off / BSIZE + j) <> 0 /\
    fstep w w' /\ inodes (compc w') = <[i := ip']> (inodes (compc w)) /\ tx w' V' d st cap Bs' [] k' [] /\
    (k' + length Bs' = k + length Bs)%nat /\ grew sb st 2 V ip V' ip' /\
    write_logs sb Bs0 Bs' V' ip' (off / BSIZE) (off / BSIZE + (j + 1)).
Proof.
  intros Hw Hj Hbn. pose proof (wrote_len _ _ _ _ _ _ _ Hw ltac:(lia)) as Hlen. destruct Hw as [W1 W2 W3 W4 W5 W6 W7 W8].
  change MAXOPBLOCKS with 10 in Hc.
  destruct (bmap_ok Hwk w V d st cap Bs k sb i ip (off / BSIZE + j)) as (w' & V' & ip' & Bs' & k' & E & [F1 F2 F3 F4 F5 F6 F7] & Z'); try done; try lia.
  { by rewrite (fstep_sb _ _ W1). }
  { apply W5. }
  { rewrite W2. by apply list_lookup_total_insert_eq. }
  { by rewrite W2, length_insert. }
  { pose proof (gw_free _ _ _ _ _ _ _ W5). lia. }
  exists w', V', ip', Bs', k'. split_and!; try done. intros m Hm.
  assert (Hst : forall s, is_slot s -> m <> 0 -> m = slot V ip s -> m = slot V' ip' s).
  { intros s Hs Hz ->. symmetry. eapply slot_stays; [apply F6|done..]. }
  destruct (F7 m Hm) as [H1|[H1|[Hz [H1|H1]]]].
  - destruct (W6 m H1) as [?|[?|[Hz [E1|(bn & Hb & E1)]]]]; [by left|right; by left|..]; right; right; (split; [done|]).
    + left. apply Hst; [apply max_slot|done..].
    + right. exists bn. split; [lia|]. apply Hst; [|done..]. unfold is_slot. pose proof (Z.div_pos off BSIZE Hoff ltac:(done)). lia.
  - right. by left.
  - right. right. split; [done|by left].
  - right. right. split; [done|right]. exists (off / BSIZE + j). split; [lia|done].
Qed.
(** The file after the block of a round is there and its part is written. *)
Lemma wrote_next tot j w V ip Bs k w1 V1 ip1 Bs1 k1 bm (m := Z.of_nat (length bm)) (a := fblock V1 ip1 (off / BSIZE + j))
    (x := splice (Z.to_nat ((off + tot) mod BSIZE)) bm (V1 a)) :
  wrote w0 V0 d st cap Bs0 k0 sb i ip0 off bs tot j w V ip Bs k -> 0 <= j < 4 -> 0 <= tot -> tot + m <= n ->
  bm = take (length bm) (drop (Z.to_nat tot) bs) -> (off + tot) / BSIZE = off / BSIZE + j -> (off + tot) mod BSIZE + m <= BSIZE ->
  0 <= off / BSIZE + j < MAXFILE -> a <> 0 -> grew sb st 2 V ip V1 ip1 -> fstep w w1 ->
  inodes (compc w1) = <[i := ip1]> (inodes (compc w)) -> tx w1 (fupd V1 a x) d st cap Bs1 [] k1 [] ->
  (k1 + length Bs1 = k + length Bs)%nat -> write_logs sb Bs0 Bs1 V1 ip1 (off / BSIZE) (off / BSIZE + (j + 1)) ->
  wrote w0 V0 d st cap Bs0 k0 sb i ip0 off bs (tot + m) (j + 1) w1 (fupd V1 a x) ip1 Bs1 k1.
Proof.
  intros [W1 W2 W3 W4 W5 W6 W7 W8] Hj Ht Hmn Hbm' Hq Hm Hbn Hz G1 S1 I1 T1 K1 L1. assert (HB : BSIZE = 1024) by done.
  pose proof (Z.mod_pos_bound (off + tot) BSIZE ltac:(lia)) as Hr. pose proof (Z.div_pos off BSIZE Hoff ltac:(done)) as Hdp.
  pose proof (gw_inv _ _ _ _ _ _ _ G1) as Hv1. pose proof (fv_lens _ _ _ _ Hv1) as Hl1.
  assert (Hx : length x = Z.to_nat BSIZE) by (unfold x; rewrite length_splice; rewrite Hl1; lia).
  destruct (kept_write sb st V1 ip1 (off / BSIZE + j) x Hv1 Hbn Hz Hx) as (P1 & P2 & P3). fold a in P1, P2, P3.
  split; [by etrans|by rewrite I1, W2, list_insert_insert_eq|done|lia| | | |].
  - replace (2 * Z.to_nat (j + 1))%nat with (2 * Z.to_nat j + (2 + 0))%nat by lia.
    eapply kept_trans; [exact W5|]. eapply kept_trans; [apply G1|exact P1].
  - intros y Hy. destruct (L1 y Hy) as [?|[?|[Hyz [E|(bn & Hb & E)]]]]; [by left|right; by left|..]; right; right; (split; [done|]).
    + left. by rewrite P2 by apply max_slot.
    + right. exists bn. split; [done|]. by rewrite P2 by (unfold is_slot; lia).
  - intros y Hy. rewrite (fbyte_splice V1 ip1 (fupd V1 a x) ip1 (off + tot) bm); [|done|lia|lia|lia| |done].
    2:{ intros bn Hb. rewrite P3, Hq by done. destruct (decide (bn = off / BSIZE + j)) as [->|]; [|done]. unfold content. fold a.
        by rewrite (proj2 (Z.eqb_neq a 0)). }
    assert (Eg : fbyte V1 ip1 y = fbyte V ip y).
    { unfold fbyte. rewrite (gw_content _ _ _ _ _ _ _ G1); [done|]. split; [apply Z.div_pos|apply Z.div_lt_upper_bound]; lia. }
    rewrite Eg, W7 by done. fold m. repeat case_decide; try (exfalso; lia); try done.
    all: rewrite Hbm', !list_lookup_total_alt, lookup_take_lt, lookup_drop by lia; do 2 f_equal; lia.
  - intros bn Hb Ez. assert (Hs' : is_slot bn) by (unfold is_slot; lia).
    rewrite <- slot_block, P2 in Ez by (done || lia). destruct (decide (bn = off / BSIZE + j)) as [->|Hne].
    + by rewrite slot_block in Ez by lia.
    + apply (W8 bn); [lia|]. rewrite <- slot_block by lia.
      destruct (decide (slot V ip bn = 0)) as [|Hnz]; [done|]. by rewrite (slot_stays _ _ _ _ _ _ _ _ (gw_kept _ _ _ _ _ _ _ G1) Hs' Hnz) in Ez.
Qed.

(** One round: the part of the range that is in block [off / BSIZE + j]. *)
Lemma writei_round tot j w V ip Bs k src : wrote w0 V0 d st cap Bs0 k0 sb i ip0 off bs tot j w V ip Bs k ->
  source w src (drop (Z.to_nat tot) bs) -> 0 <= j < 4 -> 0 <= tot < n -> (off + tot) / BSIZE = off / BSIZE + j ->
  let m := Z.min (n - tot) (BSIZE - (off + tot) mod BSIZE) in
  exists w' V' ip' Bs' k', writei_body i n (tot, off + tot, src) w = Ok (inl (tot + m, off + (tot + m), src_add src m), w') /\
    wrote w0 V0 d st cap Bs0 k0 sb i ip0 off bs (tot + m) (j + 1) w' V' ip' Bs' k' /\
    source w' (src_add src m) (drop (Z.to_nat (tot + m)) bs).
Proof.
  intros Hw Hs Hj Ht Hq m. assert (HB : BSIZE = 1024) by done. assert (HM : MAXFILE = 268) by done.
  pose proof (Z.div_mod (off + tot) BSIZE ltac:(lia)) as Hdm. pose proof (Z.mod_pos_bound (off + tot) BSIZE ltac:(lia)) as Hr.
  assert (Hbn : 0 <= off / BSIZE + j < MAXFILE).
  { rewrite <- Hq. split; [apply Z.div_pos; lia|apply Z.div_lt_upper_bound; lia]. }
  destruct (wrote_bmap _ _ _ _ _ _ _ Hw Hj Hbn) as (w1 & V1 & ip1 & Bs1 & k1 & E1 & Z1 & S1 & I1 & T1 & K1 & G1 & L1).
  pose proof (write_logs_length sb _ _ _ _ (off / BSIZE) (off / BSIZE + (j + 1)) Hone ltac:(lia) (lo_nodup _ _ _ (tx_log _ _ _ _ _ _ _ _ _ T1)) L1) as Hlen.
  change MAXOPBLOCKS with 10 in Hc. set (a := fblock V1 ip1 (off / BSIZE + j)) in *.
  assert (Hat : taken V1 sb st a).
  { unfold a in Z1 |- *. rewrite <- slot_block in Z1 |- * by lia.
    by destruct (fw_taken _ _ _ _ (fv_wf _ _ _ _ (gw_inv _ _ _ _ _ _ _ G1)) (off / BSIZE + j) ltac:(unfold is_slot; lia)). }
  assert (Hra : 0 <= a < 2 ^ 31). { destruct Hat as [[[? ?] _ _ _] _], Hbm as [[? ?] _ _]. lia. }
  unfold writei_body. rewrite (proj2 (Z.ltb_lt _ _)) by lia. kdo (get_inode_run i w). rewrite Hq. kdo E1.
  pose proof Hw as [_ W2 _ W4 W5 _ _ _].
  rewrite W2, list_lookup_total_insert_eq by done. rewrite (fw_dev _ _ _ _ (fv_wf _ _ _ _ (gw_inv _ _ _ _ _ _ _ W5))).
  destruct (tx_bread Hwk _ _ _ _ _ _ _ _ _ a T1 Hra (not_elem_of_nil _) ltac:(left; lia)) as (b & w2 & E2 & S2 & T2).
  kdo E2. fold m. pose proof (cs_quiet _ _ _ _ _ _ _ (tx_cs _ _ _ _ _ _ _ _ _ T2)) as Q2.
  assert (Hs2 : source w2 src (drop (Z.to_nat tot) bs)) by (eapply source_fstep; [|exact Hs]; etrans; [exact S1|by apply lstep_fstep]).
  assert (Hm : 0 < m <= n - tot) by lia.
  assert (Hm' : 0 <= m <= Z.of_nat (length (drop (Z.to_nat tot) bs))) by (rewrite length_drop; lia).
  kdo (source_copyin w2 src _ m (q_cpu _ Q2) Hs2 Hm'). set (bm := take (Z.to_nat m) (drop (Z.to_nat tot) bs)).
  assert (Hbl : Z.of_nat (length bm) = m) by (unfold bm; rewrite length_take, length_drop; lia).
  kdo (get_buf_run b (touch w2)). change (compc (touch w2)) with (compc (T := bcache) w2).
  rewrite (tx_get _ _ _ _ _ _ _ _ _ b _ T2) by by left. cbn [Z.eqb].
  destruct (tx_put _ _ _ _ _ _ _ _ b a (splice (Z.to_nat ((off + tot) mod BSIZE)) bm (V1 a))
    (tx_apart _ _ _ _ _ _ _ _ _ _ (apart_touch w2) T2) (not_elem_of_nil _)) as (w3 & _ & E3 & S3 & T3); [lia|apply Hat|done|]. rewrite E3.
  assert (S13 : lstep w1 w3) by (etrans; [exact S2|]; etrans; [apply lstep_touch|exact S3]).
  assert (S' : fstep w w3) by (etrans; [exact S1|by apply lstep_fstep]).
  do 5 eexists. split; [unfold mret, M_ret; rewrite u32_id by lia; by rewrite Z.add_assoc|]. split.
  - rewrite <- Hbl. eapply (wrote_next tot j w V ip Bs k w3 V1 ip1); try done; try lia.
    + unfold bm at 1. f_equal. lia.
    + by rewrite (lstep_ic _ _ S13).
    + rewrite length_logged. case_decide; lia.
    + intros y Hy. apply elem_of_logged in Hy as [Hy| ->]; [by apply L1|]. right. right. split; [done|right].
      exists (off / BSIZE + j). split; [lia|]. by rewrite slot_block by lia.
  - eapply source_fstep; [exact S'|]. pose proof (source_add _ _ _ m Hs Hm') as Hs'. rewrite drop_drop in Hs'.
    by replace (Z.to_nat (tot + m)) with (Z.to_nat tot + Z.to_nat m)%nat by lia.
Qed.

(** The rounds so far cover the bytes written. *)
Definition covered (tot j : Z) : Prop := tot = 0 \/ off + tot <= (off / BSIZE + j) * BSIZE.

Lemma writei_loop fuel tot j w V ip Bs k src : wrote w0 V0 d st cap Bs0 k0 sb i ip0 off bs tot j w V ip Bs k ->
  source w src (drop (Z.to_nat tot) bs) -> 0 <= j <= 4 -> 0 <= tot <= n -> covered tot j ->
  (tot < n -> (off + tot) / BSIZE = off / BSIZE + j) -> (0 < fuel)%nat ->
  (n = tot \/ n - tot + (off + tot) mod BSIZE <= BSIZE * (Z.of_nat fuel - 1)) ->
  exists w' V' ip' Bs' k' j', loop fuel (writei_body i n) (tot, off + tot, src) w = Ok (off + n, w') /\
    wrote w0 V0 d st cap Bs0 k0 sb i ip0 off bs n j' w' V' ip' Bs' k' /\ 0 <= j' <= 4 /\ covered n j'.
Proof.
  revert tot j w V ip Bs k src.
  induction fuel as [|f IH]; intros tot j w V ip Bs k src Hw Hs Hj Ht Hcv Hq Hpos Hfuel; [lia|].
  assert (HB : BSIZE = 1024) by done. destruct (decide (tot = n)) as [->|Hne].
  - exists w, V, ip, Bs, k, j. split; [|done]. apply loop_exit. unfold writei_body. by rewrite Z.ltb_irrefl.
  - specialize (Hq ltac:(lia)).
    pose proof (Z.div_mod (off + tot) BSIZE ltac:(lia)) as D1. pose proof (Z.mod_pos_bound (off + tot) BSIZE ltac:(lia)) as R1.
    pose proof (Z.div_mod off BSIZE ltac:(lia)) as D2. pose proof (Z.mod_pos_bound off BSIZE ltac:(lia)) as R2.
    destruct (writei_round tot j w V ip Bs k src Hw Hs) as (w1 & V1 & ip1 & Bs1 & k1 & E1 & Hw1 & Hs1); [lia..|].
    rewrite (loop_next _ _ _ _ _ _ E1). set (m := Z.min (n - tot) (BSIZE - (off + tot) mod BSIZE)) in *.
    assert (Hnext : n = tot + m \/ off + (tot + m) = (off / BSIZE + (j + 1)) * BSIZE) by lia.
    apply (IH (tot + m) (j + 1) w1 V1 ip1 Bs1 k1); try done; try lia.
    + right. lia.
    + intros Hlt. destruct Hnext as [|E]; [lia|]. rewrite E. by apply Z.div_mul.
    + destruct Hnext as [|E]; [by left|right]. rewrite E, Z.mod_mul by lia. lia.
Qed.
End Loop.

(** ** The inode *)

(** The layout that mkfs makes: one bitmap block, the inode blocks elsewhere and
    not at block 0. *)
Record disk_ok (sb : superblock) (st : Z) : Prop := {
  do_bm : bitmap_ok sb st;
  do_in : inodes_ok sb st;
  do_sep : forall m j, 0 <= m < sb_size sb -> 0 <= j < sb_ninodes sb -> BBLOCK m sb <> IBLOCK j sb;
  do_one : sb_size sb <= BPB;
  do_boot : 0 < sb_inodestart sb;
}.

(** A change of an inode block, and of the size of the inode. *)
Lemma meta_write sb st V ip j x size : disk_ok sb st -> file_inv V sb st ip -> 0 <= j < sb_ninodes sb ->
  length x = Z.to_nat BSIZE ->
  let V' := fupd V (IBLOCK j sb) x in let ip' := set_i_size size ip in
  file_inv V' sb st ip' /\ (forall s, is_slot s -> slot V' ip' s = slot V ip s) /\
  forall bn, 0 <= bn < MAXFILE -> content V' ip' bn = content V ip bn.
Proof.
  intros [D1 D2 D3 D4 _] Hv Hj Hx V' ip'. pose proof Hv as [[W1 W2 W3 W4] Hm Hl].
  assert (Ha : forall s, is_slot s -> slot V ip s <> 0 -> V' (slot V ip s) = V (slot V ip s)).
  { intros s Hs Hz. unfold V'. rewrite fupd_ne; [done|]. destruct (W3 s Hs) as [|[H1 _]]; [done|]. by apply not_eq_sym, H1. }
  assert (Hsl : forall s, is_slot s -> slot V' ip' s = slot V ip s).
  { intros s Hs. unfold is_slot in Hs. unfold slot, fblock. cbn [ip' set_i_size i_addrs]. destruct (_ =? MAXFILE); [done|].
    destruct (s <? NDIRECT); [done|]. destruct (Z.eqb_spec (i_addrs ip !!! Z.to_nat NDIRECT) 0) as [|Hz]; [done|].
    pose proof (Ha MAXFILE max_slot) as E. rewrite slot_ind in E. by rewrite E. }
  assert (Hu : forall m, 0 <= m < sb_size sb -> used V' sb m = used V sb m).
  { intros m Hr. apply used_fupd_other. by apply D3. }
  split; [|split; [done|]].
  - split; [split|..]; [done|done| | | |by apply block_lens_fupd].
    + intros s Hs. rewrite Hsl by done. destruct (W3 s Hs) as [|[H1 H2]]; [by left|right]. split; [done|].
      rewrite Hu by (destruct H1; lia). done.
    + intros s s' H1 H2. rewrite !Hsl by done. by apply W4.
    + intros m Hr. rewrite Hu by done. by apply Hm.
  - intros bn Hbn. unfold content. rewrite <- !slot_block by lia. rewrite Hsl by (unfold is_slot; lia).
    destruct (Z.eqb_spec (slot V ip bn) 0) as [|Hz]; [done|]. apply Ha; [unfold is_slot; lia|done].
Qed.

(** The addresses of a file fit into a dinode. *)
Lemma addrs_range V sb st ip : file_inv V sb st ip -> sb_size sb < 2 ^ 31 -> Forall (fun a => 0 <= a < 2 ^ 32) (i_addrs ip).
Proof.
  intros [[W1 W2 W3 W4] _ _] Hsz. apply Forall_lookup. intros j a Hj. pose proof (lookup_lt_Some _ _ _ Hj) as Hlt.
  assert (HD : NDIRECT = 12) by done. assert (HM : MAXFILE = 268) by done. apply list_lookup_total_correct in Hj as <-.
  assert (exists s, is_slot s /\ slot V ip s = i_addrs ip !!! j) as (s & Hs & E).
  { destruct (decide (j = 12%nat)) as [->|]; [exists MAXFILE; split; [apply max_slot|by rewrite slot_ind]|].
    exists (Z.of_nat j). split; [unfold is_slot; lia|]. rewrite slot_block by lia. unfold fblock.
    rewrite (proj2 (Z.ltb_lt _ _)) by lia. by rewrite Nat2Z.id. }
  rewrite <- E. destruct (W3 s Hs) as [->|[[[? ?] _ _ _] _]]; lia.
Qed.

Section Writei.
Context {SC : Sched} {VD : VirtioDisk} (Hwk : (0 < wakeups)%nat).
Implicit Types (w : world kstate).

(** The end of writei: a longer file gets its new size, and the inode goes to the
    disk. *)
Lemma writei_inode w V d st cap Bs k sb i ip off : tx w V d st cap Bs [] k [] -> compc w = sb -> disk_ok sb st ->
  inodes (compc w) !!! i = ip -> (i < length (inodes (compc w)))%nat -> i_dev ip = ROOTDEV ->
  0 <= i_inum ip < sb_ninodes sb -> block_lens V -> (1 <= k)%nat -> Z.of_nat (length Bs) < cap ->
  let ip' := set_i_size (Z.max (i_size ip) off) ip in
  exists w' k', (ip ← get_inode i;
      (if off >? i_size ip then upd_inode (set_i_size off) i else mret ()) ;; iupdate i) w = Ok ((), w') /\
    fstep w w' /\ inodes (compc w') = <[i := ip']> (inodes (compc w)) /\
    tx w' (fupd V (IBLOCK (i_inum ip) sb) (put_dinode (i_inum ip mod IPB) (dinode_of ip') (V (IBLOCK (i_inum ip) sb))))
      d st cap (logged (IBLOCK (i_inum ip) sb) Bs) [] k' [] /\
    (k' + length (logged (IBLOCK (i_inum ip) sb) Bs) = k + length Bs)%nat.
Proof.
  intros T Hsb Hd Hip Hi Hdev Hn Hl Hk Hc ip'. kdo (get_inode_run i w). rewrite Hip.
  assert (E : (if off >? i_size ip then upd_inode (set_i_size off) i else mret ()) w =
    Ok ((), updc (Icache (<[i := ip']> (inodes (compc w)))) w)).
  { rewrite Z.gtb_ltb. destruct (Z.ltb_spec (i_size ip) off).
    - rewrite upd_inode_run, list_alter_total, Hip by done. unfold ip'. by rewrite Z.max_r by lia.
    - unfold ip'. rewrite Z.max_l by lia. rewrite list_insert_id; [replace (Icache _) with (compc (T := icache) w) by (by destruct (compc (T := icache) w)); by rewrite updc_compc|].
      replace (set_i_size (i_size ip) ip) with ip by by destruct ip. rewrite <- Hip. by apply list_lookup_lookup_total_lt. }
  kdo E. set (w1 := updc _ w).
  destruct (iupdate_ok Hwk w1 V d st cap Bs k sb i ip') as (w' & k' & E' & S' & T' & K'); try done.
  - eapply tx_apart; [apply apart_ic|done].
  - apply Hd.
  - unfold w1. rewrite compc_updc. by apply list_lookup_total_insert_eq.
  - exists w', k'. split; [exact E'|]. split; [etrans; [apply fstep_ic|by apply lstep_fstep]|].
    split; [|done]. rewrite (lstep_ic _ _ S'). unfold w1. by rewrite compc_updc.
Qed.
(** What a write of [bs] at [off] makes of a file. *)
Record written (sb : superblock) (st : Z) (V : Z -> blk) (ip : inode) (off : Z) (bs : list Z) (V' : Z -> blk) (ip' : inode) : Prop := {
  wn_inv : file_inv V' sb st ip';
  wn_inode : same_inode (set_i_size (i_size ip') ip) ip';
  wn_size : i_size ip' = Z.max (i_size ip) (off + Z.of_nat (length bs));
  wn_bytes : forall x, 0 <= x < MAXFILE * BSIZE -> fbyte V' ip' x =
    if decide (off <= x < off + Z.of_nat (length bs)) then bs !!! Z.to_nat (x - off) else fbyte V ip x;
  wn_alloc : forall bn, off / BSIZE <= bn -> bn * BSIZE < off + Z.of_nat (length bs) -> bs <> [] -> fblock V' ip' bn <> 0;
  wn_stays : forall s, is_slot s -> slot V ip s <> 0 -> slot V' ip' s = slot V ip s;
  wn_disk : bs <> [] -> dinode_at V' sb (i_inum ip) = dinode_of ip';
  wn_dinode : forall j, 0 <= j < sb_ninodes sb -> j <> i_inum ip -> dinode_at V' sb j = dinode_at V sb j;
  wn_other : forall m, taken V sb st m -> (forall s, is_slot s -> slot V ip s <> m) -> V' m = V m;
}.

Lemma IBLOCK_pos sb st j : disk_ok sb st -> 0 <= j -> IBLOCK j sb <> 0.
Proof. intros [_ _ _ _ H] Hj. unfold IBLOCK. assert (0 <= j / IPB) by by apply Z.div_pos. lia. Qed.

(** Inode blocks are not changed by growing and writing a file. *)
Lemma kept_dinode sb st c V ip V' ip' j : disk_ok sb st -> file_inv V sb st ip -> kept sb st c V ip V' ip' ->
  0 <= j < sb_ninodes sb -> V' (IBLOCK j sb) = V (IBLOCK j sb).
Proof.
  intros Hd Hv K Hj. apply (gw_other _ _ _ _ _ _ _ K).
  - intros q Hq. by apply (do_sep _ _ Hd).
  - intros Hh. by destruct (hm_ino _ _ _ Hh j Hj).
  - intros s Hs E. destruct (fw_taken _ _ _ _ (fv_wf _ _ _ _ Hv) s Hs) as [E0|[Hh _]].
    + destruct (IBLOCK_pos sb st j Hd); [lia|congruence].
    + apply (hm_ino _ _ _ Hh j Hj). congruence.
Qed.

Lemma wrote_written w0 V0 d st cap Bs0 k0 sb i ip0 off bs j w V ip Bs k (V' := fupd V (IBLOCK (i_inum ip0) sb)
    (put_dinode (i_inum ip0 mod IPB) (dinode_of (set_i_size (Z.max (i_size ip0) (off + Z.of_nat (length bs))) ip)) (V (IBLOCK (i_inum ip0) sb)))) :
  wrote w0 V0 d st cap Bs0 k0 sb i ip0 off bs (Z.of_nat (length bs)) j w V ip Bs k -> covered off (Z.of_nat (length bs)) j ->
  disk_ok sb st -> file_inv V0 sb st ip0 -> 0 <= i_inum ip0 < sb_ninodes sb -> dinode_ok (dinode_of ip0) ->
  0 <= i_size ip0 <= MAXFILE * BSIZE -> 0 <= off -> off + Z.of_nat (length bs) <= MAXFILE * BSIZE ->
  written sb st V0 ip0 off bs V' (set_i_size (Z.max (i_size ip0) (off + Z.of_nat (length bs))) ip).
Proof.
  intros [W1 W2 W3 W4 W5 W6 W7 W8] Hcv Hd Hv Hn Hok Hsz Hoff Hend. set (ip' := set_i_size _ ip) in *.
  assert (HM : MAXFILE = 268) by done. assert (HB : BSIZE = 1024) by done.
  pose proof (gw_inv _ _ _ _ _ _ _ W5) as Hv1. pose proof (gw_inode _ _ _ _ _ _ _ W5) as Hsi.
  assert (Hd' : dinode_ok (dinode_of ip')).
  { destruct Hok as [O1 O2 O3 O4 O5 O6 O7]. unfold same_inode in Hsi. unfold ip'. rewrite Hsi. split; try done.
    - change (0 <= Z.max (i_size ip0) (off + Z.of_nat (length bs)) < 2 ^ 32). lia.
    - apply (fw_len _ _ _ _ (fv_wf _ _ _ _ Hv1)).
    - refine (addrs_range V sb st ip Hv1 _). apply (do_bm _ _ Hd). }
  pose proof (fv_lens _ _ _ _ Hv1) as Hl1.
  assert (Hx : length (put_dinode (i_inum ip0 mod IPB) (dinode_of ip') (V (IBLOCK (i_inum ip0) sb))) = Z.to_nat BSIZE).
  { apply length_put_dinode; [apply Hd'|by apply Z.mod_pos_bound|done]. }
  destruct (meta_write sb st V ip (i_inum ip0) _ (Z.max (i_size ip0) (off + Z.of_nat (length bs))) Hd Hv1 Hn Hx) as (M1 & M2 & M3).
  fold V' ip' in M1, M2, M3.
  split; try done.
  - unfold same_inode in *. unfold ip'. by rewrite Hsi.
  - intros x Hxr. rewrite <- W7 by done. unfold fbyte. rewrite M3; [done|]. split; [apply Z.div_pos|apply Z.div_lt_upper_bound]; lia.
  - intros bn Hb1 Hb2 Hne. pose proof (Z.div_pos off BSIZE Hoff ltac:(lia)).
    assert (Hbl : bn < MAXFILE) by lia. rewrite <- slot_block, M2, slot_block by (done || unfold is_slot; lia).
    apply W8. split; [done|]. destruct Hcv as [Hz|Hz]; [destruct bs; [done|cbn in Hz; lia]|]. lia.
  - intros s Hs Hz. rewrite M2 by done. by eapply slot_stays.
  - intros _. unfold V'. rewrite dinode_at_put by (done || lia). by rewrite decide_True.
  - intros j' Hj' Hne. unfold V'. rewrite dinode_at_put by (done || lia). rewrite decide_False by done.
    unfold dinode_at. by rewrite (kept_dinode sb st _ V0 ip0 V ip) by done.
  - intros m [Hh Hu] Hs. unfold V'. rewrite fupd_ne by (apply not_eq_sym, (hm_ino _ _ _ Hh); lia).
    apply (gw_other _ _ _ _ _ _ _ W5); [apply (hm_bm _ _ _ Hh)|done|done].
Qed.
Lemma written_nil sb st V ip off : file_inv V sb st ip -> off <= i_size ip -> written sb st V ip off [] V ip.
Proof.
  intros Hv Hoff. split; try done.
  - by destruct ip.
  - cbn. lia.
  - intros x Hx. cbn. by rewrite decide_False by lia.
Qed.

Lemma writei_ok w V d st cap Bs k sb i ip src off bs : tx w V d st cap Bs [] k [] -> compc w = sb -> disk_ok sb st ->
  inodes (compc w) !!! i = ip -> (i < length (inodes (compc w)))%nat -> file_inv V sb st ip ->
  0 <= i_inum ip < sb_ninodes sb -> dinode_ok (dinode_of ip) -> i_size ip <= MAXFILE * BSIZE ->
  source w src bs -> Z.of_nat (length bs) <= write_max -> 0 <= off <= i_size ip ->
  off + Z.of_nat (length bs) <= MAXFILE * BSIZE ->
  (10 <= k)%nat -> Z.of_nat (length Bs) + MAXOPBLOCKS <= cap -> (8 <= free_count V sb)%nat ->
  exists w' V' ip' Bs' k', writei i src off (Z.of_nat (length bs)) w = Ok (Z.of_nat (length bs), w') /\
    fstep w w' /\ inodes (compc w') = <[i := ip']> (inodes (compc w)) /\ tx w' V' d st cap Bs' [] k' [] /\
    (length Bs' <= length Bs + 7)%nat /\ (k' + length Bs' = k + length Bs)%nat /\ written sb st V ip off bs V' ip'.
Proof.
  intros T Hsb Hd Hip Hi Hv Hn Hok Hsz Hs Hmax Hoff Hend Hk Hc Hf. set (n := Z.of_nat (length bs)) in *.
  change write_max with 3072 in Hmax. assert (HB : BSIZE = 1024) by done. assert (HM : MAXFILE = 268) by done.
  pose proof (Z.mod_pos_bound off BSIZE ltac:(lia)) as Hr. pose proof (Z.div_mod n BSIZE ltac:(lia)). pose proof (Z.mod_pos_bound n BSIZE ltac:(lia)).
  unfold writei. kdo (get_inode_run i w). rewrite Hip, u32_id, !Z.gtb_ltb by lia.
  rewrite (proj2 (Z.ltb_ge (i_size ip) off)), (proj2 (Z.ltb_ge (off + n) off)), (proj2 (Z.ltb_ge (MAXFILE * BSIZE) (off + n))) by lia.
  cbn [orb]. destruct (decide (bs = [])) as [->|Hne].
  { exists w, V, ip, Bs, k. split; [done|]. split; [reflexivity|]. split; [|split; [done|split; [lia|split; [done|]]]].
    - rewrite <- Hip, list_insert_id; [done|]. by apply list_lookup_lookup_total_lt.
    - apply written_nil; [done|lia]. }
  assert (Hpos : 0 < n) by (destruct bs; [done|cbn [length] in n; lia]).
  assert (0 <= n / BSIZE) by (apply Z.div_pos; lia).
  destruct (writei_loop Hwk w V d st cap Bs k sb i ip off bs Hsb (do_bm _ _ Hd) (do_one _ _ Hd) Hi ltac:(lia) Hend ltac:(lia) Hk Hc Hf
    (S (S (Z.to_nat (n / BSIZE + 1)))) 0 0 w V ip Bs k src) as (w1 & V1 & ip1 & Bs1 & k1 & j & E1 & Hw & Hj & Hcv); try done; try lia.
  { by apply wrote_start. }
  { by left. }
  { intros _. by rewrite !Z.add_0_r. }
  { right. rewrite Z.add_0_r. fold n. lia. }
  rewrite Z.add_0_r in E1. kdo E1. rewrite i32_id by lia. fold n.
  assert (Hlen : Z.of_nat (length Bs1) <= Z.of_nat (length Bs) + 2 + j) by (eapply wrote_len; [apply (do_one _ _ Hd)|exact Hw|lia]).
  pose proof Hw as [W1 W2 W3 W4 W5 W6 W7 W8]. change MAXOPBLOCKS with 10 in Hc.
  pose proof (gw_inode _ _ _ _ _ _ _ W5) as Hsi. unfold same_inode in Hsi.
  rewrite (proj2 (Z.ltb_lt 0 n)) by done.
  destruct (writei_inode w1 V1 d st cap Bs1 k1 sb i ip1 (off + n)) as (w2 & k2 & E2 & S2 & I2 & T2 & K2); try done; try lia.
  { by rewrite (fstep_sb _ _ W1). }
  { rewrite W2. by apply list_lookup_total_insert_eq. }
  { by rewrite W2, length_insert. }
  { rewrite Hsi. apply (fw_dev _ _ _ _ (fv_wf _ _ _ _ Hv)). }
  { by rewrite Hsi. }
  { apply (gw_inv _ _ _ _ _ _ _ W5). }
  replace (i_inum ip1) with (i_inum ip) in T2, K2 by (by rewrite Hsi). replace (i_size ip1) with (i_size ip) in I2, T2 by (by rewrite Hsi).
  kdo E2. do 5 eexists. split; [done|]. split; [by etrans|]. split; [rewrite I2, W2; apply list_insert_insert_eq|].
  split; [exact T2|]. split; [rewrite length_logged; case_decide; lia|]. split; [lia|].
  apply (wrote_written _ _ _ _ _ _ _ _ _ _ _ _ _ _ _ _ _ _ Hw); try done; lia.
Qed.
End Writei.

(** What was written can be read, and the rest of the file is as before. *)
Lemma written_read sb st V ip off bs V' ip' : written sb st V ip off bs V' ip' -> disk_ok sb st -> file_ok V ip ->
  0 <= off <= i_size ip -> off + Z.of_nat (length bs) <= MAXFILE * BSIZE ->
  file_ok V' ip' /\ file_bytes V' ip' off (Z.of_nat (length bs)) = bs /\
  forall x, 0 <= x < i_size ip -> ~ (off <= x < off + Z.of_nat (length bs)) -> file_byte V' ip' x = file_byte V ip x.
Proof.
  intros [N1 _ N2 N3 N4 N5 _ _ _] Hd [F1 F2 F3 F4] Hoff Hend. assert (HB : BSIZE = 1024) by done. assert (HM : MAXFILE = 268) by done.
  pose proof (Z.div_mod off BSIZE ltac:(lia)). pose proof (Z.mod_pos_bound off BSIZE ltac:(lia)).
  assert (Hsz : sb_size sb < 2 ^ 31) by apply (do_bm _ _ Hd).
  assert (Hrg : forall s, is_slot s -> slot V' ip' s <> 0 -> 0 < slot V' ip' s < 2 ^ 31).
  { intros s Hs Hz. destruct (fw_taken _ _ _ _ (fv_wf _ _ _ _ N1) s Hs) as [|[[[? ?] _ _ _] _]]; [done|lia]. }
  assert (Hbk : forall bn, 0 <= bn -> bn * BSIZE < i_size ip' -> 0 < fblock V' ip' bn < 2 ^ 31).
  { intros bn Hbn Hlt. rewrite N2 in Hlt. assert (Hb : bn < MAXFILE) by lia. assert (Hs : is_slot bn) by (unfold is_slot; lia).
    rewrite <- slot_block by done. apply Hrg; [done|]. destruct (Z_lt_le_dec (bn * BSIZE) (i_size ip)).
    - rewrite N5; rewrite ?slot_block by done; [|done|]; pose proof (F3 bn Hbn ltac:(lia)); lia.
    - rewrite slot_block by done. apply N4; [lia|lia|]. intros ->. cbn in Hlt. lia. }
  assert (Hbyte : forall x, 0 <= x < i_size ip' -> file_byte V' ip' x = fbyte V' ip' x).
  { intros x Hx. apply fbyte_file_byte. pose proof (Z.div_mod x BSIZE ltac:(lia)). pose proof (Z.mod_pos_bound x BSIZE ltac:(lia)).
    pose proof (Z.div_pos x BSIZE ltac:(lia) ltac:(lia)). pose proof (Hbk (x / BSIZE) ltac:(lia) ltac:(lia)). lia. }
  split; [split; [apply (fw_dev _ _ _ _ (fv_wf _ _ _ _ N1))|lia|done|]|split].
  - intros Hlt. rewrite <- (slot_ind V'). apply Hrg; [apply max_slot|]. rewrite slot_ind. intros Ez.
    assert (HD : NDIRECT = 12) by done. pose proof (Hbk NDIRECT ltac:(lia) ltac:(lia)) as Hb. unfold fblock in Hb. rewrite Ez in Hb.
    rewrite Z.ltb_irrefl in Hb. cbn in Hb. lia.
  - apply list_eq. intros j. unfold file_bytes. rewrite list_lookup_fmap. destruct (decide (j < length bs)%nat) as [Hj|Hj].
    + rewrite lookup_seqZ_lt by lia. cbn [fmap option_fmap option_map]. rewrite Hbyte, N3, decide_True by lia.
      replace (Z.to_nat (off + Z.of_nat j - off)) with j by lia. symmetry. by apply list_lookup_lookup_total_lt.
    + rewrite lookup_seqZ_ge by lia. symmetry. apply lookup_ge_None. lia.
  - intros x Hx Hout. rewrite Hbyte, N3, decide_False by (done || lia). symmetry. apply fbyte_file_byte.
    pose proof (Z.div_mod x BSIZE ltac:(lia)). pose proof (Z.mod_pos_bound x BSIZE ltac:(lia)).
    pose proof (Z.div_pos x BSIZE ltac:(lia) ltac:(lia)). pose proof (F3 (x / BSIZE) ltac:(lia) ltac:(lia)). lia.
Qed.

(** ** A source that can not be read *)

(** The user page at [va] is not mapped. *)
Definition bad_source (w : world kstate) (va : Z) : Prop :=
  exists p kend T, c_proc (h_cpu (cur w)) = Some p /\ 0 < kend /\ 0 <= va /\
    pt_ok kend (pbytes (compc w)) (p_pagetable (procs (compc w) !!! p)) T /\ uaddr (pbytes (compc w)) T va = None.

Lemma bad_copyin w va m : cpu_ok w -> bad_source w va -> 0 < m -> either_copyin (S_user va) m w = Ok ((-1, []), touch w).
Proof.
  intros Hc (p & kend & T & Hp & Hk & Hva & Hpt & Hu) Hm. unfold either_copyin. rewrite (bind_Ok _ _ _ _ _ (myproc_run w Hc)), Hp.
  rewrite (bind_Ok _ _ _ _ _ (get_proc_run _ _)). knorm. unfold copyin_to.
  assert (Hf : exists f, Z.to_nat (m / PGSIZE + 3) = S f).
  { exists (Z.to_nat (m / PGSIZE + 2)). pose proof (Z.div_pos m PGSIZE ltac:(lia) ltac:(done)). lia. }
  destruct Hf as [f ->]. apply loop_exit. rewrite (copyin_round kend Hk (touch w) _ T va m []) by done.
  by rewrite compc_touch, Hu.
Qed.
Lemma bad_source_fstep w w' va : fstep w w' -> bad_source w va -> bad_source w' va.
Proof.
  intros S. destruct (fstep_frame _ _ S) as (E1 & E2 & E3). unfold bad_source.
  setoid_rewrite E1. setoid_rewrite E2. setoid_rewrite E3. done.
Qed.

Lemma splice_nil k b : splice k [] b = b.
Proof. unfold splice. cbn. by rewrite Nat.add_0_r, take_drop. Qed.

(** Storing what is there already. *)
Lemma upd_buf_same k b w : upd_buf (set_data (splice k [] (b_data (bufs (compc w) !!! b)))) b w = Ok ((), w).
Proof.
  assert (E : alter (set_data (b_data (bufs (compc w) !!! b))) b (bufs (compc w)) = bufs (compc w)).
  { etrans; [apply (list_alter_ext _ id); [|done]|by apply list_alter_id]. intros x Hx.
    rewrite (list_lookup_total_correct _ _ _ Hx). by destruct x. }
  transitivity (Ok ((), updc (Bcache (alter (set_data (splice k [] (b_data (bufs (compc w) !!! b)))) b (bufs (compc w)))) w)); [done|].
  rewrite splice_nil, E. replace (Bcache _) with (compc (T := bcache) w) by (by destruct (compc (T := bcache) w)).
  by rewrite updc_compc.
Qed.

Section Bad.
Context {SC : Sched} {VD : VirtioDisk} (Hwk : (0 < wakeups)%nat).
Implicit Types (w : world kstate).

(** The loop of writei stops in its first round. *)
Lemma writei_stop w V d st cap Bs k sb i ip va off n : tx w V d st cap Bs [] k [] -> compc w = sb -> disk_ok sb st ->
  inodes (compc w) !!! i = ip -> (i < length (inodes (compc w)))%nat -> file_inv V sb st ip -> bad_source w va ->
  0 <= off -> 0 < n -> off + n <= MAXFILE * BSIZE -> (6 <= k)%nat -> Z.of_nat (length Bs) + 6 <= cap -> (2 <= free_count V sb)%nat ->
  exists w' V' ip' Bs' k', writei_body i n (0, off, S_user va) w = Ok (inr off, w') /\
    filled w V d st cap Bs k sb i ip (off / BSIZE) 2 5 w' V' ip' Bs' k'.
Proof.
  intros T Hsb Hd Hip Hi Hv Hb Hoff Hn Hend Hk Hc Hf. assert (HB : BSIZE = 1024) by done. assert (HM : MAXFILE = 268) by done.
  assert (Hbn : 0 <= off / BSIZE < MAXFILE) by (split; [apply Z.div_pos|apply Z.div_lt_upper_bound]; lia).
  unfold writei_body. rewrite (proj2 (Z.ltb_lt _ _)) by done. kdo (get_inode_run i w). rewrite Hip, (fw_dev _ _ _ _ (fv_wf _ _ _ _ Hv)).
  destruct (bmap_ok Hwk w V d st cap Bs k sb i ip (off / BSIZE)) as (w1 & V1 & ip1 & Bs1 & k1 & E1 & F & Z1); try done; try lia.
  { apply Hd. }
  kdo E1. pose proof F as [F1 F2 F3 F4 F5 F6 F7]. set (a := fblock V1 ip1 (off / BSIZE)) in *.
  assert (Hra : 0 <= a < 2 ^ 31).
  { unfold a. rewrite <- slot_block by lia. destruct (fw_taken _ _ _ _ (fv_wf _ _ _ _ (gw_inv _ _ _ _ _ _ _ F6)) (off / BSIZE)) as [->|[[[? ?] _ _ _] _]];
      [unfold is_slot; lia|lia|]. destruct (do_bm _ _ Hd) as [[? ?] _ _]. lia. }
  destruct (tx_bread Hwk _ _ _ _ _ _ _ _ _ a F3 Hra (not_elem_of_nil _) ltac:(left; lia)) as (b & w2 & E2 & S2 & T2).
  kdo E2. pose proof (cs_quiet _ _ _ _ _ _ _ (tx_cs _ _ _ _ _ _ _ _ _ T2)) as Q2.
  pose proof (Z.mod_pos_bound off BSIZE ltac:(lia)).
  kdo (bad_copyin w2 va (Z.min (n - 0) (BSIZE - off mod BSIZE)) (q_cpu _ Q2)
    ltac:(eapply bad_source_fstep; [|exact Hb]; etrans; [exact F1|by apply lstep_fstep]) ltac:(lia)).
  kdo (get_buf_run b (touch w2)). kdo (upd_buf_same (Z.to_nat (off mod BSIZE)) b (touch w2)). cbn [Z.eqb Pos.eqb].
  destruct (tx_brelse _ _ _ _ _ _ _ _ _ b a (tx_apart _ _ _ _ _ _ _ _ _ _ (apart_touch w2) T2) (not_elem_of_nil _) ltac:(right; apply not_elem_of_nil)) as (w3 & E3 & S3 & T3).
  kdo E3. exists w3, V1, ip1, Bs1, k1. split; [done|].
  assert (S13 : lstep w1 w3) by (etrans; [exact S2|]; etrans; [apply lstep_touch|exact S3]).
  split; try done; [etrans; [exact F1|by apply lstep_fstep]|by rewrite (lstep_ic _ _ S13)|].
  replace k1 with (k1 - (if decide (a ∈ Bs1) then 0 else 1) + (if decide (a ∈ Bs1) then 0 else 1))%nat by (case_decide; lia). exact T3.
Qed.
Lemma writei_refuses w i ip src off n : inodes (compc w) !!! i = ip -> 0 <= off < 2 ^ 32 -> 0 < n < 2 ^ 31 ->
  i_size ip < off \/ 2 ^ 32 <= off + n \/ MAXFILE * BSIZE < off + n -> writei i src off n w = Ok (-1, w).
Proof.
  intros Hip Hoff Hn Hr. assert (HB : BSIZE = 1024) by done. assert (HM : MAXFILE = 268) by done. unfold writei.
  kdo (get_inode_run i w). rewrite Hip, !Z.gtb_ltb.
  destruct (Z.ltb_spec (i_size ip) off); [done|]. cbn [orb]. destruct (Z.le_gt_cases (2 ^ 32) (off + n)) as [Hw|Hw].
  - assert (E : u32 (off + n) = off + n - 2 ^ 32) by (symmetry; apply (Z.mod_unique_pos _ _ 1); lia).
    by rewrite (proj2 (Z.ltb_lt (u32 (off + n)) off)) by lia.
  - rewrite u32_id, (proj2 (Z.ltb_ge (off + n) off)), (proj2 (Z.ltb_lt (MAXFILE * BSIZE) (off + n))) by lia. done.
Qed.

Lemma writei_unread w V d st cap Bs k sb i ip va off n : tx w V d st cap Bs [] k [] -> compc w = sb -> disk_ok sb st ->
  inodes (compc w) !!! i = ip -> (i < length (inodes (compc w)))%nat -> file_inv V sb st ip ->
  0 <= i_inum ip < sb_ninodes sb -> bad_source w va -> 0 <= off <= i_size ip -> 0 < n < 2 ^ 31 -> off + n <= MAXFILE * BSIZE ->
  (6 <= k)%nat -> Z.of_nat (length Bs) + 6 <= cap -> (2 <= free_count V sb)%nat ->
  exists w' V' ip' Bs' k', writei i (S_user va) off n w = Ok (n, w') /\
    inodes (compc w') = <[i := ip']> (inodes (compc w)) /\ tx w' V' d st cap Bs' [] k' [] /\
    i_size ip' = i_size ip /\ forall x, 0 <= x < MAXFILE * BSIZE -> fbyte V' ip' x = fbyte V ip x.
Proof.
  intros T Hsb Hd Hip Hi Hv Hnum Hb Hoff Hn Hend Hk Hc Hf. assert (HB : BSIZE = 1024) by done. assert (HM : MAXFILE = 268) by done.
  unfold writei. kdo (get_inode_run i w). rewrite Hip, u32_id, !Z.gtb_ltb by lia.
  rewrite (proj2 (Z.ltb_ge (i_size ip) off)), (proj2 (Z.ltb_ge (off + n) off)), (proj2 (Z.ltb_ge (MAXFILE * BSIZE) (off + n))) by lia.
  cbn [orb]. destruct (writei_stop w V d st cap Bs k sb i ip va off n) as (w1 & V1 & ip1 & Bs1 & k1 & E1 & [F1 F2 F3 F4 F5 F6 F7]); try done; try lia.
  pose proof (gw_inode _ _ _ _ _ _ _ F6) as Hsi. unfold same_inode in Hsi. pose proof (gw_inv _ _ _ _ _ _ _ F6) as Hv1.
  rewrite (bind_Ok _ _ _ _ _ (loop_exit _ _ _ _ _ _ E1)), (proj2 (Z.ltb_lt 0 n)), i32_id by lia.
  assert (Hnum1 : 0 <= i_inum ip1 < sb_ninodes sb) by (by rewrite Hsi).
  destruct (writei_inode Hwk w1 V1 d st cap Bs1 k1 sb i ip1 off) as (w2 & k2 & E2 & S2 & I2 & T2 & _); try done; try lia.
  { by rewrite (fstep_sb _ _ F1). }
  { rewrite F2. by apply list_lookup_total_insert_eq. }
  { by rewrite F2, length_insert. }
  { apply (fw_dev _ _ _ _ (fv_wf _ _ _ _ Hv1)). }
  { apply Hv1. }
  kdo E2. replace (Z.max (i_size ip1) off) with (i_size ip) in I2, T2 by (rewrite Hsi; cbn; lia).
  do 5 eexists. split; [done|]. split; [rewrite I2, F2; apply list_insert_insert_eq|]. split; [exact T2|]. split; [done|].
  intros x Hx. assert (Hbn : 0 <= x / BSIZE < MAXFILE) by (split; [apply Z.div_pos|apply Z.div_lt_upper_bound]; lia).
  unfold fbyte. rewrite <- (gw_content _ _ _ _ _ _ _ F6) by done. f_equal. eapply meta_write; try done.
  apply length_put_dinode; [apply (fw_len _ _ _ _ (fv_wf _ _ _ _ Hv1))|by apply Z.mod_pos_bound|apply Hv1].
Qed.
End Bad.

Section Props.
Context {SC : Sched} {VD : VirtioDisk}.
Implicit Types (w : world kstate).

(** C13: writei puts the bytes at [src] (user or kernel memory) into the file at [off],
    allocating blocks and extending the file as needed: [file_bytes], which is what readi
    delivers, has them at [off], the other bytes of the file, the other inodes and the blocks of other files are as
    before, the inode on disk is the one in memory, and nothing is on disk before
    commit.  At most 7 blocks enter the transaction, within the MAXOPBLOCKS that
    begin_op reserves.  This is for at most [write_max] = 3072 bytes, the unit of
    filewrite, with 8 blocks free. *)
Theorem writei_correct w V d st cap Bs k (sb : superblock) (i : nat) ip src off (bs : list Z) (n := Z.of_nat (length bs))
  (Hwk : (0 < wakeups)%nat) (T : tx w V d st cap Bs [] k []) (Hsb : compc w = sb) (Hd : disk_ok sb st)
  (Hip : inodes (compc w) !!! i = ip) (Hi : (i < length (inodes (compc w)))%nat)
  (Hv : file_inv V sb st ip) (Hr : file_ok V ip) (Hnum : 0 <= i_inum ip < sb_ninodes sb) (Hok : dinode_ok (dinode_of ip))
  (Hs : source w src bs) (Hmax : n <= write_max) (Hoff : 0 <= off <= i_size ip) (Hend : off + n <= MAXFILE * BSIZE)
  (Hk : (10 <= k)%nat) (Hc : Z.of_nat (length Bs) + MAXOPBLOCKS <= cap) (Hf : (8 <= free_count V sb)%nat) :
  exists w' V' ip' Bs' k', writei i src off n w = Ok (n, w') /\
    inodes (compc w') = <[i := ip']> (inodes (compc w)) /\ tx w' V' d st cap Bs' [] k' [] /\
    (length Bs' <= length Bs + 7)%nat /\ file_inv V' sb st ip' /\ file_ok V' ip' /\
    i_size ip' = Z.max (i_size ip) (off + n) /\ file_bytes V' ip' off n = bs /\
    (forall x, 0 <= x < i_size ip -> ~ (off <= x < off + n) -> file_byte V' ip' x = file_byte V ip x) /\
    (bs <> [] -> dinode_at V' sb (i_inum ip) = dinode_of ip') /\
    (forall j, 0 <= j < sb_ninodes sb -> j <> i_inum ip -> dinode_at V' sb j = dinode_at V sb j) /\
    (forall m, taken V sb st m -> (forall s, is_slot s -> slot V ip s <> m) -> V' m = V m).
Proof.
  destruct (writei_ok Hwk w V d st cap Bs k sb i ip src off bs) as (w' & V' & ip' & Bs' & k' & E & _ & I' & T' & L' & _ & W); try done.
  { apply (fo_size _ _ Hr). }
  destruct (written_read sb st V ip off bs V' ip' W Hd Hr Hoff Hend) as (R1 & R2 & R3). destruct W.
  exists w', V', ip', Bs', k'. by split_and!.
Qed.
(** C40: The failures of writei.  A range that starts past the end of the file, wraps
    around 2^32 or ends past MAXFILE blocks gives -1 and changes nothing.  When the
    source can not be read, writei returns [n] as if all had been written: size and
    contents of the file are as before. *)
Theorem writei_faults w V d st cap Bs k (sb : superblock) (i : nat) ip va off n
  (Hwk : (0 < wakeups)%nat) (T : tx w V d st cap Bs [] k []) (Hsb : compc w = sb) (Hd : disk_ok sb st)
  (Hip : inodes (compc w) !!! i = ip) (Hi : (i < length (inodes (compc w)))%nat)
  (Hv : file_inv V sb st ip) (Hnum : 0 <= i_inum ip < sb_ninodes sb)
  (Hoff : 0 <= off < 2 ^ 32) (Hn : 0 < n < 2 ^ 31)
  (Hk : (10 <= k)%nat) (Hc : Z.of_nat (length Bs) + MAXOPBLOCKS <= cap) (Hf : (2 <= free_count V sb)%nat) :
  (forall src, i_size ip < off \/ 2 ^ 32 <= off + n \/ MAXFILE * BSIZE < off + n -> writei i src off n w = Ok (-1, w)) /\
  (off <= i_size ip -> off + n <= MAXFILE * BSIZE -> bad_source w va ->
   exists w' V' ip' Bs' k', writei i (S_user va) off n w = Ok (n, w') /\
     inodes (compc w') = <[i := ip']> (inodes (compc w)) /\ tx w' V' d st cap Bs' [] k' [] /\
     i_size ip' = i_size ip /\ forall x, 0 <= x < MAXFILE * BSIZE -> fbyte V' ip' x = fbyte V ip x).
Proof.
  change MAXOPBLOCKS with 10 in Hc. split; [intros src; by apply writei_refuses|]. intros Hle Hend Hb.
  eapply writei_unread; try done; lia.
Qed.
End Props.

(** A check for all numbers below a bound. *)
Lemma seqZ_forallb (f : Z -> bool) n : forallb f (seqZ 0 n) = true -> forall s, 0 <= s < n -> f s = true.
Proof. rewrite forallb_forall. intros H s Hs. apply H, list_elem_of_In, elem_of_seqZ. lia. Qed.

(** ** A new file on a disk whose blocks from 46 on are free *)

Definition ex_new : inode := Inode ROOTDEV 5 1 1 T_FILE 0 0 1 0 (repeat 0 13).

Lemma ex_disk_ok : disk_ok ex_sb 2.
Proof.
  split; [exact ex_bm_ok|exact ex_in_ok| |by vm_compute|by vm_compute]. intros m j Hm Hj.
  change (sb_size ex_sb) with 1000 in Hm. change (sb_ninodes ex_sb) with 200 in Hj. unfold BBLOCK, IBLOCK.
  change BPB with 8192. change IPB with 16. change (sb_bmapstart ex_sb) with 45. change (sb_inodestart ex_sb) with 32.
  pose proof (Z.div_lt_upper_bound j 16 13 ltac:(lia) ltac:(lia)). rewrite Z.div_small by lia. lia.
Qed.

Lemma ex_home n : 46 <= n < 1000 -> home ex_sb 2 n.
Proof.
  intros Hn. split.
  - change (sb_size ex_sb) with 1000. lia.
  - unfold in_log, LOGSIZE, MAXOPBLOCKS. lia.
  - intros m Hm. change (sb_size ex_sb) with 1000 in Hm. unfold BBLOCK. change BPB with 8192. rewrite Z.div_small by lia.
    change (sb_bmapstart ex_sb) with 45. lia.
  - intros j Hj. change (sb_ninodes ex_sb) with 200 in Hj. unfold IBLOCK. change IPB with 16. change (sb_inodestart ex_sb) with 32.
    pose proof (Z.div_lt_upper_bound j 16 13 ltac:(lia) ltac:(lia)). lia.
Qed.

Lemma ex_meta : meta_used (disk_block ex_fsdisk) ex_sb 2.
Proof.
  intros n Hn Hu. change (sb_size ex_sb) with 1000 in Hn. apply ex_home.
  destruct (Z_lt_ge_dec n 46); [|lia]. by rewrite (ff_low _ _ _ _ ex_first_free) in Hu by lia.
Qed.

Lemma ex_slot s : is_slot s -> slot (disk_block ex_fsdisk) ex_new s = 0.
Proof.
  intros Hs. unfold slot, fblock. assert (E : forall j, (j < 13)%nat -> i_addrs ex_new !!! j = 0).
  { intros j Hj. do 13 (destruct j as [|j]; [reflexivity|]). lia. }
  unfold is_slot in Hs. assert (HD : NDIRECT = 12) by done. rewrite !(E (Z.to_nat NDIRECT)) by lia.
  destruct (_ =? MAXFILE); [done|]. destruct (Z.ltb_spec s NDIRECT); [apply E; lia|done].
Qed.

Lemma ex_new_inv : file_inv (disk_block ex_fsdisk) ex_sb 2 ex_new.
Proof.
  split; [split; [done|done| |]|exact ex_meta|exact ex_lens].
  - intros s Hs. left. by apply ex_slot.
  - intros s s' Hs _ _ Hz. by rewrite ex_slot in Hz.
Qed.
Lemma ex_new_read : file_ok (disk_block ex_fsdisk) ex_new.
Proof. split; [done|done| |]; cbn; unfold NDIRECT, BSIZE; lia. Qed.
Lemma ex_new_dinode : dinode_ok (dinode_of ex_new).
Proof.
  split; cbn [dinode_of ex_new d_type d_major d_minor d_nlink d_size d_addrs i_type i_major i_minor i_nlink i_size i_addrs];
    unfold T_FILE; try lia; [reflexivity|]. cbn [repeat]. repeat (apply Forall_cons; split; [lia|]). apply Forall_nil_2.
Qed.
Lemma ex_free : (8 <= free_count (disk_block ex_fsdisk) ex_sb)%nat.
Proof. apply Nat.leb_le. vm_compute. reflexivity. Qed.

Lemma writei_correct_witness : exists w w' V' ip', writei (SC := ex_sched) (VD := ex_disk) 0 (S_object (str "hello")) 0 5 w = Ok (5, w') /\
  i_size ip' = 5 /\ file_bytes V' ip' 0 5 = str "hello" /\ dinode_at V' ex_sb 5 = dinode_of ip'.
Proof.
  destruct (ex_iworld ex_fsdisk ex_new) as (w & T & Hsb & Hic & _). exists w.
  destruct (writei_correct (SC := ex_sched) (VD := ex_disk) w _ _ _ _ _ _ ex_sb 0 ex_new (S_object (str "hello")) 0 (str "hello")
    ltac:(cbn; lia) T Hsb ex_disk_ok ltac:(rewrite Hic; reflexivity) ltac:(rewrite Hic; cbn; lia) ex_new_inv ex_new_read)
    as (w' & V' & ip' & Bs' & k' & E & _ & _ & _ & _ & _ & S' & R & _ & D & _).
  - cbn. lia.
  - exact ex_new_dinode.
  - reflexivity.
  - by vm_compute.
  - cbn. lia.
  - by vm_compute.
  - unfold nbuf, NBUF, MAXOPBLOCKS. cbn. lia.
  - by vm_compute.
  - exact ex_free.
  - exists w', V', ip'. split; [exact E|]. split; [exact S'|]. split; [exact R|]. apply D. discriminate.
Defined.

Lemma ex_user w : quiet w -> exists w', apart w w' /\ bad_source w' 0 /\
  compc (T := icache) w' = compc w /\ compc (T := superblock) w' = compc w.
Proof.
  intros Q. pose proof Q as [_ [p P] _]. exists (user_world p w). destruct (user_world_ok w p Q P) as [A Hpt]. split; [done|].
  split; [|done]. exists p, (vm_page 4), us_tree. split; [apply P|]. split; [done|]. split; [lia|]. split; [exact Hpt|by vm_compute].
Qed.

Lemma writei_faults_witness : exists w w' V' ip', writei (SC := ex_sched) (VD := ex_disk) 0 (S_user 0) 0 100 w = Ok (100, w') /\
  i_size ip' = 0 /\ fbyte V' ip' 7 = 0.
Proof.
  destruct (ex_iworld ex_fsdisk ex_new) as (w0 & T0 & Hsb & Hic & _).
  destruct (ex_user w0 (cs_quiet _ _ _ _ _ _ _ (tx_cs _ _ _ _ _ _ _ _ _ T0))) as (w & A & B & I & Sb). exists w.
  destruct (writei_faults (SC := ex_sched) (VD := ex_disk) w _ _ _ _ _ _ ex_sb 0 ex_new 0 0 100
    ltac:(cbn; lia) (tx_apart _ _ _ _ _ _ _ _ _ _ A T0) ltac:(by rewrite Sb) ex_disk_ok ltac:(rewrite I, Hic; reflexivity)
    ltac:(rewrite I, Hic; cbn; lia) ex_new_inv ltac:(cbn; lia) ltac:(lia) ltac:(lia)
    ltac:(unfold nbuf, NBUF, MAXOPBLOCKS; cbn; lia) ltac:(by vm_compute) ltac:(pose proof ex_free; lia)) as [_ P].
  destruct P as (w' & V' & ip' & Bs' & k' & E & _ & _ & S' & R).
  - cbn. lia.
  - by vm_compute.
  - exact B.
  - exists w', V', ip'. split; [exact E|]. split; [exact S'|]. rewrite R by (by vm_compute). by vm_compute.
Defined.
