(* ===== verification/FsTrunc.v ===== *)
(** * fs.c: giving a file's blocks back

    itrunc frees every block of a file, the indirect block included, and iput frees
    the inode too when its last reference and its last link are gone.  What the file
    owned is free afterwards; no block, no inode and no contents of another file
    changes. *)
From stdpp Require Import prelude gmap strings.
From Stdlib Require Import ZArith Lia.
From S2P Require Import Prelude Memory CString Spinlock Riscv Kalloc Vm Uaccess Proc Bytes State Sleeplock Copy Console Bio BioView BioClient Log Fs LogSpec LogOps FsTx FsAlloc FsInode Icache FsFile FsBmap FsWrite.
Open Scope Z_scope.

(** ** What a file owns *)

(** Block [m] is in one of the slots below [s]. *)
Definition owns_below (V : Z -> blk) (ip : inode) (s m : Z) : Prop :=
  m <> 0 /\ exists s', 0 <= s' < s /\ slot V ip s' = m.
Definition owns (V : Z -> blk) (ip : inode) (m : Z) : Prop := owns_below V ip (MAXFILE + 1) m.

(** The inode after itrunc. *)
Definition with_addrs (l : list Z) (ip : inode) : inode :=
  Inode (i_dev ip) (i_inum ip) (i_ref ip) (i_valid ip) (i_type ip) (i_major ip) (i_minor ip) (i_nlink ip) (i_size ip) l.
Definition emptied (ip : inode) : inode := set_i_size 0 (with_addrs (repeat 0 13) ip).

Lemma owns_list V ip s m : owns_below V ip s m <-> m <> 0 /\ m ∈ slot V ip <$> seqZ 0 s.
Proof.
  unfold owns_below. rewrite list_elem_of_fmap. setoid_rewrite elem_of_seqZ. split.
  - intros (H0 & s' & H1 & H2). split; [done|]. exists s'. split; [done|lia].
  - intros (H0 & s' & H1 & H2). split; [done|]. exists s'. split; [lia|done].
Qed.
#[export] Instance owns_dec V ip s m : Decision (owns_below V ip s m).
Proof. refine (cast_if (decide (m <> 0 /\ m ∈ slot V ip <$> seqZ 0 s))); by rewrite owns_list. Defined.
Lemma owns_next V ip s m : 0 <= s -> owns_below V ip (s + 1) m <-> owns_below V ip s m \/ (m <> 0 /\ slot V ip s = m).
Proof.
  intros Hs. split.
  - intros (H0 & s' & H1 & H2). destruct (decide (s' = s)) as [->|]; [by right|]. left. split; [done|].
    exists s'. split; [lia|done].
  - intros [(H0 & s' & H1 & H2)|[H0 H2]]; (split; [done|]); [exists s'|exists s]; (split; [lia|done]).
Qed.
Lemma owns_slot V ip s : is_slot s -> slot V ip s <> 0 -> owns V ip (slot V ip s).
Proof. unfold is_slot. intros Hs Hz. split; [done|]. exists s. split; [lia|done]. Qed.
Lemma owns_taken V sb st ip s m : file_wf V sb st ip -> s <= MAXFILE + 1 -> owns_below V ip s m -> taken V sb st m.
Proof.
  intros W Hs (H0 & s' & H1 & <-). destruct (fw_taken _ _ _ _ W s'); [unfold is_slot; lia|done|done].
Qed.

(** A file whose blocks are the same and still in use is the same file. *)
Lemma slot_ext V D x : (forall m, owns V x m -> D m = V m) -> forall s, is_slot s -> slot D x s = slot V x s.
Proof.
  intros HD s Hs. unfold slot, fblock. destruct (s =? MAXFILE); [done|]. destruct (s <? NDIRECT); [done|].
  destruct (Z.eqb_spec (i_addrs x !!! Z.to_nat NDIRECT) 0) as [|Hz]; [done|]. rewrite <- (slot_ind V) in *.
  by rewrite HD by (by apply owns_slot; [apply max_slot|]).
Qed.
Lemma content_ext V D x : (forall m, owns V x m -> D m = V m) -> forall bn, 0 <= bn < MAXFILE -> content D x bn = content V x bn.
Proof.
  intros HD bn Hbn. assert (Hs : is_slot bn) by (unfold is_slot; lia).
  unfold content. rewrite <- !slot_block, (slot_ext V) by (done || lia).
  destruct (Z.eqb_spec (slot V x bn) 0) as [|Hz]; [done|]. by apply HD, owns_slot.
Qed.
Lemma file_ext V D sb st x : file_wf V sb st x -> (forall m, owns V x m -> D m = V m /\ used D sb m = true) ->
  file_wf D sb st x /\ forall bn, 0 <= bn < MAXFILE -> content D x bn = content V x bn.
Proof.
  intros [W1 W2 W3 W4] HD. assert (HD1 : forall m, owns V x m -> D m = V m) by (intros m Ho; by apply HD).
  split; [split; [done|done|..]|by apply content_ext].
  - intros s Hsl. rewrite (slot_ext V) by done. destruct (W3 s Hsl) as [|[Ho Hu]]; [by left|right]. split; [done|].
    apply HD, owns_slot; [done|]. by eapply home_nonzero.
  - intros s s' H1 H2. rewrite (slot_ext V D x HD1 s), (slot_ext V D x HD1 s') by done. by apply W4.
Qed.

(** All slots are empty. *)
Lemma slot_emptied V ip s : is_slot s -> slot V (emptied ip) s = 0.
Proof.
  intros Hs. unfold slot, fblock. assert (E : forall j, (j < 13)%nat -> i_addrs (emptied ip) !!! j = 0).
  { intros j Hj. do 13 (destruct j as [|j]; [reflexivity|]). lia. }
  unfold is_slot in Hs. assert (HD : NDIRECT = 12) by done. rewrite !(E (Z.to_nat NDIRECT)) by lia.
  destruct (_ =? MAXFILE); [done|]. destruct (Z.ltb_spec s NDIRECT); [apply E; lia|done].
Qed.

Section Cleared.
Context (sb : superblock) (st : Z) (V0 : Z -> blk) (ip : inode) (Hd : disk_ok sb st) (Hv : file_inv V0 sb st ip).

(** There is one bitmap block. *)
Definition bmb : Z := sb_bmapstart sb.
Lemma BBLOCK_one n : 0 <= n < sb_size sb -> BBLOCK n sb = bmb.
Proof. intros Hn. pose proof (do_one _ _ Hd). unfold BBLOCK, bmb. rewrite Z.div_small by lia. done. Qed.
Lemma bmb_home m : home sb st m -> m <> bmb.
Proof. intros Hh. pose proof (hm_range _ _ _ Hh). rewrite <- (BBLOCK_one m) by lia. apply not_eq_sym, (hm_bm _ _ _ Hh). lia. Qed.

(** The slots below [s] are free in [V]; nothing else is different. *)
Record cleared (s : Z) (V : Z -> blk) : Prop := {
  cl_lens : block_lens V;
  cl_used : forall m, 0 <= m < sb_size sb -> (used V sb m = true <-> used V0 sb m = true /\ ~ owns_below V0 ip s m);
  cl_other : forall m, m <> bmb -> V m = V0 m;
}.

Lemma cleared_0 : cleared 0 V0.
Proof. split; [apply Hv| |done]. intros m Hm. split; [|tauto]. intros Hu. split; [done|]. intros (_ & s' & Hs & _). lia. Qed.
Lemma cleared_skip s V : 0 <= s -> slot V0 ip s = 0 -> cleared s V -> cleared (s + 1) V.
Proof.
  intros Hs Hz [C1 C2 C3]. split; [done| |done]. intros m Hm. rewrite C2, owns_next by done. naive_solver congruence.
Qed.
Lemma cleared_free s V : is_slot s -> slot V0 ip s <> 0 -> cleared s V -> cleared (s + 1) (free_view V sb (slot V0 ip s)).
Proof.
  intros Hs Hz [C1 C2 C3]. destruct (fw_taken _ _ _ _ (fv_wf _ _ _ _ Hv) s Hs) as [|[Hh _]]; [done|].
  pose proof (hm_range _ _ _ Hh) as Hr. split.
  - apply block_lens_fupd; [done|]. unfold set_byte. rewrite length_insert. apply C1.
  - intros m Hm. rewrite free_view_used by done. rewrite andb_true_iff, negb_true_iff, bool_decide_eq_false, C2 by done.
    rewrite owns_next by (unfold is_slot in Hs; lia). split; [|naive_solver].
    intros [[H1 H2] H3]. split; [done|]. intros [?|[_ ?]]; [done|congruence].
  - intros m Hm. unfold free_view. rewrite fupd_ne; [by apply C3|]. rewrite BBLOCK_one by lia. done.
Qed.
(** The next block is still in use. *)
Lemma cleared_next s V : is_slot s -> slot V0 ip s <> 0 -> cleared s V ->
  home sb st (slot V0 ip s) /\ used V sb (slot V0 ip s) = true.
Proof.
  intros Hs Hz [C1 C2 C3]. destruct (fw_taken _ _ _ _ (fv_wf _ _ _ _ Hv) s Hs) as [|[Hh Hu]]; [done|].
  split; [done|]. pose proof (hm_range _ _ _ Hh) as Hr. apply C2; [lia|]. split; [done|].
  intros (_ & s' & H1 & H2). unfold is_slot in Hs. cut (s' = s); [lia|].
  apply (fw_inj _ _ _ _ (fv_wf _ _ _ _ Hv)); [unfold is_slot; lia|done|done|congruence].
Qed.
End Cleared.

Section Logged.
Context (sb : superblock).
Abbreviation bmb := (bmb sb).

(** The transaction has grown by the bitmap block at most. *)
Definition bm_logged (Bs0 : list Z) (k0 : nat) (Bs : list Z) (k : nat) : Prop :=
  (Bs = Bs0 /\ k = k0) \/ (Bs = logged bmb Bs0 /\ (k + length Bs = k0 + length Bs0)%nat).

Lemma bm_logged_trans Bs0 k0 Bs k Bs' k' x : bm_logged Bs0 k0 Bs (k + x) -> bm_logged Bs k Bs' k' -> bm_logged Bs0 k0 Bs' (k' + x).
Proof.
  assert (Hll : logged bmb (logged bmb Bs0) = logged bmb Bs0).
  { unfold logged at 1. rewrite decide_True; [done|]. apply elem_of_logged. by right. }
  intros [[-> <-]|[-> H1]] [[-> ->]|[-> H2]]; rewrite ?Hll in *; [left; split; [done|lia]|right; split; [done|lia]..].
Qed.
Lemma bm_logged_k Bs0 k0 Bs k : bm_logged Bs0 k0 Bs k -> (length Bs <= length Bs0 + 1)%nat /\ (k0 <= k + 1)%nat.
Proof.
  intros [[-> ->]|[-> H1]]; [lia|]. rewrite length_logged in *. case_decide; lia.
Qed.
Lemma bm_logged_in Bs0 k0 Bs k m : bm_logged Bs0 k0 Bs k -> m <> bmb -> m ∈ Bs <-> m ∈ Bs0.
Proof. intros [[-> _]|[-> _]] Hm; [done|]. rewrite elem_of_logged. naive_solver. Qed.

End Logged.

Section Trunc.
Context {SC : Sched} {VD : VirtioDisk} (Hwk : (0 < wakeups)%nat).
Implicit Types (w : world kstate).
Context (sb : superblock) (st : Z) (V0 : Z -> blk) (ip : inode) (Hd : disk_ok sb st) (Hv : file_inv V0 sb st ip).
Context (d : disk) (cap : Z).
Abbreviation bmb := (bmb sb).
Abbreviation cleared := (cleared sb V0 ip).
Abbreviation bm_logged := (bm_logged sb).

Lemma free_slot w V Bs0 k0 Bs k H s : tx w V d st cap Bs [] k H -> compc w = sb -> cleared s V -> is_slot s ->
  slot V0 ip s <> 0 -> bmb ∉ H.*2 -> bm_logged Bs0 k0 Bs k -> (0 < k0)%nat \/ bmb ∈ Bs0 -> Z.of_nat (length Bs0) + 1 < cap ->
  exists w' V' Bs' k', bfree ROOTDEV (slot V0 ip s) w = Ok ((), w') /\ lstep w w' /\ tx w' V' d st cap Bs' [] k' H /\
    cleared (s + 1) V' /\ bm_logged Bs0 k0 Bs' k'.
Proof.
  intros T Hsb Hcl Hs Hz Hh Hbm Hk Hc. destruct (cleared_next sb st V0 ip Hv s V Hs Hz Hcl) as [Ho Hu].
  pose proof (hm_range _ _ _ Ho) as Hr.
  assert (Hlen : length (logged bmb Bs0) = (length Bs0 + if decide (bmb ∈ Bs0) then 0 else 1)%nat) by apply length_logged.
  assert (Hin : (0 < k)%nat \/ bmb ∈ Bs).
  { destruct Hbm as [[-> ->]|[-> _]]; [done|right]. apply elem_of_logged. by right. }
  pose proof (bfree_ok Hwk w V d st cap Bs k H sb (slot V0 ip s) T Hsb (do_bm _ _ Hd) ltac:(lia)) as P.
  rewrite Hu, (BBLOCK_one sb st Hd) in P by lia.
  destruct (P Hin) as (w' & E & S' & T'); [|done|].
  { destruct Hbm as [[-> _]|[-> _]]; [lia|]. rewrite Hlen. destruct (decide (bmb ∈ Bs0)); lia. }
  do 4 eexists. split; [exact E|]. split; [done|]. split; [exact T'|].
  split; [by apply (cleared_free sb st)|]. destruct Hbm as [[-> ->]|[-> Hk']].
  - right. split; [done|]. rewrite Hlen. destruct (decide (bmb ∈ Bs0)); [lia|]. destruct Hk; [lia|done].
  - assert (Hi : bmb ∈ logged bmb Bs0) by (apply elem_of_logged; by right).
    right. rewrite decide_True by done. unfold logged at 1. rewrite decide_True by done. split; [done|].
    unfold logged at 1. rewrite decide_True by done. lia.
Qed.

(** *** The direct blocks *)

Definition clear_addrs (s : Z) : inode := with_addrs (repeat 0 (Z.to_nat s) ++ drop (Z.to_nat s) (i_addrs ip)) ip.

Lemma clear_addrs_at s j : 0 <= s <= j -> i_addrs (clear_addrs s) !!! Z.to_nat j = i_addrs ip !!! Z.to_nat j.
Proof.
  intros Hs. unfold clear_addrs. cbn [with_addrs i_addrs]. rewrite lookup_total_app_r by (rewrite repeat_length; lia).
  rewrite repeat_length, lookup_total_drop. f_equal. lia.
Qed.
Lemma clear_addrs_next s : 0 <= s < 13 -> set_i_addr s 0 (clear_addrs s) = clear_addrs (s + 1).
Proof.
  intros Hs. pose proof (fw_len _ _ _ _ (fv_wf _ _ _ _ Hv)) as Hl. unfold set_i_addr, clear_addrs, with_addrs. cbn. f_equal.
  replace (Z.to_nat (s + 1)) with (Z.to_nat s + 1)%nat by lia. rewrite repeat_app, <- app_assoc. cbn.
  rewrite <- (drop_drop _ 1 (Z.to_nat s)).
  rewrite insert_app_r_alt by (rewrite repeat_length; lia). rewrite repeat_length, Nat.sub_diag. f_equal.
  destruct (drop (Z.to_nat s) (i_addrs ip)) eqn:E; [|done]. apply (f_equal length) in E. rewrite length_drop in E. cbn in E. lia.
Qed.
Lemma clear_addrs_skip s : 0 <= s < 13 -> i_addrs ip !!! Z.to_nat s = 0 -> clear_addrs s = clear_addrs (s + 1).
Proof.
  intros Hs Hz. rewrite <- clear_addrs_next by done. rewrite <- (clear_addrs_at s s) in Hz by lia.
  pose proof (fw_len _ _ _ _ (fv_wf _ _ _ _ Hv)) as Hl. unfold set_i_addr. rewrite list_insert_id; [by destruct ip|].
  rewrite <- Hz. apply list_lookup_lookup_total_lt. cbn. rewrite length_app, repeat_length, length_drop. lia.
Qed.

Lemma slot_direct s : 0 <= s < NDIRECT -> slot V0 ip s = i_addrs ip !!! Z.to_nat s.
Proof.
  intros Hs. rewrite slot_block by (change MAXFILE with 268; change NDIRECT with 12 in Hs; lia).
  unfold fblock. by rewrite (proj2 (Z.ltb_lt _ _)) by lia.
Qed.

Lemma direct_loop Bs0 k0 L i n : (0 < k0)%nat \/ bmb ∈ Bs0 -> Z.of_nat (length Bs0) + 1 < cap -> (i < length L)%nat ->
  forall s w V Bs k, 0 <= s -> s + Z.of_nat n = NDIRECT -> tx w V d st cap Bs [] k [] -> compc w = sb ->
  inodes (compc w) = <[i := clear_addrs s]> L -> cleared s V -> bm_logged Bs0 k0 Bs k ->
  exists w' V' Bs' k', for_each (seqZ s (Z.of_nat n)) (fun k =>
      ip ← get_inode i;
      if negb (i_addrs ip !!! Z.to_nat k =? 0) then
        bfree (i_dev ip) (i_addrs ip !!! Z.to_nat k) ;;
        upd_inode (set_i_addr k 0) i
      else mret ()) w = Ok ((), w') /\ fstep w w' /\ tx w' V' d st cap Bs' [] k' [] /\
    inodes (compc w') = <[i := clear_addrs NDIRECT]> L /\ cleared NDIRECT V' /\ bm_logged Bs0 k0 Bs' k'.
Proof.
  intros Hk0 Hc Hi. assert (HD : NDIRECT = 12) by done. assert (HM : MAXFILE = 268) by done.
  induction n as [|n IH]; intros s w V Bs k Hs Hn T Hsb Hino Hcl Hbm.
  - replace s with NDIRECT in * by lia. exists w, V, Bs, k. by split_and!.
  - rewrite seqZ_cons by lia. cbn [for_each].
    replace (Z.pred (Z.of_nat (S n))) with (Z.of_nat n) by lia. replace (Z.succ s) with (s + 1) by lia.
    assert (Hat : inodes (compc w) !!! i = clear_addrs s) by (rewrite Hino; by apply list_lookup_total_insert_eq).
    assert (Hdev : i_dev (clear_addrs s) = ROOTDEV) by apply (fw_dev _ _ _ _ (fv_wf _ _ _ _ Hv)).
    rewrite bind_assoc. kdo (get_inode_run i w). rewrite Hat, Hdev, clear_addrs_at, <- slot_direct by lia.
    destruct (Z.eqb_spec (slot V0 ip s) 0) as [Hz|Hz]; cbn [negb].
    + rewrite bind_mret. apply (IH (s + 1) w V Bs k); try done; try lia; [|by apply cleared_skip].
      rewrite Hino. f_equal. apply clear_addrs_skip; [lia|]. by rewrite <- slot_direct by lia.
    + destruct (free_slot w V Bs0 k0 Bs k [] s T Hsb Hcl) as (w1 & V1 & Bs1 & k1 & E1 & S1 & T1 & C1 & M1);
        [unfold is_slot; lia|done|set_solver|done..|].
      rewrite bind_assoc. kdo E1. kdo (upd_inode_run (set_i_addr s 0) i w1).
      rewrite (lstep_ic _ _ S1), list_alter_total by (rewrite Hino, length_insert; done). rewrite Hat, clear_addrs_next by lia.
      rewrite Hino, list_insert_insert_eq. set (c1 := Icache _).
      destruct (IH (s + 1) (updc c1 w1) V1 Bs1 k1) as (w' & V' & Bs' & k' & E & S' & R); try done; try lia.
      * eapply tx_apart; [apply apart_ic|done].
      * by rewrite (compc_updc_ne1 (T1 := superblock)), (lstep_sb _ _ S1).
      * exists w', V', Bs', k'. split; [exact E|]. split; [|done]. etrans; [by apply lstep_fstep|].
        etrans; [apply (fstep_ic c1)|done].
Qed.

(** *** The indirect block *)

Lemma slot_entry j : i_addrs ip !!! Z.to_nat NDIRECT <> 0 -> 0 <= j < NINDIRECT ->
  slot V0 ip (NDIRECT + j) = uint_at (V0 (slot V0 ip MAXFILE)) j.
Proof.
  intros Ha Hj. rewrite slot_ind, slot_block by (change MAXFILE with 268; change NDIRECT with 12; change NINDIRECT with 256 in Hj; lia).
  unfold fblock. rewrite (proj2 (Z.ltb_ge _ _)), (proj2 (Z.eqb_neq _ _)) by (done || lia). f_equal. lia.
Qed.

Lemma entries_loop Bs0 k0 b n (a := slot V0 ip MAXFILE) : (0 < k0)%nat \/ bmb ∈ Bs0 -> Z.of_nat (length Bs0) + 1 < cap -> a <> 0 ->
  forall j w V Bs k, 0 <= j -> j + Z.of_nat n = NINDIRECT -> tx w V d st cap Bs [] k [(b, a)] -> compc w = sb ->
  cleared (NDIRECT + j) V -> bm_logged Bs0 k0 Bs k ->
  exists w' V' Bs' k', for_each (seqZ j (Z.of_nat n)) (fun j =>
       x ← get_buf b;
       if negb (uint_at (b_data x) j =? 0) then bfree ROOTDEV (uint_at (b_data x) j) else mret ()) w = Ok ((), w') /\
    lstep w w' /\ tx w' V' d st cap Bs' [] k' [(b, a)] /\ cleared MAXFILE V' /\ bm_logged Bs0 k0 Bs' k'.
Proof.
  intros Hk0 Hc Ha. assert (HD : NDIRECT = 12) by done. assert (HM : MAXFILE = 268) by done. assert (HN : NINDIRECT = 256) by done.
  assert (Hh : home sb st a). { destruct (fw_taken _ _ _ _ (fv_wf _ _ _ _ Hv) MAXFILE max_slot) as [|[? _]]; done. }
  pose proof (bmb_home sb st Hd a Hh) as Hab.
  induction n as [|n IH]; intros j w V Bs k Hj Hn T Hsb Hcl Hbm.
  - replace (NDIRECT + j) with MAXFILE in Hcl by lia. exists w, V, Bs, k. by split_and!.
  - rewrite seqZ_cons by lia. cbn [for_each].
    replace (Z.pred (Z.of_nat (S n))) with (Z.of_nat n) by lia. replace (Z.succ j) with (j + 1) by lia.
    rewrite bind_assoc. kdo (get_buf_run b w). rewrite (tx_get _ _ _ _ _ _ _ _ _ b _ T) by by left.
    rewrite (cl_other _ _ _ _ _ Hcl) by done. unfold a at 1 2. rewrite <- slot_entry by (rewrite <- ?(slot_ind V0); done || lia).
    destruct (Z.eqb_spec (slot V0 ip (NDIRECT + j)) 0) as [Hz|Hz]; cbn [negb].
    + rewrite bind_mret. apply (IH (j + 1) w V Bs k); try done; try lia.
      replace (NDIRECT + (j + 1)) with (NDIRECT + j + 1) by lia. apply cleared_skip; [lia|done|done].
    + destruct (free_slot w V Bs0 k0 Bs k [(b, a)] (NDIRECT + j) T Hsb Hcl) as (w1 & V1 & Bs1 & k1 & E1 & S1 & T1 & C1 & M1);
        [unfold is_slot; lia|done| |done..|]; [cbn; set_solver|].
      kdo E1. destruct (IH (j + 1) w1 V1 Bs1 k1) as (w' & V' & Bs' & k' & E & S' & R); try done; try lia.
      * by rewrite (lstep_sb _ _ S1).
      * by replace (NDIRECT + (j + 1)) with (NDIRECT + j + 1) by lia.
      * exists w', V', Bs', k'. split; [exact E|]. split; [by etrans|done].
Qed.

Lemma cleared_none V : slot V0 ip MAXFILE = 0 -> cleared NDIRECT V -> cleared (MAXFILE + 1) V.
Proof.
  intros Hz [C1 C2 C3]. split; [done| |done]. intros m Hm. rewrite C2 by done.
  assert (E : owns_below V0 ip (MAXFILE + 1) m <-> owns_below V0 ip NDIRECT m); [|by rewrite E].
  assert (HD : NDIRECT = 12) by done. assert (HM : MAXFILE = 268) by done.
  split; intros (H0 & s' & H1 & H2); (split; [done|]); exists s'; (split; [|done]); [|lia].
  destruct (decide (s' = MAXFILE)) as [->|]; [congruence|]. destruct (Z_lt_ge_dec s' NDIRECT); [lia|]. exfalso. apply H0.
  rewrite <- H2, slot_block by lia. unfold fblock. rewrite slot_ind in Hz. by rewrite (proj2 (Z.ltb_ge _ _)), Hz by lia.
Qed.

Lemma indirect_part Bs0 k0 L i w V Bs k : (2 <= k0)%nat -> Z.of_nat (length Bs0) + 2 < cap -> (i < length L)%nat ->
  tx w V d st cap Bs [] k [] -> compc w = sb -> inodes (compc w) = <[i := clear_addrs NDIRECT]> L ->
  cleared NDIRECT V -> bm_logged Bs0 k0 Bs k ->
  exists w' V' Bs' k', (ip ← get_inode i;
      if negb (i_addrs ip !!! Z.to_nat NDIRECT =? 0) then
        bp ← bread (i_dev ip) (i_addrs ip !!! Z.to_nat NDIRECT);
        for_each (seqZ 0 NINDIRECT) (fun j =>
          x ← get_buf bp;
          if negb (uint_at (b_data x) j =? 0) then bfree (i_dev ip) (uint_at (b_data x) j) else mret ()) ;;
        brelse bp ;;
        ip ← get_inode i;
        bfree (i_dev ip) (i_addrs ip !!! Z.to_nat NDIRECT) ;;
        upd_inode (set_i_addr NDIRECT 0) i
      else mret ()) w = Ok ((), w') /\ fstep w w' /\ tx w' V' d st cap Bs' [] k' [] /\
    inodes (compc w') = <[i := clear_addrs 13]> L /\ cleared (MAXFILE + 1) V' /\ bm_logged Bs0 k0 Bs' k'.
Proof.
  intros Hk0 Hc Hi T Hsb Hino Hcl Hbm. assert (HD : NDIRECT = 12) by done. destruct (bm_logged_k _ _ _ _ _ Hbm) as [Hlen Hkk].
  assert (Hat : inodes (compc w) !!! i = clear_addrs NDIRECT) by (rewrite Hino; by apply list_lookup_total_insert_eq).
  assert (Hdev : i_dev (clear_addrs NDIRECT) = ROOTDEV) by apply (fw_dev _ _ _ _ (fv_wf _ _ _ _ Hv)).
  kdo (get_inode_run i w). rewrite Hat, Hdev, clear_addrs_at, <- (slot_ind V0) by lia.
  destruct (Z.eqb_spec (slot V0 ip MAXFILE) 0) as [Hz|Hz]; cbn [negb].
  { exists w, V, Bs, k. split_and!; try done; [|by apply cleared_none]. rewrite Hino. f_equal. apply clear_addrs_skip; [lia|].
    by rewrite <- (slot_ind V0). }
  destruct (fw_taken _ _ _ _ (fv_wf _ _ _ _ Hv) MAXFILE max_slot) as [|[Hh _]]; [done|].
  pose proof (bmb_home sb st Hd _ Hh) as Hab. pose proof (hm_range _ _ _ Hh) as Hr. pose proof (bm_size _ _ (do_bm _ _ Hd)) as Hsz.
  set (a := slot V0 ip MAXFILE) in *. set (x := if decide (a ∈ Bs) then 0%nat else 1%nat).
  destruct (tx_bread Hwk _ _ _ _ _ _ _ _ _ a T ltac:(lia) (not_elem_of_nil _) ltac:(left; lia)) as (b & w1 & E1 & S1 & T1).
  assert (Hbm1 : bm_logged Bs0 k0 Bs (k - x + x)) by (replace (k - x + x)%nat with k; [done|subst x; case_decide; lia]).
  kdo E1. destruct (entries_loop Bs (k - x) b (Z.to_nat NINDIRECT)) with (j := 0) (w := w1) (V := V) (Bs := Bs) (k := (k - x)%nat)
    as (w2 & V2 & Bs2 & k2 & E2 & S2 & T2 & C2 & M2); try done; try lia.
  { destruct Hbm as [[-> ->]|[-> _]]; [left; subst x; case_decide; lia|right]. apply elem_of_logged. by right. }
  { by rewrite (lstep_sb _ _ S1). }
  { left. by split. }
  change (Z.of_nat (Z.to_nat NINDIRECT)) with NINDIRECT in E2. kdo E2. assert (Hx : (if decide (a ∈ Bs2) then 0%nat else 1%nat) = x).
  { subst x. by rewrite (decide_ext (a ∈ Bs2) (a ∈ Bs)) by by eapply bm_logged_in. }
  destruct (tx_brelse _ _ _ _ _ _ _ _ _ b a T2 (not_elem_of_nil _) ltac:(right; apply not_elem_of_nil)) as (w3 & E3 & S3 & T3).
  rewrite Hx in T3. pose proof (bm_logged_trans _ _ _ _ _ _ _ _ Hbm1 M2) as M3.
  assert (S13 : lstep w w3) by (etrans; [exact S1|by etrans]).
  kdo E3. kdo (get_inode_run i w3). rewrite (lstep_ic _ _ S13), Hat, Hdev, clear_addrs_at, <- (slot_ind V0) by lia.
  destruct (free_slot w3 V2 Bs0 k0 Bs2 (k2 + x) [] MAXFILE T3 ltac:(by rewrite (lstep_sb _ _ S13)) C2 max_slot Hz
    (not_elem_of_nil _) M3 ltac:(left; lia) ltac:(lia)) as (w4 & V4 & Bs4 & k4 & E4 & S4 & T4 & C4 & M4).
  kdo E4. rewrite upd_inode_run, (lstep_ic _ _ S4), (lstep_ic _ _ S13), list_alter_total by (rewrite Hino, length_insert; done).
  rewrite Hat, clear_addrs_next, Hino, list_insert_insert_eq by lia. do 4 eexists. split; [done|].
  split; [etrans; [apply lstep_fstep; by etrans|apply fstep_ic]|]. split; [eapply tx_apart; [apply apart_ic|exact T4]|].
  split; [by rewrite compc_updc|]. done.
Qed.
End Trunc.

(** ** What is left of the file *)

Section Released.
Context (sb : superblock) (st : Z) (V0 : Z -> blk) (ip : inode) (Hd : disk_ok sb st) (Hv : file_inv V0 sb st ip).
Context (Hnum : 0 <= i_inum ip < sb_ninodes sb).

(** In [V] the blocks of the file are free; the other blocks and inodes of [V0] are as
    they were. *)
Record released (V : Z -> blk) : Prop := {
  rl_lens : block_lens V;
  rl_used : forall m, 0 <= m < sb_size sb -> (used V sb m = true <-> used V0 sb m = true /\ ~ owns V0 ip m);
  rl_home : forall m, home sb st m -> V m = V0 m;
  rl_dinode : forall j, 0 <= j < sb_ninodes sb -> j <> i_inum ip -> dinode_at V sb j = dinode_at V0 sb j;
}.

Lemma cleared_released V : cleared sb V0 ip (MAXFILE + 1) V -> released V.
Proof.
  intros [C1 C2 C3]. split; [done|done| |].
  - intros m Hm. apply C3. by apply (bmb_home sb st).
  - intros j Hj _. unfold dinode_at. rewrite C3; [done|]. pose proof (bm_size _ _ (do_bm _ _ Hd)).
    rewrite <- (BBLOCK_one sb st Hd 0) by lia. apply not_eq_sym, (do_sep _ _ Hd); [lia|done].
Qed.

(** Storing the inode. *)
Definition stored (x : dinode) (V : Z -> blk) : Z -> blk :=
  fupd V (IBLOCK (i_inum ip) sb) (put_dinode (i_inum ip mod IPB) x (V (IBLOCK (i_inum ip) sb))).
Lemma released_put V x : released V -> dinode_ok x ->
  released (stored x V) /\ dinode_at (stored x V) sb (i_inum ip) = x.
Proof.
  intros [R1 R2 R3 R4] Hx.
  split; [split|].
  - apply block_lens_fupd; [done|]. apply length_put_dinode; [apply Hx|by apply Z.mod_pos_bound|done].
  - intros m Hm. rewrite <- R2 by done. unfold stored. rewrite used_fupd_other; [done|]. by apply (do_sep _ _ Hd).
  - intros m Hm. unfold stored. rewrite fupd_ne; [by apply R3|]. by apply not_eq_sym, (hm_ino _ _ _ Hm).
  - intros j Hj Hne. unfold stored. rewrite dinode_at_put by (done || lia). rewrite decide_False by done. by apply R4.
  - unfold stored. rewrite dinode_at_put by (done || lia). by rewrite decide_True.
Qed.

Lemma released_inv V : released V -> file_inv V sb st (emptied ip).
Proof.
  intros [R1 R2 R3 R4]. split; [split|..].
  - apply (fw_dev _ _ _ _ (fv_wf _ _ _ _ Hv)).
  - reflexivity.
  - intros s Hs. left. by apply slot_emptied.
  - intros s s' Hs _ _ Hz. by rewrite slot_emptied in Hz.
  - intros m Hm Hu. destruct (used V0 sb m) eqn:E; [|by apply (fv_meta _ _ _ _ Hv)].
    destruct (decide (owns_below V0 ip (MAXFILE + 1) m)) as [Ho|Hno].
    + by apply (owns_taken V0 sb st ip (MAXFILE + 1)); [apply Hv|lia|].
    + by rewrite (proj2 (R2 m Hm) (conj E Hno)) in Hu.
  - done.
Qed.

(** The other files. *)
Definition apart_from (x : inode) : Prop := forall m, owns V0 ip m -> ~ owns V0 x m.
Lemma released_other V x : released V -> file_wf V0 sb st x -> apart_from x ->
  file_wf V sb st x /\ forall bn, 0 <= bn < MAXFILE -> content V x bn = content V0 x bn.
Proof.
  intros [R1 R2 R3 R4] W Ha. apply file_ext; [done|]. intros m Ho.
  destruct (owns_taken V0 sb st x (MAXFILE + 1) m W ltac:(lia) Ho) as [Hh Hu]. split; [by apply R3|].
  pose proof (hm_range _ _ _ Hh). apply R2; [lia|]. split; [done|]. intros Ho'. by apply (Ha m).
Qed.
End Released.

Lemma emptied_ok ip : dinode_ok (dinode_of ip) -> dinode_ok (dinode_of (emptied ip)).
Proof.
  intros [D1 D2 D3 D4 D5 D6 D7]. split; try done. cbn [dinode_of emptied set_i_size with_addrs i_addrs d_addrs repeat].
  repeat (apply Forall_cons; split; [lia|]). apply Forall_nil_2.
Qed.
Lemma typed_ok t ip : - 2 ^ 15 <= t < 2 ^ 15 -> dinode_ok (dinode_of ip) -> dinode_ok (dinode_of (set_i_type t ip)).
Proof. intros Ht [D1 D2 D3 D4 D5 D6 D7]. by split. Qed.

(** The control fields of the log, the superblock and the file table are as before. *)
Record fs_keeps (w w' : world kstate) : Prop := {
  fk_log : compc w' = with_header (log_lh (compc w')) (compc w);
  fk_sb : compc (T := superblock) w' = compc w;
  fk_ft : compc (T := ftable) w' = compc w;
}.
#[export] Instance fs_keeps_preorder : PreOrder fs_keeps.
Proof.
  split; [intros w; split; [by rewrite with_header_id|done..]|].
  intros w1 w2 w3 [A1 A2 A3] [B1 B2 B3]. split; [|congruence..]. rewrite B1 at 1. rewrite A1. done.
Qed.
Lemma fs_keeps_lstep w w' : lstep w w' -> fs_keeps w w'.
Proof.
  intros S. split; [by apply lstep_header|by apply lstep_sb|].
  destruct S as [[_ (E & _)] _]. unfold compc; cbn in *. by rewrite E.
Qed.
Lemma fs_keeps_ic (c : icache) w : fs_keeps w (updc c w).
Proof. split; [by rewrite (compc_updc_ne1 (T1 := log)), with_header_id|done..]. Qed.
Lemma fs_keeps_fstep w w' : fstep w w' -> fs_keeps w w'.
Proof. intros S. etrans; [apply fs_keeps_ic|apply fs_keeps_lstep, S]. Qed.
Lemma fs_keeps_same w w' : compc (T := log) w' = compc w -> compc (T := superblock) w' = compc w ->
  compc (T := ftable) w' = compc w -> fs_keeps w w'.
Proof. intros E1 E2 E3. split; [by rewrite E1, with_header_id|done..]. Qed.

Section Itrunc.
Context {SC : Sched} {VD : VirtioDisk} (Hwk : (0 < wakeups)%nat).
Implicit Types (w : world kstate).

Lemma itrunc_ok w V d st cap Bs k sb i ip : tx w V d st cap Bs [] k [] -> compc w = sb -> disk_ok sb st ->
  inodes (compc w) !!! i = ip -> (i < length (inodes (compc w)))%nat -> file_inv V sb st ip ->
  0 <= i_inum ip < sb_ninodes sb -> dinode_ok (dinode_of ip) -> (3 <= k)%nat -> Z.of_nat (length Bs) + 2 < cap ->
  exists w' V' Bs' k', itrunc i w = Ok ((), w') /\ fstep w w' /\ tx w' V' d st cap Bs' [] k' [] /\
    inodes (compc w') = <[i := emptied ip]> (inodes (compc w)) /\
    released sb st V ip V' /\ dinode_at V' sb (i_inum ip) = dinode_of (emptied ip) /\
    (length Bs' <= length Bs + 2)%nat /\ (k <= k' + 2)%nat.
Proof.
  intros T Hsb Hd Hip Hi Hv Hn Hok Hk Hc. assert (HD : NDIRECT = 12) by done. unfold itrunc. set (L := inodes (compc w)) in *.
  assert (Hid : L = <[i := clear_addrs ip 0]> L).
  { replace (clear_addrs ip 0) with ip by (by destruct ip). rewrite list_insert_id; [done|]. rewrite <- Hip. by apply list_lookup_lookup_total_lt. }
  destruct (direct_loop Hwk sb st V ip Hd Hv d cap Bs k L i 12 ltac:(left; lia) ltac:(lia) Hi 0 w V Bs k)
    as (w1 & V1 & Bs1 & k1 & E1 & S1 & T1 & I1 & C1 & M1); try done; try lia; [by apply cleared_0 with st|by left|].
  kdo E1. destruct (indirect_part Hwk sb st V ip Hd Hv d cap Bs k L i w1 V1 Bs1 k1)
    as (w2 & V2 & Bs2 & k2 & E2 & S2 & T2 & I2 & C2 & M2); try done; try lia; [by rewrite (fstep_sb _ _ S1)|].
  rewrite <- bind_assoc. kdo E2. kdo (upd_inode_run (set_i_size 0) i w2).
  rewrite list_alter_total by (rewrite I2, length_insert; done). rewrite I2, list_lookup_total_insert_eq, list_insert_insert_eq by done.
  assert (Hem : set_i_size 0 (clear_addrs ip 13) = emptied ip).
  { unfold clear_addrs, emptied. f_equal. f_equal. rewrite drop_ge; [apply app_nil_r|].
    rewrite (fw_len _ _ _ _ (fv_wf _ _ _ _ Hv)). done. }
  rewrite Hem. set (c := Icache _). destruct (bm_logged_k _ _ _ _ _ M2) as [Hlen Hkk].
  destruct (iupdate_ok Hwk (updc c w2) V2 d st cap Bs2 k2 sb i (emptied ip)) as (w3 & k3 & E3 & S3 & T3 & K3); try done; try lia.
  - eapply tx_apart; [apply apart_ic|done].
  - rewrite (compc_updc_ne1 (T1 := superblock)), (fstep_sb _ _ S2), (fstep_sb _ _ S1). done.
  - apply Hd.
  - apply C2.
  - by apply list_lookup_total_insert_eq.
  - apply (fw_dev _ _ _ _ (fv_wf _ _ _ _ Hv)).
  - destruct (released_put sb st V ip Hd Hn V2 (dinode_of (emptied ip))) as [R1 R2]; [by apply cleared_released|by apply emptied_ok|].
    exists w3, (stored sb ip (dinode_of (emptied ip)) V2). do 2 eexists. split; [exact E3|].
    split; [etrans; [exact S1|]; etrans; [exact S2|]; etrans; [apply (fstep_ic c)|by apply lstep_fstep]|].
    split; [exact T3|]. split; [by rewrite (lstep_ic _ _ S3), compc_updc|]. split; [done|]. split; [done|].
    change (i_inum (emptied ip)) with (i_inum ip) in *.
    assert (length (logged (IBLOCK (i_inum ip) sb) Bs2) <= length Bs2 + 1)%nat; [rewrite length_logged; case_decide; lia|].
    assert (Hx : (k2 + length Bs2 = k + length Bs)%nat) by (destruct M2 as [[-> ->]|[_ ?]]; lia). lia.
Qed.

(** The sleep lock is taken while the spin lock of the table is held. *)
Lemma iput_lock w i : quiet w -> unlocked_inode w i -> lock_free L_icache w ->
  exists w1 w2, acquiresleep (L_inode i) (acq L_icache w) = Ok ((), w1) /\ release L_icache w1 = Ok ((), w2) /\
    apart w w2 /\ compc (T := icache) w2 = compc w /\ fs_keeps w w2.
Proof.
  intros Hq [U1 U2] Hl. set (w1 := updc (<[L_inode i := Sleeplock 1 (sl_name (compc (T := sltab) w !!! L_inode i)) (cur_pid w)]> (compc (T := sltab) w)) w).
  exists (acq L_icache w1), (touch w1). assert (Hc : cpu_ok w1) by apply cpu_ok_updc, Hq. split_and!; try done.
  - rewrite acquiresleep_run; try done; [|by apply quiet_acq|by apply lock_free_acq].
    rewrite cur_pid_acq. knorm. fold w1. by rewrite touch_acq.
  - by apply release_acq, lock_free_updc.
  - etrans; [apply apart_sl|apply apart_touch].
  - by apply fs_keeps_same.
Qed.
Lemma releasesleep_ok w i : quiet w -> lock_free (L_inode i) w -> lock_free L_icache w ->
  exists w', releasesleep (L_inode i) w = Ok ((), w') /\ apart w w' /\ unlocked_inode w' i /\ lock_free L_icache w' /\
    compc (T := icache) w' = compc w /\ fs_keeps w w'.
Proof.
  intros Hq Hf Hl. eexists. split; [apply releasesleep_run; done|]. set (w1 := updc (<[L_inode i := _]> _) w).
  assert (A : apart w (touch (updc (tab_map (woken (sl_chan (L_inode i))) (compc w)) w1))).
  { etrans; [apply apart_sl|]. etrans; [apply apart_woken|apply apart_touch]. }
  split; [exact A|]. split; [|split; [eapply kframe_lock_free; [apply A|done]|split; [done|by apply fs_keeps_same]]].
  split; [eapply kframe_lock_free; [apply A|done]|]. rewrite compc_touch, compc_updc_ne1. unfold w1. rewrite compc_updc.
  by rewrite lookup_total_insert_eq.
Qed.
(** The branch of iput that frees the file. *)
Lemma iput_free_run w V d st cap Bs k sb i ip (y := set_i_valid 0 (set_i_type 0 (emptied ip))) :
  tx w V d st cap Bs [] k [] -> compc w = sb -> disk_ok sb st ->
  inodes (compc w) !!! i = ip -> (i < length (inodes (compc w)))%nat -> file_inv V sb st ip ->
  0 <= i_inum ip < sb_ninodes sb -> dinode_ok (dinode_of ip) -> lock_free L_icache w -> unlocked_inode w i ->
  (3 <= k)%nat -> Z.of_nat (length Bs) + 2 < cap ->
  exists w' V' Bs' k', (acquiresleep (L_inode i) ;; release L_icache ;;
      itrunc i ;; upd_inode (set_i_type 0) i ;; iupdate i ;; upd_inode (set_i_valid 0) i ;;
      releasesleep (L_inode i) ;; acquire L_icache) (acq L_icache w) = Ok ((), acq L_icache w') /\
    tx w' V' d st cap Bs' [] k' [] /\ released sb st V ip V' /\ dinode_at V' sb (i_inum ip) = dinode_of y /\
    inodes (compc w') = <[i := y]> (inodes (compc w)) /\ unlocked_inode w' i /\ lock_free L_icache w' /\
    fs_keeps w w' /\ kframe w w' /\ (k <= k' + 3)%nat.
Proof.
  intros T Hsb Hd Hip Hi Hv Hn Hok Hl Hu Hk Hc. set (L := inodes (compc w)) in *.
  pose proof (cs_quiet _ _ _ _ _ _ _ (tx_cs _ _ _ _ _ _ _ _ _ T)) as Hq.
  assert (HL : forall w' x f, inodes (compc w') = <[i := x]> L -> upd_inode f i w' = Ok ((), updc (Icache (<[i := f x]> L)) w')).
  { intros w' x f E. rewrite upd_inode_run, list_alter_total by (rewrite E, length_insert; done).
    by rewrite E, list_lookup_total_insert_eq, list_insert_insert_eq. }
  destruct (iput_lock w i Hq Hu Hl) as (w1' & w1 & E0 & E1 & A1 & I1 & B1). kdo E0. kdo E1.
  pose proof (tx_apart _ _ _ _ _ _ _ _ _ _ A1 T) as T1.
  destruct (itrunc_ok w1 V d st cap Bs k sb i ip T1) as (w2 & V2 & Bs2 & k2 & E2 & S2 & T2 & I2 & R2 & _ & N2 & K2);
    rewrite ?I1; try done; [by rewrite (fk_sb _ _ B1)|]. rewrite I1 in I2. fold L in I2.
  kdo E2. kdo (HL w2 _ (set_i_type 0) I2). set (ip3 := set_i_type 0 (emptied ip)) in *. set (w3 := updc _ w2).
  assert (T3 : tx w3 V2 d st cap Bs2 [] k2 []) by (eapply tx_apart; [apply apart_ic|done]).
  destruct (iupdate_ok Hwk w3 V2 d st cap Bs2 k2 sb i ip3 T3) as (w4 & k4 & E4 & S4 & T4 & K4); try done; try lia;
    [by unfold w3; rewrite (compc_updc_ne1 (T1 := superblock)), (fstep_sb _ _ S2), (fk_sb _ _ B1)|apply Hd|apply R2|
     by apply list_lookup_total_insert_eq|apply (fw_dev _ _ _ _ (fv_wf _ _ _ _ Hv))|].
  change (i_inum ip3) with (i_inum ip) in T4. fold (stored sb ip (dinode_of ip3) V2) in T4.
  kdo E4. kdo (HL w4 ip3 (set_i_valid 0) ltac:(by rewrite (lstep_ic _ _ S4))). fold y. set (w5 := updc _ w4).
  assert (F5 : kframe w w5) by (etrans; [apply A1|]; etrans; [by apply fstep_kframe|]; etrans; [|etrans; [apply S4|]]; done).
  assert (T5 := tx_apart _ _ _ _ _ _ _ _ _ _ (apart_ic _ w4) T4 : tx w5 _ _ _ _ _ _ _ _).
  destruct (releasesleep_ok w5 i) as (w6 & E6 & A6 & U6 & L6 & I6 & B6);
    [apply (cs_quiet _ _ _ _ _ _ _ (tx_cs _ _ _ _ _ _ _ _ _ T5))|eapply kframe_lock_free; [done|apply Hu]|by eapply kframe_lock_free|].
  kdo E6. destruct (released_put sb st V ip Hd Hn V2 (dinode_of ip3) R2) as [P1 P2]; [by apply typed_ok, emptied_ok|].
  assert (B5 : fs_keeps w w6).
  { etrans; [exact B1|]. etrans; [by apply fs_keeps_fstep|]. etrans; [exact (fs_keeps_ic _ w2 : fs_keeps w2 w3)|]. etrans; [by apply fs_keeps_lstep|].
    etrans; [exact (fs_keeps_ic _ w4 : fs_keeps w4 w5)|done]. }
  exists w6. do 3 eexists. split; [by apply acquire_ok|]. split; [by eapply tx_apart|]. rewrite I6. split_and!; try done.
  - etrans; [exact F5|apply A6].
  - change (i_inum ip3) with (i_inum ip) in K4. rewrite length_logged in K4. case_decide; lia.
Qed.

Lemma iput_free_ok w V d st cap Bs k sb i ip : tx w V d st cap Bs [] k [] -> compc w = sb -> disk_ok sb st ->
  inodes (compc w) !!! i = ip -> (i < length (inodes (compc w)))%nat -> file_inv V sb st ip ->
  0 <= i_inum ip < sb_ninodes sb -> dinode_ok (dinode_of ip) -> lock_free L_icache w -> unlocked_inode w i ->
  i_ref ip = 1 /\ i_valid ip <> 0 /\ i_nlink ip = 0 -> (3 <= k)%nat -> Z.of_nat (length Bs) + 2 < cap ->
  exists w' V' Bs' k' y, iput i w = Ok ((), w') /\ tx w' V' d st cap Bs' [] k' [] /\ released sb st V ip V' /\
    d_type (dinode_at V' sb (i_inum ip)) = 0 /\
    inodes (compc w') = <[i := y]> (inodes (compc w)) /\ i_ref y = 0 /\ i_valid y = 0 /\ unlocked_inode w' i /\
    fs_keeps w w' /\ kframe w w' /\ (k <= k' + 3)%nat.
Proof.
  intros T Hsb Hd Hip Hi Hv Hn Hok Hl Hu (H1 & H2 & H3) Hk Hc.
  unfold iput. kdo (acquire_ok _ _ Hl). kdo (get_inode_run i (acq L_icache w)). rewrite compc_acq.
  rewrite Hip, H1, H3, (proj2 (Z.eqb_neq _ _) H2). cbn [Z.eqb Pos.eqb negb andb].
  destruct (iput_free_run w V d st cap Bs k sb i ip) as (w1 & V1 & Bs1 & k1 & E1 & T1 & R1 & D1 & I1 & U1 & L1 & B1 & F1 & K1); try done.
  kdo E1. kdo (upd_inode_run (fun ip => set_i_ref (i_ref ip - 1) ip) i (acq L_icache w1)).
  rewrite compc_acq, updc_acq, list_alter_total by (rewrite I1, length_insert; done).
  rewrite I1, list_lookup_total_insert_eq, list_insert_insert_eq by done. set (c := Icache _).
  pose proof (cs_quiet _ _ _ _ _ _ _ (tx_cs _ _ _ _ _ _ _ _ _ T1)) as Hq.
  assert (A : apart w1 (touch (updc c w1))) by (etrans; [apply apart_ic|apply apart_touch]).
  exists (touch (updc c w1)), V1, Bs1, k1. eexists. split; [by apply release_acq; [apply cpu_ok_updc, Hq|apply lock_free_updc]|].
  split; [by eapply tx_apart|]. split; [done|]. split; [by rewrite D1|]. split; [by rewrite compc_touch, compc_updc|].
  split; [change (i_ref ip - 1 = 0); lia|]. split; [done|].
  split; [destruct U1 as [U1 U2]; split; [by apply lock_free_touch, lock_free_updc|done]|].
  split; [etrans; [exact B1|by apply fs_keeps_same]|]. split; [etrans; [exact F1|apply A]|done].
Qed.
End Itrunc.

Section Props.
Context {SC : Sched} {VD : VirtioDisk}.

(** When iput drops the last reference to a file that has no links left, the file
    is freed, within one transaction: exactly the blocks it owned (direct blocks,
    the blocks of the indirect block and that block itself) become free in the bitmap,
    its inode on disk gets type 0, so that ialloc can take it again, and its entry in
    the table of inodes becomes unused.  No other inode changes, and every other file
    keeps its blocks and its contents. *)
Theorem iput_frees w V d st cap Bs k (sb : superblock) i ip
  (Hwk : (0 < wakeups)%nat) (T : tx w V d st cap Bs [] k []) (Hsb : compc w = sb) (Hd : disk_ok sb st)
  (Hip : inodes (compc w) !!! i = ip) (Hi : (i < length (inodes (compc w)))%nat) (Hv : file_inv V sb st ip)
  (Hnum : 0 <= i_inum ip < sb_ninodes sb) (Hok : dinode_ok (dinode_of ip))
  (Hl : lock_free L_icache w) (Hu : unlocked_inode w i)
  (Hlast : i_ref ip = 1 /\ i_valid ip <> 0 /\ i_nlink ip = 0)
  (Hk : (3 <= k)%nat) (Hc : Z.of_nat (length Bs) + 2 < cap) :
  exists w' V' Bs' k' y, iput i w = Ok ((), w') /\ tx w' V' d st cap Bs' [] k' [] /\
    (forall m, 0 <= m < sb_size sb -> (used V' sb m = true <-> used V sb m = true /\ ~ owns V ip m)) /\
    meta_used V' sb st /\ block_lens V' /\
    d_type (dinode_at V' sb (i_inum ip)) = 0 /\
    (forall j, 0 <= j < sb_ninodes sb -> j <> i_inum ip -> dinode_at V' sb j = dinode_at V sb j) /\
    (forall x, file_wf V sb st x -> apart_from V ip x ->
       file_wf V' sb st x /\ forall bn, 0 <= bn < MAXFILE -> content V' x bn = content V x bn) /\
    inodes (compc w') = <[i := y]> (inodes (compc w)) /\ i_ref y = 0 /\ i_valid y = 0 /\ unlocked_inode w' i.
Proof.
  destruct (iput_free_ok Hwk w V d st cap Bs k sb i ip) as (w' & V' & Bs' & k' & y & E & T' & R & D & I' & Y1 & Y2 & U & _); try done.
  exists w', V', Bs', k', y. split_and!; try done; try apply R.
  - by apply (fv_meta _ _ _ _ (released_inv sb st V ip Hv V' R)).
  - intros x Hx Ha. by eapply released_other.
Qed.
End Props.

(** ** An unlinked file with a direct block and an indirect one *)

Definition ex_tbitmap : blk := repeat 255 5 ++ [63; 0; 112] ++ repeat 0 1016.
Definition ex_tdisk : disk := Disk {[45 := ex_tbitmap; 61 := bytes_of 4 62 ++ repeat 0 1020]} [].
Definition ex_gone : inode := Inode ROOTDEV 5 1 1 T_FILE 0 0 0 13000 (60 :: repeat 0 11 ++ [61]).

Lemma ex_gone_slots s : is_slot s -> slot (disk_block ex_tdisk) ex_gone s =
  if s =? 0 then 60 else if s =? 12 then 62 else if s =? 268 then 61 else 0.
Proof.
  unfold is_slot. change MAXFILE with 268. intros Hs. apply Z.eqb_eq.
  revert s Hs. assert (H := seqZ_forallb (fun s => slot (disk_block ex_tdisk) ex_gone s =?
    if s =? 0 then 60 else if s =? 12 then 62 else if s =? 268 then 61 else 0) 269 ltac:(by vm_compute)).
  intros s Hs. apply H. lia.
Qed.
Lemma ex_gone_used n : n ∈ [60; 61; 62] -> taken (disk_block ex_tdisk) ex_sb 2 n.
Proof. intros Hn. split; [apply ex_home; set_solver by lia|]. repeat (apply elem_of_cons in Hn as [->|Hn]; [by vm_compute|]). by apply not_elem_of_nil in Hn. Qed.
Lemma ex_gone_inv : file_inv (disk_block ex_tdisk) ex_sb 2 ex_gone.
Proof.
  split; [split; [done|done|..]|..].
  - intros s Hs. rewrite ex_gone_slots by done. repeat case_match; [right; apply ex_gone_used; set_solver..|by left].
  - intros s s' Hs Hs'. rewrite !ex_gone_slots by done. repeat case_match; lia.
  - intros n Hn Hu. apply ex_home. change (sb_size ex_sb) with 1000 in Hn. destruct (Z_lt_ge_dec n 46); [|lia]. exfalso.
    assert (H := seqZ_forallb (used (disk_block ex_tdisk) ex_sb) 46 ltac:(by vm_compute) n ltac:(lia)). congruence.
  - intros n. unfold disk_block, ex_tdisk. cbn [d_blocks]. destruct (decide (n = 45)) as [->|]; [by vm_compute|].
    destruct (decide (n = 61)) as [->|]; [by vm_compute|]. rewrite lookup_insert_ne, lookup_singleton_ne by done. reflexivity.
Qed.
Lemma ex_gone_dinode : dinode_ok (dinode_of ex_gone).
Proof.
  split; cbn [dinode_of ex_gone d_type d_major d_minor d_nlink d_size d_addrs i_type i_major i_minor i_nlink i_size i_addrs];
    unfold T_FILE; try lia; [reflexivity|]. cbn [repeat app]. repeat (apply Forall_cons; split; [lia|]). apply Forall_nil_2.
Qed.

Lemma iput_frees_witness : exists w w' V', iput (SC := ex_sched) (VD := ex_disk) 0 w = Ok ((), w') /\
  used (disk_block ex_tdisk) ex_sb 62 = true /\ used V' ex_sb 62 = false /\ used V' ex_sb 45 = true /\
  d_type (dinode_at V' ex_sb 5) = 0.
Proof.
  destruct (ex_iworld ex_tdisk ex_gone) as (w & T & Hsb & Hic & Hu & Hl). exists w.
  destruct (iput_frees (SC := ex_sched) (VD := ex_disk) w _ _ _ _ _ _ ex_sb 0 ex_gone
    ltac:(cbn; lia) T Hsb ex_disk_ok ltac:(rewrite Hic; reflexivity) ltac:(rewrite Hic; cbn; lia) ex_gone_inv)
    as (w' & V' & Bs' & k' & y & E & _ & U & _ & _ & D & _).
  - cbn. lia.
  - exact ex_gone_dinode.
  - exact Hl.
  - exact Hu.
  - by split_and!.
  - unfold nbuf, NBUF, MAXOPBLOCKS. cbn. lia.
  - cbn. lia.
  - exists w', V'. split; [exact E|]. split; [by vm_compute|]. split; [|split; [|exact D]].
    + apply not_true_iff_false. rewrite U by (change (sb_size ex_sb) with 1000; lia). intros [_ Hn]. apply Hn.
      split; [done|]. exists 12. split; [by change MAXFILE with 268|]. by apply ex_gone_slots.
    + apply U; [by change (sb_size ex_sb) with 1000|]. split; [by vm_compute|]. intros Ho.
      apply (owns_taken _ ex_sb 2) in Ho; [|apply ex_gone_inv|lia]. destruct Ho as [[_ _ Hb _] _]. by apply (Hb 0).
Defined.
