(* ===== verification/FsDir.v ===== *)
(** * fs.c: adding a name to a directory

    dirlink takes the first unused entry of the directory, or a new one at its end,
    through writei; afterwards dirlookup finds the new name, and every other name as
    before. *)
From stdpp Require Import prelude gmap strings.
From Stdlib Require Import ZArith Lia.
From S2P Require Import Prelude Memory CString Spinlock Riscv Kalloc Vm Uaccess Proc Bytes State Sleeplock Copy Console Bio BioView BioClient Log Fs LogSpec LogOps FsTx FsAlloc FsInode Icache FsFile FsBmap FsWrite.
Open Scope Z_scope.

(** ** The list of entries *)

Fixpoint free_index (l : list dirent) : nat :=
  match l with
  | [] => 0
  | x :: l' => if de_inum x =? 0 then 0 else S (free_index l')
  end.
Fixpoint put_entry (de : dirent) (l : list dirent) : list dirent :=
  match l with
  | [] => [de]
  | x :: l' => if de_inum x =? 0 then de :: l' else x :: put_entry de l'
  end.

Lemma free_index_le l : (free_index l <= length l)%nat.
Proof. induction l as [|x l IH]; cbn; [lia|]. destruct (_ =? _); lia. Qed.
Lemma put_entry_lookup de l a : put_entry de l !! a = if decide (a = free_index l) then Some de else l !! a.
Proof.
  revert a. induction l as [|x l IH]; intros a; cbn [put_entry free_index].
  - by destruct a.
  - destruct (_ =? _); [by destruct a|]. destruct a as [|a]; [done|].
    change (put_entry de l !! a = if decide (S a = S (free_index l)) then Some de else l !! a). rewrite IH. repeat case_decide; congruence || lia.
Qed.
Lemma length_put_entry de l : length (put_entry de l) = Nat.max (length l) (S (free_index l)).
Proof. induction l as [|x l IH]; cbn; [done|]. destruct (_ =? _); cbn; [lia|]. by rewrite IH. Qed.

(** The new name is found; the others are found as before. *)
Lemma find_put name de l : names name de -> list_find (names name) l = None ->
  list_find (names name) (put_entry de l) = Some (free_index l, de).
Proof.
  intros Hn Hl. rewrite list_find_Some. rewrite list_find_None, Forall_lookup in Hl. split_and!; [|done|].
  - by rewrite put_entry_lookup, decide_True.
  - intros a y. rewrite put_entry_lookup. case_decide; [lia|]. eauto.
Qed.
Lemma find_put_other name de l : ~ names name de -> list_find (names name) (put_entry de l) = list_find (names name) l.
Proof.
  intros Hn. induction l as [|x l IH]; cbn [put_entry list_find]; [by rewrite decide_False|].
  destruct (Z.eqb_spec (de_inum x) 0) as [E|E]; cbn [list_find].
  - rewrite !decide_False; [done| |done]. intros [? _]. done.
  - by rewrite IH.
Qed.

(** The entries after the write. *)
Lemma link_entries sb st V ip V' ip' de (l := dir_entries V ip) :
  written sb st V ip (Z.of_nat (free_index l) * sizeof_dirent) (dirent_bytes de) V' ip' -> disk_ok sb st -> dir_ok V ip ->
  0 <= de_inum de < 2 ^ 16 -> length (de_name de) = 14%nat -> i_size ip + sizeof_dirent <= MAXFILE * BSIZE ->
  dir_ok V' ip' /\ dir_entries V' ip' = put_entry de l.
Proof.
  intros W Hd [Hf Hsz] Hi Hn Hend. set (n := i_size ip / sizeof_dirent) in *. assert (HD : sizeof_dirent = 16) by done.
  assert (Hl : length l = Z.to_nat n) by (unfold l, dir_entries; by rewrite length_fmap, length_seqZ).
  assert (Hn0 : 0 <= n) by (apply Z.div_pos; [destruct Hf; lia|done]).
  pose proof (free_index_le l) as Hj. set (j := free_index l) in *.
  assert (Hb : Z.of_nat (length (dirent_bytes de)) = sizeof_dirent) by (unfold dirent_bytes; rewrite length_app, length_bytes_of; lia).
  pose proof (wn_size _ _ _ _ _ _ _ _ W) as Hs'. rewrite Hb in Hs'.
  destruct (written_read _ _ _ _ _ _ _ _ W Hd Hf) as (R1 & R2 & R3); [lia..|]. rewrite Hb in R2, R3.
  assert (Hn' : i_size ip' / sizeof_dirent = Z.max n (Z.of_nat j + 1)).
  { rewrite Hs'. symmetry. apply (Z.div_unique _ _ _ 0); lia. }
  split; [split; [done|lia]|]. apply list_eq. intros a. rewrite put_entry_lookup. fold j.
  unfold dir_entries at 1. rewrite Hn', list_lookup_fmap.
  destruct (decide (Z.of_nat a < Z.max n (Z.of_nat j + 1))) as [Ha|Ha].
  - rewrite lookup_seqZ_lt by lia. cbn [fmap option_fmap option_map]. rewrite Z.add_0_l. case_decide as E.
    + subst a. unfold dir_entry. by rewrite R2, dirent_of_bytes.
    + unfold l, dir_entries. fold n. rewrite list_lookup_fmap, lookup_seqZ_lt by lia. cbn [fmap option_fmap option_map].
      rewrite Z.add_0_l. f_equal. unfold dir_entry, file_bytes. f_equal. apply list_fmap_ext. intros k x Hx.
      apply lookup_seqZ in Hx as [-> Hk]. apply R3; lia.
  - rewrite lookup_seqZ_ge by lia. rewrite decide_False by lia. symmetry. apply lookup_ge_None_2. lia.
Qed.

(** An entry of the table that stands for the same inode. *)
Lemma icache_same c i x : icache_ok c -> (i < ninode)%nat -> 0 < i_ref (inodes c !!! i) ->
  i_ref x = i_ref (inodes c !!! i) -> i_dev x = i_dev (inodes c !!! i) -> i_inum x = i_inum (inodes c !!! i) ->
  icache_ok (put_inode i x c) /\ (forall dev inum, irefs (put_inode i x c) dev inum = irefs c dev inum).
Proof.
  intros Hc Hi Hp Hr Hd Hn. assert (Hc' : icache_ok (put_inode i x c)).
  { apply put_inode_ok; [done|done|lia|]. intros _ j Hj Hs. apply (ic_uniq _ Hc _ _ (i_dev x) (i_inum x)); [done..|]. by split_and!. }
  split; [done|]. intros dev inum. rewrite irefs_put; [|done..|left; done|lia]. case_decide; lia.
Qed.

Definition new_entry (name : list Z) (inum : Z) : dirent := Dirent inum (strncpy_l (Z.to_nat DIRSIZ) name).

Lemma new_entry_names name inum other : inum <> 0 -> names other (new_entry name inum) <-> dname name = dname other.
Proof.
  intros Hi. unfold names. cbn [new_entry de_inum de_name]. assert (E : dname (strncpy_l (Z.to_nat DIRSIZ) name) = dname name) by (apply dname_strncpy; lia).
  rewrite E. tauto.
Qed.
Lemma new_entry_length name inum : length (de_name (new_entry name inum)) = 14%nat.
Proof. cbn [new_entry de_name]. unfold strncpy_l. rewrite length_take, length_app, repeat_length. change (Z.to_nat DIRSIZ) with 14%nat. lia. Qed.

Section Dirlink.
Context {SC : Sched} {VD : VirtioDisk} (Hwk : (0 < wakeups)%nat).
Implicit Types (w : world kstate).

Lemma dirlink_round w V d st cap Bs k dp ip j :
  tx w V d st cap Bs [] k [] -> inodes (compc w) !!! dp = ip -> dir_ok V ip -> block_lens V -> (1 <= k)%nat ->
  0 <= j < i_size ip / sizeof_dirent ->
  exists w1, lstep w w1 /\ tx w1 V d st cap Bs [] k [] /\
    dirlink_body dp (j * sizeof_dirent) w =
    Ok (if de_inum (dir_entry V ip j) =? 0 then inr (j * sizeof_dirent) else inl ((j + 1) * sizeof_dirent), w1).
Proof.
  intros T Hip Hd Hl Hk Hj. destruct (read_entry Hwk w V d st cap Bs k dp ip j T Hip Hd Hl Hk Hj) as (Hlt & w1 & E1 & S1 & T1).
  exists w1. split; [done|]. split; [done|].
  unfold dirlink_body. kdo (get_inode_run dp w). rewrite Hip, (proj2 (Z.ltb_lt _ _)) by done.
  rewrite (bind_Ok _ _ _ _ _ E1). rewrite Z.eqb_refl. cbn [negb]. fold (dir_entry V ip j).
  replace ((j + 1) * sizeof_dirent) with (j * sizeof_dirent + sizeof_dirent) by lia. by destruct (_ =? 0).
Qed.

Lemma dirlink_loop fuel w V d st cap Bs k dp ip j (l := dir_entry V ip <$> seqZ j (i_size ip / sizeof_dirent - j)) :
  tx w V d st cap Bs [] k [] -> inodes (compc w) !!! dp = ip -> dir_ok V ip -> block_lens V -> (1 <= k)%nat ->
  0 <= j <= i_size ip / sizeof_dirent -> i_size ip / sizeof_dirent - j < Z.of_nat fuel ->
  exists w1, lstep w w1 /\ tx w1 V d st cap Bs [] k [] /\
    loop fuel (dirlink_body dp) (j * sizeof_dirent) w = Ok ((j + Z.of_nat (free_index l)) * sizeof_dirent, w1).
Proof.
  revert w j l. induction fuel as [|f IH]; intros w j l T Hip Hd Hl Hk Hj Hfuel; [lia|].
  destruct (decide (j = i_size ip / sizeof_dirent)) as [Hend|Hlt].
  { exists w. split; [reflexivity|]. split; [done|]. apply loop_exit. unfold dirlink_body.
    kdo (get_inode_run dp w). pose proof (do_size _ _ Hd). rewrite Hip, (proj2 (Z.ltb_ge _ _)) by lia.
    unfold l. rewrite Hend, Z.sub_diag. cbn. by rewrite Z.add_0_r. }
  destruct (dirlink_round w V d st cap Bs k dp ip j T Hip Hd Hl Hk ltac:(lia)) as (w1 & S1 & T1 & E1).
  unfold l. rewrite seqZ_cons by lia. cbn [fmap list_fmap free_index].
  replace (Z.pred (i_size ip / sizeof_dirent - j)) with (i_size ip / sizeof_dirent - (j + 1)) by lia. replace (Z.succ j) with (j + 1) by lia.
  destruct (de_inum (dir_entry V ip j) =? 0).
  - exists w1. split; [done|]. split; [done|]. rewrite Z.add_0_r. by apply loop_exit.
  - rewrite (loop_next _ _ _ _ _ _ E1).
    destruct (IH w1 (j + 1) T1) as (w2 & S2 & T2 & E2); try done; try lia; [by rewrite (lstep_ic _ _ S1)|].
    exists w2. split; [by etrans|]. split; [done|]. rewrite E2. do 2 f_equal. lia.
Qed.

Lemma dirlink_new w V d st cap Bs k sb dp ip name inum (l := dir_entries V ip) :
  tx w V d st cap Bs [] k [] -> compc w = sb -> disk_ok sb st ->
  inodes (compc w) !!! dp = ip -> (dp < length (inodes (compc w)))%nat -> i_type ip = T_DIR -> dir_ok V ip ->
  file_inv V sb st ip -> 0 <= i_inum ip < sb_ninodes sb -> dinode_ok (dinode_of ip) ->
  i_size ip + sizeof_dirent <= MAXFILE * BSIZE -> 0 <= inum < 2 ^ 16 -> list_find (names name) l = None ->
  (10 <= k)%nat -> Z.of_nat (length Bs) + MAXOPBLOCKS <= cap -> (8 <= free_count V sb)%nat ->
  exists w' V' ip' Bs' k', dirlink dp name inum w = Ok (0, w') /\ fstep w w' /\ tx w' V' d st cap Bs' [] k' [] /\ (1 <= k')%nat /\
    inodes (compc w') = <[dp := ip']> (inodes (compc w)) /\
    written sb st V ip (Z.of_nat (free_index l) * sizeof_dirent) (dirent_bytes (new_entry name inum)) V' ip' /\
    dir_ok V' ip' /\ dir_entries V' ip' = put_entry (new_entry name inum) l.
Proof.
  intros T Hsb Hd Hip Hdp Ht Hdir Hv Hnum Hok Hend Hin Hfind Hk Hc Hf. set (de := new_entry name inum).
  pose proof (fv_lens _ _ _ _ Hv) as Hl. assert (HD : sizeof_dirent = 16) by done.
  set (n := i_size ip / sizeof_dirent). pose proof (do_size _ _ Hdir) as Hsz. fold n in Hsz.
  assert (Hn0 : 0 <= n) by (apply Z.div_pos; [destruct (do_file _ _ Hdir); lia|done]).
  destruct (dirlookup_absent Hwk w V d st cap Bs k dp ip name T) as (w1 & E1 & S1 & T1); try done; try lia.
  destruct (dirlink_loop (S (S (Z.to_nat n))) w1 V d st cap Bs k dp ip 0 T1) as (w2 & S2 & T2 & E2);
    try (fold n); try done; try lia; [by rewrite (lstep_ic _ _ S1)|].
  fold n in E2. rewrite Z.sub_0_r, Z.add_0_l in E2. fold (dir_entries V ip) l in E2.
  assert (S12 : lstep w w2) by by etrans.
  assert (Hb : Z.of_nat (length (dirent_bytes de)) = sizeof_dirent).
  { unfold dirent_bytes. rewrite length_app, length_bytes_of. unfold de. rewrite new_entry_length. lia. }
  pose proof (free_index_le l) as Hj. assert (Hll : length l = Z.to_nat n) by (unfold l, dir_entries; by rewrite length_fmap, length_seqZ).
  destruct (writei_ok Hwk w2 V d st cap Bs k sb dp ip (S_object (dirent_bytes de)) (Z.of_nat (free_index l) * sizeof_dirent) (dirent_bytes de))
    as (w3 & V3 & ip3 & Bs3 & k3 & E3 & S3 & I3 & T3 & L3 & K3 & W3);
    rewrite ?(lstep_ic _ _ S12), ?Hb; try done; try lia; [by rewrite (lstep_sb _ _ S12)|..].
  rewrite Hb in E3. rewrite (lstep_ic _ _ S12) in I3.
  destruct (link_entries sb st V ip V3 ip3 de) as [D1 D2]; try done; [apply new_entry_length|].
  exists w3, V3, ip3, Bs3, k3. split_and!; try done; [|etrans; [by apply lstep_fstep|done]|lia].
  unfold dirlink. kdo E1. kdo (get_inode_run dp w1). rewrite (lstep_ic _ _ S1), Hip. fold n.
  change (0 * sizeof_dirent) with 0 in E2. kdo E2. rewrite u16_id by done. fold (new_entry name inum) de. kdo E3. by rewrite Z.eqb_refl.
Qed.

(** A name that is there already. *)
Lemma dirlink_old w V d st cap Bs k dp ip name inum j de :
  tx w V d st cap Bs [] k [] -> inodes (compc w) !!! dp = ip -> i_type ip = T_DIR -> dir_ok V ip -> block_lens V -> (1 <= k)%nat ->
  icache_ok (compc w) -> lock_free L_icache w -> list_find (names name) (dir_entries V ip) = Some (j, de) ->
  iget_room (compc w) ROOTDEV (de_inum de) ->
  exists w', dirlink dp name inum w = Ok (-1, w') /\ tx w' V d st cap Bs [] k [] /\ icache_ok (compc w') /\
    irefs (compc w') ROOTDEV (de_inum de) = irefs (compc w) ROOTDEV (de_inum de).
Proof.
  intros T Hip Ht Hd Hl Hk Hc Hlk Hfind Hroom.
  destruct (dirlookup_found Hwk w V d st cap Bs k dp ip name j de) as (i & w0 & w1 & E1 & S0 & F1 & T1 & Hi & Hc1 & Hst & Hr & Hnew & _); try done.
  pose proof (irefs_stands _ _ _ _ Hc1 Hi Hst) as Hr1. pose proof Hst as (St1 & _ & _).
  assert (K : kframe w w1) by (etrans; [exact (fstep_kframe _ _ (lstep_fstep _ _ S0))|exact (frame_kframe _ _ F1)]).
  destruct (iput_ok w1 i) as (w2 & E2 & F2 & I2); try done.
  - apply (cs_quiet _ _ _ _ _ _ _ (tx_cs _ _ _ _ _ _ _ _ _ T1)).
  - by eapply kframe_lock_free.
  - intros (A1 & A2 & _). destruct (Hnew ltac:(lia)) as [Hv _]. done.
  - destruct (icache_count (compc w1) i ROOTDEV (de_inum de) (i_ref (inodes (compc w1) !!! i) - 1) Hc1 Hi Hst) as [C1 C2]; [lia|].
    exists w2. unfold dirlink. kdo E1. kdo E2. split; [done|]. split; [eapply tx_apart; [by apply apart_frame|done]|].
    rewrite I2. split; [done|]. rewrite C2, decide_True by done. lia.
Qed.

(** The new name is found. *)
Lemma dirlink_found w w' V' d st cap Bs' k' dp ip ip' name inum j :
  fstep w w' -> tx w' V' d st cap Bs' [] k' [] -> (1 <= k')%nat -> block_lens V' -> (dp < length (inodes (compc w)))%nat ->
  inodes (compc w) !!! dp = ip -> inodes (compc w') = <[dp := ip']> (inodes (compc w)) ->
  same_inode (set_i_size (i_size ip') ip) ip' -> 0 < i_ref ip -> i_type ip = T_DIR -> dir_ok V' ip' ->
  icache_ok (compc w) -> lock_free L_icache w -> iget_room (compc w) ROOTDEV inum ->
  list_find (names name) (dir_entries V' ip') = Some (j, new_entry name inum) ->
  exists i w2, dirlookup dp name w' = Ok (Some (i, Z.of_nat j * sizeof_dirent), w2) /\ stands (compc w2) ROOTDEV inum i.
Proof.
  intros S T Hk Hl Hdp Hip I' Hsame Hr Ht Hd Hc Hlk Hroom Hfind. unfold same_inode in Hsame.
  assert (Hc' : compc w' = put_inode dp ip' (compc w)).
  { unfold put_inode. rewrite <- I'. by destruct (compc (T := icache) w'). }
  pose proof (ic_len _ Hc) as Hlen.
  destruct (icache_same (compc w) dp ip') as [C1 C2]; try done; rewrite ?Hip; try done; try (by rewrite Hsame); [lia|].
  rewrite <- Hc' in C1, C2.
  destruct (dirlookup_found Hwk w' V' d st cap Bs' k' dp ip' name j (new_entry name inum)) as (i & w0 & w2 & E & R); try done.
  - rewrite I'. by apply list_lookup_total_insert_eq.
  - eapply kframe_lock_free; [by apply fstep_kframe|done].
  - by rewrite Hsame.
  - destruct Hroom as [Hz|(i & Hi & Hz)]; [left; by rewrite C2|right]. exists i. split; [done|].
    rewrite I', list_lookup_total_insert_ne; [done|]. intros <-. rewrite Hip in Hz. lia.
  - exists i, w2. split; [exact E|]. apply R.
Qed.
End Dirlink.

Section Props.
Context {SC : Sched} {VD : VirtioDisk}.

(** C14: dirlink, insert and look up.  A name that the directory has gives -1 and changes
    no block and no reference count.  A new name goes into the first unused entry, or
    into a new one at the end: the other entries stay, dirlookup now finds the name with
    its inode, every other name is found as before, and no other inode and no block of
    another file changes. *)
Theorem dirlink_correct w V d st cap Bs k (sb : superblock) dp ip name inum
  (Hwk : (0 < wakeups)%nat) (T : tx w V d st cap Bs [] k []) (Hsb : compc w = sb) (Hd : disk_ok sb st)
  (Hip : inodes (compc w) !!! dp = ip) (Hdp : (dp < length (inodes (compc w)))%nat) (Hr : 0 < i_ref ip) (Ht : i_type ip = T_DIR)
  (Hdir : dir_ok V ip) (Hv : file_inv V sb st ip) (Hnum : 0 <= i_inum ip < sb_ninodes sb) (Hok : dinode_ok (dinode_of ip))
  (Hic : icache_ok (compc w)) (Hl : lock_free L_icache w)
  (Hend : i_size ip + sizeof_dirent <= MAXFILE * BSIZE) (Hin : 0 < inum < 2 ^ 16)
  (Hk : (10 <= k)%nat) (Hc : Z.of_nat (length Bs) + MAXOPBLOCKS <= cap) (Hf : (8 <= free_count V sb)%nat) :
  match list_find (names name) (dir_entries V ip) with
  | Some (_, de) => iget_room (compc w) ROOTDEV (de_inum de) ->
      exists w', dirlink dp name inum w = Ok (-1, w') /\ tx w' V d st cap Bs [] k [] /\
        irefs (compc w') ROOTDEV (de_inum de) = irefs (compc w) ROOTDEV (de_inum de)
  | None => exists w' V' ip' Bs' k', dirlink dp name inum w = Ok (0, w') /\ tx w' V' d st cap Bs' [] k' [] /\
      inodes (compc w') = <[dp := ip']> (inodes (compc w)) /\ file_inv V' sb st ip' /\ dir_ok V' ip' /\
      dir_entries V' ip' = put_entry (new_entry name inum) (dir_entries V ip) /\
      (iget_room (compc w) ROOTDEV inum -> exists i off w2,
         dirlookup dp name w' = Ok (Some (i, off), w2) /\ stands (compc w2) ROOTDEV inum i) /\
      (forall other, dname name <> dname other ->
         list_find (names other) (dir_entries V' ip') = list_find (names other) (dir_entries V ip)) /\
      (forall j, 0 <= j < sb_ninodes sb -> j <> i_inum ip -> dinode_at V' sb j = dinode_at V sb j) /\
      (forall m, taken V sb st m -> (forall s, is_slot s -> slot V ip s <> m) -> V' m = V m)
  end.
Proof.
  destruct (list_find (names name) (dir_entries V ip)) as [[j de]|] eqn:Hfind.
  - intros Hroom. destruct (dirlink_old Hwk w V d st cap Bs k dp ip name inum j de) as (w' & E & T' & _ & R); try done;
      [apply Hv|lia|]. by exists w'.
  - destruct (dirlink_new Hwk w V d st cap Bs k sb dp ip name inum) as (w' & V' & ip' & Bs' & k' & E & S' & T' & K' & I' & W & D1 & D2);
      try done; [lia|]. exists w', V', ip', Bs', k'. pose proof (wn_inv _ _ _ _ _ _ _ _ W) as Hv'.
    assert (Hnew : list_find (names name) (dir_entries V' ip') = Some (free_index (dir_entries V ip), new_entry name inum)).
    { rewrite D2. apply find_put; [|done]. apply new_entry_names; [lia|done]. }
    split_and!; try done; [| |apply W|apply W].
    + intros Hroom. destruct (dirlink_found Hwk w w' V' d st cap Bs' k' dp ip ip' name inum (free_index (dir_entries V ip)))
        as (i & w2 & R1 & R2); try done; [apply Hv'|apply W|]. by do 3 eexists.
    + intros other Ho. rewrite D2. apply find_put_other. rewrite new_entry_names by lia. done.
Qed.
End Props.

(** ** A new name in the root directory *)

Definition ex_lbitmap : blk := repeat 255 5 ++ [63; 4] ++ repeat 0 1017.
Definition ex_ldisk : disk := Disk {[45 := ex_lbitmap; 50 := ex_dirblock]} [].

Lemma ex_root_slots s : is_slot s -> slot (disk_block ex_ldisk) ex_ip s = if s =? 0 then 50 else 0.
Proof.
  unfold is_slot. change MAXFILE with 268. intros Hs. apply Z.eqb_eq.
  exact (seqZ_forallb (fun s => slot (disk_block ex_ldisk) ex_ip s =? if s =? 0 then 50 else 0) 269 ltac:(by vm_compute) s ltac:(lia)).
Qed.
Lemma ex_root_inv : file_inv (disk_block ex_ldisk) ex_sb 2 ex_ip.
Proof.
  split; [split; [done|done|..]|..].
  - intros s Hs. rewrite ex_root_slots by done. case_match; [right|by left]. split; [by apply ex_home|by vm_compute].
  - intros s s' Hs Hs'. rewrite !ex_root_slots by done. repeat case_match; lia.
  - intros n Hn Hu. apply ex_home. change (sb_size ex_sb) with 1000 in Hn. destruct (Z_lt_ge_dec n 46); [|lia]. exfalso.
    assert (H := seqZ_forallb (used (disk_block ex_ldisk) ex_sb) 46 ltac:(by vm_compute) n ltac:(lia)). congruence.
  - intros n. unfold disk_block, ex_ldisk. cbn [d_blocks]. destruct (decide (n = 45)) as [->|]; [by vm_compute|].
    destruct (decide (n = 50)) as [->|]; [by vm_compute|]. rewrite lookup_insert_ne, lookup_singleton_ne by done. reflexivity.
Qed.
Lemma ex_root_dir : dir_ok (disk_block ex_ldisk) ex_ip.
Proof.
  split; [split; [done|done| |]|done]; [|cbn; unfold NDIRECT, BSIZE; lia].
  intros bn H0 H1. cbn in H1. unfold BSIZE in H1. assert (bn = 0) as -> by lia. by vm_compute.
Qed.
Lemma ex_root_dinode : dinode_ok (dinode_of ex_ip).
Proof.
  split; cbn [dinode_of ex_ip d_type d_major d_minor d_nlink d_size d_addrs i_type i_major i_minor i_nlink i_size i_addrs];
    unfold T_DIR; try lia; [reflexivity|]. cbn [repeat]. repeat (apply Forall_cons; split; [lia|]). apply Forall_nil_2.
Qed.
Lemma ex_root_free : (8 <= free_count (disk_block ex_ldisk) ex_sb)%nat.
Proof. apply Nat.leb_le. vm_compute. reflexivity. Qed.

(** "new" for inode 9 goes into the directory, and is found there. *)
Lemma dirlink_correct_witness : exists w w' i off w2,
  dirlink (SC := ex_sched) (VD := ex_disk) 0 (str "new") 9 w = Ok (0, w') /\
  dirlookup (SC := ex_sched) (VD := ex_disk) 0 (str "new") w' = Ok (Some (i, off), w2) /\ stands (compc w2) ROOTDEV 9 i.
Proof.
  destruct (ex_iworld ex_ldisk ex_ip) as (w & T & Hsb & Hic & _ & Hl). exists w.
  pose proof (dirlink_correct (SC := ex_sched) (VD := ex_disk) w _ _ _ _ _ _ ex_sb 0 ex_ip (str "new") 9
    ltac:(cbn; lia) T Hsb ex_disk_ok ltac:(rewrite Hic; reflexivity) ltac:(rewrite Hic; cbn; lia) ltac:(done) ltac:(done)
    ex_root_dir ex_root_inv ltac:(cbn; lia) ex_root_dinode ltac:(rewrite Hic; by apply (ex_ic_ok ex_ip)) Hl
    ltac:(by vm_compute) ltac:(lia) ltac:(unfold nbuf, NBUF, MAXOPBLOCKS; cbn; lia) ltac:(by vm_compute) ex_root_free) as P.
  assert (E : list_find (names (str "new")) (dir_entries (disk_block ex_ldisk) ex_ip) = None) by (vm_compute; reflexivity).
  rewrite E in P. destruct P as (w' & V' & ip' & Bs' & k' & P1 & _ & _ & _ & _ & _ & P2 & _).
  destruct P2 as (i & off & w2 & P3 & P4); [|by exists w', i, off, w2].
  right. exists 1%nat. rewrite Hic. split; [unfold ninode, NINODE; cbn; lia|reflexivity].
Defined.
