(* ===== verification/FsIalloc.v ===== *)
(** * fs.c: a new inode

    ialloc looks for the first inode of type 0, gives it its type, and returns an entry
    of the inode table for it. *)
From stdpp Require Import prelude gmap strings.
From Stdlib Require Import ZArith Lia.
From S2P Require Import Prelude Memory CString Spinlock Riscv Kalloc Vm Uaccess Proc Bytes State Sleeplock Copy Console Bio BioView BioClient Log Fs LogSpec LogOps FsTx FsAlloc FsInode Icache FsFile FsBmap FsWrite.
Open Scope Z_scope.

(** The inode as ialloc writes it. *)
Definition blank (type : Z) : dinode := Dinode type 0 0 0 0 (repeat 0 13).
Lemma blank_ok type : - 2 ^ 15 <= type < 2 ^ 15 -> dinode_ok (blank type).
Proof.
  intros Ht. split; cbn [blank d_type d_major d_minor d_nlink d_size d_addrs]; try lia; [done|]. cbn [repeat].
  repeat (apply Forall_cons; split; [lia|]). apply Forall_nil_2.
Qed.
Lemma i16_id z : - 2 ^ 15 <= z < 2 ^ 15 -> i16 z = z.
Proof. intros Hz. unfold i16. rewrite Z.mod_small by lia. lia. Qed.

(** [n] is the first unused inode. *)
Record first_inode (V : Z -> blk) (sb : superblock) (n : Z) : Prop := {
  fi_range : 1 <= n < sb_ninodes sb;
  fi_type : d_type (dinode_at V sb n) = 0;
  fi_low : forall m, 1 <= m < n -> d_type (dinode_at V sb m) <> 0;
}.

Definition typed_view (V : Z -> blk) (sb : superblock) (n type : Z) : Z -> blk :=
  fupd V (IBLOCK n sb) (put_dinode (n mod IPB) (blank type) (V (IBLOCK n sb))).

Section Ialloc.
Context {SC : Sched} {VD : VirtioDisk} (Hwk : (0 < wakeups)%nat).
Implicit Types (w : world kstate).

Lemma ialloc_round w V d st cap Bs k sb type n : tx w V d st cap Bs [] k [] -> compc w = sb -> inodes_ok sb st ->
  - 2 ^ 15 <= type < 2 ^ 15 -> 0 <= n < sb_ninodes sb -> (1 <= k)%nat -> Z.of_nat (length Bs) < cap ->
  exists w1, lstep w w1 /\
    if d_type (dinode_at V sb n) =? 0 then
      (exists k1, tx w1 (typed_view V sb n type) d st cap (logged (IBLOCK n sb) Bs) [] k1 []) /\
      ialloc_body ROOTDEV type n w = (i ← iget ROOTDEV n; mret (inr i)) w1
    else tx w1 V d st cap Bs [] k [] /\ ialloc_body ROOTDEV type n w = Ok (inl (n + 1), w1).
Proof.
  intros T Hsb Hin Hty Hn Hk Hc. pose proof (IBLOCK_range sb st _ Hin Hn) as Hb.
  unfold ialloc_body. rewrite i16_id by done. fold (blank type).
  destruct (tx_bread Hwk _ _ _ _ _ _ _ _ _ (IBLOCK n sb) T Hb (not_elem_of_nil _) ltac:(left; lia)) as (b & w1 & E1 & S1 & T1).
  assert (Hrun : forall A (g : Z -> blk -> nat -> K kstate A), (sb ← get_sb; if n <? sb_ninodes sb then
      bp ← bread ROOTDEV (u32 (IBLOCK n sb)); x ← get_buf bp; g (d_type (get_dinode (n mod IPB) (b_data x))) (b_data x) bp
      else panic "ialloc: no inodes") w = g (d_type (dinode_at V sb n)) (V (IBLOCK n sb)) b w1).
  { intros A g. kdo (get_sb_run w). rewrite Hsb, u32_id, (proj2 (Z.ltb_lt _ _)) by lia. kdo E1. kdo (get_buf_run b w1).
    by rewrite (tx_get _ _ _ _ _ _ _ _ _ b _ T1) by by left. }
  rewrite (Hrun _ (fun t x bp => if t =? 0 then upd_buf (set_data (put_dinode (n mod IPB) (blank type) x)) bp ;;
      log_write bp ;; brelse bp ;; i ← iget ROOTDEV n; mret (inr i) else brelse bp ;; mret (inl (n + 1)))).
  destruct (d_type (dinode_at V sb n) =? 0).
  - destruct (tx_put _ _ _ _ _ _ _ _ b _ (put_dinode (n mod IPB) (blank type) (V (IBLOCK n sb))) T1 (not_elem_of_nil _) Hc) as (w2 & _ & E2 & S2 & T2);
      [by apply (in_nolog _ _ Hin)|done|].
    exists w2. split; [by etrans|]. split; [by eexists|]. apply E2.
  - destruct (tx_brelse _ _ _ _ _ _ _ _ _ b _ T1 (not_elem_of_nil _) ltac:(right; apply not_elem_of_nil)) as (w2 & E2 & S2 & T2).
    exists w2. split; [by etrans|]. split; [|by kdo E2].
    replace k with (k - (if decide (IBLOCK n sb ∈ Bs) then 0 else 1) + (if decide (IBLOCK n sb ∈ Bs) then 0 else 1))%nat by (case_decide; lia).
    exact T2.
Qed.

Lemma ialloc_loop fuel w V d st cap Bs k sb type n : tx w V d st cap Bs [] k [] -> compc w = sb -> inodes_ok sb st ->
  - 2 ^ 15 <= type < 2 ^ 15 -> 1 <= n <= sb_ninodes sb -> (1 <= k)%nat -> Z.of_nat (length Bs) < cap -> sb_ninodes sb - n < Z.of_nat fuel ->
  (forall m, first_inode V sb m -> n <= m -> exists w1 k1, lstep w w1 /\
     tx w1 (typed_view V sb m type) d st cap (logged (IBLOCK m sb) Bs) [] k1 [] /\
     loop fuel (ialloc_body ROOTDEV type) n w = iget ROOTDEV m w1) /\
  ((forall m, n <= m < sb_ninodes sb -> d_type (dinode_at V sb m) <> 0) ->
     loop fuel (ialloc_body ROOTDEV type) n w = Panic "ialloc: no inodes").
Proof.
  revert w n. induction fuel as [|f IH]; intros w n T Hsb Hin Hty Hn Hk Hc Hfuel; [lia|].
  destruct (decide (n = sb_ninodes sb)) as [Hend|Hlt].
  { split; [intros m Hm Hle; destruct Hm; lia|]. intros _. cbn [loop]. rewrite (bind_Panic _ _ _ "ialloc: no inodes"); [done|].
    unfold ialloc_body. kdo (get_sb_run w). by rewrite Hsb, (proj2 (Z.ltb_ge _ _)) by lia. }
  destruct (ialloc_round w V d st cap Bs k sb type n T Hsb Hin Hty) as (w1 & S1 & R); [lia|done|done|].
  destruct (Z.eqb_spec (d_type (dinode_at V sb n)) 0) as [Hz|Hz].
  - destruct R as [[k1 T1] E1]. split; [|intros Hall; by destruct (Hall n); [lia|]]. intros m [M1 M2 M3] Hle.
    assert (m = n) as ->. { destruct (decide (m = n)); [done|]. by destruct (M3 n); [lia|]. }
    exists w1, k1. split; [done|]. split; [done|]. cbn [loop]. unfold mbind, M_bind at 1. rewrite E1.
    unfold mbind, M_bind. by destruct (iget ROOTDEV n w1) as [[i w2]| | |].
  - destruct R as [T1 E1]. rewrite (loop_next _ _ _ _ _ _ E1).
    destruct (IH w1 (n + 1) T1) as [I1 I2]; try done; try lia; [by rewrite (lstep_sb _ _ S1)|]. split.
    + intros m Hm Hle. assert (m <> n) by (intros ->; by destruct Hm). destruct (I1 m Hm ltac:(lia)) as (w2 & k2 & S2 & T2 & E2).
      exists w2, k2. split; [by etrans|done].
    + intros Hall. apply I2. intros m Hm. apply Hall. lia.
Qed.
End Ialloc.

Section Props.
Context {SC : Sched} {VD : VirtioDisk}.

(** C15: ialloc takes the first unused inode: on disk it becomes an empty inode of the given
    type without links, an entry of the inode table stands for it, not yet valid unless it
    was there before, and no other inode and no other block changes.  When every inode is
    in use it panics.  The scan ends within its bound on rounds. *)
Theorem ialloc_correct w V d st cap Bs k (sb : superblock) type
  (Hwk : (0 < wakeups)%nat) (T : tx w V d st cap Bs [] k []) (Hsb : compc w = sb) (Hin : inodes_ok sb st)
  (Hlens : block_lens V) (Hty : - 2 ^ 15 <= type < 2 ^ 15) (Hni : 1 <= sb_ninodes sb)
  (Hic : icache_ok (compc w)) (Hl : lock_free L_icache w) (Hk : (1 <= k)%nat) (Hc : Z.of_nat (length Bs) < cap) :
  (forall n, first_inode V sb n -> iget_room (compc w) ROOTDEV n ->
     exists i w' V' k', ialloc ROOTDEV type w = Ok (i, w') /\
       tx w' V' d st cap (logged (IBLOCK n sb) Bs) [] k' [] /\ block_lens V' /\
       dinode_at V' sb n = blank type /\
       (forall j, 0 <= j -> j <> n -> dinode_at V' sb j = dinode_at V sb j) /\
       (forall m, m <> IBLOCK n sb -> V' m = V m) /\
       icache_ok (compc w') /\ stands (compc w') ROOTDEV n i /\
       irefs (compc w') ROOTDEV n = irefs (compc w) ROOTDEV n + 1 /\
       (irefs (compc w) ROOTDEV n = 0 -> i_valid (inodes (compc w') !!! i) = 0)) /\
  ((forall m, 1 <= m < sb_ninodes sb -> d_type (dinode_at V sb m) <> 0) ->
   ialloc ROOTDEV type w = Panic "ialloc: no inodes").
Proof.
  destruct (ialloc_loop Hwk (S (Z.to_nat (sb_ninodes sb))) w V d st cap Bs k sb type 1) as [L1 L2]; try done; [lia..|].
  unfold ialloc. split; [|intros Hall; kdo (get_sb_run w); rewrite Hsb; by apply L2].
  intros n Hn Hroom. pose proof (fi_range _ _ _ Hn) as Hr. destruct (L1 n Hn ltac:(lia)) as (w1 & k1 & S1 & T1 & E1).
  pose proof (lstep_ic _ _ S1) as I1. pose proof (fstep_kframe _ _ (lstep_fstep _ _ S1)) as K1.
  destruct (iget_correct w1 ROOTDEV n) as [P|(_ & P1 & P2)]; try (by rewrite I1);
    [apply (cs_quiet _ _ _ _ _ _ _ (tx_cs _ _ _ _ _ _ _ _ _ T1))|by eapply kframe_lock_free| |].
  - destruct P as (i & w' & E & Fr & Hi & Hok & Hst & Hrf & _ & Hnew). rewrite I1 in Hrf, Hnew.
    exists i, w', (typed_view V sb n type), k1. kdo (get_sb_run w). rewrite Hsb, E1.
    split; [done|]. split; [eapply tx_apart; [by apply apart_frame|done]|].
    split; [apply block_lens_fupd; [done|]; apply length_put_dinode; [done|by apply Z.mod_pos_bound|done]|].
    unfold typed_view. pose proof (blank_ok type Hty) as Hb.
    split; [rewrite dinode_at_put by (done || lia); by rewrite decide_True|].
    split; [intros j Hj Hne; rewrite dinode_at_put by (done || lia); by rewrite decide_False|].
    split; [intros m Hm; by rewrite fupd_ne|]. split; [done|]. split; [done|].
    split; [by rewrite Hrf, decide_True|]. intros Hz. destruct Hnew as [[_ Hs0]|(Hv & _)]; [|done].
    rewrite (irefs_stands _ _ _ i Hic Hi Hs0) in Hz. destruct Hs0. lia.
  - rewrite I1 in P1, P2. exfalso. destruct Hroom as [Hz|(i & Hi & Hz)]; [done|]. by apply (P2 i).
Qed.
End Props.

(** Inode 5 of the example disk is in use; inode 1 is the first that is not. *)
Lemma ialloc_correct_witness : exists w i w' V', ialloc (SC := ex_sched) (VD := ex_disk) ROOTDEV T_FILE w = Ok (i, w') /\
  dinode_at V' ex_sb 1 = blank T_FILE /\ d_type (dinode_at V' ex_sb 5) = T_FILE /\ stands (compc w') ROOTDEV 1 i.
Proof.
  destruct (ex_iworld ex_idisk (ex_file 1)) as (w & T & Hsb & Hic & _ & Hl). exists w.
  destruct (ialloc_correct (SC := ex_sched) (VD := ex_disk) w _ _ _ _ _ _ ex_sb T_FILE
    ltac:(cbn; lia) T Hsb ex_in_ok ex_ilens ltac:(unfold T_FILE; lia) ltac:(by vm_compute) ltac:(rewrite Hic; by apply (ex_ic_ok (ex_file 1))) Hl
    ltac:(unfold nbuf, NBUF, MAXOPBLOCKS; cbn; lia) ltac:(cbn; lia)) as [P _].
  destruct (P 1) as (i & w' & V' & k' & E & _ & _ & D & O & _ & _ & S & _).
  - split; [by vm_compute|by vm_compute|intros m Hm; lia].
  - right. exists 1%nat. rewrite Hic. split; [unfold ninode, NINODE; cbn; lia|reflexivity].
  - exists i, w', V'. split; [exact E|]. split; [exact D|]. split; [|exact S]. rewrite O by lia. by vm_compute.
Defined.
