(* ===== verification/FsPath.v ===== *)
(** * fs.c: path names

    A path is the sequence of its non-empty elements between slashes, each cut off
    at DIRSIZ bytes.  skipelem takes off the first one; namex visits the directories
    in this order.  [resolve] is the same walk written on the list of elements,
    and the loop of namex equals it. *)
From stdpp Require Import prelude gmap strings.
From Stdlib Require Import ZArith Lia.
From S2P Require Import Prelude Memory CString Spinlock Riscv Kalloc Vm Uaccess Proc Bytes State Sleeplock Copy Console Bio BioView BioClient Log Fs LogSpec LogOps FsTx FsAlloc FsInode Icache FsFile.
Open Scope Z_scope.

(** ** The elements of a path *)

Fixpoint split_path (path : list Z) : list (list Z) :=
  match path with
  | [] => [[]]
  | c :: p => if c =? 47 then [] :: split_path p
              else match split_path p with e :: es => (c :: e) :: es | [] => [[c]] end
  end.
Definition elems (path : list Z) : list (list Z) := filter (.≠ []) (split_path path).

Lemma elems_slash p : elems (47 :: p) = elems p.
Proof. unfold elems. cbn [split_path Z.eqb Pos.eqb]. by rewrite filter_cons, decide_False by tauto. Qed.
Lemma elems_skip p : elems (skip_slashes p) = elems p.
Proof.
  induction p as [|c p IH]; [done|]. cbn [skip_slashes]. destruct (Z.eqb_spec c 47) as [->|]; [|done].
  by rewrite IH, elems_slash.
Qed.

Lemma split_path_elem s r : 47 ∉ s ->
  split_path (s ++ r) = match split_path r with e :: es => (s ++ e) :: es | [] => [s] end.
Proof.
  induction s as [|c s IH]; intros Hs; cbn [app split_path].
  - destruct (split_path r) eqn:E; [|done]. destruct r as [|a r]; cbn in E; [done|].
    destruct (a =? 47); [done|]. by destruct (split_path r).
  - apply not_elem_of_cons in Hs as [Hc Hs]. rewrite (proj2 (Z.eqb_neq c 47)) by done. rewrite IH by done.
    destruct (split_path r); [|done]. done.
Qed.

(** The first element and the rest. *)
Lemma span_elem_spec p : let '(s, r) := span_elem p in
  p = s ++ r /\ 47 ∉ s /\ (r = [] \/ exists r', r = 47 :: r').
Proof.
  induction p as [|c p IH]; cbn [span_elem]; [split; [done|]; split; [apply not_elem_of_nil|by left]|].
  destruct (Z.eqb_spec c 47) as [->|Hc].
  - split; [done|]. split; [apply not_elem_of_nil|right; by eexists].
  - destruct (span_elem p) as [s r]. destruct IH as (-> & H1 & H2). split; [done|]. split; [|done].
    apply not_elem_of_cons. split; [congruence|done].
Qed.

Lemma elems_span s r : 47 ∉ s -> s <> [] -> (r = [] \/ exists r', r = 47 :: r') -> elems (s ++ r) = s :: elems r.
Proof.
  intros Hs Hne Hr. unfold elems. rewrite split_path_elem by done. destruct Hr as [->|(r' & ->)].
  - cbn [split_path]. rewrite app_nil_r, !filter_cons, decide_True, decide_False by tauto. done.
  - cbn [split_path Z.eqb Pos.eqb]. rewrite app_nil_r, !filter_cons, decide_True, decide_False by tauto. done.
Qed.

Lemma skip_slashes_head p : skip_slashes p = [] \/ exists c q, skip_slashes p = c :: q /\ c <> 47.
Proof.
  induction p as [|c p IH]; [by left|]. cbn. destruct (Z.eqb_spec c 47); [done|]. right. by exists c, p.
Qed.
Lemma skip_slashes_le p : (length (skip_slashes p) <= length p)%nat.
Proof. induction p as [|c p IH]; [done|]. cbn. case_match; cbn; lia. Qed.
Lemma skip_slashes_Forall (P : Z -> Prop) p : Forall P p -> Forall P (skip_slashes p).
Proof. induction 1 as [|c p Hc Hp IH]; [by constructor|]. cbn. case_match; [done|by constructor]. Qed.

(** Skipping leading slashes leaves nothing exactly when no element is left. *)
Lemma skip_slashes_nil p : skip_slashes p = [] <-> elems p = [].
Proof.
  rewrite <- elems_skip. destruct (skip_slashes_head p) as [->|(c & q & -> & Hc)]; [done|].
  split; [done|]. intros E. exfalso. pose proof (span_elem_spec (c :: q)) as H. cbn [span_elem] in H.
  rewrite (proj2 (Z.eqb_neq c 47)) in H by done. destruct (span_elem q) as [s r]. destruct H as (E' & H1 & H2).
  rewrite E', elems_span in E by done. done.
Qed.

Lemma cstr_id s : 0 ∉ s -> cstr s = s.
Proof.
  induction s as [|c s IH]; intros H; [done|]. apply not_elem_of_cons in H as [H1 H2]. cbn.
  rewrite (proj2 (Z.eqb_neq c 0)) by congruence. by rewrite IH.
Qed.
Lemma cstr_app s t : 0 ∉ s -> cstr (s ++ 0 :: t) = s.
Proof.
  induction s as [|c s IH]; intros H; [done|]. apply not_elem_of_cons in H as [H1 H2]. cbn.
  rewrite (proj2 (Z.eqb_neq c 0)) by congruence. by rewrite IH.
Qed.

(** ** skipelem *)

Lemma skipelem_spec path name : 0 ∉ path -> length name = Z.to_nat DIRSIZ ->
  match elems path with
  | [] => skipelem path name = None
  | e :: es => exists rest name', skipelem path name = Some (rest, name') /\ elems rest = es /\
      (rest = [] <-> es = []) /\ (length rest < length path)%nat /\ 0 ∉ rest /\
      length name' = Z.to_nat DIRSIZ /\ dname name' = take (Z.to_nat DIRSIZ) e
  end.
Proof.
  intros Hz Hn. rewrite <- elems_skip. unfold skipelem. pose proof (skip_slashes_le path) as Hle.
  assert (Hz' : 0 ∉ skip_slashes path).
  { intros H. apply (Forall_forall (fun c => c <> 0) (skip_slashes path)) in H; [done|]. apply skip_slashes_Forall.
    apply Forall_forall. intros c Hc ->. done. }
  destruct (skip_slashes_head path) as [->|(c & q & E & Hc)]; [done|]. rewrite E in *.
  pose proof (span_elem_spec (c :: q)) as Hs. cbn [span_elem] in *. rewrite (proj2 (Z.eqb_neq c 47)) in * by done.
  destruct (span_elem q) as [s r]. destruct Hs as (Es & H1 & H2). rewrite Es, elems_span by done.
  do 2 eexists. split; [done|]. rewrite elems_skip. split; [done|]. split; [apply skip_slashes_nil|].
  assert (Hzs : 0 ∉ c :: s) by (intros H; apply Hz'; rewrite Es; apply elem_of_app; by left).
  assert (Hzr : 0 ∉ r) by (intros H; apply Hz'; rewrite Es; apply elem_of_app; by right).
  split. { pose proof (skip_slashes_le r). apply (f_equal length) in Es. rewrite length_app in Es. cbn in Es, Hle. lia. }
  split. { intros H. apply (Forall_forall (fun c => c <> 0) (skip_slashes r)) in H; [done|]. apply skip_slashes_Forall.
    apply Forall_forall. intros x Hx ->. done. }
  unfold DIRSIZ in *. rewrite Z.geb_leb. destruct (Z.leb_spec 14 (Z.of_nat (length (c :: s)))) as [Hlen|Hlen].
  - split; [rewrite length_take; lia|]. unfold dname. rewrite cstr_id.
    + by rewrite take_take, Nat.min_id.
    + intros H. apply Hzs. rewrite <- (take_drop (Z.to_nat 14) (c :: s)). apply elem_of_app. by left.
  - split; [rewrite length_splice; [done|rewrite length_app; cbn in *; lia]|].
    assert (Esp : splice 0 ((c :: s) ++ [0]) name = (c :: s) ++ 0 :: drop (length ((c :: s) ++ [0])) name)
      by (unfold splice; cbn; by rewrite <- app_assoc).
    unfold dname. by rewrite Esp, cstr_app.
Qed.

(** ** namex *)

Section Path.
Context {SC : Sched} {VD : VirtioDisk}.
Implicit Types (w : world kstate).

(** Only the first DIRSIZ bytes before the NUL of a name matter to dirlookup. *)
Lemma loop_ext {W X Y} fuel (f g : X -> M W (X + Y)) x (w : W) : (forall x (w : W), f x w = g x w) ->
  loop fuel f x w = loop fuel g x w.
Proof.
  intros H. revert x w. induction fuel as [|n IH]; intros x w; [done|]. cbn [loop]. unfold mbind, M_bind.
  rewrite H. by destruct (g x w) as [[[x'|y] w']| | |].
Qed.
Lemma namecmp_ext n1 n2 t : dname n1 = dname n2 -> (namecmp n1 t =? 0) = (namecmp n2 t =? 0).
Proof. intros E. by rewrite !namecmp_spec, E. Qed.

Lemma dirlookup_ext dp n1 n2 w : dname n1 = dname n2 -> dirlookup dp n1 w = dirlookup dp n2 w.
Proof.
  intros E. unfold dirlookup. kdo (get_inode_run dp w). symmetry. kdo (get_inode_run dp w). symmetry.
  case_match; [done|]. apply loop_ext. intros off w1. unfold dirlookup_body.
  kdo (get_inode_run dp w1). symmetry. kdo (get_inode_run dp w1). symmetry. case_match; [|done].
  unfold mbind, M_bind. destruct (readi _ _ _ _ w1) as [[[r bs] w2]| | |]; [|done..].
  case_match; [done|]. case_match; [done|]. by rewrite (namecmp_ext n1 n2).
Qed.

(** The walk along the elements of a path: the inode, and the element that was
    looked at last. *)
Fixpoint resolve (nameiparent : bool) (ip : nat) (es : list (list Z)) (name : list Z) : K kstate (option nat * list Z) :=
  match es with
  | [] => if nameiparent then iput ip ;; mret (None, name) else mret (Some ip, name)
  | e :: es' =>
      let name := take (Z.to_nat DIRSIZ) e in
      ilock (Some ip) ;;
      dp ← get_inode ip;
      if negb (i_type dp =? T_DIR) then iunlockput ip ;; mret (None, name)
      else if nameiparent && bool_decide (es' = []) then iunlock (Some ip) ;; mret (Some ip, name)
      else
        next ← dirlookup ip name;
        match next with
        | None => iunlockput ip ;; mret (None, name)
        | Some (next, _) => iunlockput ip ;; resolve nameiparent next es' name
        end
  end.

Lemma dname_take l : 0 ∉ l -> dname (take (Z.to_nat DIRSIZ) l) = take (Z.to_nat DIRSIZ) l.
Proof.
  intros H. unfold dname. rewrite cstr_id; [by rewrite take_take, Nat.min_id|].
  intros H'. apply H. rewrite <- (take_drop (Z.to_nat DIRSIZ) l). apply elem_of_app. by left.
Qed.

Lemma zero_cstr l : 0 ∉ cstr l.
Proof.
  induction l as [|c l IH]; cbn; [apply not_elem_of_nil|]. destruct (Z.eqb_spec c 0); [apply not_elem_of_nil|].
  apply not_elem_of_cons. split; [congruence|done].
Qed.
Lemma dname_idemp l : dname (dname l) = dname l.
Proof. apply dname_take, zero_cstr. Qed.

(** The loop of namex, seen through the name it leaves. *)
Definition named {A} (m : K kstate (A * list Z)) : K kstate (A * list Z) :=
  '(o, name) ← m; mret (o, dname name).

Lemma namex_loop fuel b ip path name w : (length path < fuel)%nat -> 0 ∉ path -> length name = Z.to_nat DIRSIZ ->
  named (loop fuel (namex_body b) (ip, path, name)) w = resolve b ip (elems path) (dname name) w.
Proof.
  revert ip path name w. induction fuel as [|f IH]; intros ip path name w Hf Hz Hn; [lia|].
  pose proof (skipelem_spec path name Hz Hn) as Hs. cbn [loop]. unfold named. unfold namex_body at 2. cbv beta iota.
  destruct (elems path) as [|e es].
  - rewrite Hs. cbn [resolve]. destruct b; [|done]. unfold mbind, M_bind.
    by destruct (iput ip w) as [[[] w1]| | |].
  - destruct Hs as (rest & name' & -> & He & Hnil & Hlt & Hz' & Hn' & Hd). cbn [resolve]. rewrite <- Hd.
    unfold mbind, M_bind. destruct (ilock (Some ip) w) as [[[] w1]| | |]; [|done..].
    rewrite get_inode_run. destruct (negb _).
    { by destruct (iunlockput ip w1) as [[[] w2]| | |]. }
    rewrite (bool_decide_ext (rest = []) (es = [])) by done. destruct (b && bool_decide (es = [])).
    { by destruct (iunlock (Some ip) w1) as [[[] w2]| | |]. }
    rewrite (dirlookup_ext ip name' (dname name')) by by rewrite dname_idemp.
    destruct (dirlookup ip (dname name') w1) as [[[[next off]|] w2]| | |]; [| |done..].
    + destruct (iunlockput ip w2) as [[[] w3]| | |]; [|done..]. rewrite <- He, <- IH by (done || lia). done.
    + by destruct (iunlockput ip w2) as [[[] w3]| | |].
Qed.

(** Where the walk starts: the root for an absolute path, else the current
    directory of the process. *)
Definition path_start (path : list Z) : K kstate nat :=
  if bool_decide (path !! 0%nat = Some 47) then iget ROOTDEV ROOTINO
  else
    p ← myproc_deref;
    q ← get_proc p;
    match p_cwd q with Some c => idup c | None => panic "kerneltrap" end.

End Path.
