(* ===== verification/FsNamex.v ===== *)
(** * fs.c: where a path leads

    The inodes and directories on disk are a graph: [walk] follows the elements of a
    path in it.  namex takes one lock and at most two references at a time; it ends
    with a reference to the inode that [walk] gives, and with no lock. *)
From stdpp Require Import prelude gmap strings.
From Stdlib Require Import ZArith Lia.
From S2P Require Import Prelude Memory CString Spinlock Riscv Kalloc Vm Uaccess Proc Bytes State Sleeplock Copy Console Bio BioView BioClient Log Fs LogSpec LogOps FsTx FsAlloc FsInode Icache FsFile FsPath.
Open Scope Z_scope.

(** ** The graph on disk *)

(** Inode [n] as it is on disk. *)
Definition disk_inode (V : Z -> blk) (sb : superblock) (n : Z) : inode := loaded V sb (Inode ROOTDEV n 1 0 0 0 0 0 0 []).

(** Inode [n] is in use. *)
Definition live (V : Z -> blk) (sb : superblock) (n : Z) : Prop :=
  0 <= n < sb_ninodes sb /\ d_type (dinode_at V sb n) <> 0.

(** Every inode in use has a link; directories are files of entries, and the entries
    in use name inodes in use. *)
Record graph_ok (V : Z -> blk) (sb : superblock) : Prop := {
  gr_link : forall n, live V sb n -> d_nlink (dinode_at V sb n) <> 0;
  gr_dir : forall n, live V sb n -> d_type (dinode_at V sb n) = T_DIR -> dir_ok V (disk_inode V sb n);
  gr_entry : forall n de, live V sb n -> d_type (dinode_at V sb n) = T_DIR ->
    de ∈ dir_entries V (disk_inode V sb n) -> de_inum de <> 0 -> live V sb (de_inum de);
}.

(** The inode that the elements [es] lead to from inode [n], or (with [parent]) the directory
    that the last of them is looked up in. *)
Fixpoint walk (V : Z -> blk) (sb : superblock) (parent : bool) (n : Z) (es : list (list Z)) : option Z :=
  match es with
  | [] => if parent then None else Some n
  | e :: es' =>
      if negb (d_type (dinode_at V sb n) =? T_DIR) then None
      else if parent && bool_decide (es' = []) then Some n
      else
        match list_find (names (take (Z.to_nat DIRSIZ) e)) (dir_entries V (disk_inode V sb n)) with
        | Some (_, de) => walk V sb parent (de_inum de) es'
        | None => None
        end
  end.

(** An inode in memory is as on disk. *)
Lemma same_entries V sb ip n : dinode_of ip = dinode_at V sb n -> dir_entries V ip = dir_entries V (disk_inode V sb n).
Proof.
  intros E. unfold disk_inode, loaded. cbn [i_valid Z.eqb i_inum]. rewrite <- E. by destruct ip.
Qed.
Lemma same_dir_ok V sb ip n : dinode_of ip = dinode_at V sb n -> i_dev ip = ROOTDEV ->
  dir_ok V (disk_inode V sb n) -> dir_ok V ip.
Proof.
  intros E Hd H. unfold disk_inode, loaded in H. cbn [i_valid Z.eqb i_inum] in H. rewrite <- E in H.
  destruct ip as [dv nn rf vl ty ma mi nl sz ad]. cbn in Hd. subst dv. destruct H as [[H1 H2 H3 H4] H5]. split; [by split|done].
Qed.

(** ** Reference counts, entry by entry *)

Definition one (i j : nat) : Z := if decide (j = i) then 1 else 0.
Definition one_of (o : option nat) (j : nat) : Z := match o with Some i => one i j | None => 0 end.

(** From [c] to [c'] entry [j] has gained [f j] references, and the entries in use stand for
    the same inodes. *)
Definition gained (c c' : icache) (f : nat -> Z) : Prop := forall j, (j < ninode)%nat ->
  i_ref (inodes c' !!! j) = i_ref (inodes c !!! j) + f j /\
  (0 < i_ref (inodes c !!! j) -> i_dev (inodes c' !!! j) = i_dev (inodes c !!! j) /\ i_inum (inodes c' !!! j) = i_inum (inodes c !!! j)).

Lemma gained_ext c c' f g : gained c c' f -> (forall j, f j = g j) -> gained c c' g.
Proof. intros H E j Hj. rewrite <- E. by apply H. Qed.
Lemma gained_put c c' f i x r : gained c c' f -> icache_ok c' -> (i < ninode)%nat ->
  i_ref x = i_ref (inodes c' !!! i) + r -> i_dev x = i_dev (inodes c' !!! i) -> i_inum x = i_inum (inodes c' !!! i) ->
  gained c (put_inode i x c') (fun j => f j + if decide (j = i) then r else 0).
Proof.
  intros H Hc Hi Hr Hd Hn j Hj. destruct (H j Hj) as [H1 H2]. unfold put_inode. cbn [inodes]. case_decide as E.
  - subst j. rewrite list_lookup_total_insert_eq by by rewrite (ic_len _ Hc). split; [lia|]. rewrite Hd, Hn. done.
  - rewrite list_lookup_total_insert_ne by done. split; [lia|done].
Qed.

(** Two entries are free. *)
Definition room (c : icache) : Prop := exists a b, (a < ninode)%nat /\ (b < ninode)%nat /\ a <> b /\
  i_ref (inodes c !!! a) = 0 /\ i_ref (inodes c !!! b) = 0.
Lemma gained_room c c' i : room c -> gained c c' (one i) -> exists a, (a < ninode)%nat /\ i_ref (inodes c' !!! a) = 0.
Proof.
  intros (a & b & Ha & Hb & Hne & Ra & Rb) H. unfold gained, one in H. destruct (decide (a = i)) as [->|Hai].
  - exists b. split; [done|]. destruct (H b Hb) as [E _]. rewrite decide_False in E by done. lia.
  - exists a. split; [done|]. destruct (H a Ha) as [E _]. rewrite decide_False in E by done. lia.
Qed.

(** A new reference as iget takes it. *)
Lemma gained_get c0 c c' f i : icache_ok c0 -> (forall j, 0 <= f j) -> gained c0 c f -> (i < ninode)%nat ->
  0 < i_ref (inodes c' !!! i) -> (forall j, j <> i -> inodes c' !!! j = inodes c !!! j) ->
  (inodes c' !!! i = set_i_ref (i_ref (inodes c !!! i) + 1) (inodes c !!! i) \/
   i_ref (inodes c' !!! i) = 1 /\ i_ref (inodes c !!! i) = 0) ->
  gained c0 c' (fun j => f j + one i j).
Proof.
  intros H0 Hf H Hi Hp Ho Hn j Hj. destruct (H j Hj) as [H1 H2]. unfold one. case_decide as E.
  - subst j. destruct Hn as [->|[Hn Hz]]; [cbn; split; [lia|done]|].
    pose proof (ic_ref _ H0 i Hi). specialize (Hf i). split; lia.
  - rewrite Ho by done. split; [lia|done].
Qed.

Section Namex.
Context {SC : Sched} {VD : VirtioDisk} (Hwk : (0 < wakeups)%nat).
Context (V : Z -> blk) (d : disk) (st cap : Z) (Bs : list Z) (k : nat) (sb : superblock).
Context (Hk : (1 <= k)%nat) (Hin : inodes_ok sb st) (Hlens : block_lens V) (Hg : graph_ok V sb).
Implicit Types (w : world kstate).

(** ** Inodes between operations *)

(** An entry in use is a copy of the inode on disk once it has been loaded. *)
Definition in_step (ip : inode) : Prop :=
  i_dev ip = ROOTDEV /\ live V sb (i_inum ip) /\ (i_valid ip <> 0 -> dinode_of ip = dinode_at V sb (i_inum ip)).

Record settled w : Prop := {
  se_tx : tx w V d st cap Bs [] k [];
  se_sb : compc w = sb;
  se_ic : icache_ok (compc w);
  se_lock : lock_free L_icache w;
  se_spin : forall i, (i < ninode)%nat -> lock_free (L_inode i) w;
  se_mem : forall i, (i < ninode)%nat -> 0 < i_ref (inodes (compc w) !!! i) -> in_step (inodes (compc w) !!! i);
}.

(** No inode is locked. *)
Definition unlocked_all w : Prop := forall i, (i < ninode)%nat -> sl_locked (compc (T := sltab) w !!! L_inode i) = 0.

Lemma settled_quiet w : settled w -> quiet w.
Proof. intros C. apply (cs_quiet _ _ _ _ _ _ _ (tx_cs _ _ _ _ _ _ _ _ _ (se_tx _ C))). Qed.
Lemma settled_keeps i w w' : settled w -> ikeeps i w w' -> tx w' V d st cap Bs [] k [] -> icache_ok (compc w') ->
  (forall i, (i < ninode)%nat -> 0 < i_ref (inodes (compc w') !!! i) -> in_step (inodes (compc w') !!! i)) -> settled w'.
Proof.
  intros [C1 C2 C3 C4 C5 C6] [K1 K2 K3] T I M. split; [done|by rewrite K2|done|by eapply kframe_lock_free| |done].
  intros j Hj. eapply kframe_lock_free; [done|by apply C5].
Qed.
Lemma in_step_put c i x : icache_ok c -> (i < ninode)%nat -> (0 < i_ref x -> in_step x) ->
  (forall i, (i < ninode)%nat -> 0 < i_ref (inodes c !!! i) -> in_step (inodes c !!! i)) ->
  forall j, (j < ninode)%nat -> 0 < i_ref (inodes (put_inode i x c) !!! j) -> in_step (inodes (put_inode i x c) !!! j).
Proof.
  intros Hc Hi Hx H j Hj. unfold put_inode. cbn [inodes]. destruct (decide (j = i)) as [->|Hne].
  - by rewrite list_lookup_total_insert_eq by by rewrite (ic_len _ Hc).
  - rewrite list_lookup_total_insert_ne by done. by apply H.
Qed.

(** ilock of an inode that somebody refers to. *)
Lemma lock_ok w i n : settled w -> (i < ninode)%nat -> stands (compc w) ROOTDEV n i ->
  sl_locked (compc (T := sltab) w !!! L_inode i) = 0 ->
  exists w' ip, ilock (Some i) w = Ok ((), w') /\ settled w' /\ holds_inode w' i /\ ikeeps i w w' /\
    compc w' = put_inode i ip (compc w) /\ dinode_of ip = dinode_at V sb n /\ i_dev ip = ROOTDEV /\ i_inum ip = n /\
    i_ref ip = i_ref (inodes (compc w) !!! i) /\ i_valid ip <> 0.
Proof.
  intros C Hi Hs Hu. pose proof (se_ic _ C) as Hc. pose proof Hs as (S1 & S2 & S3).
  destruct (se_mem _ C i Hi S1) as (M1 & M2 & M3). rewrite S3 in M2, M3.
  pose proof (ilock_correct w V d st cap Bs k sb i _ Hwk (se_tx _ C) (se_sb _ C) Hin eq_refl ltac:(rewrite (ic_len _ Hc); done)
    S2 ltac:(rewrite S3; apply M2) ltac:(split; [by apply (se_spin _ C)|done]) Hk) as P.
  rewrite S3, (proj2 (Z.ltb_ge _ _)), (proj2 (Z.eqb_neq _ _) (proj2 M2)), andb_false_r in P by lia.
  destruct P as (w' & E & T' & H' & I & K). set (x := inodes (compc w) !!! i) in *.
  assert (Hx : dinode_of (loaded V sb x) = dinode_at V sb n /\ i_dev (loaded V sb x) = ROOTDEV /\ i_inum (loaded V sb x) = n /\
    i_ref (loaded V sb x) = i_ref x /\ i_valid (loaded V sb x) <> 0).
  { unfold loaded. destruct (Z.eqb_spec (i_valid x) 0) as [Ev|Ev]; [|split_and!; auto].
    cbn [set_i_valid set_i_dinode dinode_of i_dev i_inum i_ref i_valid i_type i_major i_minor i_nlink i_size i_addrs].
    rewrite S3. split_and!; [by destruct (dinode_at V sb n)|done..]. }
  destruct Hx as (X1 & X2 & X3 & X4 & X5).
  assert (I' : compc w' = put_inode i (loaded V sb x) (compc w)) by (unfold put_inode; rewrite <- I; by destruct (compc w')).
  exists w', (loaded V sb x). split_and!; try done. eapply settled_keeps; try done; rewrite I'.
  - apply put_inode_ok; [done|done|lia|]. intros _ j Hj Hs'. rewrite X2, X3 in Hs'. by apply (ic_uniq _ Hc j i ROOTDEV n).
  - apply in_step_put; [done|done| |apply C]. intros _. split; [done|]. rewrite X3. done.
Qed.

(** The lock given back. *)
Lemma unlock_ok w i : settled w -> (i < ninode)%nat -> holds_inode w i -> 1 <= i_ref (inodes (compc w) !!! i) ->
  exists w', iunlock (Some i) w = Ok ((), w') /\ settled w' /\ ikeeps i w w' /\
    compc (T := icache) w' = compc w /\ sl_locked (compc (T := sltab) w' !!! L_inode i) = 0.
Proof.
  intros C Hi Hh Hr. destruct (iunlock_ok w i) as (w1 & E1 & A1 & U1 & I1 & K1); [by apply settled_quiet|by apply (se_spin _ C)|done|done|].
  exists w1. split; [done|]. split; [|split; [done|split; [done|apply U1]]].
  eapply settled_keeps; [exact C|exact K1|by eapply tx_apart; [|apply C]|rewrite I1; apply C..].
Qed.
(** The lock and the reference given back. *)
Lemma unlockput_ok w i n ip : settled w -> (i < ninode)%nat -> holds_inode w i -> inodes (compc w) !!! i = ip ->
  stands (compc w) ROOTDEV n i -> dinode_of ip = dinode_at V sb n ->
  exists w', iunlockput i w = Ok ((), w') /\ settled w' /\ ikeeps i w w' /\
    compc w' = put_inode i (set_i_ref (i_ref ip - 1) ip) (compc w) /\ sl_locked (compc (T := sltab) w' !!! L_inode i) = 0.
Proof.
  intros C Hi Hh He Hs Hd. pose proof Hs as (S1 & S2 & S3). rewrite He in S1, S2, S3.
  destruct (se_mem _ C i Hi ltac:(by rewrite He)) as (_ & M2 & _). rewrite He, S3 in M2.
  destruct (unlock_ok w i C Hi Hh) as (w1 & E1 & C1 & K1 & I1 & U1); [rewrite He; lia|].
  assert (Hnl : i_nlink ip <> 0).
  { change (i_nlink ip) with (d_nlink (dinode_of ip)). rewrite Hd. by apply (gr_link _ _ Hg). }
  destruct (iput_ok w1 i) as (w2 & E2 & F2 & I2); [by apply q_cpu, settled_quiet|apply C1|apply C1|done|rewrite I1, He; tauto|].
  rewrite I1, He in I2. assert (K2 : ikeeps ninode w1 w2) by by apply ikeeps_frame.
  exists w2. unfold iunlockput. kdo E1. split; [done|]. split; [|split; [|split; [done|]]].
  - eapply settled_keeps; [exact C1|exact K2|by eapply tx_apart; [by apply apart_frame|apply C1]|..]; rewrite I2.
    + apply put_inode_ok; [apply C|done|cbn; lia|]. cbn. intros _ j Hj Hs'. rewrite S2, S3 in Hs'.
      by apply (ic_uniq _ (se_ic _ C) j i ROOTDEV n).
    + apply in_step_put; [apply C|done| |apply C]. intros _. split; [done|]. cbn. rewrite S3. done.
  - etrans; [exact K1|]. by apply ikeeps_frame.
  - rewrite (ik_sl _ _ _ K2); [done|]. lia.
Qed.
Lemma keeps_unlocked i w w' : ikeeps i w w' -> (forall j, (j < ninode)%nat -> j <> i -> sl_locked (compc (T := sltab) w !!! L_inode j) = 0) ->
  sl_locked (compc (T := sltab) w' !!! L_inode i) = 0 -> unlocked_all w'.
Proof.
  intros K H Hi j Hj. destruct (decide (j = i)) as [->|Hne]; [done|]. rewrite (ik_sl _ _ _ K) by done. by apply H.
Qed.

(** An entry that iget has given a reference to. *)
Lemma get_step w w' i n : settled w -> live V sb n -> (i < ninode)%nat -> stands (compc w') ROOTDEV n i ->
  (forall j, j <> i -> inodes (compc w') !!! j = inodes (compc w) !!! j) ->
  (inodes (compc w') !!! i = set_i_ref (i_ref (inodes (compc w) !!! i) + 1) (inodes (compc w) !!! i) /\ stands (compc w) ROOTDEV n i \/
   i_valid (inodes (compc w') !!! i) = 0) ->
  forall j, (j < ninode)%nat -> 0 < i_ref (inodes (compc w') !!! j) -> in_step (inodes (compc w') !!! j).
Proof.
  intros C Hn Hi (S1 & S2 & S3) Ho Hnew j Hj Hr. destruct (decide (j = i)) as [->|Hne].
  - destruct Hnew as [[E (P1 & _)]|E].
    + rewrite E. destruct (se_mem _ C i Hi P1) as (M1 & M2 & M3). done.
    + split; [done|]. rewrite S3. split; [done|]. by intros [].
  - rewrite Ho in * by done. by apply (se_mem _ C).
Qed.

Lemma one_nonneg i j : 0 <= one i j.
Proof. unfold one. case_decide; lia. Qed.

(** A locked directory: the entry with the name, and a reference to its inode. *)
Lemma look_ok w dp n ip e c0 : settled w -> (dp < ninode)%nat -> holds_inode w dp -> inodes (compc w) !!! dp = ip ->
  dinode_of ip = dinode_at V sb n -> i_dev ip = ROOTDEV -> live V sb n -> d_type (dinode_at V sb n) = T_DIR ->
  icache_ok c0 -> room c0 -> gained c0 (compc w) (one dp) ->
  match list_find (names e) (dir_entries V (disk_inode V sb n)) with
  | Some (_, de) => exists next off w', dirlookup dp e w = Ok (Some (next, off), w') /\ settled w' /\ holds_inode w' dp /\
      ikeeps ninode w w' /\ (next < ninode)%nat /\ stands (compc w') ROOTDEV (de_inum de) next /\
      gained c0 (compc w') (fun j => one dp j + one next j) /\
      (exists r, inodes (compc w') !!! dp = set_i_ref r ip)
  | None => exists w', dirlookup dp e w = Ok (None, w') /\ settled w' /\ holds_inode w' dp /\ ikeeps ninode w w' /\
      compc (T := icache) w' = compc w
  end.
Proof.
  intros C Hdp Hh Hip Hd Hdev Hn Ht Hc0 Hroom Hgn. pose proof (se_ic _ C) as Hc.
  pose proof (same_dir_ok V sb ip n Hd Hdev (gr_dir _ _ Hg n Hn Ht)) as Hdir.
  assert (Hty : i_type ip = T_DIR) by (change (i_type ip) with (d_type (dinode_of ip)); congruence).
  rewrite <- (same_entries V sb ip n Hd). destruct (list_find _ _) as [[j de]|] eqn:Ef.
  - assert (Hde : live V sb (de_inum de)).
    { apply list_find_Some in Ef as (Ej & [E0 _] & _). apply (gr_entry _ _ Hg n); [done|done| |done].
      rewrite <- (same_entries V sb ip n Hd). by eapply list_elem_of_lookup_2. }
    assert (Hr : iget_room (compc w) ROOTDEV (de_inum de)) by (right; by eapply gained_room).
    destruct (dirlookup_found Hwk w V d st cap Bs k dp ip e j de (se_tx _ C) Hip Hdir Hlens Hk Hc (se_lock _ C) Hty Ef Hr)
      as (i & w1 & w' & E & S1 & F & T' & Hi & Hc' & Hst & Hrf & Hfr & Hoth & Hnew).
    assert (K : ikeeps ninode w w') by (etrans; [by apply ikeeps_lstep|by apply ikeeps_frame]).
    assert (Hz : inodes (compc w') !!! i = set_i_ref (i_ref (inodes (compc w) !!! i) + 1) (inodes (compc w) !!! i) \/
      i_ref (inodes (compc w') !!! i) = 1 /\ i_ref (inodes (compc w) !!! i) = 0).
    { destruct Hnew as [[-> _]|[Hv Hz]]; [by left|right]. split; [|done]. rewrite <- (irefs_stands _ _ _ i Hc' Hi Hst), Hrf.
      destruct (decide (irefs (compc w) ROOTDEV (de_inum de) = 0)) as [->|Hnz]; [done|]. exfalso. revert Hnz. unfold irefs at 1.
      destruct (list_find _ (seq 0 ninode)) as [[a b]|] eqn:Eb; [|done]. apply list_find_Some in Eb as (Ea%lookup_seq & Hb & _).
      destruct (decide (b = i)) as [->|Hne]; [destruct Hb; lia|]. intros _. apply Hne.
      apply (ic_uniq _ Hc' b i ROOTDEV (de_inum de)); [lia|done| |done]. unfold stands. by rewrite Hoth. }
    pose proof Hst as (P & _). exists i, (Z.of_nat j * sizeof_dirent), w'. split; [done|]. split; [|split; [|split; [done|split; [done|split; [done|split]]]]].
    + eapply settled_keeps; [exact C|exact K|done|done|].
      apply (get_step w w' i (de_inum de)); try done. tauto.
    + destruct (lstep_holds_inode _ _ _ S1 Hh) as [A1 A2]. unfold holds_inode.
      rewrite (ik_sl _ _ _ (ikeeps_frame ninode _ _ F)) by lia. by rewrite (ap_pid _ _ (apart_frame _ _ F)).
    + eapply gained_get; try done. intros j'. apply one_nonneg.
    + destruct (decide (dp = i)) as [<-|Hne]; [|exists (i_ref ip); rewrite Hoth, Hip by done; by destruct ip].
      destruct Hz as [->|[_ Hz]]; [rewrite Hip; by eexists|]. destruct (Hgn dp Hdp) as [G _]. unfold one in G.
      rewrite decide_True in G by done. pose proof (ic_ref _ Hc0 dp Hdp). lia.
  - destruct (dirlookup_absent Hwk w V d st cap Bs k dp ip e (se_tx _ C) Hip Hdir Hlens Hk Hty Ef) as (w' & E & S' & T').
    pose proof (lstep_ic _ _ S') as I'. assert (K : ikeeps ninode w w') by by apply ikeeps_lstep.
    exists w'. split; [done|]. split; [|split; [by eapply lstep_holds_inode|done]].
    eapply settled_keeps; [exact C|exact K|done|rewrite I'; apply C..].
Qed.

(** ** The walk *)

(** What the rest of the walk from inode [n], in entry [ip], gives. *)
Definition walked (c0 : icache) (b : bool) (n : Z) (es : list (list Z)) w' (o : option nat) (name' : list Z) : Prop :=
  settled w' /\ unlocked_all w' /\ gained c0 (compc w') (one_of o) /\
  match walk V sb b n es with
  | Some m => exists i, o = Some i /\ (i < ninode)%nat /\ stands (compc w') ROOTDEV m i
  | None => o = None
  end /\
  (b = true -> o <> None -> Some name' = take (Z.to_nat DIRSIZ) <$> last es).

Lemma resolve_ok b es n ip name w c0 : settled w -> unlocked_all w -> (ip < ninode)%nat -> stands (compc w) ROOTDEV n ip ->
  icache_ok c0 -> room c0 -> gained c0 (compc w) (one ip) ->
  exists o name' w', resolve b ip es name w = Ok ((o, name'), w') /\ walked c0 b n es w' o name'.
Proof.
  intros C U Hip Hs Hc0 Hroom Hgn. revert n ip name w C U Hip Hs Hgn. induction es as [|e es IH]; intros n ip name w C U Hip Hs Hgn.
  - pose proof Hs as (S1 & S2 & S3). cbn [resolve]. destruct b.
    + destruct (se_mem _ C ip Hip S1) as (M1 & M2 & M3). rewrite S3 in M2, M3.
      destruct (iput_ok w ip) as (w2 & E2 & F2 & I2); [by apply q_cpu, settled_quiet|apply C|apply C|done| |].
      { intros (_ & Hv & Hnl). apply (gr_link _ _ Hg n M2). rewrite <- (M3 Hv). exact Hnl. }
      kdo E2. assert (K2 : ikeeps ninode w w2) by by apply ikeeps_frame. exists None, name, w2. split; [done|].
      assert (G : gained c0 (compc w2) (one_of None)).
      { rewrite I2. eapply gained_ext; [apply (gained_put _ _ _ _ _ (-1) Hgn (se_ic _ C) Hip); [cbn; lia|done|done]|].
        intros j. unfold one, one_of. case_decide; lia. }
      split; [|split; [|split; [done|split; [done|done]]]].
      * eapply settled_keeps; [exact C|exact K2|by eapply tx_apart; [by apply apart_frame|apply C]|..]; rewrite I2.
        -- apply put_inode_ok; [apply C|done|cbn [set_i_ref i_ref]; lia|]. cbn [set_i_ref i_ref i_dev i_inum]. intros _ j Hj Hs'. rewrite S2, S3 in Hs'.
           by apply (ic_uniq _ (se_ic _ C) j ip ROOTDEV n).
        -- apply in_step_put; [apply C|done| |apply C]. intros _. by apply (se_mem _ C).
      * intros j Hj. rewrite (ik_sl _ _ _ K2) by lia. by apply U.
    + exists (Some ip), name, w. split; [done|]. split; [done|]. split; [done|]. split; [done|]. split; [by exists ip|done].
  - unfold walked. cbn [resolve walk]. destruct (lock_ok w ip n C Hip Hs (U ip Hip)) as (w1 & x & E1 & C1 & H1 & K1 & I1 & X1 & X2 & X3 & X4 & X5).
    kdo E1. kdo (get_inode_run ip w1).
    assert (Ex : inodes (compc w1) !!! ip = x).
    { rewrite I1. unfold put_inode. cbn [inodes]. apply list_lookup_total_insert_eq. by rewrite (ic_len _ (se_ic _ C)). }
    rewrite Ex. change (i_type x) with (d_type (dinode_of x)). rewrite X1.
    assert (Hs1 : stands (compc w1) ROOTDEV n ip) by (destruct Hs as (S1 & _); unfold stands; rewrite Ex; split_and!; [lia|done..]).
    assert (Hn : live V sb n).
    { destruct Hs as (S1 & S2 & S3). destruct (se_mem _ C ip Hip S1) as (_ & M2 & _). by rewrite S3 in M2. }
    assert (G1 : gained c0 (compc w1) (one ip)).
    { rewrite I1. eapply gained_ext; [apply (gained_put _ _ _ _ _ 0 Hgn (se_ic _ C) Hip);
        [lia|by destruct Hs as (_ & -> & _)|by destruct Hs as (_ & _ & ->)]|]. intros j. cbv beta. destruct (decide (j = ip)); lia. }
    assert (U1 : forall j, (j < ninode)%nat -> j <> ip -> sl_locked (compc (T := sltab) w1 !!! L_inode j) = 0).
    { intros j Hj Hne. rewrite (ik_sl _ _ _ K1) by done. by apply U. }
    (* giving the directory back, in a state that has its entry with one more reference *)
    assert (Back : forall w3 y f, settled w3 -> ikeeps ninode w1 w3 -> holds_inode w3 ip -> (exists r, y = set_i_ref r x) -> inodes (compc w3) !!! ip = y ->
      stands (compc w3) ROOTDEV n ip -> gained c0 (compc w3) (fun j => one ip j + f j) ->
      exists w4, iunlockput ip w3 = Ok ((), w4) /\ settled w4 /\ unlocked_all w4 /\ gained c0 (compc w4) f /\
        forall j m, (j < ninode)%nat -> 0 < i_ref (inodes (compc w4) !!! j) -> stands (compc w3) ROOTDEV m j -> stands (compc w4) ROOTDEV m j).
    { intros w3 y f C3 K3 H3 [r Ey] Ey' Hs3 G3.
      destruct (unlockput_ok w3 ip n y C3 Hip H3 Ey' Hs3) as (w4 & E4 & C4 & K4 & I4 & U4); [by rewrite Ey|].
      exists w4. split; [done|]. split; [done|]. split; [|split].
      - eapply keeps_unlocked; [exact K4| |done]. intros j Hj Hne. rewrite (ik_sl _ _ _ K3) by lia. by apply U1.
      - rewrite I4. eapply gained_ext; [apply (gained_put _ _ _ _ _ (-1) G3 (se_ic _ C3) Hip); [rewrite Ey'; cbn [set_i_ref i_ref]; lia|by rewrite Ey'|by rewrite Ey']|].
        intros j. cbv beta. unfold one. case_decide; lia.
      - intros j m Hj Hp (Q1 & Q2 & Q3). split; [done|]. rewrite I4. unfold put_inode. cbn [inodes]. destruct (decide (j = ip)) as [->|Hne].
        + rewrite list_lookup_total_insert_eq by (by rewrite (ic_len _ (se_ic _ C3))). rewrite Ey' in Q2, Q3. done.
        + by rewrite list_lookup_total_insert_ne by done. }
    destruct (Z.eqb_spec (d_type (dinode_at V sb n)) T_DIR) as [Ht|Ht]; cbn [negb].
    2:{ destruct (Back w1 x (fun _ => 0) C1 (reflexivity _) H1) as (w4 & E4 & C4 & U4 & G4 & _); [by exists (i_ref x); destruct x|done|done| |].
        { eapply gained_ext; [exact G1|]. intros j. lia. }
        kdo E4. eexists None, _, w4. split; [done|]. split; [done|]. split; [done|]. split; [exact G4|]. split; [done|]. by intros _ []. }
    destruct (b && bool_decide (es = [])) eqn:Eb.
    { apply andb_true_iff in Eb as [-> Ees%bool_decide_eq_true]. subst es.
      destruct (unlock_ok w1 ip C1 Hip H1) as (w2 & E2 & C2 & K2 & I2 & U2); [rewrite Ex; destruct Hs as (S1 & _); lia|].
      kdo E2. exists (Some ip), (take (Z.to_nat DIRSIZ) e), w2. split; [done|]. split; [done|]. split; [by eapply keeps_unlocked|].
      rewrite I2. split; [exact G1|]. split; [by exists ip|done]. }
    pose proof (look_ok w1 ip n x (take (Z.to_nat DIRSIZ) e) c0 C1 Hip H1 Ex X1 X2 Hn Ht Hc0 Hroom G1) as L.
    destruct (list_find _ _) as [[j de]|].
    + destruct L as (next & off & w2 & E2 & C2 & H2 & K2 & Hnx & Hsn & G2 & [r Er]). kdo E2.
      destruct (Back w2 (set_i_ref r x) (one next) C2 K2 H2) as (w3 & E3 & C3 & U3 & G3 & St3); [by eexists|done| |done|].
      { destruct (G2 ip Hip) as [G _]. unfold one in G. rewrite decide_True in G by done. pose proof (ic_ref _ Hc0 ip Hip).
        split; [case_decide; lia|]. by rewrite Er. }
      kdo E3. destruct (IH (de_inum de) next (take (Z.to_nat DIRSIZ) e) w3 C3 U3 Hnx) as (o & name' & w4 & E4 & W1 & W2 & W3 & W4 & W5); [|done|].
      { apply St3; [done| |done]. destruct (G3 next Hnx) as [G _]. unfold one in G. rewrite decide_True in G by done.
        pose proof (ic_ref _ Hc0 next Hnx). lia. }
      exists o, name', w4. split; [done|]. split; [done|]. split; [done|]. split; [done|]. split; [done|].
      intros Hb Ho. destruct es as [|e' es]; [by subst b|]. by rewrite last_cons_cons, <- W5.
    + destruct L as (w2 & E2 & C2 & H2 & K2 & I2). kdo E2.
      destruct (Back w2 x (fun _ => 0) C2 K2 H2) as (w4 & E4 & C4 & U4 & G4 & _); [by exists (i_ref x); destruct x|by rewrite I2|by rewrite I2| |].
      { rewrite I2. eapply gained_ext; [exact G1|]. intros j. lia. }
      kdo E4. eexists None, _, w4. split; [done|]. split; [done|]. split; [done|]. split; [exact G4|]. split; [done|]. by intros _ [].
Qed.

(** ** Where it starts *)

(** A path that begins with a slash starts at the root, another one in the current
    directory of the process. *)
Definition starts w (path : list Z) (n : Z) : Prop :=
  if bool_decide (path !! 0%nat = Some 47) then n = ROOTINO
  else exists p c, c_proc (h_cpu (cur w)) = Some p /\ p_cwd (procs (compc w) !!! p) = Some c /\
    (c < ninode)%nat /\ stands (compc w) ROOTDEV n c.

Lemma gained_self c : gained c c (fun _ => 0).
Proof. intros j Hj. split; [lia|done]. Qed.

Lemma path_start_ok w path n : settled w -> unlocked_all w -> room (compc w) -> live V sb n -> starts w path n ->
  exists ip w', path_start path w = Ok (ip, w') /\ settled w' /\ unlocked_all w' /\ (ip < ninode)%nat /\
    stands (compc w') ROOTDEV n ip /\ gained (compc w) (compc w') (one ip).
Proof.
  intros C U Hroom Hn Hst. pose proof (se_ic _ C) as Hc. pose proof (q_cpu _ (settled_quiet _ C)) as Hq. unfold path_start, starts in *.
  case_bool_decide.
  - subst n. destruct (iget_correct w ROOTDEV ROOTINO Hq (se_lock _ C) Hc) as [P|(_ & _ & P)].
    2:{ destruct Hroom as (a & _ & Ha & _ & _ & Ra & _). by destruct (P a Ha). }
    destruct P as (i & w' & E & F & Hi & Hc' & Hs' & Hrf & Hoth & Hnew). pose proof Hs' as (P1 & _).
    assert (K : ikeeps ninode w w') by by apply ikeeps_frame.
    exists i, w'. split; [done|]. split; [|split; [|split; [done|split; [done|]]]].
    + eapply settled_keeps; [exact C|exact K|by eapply tx_apart; [by apply apart_frame|apply C]|done|].
      apply (get_step w w' i ROOTINO); try done. tauto.
    + intros j Hj. rewrite (ik_sl _ _ _ K) by lia. by apply U.
    + eapply gained_ext; [apply (gained_get _ _ (compc w') _ i Hc (fun _ => Z.le_refl 0) (gained_self _)); try done|intros j; cbv beta; lia].
      destruct Hnew as [[E' _]|(_ & Hz & Hz')]; [by left|right]. split; [|done].
      rewrite <- (irefs_stands _ _ _ i Hc' Hi Hs'), Hrf, Hz, decide_True by done. done.
  - destruct Hst as (p & c & Hp & Hcwd & Hc1 & Hs). pose proof Hs as (S1 & S2 & S3). set (x := set_i_ref (i_ref (inodes (compc w) !!! c) + 1) (inodes (compc w) !!! c)).
    kdo (myproc_deref_run w p Hq Hp). kdo (get_proc_run p (touch w)). rewrite compc_touch, Hcwd.
    assert (Ht : settled (touch w)).
    { destruct C as [T1 T2 T3 T4 T5 T6]. split; rewrite ?compc_touch; try done; [by eapply tx_apart; [apply apart_touch|]|eauto with xv6..]. }
    set (w1 := touch w) in *. pose proof (se_mem _ C c Hc1 S1) as M.
    assert (E : idup c w1 = Ok (c, touch (updc (put_inode c x (compc w1)) w1))).
    { unfold idup. pose proof (q_cpu _ (settled_quiet _ Ht)) as Hq1. pose proof (se_lock _ Ht) as Hl1. kacquire.
      kdo (upd_inode_put (fun ip => set_i_ref (i_ref ip + 1) ip) c (acq L_icache w1) Hc Hc1). knorm.
      kdo (release_acq L_icache (updc (put_inode c x (compc w1)) w1) ltac:(eauto with xv6) ltac:(eauto with xv6)). done. }
    set (w2 := touch (updc _ w1)) in *. assert (F : frame icache w1 w2) by apply frame_upd.
    assert (I2 : compc w2 = put_inode c x (compc w)) by (unfold w2; rewrite compc_touch, compc_updc; unfold w1; by rewrite compc_touch).
    assert (K : ikeeps ninode w1 w2) by by apply ikeeps_frame.
    destruct (icache_count (compc w) c ROOTDEV n (i_ref (inodes (compc w) !!! c) + 1) Hc Hc1 Hs) as [O2 _]; [lia|]. fold x in O2.
    exists c, w2. split; [done|]. split; [|split; [|split; [done|split]]].
    + eapply settled_keeps; [exact Ht|exact K|by eapply tx_apart; [by apply apart_frame|apply Ht]|by rewrite I2|].
      rewrite I2. apply in_step_put; [done|done|intros _; exact M|apply C].
    + intros j Hj. rewrite (ik_sl _ _ _ K) by lia. by apply U.
    + rewrite I2, stands_put, decide_True by done. unfold x. cbn [set_i_ref i_ref i_dev i_inum]. split_and!; [lia|done..].
    + rewrite I2. eapply gained_ext; [apply (gained_put _ _ _ _ _ 1 (gained_self _) Hc Hc1); done|].
      intros j. cbv beta. unfold one. case_decide; lia.
Qed.
End Namex.

Section Paths.
Context {SC : Sched} {VD : VirtioDisk}.
Implicit Types (w : world kstate).

(** C16: Path resolution.  On a disk whose directories form a graph of inodes in use, with no
    inode locked and two free entries in the inode table, namex ends, and finds what the path
    means on the disk: it follows the non-empty strings between the slashes, each cut off
    at DIRSIZ bytes, from the root or the current directory.  It gives an entry
    that stands for the inode at the end (with nameiparent: for the directory of the last
    element, whose name is then in the caller's array), or 0 when a name is not found or
    is looked up in something that is not a directory.  Exactly the entry that it
    gives has one reference more than before, every lock is free again, and no block changes. *)
Theorem namex_correct w V d st cap Bs k sb path b name n
  (Hwk : (0 < wakeups)%nat) (Hk : (1 <= k)%nat) (Hin : inodes_ok sb st) (Hlens : block_lens V) (Hg : graph_ok V sb)
  (C : settled V d st cap Bs k sb w) (U : unlocked_all w) (Hroom : room (compc w))
  (Hz : 0 ∉ path) (Hname : length name = Z.to_nat DIRSIZ) (Hn : live V sb n) (Hst : starts w path n) :
  exists o name' w', namex path b name w = Ok ((o, name'), w') /\
    settled V d st cap Bs k sb w' /\ unlocked_all w' /\ gained (compc w) (compc w') (one_of o) /\
    match walk V sb b n (elems path) with
    | Some m => exists i, o = Some i /\ (i < ninode)%nat /\ stands (compc w') ROOTDEV m i
    | None => o = None
    end /\
    (b = true -> o <> None -> Some (dname name') = take (Z.to_nat DIRSIZ) <$> last (elems path)).
Proof.
  destruct (path_start_ok Hwk V d st cap Bs k sb Hk w path n C U Hroom Hn Hst) as (ip & w1 & E1 & C1 & U1 & Hip & Hs1 & G1).
  destruct (resolve_ok Hwk V d st cap Bs k sb Hk Hin Hlens Hg b (elems path) n ip (dname name) w1 (compc w) C1 U1 Hip Hs1 (se_ic _ _ _ _ _ _ _ _ C) Hroom G1)
    as (o & nm & w2 & E2 & W1 & W2 & W3 & W4 & W5).
  rewrite <- (namex_loop (S (length path)) b ip path name w1) in E2 by (done || lia).
  unfold named in E2. apply bind_inv in E2 as ([o' name'] & w2' & E2 & E3). injection E3 as -> <- ->.
  exists o, name', w2. split; [|done]. unfold namex. fold (path_start path). by kdo E1.
Qed.
End Paths.

(** ** /init *)

(** Every inode lock free. *)
Definition sl_none (n : nat) (t : sltab) : sltab := foldr (fun i => <[L_inode i := Sleeplock 0 "" 0]>) t (seq 0 n).
Lemma sl_none_buf n t i : sl_none n t !!! L_buf i = t !!! L_buf i.
Proof. unfold sl_none. induction (seq 0 n) as [|j l IH]; [done|]. cbn [foldr]. by rewrite lookup_total_insert_ne. Qed.
Lemma sl_none_inode n t i : (i < n)%nat -> sl_locked (sl_none n t !!! L_inode i) = 0.
Proof.
  intros Hlt. unfold sl_none. assert (Hin : i ∈ seq 0 n) by (apply elem_of_seq; lia).
  induction Hin as [i l|i j l Hin IH]; cbn [foldr]; [by rewrite lookup_total_insert_eq|].
  destruct (decide (j = i)) as [->|]; [by rewrite lookup_total_insert_eq|]. rewrite lookup_total_insert_ne by congruence. by apply IH.
Qed.
Lemma apart_sl_none n w : apart w (updc (sl_none n (compc (T := sltab) w)) w).
Proof. split; try done; [intros; by apply quiet_updc|]. intros i. apply sl_none_buf. Qed.

(** No inode is in memory. *)
Definition no_ic : icache := Icache (repeat inode0 50).
Lemma no_ic_at i : (i < ninode)%nat -> inodes no_ic !!! i = inode0.
Proof. intros Hi. by apply list_lookup_total_correct, lookup_repeat. Qed.
Lemma no_ic_ok : icache_ok no_ic.
Proof.
  split; [done|intros i Hi; by rewrite no_ic_at|]. intros i j dev n Hi _ (P & _). by rewrite no_ic_at in P.
Qed.

(** Inode 1 is the directory of FsFile's example, inode 7 an empty file. *)
Definition ex_pdisk : disk := Disk (<[32 := put_dinode 7 (Dinode T_FILE 0 0 1 0 (repeat 0 13))
  (put_dinode 1 (Dinode T_DIR 0 0 1 48 (50 :: repeat 0 12)) zero_block)]> {[50 := ex_dirblock]}) [].

Lemma ex_plens : block_lens (disk_block ex_pdisk).
Proof.
  intros n. unfold disk_block, ex_pdisk. cbn [d_blocks]. destruct (decide (n = 32)) as [->|Hn]; [by rewrite lookup_insert_eq|].
  rewrite lookup_insert_ne by done. apply ex_dirlens.
Qed.
Lemma ex_live n : live (disk_block ex_pdisk) ex_sb n -> n = 1 \/ n = 7.
Proof.
  intros [Hn Ht]. change (sb_ninodes ex_sb) with 200 in Hn.
  assert (F : forallb (fun n => (d_type (dinode_at (disk_block ex_pdisk) ex_sb n) =? 0) || (n =? 1) || (n =? 7)) (seqZ 0 200) = true)
    by (by vm_compute).
  rewrite forallb_forall in F. specialize (F n ltac:(apply list_elem_of_In, elem_of_seqZ; lia)).
  rewrite !orb_true_iff, !Z.eqb_eq in F. tauto.
Qed.
Lemma ex_graph : graph_ok (disk_block ex_pdisk) ex_sb.
Proof.
  split.
  - intros n [-> | ->]%ex_live; by vm_compute.
  - intros n [-> | ->]%ex_live Ht; [|by vm_compute in Ht]. split; [|by vm_compute].
    split; [done|by vm_compute| |by vm_compute]. intros bn H0 Hlt. change (i_size (disk_inode (disk_block ex_pdisk) ex_sb 1)) with 48 in Hlt.
    unfold BSIZE in Hlt. assert (bn = 0) as -> by lia. by vm_compute.
  - intros n de [-> | ->]%ex_live Ht Hde H0; [|by vm_compute in Ht].
    assert (E : dir_entries (disk_block ex_pdisk) (disk_inode (disk_block ex_pdisk) ex_sb 1) =
      [Dirent 1 (ex_name "."); Dirent 0 (ex_name "init"); Dirent 7 (ex_name "init")]) by (by vm_compute).
    rewrite E, list_elem_of_In in Hde. destruct Hde as [<-|[<-|[<-|[]]]]; [split; by vm_compute|by destruct H0|split; by vm_compute].
Qed.

Lemma ex_walk : walk (disk_block ex_pdisk) ex_sb false ROOTINO (elems (str "//init/")) = Some 7.
Proof. vm_compute. reflexivity. Qed.

Lemma namex_correct_witness : exists name' i w w',
  namex (SC := ex_sched) (VD := ex_disk) (str "//init/") false (repeat 0 14) w = Ok ((Some i, name'), w') /\
  stands (compc w') ROOTDEV 7 i /\ i_ref (inodes (compc w') !!! i) = 1.
Proof.
  destruct (cs_boot ex_pdisk) as (w0 & C0 & _ & Hf & Hf2 & _ & Hf3).
  set (w1 := updc ex_sb (updc ex_log w0)). set (w := updc no_ic (updc (sl_none 50 (compc (T := sltab) w1)) w1)).
  assert (A : apart w1 w) by (etrans; [apply apart_sl_none|apply apart_ic]).
  assert (T : tx w (disk_block ex_pdisk) ex_pdisk 2 29 [] [] nbuf []).
  { eapply tx_apart; [exact A|]. split; [by apply cs_sb, cs_log|unfold w1; eauto with xv6|exact ex_log_ok|done|done]. }
  assert (Hic : compc w = no_ic) by apply compc_updc.
  destruct (namex_correct (SC := ex_sched) (VD := ex_disk) w (disk_block ex_pdisk) ex_pdisk 2 29 [] nbuf ex_sb (str "//init/") false (repeat 0 14) ROOTINO)
    as (o & name' & w' & E & _ & _ & G & W & _).
  - cbn. lia.
  - unfold nbuf, NBUF, MAXOPBLOCKS. cbn. lia.
  - exact ex_in_ok.
  - exact ex_plens.
  - exact ex_graph.
  - split; [exact T|done|rewrite Hic; exact no_ic_ok|unfold w, w1; eauto with xv6| |].
    + intros i Hi. do 4 apply lock_free_updc. by apply Hf3.
    + intros i Hi Hr. rewrite Hic, no_ic_at in Hr by done. done.
  - intros i Hi. unfold w. rewrite compc_updc_ne1, compc_updc. by apply sl_none_inode.
  - exists 0%nat, 1%nat. split_and!; [unfold ninode, NINODE; lia..|done| |]; by rewrite Hic, no_ic_at by (unfold ninode, NINODE; lia).
  - apply (bool_decide_unpack _). vm_compute. exact I.
  - reflexivity.
  - by vm_compute.
  - reflexivity.
  - rewrite ex_walk in W. destruct W as (i & -> & Hi & Hs). exists name', i, w, w'. split; [exact E|]. split; [exact Hs|]. destruct (G i Hi) as [-> _].
    rewrite Hic, no_ic_at by done. cbn [one_of]. unfold one. by rewrite decide_True.
Defined.
