(* ===== verification/LogCrash.v ===== *)
(** * The log: commit, recovery and crashes

    commit() as a sequence of disk writes, recovery from the disk that a crash
    leaves, and the two theorems that make the log worth having: a crash at any
    point of a commit is recovered to the state before or after the whole
    transaction, and a crash during recovery does no harm. *)
From stdpp Require Import prelude gmap strings.
From Stdlib Require Import ZArith Lia.
From S2P Require Import Prelude Spinlock Riscv Proc Bytes State Sleeplock Bio BioView BioClient Log LogSpec LogOps.
Open Scope Z_scope.

Section Commit.
Context {SC : Sched} {VD : VirtioDisk}.
Implicit Types (w : world kstate) (V : Z -> blk) (R : Z -> Z).

Lemma log_ok_empty l st Bs : log_ok l st Bs -> log_ok (set_lh_n 0 l) st [].
Proof.
  intros [O1 O2 O3 O4 O5 O6 O7 O8 O9]. split; try done; [cbn; lia|apply NoDup_nil_2|set_solver].
Qed.

(** After the log blocks were written, log block [i] holds home block [i]. *)
Lemma vws_log_writes st V V' Bs i n : Bs !! i = Some n ->
  vws V' (log_writes st V Bs (length Bs)) (st + Z.of_nat i + 1) = V n.
Proof.
  intros Hn. pose proof (lookup_lt_Some _ _ _ Hn) as Hlt.
  assert (G : forall k, (i < k <= length Bs)%nat ->
    vws V' (log_writes st V Bs k) (st + Z.of_nat i + 1) = V n).
  { induction k as [|k IH]; intros Hk; [lia|].
    destruct (lookup_lt_is_Some_2 Bs k) as [x Hx]; [lia|].
    rewrite (log_writes_S _ _ _ _ _ Hx), vws_snoc. destruct (decide (i = k)) as [->|Hne].
    - rewrite fupd_eq. congruence.
    - rewrite fupd_ne by lia. apply IH. lia. }
  apply G. lia.
Qed.

Lemma home_writes_eq st V V' Bs :
  (forall i n, Bs !! i = Some n -> V' (st + Z.of_nat i + 1) = V n) ->
  home_writes st V' Bs (length Bs) = (fun n => (n, V n)) <$> Bs.
Proof.
  intros H. unfold home_writes. rewrite firstn_all. apply list_eq. intros i.
  rewrite list_lookup_imap, list_lookup_fmap. destruct (Bs !! i) eqn:E; [|done]. cbn.
  by rewrite (H i z E).
Qed.

(** Writing [V]'s contents of the blocks [Bs]. *)
Lemma vws_self (V V' : Z -> blk) (Bs : list Z) m :
  vws V' ((fun n => (n, V n)) <$> Bs) m = if decide (m ∈ Bs) then V m else V' m.
Proof.
  revert V'. induction Bs as [|n Bs IH]; intros V'; cbn; [done|]. rewrite IH.
  destruct (decide (m ∈ Bs)); [rewrite decide_True by set_solver; done|].
  unfold fupd. destruct (decide (m = n)) as [->|];
    [rewrite decide_True by set_solver|rewrite decide_False by set_solver]; done.
Qed.

(** After the home blocks were written, each holds its log block. *)
Lemma vws_home_writes st V V' Bs i n : NoDup Bs -> Bs !! i = Some n ->
  vws V' (home_writes st V Bs (length Bs)) n = V (st + Z.of_nat i + 1).
Proof.
  intros Hnd Hn. pose proof (lookup_lt_Some _ _ _ Hn) as Hlt.
  assert (G : forall k, (i < k <= length Bs)%nat ->
    vws V' (home_writes st V Bs k) n = V (st + Z.of_nat i + 1)).
  { induction k as [|k IH]; intros Hk; [lia|].
    destruct (lookup_lt_is_Some_2 Bs k) as [x Hx]; [lia|].
    rewrite (home_writes_S _ _ _ _ _ Hx), vws_snoc. destruct (decide (i = k)) as [->|Hne].
    - assert (x = n) as -> by congruence. apply fupd_eq.
    - rewrite fupd_ne; [apply IH; lia|]. intros ->.
      by pose proof (NoDup_lookup _ _ _ _ Hnd Hn Hx). }
  apply G. lia.
Qed.

Lemma unref_pinned (Bs : list Z) R : (forall n, n ∈ Bs -> 0 < R n) -> unref Bs R 0 = 0%nat.
Proof.
  intros H. unfold unref. rewrite drop_0. induction Bs as [|x Bs IH]; [done|].
  rewrite filter_cons, decide_False; [apply IH; set_solver|].
  pose proof (H x ltac:(set_solver)). lia.
Qed.

Lemma unpinned_log st (Bs : list Z) R i : refs_log st R -> (forall n, n ∈ Bs -> ~ in_log st n) ->
  refs_log st (unpinned Bs R i).
Proof.
  intros HL Hh m Hm. unfold unpinned. rewrite decide_False; [by apply HL|].
  intros (j & Hj)%list_elem_of_lookup. apply lookup_take_Some in Hj as [Hj _].
  apply (Hh m); [by eapply list_elem_of_lookup_2|done].
Qed.

Lemma start_in_log st : in_log st st.
Proof. unfold in_log, LOGSIZE, MAXOPBLOCKS. lia. Qed.

Lemma home_ne_start l st Bs : log_ok l st Bs -> st ∉ Bs.
Proof.
  intros Ho Hin. destruct (lo_home _ _ _ Ho st Hin) as [_ Hh]. apply Hh, start_in_log.
Qed.

(** The second half of a commit, and of recovery: copy the log blocks to their
    homes, then clear the header. *)
Definition clear_writes (st : Z) (V : Z -> blk) (Bs : list Z) : list (Z * blk) :=
  home_writes st V Bs (length Bs) ++ [(st, hdr [] (V st))].

(** The first half of a commit. *)
Definition logged_writes (st : Z) (V : Z -> blk) (Bs : list Z) : list (Z * blk) :=
  log_writes st V Bs (length Bs) ++ [(st, hdr Bs (V st))].

(** What is seen between the two halves. *)
Lemma logged_view st V Bs : (length Bs < Z.to_nat LOGSIZE)%nat ->
  (forall i n, Bs !! i = Some n -> vws V (logged_writes st V Bs) (st + Z.of_nat i + 1) = V n) /\
  vws V (logged_writes st V Bs) st = hdr Bs (V st) /\
  (forall m, ~ in_log st m -> vws V (logged_writes st V Bs) m = V m).
Proof.
  intros Ho. unfold logged_writes. rewrite vws_snoc. split_and!.
  - intros i n Hn. rewrite fupd_ne by lia. by apply vws_log_writes.
  - apply fupd_eq.
  - intros m Hm. rewrite fupd_ne by (intros ->; apply Hm, start_in_log).
    apply vws_notin. intros (j & _ & Hj & ->)%log_writes_fst. apply Hm.
    by apply (log_block_in st Bs).
Qed.

(** Both halves. *)
Definition commit_writes (st : Z) (V : Z -> blk) (Bs : list Z) : list (Z * blk) :=
  logged_writes st V Bs ++ clear_writes st (vws V (logged_writes st V Bs)) Bs.

Lemma clear_writes_eq st V Bs : (length Bs < Z.to_nat LOGSIZE)%nat ->
  clear_writes st (vws V (logged_writes st V Bs)) Bs =
  ((fun n => (n, V n)) <$> Bs) ++ [(st, hdr [] (hdr Bs (V st)))].
Proof.
  intros Ho. destruct (logged_view st V Bs Ho) as (H1 & H2 & H3). unfold clear_writes.
  rewrite H2. f_equal. by apply home_writes_eq.
Qed.

Context (Hwk : (0 < wakeups)%nat).

Lemma install_clear_ok w V R d F l st Bs :
  cs w V R d F none [] -> compc w = l -> log_ok l st Bs ->
  (forall n, R n < 2 ^ 32 - 1) -> refs_log st R -> (unref Bs R 0 < F)%nat ->
  exists w' F', (install_trans ;; upd_log (set_lh_n 0) ;; write_head) w = Ok ((), w') /\
    lstep w w' /\ compc w' = set_lh_n 0 l /\ (0 < F')%nat /\
    cs w' (vws V (clear_writes st V Bs)) (unpinned Bs R (length Bs)) (dws d (clear_writes st V Bs)) F' none [].
Proof.
  intros C Hl Ho HR HL HF.
  destruct (install_trans_ok Hwk w V R d F l st Bs) as (w1 & F1 & E1 & S1 & HF1 & C1); auto.
  kdo E1. kdo (upd_log_run (set_lh_n 0) w1). rewrite (cstep_log _ _ S1), Hl.
  apply (cs_log _ _ _ _ _ _ _ (set_lh_n 0 l)) in C1. set (w2 := updc (set_lh_n 0 l) w1) in *.
  assert (Hhome : forall n, n ∈ Bs -> ~ in_log st n) by (intros n Hn; by apply (lo_home _ _ _ Ho)).
  destruct (write_head_ok Hwk w2 _ _ _ _ (set_lh_n 0 l) st [] C1) as (w3 & E3 & S3 & C3); auto.
  { by eapply log_ok_empty. } { apply (unpinned_log st Bs R _ HL Hhome), start_in_log. }
  rewrite (vws_notin _ _ st) in C3 by (rewrite home_writes_fst, firstn_all; by eapply home_ne_start).
  rewrite <- vws_snoc, <- dws_snoc in C3.
  exists w3, F1. split_and!; [done| | |done|exact C3].
  - etrans; [by apply cstep_lstep|]. etrans; [apply (lstep_log (set_lh_n 0 l)); by rewrite (cstep_log _ _ S1), Hl|]. by apply cstep_lstep.
  - rewrite (cstep_log _ _ S3). unfold w2. apply compc_updc.
Qed.

Lemma log_phase_ok w V R d F l st Bs :
  cs w V R d F none [] -> compc w = l -> log_ok l st Bs ->
  (forall n, n ∈ Bs -> 0 < R n < 2 ^ 32 - 1) -> refs_log st R -> (0 < F)%nat ->
  exists w', (write_log ;; write_head) w = Ok ((), w') /\ cstep w w' /\
    cs w' (vws V (logged_writes st V Bs)) R (dws d (logged_writes st V Bs)) F none [].
Proof.
  intros C Hl Ho HR HL HF.
  destruct (write_log_ok Hwk w V R d F l st Bs) as (w1 & E1 & S1 & C1); auto.
  kdo E1. cbv zeta in C1.
  destruct (write_head_ok Hwk w1 _ _ _ _ l st Bs C1) as (w2 & E2 & S2 & C2); auto.
  { by rewrite (cstep_log _ _ S1). } { apply HL, start_in_log. }
  rewrite (vws_notin _ _ st) in C2 by (intros (j & _ & _ & ?)%log_writes_fst; lia).
  rewrite <- vws_snoc, <- dws_snoc in C2. exists w2. split; [done|]. split; [by etrans|done].
Qed.

(** A commit performs exactly [commit_writes], after which the view is as
    before (outside the log area) and the home blocks are no longer pinned. *)
Lemma commit_ok w V R d F l st Bs :
  cs w V R d F none [] -> compc w = l -> log_ok l st Bs -> Bs <> [] ->
  (forall n, n ∈ Bs -> 0 < R n) -> (forall n, R n < 2 ^ 32 - 1) -> refs_log st R -> (0 < F)%nat ->
  exists w' V' F', commit w = Ok ((), w') /\ lstep w w' /\ compc w' = set_lh_n 0 l /\ (0 < F')%nat /\
    cs w' V' (unpinned Bs R (length Bs)) (dws d (commit_writes st V Bs)) F' none [] /\
    (forall m, ~ in_log st m -> V' m = V m).
Proof.
  intros C Hl Ho Hne HR HR2 HL HF. unfold commit. kdo (get_log_run w). rewrite Hl, (lo_n _ _ _ Ho).
  rewrite (proj2 (Z.gtb_lt _ _)) by (destruct Bs; [done|cbn; lia]).
  destruct (log_phase_ok w V R d F l st Bs) as (w1 & E1 & S1 & C1); auto.
  rewrite <- (bind_assoc write_log (fun _ => write_head)). kdo E1.
  destruct (install_clear_ok w1 _ _ _ _ l st Bs C1) as (w2 & F2 & E2 & S2 & L2 & HF2 & C2); auto.
  { by rewrite (cstep_log _ _ S1). } { by rewrite unref_pinned. }
  rewrite <- dws_app in C2. exists w2. eexists _, F2. split_and!; [done| |done|done|exact C2|].
  - etrans; [by apply cstep_lstep|done].
  - intros m Hm. rewrite clear_writes_eq by apply Ho. rewrite vws_snoc.
    rewrite fupd_ne by (intros ->; apply Hm, start_in_log). rewrite vws_self.
    case_decide; [done|]. by apply (logged_view st V Bs); [apply Ho|].
Qed.
End Commit.

(** ** Recovery *)

(** The header block [h] records the transaction [Bs]. *)
Definition recorded (h : blk) (Bs : list Z) : Prop :=
  hdr_n h = Z.of_nat (length Bs) /\ forall i n, Bs !! i = Some n -> hdr_block h (Z.of_nat i) = n.

(** A transaction that fits a log at [st]. *)
Record trans_ok (st : Z) (Bs : list Z) : Prop := {
  tr_max : (length Bs < Z.to_nat LOGSIZE)%nat;
  tr_nodup : NoDup Bs;
  tr_home : forall m, m ∈ Bs -> 0 <= m < 2 ^ 31 /\ ~ in_log st m;
  tr_area : 0 <= st /\ st + LOGSIZE < 2 ^ 31;
}.

Lemma log_ok_trans l st Bs : log_ok l st Bs -> trans_ok st Bs.
Proof. by intros [O1 O2 O3 O4 O5 O6 O7 O8 O9 O10]. Qed.

(** The in-memory log as initlog leaves it before recovery. *)
Definition log_init (l : log) (st : Z) : Prop :=
  log_start l = st /\ log_dev l = ROOTDEV /\ length (lh_block (log_lh l)) = Z.to_nat LOGSIZE /\
  1 < log_size l <= LOGSIZE.

(** The fields of the log that recovery leaves alone. *)
Definition log_ctl (l : log) : Z * Z * Z := (log_size l, log_outstanding l, log_committing l).

(** The prefixes of two sequences of writes in a row. *)
Lemma prefix_app_inv {A} (ws a c : list A) : ws `prefix_of` a ++ c ->
  ws `prefix_of` a \/ exists p, ws = a ++ p /\ p `prefix_of` c.
Proof.
  intros [k E]. symmetry in E. apply app_eq_inv in E as [(p & -> & ->)|(p & -> & ->)].
  - right. exists p. split; [done|]. by exists k.
  - left. by exists p.
Qed.
Lemma prefix_fst (ws a : list (Z * blk)) m : ws `prefix_of` a -> m ∈ ws.*1 -> m ∈ a.*1.
Proof. intros [k ->] H. rewrite fmap_app. set_solver. Qed.

Lemma prefix_cons_inv {A} (ws : list A) x l : ws `prefix_of` x :: l ->
  ws = [] \/ exists ws', ws = x :: ws' /\ ws' `prefix_of` l.
Proof.
  destruct ws as [|y ws]; [by left|]. intros [k [= <- ->]]. right. exists ws. split; [done|by exists k].
Qed.

(** What recovery makes of a disk whose header records [Bs]. *)
Lemma clear_disk D st Bs : trans_ok st Bs -> length (disk_block D st) = Z.to_nat BSIZE ->
  let D' := dws D (clear_writes st (disk_block D) Bs) in
  recorded (disk_block D' st) [] /\ length (disk_block D' st) = Z.to_nat BSIZE /\
  (forall i n, Bs !! i = Some n -> disk_block D' n = disk_block D (st + Z.of_nat i + 1)) /\
  (forall m, ~ in_log st m -> m ∉ Bs -> disk_block D' m = disk_block D m).
Proof.
  intros Ht Hlen D'. set (V := disk_block D) in *.
  assert (Hv : forall m, disk_block D' m = vws V (clear_writes st V Bs) m) by (intros m; apply disk_block_dws).
  assert (Hst : forall n, n ∈ Bs -> n <> st).
  { intros n Hin ->. destruct (tr_home _ _ Ht st Hin) as [_ Hh]. apply Hh, start_in_log. }
  destruct (hdr_read [] (V st)) as (N1 & _ & N3); [vm_compute; lia|done|set_solver|].
  rewrite !Hv. unfold clear_writes at 1 2. rewrite vws_snoc, fupd_eq.
  split_and!; [by split|done|..].
  - intros i n Hi. rewrite Hv. unfold clear_writes. rewrite vws_snoc.
    assert (n ∈ Bs) by (by eapply list_elem_of_lookup_2). rewrite fupd_ne by by apply Hst.
    by apply vws_home_writes; [apply Ht|].
  - intros m Hm Hb. rewrite Hv. unfold clear_writes. rewrite vws_snoc.
    rewrite fupd_ne by (intros ->; apply Hm, start_in_log).
    apply vws_notin. by rewrite home_writes_fst, firstn_all.
Qed.

Section Recover.
Context {SC : Sched} {VD : VirtioDisk} (Hwk : (0 < wakeups)%nat).
Implicit Types (w : world kstate) (V : Z -> blk) (R : Z -> Z).

Lemma read_head_loop m w V R d F H st Bs i fuel h : recorded h Bs -> trans_ok st Bs ->
  (i + m = length Bs)%nat -> (m < fuel)%nat ->
  log_init (compc w) st -> lh_n (log_lh (compc w)) = Z.of_nat (length Bs) ->
  take i (lh_block (log_lh (compc w))) = take i Bs -> cs w V R d F none H ->
  exists w', loop fuel (read_head_body h) (Z.of_nat i) w = Ok ((), w') /\ lstep w w' /\
    log_ok (compc w') st Bs /\ cs w' V R d F none H /\ log_ctl (compc w') = log_ctl (compc w).
Proof.
  intros [Hn Hb] [T1 T2 T3 T4]. revert i fuel w.
  induction m as [|m IH]; intros i [|fuel] w Hi Hf (L1 & L2 & L3 & L4) Ln Lt C; try lia.
  - replace i with (length Bs) in * by lia. rewrite firstn_all in Lt. exists w. split_and!; [|done| |done|done].
    + apply loop_exit. unfold read_head_body. kdo (get_log_run w). by rewrite Ln, Z.ltb_irrefl.
    + by split.
  - destruct (lookup_lt_is_Some_2 Bs i) as [n Hni]; [lia|].
    set (l1 := set_lh_block (Z.of_nat i) n (compc w)).
    assert (E1 : read_head_body h (Z.of_nat i) w = Ok (inl (Z.of_nat i + 1), updc l1 w)).
    { unfold read_head_body. kdo (get_log_run w). rewrite Ln, (proj2 (Z.ltb_lt _ _)) by lia.
      rewrite Z.geb_leb, (proj2 (Z.leb_gt _ _)) by (unfold LOGSIZE, MAXOPBLOCKS in *; lia).
      rewrite (Hb i n Hni). by kdo (upd_log_run (set_lh_block (Z.of_nat i) n) w). }
    destruct (IH (S i) fuel (updc l1 w)) as (w2 & E2 & S2 & O2 & C2 & G2); rewrite ?compc_updc; try done; try lia.
    { split; [exact L1|]. split; [exact L2|]. split; [|exact L4]. unfold l1. cbn [set_lh_block log_lh lh_block]. by rewrite length_insert. }
    { unfold l1. cbn [set_lh_block log_lh lh_block]. rewrite Nat2Z.id. rewrite (take_S_r Bs _ _ Hni), <- Lt.
      rewrite (take_S_r _ _ n); [by rewrite take_insert_ge by lia|].
      apply list_lookup_insert_eq. rewrite L3. lia. }
    { by apply cs_log. }
    exists w2. split_and!; try done.
    rewrite <- E2. replace (Z.of_nat (S i)) with (Z.of_nat i + 1) by lia. by apply loop_next.
Qed.

Lemma read_head_ok w V R d F st Bs : cs w V R d F none [] -> log_init (compc w) st ->
  trans_ok st Bs -> recorded (V st) Bs -> R st = 0 -> (0 < F)%nat ->
  exists w', read_head w = Ok ((), w') /\ lstep w w' /\ log_ok (compc w') st Bs /\ cs w' V R d F none [] /\
    log_ctl (compc w') = log_ctl (compc w).
Proof.
  intros C Hl Ht Hr HR HF. pose proof Hl as (L1 & L2 & L3 & L4). pose proof Hr as [Hn _].
  destruct (tr_area _ _ Ht) as [Ha1 Ha2]. unfold read_head. kdo (get_log_run w).
  rewrite L1, L2, u32_id by (unfold LOGSIZE, MAXOPBLOCKS in *; lia).
  destruct (cs_bread w V R d F [] st C Hwk) as (b & w1 & E1 & S1 & C1);
    [unfold LOGSIZE, MAXOPBLOCKS in *; lia|set_solver|by left|lia|].
  kdo E1. kdo (get_buf_run b w1).
  destruct (cs_get _ _ _ _ _ _ _ b st C1) as [Ed _]; [set_solver|]. rewrite Ed.
  kdo (upd_log_run (set_lh_n (hdr_n (V st))) w1). set (l2 := set_lh_n _ _).
  apply (cs_log _ _ _ _ _ _ _ l2) in C1. pose proof (cstep_log _ _ S1) as El.
  destruct (read_head_loop (length Bs) (updc l2 w1) V (fupd R st (R st + 1)) d (F - zero1 (R st)) [(b, st)]
    st Bs 0 log_fuel (V st)) as (w3 & E3 & S3 & O3 & C3 & G3); rewrite ?compc_updc; try done; try lia.
  { pose proof (tr_max _ _ Ht). unfold log_fuel, LOGSIZE, MAXOPBLOCKS in *. lia. }
  { unfold l2. rewrite El. done. }
  kdo E3. destruct (cs_brelse _ _ _ _ _ _ _ b st C3) as (w4 & E4 & S4 & C4); [set_solver| |].
  { intros _. by apply (cs_clean _ _ _ _ _ _ st C). }
  fsimp_in C4. rewrite unhold_eq, HR in C4. change (u32 (0 + 1 - 1)) with 0 in C4.
  exists w4. split_and!; [done| |by rewrite (cstep_log _ _ S4)| |].
  - etrans; [by apply cstep_lstep|]. etrans; [by apply (lstep_log l2)|]. etrans; [done|by apply cstep_lstep].
  - eapply cs_ext; [exact C4|done|..].
    + intros k. unfold fupd. repeat case_decide; subst; lia.
    + rewrite zero1_0, zero1_ne by lia. lia.
    + intros j _ [[] _].
  - rewrite (cstep_log _ _ S4), G3, compc_updc. unfold l2. by rewrite El.
Qed.

(** Recovery copies the recorded transaction to its home blocks and clears the
    log; no block was pinned, so the reference count of every copied block ends
    one below zero. *)
Lemma recover_ok w V d F st Bs : cs w V (fun _ => 0) d F none [] -> log_init (compc w) st ->
  trans_ok st Bs -> recorded (V st) Bs -> (length Bs < F)%nat ->
  exists w' F', recover_from_log w = Ok ((), w') /\ lstep w w' /\ log_ok (compc w') st [] /\ (0 < F')%nat /\
    cs w' (vws V (clear_writes st V Bs)) (unpinned Bs (fun _ => 0) (length Bs))
      (dws d (clear_writes st V Bs)) F' none [] /\
    log_ctl (compc w') = log_ctl (compc w).
Proof.
  intros C Hl Ht Hr HF. unfold recover_from_log.
  destruct (read_head_ok w V _ d F st Bs C Hl Ht Hr) as (w1 & E1 & S1 & O1 & C1 & G1); [done|lia|].
  kdo E1. destruct (install_clear_ok Hwk w1 V (fun _ => 0) d F (compc w1) st Bs) as (w2 & F2 & E2 & S2 & L2 & HF2 & C2);
    try done.
  { unfold unref. rewrite drop_0. pose proof (length_filter (fun n : Z => 0 = 0) Bs). lia. }
  exists w2, F2. split_and!; [done|by etrans| |done|exact C2|by rewrite L2].
  rewrite L2. by eapply log_ok_empty.
Qed.

(** ** Crashes *)

(** A machine that has just rebooted with disk [D]: nothing is cached. *)
Definition rebooted w (D : disk) (st : Z) : Prop :=
  cs w (disk_block D) (fun _ => 0) D nbuf none [] /\ log_init (compc w) st.

Lemma recover_disk w D st Bs : rebooted w D st -> trans_ok st Bs -> recorded (disk_block D st) Bs ->
  length (disk_block D st) = Z.to_nat BSIZE -> (length Bs < nbuf)%nat ->
  exists w', recover_from_log w = Ok ((), w') /\
    hdr_n (disk_block (ks_disk (data w')) st) = 0 /\
    (forall m, view (data w') m = disk_block (ks_disk (data w')) m) /\
    (forall i n, Bs !! i = Some n ->
       disk_block (ks_disk (data w')) n = disk_block D (st + Z.of_nat i + 1)) /\
    (forall m, ~ in_log st m -> m ∉ Bs -> disk_block (ks_disk (data w')) m = disk_block D m).
Proof.
  intros [C Hl] Ht Hr Hlen Hn.
  destruct (recover_ok w _ D nbuf st Bs C Hl Ht Hr Hn) as (w' & F' & E & S & O & HF & C' & _).
  exists w'. split; [done|]. rewrite (cs_disk _ _ _ _ _ _ _ C').
  destruct (clear_disk D st Bs Ht Hlen) as ((H1 & _) & _ & H2 & H3). split_and!; try done.
  intros m. by rewrite (cs_view _ _ _ _ _ _ _ C'), disk_block_dws.
Qed.
End Recover.

(** ** Properties *)

(** Outside the log area. *)
Definition agree (st : Z) (f g : Z -> blk) : Prop := forall m, ~ in_log st m -> f m = g m.

Section Crash.
Context {SC : Sched} {VD : VirtioDisk}.
Implicit Types (w : world kstate).

(** The state in which commit is called: [d] is the disk, with an empty log, and
    [V] what the cache shows; they differ only on the blocks of the transaction. *)
Record before_commit (st : Z) (d : disk) (V : Z -> blk) (Bs : list Z) : Prop := {
  bc_trans : trans_ok st Bs;
  bc_empty : hdr_n (disk_block d st) = 0;
  bc_header : V st = disk_block d st;
  bc_len : length (V st) = Z.to_nat BSIZE;
  bc_dirty : forall m, ~ in_log st m -> m ∉ Bs -> V m = disk_block d m;
}.

Lemma trans_nil st Bs : trans_ok st Bs -> trans_ok st [].
Proof. intros [T1 T2 T3 T4]. split; [cbn; lia|apply NoDup_nil_2|set_solver|done]. Qed.

(** A transaction that fits the log fits the buffer cache. *)
Lemma trans_fit st Bs : trans_ok st Bs -> (length Bs < nbuf)%nat.
Proof. intros [T _ _ _]. exact T. Qed.

(** A log block is not a home block. *)
Lemma log_writes_in_log st V Bs m : trans_ok st Bs -> m ∈ (log_writes st V Bs (length Bs)).*1 ->
  in_log st m /\ m <> st.
Proof.
  intros Ht (j & _ & Hj & ->)%log_writes_fst. split; [|lia].
  apply (log_block_in st Bs); [apply Ht|done].
Qed.

(** Before the header is written: the old disk, with an empty log. *)
Lemma crash_early st d V Bs ws : before_commit st d V Bs ->
  ws `prefix_of` log_writes st V Bs (length Bs) ->
  recorded (disk_block (dws d ws) st) [] /\ length (disk_block (dws d ws) st) = Z.to_nat BSIZE /\
  agree st (disk_block (dws d ws)) (disk_block d).
Proof.
  intros [B1 B2 B3 B4 B5] Hp.
  assert (Hst : disk_block (dws d ws) st = disk_block d st).
  { rewrite disk_block_dws. apply vws_notin. intros Hin%(prefix_fst _ _ _ Hp).
    by apply (log_writes_in_log st V Bs) in Hin as [_ ?]. }
  rewrite Hst. split_and!; [by split|congruence|].
  intros m Hm. rewrite disk_block_dws. apply vws_notin. intros Hin%(prefix_fst _ _ _ Hp).
  by apply (log_writes_in_log st V Bs) in Hin as [? _].
Qed.

(** Between the two writes of the header: the transaction is recorded. *)
Lemma crash_middle st d V Bs p : before_commit st d V Bs ->
  p `prefix_of` ((fun n => (n, V n)) <$> Bs) ->
  let D := dws d (logged_writes st V Bs ++ p) in
  recorded (disk_block D st) Bs /\ length (disk_block D st) = Z.to_nat BSIZE /\
  (forall i n, Bs !! i = Some n -> disk_block D (st + Z.of_nat i + 1) = V n) /\
  (forall m, ~ in_log st m -> m ∉ Bs -> disk_block D m = V m).
Proof.
  intros [B1 B2 B3 B4 B5] Hp D. pose proof B1 as [T1 T2 T3 T4].
  assert (Hfst : forall m, m ∈ p.*1 -> m ∈ Bs).
  { intros m Hm%(prefix_fst _ _ _ Hp). rewrite <- list_fmap_compose in Hm.
    cbn in Hm. by rewrite list_fmap_id in Hm. }
  assert (HD : forall m, m ∉ Bs -> disk_block D m = vws (disk_block d) (logged_writes st V Bs) m).
  { intros m Hm. unfold D. rewrite disk_block_dws, vws_app. apply vws_notin. auto. }
  assert (Hlog : forall m, in_log st m -> m ∉ Bs) by (intros m Hm Hin; by apply T3 in Hin as [_ ?]).
  assert (Est : disk_block D st = hdr Bs (V st)).
  { rewrite HD by (apply Hlog, start_in_log). unfold logged_writes. by rewrite vws_snoc, fupd_eq. }
  destruct (hdr_read Bs (V st)) as (H1 & H2 & H3); [done..|intros n Hn; by apply T3|].
  rewrite Est. split_and!; [by split|done|..].
  - intros i n Hn. rewrite HD.
    + unfold logged_writes. rewrite vws_snoc, fupd_ne by lia. by apply vws_log_writes.
    + apply Hlog, (log_block_in st Bs); [done|]. by eapply lookup_lt_Some.
  - intros m Hm Hb. rewrite HD, B5 by done. unfold logged_writes. rewrite vws_snoc.
    rewrite fupd_ne by (intros ->; apply Hm, start_in_log).
    apply vws_notin. intros Hin. by apply (log_writes_in_log st V Bs) in Hin as [? _].
Qed.

(** After the whole commit: the new state, with an empty log. *)
Lemma crash_late st d V Bs : before_commit st d V Bs ->
  let D := dws d (commit_writes st V Bs) in
  recorded (disk_block D st) [] /\ length (disk_block D st) = Z.to_nat BSIZE /\
  agree st (disk_block D) V.
Proof.
  intros Hb D. pose proof Hb as [B1 B2 B3 B4 B5].
  destruct (crash_middle st d V Bs _ Hb (reflexivity _)) as (M1 & M2 & M3 & M4).
  assert (Ec : commit_writes st V Bs =
    (logged_writes st V Bs ++ ((fun n => (n, V n)) <$> Bs)) ++ [(st, hdr [] (hdr Bs (V st)))]).
  { unfold commit_writes. rewrite clear_writes_eq by apply B1. by rewrite app_assoc. }
  unfold D. rewrite Ec, dws_snoc. destruct B1 as [T1 T2 T3 T4].
  destruct (hdr_read Bs (V st)) as (_ & _ & H3); [done..|intros n Hn; by apply T3|].
  destruct (hdr_read [] (hdr Bs (V st))) as (N1 & _ & N3); [cbn; lia|done|set_solver|].
  rewrite disk_block_write, decide_True by done. split_and!; [by split|done|].
  intros m Hm. rewrite disk_block_write, decide_False by (intros ->; apply Hm, start_in_log).
  destruct (decide (m ∈ Bs)) as [Hin|Hin]; [|by apply M4].
  rewrite disk_block_dws, vws_app, vws_self. by rewrite decide_True.
Qed.

(** The three kinds of crash points of a commit. *)
Lemma crash_cases st V Bs ws : (length Bs < Z.to_nat LOGSIZE)%nat -> ws `prefix_of` commit_writes st V Bs ->
  ws `prefix_of` log_writes st V Bs (length Bs) \/
  (exists p, ws = logged_writes st V Bs ++ p /\ p `prefix_of` ((fun n => (n, V n)) <$> Bs)) \/
  ws = commit_writes st V Bs.
Proof.
  intros Hl Hp. unfold commit_writes in *. rewrite clear_writes_eq in * by done.
  apply prefix_app_inv in Hp as [Hp|(p & -> & Hp)].
  - unfold logged_writes in *. apply prefix_app_inv in Hp as [Hp|(q & -> & Hq)]; [by left|].
    apply prefix_cons_inv in Hq as [->|Hq]; [left; by rewrite app_nil_r|].
    destruct Hq as (q' & -> & Hq'). apply prefix_nil_inv in Hq' as ->.
    right; left. exists []. rewrite app_nil_r. split; [done|apply prefix_nil].
  - apply prefix_app_inv in Hp as [Hp|(q & -> & Hq)]; [right; left; by exists p|].
    apply prefix_cons_inv in Hq as [->|(q' & -> & ->%prefix_nil_inv)].
    + right; left. rewrite app_nil_r. eexists. split; [done|reflexivity].
    + by right; right.
Qed.

(** The two kinds of crash points of a recovery. *)
Lemma clear_cases st V Bs ws : ws `prefix_of` clear_writes st V Bs ->
  ws `prefix_of` home_writes st V Bs (length Bs) \/ ws = clear_writes st V Bs.
Proof.
  intros [Hp|(p & -> & Hp)]%prefix_app_inv; [by left|].
  apply prefix_cons_inv in Hp as [->|(q & -> & ->%prefix_nil_inv)]; [left|by right].
  by rewrite app_nil_r.
Qed.

(** A crash during recovery: the log is still there and nothing outside the
    home blocks has changed. *)
Lemma crash_recovery st D Bs ws : trans_ok st Bs ->
  ws `prefix_of` home_writes st (disk_block D) Bs (length Bs) ->
  (forall m, m ∉ Bs -> disk_block (dws D ws) m = disk_block D m).
Proof.
  intros Ht Hp m Hm. rewrite disk_block_dws. apply vws_notin.
  intros Hin%(prefix_fst _ _ _ Hp). rewrite home_writes_fst, firstn_all in Hin. done.
Qed.

Lemma trans_not_log st Bs m : trans_ok st Bs -> in_log st m -> m ∉ Bs.
Proof. intros Ht Hm Hin. by destruct (tr_home _ _ Ht m Hin). Qed.
End Crash.

Section Props.
Context {SC : Sched} {VD : VirtioDisk} (Hwk : (0 < wakeups)%nat).
Implicit Types (w : world kstate).

(** C2: commit writes the log blocks, then the header, then the home blocks, then the
    empty header, in this order and nothing else; afterwards a reader sees what it
    saw before, the home blocks are on disk and lose their pin, and the
    in-memory log is empty.  It neither panics nor blocks while one buffer is
    unused and the blocks are pinned. *)
Theorem commit_correct w V R d F (l : log) st Bs
  (C : cs w V R d F none []) (Hl : compc w = l) (Ho : log_ok l st Bs) (Hne : Bs <> [])
  (HR : forall n, n ∈ Bs -> 0 < R n) (HR2 : forall n, R n < 2 ^ 32 - 1) (HL : refs_log st R)
  (HF : (0 < F)%nat) :
  exists w', commit w = Ok ((), w') /\ lstep w w' /\ lh_n (log_lh (compc w')) = 0 /\
    d_trace (ks_disk (data w')) = rev (commit_writes st V Bs) ++ d_trace d /\
    agree st (view (data w')) V /\
    (forall n, refs (data w') n = if decide (n ∈ Bs) then R n - 1 else R n).
Proof.
  destruct (commit_ok Hwk w V R d F l st Bs) as (w' & V' & F' & E & S & L & HF' & C' & HV); try done.
  exists w'. split_and!; [done|done|by rewrite L|..].
  - rewrite (cs_disk _ _ _ _ _ _ _ C'). apply dws_trace.
  - intros m Hm. rewrite (cs_view _ _ _ _ _ _ _ C'). by apply HV.
  - intros n. rewrite (cs_refs _ _ _ _ _ _ _ C'). unfold unpinned. rewrite firstn_all.
    case_decide as Hn; [|done]. specialize (HR n Hn). specialize (HR2 n). rewrite u32_id; lia.
Qed.

(** Recovery from the disk that a prefix of the writes of a commit leaves. *)
Lemma crash_recovered st d V Bs ws w : before_commit st d V Bs -> ws `prefix_of` commit_writes st V Bs -> rebooted w (dws d ws) st ->
  exists w', recover_from_log w = Ok ((), w') /\
    hdr_n (disk_block (ks_disk (data w')) st) = 0 /\
    (forall m, view (data w') m = disk_block (ks_disk (data w')) m) /\
    agree st (disk_block (ks_disk (data w'))) (if decide (st ∈ ws.*1) then V else disk_block d).
Proof.
  intros Hb Hp Hw. pose proof (trans_fit _ _ (bc_trans _ _ _ _ Hb)) as Hfit. pose proof (bc_trans _ _ _ _ Hb) as Ht. pose proof (trans_nil _ _ Ht) as Htn.
  assert (Hin : forall p, st ∈ (logged_writes st V Bs ++ p).*1).
  { intros p. unfold logged_writes. rewrite !fmap_app. set_solver. }
  destruct (crash_cases st V Bs ws (tr_max _ _ Ht) Hp) as [Hc|[(p & -> & Hc)| ->]].
  - destruct (crash_early st d V Bs ws Hb Hc) as (R1 & R2 & R3).
    destruct (recover_disk Hwk w _ st [] Hw Htn R1 R2) as (w' & E & H1 & H2 & _ & H4);
      [unfold nbuf, NBUF, MAXOPBLOCKS; cbn; lia|].
    exists w'. split_and!; try done. rewrite decide_False.
    + intros m Hm. rewrite H4; [by apply R3|done|set_solver].
    + intros Hst%(prefix_fst _ _ _ Hc). by apply (log_writes_in_log st V Bs) in Hst as [_ ?].
  - destruct (crash_middle st d V Bs p Hb Hc) as (R1 & R2 & R3 & R4).
    destruct (recover_disk Hwk w _ st Bs Hw Ht R1 R2 Hfit) as (w' & E & H1 & H2 & H3 & H4).
    exists w'. split_and!; try done. rewrite decide_True by done.
    intros m Hm. destruct (decide (m ∈ Bs)) as [Hm'|Hm']; [|by rewrite H4, R4].
    apply list_elem_of_lookup in Hm' as [i Hi]. by rewrite (H3 i m Hi), (R3 i m Hi).
  - destruct (crash_late st d V Bs Hb) as (R1 & R2 & R3).
    destruct (recover_disk Hwk w _ st [] Hw Htn R1 R2) as (w' & E & H1 & H2 & _ & H4);
      [unfold nbuf, NBUF, MAXOPBLOCKS; cbn; lia|].
    exists w'. split_and!; try done. rewrite decide_True by apply Hin.
    intros m Hm. rewrite H4; [by apply R3|done|set_solver].
Qed.

(** C1: Crash safety.  Run commit on a transaction and take the list of the writes
    that it adds to the trace of the disk.  If the machine stops when any prefix of
    these writes has reached the disk, recovery at the next boot runs to its end,
    empties the log, and leaves on disk (outside the log area) exactly the state
    after the transaction if a header write is in the prefix, and exactly the
    state before it if not; and a commit that is not interrupted leaves the state
    after it. *)
Theorem commit_crash_atomic w V R d F (l : log) st Bs
  (C : cs w V R d F none []) (Hl : compc w = l) (Ho : log_ok l st Bs) (Hne : Bs <> [])
  (HR : forall n, n ∈ Bs -> 0 < R n) (HR2 : forall n, R n < 2 ^ 32 - 1) (HL : refs_log st R)
  (HF : (0 < F)%nat) (Hb : before_commit st d V Bs) :
  exists w1 all, commit w = Ok ((), w1) /\
    d_trace (ks_disk (data w1)) = rev all ++ d_trace d /\ agree st (disk_block (ks_disk (data w1))) V /\
    forall ws w2, ws `prefix_of` all -> rebooted w2 (dws d ws) st ->
      exists w', recover_from_log w2 = Ok ((), w') /\
        hdr_n (disk_block (ks_disk (data w')) st) = 0 /\
        (forall m, view (data w') m = disk_block (ks_disk (data w')) m) /\
        agree st (disk_block (ks_disk (data w'))) (if decide (st ∈ ws.*1) then V else disk_block d).
Proof.
  destruct (commit_ok Hwk w V R d F l st Bs) as (w1 & V' & F' & E & _ & _ & _ & C' & _); try done.
  pose proof (cs_disk _ _ _ _ _ _ _ C') as Ed.
  exists w1, (commit_writes st V Bs). rewrite Ed. split_and!; [done|apply dws_trace|by apply crash_late|].
  intros ws w2 Hp Hw. by apply (crash_recovered st d V Bs).
Qed.

(** Recovery from the disk that a prefix of the writes of a recovery leaves. *)
Lemma recovery_recovered st D Bs ws w : trans_ok st Bs -> recorded (disk_block D st) Bs ->
  length (disk_block D st) = Z.to_nat BSIZE -> ws `prefix_of` clear_writes st (disk_block D) Bs -> rebooted w (dws D ws) st ->
  exists w', recover_from_log w = Ok ((), w') /\
    hdr_n (disk_block (ks_disk (data w')) st) = 0 /\
    (forall i n, Bs !! i = Some n -> disk_block (ks_disk (data w')) n = disk_block D (st + Z.of_nat i + 1)) /\
    (forall m, ~ in_log st m -> m ∉ Bs -> disk_block (ks_disk (data w')) m = disk_block D m).
Proof.
  intros Ht Hr Hlen [Hp| ->]%clear_cases Hw; pose proof (trans_fit _ _ Ht) as Hfit.
  - pose proof (crash_recovery st D Bs ws Ht Hp) as Hsame.
    assert (Hst : disk_block (dws D ws) st = disk_block D st).
    { apply Hsame. eapply trans_not_log, start_in_log. done. }
    destruct (recover_disk Hwk w (dws D ws) st Bs Hw Ht) as (w' & E & H0 & _ & B3 & B4); rewrite ?Hst; try done.
    exists w'. split_and!; [done..| |].
    + intros i n Hi. rewrite (B3 i n Hi). apply Hsame. eapply trans_not_log; [done|].
      apply (log_block_in st Bs); [apply Ht|by eapply lookup_lt_Some].
    + intros m Hm Hin. by rewrite B4, Hsame.
  - destruct (clear_disk D st Bs Ht Hlen) as (N1 & N2 & N3 & N4).
    destruct (recover_disk Hwk w _ st [] Hw (trans_nil _ _ Ht) N1 N2) as (w' & E & H0 & _ & _ & B4);
      [unfold nbuf, NBUF, MAXOPBLOCKS; cbn; lia|].
    exists w'. split_and!; [done..| |].
    + intros i n Hi. rewrite <- (N3 i n Hi). apply B4; [|set_solver].
      apply (tr_home _ _ Ht). by eapply list_elem_of_lookup_2.
    + intros m Hm Hin. rewrite <- N4 by done. apply B4; [done|set_solver].
Qed.

(** C3: A crash during recovery does no harm.  Run recovery on a disk whose header
    records a transaction: it copies every logged block to its home, changes no
    other block outside the log and empties the log.  Take the list of the writes
    that it adds to the trace of the disk; if the machine stops when any prefix of
    them has reached the disk, the next recovery ends with the same disk (outside
    the log area) as the one that was not interrupted. *)
Theorem recovery_idempotent st D Bs w1
  (Ht : trans_ok st Bs) (Hr : recorded (disk_block D st) Bs)
  (Hlen : length (disk_block D st) = Z.to_nat BSIZE) (H1 : rebooted w1 D st) :
  exists w1' all, recover_from_log w1 = Ok ((), w1') /\
    d_trace (ks_disk (data w1')) = rev all ++ d_trace D /\
    hdr_n (disk_block (ks_disk (data w1')) st) = 0 /\
    (forall i n, Bs !! i = Some n -> disk_block (ks_disk (data w1')) n = disk_block D (st + Z.of_nat i + 1)) /\
    (forall m, ~ in_log st m -> m ∉ Bs -> disk_block (ks_disk (data w1')) m = disk_block D m) /\
    forall ws w2, ws `prefix_of` all -> rebooted w2 (dws D ws) st ->
      exists w2', recover_from_log w2 = Ok ((), w2') /\
        hdr_n (disk_block (ks_disk (data w2')) st) = 0 /\
        agree st (disk_block (ks_disk (data w2'))) (disk_block (ks_disk (data w1'))).
Proof.
  destruct H1 as [C Hl]. pose proof (trans_fit _ _ Ht) as Hfit.
  destruct (recover_ok Hwk w1 _ D nbuf st Bs C Hl Ht Hr Hfit) as (w1' & F' & E1 & _ & _ & _ & C' & _).
  destruct (recover_disk Hwk w1 D st Bs (conj C Hl) Ht Hr Hlen Hfit) as (w1'' & E1' & A1 & _ & A3 & A4).
  rewrite E1 in E1'. injection E1' as <-.
  exists w1', (clear_writes st (disk_block D) Bs). split_and!; [done| |done..|].
  { rewrite (cs_disk _ _ _ _ _ _ _ C'). apply dws_trace. }
  intros ws w2 Hp H2.
  destruct (recovery_recovered st D Bs ws w2) as (w2' & E2 & B1 & B3 & B4); try done.
  exists w2'. split_and!; [done..|]. intros m Hm. destruct (decide (m ∈ Bs)) as [Hin|Hin]; [|by rewrite A4, B4].
  apply list_elem_of_lookup in Hin as [i Hi]. by rewrite (A3 i m Hi), (B3 i m Hi).
Qed.

(** C39: Recovery drops a reference of every block it copies although, after a
    reboot, none was taken: the count of such a buffer ends at 2^32 - 1, so that
    the buffer is not a candidate for reuse. *)
Theorem recovery_unpins w D st Bs
  (Hw : rebooted w D st) (Ht : trans_ok st Bs) (Hr : recorded (disk_block D st) Bs)
  (Hfit : (length Bs < nbuf)%nat) :
  exists w', recover_from_log w = Ok ((), w') /\
    forall n, n ∈ Bs -> refs (data w') n = 2 ^ 32 - 1.
Proof.
  destruct Hw as [C Hl].
  destruct (recover_ok Hwk w _ D nbuf st Bs C Hl Ht Hr Hfit) as (w' & F' & E & _ & _ & _ & C' & _).
  exists w'. split; [done|]. intros n Hn. rewrite (cs_refs _ _ _ _ _ _ _ C').
  unfold unpinned. by rewrite firstn_all, decide_True.
Qed.
End Props.

(** ** A disk with one transaction *)

(** Log at block 2, a transaction that writes block 50. *)
Lemma ex_trans : trans_ok 2 [50].
Proof.
  split; [|apply NoDup_singleton|intros m ->%list_elem_of_singleton|]; unfold in_log, LOGSIZE, MAXOPBLOCKS; cbn; lia.
Qed.

Lemma ex_before : before_commit 2 ex_disk0 ex_view [50].
Proof.
  split; [apply ex_trans|reflexivity..|].
  intros m _ Hm. unfold ex_view. rewrite fupd_ne; [done|set_solver].
Qed.

Lemma ex_rebooted D : exists w, rebooted w D 2.
Proof.
  destruct (cs_boot D) as (w & C & L & _).
  exists (updc (Log 2 30 0 0 ROOTDEV (Logheader 0 (repeat 0 30))) w). split; [by apply cs_log|].
  rewrite compc_updc. by split_and!.
Qed.

(** The disk after a crash in the middle of that commit. *)
Definition ex_crashed : disk := dws ex_disk0 (logged_writes 2 ex_view [50]).

Lemma ex_recorded : recorded (disk_block ex_crashed 2) [50] /\
  length (disk_block ex_crashed 2) = Z.to_nat BSIZE.
Proof.
  destruct (crash_middle 2 ex_disk0 ex_view [50] [] ex_before (prefix_nil _)) as (H1 & H2 & _).
  rewrite app_nil_r in *. done.
Qed.

Lemma recovery_idempotent_witness : exists w1 w1', recover_from_log (VD := ex_disk) w1 = Ok ((), w1') /\
  disk_block (ks_disk (data w1')) 50 = disk_block ex_crashed 3 /\
  forall w2, rebooted w2 ex_crashed 2 -> exists w2', recover_from_log (VD := ex_disk) w2 = Ok ((), w2') /\
    agree 2 (disk_block (ks_disk (data w2'))) (disk_block (ks_disk (data w1'))).
Proof.
  destruct (ex_rebooted ex_crashed) as [w1 H1]. destruct ex_recorded as [R1 R2]. exists w1.
  destruct (recovery_idempotent (SC := ex_sched) (VD := ex_disk) ltac:(cbn; lia) 2 ex_crashed [50] w1
    ex_trans R1 R2 H1) as (w1' & all & E & _ & _ & H & _ & A).
  exists w1'. split_and!; [done|by apply (H 0%nat)|]. intros w2 H2.
  destruct (A [] w2 (prefix_nil _) H2) as (w2' & E2 & _ & A2). by exists w2'.
Defined.

Lemma recovery_unpins_witness : exists w w', recover_from_log (VD := ex_disk) w = Ok ((), w') /\
  refs (data w') 50 = 4294967295.
Proof.
  destruct (ex_rebooted ex_crashed) as [w Hw]. exists w.
  destruct (recovery_unpins (SC := ex_sched) (VD := ex_disk) ltac:(cbn; lia) w ex_crashed 2 [50] Hw ex_trans
    (proj1 ex_recorded)) as (w' & E & H); [unfold nbuf, NBUF, MAXOPBLOCKS; cbn; lia|].
  exists w'. split; [done|]. apply H. set_solver.
Defined.

(** A kernel that is about to commit that transaction. *)
Lemma ex_committing : exists w l, cs w ex_view (fupd (fun _ => 0) 50 1) ex_disk0 29 none [] /\
  compc w = l /\ log_ok l 2 [50].
Proof.
  destruct ex_changed as (w & b & C & L & Hf).
  destruct (log_write_ok w _ _ _ _ _ _ ex_log 2 [] b 50 C ltac:(set_solver) Hf L ex_log_ok) as
    (w1 & l1 & _ & _ & L1 & O1 & _ & _ & _ & C1); try (rewrite ?fupd_eq; cbn; unfold in_log, LOGSIZE, MAXOPBLOCKS; lia).
  destruct (cs_brelse w1 _ _ _ _ _ _ b 50 C1) as (w2 & _ & S2 & C2);
    [set_solver|intros E; unfold pinned in E; cbn in E; discriminate|].
  exists w2, l1. rewrite unhold_eq in C2. change (logged 50 []) with [50] in O1. split_and!.
  - eapply cs_ext; [exact C2|done| |done|intros i _ [[] _]].
    intros m. unfold pinned. rewrite decide_False by set_solver. unfold fupd. cbn. repeat case_decide; done.
  - by rewrite (cstep_log _ _ S2).
  - exact O1.
Qed.
Lemma ex_pin : (forall n, n ∈ [50] -> 0 < fupd (fun _ => 0) 50 1 n) /\
  (forall n, fupd (fun _ => 0) 50 1 n < 2 ^ 32 - 1) /\ refs_log 2 (fupd (fun _ => 0) 50 1).
Proof.
  split_and!.
  - intros n ->%list_elem_of_singleton. rewrite fupd_eq. lia.
  - intros n. unfold fupd. case_decide; lia.
  - intros m Hm. rewrite fupd_ne; [done|]. unfold in_log, LOGSIZE, MAXOPBLOCKS in Hm. lia.
Qed.

Lemma commit_correct_witness : exists w w', commit (VD := ex_disk) w = Ok ((), w') /\
  agree 2 (view (data w')) ex_view /\ refs (data w') 50 = 0 /\
  d_trace (ks_disk (data w')) = rev (commit_writes 2 ex_view [50]).
Proof.
  destruct ex_committing as (w & l & C & L & O). destruct ex_pin as (P1 & P2 & P3). exists w.
  destruct (commit_correct (SC := ex_sched) (VD := ex_disk) ltac:(cbn; lia) w ex_view (fupd (fun _ => 0) 50 1)
    ex_disk0 29 l 2 [50] C L O ltac:(done) P1 P2 P3 ltac:(lia)) as (w' & E & _ & _ & T & A & R).
  exists w'. split; [exact E|]. split; [exact A|]. split; [by rewrite R|]. rewrite T. apply app_nil_r.
Defined.

Lemma commit_crash_atomic_witness : exists w w1 all, commit (VD := ex_disk) w = Ok ((), w1) /\
  d_trace (ks_disk (data w1)) = rev all /\
  exists w2 w', rebooted w2 (dws ex_disk0 all) 2 /\ recover_from_log (VD := ex_disk) w2 = Ok ((), w') /\
    agree 2 (disk_block (ks_disk (data w'))) (if decide (2 ∈ all.*1) then ex_view else disk_block ex_disk0).
Proof.
  destruct ex_committing as (w & l & C & L & O). destruct ex_pin as (P1 & P2 & P3). exists w.
  destruct (commit_crash_atomic (SC := ex_sched) (VD := ex_disk) ltac:(cbn; lia) w ex_view (fupd (fun _ => 0) 50 1)
    ex_disk0 29 l 2 [50] C L O ltac:(done) P1 P2 P3 ltac:(lia) ex_before) as (w1 & all & E & T & _ & A).
  exists w1, all. split; [exact E|]. split; [rewrite T; apply app_nil_r|].
  destruct (ex_rebooted (dws ex_disk0 all)) as [w2 Hw]. exists w2.
  destruct (A all w2 (reflexivity _) Hw) as (w' & E' & _ & _ & A'). by exists w'.
Defined.
