(* ===== verification/FsOp.v ===== *)
(** * Whole file system operations

    begin_op opens a transaction, and the end_op of the only operation commits it:
    what the operation changed is on disk when end_op returns.  Closing the last
    descriptor of an unlinked file is such an operation, from the file table through
    the inode table to the blocks of the disk. *)
From stdpp Require Import prelude gmap strings.
From Stdlib Require Import ZArith Lia.
From S2P Require Import Prelude Memory CString Spinlock Riscv Kalloc Vm Uaccess Proc Bytes State Sleeplock Copy Pipe Console ConsoleSpec Bio BioView BioClient Log Fs File.
From S2P Require Import LogSpec LogOps FsTx FsAlloc FsInode Icache FsFile FsBmap FsWrite FsTrunc LogCrash.
Open Scope Z_scope.

(** No operation is under way, and the last one has been committed. *)
Record idle (w : world kstate) (V : Z -> blk) (d : disk) (st : Z) (k : nat) : Prop := {
  id_tx : tx w V d st 0 [] [] k [];
  id_out : log_outstanding (compc w) = 0;
  id_com : log_committing (compc w) = 0;
}.

(** What the bytes of a process depend on. *)
Record user_same (w w' : world kstate) : Prop := {
  su_mem : compc (T := pmem) w' = compc w;
  su_proc : c_proc (h_cpu (cur w')) = c_proc (h_cpu (cur w));
  su_procs : compc (T := proctab) w' = compc w;
}.

Section Op.
Context {SC : Sched} {VD : VirtioDisk} (Hwk : (0 < wakeups)%nat).
Implicit Types (w : world kstate).

Lemma trefs_none m : trefs [] [] m = 0.
Proof. unfold trefs, ind. by rewrite !decide_False by apply not_elem_of_nil. Qed.

Lemma begin_op_ok w V d st k : idle w V d st k ->
  exists w', begin_op w = Ok ((), w') /\ tx w' V d st (Z.min LOGSIZE (log_size (compc w) - 1)) [] [] k [] /\
    compc w' = set_outstanding 1 (compc w) /\ kframe w w' /\
    compc (T := icache) w' = compc w /\ compc (T := superblock) w' = compc w /\ compc (T := ftable) w' = compc w /\
    (forall i, unlocked_inode w i -> unlocked_inode w' i) /\ user_same w w'.
Proof.
  intros [[T1 T2 T3 T5 T6] Ho Hc]. pose proof (cs_quiet _ _ _ _ _ _ _ T1) as Hq.
  eexists. split; [apply begin_op_admit; [done|done|done|]|].
  { split; [done|]. rewrite (lo_n _ _ _ T3), Ho. cbn. unfold LOGSIZE, MAXOPBLOCKS. lia. }
  rewrite Ho. change (0 + 1) with 1. set (l := set_outstanding 1 (compc w)). set (w1 := updc l w).
  assert (K : kframe w (touch w1)) by (etrans; [|apply kframe_touch]; done).
  split_and!; try done.
  - split; [by apply cs_touch, cs_log|by eapply kframe_lock_free| | |done].
    + rewrite compc_touch. unfold w1. rewrite compc_updc. destruct T3. by split.
    + done.
  - intros i [U1 U2]. split; [by eapply kframe_lock_free|done].
  - split; [done|etrans; [apply c_proc_touch|done]|done].
Qed.

(** The header on disk records no transaction. *)
Definition log_clear (d : disk) (st : Z) : Prop :=
  hdr_n (disk_block d st) = 0 /\ length (disk_block d st) = Z.to_nat BSIZE.

(** The disk went from [d] to [d'] in one step as far as crashes go: whatever prefix of the
    writes in between has reached the disk when the machine stops, recovery gives (outside
    the log) all of [d'] if the header has been written, and [d] if not. *)
Definition atomically (st : Z) (d d' : disk) : Prop :=
  exists all, d_trace d' = rev all ++ d_trace d /\
    forall ws wr, ws `prefix_of` all -> rebooted wr (dws d ws) st ->
      exists wr', recover_from_log wr = Ok ((), wr') /\
        agree st (disk_block (ks_disk (data wr'))) (if decide (st ∈ ws.*1) then disk_block d' else disk_block d).

Lemma atomically_none d st Bs : log_clear d st -> trans_ok st Bs -> atomically st d d.
Proof.
  intros [H1 H2] Ht. exists []. split; [done|]. intros ws wr ->%prefix_nil_inv Hr.
  destruct (recover_disk Hwk wr d st [] Hr (trans_nil _ _ Ht)) as (w' & E & _ & _ & _ & A);
    [by split|done|apply (trans_fit st), (trans_nil _ _ Ht)|].
  exists w'. split; [done|]. intros m Hm. rewrite A by (done || set_solver). by case_decide.
Qed.
Lemma atomically_commit d st V Bs : before_commit st d V Bs ->
  let d' := dws d (commit_writes st V Bs) in atomically st d d' /\ log_clear d' st.
Proof.
  intros Hb d'. destruct (crash_late st d V Bs Hb) as ([R1 _] & R2 & R3). split; [|by split].
  exists (commit_writes st V Bs). split; [apply dws_trace|]. intros ws wr Hp Hr.
  destruct (crash_recovered Hwk st d V Bs ws wr Hb Hp Hr) as (w' & E & _ & _ & A). exists w'. split; [done|].
  intros m Hm. rewrite A by done. case_decide; [|done]. symmetry. by apply R3.
Qed.
(** The cache at the end of a transaction. *)
Lemma tx_before w V d st cap Bs k : tx w V d st cap Bs [] k [] -> log_clear d st -> before_commit st d V Bs.
Proof.
  intros [T1 T2 T3 T5 T6] [H1 H2]. assert (HC : forall m, m ∉ Bs -> V m = disk_block d m).
  { intros m Hm. apply (cs_clean _ _ _ _ _ _ _ T1). unfold trefs, ind. by rewrite !decide_False by (done || apply not_elem_of_nil). }
  assert (Hst : V st = disk_block d st) by (apply HC; by eapply home_ne_start).
  split; [by eapply log_ok_trans|done|done|by rewrite Hst|auto].
Qed.

(** After commit every block outside the log is on disk as readers see it. *)
Lemma commit_any w V d st cap Bs k : tx w V d st cap Bs [] k [] -> (0 < k)%nat ->
  exists w' V' d' k', commit w = Ok ((), w') /\ lstep w w' /\ compc w' = set_lh_n 0 (compc w) /\
    cs w' V' (trefs [] []) d' k' none [] /\ (0 < k')%nat /\ (forall m, ~ in_log st m -> V' m = V m) /\
    (log_clear d st -> atomically st d d' /\ log_clear d' st).
Proof.
  intros T Hk. pose proof T as [T1 T2 T3 T5 T6]. destruct (decide (Bs = [])) as [->|Hne].
  - exists w, V, d, k. split_and!; try done.
    + unfold commit. kdo (get_log_run w). by rewrite (lo_n _ _ _ T3).
    + destruct T3 as [_ _ L _ _ _ _ _ _ _]. destruct (compc (T := log) w) as [? ? ? ? ? [n b]]. cbn in L. by subst.
    + intros Hc. split; [|done]. eapply atomically_none; [done|by eapply log_ok_trans].
  - assert (HR : forall n, n ∈ Bs -> trefs Bs [] n = 1).
    { intros n Hn. unfold trefs, ind. rewrite decide_True, decide_False by (done || apply not_elem_of_nil). done. }
    destruct (commit_ok Hwk w V (trefs Bs []) d k (compc w) st Bs) as (w' & V' & F' & E & S & L & HF & C & HV); try done.
    + intros n Hn. rewrite HR by done. lia.
    + intros n. pose proof (trefs_range Bs [] n). lia.
    + intros m Hm. unfold trefs, ind. rewrite !decide_False; [done|apply not_elem_of_nil|].
      intros Hin. by destruct (lo_home _ _ _ T3 m Hin).
    + exists w', V', (dws d (commit_writes st V Bs)), F'. split_and!; try done;
        [|intros Hc; eapply atomically_commit, tx_before; done].
      refine (cs_ext _ _ _ _ _ _ _ _ _ _ _ C (fun _ => eq_refl) _ eq_refl (fun _ H => H)). intros m.
      rewrite trefs_none. unfold unpinned. rewrite firstn_all. case_decide as Hin.
      * by rewrite HR.
      * unfold trefs, ind. by rewrite !decide_False by (done || apply not_elem_of_nil).
Qed.

(** The last operation commits. *)
Lemma end_op_commit w V d st cap Bs k : tx w V d st cap Bs [] k [] -> (0 < k)%nat ->
  log_outstanding (compc w) = 1 -> log_committing (compc w) = 0 ->
  exists w' V' d' k', end_op w = Ok ((), w') /\ idle w' V' d' st k' /\ (0 < k')%nat /\ kframe w w' /\
    (forall m, ~ in_log st m -> disk_block d' m = V m) /\
    compc (T := icache) w' = compc w /\ compc (T := ftable) w' = compc w /\
    (log_clear d st -> atomically st d d' /\ log_clear d' st).
Proof.
  intros T Hk Ho Hc. pose proof (cs_quiet _ _ _ _ _ _ _ (tx_cs _ _ _ _ _ _ _ _ _ T)) as Hq.
  pose proof (tx_lk _ _ _ _ _ _ _ _ _ T) as Hf. unfold end_op. kacquire. kdo (get_log_run (acq L_log w)). knorm. rewrite Ho.
  change (1 - 1) with 0. kdo (upd_log_run (set_outstanding 0) (acq L_log w)). knorm.
  set (w0 := updc (set_outstanding 0 (compc w)) w). kdo (get_log_run (acq L_log w0)). knorm.
  unfold w0 at 1 2. rewrite compc_updc. cbn [set_outstanding log_committing log_outstanding]. rewrite Hc. cbn [negb Z.eqb].
  rewrite !bind_assoc. kdo (upd_log_run (set_committing 1) (acq L_log w0)). rewrite bind_mret. unfold w0. knorm.
  set (l1 := set_committing 1 (set_outstanding 0 (compc w))). krelease. set (w1 := touch (updc l1 w)).
  assert (K1 : kframe w w1) by (etrans; [|apply kframe_touch]; done).
  assert (T1 : tx w1 V d st 0 Bs [] k []).
  { destruct T as [T1 T2 T3 T5 T6]. split; [by apply cs_touch, cs_log|by eapply kframe_lock_free| |done|done].
    unfold w1. rewrite compc_touch, compc_updc. destruct T3. by split. }
  destruct (commit_any w1 V d st 0 Bs k T1 Hk) as (w2 & V2 & d2 & k2 & E2 & S2 & L2 & C2 & Hk2 & HV & HA). kdo E2.
  pose proof (fstep_kframe _ _ (lstep_fstep _ _ S2)) as K2. pose proof (cs_quiet _ _ _ _ _ _ _ C2) as Hq2.
  assert (Hf2 : lock_free L_log w2) by (eapply kframe_lock_free; [exact K2|apply T1]). kacquire.
  kdo (upd_log_run (set_committing 0) (acq L_log w2)). knorm. rewrite L2. set (l3 := set_committing 0 _). set (w3 := updc l3 w2).
  assert (Hq3 : quiet w3) by (unfold w3; eauto with xv6). assert (Hf3 : lock_free L_log w3) by (unfold w3; eauto with xv6).
  krun wakeup_run. rewrite touch_acq by eauto with xv6. rewrite release_acq by eauto with xv6.
  set (w4 := touch _). assert (A : apart w3 w4) by (etrans; [apply apart_woken|apply apart_touch]).
  assert (C4 : cs w4 V2 (trefs [] []) d2 k2 none []) by (eapply cs_apart; [exact A|]; by apply cs_log).
  assert (Hclean : forall m, V2 m = disk_block d2 m) by (intros m; apply (cs_clean _ _ _ _ _ _ _ C4), trefs_none).
  assert (K : kframe w w4) by (etrans; [exact K1|]; etrans; [exact K2|]; etrans; [|apply A]; done).
  exists w4, V2, d2, k2. split; [done|]. split; [|split_and!; try done].
  - split; [split; [done|eapply kframe_lock_free; [apply A|done]| |done|done]|done|done].
    change (compc w4) with l3. unfold l3. pose proof (log_ok_empty _ _ _ (tx_log _ _ _ _ _ _ _ _ _ T1)) as Ho1. destruct Ho1. by split.
  - intros m Hm. rewrite <- Hclean. by apply HV.
  - change (compc (T := icache) w4) with (compc (T := icache) w2). by rewrite (lstep_ic _ _ S2).
  - change (compc (T := ftable) w4) with (compc (T := ftable) w2). by rewrite (fk_ft _ _ (fs_keeps_lstep _ _ S2)).
Qed.
End Op.

(** ** Files on the disk *)

(** A block-wise view that is the same outside of the log has the same files. *)
Lemma outside_used V D sb st m : bitmap_ok sb st -> (forall n, ~ in_log st n -> D n = V n) -> 0 <= m < sb_size sb ->
  used D sb m = used V sb m.
Proof. intros Hb HD Hm. unfold used. by rewrite HD by by apply (bm_log _ _ Hb). Qed.
Lemma outside_dinode V D sb st j : inodes_ok sb st -> (forall n, ~ in_log st n -> D n = V n) -> 0 <= j < sb_ninodes sb ->
  dinode_at D sb j = dinode_at V sb j.
Proof. intros Hi HD Hj. unfold dinode_at. by rewrite HD by by apply (in_nolog _ _ Hi). Qed.
Lemma outside_file V D sb st x : bitmap_ok sb st -> (forall n, ~ in_log st n -> D n = V n) -> file_wf V sb st x ->
  file_wf D sb st x /\ forall bn, 0 <= bn < MAXFILE -> content D x bn = content V x bn.
Proof.
  intros Hb HD W. apply file_ext; [done|]. intros m Ho.
  destruct (owns_taken V sb st x (MAXFILE + 1) m W ltac:(lia) Ho) as [Hh Hu]. split; [apply HD, (hm_log _ _ _ Hh)|].
  rewrite (outside_used V D sb st) by (done || destruct Hh; lia). done.
Qed.

Section Close.
Context {SC : Sched} {VD : VirtioDisk} {UD : UartDev} (kend : Z).
Implicit Types (w : world kstate).

Lemma get_file_run i w : get_file i w = Ok (files (compc w) !!! i, w).
Proof. done. Qed.
Lemma upd_file_run f i w : (i < length (files (compc w)))%nat ->
  upd_file f i w = Ok ((), updc (Ftable (<[i := f (files (compc w) !!! i)]> (files (compc w)))) w).
Proof. intros Hi. rewrite <- list_alter_total by done. done. Qed.
Lemma apart_ft (t : ftable) w : apart w (updc t w).
Proof. split; try done. intros; by apply quiet_updc. Qed.

(** The file table's part of closing the last descriptor. *)
Lemma fileclose_last w i f j : cpu_ok w -> lock_free L_ftable w -> (i < length (files (compc w)))%nat ->
  files (compc w) !!! i = f -> f_ref f = 1 -> f_type f = FD_INODE -> f_ip f = Some j ->
  let w1 := touch (updc (Ftable (<[i := set_f_type FD_NONE (set_f_ref 0 f)]> (files (compc w)))) w) in
  fileclose kend i w = (begin_op ;; iput j ;; end_op) w1.
Proof.
  intros Hc Hl Hi Hf Hr Ht Hj w1. unfold fileclose. kacquire. kdo (get_file_run i (acq L_ftable w)). knorm. rewrite Hf, Hr. cbn [Z.ltb Z.compare Pos.compare Pos.compare_cont].
  assert (Hup : forall w' x g, files (compc w') = <[i := x]> (files (compc w)) ->
    upd_file g i w' = Ok ((), updc (Ftable (<[i := g x]> (files (compc w)))) w')).
  { intros w' x g E. rewrite upd_file_run by (by rewrite E, length_insert).
    by rewrite E, list_lookup_total_insert_eq, list_insert_insert_eq. }
  assert (H0 : files (compc (acq L_ftable w)) = <[i := f]> (files (compc w))).
  { rewrite compc_acq, list_insert_id; [done|]. rewrite <- Hf. by apply list_lookup_lookup_total_lt. }
  kdo (Hup _ f (fun f => set_f_ref (f_ref f - 1) f) H0). rewrite Hr. change (1 - 1) with 0. set (w2 := updc _ _).
  kdo (get_file_run i w2). assert (E2 : files (compc w2) = <[i := set_f_ref 0 f]> (files (compc w))) by done.
  rewrite E2, list_lookup_total_insert_eq by done. cbn [set_f_ref f_ref f_type f_ip Z.gtb Z.compare]. rewrite Ht, Hj.
  kdo (Hup w2 _ (set_f_ref 0) E2). set (w3 := updc _ w2). kdo (Hup w3 (set_f_ref 0 f) (set_f_type FD_NONE) eq_refl).
  unfold w3, w2. knorm. krelease. reflexivity.
Qed.

(** C7: Closing the last descriptor of a file that has no links: the file table gives up its
    entry, and within one transaction, committed when fileclose returns, the file is gone
    from the disk: a machine that stops during the commit finds it, after recovery, either
    untouched or gone.  On the disk itself exactly the blocks of the file have become free, its
    inode has type 0, the other inodes are as they were, and every other file has the
    blocks and the contents it had.  The log is ready for the next operation. *)
Theorem fileclose_frees w V d st k (sb : superblock) i f j ip
  (Hwk : (0 < wakeups)%nat) (Hid : idle w V d st k) (Hlog : 3 < log_size (compc w)) (Hk : (4 <= k)%nat)
  (Hsb : compc w = sb) (Hd : disk_ok sb st)
  (Hi : (i < length (files (compc w)))%nat) (Hf : files (compc w) !!! i = f) (Hfr : f_ref f = 1)
  (Hft : f_type f = FD_INODE) (Hfi : f_ip f = Some j) (Hfl : lock_free L_ftable w)
  (Hip : inodes (compc w) !!! j = ip) (Hj : (j < length (inodes (compc w)))%nat) (Hv : file_inv V sb st ip)
  (Hnum : 0 <= i_inum ip < sb_ninodes sb) (Hok : dinode_ok (dinode_of ip))
  (Hl : lock_free L_icache w) (Hu : unlocked_inode w j)
  (Hlast : i_ref ip = 1 /\ i_valid ip <> 0 /\ i_nlink ip = 0) :
  exists w' V' d' k', fileclose kend i w = Ok ((), w') /\ idle w' V' d' st k' /\
    f_ref (files (compc w') !!! i) = 0 /\ i_ref (inodes (compc w') !!! j) = 0 /\
    let D := disk_block d' in
    (forall m, 0 <= m < sb_size sb -> (used D sb m = true <-> used V sb m = true /\ ~ owns V ip m)) /\
    d_type (dinode_at D sb (i_inum ip)) = 0 /\
    (forall n, 0 <= n < sb_ninodes sb -> n <> i_inum ip -> dinode_at D sb n = dinode_at V sb n) /\
    (forall x, file_wf V sb st x -> apart_from V ip x ->
       file_wf D sb st x /\ forall bn, 0 <= bn < MAXFILE -> content D x bn = content V x bn) /\
    (log_clear d st -> atomically st d d' /\ log_clear d' st).
Proof.
  pose proof (cs_quiet _ _ _ _ _ _ _ (tx_cs _ _ _ _ _ _ _ _ _ (id_tx _ _ _ _ _ Hid))) as Hq.
  rewrite (fileclose_last w i f j) by (done || apply Hq). set (t := Ftable _). set (w1 := touch (updc t w)).
  assert (A1 : apart w w1) by (etrans; [apply apart_ft|apply apart_touch]). pose proof (ap_frame _ _ A1) as F1.
  assert (Hid1 : idle w1 V d st k) by (destruct Hid as [T O C]; split; [by eapply tx_apart|done|done]).
  destruct (begin_op_ok Hwk w1 V d st k Hid1) as (w2 & E2 & T2 & L2 & F2 & I2 & B2 & G2 & U2 & _). kdo E2.
  assert (F12 : kframe w w2) by by etrans.
  change (compc (T := icache) w1) with (compc (T := icache) w) in I2. change (compc (T := superblock) w1) with (compc (T := superblock) w) in B2.
  change (compc (T := log) w1) with (compc (T := log) w) in T2, L2. change (compc (T := ftable) w1) with t in G2.
  destruct (iput_free_ok Hwk w2 V d st (Z.min LOGSIZE (log_size (compc w) - 1)) [] k sb j ip T2)
    as (w3 & V3 & Bs3 & k3 & y & E3 & T3 & R3 & D3 & I3 & Y1 & Y2 & U3 & B3 & F3 & K3);
    rewrite ?I2, ?B2; try done; [by eapply kframe_lock_free| |lia|unfold LOGSIZE, MAXOPBLOCKS; cbn [length]; lia|].
  { apply U2. destruct Hu as [H1 H2]. split; [by eapply kframe_lock_free|done]. }
  kdo E3. pose proof (fk_log _ _ B3) as L3. rewrite L2 in L3.
  destruct (end_op_commit Hwk w3 V3 d st _ Bs3 k3 T3) as (w4 & V4 & d4 & k4 & E4 & Hid4 & _ & _ & H4 & I4 & G4 & A4);
    [lia|by rewrite L3|rewrite L3; apply (id_com _ _ _ _ _ Hid)|].
  exists w4, V4, d4, k4. split; [done|]. split; [done|].
  split; [rewrite G4, (fk_ft _ _ B3), G2; cbn [t files]; by rewrite list_lookup_total_insert_eq|].
  split; [rewrite I4, I3, I2; by rewrite list_lookup_total_insert_eq|].
  cbv zeta. split; [|split; [|split; [|split]]]; [| | | |exact A4].
  - intros m Hm. rewrite (outside_used V3 _ sb st) by (done || apply Hd). by apply R3.
  - by rewrite (outside_dinode V3 _ sb st) by (done || apply Hd).
  - intros n Hn Hne. rewrite (outside_dinode V3 _ sb st) by (done || apply Hd). by apply R3.
  - intros x Hx Ha. destruct (released_other sb st V ip V3 x R3 Hx Ha) as [W C].
    destruct (outside_file V3 (disk_block d4) sb st x (do_bm _ _ Hd) H4 W) as [W' C']. split; [done|].
    intros bn Hbn. by rewrite C', C.
Qed.
End Close.

(** ** The only descriptor of an unlinked file *)

Definition ex_open : file := File FD_INODE 1 1 1 0 (Some 0%nat) 0 0.
Definition ex_ft : ftable := Ftable (<[2%nat := ex_open]> (repeat file0 100)).

(** Nothing is under way on the disk [D]; [ip] is in entry 0 of the inode table. *)
Lemma ex_idle (D : disk) (ip : inode) : exists w, idle w (disk_block D) D 2 nbuf /\ log_size (compc w) = 30 /\ compc w = ex_sb /\
  compc w = Icache (<[0%nat := ip]> (repeat inode0 50)) /\ compc w = ex_ft /\
  unlocked_inode w 0 /\ lock_free L_icache w /\ lock_free L_ftable w.
Proof.
  destruct (cs_boot D) as (w0 & C0 & _ & Hf & Hf2 & Hf4 & Hf3).
  set (w1 := updc ex_sb (updc (set_outstanding 0 ex_log) w0)).
  set (w2 := updc (<[L_inode 0 := Sleeplock 0 "inode" 0]> (compc (T := sltab) w1)) w1).
  set (c := Icache (<[0%nat := ip]> (repeat inode0 50))).
  exists (updc ex_ft (updc c w2)).
  assert (C1 : cs w1 (disk_block D) (trefs [] []) D nbuf none []).
  { apply cs_sb, cs_log. refine (cs_ext _ _ _ _ _ _ _ _ _ _ _ C0 (fun _ => eq_refl) _ eq_refl (fun _ H => H)).
    intros m. by rewrite trefs_none. }
  assert (A : apart w1 (updc ex_ft (updc c w2))) by (etrans; [apply apart_sl|]; etrans; [apply apart_ic|apply apart_ft]).
  split; [|split_and!; try done; [|eauto with xv6..]].
  - split; [|done|done]. eapply tx_apart; [exact A|]. split; [done|unfold w1; eauto with xv6| |done|done].
    change (compc (T := log) w1) with (set_outstanding 0 ex_log). destruct ex_log_ok. by split.
  - split; [do 5 apply lock_free_updc; apply Hf3; lia|]. change (sl_locked (compc (T := sltab) w2 !!! L_inode 0) = 0).
    unfold w2. rewrite compc_updc. by rewrite lookup_total_insert_eq.
Qed.

Lemma fileclose_frees_witness : exists w w' d', fileclose (SC := ex_sched) (VD := ex_disk) 0 2 w = Ok ((), w') /\
  used (disk_block ex_tdisk) ex_sb 62 = true /\ ks_disk (data w') = d' /\ used (disk_block d') ex_sb 62 = false /\
  d_type (dinode_at (disk_block d') ex_sb 5) = 0.
Proof.
  destruct (ex_idle ex_tdisk ex_gone) as (w & Hid & Hsz & Hsb & Hic & Hft & Hu & Hl & Hfl). exists w.
  destruct (fileclose_frees (SC := ex_sched) (VD := ex_disk) 0 w _ _ _ _ ex_sb 2 ex_open 0 ex_gone
    ltac:(cbn; lia) Hid ltac:(rewrite Hsz; lia) ltac:(unfold nbuf, NBUF, MAXOPBLOCKS; cbn; lia) Hsb ex_disk_ok
    ltac:(rewrite Hft; cbn; lia) ltac:(rewrite Hft; reflexivity) eq_refl eq_refl eq_refl Hfl
    ltac:(rewrite Hic; reflexivity) ltac:(rewrite Hic; cbn; lia) ex_gone_inv ltac:(cbn; lia) ex_gone_dinode Hl Hu ltac:(by split_and!))
    as (w' & V' & d' & k' & E & Hid' & _ & _ & U & D & _).
  exists w', d'. split; [exact E|]. split; [by vm_compute|].
  split; [apply (cs_disk _ _ _ _ _ _ _ (tx_cs _ _ _ _ _ _ _ _ _ (id_tx _ _ _ _ _ Hid')))|]. split; [|exact D].
  apply not_true_iff_false. rewrite U by (change (sb_size ex_sb) with 1000; lia). intros [_ Hn]. apply Hn.
  split; [done|]. exists 12. split; [by change MAXFILE with 268|]. by apply ex_gone_slots.
Defined.

(** ** Writing to an open file *)

Section Write.
Context {SC : Sched} {VD : VirtioDisk} {UD : UartDev} (Hwk : (0 < wakeups)%nat).
Implicit Types (w : world kstate).

Lemma source_same w w' src bs : user_same w w' -> source w src bs -> source w' src bs.
Proof. intros [E1 E2 E3]. destruct src; [|done]. unfold source. setoid_rewrite E1. setoid_rewrite E2. by setoid_rewrite E3. Qed.

(** ilock of an inode that is in memory. *)
Lemma ilock_valid w j : quiet w -> unlocked_inode w j -> 1 <= i_ref (inodes (compc w) !!! j) -> i_valid (inodes (compc w) !!! j) <> 0 ->
  exists w', ilock (Some j) w = Ok ((), w') /\ apart w w' /\ holds_inode w' j /\ compc (T := icache) w' = compc w /\
    fs_keeps w w' /\ user_same w w'.
Proof.
  intros Hq [U1 U2] Hr Hv. set (w1 := touch (updc (<[L_inode j := Sleeplock 1 (sl_name (compc (T := sltab) w !!! L_inode j)) (cur_pid w)]>
    (compc (T := sltab) w)) w)). exists w1. split_and!; try done.
  - unfold ilock. kdo (get_inode_run j w). rewrite (proj2 (Z.ltb_ge _ _)) by lia.
    kdo (acquiresleep_run (L_inode j) w Hq U1 I Hwk U2). fold w1. kdo (get_inode_run j w1).
    change (compc (T := icache) w1) with (compc (T := icache) w). by rewrite (proj2 (Z.eqb_neq _ _) Hv).
  - etrans; [apply apart_sl|apply apart_touch].
  - unfold holds_inode. change (compc (T := sltab) w1) with (<[L_inode j := Sleeplock 1 (sl_name (compc (T := sltab) w !!! L_inode j)) (cur_pid w)]> (compc (T := sltab) w)).
    rewrite lookup_total_insert_eq. split; [done|]. unfold w1. by rewrite cur_pid_touch, cur_pid_updc.
  - by apply fs_keeps_same.
  - split; [done|etrans; [apply c_proc_touch|done]|done].
Qed.
Lemma iunlock_keeps w j : quiet w -> lock_free (L_inode j) w -> lock_free L_icache w -> holds_inode w j ->
  1 <= i_ref (inodes (compc w) !!! j) ->
  exists w', iunlock (Some j) w = Ok ((), w') /\ apart w w' /\ compc (T := icache) w' = compc w /\ fs_keeps w w'.
Proof.
  intros Hq Hf Hl [H1 H2] Hr. unfold iunlock. kdo (holdingsleep_run (L_inode j) w Hq Hf I). kdo (get_inode_run j (touch w)).
  rewrite compc_touch. rewrite (proj2 (Z.eqb_neq _ _) H1), (proj2 (Z.eqb_eq _ _) H2), (proj2 (Z.ltb_ge _ _)) by lia. cbn [negb andb orb Z.eqb].
  destruct (releasesleep_ok (touch w) j) as (w' & E & A & _ & _ & I' & B); [eauto with xv6..|].
  exists w'. split; [done|]. split; [etrans; [apply apart_touch|done]|]. split; [done|]. etrans; [|exact B]. by apply fs_keeps_same.
Qed.

Lemma holds_fstep w w' j : fstep w w' -> holds_inode w j -> holds_inode w' j.
Proof. intros S [H1 H2]. apply (lstep_holds_inode _ _ _ S). by split. Qed.

(** An operation on one inode begins and ends. *)
Lemma op_lock w V d st k j : idle w V d st k -> unlocked_inode w j -> 1 <= i_ref (inodes (compc w) !!! j) ->
  i_valid (inodes (compc w) !!! j) <> 0 ->
  exists w1 w2, begin_op w = Ok ((), w1) /\ ilock (Some j) w1 = Ok ((), w2) /\
    tx w2 V d st (Z.min LOGSIZE (log_size (compc w) - 1)) [] [] k [] /\ holds_inode w2 j /\ kframe w w2 /\ user_same w w2 /\
    compc w2 = with_header (log_lh (compc w2)) (set_outstanding 1 (compc w)) /\
    compc (T := icache) w2 = compc w /\ compc (T := superblock) w2 = compc w /\
    compc (T := ftable) w1 = compc w /\ compc (T := ftable) w2 = compc w.
Proof.
  intros Hid Hu Hr Hv. destruct (begin_op_ok Hwk w V d st k Hid) as (w1 & E1 & T1 & L1 & F1 & I1 & B1 & G1 & U1 & S1).
  destruct (ilock_valid w1 j) as (w2 & E2 & A2 & H2 & I2 & B2 & S2);
    [apply (cs_quiet _ _ _ _ _ _ _ (tx_cs _ _ _ _ _ _ _ _ _ T1))|by apply U1|by rewrite I1|by rewrite I1|].
  exists w1, w2. split; [done|]. split; [done|]. split; [by eapply tx_apart|]. split; [done|].
  split; [etrans; [exact F1|apply A2]|]. split; [destruct S1, S2; split; congruence|].
  split; [rewrite <- L1; apply B2|]. split; [congruence|]. split; [by rewrite (fk_sb _ _ B2)|]. split; [done|].
  by rewrite (fk_ft _ _ B2).
Qed.
Lemma unlock_op w V d st cap Bs k j : tx w V d st cap Bs [] k [] -> (0 < k)%nat ->
  log_outstanding (compc w) = 1 -> log_committing (compc w) = 0 ->
  lock_free (L_inode j) w -> lock_free L_icache w -> holds_inode w j -> 1 <= i_ref (inodes (compc w) !!! j) ->
  exists w1 w2 V' d' k', iunlock (Some j) w = Ok ((), w1) /\ end_op w1 = Ok ((), w2) /\ idle w2 V' d' st k' /\
    (forall m, ~ in_log st m -> disk_block d' m = V m) /\
    compc (T := icache) w2 = compc w /\ compc (T := ftable) w2 = compc w /\
    (log_clear d st -> atomically st d d' /\ log_clear d' st).
Proof.
  intros T Hk Ho Hc Hf Hl Hh Hr.
  destruct (iunlock_keeps w j) as (w1 & E1 & A1 & I1 & B1); try done; [apply (cs_quiet _ _ _ _ _ _ _ (tx_cs _ _ _ _ _ _ _ _ _ T))|].
  pose proof (tx_apart _ _ _ _ _ _ _ _ _ _ A1 T) as T1. pose proof (fk_log _ _ B1) as L1.
  destruct (end_op_commit Hwk w1 V d st _ Bs k T1) as (w2 & V2 & d2 & k2 & E2 & Hid2 & _ & _ & H2 & I2 & G2 & HA);
    [done|by rewrite L1|by rewrite L1|].
  exists w1, w2, V2, d2, k2. split_and!; try done; [congruence|]. by rewrite G2, (fk_ft _ _ B1).
Qed.

(** One round of the loop of filewrite, for at most [write_max] bytes. *)
Lemma filewrite_round w V d st k sb fi f j ip addr bs (n := Z.of_nat (length bs)) :
  idle w V d st k -> 10 < log_size (compc w) -> (10 <= k)%nat -> compc w = sb -> disk_ok sb st ->
  (fi < length (files (compc w)))%nat -> files (compc w) !!! fi = f -> f_ip f = Some j ->
  inodes (compc w) !!! j = ip -> (j < length (inodes (compc w)))%nat -> file_inv V sb st ip ->
  0 <= i_inum ip < sb_ninodes sb -> dinode_ok (dinode_of ip) -> i_size ip <= MAXFILE * BSIZE ->
  1 <= i_ref ip -> i_valid ip <> 0 -> lock_free L_icache w -> unlocked_inode w j ->
  0 <= addr < 2 ^ 64 -> source w (S_user addr) bs -> 0 < n <= write_max -> 0 <= f_off f <= i_size ip ->
  f_off f + n <= MAXFILE * BSIZE -> (8 <= free_count V sb)%nat ->
  exists w' V' d' k' ip' V2, filewrite_body fi addr n 0 w = Ok (inl n, w') /\ idle w' V' d' st k' /\
    files (compc w') = <[fi := set_f_off (f_off f + n) f]> (files (compc w)) /\
    inodes (compc w') = <[j := ip']> (inodes (compc w)) /\
    written sb st V ip (f_off f) bs V2 ip' /\ (forall m, ~ in_log st m -> disk_block d' m = V2 m) /\
    (log_clear d st -> atomically st d d' /\ log_clear d' st).
Proof.
  intros Hid Hlog Hk Hsb Hd Hfi Hf Hfj Hip Hj Hv Hnum Hok Hsz Hr Hvl Hl Hu Ha Hs Hn Hoff Hend Hfree.
  unfold filewrite_body. rewrite (proj2 (Z.ltb_lt 0 n)) by lia. rewrite Z.sub_0_r, Z.gtb_ltb, (proj2 (Z.ltb_ge _ _)) by lia.
  destruct (op_lock w V d st k j) as (w1 & w2 & E1 & E2 & T2 & H2 & F2 & S2 & L2 & I2 & B2 & G1 & G2); rewrite ?Hip; try done.
  kdo E1. kdo (get_file_run fi w1). rewrite G1, Hf, Hfj. kdo E2. kdo (get_file_run fi w2). rewrite G2, Hf, Hfj.
  cbn [deref]. rewrite bind_mret, Z.add_0_r, u64_id by done.
  destruct (writei_ok Hwk w2 V d st _ [] k sb j ip (S_user addr) (f_off f) bs T2) as (w3 & V3 & ip3 & Bs3 & k3 & E3 & S3 & I3 & T3 & N3 & K3 & W3);
    try done; try lia; rewrite ?I2; try done;
    [by rewrite B2|by eapply source_same|change MAXOPBLOCKS with 10; change LOGSIZE with 30; cbn [length]; lia|].
  fold n in E3. kdo E3. rewrite I2 in I3. rewrite Z.gtb_ltb, (proj2 (Z.ltb_lt 0 n)) by lia.
  pose proof (fs_keeps_fstep _ _ S3) as B3. assert (G3 : files (compc w3) = files (compc w)) by by rewrite (fk_ft _ _ B3), G2.
  assert (L3 := fk_log _ _ B3). rewrite L2 in L3.
  kdo (upd_file_run (fun f => set_f_off (u32 (f_off f + n)) f) fi w3 ltac:(by rewrite G3)).
  rewrite G3, Hf, u32_id by (change (MAXFILE * BSIZE) with 274432 in Hend; lia). set (t := Ftable _). set (w4 := updc t w3).
  assert (T4 : tx w4 V3 d st _ Bs3 [] k3 []) by (eapply tx_apart; [apply apart_ft|exact T3]).
  assert (F4 : kframe w w4) by (etrans; [exact F2|]; etrans; [exact (fstep_kframe _ _ S3)|]; done).
  pose proof (wn_inode _ _ _ _ _ _ _ _ W3) as Hsame. unfold same_inode in Hsame.
  destruct (unlock_op w4 V3 d st _ Bs3 k3 j T4) as (w5 & w6 & V6 & d6 & k6 & E5 & E6 & Hid6 & H6 & I6 & G6 & A6);
    [cbn in N3, K3; lia|exact (f_equal log_outstanding L3)|etrans; [exact (f_equal log_committing L3)|apply (id_com _ _ _ _ _ Hid)]
    |eapply kframe_lock_free; [exact F4|apply Hu]|by eapply kframe_lock_free|exact (holds_fstep _ _ _ S3 H2)| |].
  { change (compc (T := icache) w4) with (compc (T := icache) w3). rewrite I3, list_lookup_total_insert_eq, Hsame by done. exact Hr. }
  kdo E5. kdo E6. rewrite (proj2 (Z.ltb_ge n 0)), Z.eqb_refl by lia. cbn [negb]. rewrite Z.add_0_l.
  exists w6, V6, d6, k6, ip3, V3. split_and!; try done; [by rewrite G6|by rewrite I6].
Qed.
End Write.

(** The bytes of a file on the disk. *)
Lemma outside_bytes V D sb st x off n : (forall m, ~ in_log st m -> D m = V m) -> file_inv V sb st x -> file_ok V x ->
  0 <= off -> off + n <= i_size x -> file_bytes D x off n = file_bytes V x off n.
Proof.
  intros HD Hv [_ F2 F3 _] Ho Hn. assert (HB : BSIZE = 1024) by done. assert (HM : MAXFILE = 268) by done.
  assert (HD1 : forall m, owns V x m -> D m = V m).
  { intros m Hm. apply HD, (hm_log sb), (owns_taken V sb st x (MAXFILE + 1) m (fv_wf _ _ _ _ Hv) ltac:(lia) Hm). }
  unfold file_bytes. apply list_fmap_ext. intros a p Hp. apply lookup_seqZ in Hp as [-> Ha]. set (p := off + Z.of_nat a).
  pose proof (Z.div_mod p BSIZE ltac:(lia)). pose proof (Z.mod_pos_bound p BSIZE ltac:(lia)).
  pose proof (Z.div_pos p BSIZE ltac:(lia) ltac:(lia)). pose proof (F3 (p / BSIZE) ltac:(lia) ltac:(lia)) as Hb.
  assert (Hs : is_slot (p / BSIZE)) by (unfold is_slot; lia).
  unfold file_byte. rewrite <- !slot_block, (slot_ext V) in * by (done || lia). rewrite HD1; [done|]. apply owns_slot; [done|lia].
Qed.

Section Durable.
Context {SC : Sched} {VD : VirtioDisk} {UD : UartDev}.

(** C6: A write of at most 3072 bytes to an open file is one transaction: if the machine
    stops at any point of the writes to the disk that filewrite makes, the recovered disk
    is, outside the log, exactly the one before the call or exactly the one that filewrite
    leaves.  When filewrite returns, the write is on the disk: there the file has the bytes from user memory at
    the offset of the descriptor, its other bytes are as before, and the inode is the one
    in memory, with its new size.  The offset has moved on; the other inodes and
    the contents of the other files are as before, and the log is ready for the next
    operation. *)
Theorem filewrite_durable w V d st k (sb : superblock) fi f j ip addr bs (n := Z.of_nat (length bs))
  (Hwk : (0 < wakeups)%nat) (Hid : idle w V d st k) (Hlog : 10 < log_size (compc w)) (Hk : (10 <= k)%nat)
  (Hsb : compc w = sb) (Hd : disk_ok sb st)
  (Hfi : (fi < length (files (compc w)))%nat) (Hf : files (compc w) !!! fi = f) (Hft : f_type f = FD_INODE)
  (Hfw : f_writable f <> 0) (Hfj : f_ip f = Some j) (Hoff : 0 <= f_off f <= i_size ip)
  (Hip : inodes (compc w) !!! j = ip) (Hj : (j < length (inodes (compc w)))%nat) (Hr : 1 <= i_ref ip) (Hvl : i_valid ip <> 0)
  (Hv : file_inv V sb st ip) (Hfile : file_ok V ip) (Hnum : 0 <= i_inum ip < sb_ninodes sb) (Hok : dinode_ok (dinode_of ip))
  (Hl : lock_free L_icache w) (Hu : unlocked_inode w j)
  (Ha : 0 <= addr < 2 ^ 64) (Hs : source w (S_user addr) bs) (Hn : 0 < n <= 3072) (Hclear : log_clear d st)
  (Hend : f_off f + n <= MAXFILE * BSIZE) (Hfree : (8 <= free_count V sb)%nat) :
  exists w' V' d' k' ip', filewrite fi addr n w = Ok (n, w') /\ idle w' V' d' st k' /\
    atomically st d d' /\ log_clear d' st /\
    f_off (files (compc w') !!! fi) = f_off f + n /\ inodes (compc w') !!! j = ip' /\
    let D := disk_block d' in
    dinode_at D sb (i_inum ip) = dinode_of ip' /\ i_size ip' = Z.max (i_size ip) (f_off f + n) /\
    file_bytes D ip' (f_off f) n = bs /\
    (forall x, 0 <= x < i_size ip -> ~ (f_off f <= x < f_off f + n) -> file_bytes D ip' x 1 = file_bytes V ip x 1) /\
    (forall q, 0 <= q < sb_ninodes sb -> q <> i_inum ip -> dinode_at D sb q = dinode_at V sb q) /\
    (forall x, file_wf V sb st x -> apart_from V ip x -> forall bn, 0 <= bn < MAXFILE -> content D x bn = content V x bn).
Proof.
  destruct (filewrite_round Hwk w V d st k sb fi f j ip addr bs) as (w' & V' & d' & k' & ip' & V2 & E & Hid' & G & I' & W & HD & HA); try done;
    [apply Hfile|].
  fold n in E, G. destruct (written_read _ _ _ _ _ _ _ _ W Hd Hfile Hoff Hend) as (R1 & R2 & R3). fold n in R2, R3.
  pose proof W as [N1 _ N2 _ _ _ N6 N7 N8]. fold n in N2.
  exists w', V', d', k', ip'. split_and!.
  - unfold filewrite. kdo (get_file_run fi w). rewrite Hf, Hft, (proj2 (Z.eqb_neq _ _) Hfw). rewrite (bind_Ok _ _ _ n w'); [by rewrite Z.eqb_refl|].
    rewrite (loop_next _ _ _ _ _ _ E). apply loop_exit. unfold filewrite_body. by rewrite Z.ltb_irrefl.
  - done.
  - by apply HA.
  - by apply HA.
  - rewrite G. by rewrite list_lookup_total_insert_eq.
  - rewrite I'. by rewrite list_lookup_total_insert_eq.
  - cbv zeta. split_and!; [|done|..].
    + rewrite (outside_dinode V2 _ sb st) by (done || apply Hd). apply N6. intros ->. cbn in n. lia.
    + rewrite (outside_bytes V2 _ sb st) by (done || lia). done.
    + intros x Hx Hout. rewrite (outside_bytes V2 _ sb st) by (done || lia). unfold file_bytes. rewrite (seqZ_cons x 1) by lia. cbn. by rewrite R3.
    + intros q Hq Hne. rewrite (outside_dinode V2 _ sb st) by (done || apply Hd). by apply N7.
    + intros x Hx Hap. apply content_ext. intros m Ho. pose proof (owns_taken V sb st x (MAXFILE + 1) m Hx ltac:(lia) Ho) as Ht.
      rewrite HD by apply (hm_log _ _ _ (proj1 Ht)). apply N8; [done|]. intros s Hsl Es. apply (Hap m); [|done].
      rewrite <- Es. apply owns_slot; [done|]. rewrite Es. apply Ho.
Qed.
End Durable.

(** ** Eight bytes at address 5000 of the process *)

Definition ex_bytes : list Z := user_bytes us_mem us_tree 5000 8.

Lemma ex_source w p : quiet w -> runs w p -> source (user_world p w) (S_user 5000) ex_bytes.
Proof.
  intros Q P. destruct (user_world_ok w p Q P) as [A Hpt]. exists p, (vm_page 4), us_tree.
  change (Z.of_nat (length ex_bytes)) with 8. split; [apply P|]. split; [done|]. split; [lia|]. split; [lia|]. split; [exact Hpt|].
  split; [|done]. intros i Hi. eexists. apply us_addr. exact Hi.
Qed.

Lemma filewrite_durable_witness : exists w w' d' ip', filewrite (SC := ex_sched) (VD := ex_disk) (UD := ex_uart) 2 5000 8 w = Ok (8, w') /\
  ks_disk (data w') = d' /\ file_bytes (disk_block d') ip' 0 8 = ex_bytes /\
  dinode_at (disk_block d') ex_sb 5 = dinode_of ip' /\ i_size ip' = 8 /\
  atomically (SC := ex_sched) (VD := ex_disk) 2 ex_fsdisk d'.
Proof.
  destruct (ex_idle ex_fsdisk ex_new) as (w & [T O C] & Hsz & Hsb & Hic & Hft & Hu & Hl & Hfl).
  pose proof (cs_quiet _ _ _ _ _ _ _ (tx_cs _ _ _ _ _ _ _ _ _ T)) as Q. pose proof Q as [_ [p P] _].
  destruct (user_world_ok w p Q P) as [A _]. exists (user_world p w).
  assert (Hu' : unlocked_inode (user_world p w) 0) by (destruct Hu as [U1 U2]; split; [eapply kframe_lock_free; [apply A|done]|exact U2]).
  destruct (filewrite_durable (SC := ex_sched) (VD := ex_disk) (UD := ex_uart) (user_world p w) (disk_block ex_fsdisk) ex_fsdisk 2 nbuf ex_sb 2 ex_open 0 ex_new 5000 ex_bytes
    ltac:(cbn; lia) (Build_idle _ _ _ _ _ (tx_apart _ _ _ _ _ _ _ _ _ _ A T) O C) ltac:(change (compc (T := log) (user_world p w)) with (compc (T := log) w); rewrite Hsz; lia)
    ltac:(unfold nbuf, NBUF, MAXOPBLOCKS; cbn; lia) Hsb ex_disk_ok
    ltac:(change (compc (T := ftable) (user_world p w)) with (compc (T := ftable) w); rewrite Hft; cbn; lia)
    ltac:(change (compc (T := ftable) (user_world p w)) with (compc (T := ftable) w); rewrite Hft; reflexivity) eq_refl ltac:(discriminate) eq_refl ltac:(cbn; lia)
    ltac:(change (compc (T := icache) (user_world p w)) with (compc (T := icache) w); rewrite Hic; reflexivity)
    ltac:(change (compc (T := icache) (user_world p w)) with (compc (T := icache) w); rewrite Hic; cbn; lia) ltac:(cbn; lia) ltac:(discriminate)
    ex_new_inv ex_new_read ltac:(cbn; lia) ex_new_dinode ltac:(eapply kframe_lock_free; [apply A|exact Hl]) Hu' ltac:(lia) (ex_source w p Q P)
    ltac:(by vm_compute) ltac:(by vm_compute) ltac:(by vm_compute) ex_free) as (w' & V' & d' & k' & ip' & E & Hid' & At & _ & _ & _ & D & S & B & _).
  exists w', d', ip'. split; [exact E|].
  split; [apply (cs_disk _ _ _ _ _ _ _ (tx_cs _ _ _ _ _ _ _ _ _ (id_tx _ _ _ _ _ Hid')))|]. split; [exact B|]. split; [exact D|]. split; [exact S|exact At].
Defined.
