(* ===== verification/Umalloc.v ===== *)
(** * user/umalloc.c: the user-level allocator

    Kernighan and Ritchie's allocator: the free blocks of the heap form a ring,
    sorted by address, that starts at the static header [base].  Headers are in
    the process's memory; [ptr] is their first eight bytes and [size], a uint,
    the four after it. *)
From S2P Require Import Prelude Memory CString Riscv.
From stdpp Require Import prelude gmap strings.
From Stdlib Require Import ZArith Lia.
Import KString.
Open Scope Z_scope.

Module Umalloc.

(** The process's memory and size, and the static variable [freep]. *)
Record ustate := UState { umem : mem; brk : Z; freep : Z }.

Definition sizeof_Header : Z := 16.

Section Alloc.
(** [grow sz newsz]: the kernel finds the pages to extend the process from [sz] to
    [newsz] bytes; [base] is the address of the static header. *)
Context (grow : Z -> Z -> bool) (base : Z).

(** ** Memory of the process *)

(** An access outside the mapped pages kills the process. *)
Definition mapped (s : ustate) (a k : Z) : bool := (0 <=? a) && (a + k <=? PGROUNDUP (brk s)).
Definition rdu (k : nat) (a : Z) : M ustate Z := fun s =>
  if mapped s a (Z.of_nat k) then Ok (load k (umem s) a, s) else Panic "usertrap".
Definition wru (k : nat) (a v : Z) : M ustate () := fun s =>
  if mapped s a (Z.of_nat k) then Ok ((), UState (store k (umem s) a v) (brk s) (freep s))
  else Panic "usertrap".

(** [p->s.ptr] and [p->s.size] *)
Definition get_ptr (p : Z) : M ustate Z := rdu 8 p.
Definition set_ptr (p v : Z) : M ustate () := wru 8 p v.
Definition get_size (p : Z) : M ustate Z := rdu 4 (p + 8).
Definition set_size (p v : Z) : M ustate () := wru 4 (p + 8) v.
Definition get_freep : M ustate Z := fun s => Ok (freep s, s).
Definition set_freep (p : Z) : M ustate () := fun s => Ok ((), UState (umem s) (brk s) p).

(** [p + n] on [Header*]. *)
Definition padd (p n : Z) : Z := u64 (p + sizeof_Header * n).

(** What sys_sbrk() does to the caller: new pages are zero, the address is an int,
    sizes are uints, and shrinking below zero or growing past 2^32 changes nothing. *)
Definition sbrk (n : Z) : M ustate Z := fun s =>
  let addr := u64 (i32 (brk s)) in
  let newsz := u32 (brk s + n) in
  if n >? 0 then
    if newsz <? brk s then Ok (addr, s)
    else if grow (brk s) newsz
    then Ok (addr, UState (memset (umem s) (PGROUNDUP (brk s)) 0 (PGROUNDUP newsz - PGROUNDUP (brk s)))
                     newsz (freep s))
    else Ok (u64 (-1), s)
  else if n <? 0 then
    if brk s <=? newsz then Ok (addr, s) else Ok (addr, UState (umem s) newsz (freep s))
  else Ok (addr, s).

(** ** free *)

(** [for(p = freep; !(bp > p && bp < p->s.ptr); p = p->s.ptr)
       if(p >= p->s.ptr && (bp > p || bp < p->s.ptr)) break;] *)
Definition free_body (bp p : Z) : M ustate (Z + Z) :=
  q ← get_ptr p;
  if (p <? bp) && (bp <? q) then mret (inr p)
  else if (q <=? p) && ((p <? bp) || (bp <? q)) then mret (inr p)
  else mret (inl q).

(** Join [bp] with the block after it, if they touch. *)
Definition free_up (bp p : Z) : M ustate () :=
  n ← get_size bp;
  q ← get_ptr p;
  if padd bp n =? q then
    qn ← get_size q;
    set_size bp (u32 (n + qn)) ;;
    q ← get_ptr p;
    qq ← get_ptr q;
    set_ptr bp qq
  else set_ptr bp q.

(** Join [p] with [bp], if they touch. *)
Definition free_down (bp p : Z) : M ustate () :=
  n ← get_size p;
  if padd p n =? bp then
    bn ← get_size bp;
    set_size p (u32 (n + bn)) ;;
    bq ← get_ptr bp;
    set_ptr p bq
  else set_ptr p bp.

Definition free (fuel : nat) (ap : Z) : M ustate () :=
  let bp := padd ap (-1) in
  f ← get_freep;
  p ← loop fuel (free_body bp) f;
  free_up bp p ;;
  free_down bp p ;;
  set_freep p.

(** ** malloc *)

Definition morecore (fuel : nat) (nu : Z) : M ustate Z :=
  let nu := if nu <? 4096 then 4096 else nu in
  p ← sbrk (i32 (u64 (nu * sizeof_Header)));
  if p =? u64 (-1) then mret 0
  else
    set_size p nu ;;
    free fuel (padd p 1) ;;
    get_freep.

(** Take [nunits] from the block [p], the one after [prevp], of size [sz]. *)
Definition carve (nunits p prevp sz : Z) : M ustate Z :=
  p ← (if sz =? nunits then
         q ← get_ptr p;
         set_ptr prevp q ;;
         mret p
       else
         set_size p (u32 (sz - nunits)) ;;
         sz' ← get_size p;
         let p' := padd p sz' in
         set_size p' nunits ;;
         mret p');
  set_freep prevp ;;
  mret (padd p 1).

Definition malloc_body (fuel : nat) (nunits : Z) (x : Z * Z) : M ustate ((Z * Z) + Z) :=
  let '(p, prevp) := x in
  sz ← get_size p;
  if nunits <=? sz then r ← carve nunits p prevp sz; mret (inr r)
  else
    f ← get_freep;
    o ← (if p =? f then
           p' ← morecore fuel nunits;
           mret (if p' =? 0 then None else Some p')
         else mret (Some p));
    match o with
    | None => mret (inr 0)
    | Some p => q ← get_ptr p; mret (inl (q, p))
    end.

Definition units (nbytes : Z) : Z := u32 ((nbytes + sizeof_Header - 1) / sizeof_Header + 1).

Definition malloc (fuel : nat) (nbytes : Z) : M ustate Z :=
  let nunits := units nbytes in
  prevp ← get_freep;
  prevp ← (if prevp =? 0 then
             set_freep base ;;
             set_ptr base base ;;
             set_size base 0 ;;
             mret base
           else mret prevp);
  p ← get_ptr prevp;
  loop fuel (malloc_body fuel nunits) (p, prevp).
End Alloc.


End Umalloc.
