(* ===== verification/UmallocSpec.v ===== *)
(** * The user-level allocator is correct

    [heap] relates a state of user/umalloc.c to the blocks that are free and the
    blocks that callers hold.  malloc() and free() keep it: no byte is handed out
    twice, none is lost, and free blocks that touch are joined. *)
From S2P Require Import Prelude Memory CString Riscv Umalloc.
From stdpp Require Import prelude gmap strings.
From Stdlib Require Import ZArith Lia.
Import KString Umalloc.
Open Scope Z_scope.

(** ** The heap *)

(** The fields of the header at [p]. *)
Definition ptr (m : mem) (p : Z) : Z := load 8 m p.
Definition size (m : mem) (p : Z) : Z := load 4 m (p + 8).

#[global] Arguments ptr : simpl never.
#[global] Arguments size : simpl never.

(** A block: its address and its size in headers. *)
Abbreviation block := (Z * Z)%type.

Definition hd_addr (l : list block) (e : Z) : Z :=
  match l with [] => e | (b, _) :: _ => b end.

(** The headers of [l] are linked in this order, the last one to [e]. *)
Fixpoint chain (m : mem) (l : list block) (e : Z) : Prop :=
  match l with
  | [] => True
  | (b, n) :: l' => size m b = n /\ ptr m b = hd_addr l' e /\ chain m l' e
  end.

(** The blocks of [l] are in the order of their addresses, and no two touch. *)
Fixpoint spaced (l : list block) : Prop :=
  match l with
  | (b, n) :: l' =>
      match l' with
      | (b', _) :: _ => b + sizeof_Header <= b' /\ b + sizeof_Header * n < b'
      | [] => True
      end /\ spaced l'
  | [] => True
  end.

Definition disjoint_blocks (x y : block) : Prop :=
  x.1 + sizeof_Header * x.2 <= y.1 \/ y.1 + sizeof_Header * y.2 <= x.1.

Fixpoint total (l : list block) : Z := match l with [] => 0 | x :: l' => x.2 + total l' end.
Definition held (A : gmap Z Z) : Z := total (map_to_list A).

(** [heap s A L]: of the heap, the blocks [L] are free and the blocks [A] are with
    callers. *)
Record ring (base : Z) (s : ustate) (L : list block) : Prop := {
  r_chain : chain (umem s) ((base, 0) :: L) base;
  r_spaced : spaced ((base, 0) :: L);
  r_freep : freep s ∈ ((base, 0) :: L).*1;
  r_free : Forall (fun x => 1 <= x.2 /\ x.1 + sizeof_Header * x.2 <= brk s) L;
}.
Record callers (base : Z) (s : ustate) (A : gmap Z Z) (L : list block) : Prop := {
  c_block : forall b n, A !! b = Some n ->
    1 <= n /\ base + sizeof_Header <= b /\ b + sizeof_Header * n <= brk s /\ size (umem s) b = n;
  c_free : forall b n x, A !! b = Some n -> x ∈ L -> disjoint_blocks (b, n) x;
  c_held : forall b n b' n', A !! b = Some n -> A !! b' = Some n' -> b <> b' ->
    disjoint_blocks (b, n) (b', n');
}.
Record heap (base : Z) (s : ustate) (A : gmap Z Z) (L : list block) : Prop := {
  h_base : 0 < base /\ base + sizeof_Header <= brk s < 2 ^ 31;
  h_ring : ring base s L \/ freep s = 0 /\ L = [] /\ A = ∅;
  h_callers : callers base s A L;
}.

(** The memory of the blocks [A] is the same in both states. *)
Definition undisturbed (A : gmap Z Z) (s s' : ustate) : Prop :=
  forall b n, A !! b = Some n -> same_on (umem s') (umem s) b (sizeof_Header * n).

Lemma callers_empty base s L : callers base s ∅ L.
Proof. constructor; intros; simplify_map_eq. Qed.
Lemma undisturbed_empty s s' : undisturbed ∅ s s'.
Proof. intros ???. simplify_map_eq. Qed.

(** *** Headers *)

(** [m'] is [m] except for the header at [p]. *)
Definition only_hdr (p : Z) (m m' : mem) : Prop :=
  forall b, b < p \/ p + sizeof_Header <= b -> rd m' b = rd m b.

Lemma only_hdr_refl p m : only_hdr p m m.
Proof. done. Qed.
Lemma only_hdr_trans p m1 m2 m3 : only_hdr p m1 m2 -> only_hdr p m2 m3 -> only_hdr p m1 m3.
Proof. intros H1 H2 b Hb. rewrite H2 by done. by apply H1. Qed.
Lemma only_hdr_ptr m p v : only_hdr p m (store 8 m p v).
Proof. intros b Hb. apply rd_store_out. unfold sizeof_Header in *. lia. Qed.
Lemma only_hdr_size m p v : only_hdr p m (store 4 m (p + 8) v).
Proof. intros b Hb. apply rd_store_out. unfold sizeof_Header in *. lia. Qed.

Lemma only_hdr_fields p m m' b : only_hdr p m m' ->
  b + sizeof_Header <= p \/ p + sizeof_Header <= b ->
  ptr m' b = ptr m b /\ size m' b = size m b.
Proof.
  unfold sizeof_Header, ptr, size. intros H Hb.
  split; apply load_ext; intros c Hc; apply H; unfold sizeof_Header; lia.
Qed.
Lemma only_hdr_same_on p m m' b n : only_hdr p m m' ->
  b + n <= p \/ p + sizeof_Header <= b -> same_on m' m b n.
Proof. intros H Hb c Hc. apply H. lia. Qed.

Lemma ptr_set m p v : 0 <= v < 2 ^ 64 -> ptr (store 8 m p v) p = v.
Proof. intros. apply load_store_eq. lia. Qed.
Lemma size_set m p v : 0 <= v < 2 ^ 32 -> size (store 4 m (p + 8) v) p = v.
Proof. intros. apply load_store_eq. lia. Qed.
Lemma ptr_set_size m p v : ptr (store 4 m (p + 8) v) p = ptr m p.
Proof. apply load_store_ne. lia. Qed.
Lemma size_set_ptr m p v : size (store 8 m p v) p = size m p.
Proof. apply load_store_ne. lia. Qed.
Lemma size_range m p : 0 <= size m p < 2 ^ 32.
Proof. pose proof (load_range 4 m (p + 8)). unfold size. lia. Qed.
Lemma ptr_range m p : 0 <= ptr m p < 2 ^ 64.
Proof. pose proof (load_range 8 m p). unfold ptr. lia. Qed.

(** *** Chains *)

Lemma ring_chain_app m l1 l2 e :
  chain m (l1 ++ l2) e <-> chain m l1 (hd_addr l2 e) /\ chain m l2 e.
Proof.
  induction l1 as [|[b n] l1 IH]; cbn [chain app]; [tauto|]. rewrite IH.
  destruct l1 as [|[??] ?]; cbn; tauto.
Qed.

Lemma chain_same m m' l e : Forall (fun x => same_on m' m x.1 sizeof_Header) l -> chain m l e -> chain m' l e.
Proof.
  intros Hl. induction Hl as [|[b n] l Hb Hl IH]; cbn [chain]; [done|]. intros (H1 & H2 & H3).
  unfold size, ptr in *. rewrite !(load_ext _ m' m) by (intros c Hc; apply Hb; cbn; unfold sizeof_Header; lia). auto.
Qed.

Lemma chain_frame p m m' l e : only_hdr p m m' ->
  Forall (fun x => x.1 + sizeof_Header <= p \/ p + sizeof_Header <= x.1) l ->
  chain m l e -> chain m' l e.
Proof.
  intros Hm Hl. induction Hl as [|[b n] l Hb Hl IH]; cbn [chain]; [done|].
  intros (H1 & H2 & H3). destruct (only_hdr_fields _ _ _ b Hm Hb) as [-> ->]. auto.
Qed.

Lemma spaced_app l1 x l2 :
  spaced (l1 ++ x :: l2) <-> spaced (l1 ++ [x]) /\ spaced (x :: l2).
Proof.
  induction l1 as [|[b n] l1 IH]; cbn [app].
  - destruct x. cbn. tauto.
  - destruct l1 as [|[??] ?]; cbn [app spaced] in *; [destruct x; cbn; tauto|].
    rewrite IH. tauto.
Qed.

Lemma spaced_last l p n k : spaced (l ++ [(p, n)]) -> spaced (l ++ [(p, k)]).
Proof.
  induction l as [|[b j] l IH]; [done|]. cbn [app spaced]. intros [H1 H2]. split; [|by apply IH].
  by destruct l as [|[??] ?].
Qed.

Lemma spaced_suffix l1 l2 : spaced (l1 ++ l2) -> spaced l2.
Proof.
  induction l1 as [|[b n] l1 IH]; [done|]. intros H. apply IH. by destruct H.
Qed.

Lemma spaced_after x l : spaced (x :: l) -> Forall (fun y => 0 <= y.2) (x :: l) ->
  Forall (fun y => x.1 + sizeof_Header <= y.1 /\ x.1 + sizeof_Header * x.2 < y.1) l.
Proof.
  unfold sizeof_Header. revert x. induction l as [|[b' n'] l IH]; intros [b n] H Hp; constructor.
  - cbn in *. unfold sizeof_Header in H. lia.
  - destruct H as [H Hs]. apply Forall_cons in Hp as [Hp1 Hp2].
    specialize (IH _ Hs Hp2). apply (Forall_impl _ _ _ IH). cbn. unfold sizeof_Header in H.
    apply Forall_cons in Hp2 as [Hp2 _]. cbn in *. lia.
Qed.

Lemma spaced_before x l : spaced (l ++ [x]) -> Forall (fun y => 0 <= y.2) (l ++ [x]) ->
  Forall (fun y => y.1 + sizeof_Header <= x.1 /\ y.1 + sizeof_Header * y.2 < x.1) l.
Proof.
  induction l as [|y l IH]; intros H Hp; constructor.
  - pose proof (spaced_after y (l ++ [x]) H Hp) as Ha. apply Forall_app in Ha as [_ Ha].
    by apply Forall_cons in Ha as [Ha _].
  - apply IH; [by destruct y, H|]. by apply Forall_cons in Hp as [_ Hp].
Qed.

Lemma total_app l1 l2 : total (l1 ++ l2) = total l1 + total l2.
Proof. induction l1 as [|x l1 IH]; cbn [total app]; [done|]. rewrite IH. lia. Qed.

#[global] Instance total_perm : Proper (Permutation ==> eq) total.
Proof. intros l l' H. induction H; cbn [total]; lia. Qed.

Lemma held_insert A b n : A !! b = None -> held (<[b := n]> A) = n + held A.
Proof. intros H. unfold held. by rewrite map_to_list_insert by done. Qed.
Lemma held_delete A b n : A !! b = Some n -> held A = n + held (delete b A).
Proof.
  intros H. rewrite <- (held_insert (delete b A) b n) by apply lookup_delete_eq. by rewrite insert_delete_id.
Qed.
Lemma held_empty : held ∅ = 0.
Proof. unfold held. by rewrite map_to_list_empty. Qed.

(** *** Single accesses *)

Definition with_mem (s : ustate) (m : mem) : ustate := UState m (brk s) (freep s).

Definition in_proc (s : ustate) (p : Z) : Prop := 0 <= p /\ p + sizeof_Header <= brk s < 2 ^ 31.

Lemma mapped_hdr s p a k : in_proc s p -> p <= a -> a + k <= p + sizeof_Header -> mapped s a k = true.
Proof.
  unfold in_proc, mapped, sizeof_Header. intros H H1 H2.
  pose proof (PGROUNDUP_range (brk s) ltac:(lia) ltac:(unfold PGSIZE; lia)).
  apply andb_true_iff. split; apply Z.leb_le; lia.
Qed.

Section Access.
Context (s : ustate) (p : Z) (Hp : in_proc s p).

Lemma get_ptr_ok : get_ptr p s = Ok (ptr (umem s) p, s).
Proof. unfold get_ptr, rdu. by rewrite (mapped_hdr s p) by (done || unfold sizeof_Header; lia). Qed.
Lemma get_size_ok : get_size p s = Ok (size (umem s) p, s).
Proof. unfold get_size, rdu. by rewrite (mapped_hdr s p) by (done || unfold sizeof_Header; lia). Qed.
Lemma set_ptr_ok v : set_ptr p v s = Ok ((), with_mem s (store 8 (umem s) p v)).
Proof. unfold set_ptr, wru. by rewrite (mapped_hdr s p) by (done || unfold sizeof_Header; lia). Qed.
Lemma set_size_ok v : set_size p v s = Ok ((), with_mem s (store 4 (umem s) (p + 8) v)).
Proof. unfold set_size, wru. by rewrite (mapped_hdr s p) by (done || unfold sizeof_Header; lia). Qed.
End Access.

Lemma padd_id s p n : in_proc s p -> p + sizeof_Header * n <= brk s -> 0 <= p + sizeof_Header * n ->
  padd p n = p + sizeof_Header * n.
Proof. unfold in_proc, padd. intros. apply u64_id. lia. Qed.

(** *** free: finding the place *)

Lemma free_body_next s bp p : in_proc s p ->
  let q := ptr (umem s) p in
  p < q <= bp \/ bp <= p /\ (p < q \/ q <= bp) ->
  free_body bp p s = Ok (inl q, s).
Proof.
  intros Hp q Hc. unfold free_body. kdo (get_ptr_ok s p Hp). fold q. clearbody q.
  destruct (Z.ltb_spec p bp), (Z.ltb_spec bp q), (Z.leb_spec q p); cbn [andb orb]; (done || lia).
Qed.

Lemma free_body_stop s bp p : in_proc s p ->
  let q := ptr (umem s) p in
  p < bp -> bp < q \/ q <= p ->
  free_body bp p s = Ok (inr p, s).
Proof.
  intros Hp q H1 Hc. unfold free_body. kdo (get_ptr_ok s p Hp). fold q. clearbody q.
  destruct (Z.ltb_spec p bp), (Z.ltb_spec bp q), (Z.leb_spec q p); cbn [andb orb]; (done || lia).
Qed.

Lemma walk_below s bp l p n f : p < bp ->
  chain (umem s) l p ->
  spaced (l ++ [(p, n)]) -> Forall (fun x => 0 <= x.2) (l ++ [(p, n)]) ->
  Forall (fun x => in_proc s x.1) l ->
  loop (length l + f) (free_body bp) (hd_addr l p) s = loop f (free_body bp) p s.
Proof.
  intros Hp. induction l as [|[b k] l IH]; intros Hc Hs Hn Hi; [done|].
  pose proof (spaced_before _ _ Hs Hn) as Hb. pose proof (spaced_after (b, k) (l ++ [(p, n)]) Hs Hn) as Ha.
  cbn [app hd_addr length Nat.add] in *. destruct Hc as (_ & Hq & Hc), Hs as [_ Hs].
  apply Forall_cons in Hn as [_ Hn]. apply Forall_cons in Hi as [Hi1 Hi]. apply Forall_cons in Hb as [Hb1 Hb].
  rewrite <- IH by done. rewrite <- Hq. apply loop_next. apply free_body_next; [done|]. left. rewrite Hq.
  destruct l as [|[b' k'] l]; apply Forall_cons in Ha as [Ha _]; cbn in *; unfold sizeof_Header in *; [lia|].
  apply Forall_cons in Hb as [Hb _]. cbn in *. lia.
Qed.

Lemma walk_above s bp l e f : e <= bp ->
  chain (umem s) l e -> spaced l -> Forall (fun x => 0 <= x.2) l ->
  Forall (fun x => in_proc s x.1) l -> Forall (fun x => bp <= x.1) l ->
  loop (length l + f) (free_body bp) (hd_addr l e) s = loop f (free_body bp) e s.
Proof.
  intros He. induction l as [|[b k] l IH]; intros Hc Hs Hn Hi Hb; [done|].
  pose proof (spaced_after (b, k) l Hs Hn) as Ha.
  cbn [hd_addr length Nat.add] in *. destruct Hc as (_ & Hq & Hc), Hs as [_ Hs].
  apply Forall_cons in Hn as [_ Hn]. apply Forall_cons in Hi as [Hi1 Hi]. apply Forall_cons in Hb as [Hb1 Hb].
  rewrite <- IH by done. rewrite <- Hq. apply loop_next. apply free_body_next; [done|]. right. rewrite Hq.
  split; [done|]. destruct l as [|[b' k'] l]; cbn; [lia|].
  apply Forall_cons in Ha as [Ha _]. cbn in *. unfold sizeof_Header in *. lia.
Qed.

(** A sorted list split at an address. *)
Lemma spaced_split bp x l : spaced (x :: l) -> Forall (fun y => 0 <= y.2) (x :: l) ->
  x.1 < bp -> Forall (fun y => y.1 <> bp) l ->
  exists pre p n post, x :: l = pre ++ (p, n) :: post /\ p < bp /\ Forall (fun y => bp < y.1) post.
Proof.
  revert x. induction l as [|y l IH]; intros [b k] Hs Hn Hx Hne.
  - exists [], b, k, []. by split_and!.
  - apply Forall_cons in Hne as [Hy Hne]. destruct (Z.lt_ge_cases y.1 bp) as [Hlt|Hge].
    + destruct Hs as [_ Hs]. apply Forall_cons in Hn as [_ Hn].
      destruct (IH y Hs Hn Hlt Hne) as (pre & p & n & post & -> & Hp & Hpost).
      by exists ((b, k) :: pre), p, n, post.
    + exists [], b, k, (y :: l). split_and!; [done..|]. constructor; [lia|].
      destruct Hs as [_ Hs]. apply Forall_cons in Hn as [_ Hn].
      pose proof (spaced_after y l Hs Hn) as Ha. apply (Forall_impl _ _ _ Ha).
      unfold sizeof_Header. lia.
Qed.

(** A list cut in front of one of its nodes. *)
Lemma cut_at (l : list block) a e : a ∈ l.*1 -> exists l0 r, l = l0 ++ r /\ r <> [] /\ hd_addr r e = a.
Proof.
  intros [[b n] [-> H]]%list_elem_of_fmap. apply list_elem_of_split in H as (l0 & r & ->).
  by exists l0, ((b, n) :: r).
Qed.

Section Ring.
Context (base : Z) (s : ustate) (L : list block).
Context (Hr : ring base s L) (Hb : 0 < base /\ base + sizeof_Header <= brk s < 2 ^ 31).

Lemma ring_nonneg : Forall (fun x => 0 <= x.2) ((base, 0) :: L).
Proof.
  constructor; [done|]. apply (Forall_impl _ _ _ (r_free _ _ _ Hr)). lia.
Qed.

Lemma ring_above : Forall (fun x => base + sizeof_Header <= x.1) L.
Proof.
  apply (Forall_impl _ _ _ (spaced_after _ _ (r_spaced _ _ _ Hr) ring_nonneg)). cbn. lia.
Qed.

Lemma ring_in_proc : Forall (fun x => in_proc s x.1) ((base, 0) :: L).
Proof.
  unfold in_proc, sizeof_Header in *. constructor; [cbn; lia|].
  pose proof ring_above as H1. pose proof (r_free _ _ _ Hr) as H2. rewrite Forall_forall in *.
  intros x Hx. specialize (H1 x Hx). specialize (H2 x Hx). unfold sizeof_Header in *. lia.
Qed.

(** The search ends at the last block before [bp], after at most one turn. *)
Lemma free_find bp fuel : base < bp -> Forall (fun x => x.1 <> bp) L -> (length L + 2 <= fuel)%nat ->
  exists pre p n post,
    (base, 0) :: L = pre ++ (p, n) :: post /\ p < bp /\ Forall (fun x => bp < x.1) post /\
    loop fuel (free_body bp) (freep s) s = Ok (p, s).
Proof.
  intros H1 H2 Hf.
  pose proof ring_nonneg as Hn. pose proof ring_in_proc as Hi.
  destruct Hr as [Hc Hs Hfp _].
  destruct (spaced_split bp _ _ Hs Hn H1 H2) as (pre & p & n & post & EN & Hp & Hpost).
  exists pre, p, n, post. split_and!; [done..|].
  assert (Hlen : (length pre + length post = length L)%nat).
  { apply (f_equal length) in EN. rewrite length_app in EN. cbn in EN. lia. }
  rewrite EN in Hc, Hs, Hfp, Hn, Hi. apply ring_chain_app in Hc as [Hc1 (Hpn & Hpp & Hc2)].
  apply spaced_app in Hs as [Hs1 Hs2]. cbn [hd_addr] in Hc1.
  apply Forall_app in Hn as [Hn1 [Hn2 Hn3]%Forall_cons], Hi as [Hi1 [Hi2 Hi3]%Forall_cons].
  assert (Hstop : forall f, (0 < f)%nat -> loop f (free_body bp) p s = Ok (p, s)).
  { intros [|f] ?; [lia|]. apply loop_exit, free_body_stop; [done..|]. rewrite Hpp.
    destruct post as [|[b' k'] post]; cbn; [right|left; by apply Forall_cons in Hpost as [? _]].
    destruct pre as [|[b0 k0] pre]; cbn in EN; simplify_eq; [lia|].
    pose proof (spaced_before _ _ Hs1 ltac:(apply Forall_app; auto)) as Hbef.
    apply Forall_cons in Hbef as [Hbef _]. cbn in Hbef. unfold sizeof_Header in Hbef. lia. }
  assert (Hbelow : forall r f, r `suffix_of` (pre ++ [(p, n)]) -> r <> [] -> (length r <= f)%nat ->
    loop f (free_body bp) (hd_addr r base) s = Ok (p, s)).
  { intros r f Hsuf Hne Hlf. destruct (exists_last Hne) as (r' & [p' n'] & ->). destruct Hsuf as [l0 El0].
    rewrite app_assoc in El0. apply app_inj_tail in El0 as [-> [= <- <-]].
    rewrite length_app in Hlf. cbn in Hlf.
    replace f with (length r' + (f - length r'))%nat by lia.
    replace (hd_addr (r' ++ [(p, n)]) base) with (hd_addr r' p) by (by destruct r' as [|[??] ?]).
    apply ring_chain_app in Hc1 as [_ Hc1]. rewrite <- app_assoc in Hs1. apply spaced_suffix in Hs1.
    apply Forall_app in Hn1 as [_ Hn1], Hi1 as [_ Hi1].
    rewrite (walk_below s bp r' p n) by (done || apply Forall_app; auto). apply Hstop. lia. }
  replace (pre ++ (p, n) :: post) with ((pre ++ [(p, n)]) ++ post) in Hfp by (by rewrite <- app_assoc).
  rewrite fmap_app in Hfp. apply elem_of_app in Hfp as [Hfp|Hfp];
    apply (cut_at _ _ base) in Hfp as (l0 & r & Er & Hne & Ehd); rewrite <- Ehd.
  - assert (length (pre ++ [(p, n)]) = length (l0 ++ r)) as El by (by rewrite Er).
    rewrite !length_app in El. cbn in El. apply Hbelow; [by exists l0|done|lia].
  - subst post. rewrite length_app in Hlen. apply ring_chain_app in Hc2 as [_ Hc2].
    apply Forall_app in Hn3 as [_ Hn3], Hi3 as [_ Hi3], Hpost as [_ Hpost].
    destruct Hs2 as [_ Hs2]. apply spaced_suffix in Hs2.
    replace fuel with (length r + (fuel - length r))%nat by lia.
    rewrite walk_above; [| | done..|apply (Forall_impl _ _ _ Hpost); lia].
    + replace base with (hd_addr (pre ++ [(p, n)]) base) at 1
        by (by destruct pre as [|[??] ?]; cbn in EN; simplify_eq).
      apply Hbelow; [done|by destruct pre|]. rewrite length_app. cbn. lia.
    + lia.
Qed.
End Ring.

(** *** free: joining blocks *)

(** [y] is a block above [base] that overlaps none of [l]. *)
Definition apart (base : Z) (y : block) (l : list block) : Prop :=
  1 <= y.2 /\ base + sizeof_Header <= y.1 /\ Forall (disjoint_blocks y) l.

Lemma apart_app base y l1 l2 : apart base y (l1 ++ l2) <-> apart base y l1 /\ apart base y l2.
Proof. unfold apart. rewrite Forall_app. tauto. Qed.
Lemma apart_cons base y x l : apart base y (x :: l) <-> apart base y [x] /\ apart base y l.
Proof. unfold apart. rewrite !Forall_cons. intuition. Qed.
Lemma apart_one base y x : apart base y [x] <-> 1 <= y.2 /\ base + sizeof_Header <= y.1 /\ disjoint_blocks y x.
Proof. unfold apart. rewrite Forall_singleton. done. Qed.

Definition free_block (s : ustate) (x : block) : Prop := 1 <= x.2 /\ x.1 + sizeof_Header * x.2 <= brk s.

Lemma free_up_ok base s p bp bn post :
  in_proc s p -> in_proc s bp -> p + sizeof_Header <= bp -> 0 < base < bp ->
  ptr (umem s) p = hd_addr post base -> size (umem s) bp = bn -> free_block s (bp, bn) ->
  chain (umem s) post base -> spaced post -> Forall (free_block s) post ->
  Forall (fun x => bp + sizeof_Header * bn <= x.1) post ->
  exists bsz post' m', free_up bp p s = Ok ((), with_mem s m') /\
    only_hdr bp (umem s) m' /\ chain m' ((bp, bsz) :: post') base /\ spaced ((bp, bsz) :: post') /\
    Forall (free_block s) ((bp, bsz) :: post') /\ bn <= bsz /\ bsz + total post' = bn + total post /\
    (length post' <= length post)%nat /\
    (forall y, apart base y ((bp, bn) :: post) -> apart base y ((bp, bsz) :: post')).
Proof.
  intros Hp Hbp Hlt Hbase Hq Hsz [Hbn Htop] Hc Hs Hf Ha. cbn in Hbn, Htop.
  unfold free_up. kdo (get_size_ok s bp Hbp). rewrite Hsz. kdo (get_ptr_ok s p Hp). rewrite Hq.
  rewrite (padd_id s bp bn) by (done || unfold in_proc, sizeof_Header in *; lia).
  destruct (Z.eqb_spec (bp + sizeof_Header * bn) (hd_addr post base)) as [E|E].
  - destruct post as [|[q qn] post]; cbn [hd_addr] in E; [unfold sizeof_Header in *; lia|].
    apply Forall_cons in Hf as [[Hqn Hqtop] Hf]. cbn [fst snd] in Hqn, Hqtop.
    destruct Hc as (Hc1 & Hc2 & Hc3), Hs as [Hs1 Hs2]. cbn [hd_addr].
    assert (Hiq : in_proc s q) by (unfold in_proc, sizeof_Header in *; lia).
    kdo (get_size_ok s q Hiq). rewrite Hc1.
    kdo (set_size_ok s bp Hbp (u32 (bn + qn))).
    set (m1 := store 4 (umem s) (bp + 8) _).
    pose proof (only_hdr_size (umem s) bp (u32 (bn + qn)) : only_hdr bp (umem s) m1) as Ho1.
    kdo (get_ptr_ok (with_mem s m1) p Hp). cbn [umem with_mem].
    destruct (only_hdr_fields _ _ _ p Ho1 ltac:(unfold sizeof_Header in *; lia)) as [-> _]. rewrite Hq.
    kdo (get_ptr_ok (with_mem s m1) q Hiq). cbn [umem with_mem].
    destruct (only_hdr_fields _ _ _ q Ho1 ltac:(unfold sizeof_Header in *; lia)) as [-> _]. rewrite Hc2.
    rewrite (set_ptr_ok (with_mem s m1) bp Hbp). cbn [umem with_mem].
    exists (bn + qn), post, (store 8 m1 bp (hd_addr post base)).
    assert (Ho : only_hdr bp (umem s) (store 8 m1 bp (hd_addr post base)))
      by (eapply only_hdr_trans; [done|apply only_hdr_ptr]).
    split_and!; [done|done| | | |lia|cbn [total snd]; lia|cbn; lia|].
    + cbn [chain]. rewrite size_set_ptr. unfold m1. rewrite size_set by apply u32_range.
      rewrite ptr_set by (rewrite <- Hc2; apply ptr_range). split_and!; [|done|].
      * apply u32_id. unfold in_proc, sizeof_Header in *. lia.
      * revert Hc3. apply (chain_frame bp); [done|]. apply Forall_cons in Ha as [_ Ha].
        apply (Forall_impl _ _ _ Ha). unfold sizeof_Header. lia.
    + cbn [spaced] in *. split; [|done]. destruct post as [|[b' k'] post]; [done|].
      unfold sizeof_Header in *. lia.
    + constructor; [|done]. split; cbn; unfold sizeof_Header in *; lia.
    + intros y. rewrite !(apart_cons base y _ (_ :: _)), (apart_cons base y (bp, bn + qn)),
        (apart_cons base y (q, qn)), !apart_one. unfold disjoint_blocks, sizeof_Header in *. cbn.
      intros (H1 & H2 & H3). split; [lia|done].
  - rewrite (set_ptr_ok s bp Hbp). exists bn, post, (store 8 (umem s) bp (hd_addr post base)).
    pose proof (only_hdr_ptr (umem s) bp (hd_addr post base)) as Ho.
    split_and!; [done|done| | | |lia|lia|lia|done].
    + cbn [chain]. rewrite size_set_ptr, ptr_set by (rewrite <- Hq; apply ptr_range).
      split_and!; [done..|]. revert Hc. apply (chain_frame bp); [done|].
      apply (Forall_impl _ _ _ Ha). unfold sizeof_Header in *. lia.
    + cbn [spaced]. split; [|done]. destruct post as [|[b' k'] post]; [done|].
      apply Forall_cons in Ha as [Ha _]. cbn in *. unfold sizeof_Header in *. lia.
    + by constructor.
Qed.

Lemma free_down_ok base s p n bp bsz post :
  in_proc s p -> in_proc s bp -> p + sizeof_Header <= bp -> p + sizeof_Header * n <= bp -> 0 <= n -> 0 < base ->
  size (umem s) p = n -> chain (umem s) ((bp, bsz) :: post) base -> spaced ((bp, bsz) :: post) ->
  Forall (free_block s) ((bp, bsz) :: post) ->
  exists mid m', free_down bp p s = Ok ((), with_mem s m') /\ only_hdr p (umem s) m' /\
    chain m' (mid ++ post) base /\ spaced (mid ++ post) /\
    (mid = [(p, n); (bp, bsz)] \/ 1 <= n /\ mid = [(p, n + bsz)] /\ p + sizeof_Header * n = bp).
Proof.
  intros Hp Hbp Hlt Hend Hn Hbase Hsz Hc Hs Hf.
  pose proof (spaced_after _ _ Hs ltac:(apply (Forall_impl _ _ _ Hf); unfold free_block; lia)) as Ha.
  unfold free_down. kdo (get_size_ok s p Hp). rewrite Hsz.
  apply Forall_cons in Hf as [[Hf1 Hf2] Hf]. cbn [fst snd] in *.
  assert (Hab : Forall (fun x => x.1 + sizeof_Header <= p \/ p + sizeof_Header <= x.1) ((bp, bsz) :: post)).
  { constructor; [right; done|]. apply (Forall_impl _ _ _ Ha). unfold sizeof_Header in *. lia. }
  rewrite (padd_id s p n) by (done || unfold in_proc, sizeof_Header in *; lia).
  destruct (Z.eqb_spec (p + sizeof_Header * n) bp) as [E|E].
  - destruct Hc as (Hc1 & Hc2 & Hc3), Hs as [Hs1 Hs2].
    kdo (get_size_ok s bp Hbp). rewrite Hc1.
    kdo (set_size_ok s p Hp (u32 (n + bsz))). set (m1 := store 4 (umem s) (p + 8) _).
    pose proof (only_hdr_size (umem s) p (u32 (n + bsz)) : only_hdr p (umem s) m1) as Ho1.
    kdo (get_ptr_ok (with_mem s m1) bp Hbp). cbn [umem with_mem].
    destruct (only_hdr_fields _ _ _ bp Ho1 ltac:(unfold sizeof_Header in *; lia)) as [-> _]. rewrite Hc2.
    rewrite (set_ptr_ok (with_mem s m1) p Hp). cbn [umem with_mem].
    exists [(p, n + bsz)], (store 8 m1 p (hd_addr post base)).
    assert (Ho : only_hdr p (umem s) (store 8 m1 p (hd_addr post base)))
      by (eapply only_hdr_trans; [done|apply only_hdr_ptr]).
    split_and!; [done|done| | |right; split_and!; [unfold sizeof_Header in *; lia|done|done]].
    + cbn [chain app]. rewrite size_set_ptr. unfold m1. rewrite size_set by apply u32_range.
      rewrite ptr_set by (rewrite <- Hc2; apply ptr_range). split_and!; [|done|].
      * apply u32_id. unfold in_proc, sizeof_Header in *. lia.
      * revert Hc3. apply (chain_frame p); [done|]. by apply Forall_cons in Hab as [_ Hab].
    + cbn [spaced app] in *. split; [|done]. destruct post as [|[b' k'] post]; [done|].
      unfold sizeof_Header in *. lia.
  - rewrite (set_ptr_ok s p Hp). exists [(p, n); (bp, bsz)], (store 8 (umem s) p bp).
    pose proof (only_hdr_ptr (umem s) p bp) as Ho.
    split_and!; [done|done| | |by left].
    + change (chain (store 8 (umem s) p bp) ([(p, n)] ++ (bp, bsz) :: post) base). apply ring_chain_app. split.
      * cbn [chain]. rewrite size_set_ptr, ptr_set by (unfold in_proc, sizeof_Header in *; lia). done.
      * revert Hc. by apply (chain_frame p).
    + cbn [app]. cbn [spaced] in *. split; [unfold sizeof_Header in *; lia|done].
Qed.

(** The neighbours of a block that is to be freed do not reach into it. *)
Lemma neighbours base s L bp bn pre p n post :
  ring base s L -> apart base (bp, bn) L ->
  (base, 0) :: L = pre ++ (p, n) :: post -> p < bp -> Forall (fun x => bp < x.1) post ->
  p + sizeof_Header <= bp /\ p + sizeof_Header * n <= bp /\ Forall (free_block s) post /\
  Forall (fun x => bp + sizeof_Header * bn <= x.1) post /\ (p = base /\ n = 0 /\ pre = [] \/ (p, n) ∈ L /\ 1 <= n).
Proof.
  intros Hr (Hbn & Hbb & Hdj) EN Hpb Hpost. pose proof (r_free _ _ _ Hr) as Hfr. rewrite Forall_forall in Hfr, Hdj, Hpost.
  assert (Hsub : forall x, x ∈ post -> x ∈ L).
  { intros x Hx. destruct pre as [|y pre]; cbn in EN; simplify_eq; [done|].
    apply elem_of_app. right. by right. }
  assert (Hpn : p = base /\ n = 0 /\ pre = [] \/ (p, n) ∈ L /\ 1 <= n).
  { destruct pre as [|y pre]; cbn in EN; simplify_eq; [by left|right].
    assert ((p, n) ∈ pre ++ (p, n) :: post) as Hx by (apply elem_of_app; right; left).
    split; [done|]. apply (Hfr _ Hx). }
  cbn [fst snd] in *. split_and!; [| |apply Forall_forall; intros x Hx; apply Hfr; auto|apply Forall_forall|done].
  - destruct Hpn as [(-> & -> & _)|[Hx ?]]; [done|]. specialize (Hdj _ Hx).
    unfold disjoint_blocks, sizeof_Header in *. cbn in *. lia.
  - destruct Hpn as [(-> & -> & _)|[Hx ?]]; [unfold sizeof_Header in *; lia|]. specialize (Hdj _ Hx).
    unfold disjoint_blocks, sizeof_Header in *. cbn in *. lia.
  - intros x Hx. specialize (Hpost x Hx). specialize (Hfr x (Hsub x Hx)). specialize (Hdj x (Hsub x Hx)).
    unfold disjoint_blocks, sizeof_Header in *. cbn in *. lia.
Qed.

(** The list of free blocks after the two joins. *)
Lemma rejoin base s L pre p n post mid bp bn bsz post' :
  (base, 0) :: L = pre ++ (p, n) :: post ->
  p = base /\ n = 0 /\ pre = [] \/ (p, n) ∈ L /\ 1 <= n ->
  mid = [(p, n); (bp, bsz)] \/ 1 <= n /\ mid = [(p, n + bsz)] /\ p + sizeof_Header * n = bp ->
  Forall (free_block s) L -> Forall (free_block s) ((bp, bsz) :: post') ->
  bn <= bsz -> bsz + total post' = bn + total post -> (length post' <= length post)%nat ->
  (forall y, apart base y ((bp, bn) :: post) -> apart base y ((bp, bsz) :: post')) ->
  exists L', (base, 0) :: L' = pre ++ mid ++ post' /\ total L' = total L + bn /\
    (length L' <= length L + 1)%nat /\ Exists (fun x => bn <= x.2) L' /\ Forall (free_block s) L' /\
    (forall y, apart base y ((bp, bn) :: L) -> apart base y L').
Proof.
  intros EN Hpn Hmid HL Hpost' Hge Htot Hlen Hap. destruct pre as [|y0 pre]; cbn in EN; simplify_eq.
  - destruct Hmid as [->|(? & ? & ?)]; [|lia]. exists ((bp, bsz) :: post'). split_and!; [done|cbn; lia|cbn; lia| |done|done].
    by left.
  - destruct Hpn as [(? & ? & ?)|[_ Hn]]; [done|]. exists (pre ++ mid ++ post').
    apply Forall_app in HL as [HL1 [HL2 HL3]%Forall_cons]. apply Forall_cons in Hpost' as [Hbp Hpost'].
    split_and!; [done|..].
    + rewrite !total_app. cbn [total snd]. destruct Hmid as [->|(_ & -> & _)]; cbn [total snd]; lia.
    + rewrite !length_app. cbn [length]. destruct Hmid as [->|(_ & -> & _)]; cbn [length]; lia.
    + apply Exists_app. right. apply Exists_app. left.
      destruct Hmid as [->|(_ & -> & _)]; [right; by left|left; cbn; lia].
    + apply Forall_app. split; [done|]. apply Forall_app. split; [|done].
      destruct Hmid as [->|(_ & -> & ?)]; [by rewrite !Forall_cons|]. apply Forall_singleton.
      destruct Hbp as [??]. split; cbn in *; unfold sizeof_Header in *; lia.
    + intros y. rewrite (apart_cons base y (bp, bn)), !apart_app, (apart_cons base y (p, n)).
      intros (H1 & H2 & H3 & H4). pose proof (Hap y ltac:(apply apart_cons; auto)) as H5.
      rewrite apart_cons in H5. destruct H5 as [H5 H6]. split_and!; [done| |done].
      destruct Hmid as [->|(_ & -> & ?)]; [rewrite apart_cons; auto|].
      rewrite apart_one in *. unfold disjoint_blocks, sizeof_Header in *. cbn in *. lia.
Qed.

(** free() on a block that is not in the ring puts it there. *)
Lemma free_ring base s L bp bn fuel :
  0 < base /\ base + sizeof_Header <= brk s < 2 ^ 31 -> ring base s L ->
  size (umem s) bp = bn -> free_block s (bp, bn) -> apart base (bp, bn) L -> (length L + 2 <= fuel)%nat ->
  exists s' L', free fuel (bp + sizeof_Header) s = Ok ((), s') /\ brk s' = brk s /\ freep s' <> 0 /\
    ring base s' L' /\ total L' = total L + bn /\ (length L' <= length L + 1)%nat /\
    Exists (fun x => bn <= x.2) L' /\
    (forall y, apart base y ((bp, bn) :: L) ->
       apart base y L' /\ same_on (umem s') (umem s) y.1 (sizeof_Header * y.2)).
Proof.
  intros Hb Hr Hsz [Hbn Htop] Hap Hfuel. pose proof Hap as (_ & Hbb & Hdj).
  cbn [fst snd] in Hbn, Htop, Hbb.
  pose proof (ring_nonneg _ _ _ Hr) as Hnn. pose proof (ring_in_proc _ _ _ Hr Hb) as Hin.
  pose proof (r_free _ _ _ Hr) as Hfr.
  assert (Hibp : in_proc s bp) by (unfold in_proc, sizeof_Header in *; lia).
  destruct (free_find _ _ _ Hr Hb bp fuel) as (pre & p & n & post & EN & Hpb & Hpost & Hloop).
  { unfold sizeof_Header in *. lia. }
  { rewrite Forall_forall in *. intros x Hx. specialize (Hdj x Hx). specialize (Hfr x Hx).
    unfold disjoint_blocks, sizeof_Header in *. cbn in Hdj. lia. }
  { done. }
  unfold free. replace (padd (bp + sizeof_Header) (-1)) with bp
    by (unfold padd; symmetry; rewrite u64_id; unfold in_proc, sizeof_Header in *; lia).
  kdo (eq_refl : get_freep s = Ok (freep s, s)). kdo Hloop.
  destruct (neighbours _ _ _ _ _ _ _ _ _ Hr Hap EN Hpb Hpost) as (Hp1 & Hp2 & Hfpost & Hapost & Hpn).
  pose proof (r_chain _ _ _ Hr) as Hc. pose proof (r_spaced _ _ _ Hr) as Hs. rewrite EN in Hc, Hs, Hin, Hnn.
  apply ring_chain_app in Hc as [Hc1 (Hpsz & Hpp & Hc2)]. apply spaced_app in Hs as [Hs1 Hs2].
  apply Forall_app in Hin as [Hin1 [Hinp _]%Forall_cons].
  pose proof (spaced_before _ _ Hs1 ltac:(apply Forall_app in Hnn as [? [??]%Forall_cons]; apply Forall_app; auto)) as Hbef.
  cbn [fst snd hd_addr] in *.
  destruct (free_up_ok base s p bp bn post) as (bsz & post' & m1 & E1 & Ho1 & Hc1' & Hs1' & Hf1' & Hge & Htot & Hlen & Hap1);
    [done|done|done|unfold sizeof_Header in *; lia|done|done|done|done|by destruct Hs2|done|done|].
  kdo E1.
  destruct (free_down_ok base (with_mem s m1) p n bp bsz post') as (mid & m2 & E2 & Ho2 & Hc2' & Hs2' & Hmid);
    [done|done|done|done|destruct Hpn as [(_ & -> & _)|[_ ?]]; lia|lia|
     |done|done|done|].
  { cbn [umem with_mem]. destruct (only_hdr_fields _ _ _ p Ho1 ltac:(lia)) as [_ ->]. done. }
  kdo E2. cbn [umem with_mem] in Ho2.
  destruct (rejoin _ _ _ _ _ _ _ _ _ _ _ _ EN Hpn Hmid Hfr Hf1' Hge Htot Hlen Hap1)
    as (L' & EN' & Htot' & Hlen' & Hex & Hfr' & Hap').
  exists (UState m2 (brk s) p), L'. cbn [brk umem freep].
  assert (Hmid0 : exists k mid', mid = (p, k) :: mid')
    by (destruct Hmid as [->|(_ & -> & _)]; eauto).
  assert (p <> 0).
  { destruct Hpn as [(? & _)|[Hx _]]; [lia|]. pose proof (ring_above _ _ _ Hr) as Hab.
    rewrite Forall_forall in Hab. specialize (Hab _ Hx). cbn in Hab. unfold sizeof_Header in *. lia. }
  split_and!; [done|done|done| |done..|].
  - constructor; cbn [umem brk freep].
    + rewrite EN'. apply ring_chain_app. split; [|done]. destruct Hmid0 as (k & mid' & ->). cbn [app hd_addr].
      apply (chain_frame p m1); [done|apply (Forall_impl _ _ _ Hbef); lia|].
      apply (chain_frame bp (umem s)); [done|apply (Forall_impl _ _ _ Hbef); unfold sizeof_Header in *; lia|done].
    + rewrite EN'. destruct Hmid0 as (k & mid' & ->). cbn [app] in *. apply spaced_app.
      split; [exact (spaced_last _ _ _ k Hs1)|done].
    + rewrite EN'. destruct Hmid0 as (k & mid' & ->). rewrite !fmap_app. apply elem_of_app. right. left.
    + done.
  - intros y Hy. split; [by apply Hap'|]. apply (same_on_trans _ m1).
    + apply (only_hdr_same_on p); [done|]. apply apart_cons in Hy as [_ (Hy1 & Hy2 & Hy3)].
      destruct Hpn as [(-> & -> & _)|[Hx _]]; [right; done|]. rewrite Forall_forall in Hy3, Hfr.
      specialize (Hy3 _ Hx). specialize (Hfr _ Hx). unfold disjoint_blocks, sizeof_Header in *. cbn in *. lia.
    + apply (only_hdr_same_on bp); [done|]. apply apart_cons in Hy as [Hy _]. apply apart_one in Hy.
      unfold disjoint_blocks, sizeof_Header in *. cbn in *. lia.
Qed.

(** *** malloc: the search *)

Lemma chain_ptr m l e a : chain m l e -> a ∈ l.*1 -> ptr m a ∈ (tail l).*1 \/ ptr m a = e.
Proof.
  induction l as [|[b n] l IH]; [by intros _ ?%not_elem_of_nil|]. cbn [chain]. intros (_ & Hq & Hc) [->|Ha]%elem_of_cons.
  - cbn [fst tail]. rewrite Hq. destruct l as [|[b' n'] l]; [by right|left; left].
  - cbn [tail]. destruct (IH Hc Ha) as [H|H]; [left|by right].
    destruct l as [|x l]; [done|]. by right.
Qed.

Section Search.
Context (grow : Z -> Z -> bool) (fuel : nat) (nunits : Z) (s : ustate).
Let body := malloc_body grow fuel nunits.

Lemma body_next p prevp : in_proc s p -> size (umem s) p < nunits -> p <> freep s ->
  body (p, prevp) s = Ok (inl (ptr (umem s) p, p), s).
Proof.
  intros Hp Hsz Hf. unfold body, malloc_body. kdo (get_size_ok s p Hp).
  destruct (Z.leb_spec nunits (size (umem s) p)); [lia|].
  kdo (eq_refl : get_freep s = Ok (freep s, s)). destruct (Z.eqb_spec p (freep s)); [done|].
  kdo (eq_refl : mret (M := M ustate) (Some p) s = Ok (Some p, s)). by kdo (get_ptr_ok s p Hp).
Qed.

(** Along a list without [freep], the search stops at the first block that is large
    enough, or reaches the end. *)
Lemma search_seg l e prev : chain (umem s) l e -> Forall (fun x => in_proc s x.1) l ->
  freep s ∉ l.*1 -> ptr (umem s) prev = hd_addr l e ->
  (exists k pv p n, (k <= length l)%nat /\ (p, n) ∈ l /\ nunits <= n /\ ptr (umem s) pv = p /\ pv ∈ (prev :: l.*1) /\
     forall g, loop (k + g) body (hd_addr l e, prev) s = loop g body (p, pv) s) \/
  (Forall (fun x => x.2 < nunits) l /\ exists pv, ptr (umem s) pv = e /\ pv ∈ (prev :: l.*1) /\
     forall g, loop (length l + g) body (hd_addr l e, prev) s = loop g body (e, pv) s).
Proof.
  revert prev. induction l as [|[b n] l IH]; intros prev Hc Hi Hf Hprev.
  - right. split; [done|]. exists prev. split_and!; [done|by left|done].
  - destruct Hc as (Hsz & Hq & Hc). apply Forall_cons in Hi as [Hib Hi].
    apply not_elem_of_cons in Hf as [Hfb Hf]. cbn [fst hd_addr] in *.
    destruct (Z.lt_ge_cases n nunits) as [Hlt|Hge].
    + destruct (IH b Hc Hi Hf Hq) as [(k & pv & p & n' & Hk & Hin & Hn & Hpv & Hpin & Hl)|(Hall & pv & Hpv & Hpin & Hl)].
      * left. exists (S k), pv, p, n'. split_and!; [cbn; lia|by right|done|done|by right|].
        intros g. cbn [Nat.add]. rewrite <- Hl, <- Hq. apply loop_next, body_next; [done|lia|done].
      * right. split; [by constructor|]. exists pv. split_and!; [done|by right|].
        intros g. cbn [length Nat.add]. rewrite <- Hl, <- Hq. apply loop_next, body_next; [done|lia|done].
    + left. exists O, prev, b, n. split_and!; [lia|left|lia|done|left|done].
Qed.
End Search.

(** One turn of the ring: a block that is large enough, with its predecessor, or back
    at [freep] with none. *)
Lemma search_ring grow base s L fuel nunits :
  0 < base /\ base + sizeof_Header <= brk s < 2 ^ 31 -> ring base s L -> 1 <= nunits ->
  let body := malloc_body grow fuel nunits in
  (exists k pv p n, (k <= length L)%nat /\ (p, n) ∈ L /\ nunits <= n /\ ptr (umem s) pv = p /\
     pv ∈ ((base, 0) :: L).*1 /\
     forall g, loop (k + g) body (ptr (umem s) (freep s), freep s) s = loop g body (p, pv) s) \/
  (Forall (fun x => x.2 < nunits) L /\ exists pv,
     forall g, loop (length L + g) body (ptr (umem s) (freep s), freep s) s = loop g body (freep s, pv) s).
Proof.
  intros Hb Hr Hn body. pose proof (ring_in_proc _ _ _ Hr Hb) as Hin. pose proof (ring_nonneg _ _ _ Hr) as Hnn.
  destruct Hr as [Hc Hs Hf _]. apply list_elem_of_fmap in Hf as [[f fn] [Ef Hf]]. cbn in Ef. rewrite Ef.
  apply list_elem_of_split in Hf as (a & b & EN).
  assert (Hlen : (length a + length b = length L)%nat).
  { apply (f_equal length) in EN. rewrite length_app in EN. cbn in EN. lia. }
  assert (HL : forall p n, (p, n) ∈ (base, 0) :: L -> nunits <= n -> (p, n) ∈ L).
  { intros p n [[= -> ->]|?]%elem_of_cons ?; [lia|done]. }
  assert (HN : forall pv, pv ∈ (f :: b.*1) \/ pv ∈ a.*1 -> pv ∈ ((base, 0) :: L).*1).
  { intros pv H. rewrite EN, fmap_app. apply elem_of_app. destruct H; [by right|by left]. }
  assert (Hsub : forall x, x ∈ a \/ x ∈ (f, fn) :: b -> x ∈ (base, 0) :: L).
  { intros x H. rewrite EN. apply elem_of_app. tauto. }
  rewrite EN in Hc, Hin, Hs, Hnn. apply ring_chain_app in Hc as [Hca (Hfs & Hfq & Hcb)]. cbn [hd_addr] in Hca.
  apply Forall_app in Hin as [Hia [Hif Hib]%Forall_cons].
  apply spaced_app in Hs as [Hsa Hsb]. apply Forall_app in Hnn as [Hna Hnb].
  assert (Hfb : freep s ∉ b.*1 /\ freep s ∉ a.*1).
  { pose proof (spaced_after _ _ Hsb Hnb) as H1.
    pose proof (spaced_before _ _ Hsa ltac:(apply Forall_app; split; [done|]; apply Forall_cons in Hnb as [? _]; by constructor)) as H2.
    rewrite Ef. split; intros [[x k] [E Hx]]%list_elem_of_fmap; cbn in E; subst x;
      [rewrite Forall_forall in H1; specialize (H1 _ Hx)|rewrite Forall_forall in H2; specialize (H2 _ Hx)];
      cbn in *; unfold sizeof_Header in *; lia. }
  rewrite Hfq.
  destruct (search_seg grow fuel nunits s b base f Hcb Hib (proj1 Hfb) Hfq)
    as [(k & pv & p & n & Hk & Hpin & Hge & Hpv & Hpvin & Hl)|(Hall & pv & Hpv & Hpvin & Hl)].
  { left. exists k, pv, p, n. split_and!; [lia|apply HL; [|done]; apply Hsub; right; by right|done|done| |done].
    apply HN. by left. }
  assert (Ehd : hd_addr a f = base) by (by destruct a as [|[??] ?]; cbn in EN; simplify_eq).
  destruct (search_seg grow fuel nunits s a f pv Hca Hia (proj2 Hfb) ltac:(congruence))
    as [(k & pv2 & p & n & Hk & Hpin & Hge & Hpv2 & Hpvin2 & Hl2)|(Hall2 & pv2 & Hpv2 & Hpvin2 & Hl2)];
    rewrite Ehd in Hl2.
  - left. exists (length b + k)%nat, pv2, p, n.
    split_and!; [lia|apply HL; [|done]; apply Hsub; by left|done|done| |].
    + apply HN. apply elem_of_cons in Hpvin2 as [->|?]; [by left|by right].
    + intros g. by rewrite <- Nat.add_assoc, Hl, Hl2.
  - destruct (Z.lt_ge_cases fn nunits) as [Hlt|Hge].
    + right. split.
      * assert (Forall (fun x => x.2 < nunits) ((base, 0) :: L)) as [_ HLL]%Forall_cons; [|done].
        rewrite EN. apply Forall_app. split; [done|]. by constructor.
      * exists pv2. intros g. replace (length L + g)%nat with (length b + (length a + g))%nat by lia.
        by rewrite Hl, Hl2.
    + left. exists (length b + length a)%nat, pv2, f, fn.
      split_and!; [lia|apply HL; [|lia]; apply Hsub; right; left|lia|done| |].
      * apply HN. apply elem_of_cons in Hpvin2 as [->|?]; [by left|by right].
      * intros g. by rewrite <- Nat.add_assoc, Hl, Hl2.
Qed.

(** *** malloc: taking a block *)

Lemma pred_unique base s L x p n z pv w u un :
  0 < base /\ base + sizeof_Header <= brk s < 2 ^ 31 -> ring base s L ->
  L = x ++ (p, n) :: z -> (base, 0) :: x = w ++ [(u, un)] ->
  ptr (umem s) pv = p -> pv ∈ ((base, 0) :: L).*1 -> pv = u.
Proof.
  intros Hb Hr -> Ew Hpv Hin. pose proof (ring_nonneg _ _ _ Hr) as Hnn. destruct Hr as [Hc Hs _ _].
  change ((base, 0) :: x ++ (p, n) :: z) with (((base, 0) :: x) ++ (p, n) :: z) in *.
  rewrite fmap_app in Hin. apply ring_chain_app in Hc as [Hc1 Hc2]. apply spaced_app in Hs as [Hs1 Hs2].
  apply Forall_app in Hnn as [Hn1 Hn2].
  pose proof (spaced_before _ _ Hs1 ltac:(apply Forall_app; split; [done|]; apply Forall_cons in Hn2 as [? _]; by constructor)) as Hbef.
  pose proof (spaced_after _ _ Hs2 Hn2) as Haft. rewrite Forall_forall in Hbef, Haft. cbn [hd_addr] in Hc1.
  apply elem_of_app in Hin as [Hin|Hin].
  - rewrite Ew in Hc1, Hin, Hbef. apply ring_chain_app in Hc1 as [Hc1 _]. cbn [hd_addr] in Hc1.
    rewrite fmap_app in Hin. apply elem_of_app in Hin as [Hin|Hin]; [|by apply list_elem_of_singleton in Hin].
    exfalso. destruct (chain_ptr _ _ _ _ Hc1 Hin) as [H|H].
    + apply list_elem_of_fmap in H as [[y k] [Ey Hy]]. cbn in Ey.
      assert (Hy' : (y, k) ∈ w) by (destruct w; [done|by right]).
      specialize (Hbef (y, k) ltac:(apply elem_of_app; by left)). cbn in Hbef. unfold sizeof_Header in *. lia.
    + specialize (Hbef (u, un) ltac:(apply elem_of_app; right; left)). cbn in Hbef. unfold sizeof_Header in *. lia.
  - exfalso. destruct (chain_ptr _ _ _ _ Hc2 Hin) as [H|H]; cbn [tail] in *.
    + apply list_elem_of_fmap in H as [[y k] [Ey Hy]]. cbn in Ey. specialize (Haft _ Hy). cbn in Haft.
      unfold sizeof_Header in *. lia.
    + specialize (Hbef (base, 0) ltac:(left)). cbn in Hbef. unfold sizeof_Header in *. lia.
Qed.

(** Blocks of callers contain no header of the ring. *)
Lemma apart_hdr base s L u un y : ring base s L -> (u, un) ∈ (base, 0) :: L -> apart base y L ->
  y.1 + sizeof_Header * y.2 <= u \/ u + sizeof_Header <= y.1.
Proof.
  intros Hr [[= -> ->]|Hx]%elem_of_cons (Hy1 & Hy2 & Hy3); [by right|].
  pose proof (r_free _ _ _ Hr) as Hf. rewrite Forall_forall in Hf, Hy3. specialize (Hf _ Hx). specialize (Hy3 _ Hx).
  unfold disjoint_blocks, sizeof_Header in *. cbn in *. lia.
Qed.

(** What malloc() hands out. *)
Definition handed (base : Z) (s : ustate) (L : list block) (r nunits : Z) (s' : ustate) (L' : list block) : Prop :=
  ring base s' L' /\ total L = total L' + nunits /\ size (umem s') r = nunits /\
  free_block s' (r, nunits) /\ apart base (r, nunits) L' /\
  (forall y, apart base y L -> disjoint_blocks y (r, nunits) /\ apart base y L' /\
     same_on (umem s') (umem s) y.1 (sizeof_Header * y.2)).

Section Carve.
Context (base : Z) (s : ustate) (x z w : list block) (p n u un nunits : Z).
Let L := x ++ (p, n) :: z.
Context (Hb : 0 < base /\ base + sizeof_Header <= brk s < 2 ^ 31) (Hr : ring base s L) (Hn : 1 <= nunits <= n).
Context (Ew : (base, 0) :: x = w ++ [(u, un)]).

Lemma carve_nodes :
  in_proc s p /\ in_proc s u /\ u + sizeof_Header <= p /\ p + sizeof_Header * n <= brk s /\ base + sizeof_Header <= p /\
  Forall (fun y => y.1 + sizeof_Header <= p /\ y.1 + sizeof_Header * y.2 < p) ((base, 0) :: x) /\
  Forall (fun y => p + sizeof_Header <= y.1 /\ p + sizeof_Header * n < y.1) z /\
  Forall (fun y => y.1 + sizeof_Header <= u) w.
Proof.
  pose proof (ring_nonneg _ _ _ Hr) as Hnn. pose proof (ring_in_proc _ _ _ Hr Hb) as Hin.
  pose proof (r_spaced _ _ _ Hr) as Hs. pose proof (r_free _ _ _ Hr) as Hf. unfold L in *.
  change ((base, 0) :: x ++ (p, n) :: z) with (((base, 0) :: x) ++ (p, n) :: z) in *.
  apply spaced_app in Hs as [Hs1 Hs2]. apply Forall_app in Hnn as [Hn1 Hn2], Hin as [Hi1 [Hi2 _]%Forall_cons].
  apply Forall_app in Hf as [_ [[_ Hf] _]%Forall_cons]. cbn [fst snd] in *.
  assert (Hn1' : Forall (fun y => 0 <= y.2) (((base, 0) :: x) ++ [(p, n)]))
    by (apply Forall_app; split; [done|]; apply Forall_cons in Hn2 as [? _]; by constructor).
  pose proof (spaced_before _ _ Hs1 Hn1') as Hbef.
  pose proof (spaced_after _ _ Hs2 Hn2) as Haft. cbn [fst snd] in *.
  rewrite Ew in Hi1, Hbef, Hs1, Hn1 |- *. rewrite <- app_assoc in Hs1. cbn [app] in Hs1.
  apply spaced_app in Hs1 as [Hs1 _].
  pose proof (spaced_before _ _ Hs1 Hn1) as Hw. cbn [fst snd] in *.
  apply Forall_app in Hi1 as [_ [Hi1 _]%Forall_cons].
  pose proof Hbef as [_ [[Hup _] _]%Forall_cons]%Forall_app. cbn [fst snd] in *.
  assert (base + sizeof_Header <= p).
  { rewrite <- Ew in Hbef. by apply Forall_cons in Hbef as [[? _] _]. }
  split_and!; try done. apply (Forall_impl _ _ _ Hw). lia.
Qed.

(** The whole block. *)
Lemma carve_all : exists s',
  carve n p u n s = Ok (p + sizeof_Header, s') /\ brk s' = brk s /\ handed base s L p n s' (x ++ z).
Proof.
  destruct carve_nodes as (Hip & Hiu & Hup & Htop & Hbp & Hbef & Haft & Hw).
  unfold carve. rewrite Z.eqb_refl. rewrite bind_assoc. kdo (get_ptr_ok s p Hip). rewrite bind_assoc.
  kdo (set_ptr_ok s u Hiu (ptr (umem s) p)). set (m' := store 8 _ _ _).
  assert (Hpad : padd p 1 = p + sizeof_Header)
    by (rewrite (padd_id s) by (done || unfold in_proc, sizeof_Header in *; lia); unfold sizeof_Header; lia).
  exists (UState m' (brk s) u). rewrite <- Hpad. split_and!; [done|done|]. pose proof Hr as [Hc Hs Hf Hfr]. unfold L in *.
  change ((base, 0) :: x ++ (p, n) :: z) with (((base, 0) :: x) ++ (p, n) :: z) in *.
  pose proof (only_hdr_ptr (umem s) u (ptr (umem s) p) : only_hdr u (umem s) m') as Ho.
  apply ring_chain_app in Hc as [Hc1 (Hpsz & Hpp & Hc2)]. rewrite Ew in Hc1. apply ring_chain_app in Hc1 as [Hc1 (Hus & Hup' & _)].
  cbn [hd_addr] in *.
  assert (Hbefz : Forall (fun y => y.1 + sizeof_Header <= u \/ u + sizeof_Header <= y.1) z)
    by (apply (Forall_impl _ _ _ Haft); unfold sizeof_Header in *; lia).
  assert (Hu : (u, un) ∈ (base, 0) :: x) by (rewrite Ew; apply elem_of_app; right; left).
  unfold handed. cbn [umem brk]. split_and!.
  - constructor; cbn [umem freep brk].
    + change (chain m' (((base, 0) :: x) ++ z) base). rewrite Ew, <- app_assoc. apply ring_chain_app. cbn [app hd_addr].
      split; [by apply (chain_frame u (umem s)); [done|apply (Forall_impl _ _ _ Hw); auto|]|].
      cbn [chain]. unfold m'. rewrite size_set_ptr, ptr_set by apply ptr_range. split_and!; [done..|].
      revert Hc2. by apply (chain_frame u).
    + change (spaced (((base, 0) :: x) ++ z)). rewrite Ew in Hs |- *. rewrite <- !app_assoc in *. cbn [app] in *.
      apply spaced_app in Hs as [Hs1 Hs2]. apply spaced_app. split; [done|]. cbn [spaced] in *.
      destruct Hs2 as [Hs2 [_ Hs3]]. split; [|done]. destruct z as [|[b' k'] z']; [done|].
      apply Forall_cons in Haft as [Haft _]. cbn in Haft. unfold sizeof_Header in *. lia.
    + change (u ∈ (((base, 0) :: x) ++ z).*1). rewrite fmap_app. apply elem_of_app. left.
      apply (list_elem_of_fmap_2 fst) in Hu. done.
    + apply Forall_app in Hfr as [Hf1 [_ Hf2]%Forall_cons]. apply Forall_app. done.
  - rewrite !total_app. cbn [total snd]. lia.
  - destruct (only_hdr_fields _ _ _ p Ho ltac:(unfold sizeof_Header in *; lia)) as [_ ->]. done.
  - split; cbn; lia.
  - split_and!; [cbn; lia|done|]. apply Forall_cons in Hbef as [_ Hbef]. apply Forall_app. split.
    + apply (Forall_impl _ _ _ Hbef). unfold disjoint_blocks. cbn. lia.
    + apply (Forall_impl _ _ _ Haft). unfold disjoint_blocks. cbn. lia.
  - intros y Hy. pose proof Hy as [H1 [H2 H3]%apart_cons]%apart_app. apply apart_one in H2.
    split_and!; [tauto|by apply apart_app|].
    apply (only_hdr_same_on u); [done|]. apply (apart_hdr base s L u un); [done| |done].
    apply elem_of_cons in Hu as [->|Hu]; [left|]. right. apply elem_of_app. by left.
Qed.

(** The upper part of the block. *)
Lemma carve_tail : nunits < n -> exists s',
  let r := p + sizeof_Header * (n - nunits) in
  carve nunits p u n s = Ok (r + sizeof_Header, s') /\ brk s' = brk s /\
  handed base s L r nunits s' (x ++ (p, n - nunits) :: z).
Proof.
  intros Hlt. set (r := p + sizeof_Header * (n - nunits)).
  destruct carve_nodes as (Hip & Hiu & Hup & Htop & Hbp & Hbef & Haft & Hw).
  assert (Hir : in_proc s r) by (unfold r, in_proc, sizeof_Header in *; lia).
  assert (Hpr : p + sizeof_Header <= r) by (unfold r, sizeof_Header; lia).
  assert (Hrt : r + sizeof_Header * nunits = p + sizeof_Header * n) by (unfold r, sizeof_Header; lia).
  unfold carve. destruct (Z.eqb_spec n nunits); [lia|]. rewrite bind_assoc.
  assert (Hn' : u32 (n - nunits) = n - nunits) by (apply u32_id; unfold in_proc, sizeof_Header in *; lia).
  rewrite Hn'. kdo (set_size_ok s p Hip (n - nunits)). set (m1 := store 4 _ _ _).
  rewrite bind_assoc. kdo (get_size_ok (with_mem s m1) p Hip). cbn [umem with_mem].
  assert (Hm1 : size m1 p = n - nunits) by (apply size_set; unfold in_proc, sizeof_Header in *; lia).
  rewrite Hm1. replace (padd p (n - nunits)) with r by (symmetry; apply (padd_id s); unfold r, in_proc, sizeof_Header in *; (done || lia)).
  rewrite bind_assoc. kdo (set_size_ok (with_mem s m1) r Hir nunits). cbn [umem with_mem]. set (m2 := store 4 m1 _ _).
  assert (Hpad : padd r 1 = r + sizeof_Header)
    by (rewrite (padd_id s) by (done || unfold in_proc, sizeof_Header in *; lia); unfold sizeof_Header; lia).
  exists (UState m2 (brk s) u). rewrite <- Hpad. split_and!; [done|done|].
  pose proof (only_hdr_size (umem s) p (n - nunits) : only_hdr p (umem s) m1) as Ho1.
  pose proof (only_hdr_size m1 r nunits : only_hdr r m1 m2) as Ho2.
  clearbody r.
  pose proof Hr as [Hc Hs Hf Hfr]. unfold L in *.
  change ((base, 0) :: x ++ (p, n) :: z) with (((base, 0) :: x) ++ (p, n) :: z) in *.
  apply ring_chain_app in Hc as [Hc1 (Hpsz & Hpp & Hc2)]. cbn [hd_addr] in Hc1.
  assert (Hu : (u, un) ∈ (base, 0) :: x) by (rewrite Ew; apply elem_of_app; right; left).
  destruct (only_hdr_fields _ _ _ p Ho2 ltac:(lia)) as [Hp2 Hs2p].
  assert (Hm12 : forall l e, Forall (fun y => y.1 + sizeof_Header <= p \/ r + sizeof_Header <= y.1) l ->
    chain (umem s) l e -> chain m2 l e).
  { intros l e Hl Hc. apply (chain_frame r m1); [done|apply (Forall_impl _ _ _ Hl); unfold sizeof_Header in *; lia|].
    apply (chain_frame p (umem s)); [done|apply (Forall_impl _ _ _ Hl); unfold sizeof_Header in *; lia|done]. }
  apply Forall_app in Hfr as [Hf1 [_ Hf2]%Forall_cons].
  unfold handed. cbn [umem brk]. split_and!.
  - constructor; cbn [umem freep brk].
    + change (chain m2 (((base, 0) :: x) ++ (p, n - nunits) :: z) base). apply ring_chain_app. cbn [hd_addr].
      split; [by apply Hm12; [apply (Forall_impl _ _ _ Hbef); tauto|]|].
      cbn [chain]. rewrite Hs2p, Hp2, Hm1. unfold m1. rewrite ptr_set_size. split_and!; [done..|].
      apply Hm12; [|done]. apply (Forall_impl _ _ _ Haft). unfold sizeof_Header in *; lia.
    + change (spaced (((base, 0) :: x) ++ (p, n - nunits) :: z)). apply spaced_app in Hs as [Hs1 Hs2].
      apply spaced_app. split; [exact (spaced_last _ _ _ _ Hs1)|]. cbn [spaced] in *. destruct Hs2 as [_ Hs2].
      split; [|done]. destruct z as [|[b' k'] z']; [done|].
      apply Forall_cons in Haft as [Haft _]. cbn in Haft. unfold sizeof_Header in *. lia.
    + change (u ∈ (((base, 0) :: x) ++ (p, n - nunits) :: z).*1). rewrite fmap_app. apply elem_of_app. left.
      apply (list_elem_of_fmap_2 fst) in Hu. done.
    + apply Forall_app. split; [done|]. constructor; [|done]. cbn. unfold sizeof_Header in *. lia.
  - rewrite !total_app. cbn [total snd]. lia.
  - apply size_set. unfold in_proc, sizeof_Header in *. lia.
  - split; cbn; lia.
  - split_and!; [cbn; lia|cbn; unfold sizeof_Header in *; lia|]. apply Forall_cons in Hbef as [_ Hbef].
    apply Forall_app. split; [|constructor].
    + apply (Forall_impl _ _ _ Hbef). unfold disjoint_blocks, sizeof_Header in *. cbn. lia.
    + unfold disjoint_blocks, sizeof_Header in *. cbn. lia.
    + apply (Forall_impl _ _ _ Haft). unfold disjoint_blocks, sizeof_Header in *. cbn. lia.
  - intros y Hy. pose proof Hy as [H1 [H2 H3]%apart_cons]%apart_app. apply apart_one in H2.
    unfold disjoint_blocks in H2. cbn in H2. split_and!.
    + unfold disjoint_blocks, sizeof_Header in *. cbn. lia.
    + rewrite apart_app, apart_cons, apart_one. unfold disjoint_blocks, sizeof_Header in *. cbn.
      split; [done|]. split; [lia|done].
    + apply (same_on_trans _ m1); [apply (only_hdr_same_on r)|apply (only_hdr_same_on p)]; try done;
        unfold sizeof_Header in *; lia.
Qed.
End Carve.

Lemma carve_ok base s L p n pv nunits :
  0 < base /\ base + sizeof_Header <= brk s < 2 ^ 31 -> ring base s L -> 1 <= nunits <= n ->
  (p, n) ∈ L -> ptr (umem s) pv = p -> pv ∈ ((base, 0) :: L).*1 ->
  exists r s' L', carve nunits p pv n s = Ok (r + sizeof_Header, s') /\ brk s' = brk s /\
    handed base s L r nunits s' L'.
Proof.
  intros Hb Hr Hn Hin Hpv Hpvin. apply list_elem_of_split in Hin as (x & z & EL).
  destruct (exists_last (l := (base, 0) :: x) ltac:(done)) as (w & [u un] & Ew).
  rewrite (pred_unique base s L x p n z pv w u un Hb Hr EL Ew Hpv Hpvin). subst L.
  destruct (decide (n = nunits)) as [->|].
  - destruct (carve_all base s x z w p nunits u un nunits Hb Hr Hn Ew) as (s' & H1 & H2 & H3). eauto 10.
  - destruct (carve_tail base s x z w p n u un nunits Hb Hr Hn Ew) as (s' & H1 & H2 & H3); [lia|]. eauto 10.
Qed.

(** *** malloc: more memory *)

Lemma PGROUNDUP_le a b : 0 <= a <= b -> b < 2 ^ 63 -> PGROUNDUP a <= PGROUNDUP b.
Proof.
  intros H Hb. rewrite !PGROUNDUP_eq by (unfold PGSIZE; lia).
  apply Z.mul_le_mono_nonneg_l; [done|]. apply Z.div_le_mono; unfold PGSIZE; lia.
Qed.

Definition more (nunits : Z) : Z := if nunits <? 4096 then 4096 else nunits.

Section More.
Context (grow : Z -> Z -> bool) (base : Z) (s : ustate) (L : list block) (fuel : nat) (nunits : Z).
Context (Hgrow : forall sz newsz, grow sz newsz = true -> newsz < 2 ^ 31).
Context (Hb : 0 < base /\ base + sizeof_Header <= brk s < 2 ^ 31) (Hr : ring base s L).
Context (Hn : 1 <= nunits) (Hsmall : sizeof_Header * nunits < 2 ^ 31).

Lemma more_range : 4096 <= more nunits /\ nunits <= more nunits /\ sizeof_Header * more nunits < 2 ^ 31.
Proof. unfold more, sizeof_Header in *. destruct (Z.ltb_spec nunits 4096); lia. Qed.

Lemma sbrk_more :
  let newsz := brk s + sizeof_Header * more nunits in
  sbrk grow (i32 (u64 (more nunits * sizeof_Header))) s =
  if grow (brk s) newsz
  then Ok (brk s, UState (memset (umem s) (PGROUNDUP (brk s)) 0 (PGROUNDUP newsz - PGROUNDUP (brk s))) newsz (freep s))
  else Ok (u64 (-1), s).
Proof.
  pose proof more_range as Hm. intros newsz. unfold sbrk, newsz. clear newsz.
  rewrite u64_id, i32_id by (unfold sizeof_Header in *; lia).
  replace (more nunits * sizeof_Header) with (sizeof_Header * more nunits) by lia.
  rewrite (u32_id (brk s + _)), (i32_id (brk s)), (u64_id (brk s)) by (unfold sizeof_Header in *; lia).
  destruct (Z.gtb_spec (sizeof_Header * more nunits) 0); [|unfold sizeof_Header in *; lia].
  by destruct (Z.ltb_spec (brk s + sizeof_Header * more nunits) (brk s)); [unfold sizeof_Header in *; lia|].
Qed.

Lemma morecore_ok : (length L + 2 <= fuel)%nat ->
  let newsz := brk s + sizeof_Header * more nunits in
  if grow (brk s) newsz then exists s' L', morecore grow fuel nunits s = Ok (freep s', s') /\
    freep s' <> 0 /\ brk s' = newsz /\ newsz < 2 ^ 31 /\ ring base s' L' /\ total L' = total L + more nunits /\
    (length L' <= length L + 1)%nat /\ Exists (fun x => nunits <= x.2) L' /\
    (forall y, apart base y L -> y.1 + sizeof_Header * y.2 <= brk s ->
       apart base y L' /\ same_on (umem s') (umem s) y.1 (sizeof_Header * y.2))
  else morecore grow fuel nunits s = Ok (0, s).
Proof.
  intros Hf newsz. pose proof more_range as Hm. unfold morecore. fold (more nunits).
  pose proof sbrk_more as Hsb. cbn zeta in Hsb. fold newsz in Hsb.
  destruct (grow (brk s) newsz) eqn:Eg; [|by kdo Hsb]. apply Hgrow in Eg. kdo Hsb.
  destruct (Z.eqb_spec (brk s) (u64 (-1))) as [E|_]; [change (u64 (-1)) with (2 ^ 64 - 1) in E; lia|].
  set (s1 := UState _ newsz _).
  assert (Hi1 : in_proc s1 (brk s)) by (unfold in_proc, newsz, sizeof_Header in *; cbn; lia).
  kdo (set_size_ok s1 (brk s) Hi1 (more nunits)). set (s2 := with_mem s1 _).
  assert (Hpos : 0 < brk s) by (unfold sizeof_Header in *; lia).
  assert (Hpage : brk s <= PGROUNDUP (brk s) <= PGROUNDUP newsz).
  { pose proof (PGROUNDUP_range (brk s) ltac:(lia) ltac:(unfold PGSIZE; lia)).
    split; [lia|]. apply PGROUNDUP_le; unfold newsz, sizeof_Header in *; lia. }
  assert (Hlow : forall a k, a + k <= brk s -> same_on (umem s2) (umem s) a k).
  { intros a k Ha c Hc. unfold s2, s1. cbn [umem with_mem]. rewrite rd_store_out by lia. rewrite rd_memset by lia.
    by rewrite bool_decide_false by lia. }
  assert (Hr2 : ring base s2 L).
  { pose proof (ring_in_proc _ _ _ Hr Hb) as Hin. destruct Hr as [H1 H2 H3 H4]. constructor; try done.
    - revert H1. apply chain_same. apply (Forall_impl _ _ _ Hin). intros x [Hx1 Hx2]. apply Hlow. lia.
    - apply (Forall_impl _ _ _ H4). cbn. unfold newsz, sizeof_Header in *. lia. }
  replace (padd (brk s) 1) with (brk s + sizeof_Header)
    by (symmetry; rewrite (padd_id s1); unfold in_proc, newsz, sizeof_Header in *; cbn in *; lia).
  destruct (free_ring base s2 L (brk s) (more nunits) fuel) as (s' & L' & E & Hbrk & Hfp & Hr' & Ht & Hl & Hex & Hy).
  { cbn. unfold newsz, sizeof_Header in *. lia. }
  { done. }
  { apply size_set. unfold sizeof_Header in *. lia. }
  { split; cbn; unfold newsz; lia. }
  { split_and!; [cbn; lia|cbn; lia|]. apply (Forall_impl _ _ _ (r_free _ _ _ Hr)). unfold disjoint_blocks. cbn. lia. }
  { done. }
  kdo E. exists s', L'. split_and!; [done|done|done|done|done|done|done| |].
  - apply (Exists_impl _ _ _ Hex). lia.
  - intros y Hy1 Hy2. destruct (Hy y) as [Hy3 Hy4].
    { apply apart_cons. split; [|done]. apply apart_one. destruct Hy1 as (? & ? & _). unfold disjoint_blocks.
      cbn. split_and!; [done..|]. left. lia. }
    split; [done|]. apply (same_on_trans _ (umem s2)); [done|]. apply Hlow. lia.
Qed.
End More.

(** *** malloc and free on the heap *)

Lemma chain_size m l e p n : chain m l e -> (p, n) ∈ l -> size m p = n.
Proof.
  induction l as [|[b k] l IH]; [by intros _ ?%not_elem_of_nil|]. cbn [chain].
  intros (H1 & _ & H3) [[= -> ->]|H]%elem_of_cons; auto.
Qed.

(** malloc() grew the process by nothing or by one call of sbrk(), and took a block. *)
Definition gave (base : Z) (s : ustate) (L : list block) (nunits b : Z) (s' : ustate) (L' : list block) : Prop :=
  ring base s' L' /\ brk s <= brk s' < 2 ^ 31 /\
  sizeof_Header * (total L' + nunits) - brk s' = sizeof_Header * total L - brk s /\
  size (umem s') b = nunits /\ free_block s' (b, nunits) /\ apart base (b, nunits) L' /\
  (forall y, apart base y L -> y.1 + sizeof_Header * y.2 <= brk s ->
     disjoint_blocks y (b, nunits) /\ apart base y L' /\
     same_on (umem s') (umem s) y.1 (sizeof_Header * y.2)).

(** malloc() found no block, and sbrk() refused. *)
Definition refused (grow : Z -> Z -> bool) (s : ustate) (L : list block) (nunits : Z) : Prop :=
  Forall (fun x => x.2 < nunits) L /\ grow (brk s) (brk s + sizeof_Header * more nunits) = false.

Section Malloc.
Context (grow : Z -> Z -> bool) (base : Z) (nunits : Z).
Context (Hgrow : forall sz newsz, grow sz newsz = true -> newsz < 2 ^ 31).
Context (Hn : 1 <= nunits) (Hsmall : sizeof_Header * nunits < 2 ^ 31).

Lemma body_found fuel s L p n pv :
  0 < base /\ base + sizeof_Header <= brk s < 2 ^ 31 -> ring base s L -> nunits <= n ->
  (p, n) ∈ L -> ptr (umem s) pv = p -> pv ∈ ((base, 0) :: L).*1 ->
  exists b s' L', malloc_body grow fuel nunits (p, pv) s = Ok (inr (b + sizeof_Header), s') /\
    brk s' = brk s /\ handed base s L b nunits s' L'.
Proof.
  intros Hb Hr Hge Hin Hpv Hpvin.
  destruct (carve_ok base s L p n pv nunits) as (b & s' & L' & E & Hbrk & Hh); [done|done|lia|done..|].
  exists b, s', L'. split_and!; [|done|done]. unfold malloc_body.
  pose proof (ring_in_proc _ _ _ Hr Hb) as Hip. rewrite Forall_forall in Hip.
  specialize (Hip (p, n) ltac:(by right)). cbn in Hip. kdo (get_size_ok s p Hip).
  rewrite (chain_size _ _ _ p n (r_chain _ _ _ Hr) ltac:(by right)).
  destruct (Z.leb_spec nunits n); [|lia]. by kdo E.
Qed.

(** When some block is large enough, one turn finds one. *)
Lemma malloc_fits fuel g s L :
  0 < base /\ base + sizeof_Header <= brk s < 2 ^ 31 -> ring base s L -> (length L + 1 <= g)%nat ->
  Exists (fun x => nunits <= x.2) L ->
  exists b s' L', loop g (malloc_body grow fuel nunits) (ptr (umem s) (freep s), freep s) s =
    Ok (b + sizeof_Header, s') /\ brk s' = brk s /\ handed base s L b nunits s' L'.
Proof.
  intros Hb Hr Hg Hex.
  destruct (search_ring grow base s L fuel nunits Hb Hr Hn)
    as [(k & pv & p & n & Hk & Hin & Hge & Hpv & Hpvin & Hl)|[Hall _]].
  - destruct (body_found fuel s L p n pv Hb Hr Hge Hin Hpv Hpvin) as (b & s' & L' & E & Hbrk & Hh).
    exists b, s', L'. split_and!; [|done|done].
    replace g with (k + S (g - k - 1))%nat by lia. rewrite Hl. by apply loop_exit.
  - exfalso. rewrite Forall_forall in Hall. apply Exists_exists in Hex as (x & Hx & ?). specialize (Hall x Hx). lia.
Qed.

Lemma malloc_ring fuel s L :
  0 < base /\ base + sizeof_Header <= brk s < 2 ^ 31 -> ring base s L -> (2 * length L + 4 <= fuel)%nat ->
  let run := loop fuel (malloc_body grow fuel nunits) (ptr (umem s) (freep s), freep s) s in
  run = Ok (0, s) /\ refused grow s L nunits \/
  exists b s' L', run = Ok (b + sizeof_Header, s') /\ gave base s L nunits b s' L'.
Proof.
  intros Hb Hr Hf run. unfold run. destruct (decide (Exists (fun x => nunits <= x.2) L)) as [Hex|Hex].
  - right. destruct (malloc_fits fuel fuel s L Hb Hr ltac:(lia) Hex) as (b & s' & L' & E & Hbrk & Hh).
    exists b, s', L'. split; [done|]. destruct Hh as (H1 & H2 & H3 & H4 & H5 & H6).
    rewrite <- Hbrk in Hb. split_and!; [done|lia|lia|unfold sizeof_Header in *; lia|done|done|done|]. intros y Hy _. auto.
  - destruct (search_ring grow base s L fuel nunits Hb Hr Hn)
      as [(k & pv & p & n & Hk & Hin & Hge & _)|[Hall [pv Hl]]].
    { exfalso. apply Hex, Exists_exists. by exists (p, n). }
    assert (Hfs : in_proc s (freep s) /\ size (umem s) (freep s) < nunits).
    { pose proof (r_freep _ _ _ Hr) as Hfp. apply list_elem_of_fmap in Hfp as [[f fn] [Ef Hfp]]. cbn in Ef. rewrite Ef.
      pose proof (ring_in_proc _ _ _ Hr Hb) as Hip. rewrite Forall_forall in Hip, Hall. split; [apply (Hip _ Hfp)|].
      rewrite (chain_size _ _ _ _ _ (r_chain _ _ _ Hr) Hfp).
      apply elem_of_cons in Hfp as [[= -> ->]|Hfp]; [lia|apply (Hall _ Hfp)]. }
    assert (Hbody : forall o s', morecore grow fuel nunits s = Ok (o, s') ->
      malloc_body grow fuel nunits (freep s, pv) s =
      (if o =? 0 then mret (inr 0) else q ← get_ptr o; mret (inl (q, o))) s').
    { intros o s' E. unfold malloc_body. kdo (get_size_ok s (freep s) (proj1 Hfs)).
      destruct (Z.leb_spec nunits (size (umem s) (freep s))); [lia|].
      kdo (eq_refl : get_freep s = Ok (freep s, s)). rewrite Z.eqb_refl. rewrite bind_assoc. kdo E.
      by destruct (o =? 0). }
    specialize (Hl (S (fuel - length L - 1))).
    replace (length L + S (fuel - length L - 1))%nat with fuel in Hl by lia.
    pose proof (morecore_ok grow base s L fuel nunits Hgrow Hb Hr Hsmall ltac:(lia)) as Hm. cbn zeta in Hm.
    destruct (grow (brk s) _) eqn:Eg.
    + right. destruct Hm as (s1 & L1 & E1 & Hfp & Hbrk & Hlt & Hr1 & Ht & Hl1 & Hex1 & Hy1).
      assert (Hb1 : 0 < base /\ base + sizeof_Header <= brk s1 < 2 ^ 31)
        by (pose proof (more_range nunits Hsmall); unfold sizeof_Header in *; lia).
      destruct (malloc_fits fuel (fuel - length L - 1) s1 L1 Hb1 Hr1 ltac:(lia) Hex1) as (b & s' & L' & E & Hbrk' & Hh).
      exists b, s', L'. split.
      * rewrite Hl, <- E. apply loop_next. rewrite (Hbody _ _ E1). destruct (Z.eqb_spec (freep s1) 0); [done|].
        assert (Hif : in_proc s1 (freep s1)).
        { pose proof (r_freep _ _ _ Hr1) as Hfp1. apply list_elem_of_fmap in Hfp1 as [x [-> Hx]].
          pose proof (ring_in_proc _ _ _ Hr1 Hb1) as Hip. rewrite Forall_forall in Hip. apply (Hip _ Hx). }
        by kdo (get_ptr_ok s1 (freep s1) Hif).
      * destruct Hh as (H1 & H2 & H3 & H4 & H5 & H6). pose proof (more_range nunits Hsmall) as Hm.
        split_and!; [done|unfold sizeof_Header in *; lia|lia|unfold sizeof_Header in *; lia|done|done|done|].
        intros y Hya Hyb. destruct (Hy1 y Hya Hyb) as [Hy2 Hy3]. destruct (H6 y Hy2) as (Hy4 & Hy5 & Hy6).
        split_and!; [done|done|]. by apply (same_on_trans _ (umem s1)).
    + left. split; [|done]. rewrite Hl. apply loop_exit. by rewrite (Hbody _ _ Hm).
Qed.
End Malloc.

Lemma units_range nbytes : 0 <= nbytes < 2 ^ 31 - 32 ->
  1 <= units nbytes /\ nbytes <= sizeof_Header * (units nbytes - 1) /\ sizeof_Header * units nbytes < 2 ^ 31.
Proof.
  intros H. unfold units, sizeof_Header.
  pose proof (Z.div_mod (nbytes + 16 - 1) 16 ltac:(done)). pose proof (Z.mod_pos_bound (nbytes + 16 - 1) 16 ltac:(done)).
  rewrite u32_id by lia. lia.
Qed.

Section Heap.
Context (grow : Z -> Z -> bool) (base : Z).
Context (Hgrow : forall sz newsz, grow sz newsz = true -> newsz < 2 ^ 31).

Lemma heap_apart s A L b n : heap base s A L -> A !! b = Some n -> apart base (b, n) L.
Proof.
  intros [_ _ Hc] H. destruct (c_block _ _ _ _ Hc _ _ H) as (H1 & H2 & _). split_and!; [done..|].
  apply Forall_forall. intros x Hx. by apply (c_free _ _ _ _ Hc).
Qed.

(** The first call sets up the ring. *)
Lemma malloc_start fuel nbytes s A L : heap base s A L -> exists s1,
  malloc grow base fuel nbytes s =
    loop fuel (malloc_body grow fuel (units nbytes)) (ptr (umem s1) (freep s1), freep s1) s1 /\
  ring base s1 L /\ brk s1 = brk s /\ undisturbed A s s1 /\ callers base s1 A L.
Proof.
  intros [Hb Hr Hc]. unfold malloc. kdo (eq_refl : get_freep s = Ok (freep s, s)).
  destruct Hr as [Hr|(Hf & -> & ->)].
  - exists s. pose proof (r_freep _ _ _ Hr) as Hfp. apply list_elem_of_fmap in Hfp as [x [Ex Hx]].
    pose proof (ring_in_proc _ _ _ Hr Hb) as Hip. rewrite Forall_forall in Hip. specialize (Hip _ Hx).
    assert (Hnz : freep s <> 0).
    { rewrite Ex. apply elem_of_cons in Hx as [->|Hx]; [cbn; lia|].
      pose proof (ring_above _ _ _ Hr) as Ha. rewrite Forall_forall in Ha. specialize (Ha _ Hx). unfold sizeof_Header in *. lia. }
    destruct (Z.eqb_spec (freep s) 0); [done|]. rewrite <- Ex in Hip.
    kdo (eq_refl : mret (M := M ustate) (freep s) s = Ok (freep s, s)). kdo (get_ptr_ok s (freep s) Hip).
    split_and!; [done|done|done|by intros ?? _ ?|done].
  - rewrite Hf. cbn [Z.eqb]. rewrite bind_assoc.
    kdo (eq_refl : set_freep base s = Ok ((), UState (umem s) (brk s) base)). rewrite bind_assoc.
    set (s0 := UState _ _ base). assert (Hi : in_proc s0 base) by (unfold in_proc, sizeof_Header in *; cbn; lia).
    kdo (set_ptr_ok s0 base Hi base). set (m1 := store 8 _ _ _). rewrite bind_assoc.
    kdo (set_size_ok (with_mem s0 m1) base Hi 0). set (m2 := store 4 _ _ _). cbn [umem with_mem] in m2.
    set (s1 := with_mem _ m2). exists s1.
    kdo (eq_refl : mret (M := M ustate) base s1 = Ok (base, s1)). kdo (get_ptr_ok s1 base Hi).
    split_and!; [done| |done|apply undisturbed_empty|].
    + constructor; [|done|left|done]. cbn [umem s1 with_mem chain hd_addr]. unfold m2, m1.
      rewrite size_set by lia. rewrite ptr_set_size, ptr_set by (unfold sizeof_Header in *; lia). done.
    + apply callers_empty.
Qed.

(** malloc() returns a block that overlaps no held and no free block, or 0 when no
    free block is large enough and sbrk() refuses. *)
Lemma malloc_heap fuel nbytes s A L :
  heap base s A L -> 0 <= nbytes < 2 ^ 31 - 32 -> (2 * length L + 4 <= fuel)%nat ->
  exists r s' A' L', malloc grow base fuel nbytes s = Ok (r, s') /\ heap base s' A' L' /\
    undisturbed A s s' /\
    sizeof_Header * (total L' + held A') - brk s' = sizeof_Header * (total L + held A) - brk s /\
    (r = 0 /\ A' = A /\ refused grow s L (units nbytes) \/
     exists b, r = b + sizeof_Header /\ A !! b = None /\ A' = <[b := units nbytes]> A /\
       nbytes <= sizeof_Header * (units nbytes - 1)).
Proof.
  intros Hh Hnb Hf. destruct (units_range nbytes Hnb) as (Hu1 & Hu2 & Hu3). pose proof (h_base _ _ _ _ Hh) as Hb.
  destruct (malloc_start fuel nbytes s A L Hh) as (s1 & E & Hr & Hbrk & Hund & Hc).
  rewrite <- Hbrk in Hb.
  destruct (malloc_ring grow base (units nbytes) Hgrow Hu1 Hu3 fuel s1 L Hb Hr Hf)
    as [[E1 Href]|(b & s' & L' & E1 & Hr' & Hbrk' & Htot & Hsz & Hfb & Hap & Hy)].
  - exists 0, s1, A, L. rewrite E, E1. split_and!; [done|by constructor; [|left|]|done|lia|]. left.
    unfold refused in *. by rewrite <- Hbrk.
  - assert (HA : forall b0 n0, A !! b0 = Some n0 -> disjoint_blocks (b0, n0) (b, units nbytes) /\
      apart base (b0, n0) L' /\ same_on (umem s') (umem s1) b0 (sizeof_Header * n0)).
    { intros b0 n0 H0. destruct (c_block _ _ _ _ Hc _ _ H0) as (_ & _ & H3 & _).
      apply (Hy (b0, n0)); [exact (heap_apart s A L b0 n0 Hh H0)|done]. }
    assert (Hnew : A !! b = None).
    { destruct (A !! b) as [n0|] eqn:H0; [|done]. destruct (HA _ _ H0) as ([Hd|Hd] & (H1 & _) & _);
      cbn in *; unfold sizeof_Header in *; lia. }
    exists (b + sizeof_Header), s', (<[b := units nbytes]> A), L'. rewrite E, E1.
    split_and!; [done| | |rewrite held_insert by done; unfold sizeof_Header in *; lia|right; exists b; done].
    + constructor; [unfold sizeof_Header in *; lia|by left|]. constructor.
      * intros b0 n0 [[<- <-]|[? H0]]%lookup_insert_Some.
        -- destruct Hfb, Hap as (? & ? & _). done.
        -- destruct (c_block _ _ _ _ Hc _ _ H0) as (H1 & H2 & H3 & H4). destruct (HA _ _ H0) as (_ & _ & Hsame).
           split_and!; [done|done|lia|]. rewrite <- H4. unfold size. apply load_ext. intros c Hcc. apply Hsame.
           unfold sizeof_Header in *. lia.
      * intros b0 n0 x [[<- <-]|[? H0]]%lookup_insert_Some Hx.
        -- destruct Hap as (_ & _ & Hd). rewrite Forall_forall in Hd. by apply Hd.
        -- destruct (HA _ _ H0) as (_ & (_ & _ & Hd) & _). rewrite Forall_forall in Hd. by apply Hd.
      * intros b0 n0 b1 n1 [[<- <-]|[? H0]]%lookup_insert_Some [[<- <-]|[? H1]]%lookup_insert_Some Hne; [done|..].
        -- destruct (HA _ _ H1) as ([Hd|Hd] & _); [by right|by left].
        -- by destruct (HA _ _ H0) as (Hd & _).
        -- by apply (c_held _ _ _ _ Hc).
    + intros b0 n0 H0. destruct (HA _ _ H0) as (_ & _ & Hsame). by apply (same_on_trans _ (umem s1)); [|apply Hund].
Qed.

(** free() gives a block back. *)
Lemma free_heap fuel s A L b n :
  heap base s A L -> A !! b = Some n -> (length L + 2 <= fuel)%nat ->
  exists s' L', free fuel (b + sizeof_Header) s = Ok ((), s') /\ heap base s' (delete b A) L' /\
    Exists (fun x => n <= x.2) L' /\ total L' = total L + n /\ brk s' = brk s /\ undisturbed (delete b A) s s'.
Proof.
  intros Hh HA Hf. pose proof (heap_apart s A L b n Hh HA) as Hap. destruct Hh as [Hb [Hr|(_ & _ & ->)] Hc];
    [|by rewrite lookup_empty in HA].
  destruct (c_block _ _ _ _ Hc _ _ HA) as (H1 & H2 & H3 & H4).
  destruct (free_ring base s L b n fuel Hb Hr H4 ltac:(done) Hap Hf)
    as (s' & L' & E & Hbrk & _ & Hr' & Htot & _ & Hex & Hy).
  assert (Hother : forall b0 n0, delete b A !! b0 = Some n0 -> A !! b0 = Some n0 /\
    apart base (b0, n0) L' /\ same_on (umem s') (umem s) b0 (sizeof_Header * n0)).
  { intros b0 n0 [Hne H0]%lookup_delete_Some. split; [done|].
    apply (Hy (b0, n0)). apply apart_cons.
    assert (Hap0 : apart base (b0, n0) L)
      by (exact (heap_apart s A L b0 n0 (Build_heap _ _ _ _ Hb (or_introl Hr) Hc) H0)).
    split; [|done]. apply apart_one. destruct Hap0 as (? & ? & _). split_and!; [done..|].
    by apply (c_held _ _ _ _ Hc). }
  exists s', L'. split_and!; [done| |done|done|done|].
  - constructor; [lia|by left|]. constructor.
    + intros b0 n0 H0. destruct (Hother _ _ H0) as (H5 & _ & Hsame). destruct (c_block _ _ _ _ Hc _ _ H5) as (? & ? & ? & Hs0).
      split_and!; [done|done|lia|]. rewrite <- Hs0. unfold size. apply load_ext. intros c Hcc. apply Hsame.
      unfold sizeof_Header in *. lia.
    + intros b0 n0 x H0 Hx. destruct (Hother _ _ H0) as (_ & (_ & _ & Hd) & _). rewrite Forall_forall in Hd. by apply Hd.
    + intros b0 n0 b1 n1 H0 H5 Hne. destruct (Hother _ _ H0) as (H6 & _), (Hother _ _ H5) as (H7 & _).
      by apply (c_held _ _ _ _ Hc).
  - intros b0 n0 H0. by destruct (Hother _ _ H0) as (_ & _ & ?).
Qed.
(** *** Programs *)

Lemma ring_length s L : 0 < base /\ base + sizeof_Header <= brk s < 2 ^ 31 -> ring base s L ->
  sizeof_Header * Z.of_nat (length L) <= brk s.
Proof.
  intros Hb Hr. pose proof (ring_nonneg _ _ _ Hr) as Hnn. pose proof (ring_in_proc _ _ _ Hr Hb) as Hin.
  pose proof (r_spaced _ _ _ Hr) as Hs. clear Hr. revert Hnn Hin Hs.
  assert (H : forall x l, Forall (fun x => 0 <= x.2) (x :: l) -> Forall (fun x => in_proc s x.1) (x :: l) ->
    spaced (x :: l) -> x.1 + sizeof_Header * Z.of_nat (length l) <= brk s).
  { intros x l. revert x. induction l as [|y l IH]; intros x Hnn Hin Hs.
    - apply Forall_cons in Hin as [[? ?] _]. cbn. unfold sizeof_Header in *. lia.
    - apply Forall_cons in Hnn as [_ Hnn], Hin as [_ Hin]. destruct x as [b n], y as [b' n'], Hs as [Hs1 Hs].
      specialize (IH _ Hnn Hin Hs). cbn [fst length] in *. unfold sizeof_Header in *. lia. }
  intros Hnn Hin Hs. specialize (H _ _ Hnn Hin Hs). cbn in H. lia.
Qed.

(** A program that starts in [s0] and calls malloc() for less than 2 GB and free() on
    blocks it holds is in state [s] and holds the blocks [A]. *)
Inductive program (s0 : ustate) : ustate -> gmap Z Z -> Prop :=
| program_start : program s0 s0 ∅
| program_malloc s A fuel nbytes r s' :
    program s0 s A -> 0 <= nbytes < 2 ^ 31 - 32 -> brk s + 8 <= Z.of_nat fuel ->
    malloc grow base fuel nbytes s = Ok (r, s') ->
    program s0 s' (if r =? 0 then A else <[r - sizeof_Header := units nbytes]> A)
| program_free s A fuel b n s' :
    program s0 s A -> A !! b = Some n -> brk s + 8 <= Z.of_nat fuel ->
    free fuel (b + sizeof_Header) s = Ok ((), s') ->
    program s0 s' (delete b A).

(** The state of a process that has not called malloc(). *)
Definition fresh (s0 : ustate) : Prop :=
  0 < base /\ base + sizeof_Header <= brk s0 < 2 ^ 31 /\ freep s0 = 0.

Lemma fuel_enough s A L fuel : heap base s A L -> brk s + 8 <= Z.of_nat fuel -> (2 * length L + 4 <= fuel)%nat.
Proof.
  intros [Hb [Hr|(_ & -> & _)] _] Hf; [|cbn; unfold sizeof_Header in *; lia].
  pose proof (ring_length s L Hb Hr). unfold sizeof_Header in *. lia.
Qed.

Lemma program_heap s0 s A : fresh s0 -> program s0 s A -> exists L,
  heap base s A L /\ sizeof_Header * (total L + held A) = brk s - brk s0.
Proof.
  intros (H1 & H2 & H3) Hp. induction Hp as [|s A fuel nbytes r s' Hp [L [IH1 IH2]] Hnb Hf E|s A fuel b n s' Hp [L [IH1 IH2]] HA Hf E].
  - exists []. split; [|cbn; rewrite held_empty; lia].
    constructor; [done|by right|apply callers_empty].
  - destruct (malloc_heap fuel nbytes s A L IH1 Hnb (fuel_enough _ _ _ _ IH1 Hf))
      as (r1 & s1 & A1 & L1 & E1 & Hh & _ & Ht & Hcase). rewrite E in E1. injection E1 as <- <-.
    exists L1. destruct Hcase as [(-> & -> & _)|(b & -> & Hnone & -> & _)]; [change (0 =? 0) with true; split; [done|lia]|].
    pose proof (c_block _ _ _ _ (h_callers _ _ _ _ Hh) b (units nbytes) ltac:(by rewrite lookup_insert_eq)) as (_ & Hbb & _).
    destruct (Z.eqb_spec (b + sizeof_Header) 0); [unfold sizeof_Header in *; lia|].
    replace (b + sizeof_Header - sizeof_Header) with b by lia. split; [done|lia].
  - destruct (free_heap fuel s A L b n IH1 HA ltac:(pose proof (fuel_enough _ _ _ _ IH1 Hf); lia))
      as (s1 & L1 & E1 & Hh & _ & Ht & Hbrk & _). rewrite E in E1. injection E1 as <-.
    exists L1. split; [done|]. rewrite Hbrk, <- IH2, Ht, (held_delete A b n HA). lia.
Qed.

(** C19: Whatever a program has allocated (in requests below 2 GB) and freed, the allocator's ring is sorted, no two
    free blocks touch, held and free blocks overlap nowhere, and together they make
    up the memory obtained from sbrk(): nothing leaks. *)
Theorem umalloc_invariant s0 s A : fresh s0 -> program s0 s A -> exists L,
  heap base s A L /\ (freep s <> 0 -> spaced ((base, 0) :: L)) /\
  sizeof_Header * (total L + held A) = brk s - brk s0.
Proof.
  intros Hs Hp. destruct (program_heap s0 s A Hs Hp) as (L & Hh & Ht). exists L. split_and!; [done| |done].
  intros Hf. destruct (h_ring _ _ _ _ Hh) as [Hr|(? & _)]; [apply (r_spaced _ _ _ Hr)|done].
Qed.

(** C18: In any state of a program malloc() of less than 2^31 - 32 bytes returns, within
    the given number of rounds, either 0, and then sbrk() refused, or the address of [nbytes] bytes inside the
    process that overlap no block the program holds, header included; the blocks
    held are not written. *)
Theorem malloc_correct s0 s A fuel nbytes :
  fresh s0 -> program s0 s A -> 0 <= nbytes < 2 ^ 31 - 32 -> brk s + 8 <= Z.of_nat fuel ->
  exists r s', malloc grow base fuel nbytes s = Ok (r, s') /\ undisturbed A s s' /\
    (r = 0 /\ grow (brk s) (brk s + sizeof_Header * more (units nbytes)) = false \/
     r <> 0 /\ A !! (r - sizeof_Header) = None /\ base + sizeof_Header < r /\ r + nbytes <= brk s' /\
     forall b n, A !! b = Some n -> r + nbytes <= b \/ b + sizeof_Header * n <= r - sizeof_Header).
Proof.
  intros Hs Hp Hnb Hf. destruct (program_heap s0 s A Hs Hp) as (L & Hh & _).
  destruct (malloc_heap fuel nbytes s A L Hh Hnb (fuel_enough _ _ _ _ Hh Hf))
    as (r & s' & A' & L' & E & Hh' & Hu & _ & Hcase).
  exists r, s'. split_and!; [done|done|]. destruct Hcase as [(-> & _ & _ & ?)|(b & -> & Hnone & -> & Hge)]; [by left|right].
  pose proof (h_base _ _ _ _ Hh) as Hb.
  pose proof (h_callers _ _ _ _ Hh') as Hc.
  destruct (c_block _ _ _ _ Hc b (units nbytes) ltac:(by rewrite lookup_insert_eq)) as (? & ? & ? & _).
  replace (b + sizeof_Header - sizeof_Header) with b by lia.
  unfold sizeof_Header in *. split_and!; [lia|done|lia|lia|]. intros b0 n0 Hb0.
  assert (b0 <> b) by congruence.
  destruct (c_held _ _ _ _ Hc b0 n0 b (units nbytes)) as [Hd|Hd];
    [by rewrite lookup_insert_ne|by rewrite lookup_insert_eq|done|right|left]; cbn in Hd; unfold sizeof_Header in *; lia.
Qed.

(** C20: In any state of a program free() of a held block returns, the other held blocks
    are not written, and the block's units are free again: a later malloc() of at
    most that size needs no sbrk() (some free block contains them). *)
Theorem free_correct s0 s A fuel b n :
  fresh s0 -> program s0 s A -> A !! b = Some n -> brk s + 8 <= Z.of_nat fuel ->
  exists s' L', free fuel (b + sizeof_Header) s = Ok ((), s') /\ undisturbed (delete b A) s s' /\
    heap base s' (delete b A) L' /\ Exists (fun x => n <= x.2) L' /\
    sizeof_Header * (total L' + held (delete b A)) = brk s' - brk s0 /\ brk s' = brk s.
Proof.
  intros Hs Hp HA Hf. destruct (program_heap s0 s A Hs Hp) as (L & Hh & Ht0).
  destruct (free_heap fuel s A L b n Hh HA ltac:(pose proof (fuel_enough _ _ _ _ Hh Hf); lia))
    as (s' & L' & E & Hh' & Hex & Ht & Hbrk & Hu).
  exists s', L'. split_and!; [done..| |done]. rewrite Ht, Hbrk, <- Ht0, (held_delete A b n HA). lia.
Qed.
End Heap.

(** ** A request that overflows *)

Section Huge.
Context (grow : Z -> Z -> bool) (base : Z).

(** The units of such a request, and the size its header is given. *)
Definition huge_units : Z := 2 ^ 28 + 1.
Lemma units_huge nbytes : 2 ^ 32 - 16 < nbytes < 2 ^ 32 -> units nbytes = huge_units.
Proof.
  intros H. unfold units, sizeof_Header, huge_units. replace ((nbytes + 16 - 1) / 16) with (2 ^ 28); [done|].
  pose proof (Z.div_mod (nbytes + 16 - 1) 16 ltac:(lia)). pose proof (Z.mod_pos_bound (nbytes + 16 - 1) 16 ltac:(lia)). lia.
Qed.

(** sbrk() is asked for 2^32 + 16 bytes, as an int: 16. *)
Lemma sbrk_huge s : 0 < brk s -> brk s + sizeof_Header < 2 ^ 31 -> grow (brk s) (brk s + sizeof_Header) = true ->
  exists m, sbrk grow (i32 (u64 (huge_units * sizeof_Header))) s = Ok (brk s, UState m (brk s + sizeof_Header) (freep s)) /\
    forall a, a < brk s -> rd m a = rd (umem s) a.
Proof.
  intros H0 H1 Hg. change (i32 (u64 (huge_units * sizeof_Header))) with sizeof_Header. unfold sbrk.
  unfold sizeof_Header in *. rewrite u32_id, (i32_id (brk s)), (u64_id (brk s)) by lia. cbn [Z.gtb Z.compare].
  rewrite (proj2 (Z.ltb_ge _ _)), Hg by lia. eexists. split; [done|]. intros a Ha.
  pose proof (PGROUNDUP_range (brk s) ltac:(lia) ltac:(unfold PGSIZE; lia)).
  pose proof (PGROUNDUP_le (brk s) (brk s + 16) ltac:(lia) ltac:(lia)).
  rewrite rd_memset, bool_decide_false by lia. done.
Qed.

(** morecore() then links in a block far larger than the memory behind it. *)
Lemma morecore_huge s fuel : 0 < base -> base + sizeof_Header <= brk s -> brk s + sizeof_Header < 2 ^ 31 ->
  grow (brk s) (brk s + sizeof_Header) = true -> ring base s [] -> (0 < fuel)%nat ->
  exists s', morecore grow fuel huge_units s = Ok (base, s') /\ brk s' = brk s + sizeof_Header /\ freep s' = base /\
    ptr (umem s') base = brk s /\ ptr (umem s') (brk s) = base /\ size (umem s') (brk s) = huge_units.
Proof.
  intros Hb0 Hb Hlt Hg [(Hs0 & Hp0 & _) _ Hf _] Hfuel. apply list_elem_of_singleton in Hf. cbn in Hp0, Hf.
  destruct (sbrk_huge s ltac:(unfold sizeof_Header in *; lia) Hlt Hg) as (m & E & Hm). unfold morecore. cbn [Z.ltb Z.compare huge_units].
  kdo E. destruct (Z.eqb_spec (brk s) (u64 (-1))) as [X|_]; [change (u64 (-1)) with (2 ^ 64 - 1) in X; unfold sizeof_Header in *; lia|].
  assert (Hi : forall m f, in_proc (UState m (brk s + sizeof_Header) f) base) by (intros; unfold in_proc, sizeof_Header in *; cbn; lia).
  assert (Hj : forall m f, in_proc (UState m (brk s + sizeof_Header) f) (brk s)) by (intros; unfold in_proc, sizeof_Header in *; cbn; lia).
  rewrite Hf in *. kdo (set_size_ok _ (brk s) (Hj m base) huge_units). unfold with_mem. cbn [brk freep umem]. set (m1 := store 4 m _ _).
  assert (O1 : ptr m1 base = base /\ size m1 base = 0 /\ size m1 (brk s) = huge_units).
  { destruct (only_hdr_fields (brk s) m m1 base (only_hdr_size _ _ _) ltac:(lia)) as [-> ->].
    split_and!; [etrans; [|exact Hp0]|etrans; [|exact Hs0]|by apply size_set]; apply load_ext; intros c Hc; apply Hm; unfold sizeof_Header in *; lia. }
  destruct O1 as (P1 & S1 & T1). set (s1 := UState m1 (brk s + sizeof_Header) base).
  replace (padd (brk s) 1) with (brk s + sizeof_Header) by (unfold padd, sizeof_Header in *; rewrite u64_id; lia).
  unfold free. rewrite !bind_assoc. replace (padd (brk s + sizeof_Header) (-1)) with (brk s) by (unfold padd, sizeof_Header in *; rewrite u64_id; lia).
  kdo (eq_refl : get_freep s1 = Ok (base, s1)).
  destruct fuel as [|fuel]; [lia|]. rewrite !bind_assoc.
  kdo (loop_exit fuel (free_body (brk s)) base s1 base s1 (free_body_stop s1 (brk s) base (Hi m1 base) ltac:(unfold sizeof_Header in *; lia)
    ltac:(cbn [umem s1]; rewrite P1; lia))).
  rewrite !bind_assoc. unfold free_up at 1. rewrite !bind_assoc. kdo (get_size_ok s1 (brk s) (Hj _ _)). rewrite !bind_assoc.
  kdo (get_ptr_ok s1 base (Hi _ _)). cbn [umem s1]. rewrite P1, T1.
  destruct (Z.eqb_spec (padd (brk s) huge_units) base) as [X|_].
  { exfalso. unfold padd, huge_units, sizeof_Header in *. rewrite u64_id in X; lia. }
  kdo (set_ptr_ok s1 (brk s) (Hj _ _) base). unfold with_mem. cbn [brk freep umem s1]. set (m2 := store 8 m1 _ _). set (s2 := UState m2 _ _).
  destruct (only_hdr_fields (brk s) m1 m2 base (only_hdr_ptr _ _ _) ltac:(lia)) as [P2 S2].
  rewrite !bind_assoc. unfold free_down at 1. rewrite !bind_assoc. kdo (get_size_ok s2 base (Hi _ _)). cbn [umem s2]. rewrite S2, S1.
  destruct (Z.eqb_spec (padd base 0) (brk s)) as [X|_].
  { exfalso. unfold padd, sizeof_Header in *. rewrite u64_id in X; lia. }
  kdo (set_ptr_ok s2 base (Hi _ _) (brk s)). unfold with_mem. cbn [brk freep umem s2]. set (m3 := store 8 m2 _ _).
  destruct (only_hdr_fields base m2 m3 (brk s) (only_hdr_ptr _ _ _) ltac:(lia)) as [P3 S3].
  eexists. split; [reflexivity|]. cbn [brk freep umem]. unfold sizeof_Header in *.
  split_and!; [done|done|apply ptr_set; lia|rewrite P3; apply ptr_set; lia|rewrite S3; unfold m2; by rewrite size_set_ptr].
Qed.

(** C36: The size passed to sbrk() is an int.  In any process that has not allocated yet and
    that the kernel can give 16 more bytes, malloc() of 4 GB less at most 15 bytes returns:
    the process has got just those 16 bytes, for the header, and the result is the address
    after them, the end of the process, as if the request had been met; it is not 0. *)
Theorem malloc_huge (s : ustate) (fuel : nat) (nbytes : Z)
  (Hfresh : fresh base s) (Hend : brk s + sizeof_Header < 2 ^ 31) (Hgrow : grow (brk s) (brk s + sizeof_Header) = true)
  (Hn : 2 ^ 32 - 16 < nbytes < 2 ^ 32) (Hfuel : (2 <= fuel)%nat) :
  exists r s', malloc grow base fuel nbytes s = Ok (r, s') /\
    r <> 0 /\ brk s' = brk s + sizeof_Header /\ r = brk s' /\ size (umem s') (r - sizeof_Header) = 2 ^ 28 + 1.
Proof.
  destruct Hfresh as (Hb0 & Hb & Hf).
  destruct (malloc_start grow base fuel nbytes s ∅ []) as (s1 & E & Hr & Hbrk & _).
  { constructor; [done|by right|apply callers_empty]. }
  rewrite E, units_huge by done. pose proof Hr as [(S0 & P0 & _) _ Hfp _]. apply list_elem_of_singleton in Hfp. cbn in P0, Hfp.
  destruct (morecore_huge s1 fuel) as (s2 & E2 & B2 & F2 & P2 & Q2 & T2); try (rewrite ?Hbrk; done || lia).
  rewrite Hfp, P0. rewrite Hbrk in *. destruct fuel as [|[|fuel]]; [lia..|].
  assert (Hi1 : in_proc s1 base) by (unfold in_proc, sizeof_Header in *; lia). assert (Hi2 : in_proc s2 base) by (unfold in_proc, sizeof_Header in *; lia).
  assert (Hj2 : in_proc s2 (brk s)) by (unfold in_proc, sizeof_Header in *; lia).
  rewrite (loop_next _ _ _ _ (brk s, base) s2).
  2:{ unfold malloc_body. kdo (get_size_ok s1 base Hi1). rewrite S0. change (huge_units <=? 0) with false. cbv iota.
      kdo (eq_refl : get_freep s1 = Ok (freep s1, s1)). rewrite Hfp, Z.eqb_refl, bind_assoc. kdo E2. rewrite (proj2 (Z.eqb_neq base 0)) by lia.
      kdo (eq_refl : mret (M := M ustate) (Some base) s2 = Ok (Some base, s2)). kdo (get_ptr_ok s2 base Hi2). by rewrite P2. }
  set (s3 := UState (store 8 (umem s2) base base) (brk s2) base).
  exists (brk s + sizeof_Header), s3. unfold sizeof_Header in *. split_and!; [|lia|done|done|].
  - apply loop_exit. unfold malloc_body. kdo (get_size_ok s2 (brk s) Hj2). rewrite T2, Z.leb_refl. unfold carve. rewrite Z.eqb_refl, !bind_assoc.
    kdo (get_ptr_ok s2 (brk s) Hj2). rewrite Q2, !bind_assoc. kdo (set_ptr_ok s2 base Hi2 base).
    cbv beta iota delta [mbind M_bind mret M_ret set_freep with_mem padd sizeof_Header].
    rewrite u64_id by lia. done.
  - cbn [s3 umem]. replace (brk s + 16 - 16) with (brk s) by lia.
    destruct (only_hdr_fields base (umem s2) (store 8 (umem s2) base base) (brk s) (only_hdr_ptr _ _ _)) as [_ ->]; [unfold sizeof_Header; lia|done].
Qed.
End Huge.

(** A kernel that can give a process up to 128 MB. *)
Definition grow_ram (sz newsz : Z) : bool := newsz <=? 128 * 1024 * 1024.

(** A fresh process of four pages, its static data at 0x1000. *)
Definition small_proc : ustate := UState ∅ 16384 0.

(** ** The theorems on a small program *)

Lemma grow_ram_bound sz newsz : grow_ram sz newsz = true -> newsz < 2 ^ 31.
Proof. unfold grow_ram. intros H%Z.leb_le. lia. Qed.

Definition after {A} (r : res (A * ustate)) : ustate := match r with Ok (_, s) => s | _ => small_proc end.
(** After one malloc(100). *)
Definition after_malloc : ustate := after (malloc grow_ram 4096 (Z.to_nat 20000) 100 small_proc).
Definition holds_one : gmap Z Z := {[ 81792 := 8 ]}.

Lemma fresh_small : fresh 4096 small_proc.
Proof. unfold fresh, sizeof_Header. cbn. lia. Qed.

Lemma program_one : program grow_ram 4096 small_proc after_malloc holds_one.
Proof.
  change holds_one with (if 81808 =? 0 then ∅ else <[81808 - sizeof_Header := units 100]> (∅ : gmap Z Z)).
  apply (program_malloc grow_ram 4096 small_proc small_proc ∅ (Z.to_nat 20000)); [apply program_start|lia|cbn [brk small_proc]; lia|].
  assert (H : match malloc grow_ram 4096 (Z.to_nat 20000) 100 small_proc with Ok (r, _) => r =? 81808 | _ => false end = true)
    by (vm_compute; reflexivity).
  unfold after_malloc. destruct (malloc _ _ _ _ _) as [[r s']| | |]; [|done..]. by apply Z.eqb_eq in H as ->.
Qed.

Lemma after_malloc_brk : brk after_malloc = 81920.
Proof. vm_compute. reflexivity. Qed.

Lemma umalloc_invariant_witness : exists L, heap 4096 after_malloc holds_one L.
Proof.
  destruct (umalloc_invariant grow_ram 4096 grow_ram_bound small_proc after_malloc holds_one fresh_small program_one)
    as (L & H & _). exists L. exact H.
Defined.

Lemma malloc_correct_witness : exists r s',
  malloc grow_ram 4096 (Z.to_nat 90000) 24 after_malloc = Ok (r, s') /\ undisturbed holds_one after_malloc s'.
Proof.
  destruct (malloc_correct grow_ram 4096 grow_ram_bound small_proc after_malloc holds_one (Z.to_nat 90000) 24
    fresh_small program_one ltac:(lia) ltac:(rewrite after_malloc_brk; lia))
    as (r & s' & H1 & H2 & _). exists r, s'. exact (conj H1 H2).
Defined.

Lemma free_correct_witness : exists s', free (Z.to_nat 90000) (81792 + sizeof_Header) after_malloc = Ok ((), s').
Proof.
  destruct (free_correct grow_ram 4096 grow_ram_bound small_proc after_malloc holds_one (Z.to_nat 90000) 81792 8
    fresh_small program_one ltac:(reflexivity)
    ltac:(rewrite after_malloc_brk; lia))
    as (s' & L' & H1 & _). exists s'. exact H1.
Defined.

Lemma malloc_huge_witness : exists r s', malloc grow_ram 4096 8 (2 ^ 32 - 1) small_proc = Ok (r, s') /\ r <> 0 /\ brk s' = 16400.
Proof.
  destruct (malloc_huge grow_ram 4096 small_proc 8 (2 ^ 32 - 1) fresh_small ltac:(cbn; unfold sizeof_Header; lia) eq_refl
    ltac:(lia) ltac:(lia)) as (r & s' & H1 & H2 & H3 & _). exists r, s'. exact (conj H1 (conj H2 H3)).
Defined.
