(* ===== verification/Sh.v ===== *)
(** * user/sh.c: the shell

    The parser works on the command line in place: tokens are pairs of positions in
    the buffer, and [nulterminate] ends them by writing NULs over the characters that
    follow.  [buf] is the line up to its NUL; a position is an index into it.  The
    commands built by the constructors are trees; parseexec() goes on filling the
    execcmd after parseredirs() has wrapped it, which [add_arg] does inside the tree.
    runcmd() and main() are programs of system calls ([prog]), whose results the
    kernel chooses.  malloc() is taken to succeed, as sh.c does. *)
From S2P Require Import Prelude Bytes.
From stdpp Require Import prelude strings.
From Stdlib Require Import ZArith Lia.
Open Scope Z_scope.

Module Sh.

Definition MAXARGS : nat := 10.
Definition O_RDONLY : Z := 0x000.
Definition O_WRONLY : Z := 0x001.
Definition O_RDWR : Z := 0x002.
Definition O_CREATE : Z := 0x200.
Definition O_TRUNC : Z := 0x400.

(** ** Commands *)

(** A counted string: where it starts and where it ends. *)
Abbreviation range := (nat * nat)%type.

Inductive cmd :=
| EXEC (argv : list range)
| REDIR (c : cmd) (file : range) (mode fd : Z)
| PIPE (left right : cmd)
| LIST (left right : cmd)
| BACK (c : cmd).

(** [cmd->argv[argc] = q; cmd->eargv[argc] = eq; argc++], for the execcmd inside. *)
Fixpoint add_arg (c : cmd) (x : range) : cmd :=
  match c with
  | EXEC argv => EXEC (argv ++ [x])
  | REDIR c' file mode fd => REDIR (add_arg c' x) file mode fd
  | _ => c
  end.

(** ** Tokens *)

Definition whitespace : list Z := [32; 9; 13; 10; 11].
Definition symbols : list Z := [60; 124; 62; 38; 59; 40; 41].

(** [strchr(s, c)], as a condition: it finds no NUL. *)
Definition strchr (s : list Z) (c : Z) : bool := negb (c =? 0) && bool_decide (c ∈ s).

Section Parse.
Context (buf : list Z).
Definition es : nat := length buf.

(** [*s] *)
Definition char (s : nat) : Z := default 0 (buf !! s).

(** [while(s < es && p( *s)) s++;] with [k] characters left. *)
Fixpoint scan (p : Z -> bool) (s k : nat) : nat :=
  match k with
  | O => s
  | S k' => if p (char s) then scan p (S s) k' else s
  end.
Definition skip (s : nat) : nat := scan (strchr whitespace) s (es - s).
Definition word_end (s : nat) : nat :=
  scan (fun c => negb (strchr whitespace c) && negb (strchr symbols c)) s (es - s).

Abbreviation bar := 124.
Abbreviation lparen := 40.
Abbreviation rparen := 41.
Abbreviation semi := 59.
Abbreviation amp := 38.
Abbreviation lt := 60.
Abbreviation gt := 62.
Abbreviation plus := 43.
Abbreviation letter_a := 97.

(** [*ps] is the state; the result is the token's kind and its range. *)
Definition gettoken : M nat (Z * range) := fun ps =>
  let s := skip ps in
  let q := s in
  let c := char s in
  let '(ret, s) :=
    if c =? 0 then (0, s)
    else if strchr [bar; lparen; rparen; semi; amp; lt] c then (c, S s)
    else if c =? gt then
      let s := S s in
      if char s =? gt then (plus, S s) else (c, s)
    else (letter_a, word_end s) in
  let eq := s in
  Ok ((ret, (q, eq)), skip s).

Definition peek (toks : list Z) : M nat bool := fun ps =>
  let s := skip ps in
  Ok (negb (char s =? 0) && strchr toks (char s), s).

(** ** The parser *)

Definition parseredirs_body (c : cmd) : M nat (cmd + cmd) :=
  b ← peek [lt; gt];
  if (b : bool) then
    t1 ← gettoken;
    t2 ← gettoken;
    if negb ((t2 : Z * range).1 =? letter_a) then panic "missing file for redirection"
    else if (t1 : Z * range).1 =? lt then mret (inl (REDIR c t2.2 O_RDONLY 0))
    else if t1.1 =? gt then mret (inl (REDIR c t2.2 (Z.lor O_WRONLY (Z.lor O_CREATE O_TRUNC)) 1))
    else if t1.1 =? plus then mret (inl (REDIR c t2.2 (Z.lor O_WRONLY O_CREATE) 1))
    else mret (inl c)
  else mret (inr c).
Definition parseredirs (fuel : nat) (c : cmd) : M nat cmd := loop fuel parseredirs_body c.

(** The loop of parseexec(), on [ret] and [argc]. *)
Definition parseexec_body (fuel : nat) (x : cmd * nat) : M nat ((cmd * nat) + cmd) :=
  let '(ret, argc) := x in
  b ← peek [bar; rparen; amp; semi];
  if (b : bool) then mret (inr ret)
  else
    t ← gettoken;
    if (t : Z * range).1 =? 0 then mret (inr ret)
    else if negb (t.1 =? letter_a) then panic "syntax"
    else
      let ret := add_arg ret t.2 in
      let argc := S argc in
      if (MAXARGS <=? argc)%nat then panic "too many args"
      else ret ← parseredirs fuel ret; mret (inl (ret, argc)).

(** [while(peek(ps, es, "&")){ gettoken(ps, es, 0, 0); cmd = backcmd(cmd); }] *)
Definition back_body (c : cmd) : M nat (cmd + cmd) :=
  b ← peek [amp];
  if (b : bool) then gettoken ;; mret (inl (BACK c)) else mret (inr c).

(** parseblock() and parseexec(), given parseline() for what is inside parentheses. *)
Definition parseblock (fuel : nat) (parseline : M nat cmd) : M nat cmd :=
  b ← peek [lparen];
  if negb b then panic "parseblock"
  else
    gettoken ;;
    c ← parseline;
    b ← peek [rparen];
    if negb b then panic "syntax - missing )"
    else
      gettoken ;;
      parseredirs fuel c.

Definition parseexec (fuel : nat) (parseline : M nat cmd) : M nat cmd :=
  b ← peek [lparen];
  if (b : bool) then parseblock fuel parseline
  else
    let ret := EXEC [] in
    let argc := O in
    ret ← parseredirs fuel ret;
    loop fuel (parseexec_body fuel) (ret, argc).

(** parsepipe() calls itself after each bar; [n] bounds these calls. *)
Fixpoint parsepipe (fuel : nat) (parseline : M nat cmd) (n : nat) : M nat cmd :=
  match n with
  | O => nofuel
  | S n' =>
      c ← parseexec fuel parseline;
      b ← peek [bar];
      if (b : bool) then gettoken ;; right ← parsepipe fuel parseline n'; mret (PIPE c right)
      else mret c
  end.

(** [fuel] bounds the depth of parentheses and the number of semicolons. *)
Fixpoint parseline (fuel : nat) : M nat cmd :=
  match fuel with
  | O => nofuel
  | S f =>
      c ← parsepipe fuel (parseline f) fuel;
      c ← loop fuel back_body c;
      b ← peek [semi];
      if (b : bool) then gettoken ;; right ← parseline f; mret (LIST c right)
      else mret c
  end.
End Parse.

(** [*efile = 0;] in the buffer, which has its NUL at the end. *)
Fixpoint nulterminate (c : cmd) (b : list Z) : list Z :=
  match c with
  | EXEC argv => fold_left (fun b x => <[x.2 := 0]> b) argv b
  | REDIR c' file _ _ => <[file.2 := 0]> (nulterminate c' b)
  | PIPE l r => nulterminate r (nulterminate l b)
  | LIST l r => nulterminate r (nulterminate l b)
  | BACK c' => nulterminate c' b
  end.

(** The command and the buffer after it; the message about leftovers goes to
    standard error and is not modelled. *)
Definition parsecmd (fuel : nat) (s : list Z) : res (cmd * list Z) :=
  match parseline s fuel O with
  | Ok (c, ps) =>
      let ps := skip s ps in
      if negb (ps =? es s)%nat then Panic "syntax"
      else Ok (c, nulterminate c (s ++ [0]))
  | Panic m => Panic m
  | Blocked => Blocked
  | NoFuel => NoFuel
  end.

(** The C string at [q] of a buffer. *)
Definition cstr (b : list Z) (q : nat) : list Z := let l := drop q b in
  (fix go l := match l with [] => [] | c :: l' => if c =? 0 then [] else c :: go l' end) l.

(** ** Running commands *)

(** A process as the system calls it makes; the continuation takes the result. *)
Inductive syscall :=
| Exec (path : list Z) (argv : list (list Z))
| Open (path : list Z) (mode : Z)
| Close (fd : Z)
| Dup (fd : Z)
| Wait
| Chdir (path : list Z)
| Write (fd : Z) (msg : list Z).

Inductive prog :=
| Exit (status : Z)
| Sys (c : syscall) (k : Z -> prog)
| SysPipe (k : option (Z * Z) -> prog)
| SysRead (k : option Z -> prog)
| Fork (k : Z -> prog)
| Unfinished (* a loop was cut off by its fuel *).

Definition bytes (s : string) : list Z := map (fun a => Z.of_nat (Ascii.nat_of_ascii a)) (String.list_ascii_of_string s).
Definition newline : list Z := [10].

Definition sh_panic (s : list Z) : prog := Sys (Write 2 (s ++ newline)) (fun _ => Exit 1).
Definition fork1 (k : Z -> prog) : prog :=
  Fork (fun pid => if pid =? -1 then sh_panic (bytes "fork") else k pid).

(** [runcmd(cmd)], with the strings of the command in [b]; it never returns. *)
Fixpoint runcmd (b : list Z) (c : cmd) : prog :=
  match c with
  | EXEC [] => Exit 1
  | EXEC (((q, _) :: _) as argv) =>
      Sys (Exec (cstr b q) (map (fun x => cstr b x.1) argv)) (fun _ =>
      Sys (Write 2 (bytes "exec " ++ cstr b q ++ bytes " failed" ++ newline)) (fun _ =>
      Exit 0))
  | REDIR c' file mode fd =>
      Sys (Close fd) (fun _ =>
      Sys (Open (cstr b file.1) mode) (fun r =>
      if r <? 0 then
        Sys (Write 2 (bytes "open " ++ cstr b file.1 ++ bytes " failed" ++ newline)) (fun _ => Exit 1)
      else runcmd b c'))
  | LIST l r =>
      fork1 (fun pid => if pid =? 0 then runcmd b l else
      Sys Wait (fun _ => runcmd b r))
  | PIPE l r =>
      SysPipe (fun p =>
      match p with
      | None => sh_panic (bytes "pipe")
      | Some (p0, p1) =>
          fork1 (fun pid => if pid =? 0 then
            Sys (Close 1) (fun _ => Sys (Dup p1) (fun _ =>
            Sys (Close p0) (fun _ => Sys (Close p1) (fun _ => runcmd b l))))
          else
          fork1 (fun pid => if pid =? 0 then
            Sys (Close 0) (fun _ => Sys (Dup p0) (fun _ =>
            Sys (Close p0) (fun _ => Sys (Close p1) (fun _ => runcmd b r))))
          else
            Sys (Close p0) (fun _ => Sys (Close p1) (fun _ =>
            Sys Wait (fun _ => Sys Wait (fun _ => Exit 0))))))
      end)
  | BACK c' => fork1 (fun pid => if pid =? 0 then runcmd b c' else Exit 0)
  end.

(** ** Reading commands *)

(** [gets(buf, n + 1)] (ulib.c): at most [n] characters, up to the end of a line;
    [acc] is what has been read. *)
Fixpoint gets (n : nat) (acc : list Z) (k : list Z -> prog) : prog :=
  match n with
  | O => k acc
  | S n' =>
      SysRead (fun o =>
      match o with
      | None => k acc
      | Some c =>
          let acc := acc ++ [c] in
          if (c =? 10) || (c =? 13) then k acc else gets n' acc k
      end)
  end.

(** [getcmd(buf, nbuf)]: the line as a C string, [None] at the end of the input. *)
Definition getcmd (nbuf : nat) (k : option (list Z) -> prog) : prog :=
  Sys (Write 2 (bytes "$ ")) (fun _ =>
  gets (nbuf - 1) [] (fun buf =>
  let s := cstr (buf ++ [0]) 0 in
  k (match s with [] => None | _ => Some s end))).

(** [runcmd(parsecmd(buf))] *)
Definition parse_and_run (buf : list Z) : prog :=
  match parsecmd (S (length buf)) buf with
  | Ok (c, b) => runcmd b c
  | Panic m => sh_panic (bytes m)
  | Blocked | NoFuel => Unfinished
  end.

(** [buf[0] == 'c' && buf[1] == 'd' && buf[2] == ' '] *)
Definition is_cd (buf : list Z) : bool := (char buf 0 =? 99) && (char buf 1 =? 100) && (char buf 2 =? 32).

(** [fuel] bounds the number of lines; a line has at least one character. *)
Fixpoint main_loop (fuel : nat) : prog :=
  match fuel with
  | O => Unfinished
  | S f =>
      getcmd 100 (fun o =>
      match o with
      | None => Exit 0
      | Some buf =>
          if is_cd buf then
            let dir := drop 3 (removelast buf) in
            Sys (Chdir dir) (fun r =>
            if r <? 0 then
              Sys (Write 2 (bytes "cannot cd " ++ dir ++ newline)) (fun _ => main_loop f)
            else main_loop f)
          else
            fork1 (fun pid => if pid =? 0 then parse_and_run buf else
            Sys Wait (fun _ => main_loop f))
      end)
  end.

(** [while((fd = open("console", O_RDWR)) >= 0) if(fd >= 3){ close(fd); break; }] *)
Fixpoint open_console (n : nat) (k : prog) : prog :=
  match n with
  | O => Unfinished
  | S n' =>
      Sys (Open (bytes "console") O_RDWR) (fun fd =>
      if fd <? 0 then k
      else if fd >=? 3 then Sys (Close fd) (fun _ => k)
      else open_console n' k)
  end.

(** Four calls of open() are enough to get a descriptor above 2. *)
Definition main (fuel : nat) : prog := open_console 4 (main_loop fuel).

End Sh.
