(* ===== verification/ShSpec.v ===== *)
(** * The shell's parser

    For every line the parser returns, within fuel proportional to its length, a
    well-formed command or one of its five complaints; after [nulterminate] the C
    strings of a command are its tokens; and a line that spells the tokens of a
    command, however it is spaced, parses to that command. *)
From S2P Require Import Prelude Bytes Sh.
From stdpp Require Import prelude strings.
From Stdlib Require Import ZArith Lia.
Import Sh.
Open Scope Z_scope.

Definition white (c : Z) : Prop := c ∈ whitespace.
Definition special (c : Z) : Prop := c ∈ whitespace \/ c ∈ symbols.

Lemma strchr_true l c : strchr l c = true <-> c <> 0 /\ c ∈ l.
Proof. unfold strchr. rewrite andb_true_iff, negb_true_iff, Z.eqb_neq, bool_decide_eq_true. done. Qed.
Lemma strchr_false l c : c <> 0 -> strchr l c = false <-> c ∉ l.
Proof.
  intros H. unfold strchr. rewrite andb_false_iff, negb_false_iff, Z.eqb_eq, bool_decide_eq_false. tauto.
Qed.

(** [H : c ∈ l] for a literal [l]: one case per element. *)
Ltac elems H := repeat (apply elem_of_cons in H as [H|H]); [..|by apply not_elem_of_nil in H].

(** The five complaints. *)
Definition complaints : list string :=
  ["missing file for redirection"; "syntax"; "too many args"; "syntax - missing )"; "parseblock"]%string.

Section Line.
Context (buf : list Z) (Hbuf : Forall (fun c => c <> 0) buf).
Abbreviation len := (length buf).

Lemma char_in s : (s < len)%nat -> char buf s <> 0.
Proof.
  intros H. unfold char. destruct (lookup_lt_is_Some_2 buf s H) as [c Hc]. rewrite Hc. cbn.
  by apply (Forall_lookup_1 _ _ _ _ Hbuf Hc).
Qed.
Lemma char_end s : (len <= s)%nat -> char buf s = 0.
Proof. intros H. unfold char. by rewrite lookup_ge_None_2. Qed.

(** ** Scanning *)

Lemma scan_spec p s k : (s + k <= len)%nat ->
  let s' := scan buf p s k in
  (s <= s' <= s + k)%nat /\ (forall i, (s <= i < s')%nat -> p (char buf i) = true) /\
  ((s' < s + k)%nat -> p (char buf s') = false).
Proof.
  revert s. induction k as [|k IH]; intros s H; cbn [scan]; [split_and!; lia|].
  destruct (p (char buf s)) eqn:E.
  - destruct (IH (S s) ltac:(lia)) as (H1 & H2 & H3). split_and!; [lia|lia| |intros; apply H3; lia].
    intros i Hi. destruct (decide (i = s)) as [->|]; [done|]. apply H2. lia.
  - split_and!; [lia|lia|lia|done].
Qed.

Lemma skip_spec s : (s <= len)%nat ->
  let s' := skip buf s in
  (s <= s' <= len)%nat /\ (forall i, (s <= i < s')%nat -> white (char buf i)) /\
  ((s' < len)%nat -> ~ white (char buf s')).
Proof.
  intros H. destruct (scan_spec (strchr whitespace) s (len - s) ltac:(lia)) as (H1 & H2 & H3). cbn zeta.
  unfold skip, es. split_and!; [lia|lia| |].
  - intros i Hi. by apply H2, strchr_true in Hi as [_ ?].
  - intros Hlt. specialize (H3 ltac:(lia)). apply strchr_false in H3; [done|]. by apply char_in.
Qed.

(** [(q, eq)] is a maximal run of ordinary characters. *)
Definition token_ok (x : range) : Prop :=
  (x.1 < x.2 <= len)%nat /\ (forall i, (x.1 <= i < x.2)%nat -> ~ special (char buf i)) /\
  ((x.2 < len)%nat -> special (char buf x.2)).

Lemma word_end_spec s : (s < len)%nat -> ~ special (char buf s) -> token_ok (s, word_end buf s).
Proof.
  intros H Hs. destruct (scan_spec (fun c => negb (strchr whitespace c) && negb (strchr symbols c)) s (len - s) ltac:(lia))
    as (H1 & H2 & H3). unfold word_end, es. set (e := scan _ _ _ _) in *. unfold special in *.
  assert (Hord : forall i, (i < len)%nat ->
    negb (strchr whitespace (char buf i)) && negb (strchr symbols (char buf i)) = true <->
    ~ (char buf i ∈ whitespace \/ char buf i ∈ symbols)).
  { intros i Hi. rewrite andb_true_iff, !negb_true_iff, !strchr_false by (by apply char_in). tauto. }
  assert (s < e)%nat.
  { destruct (decide (e = s)) as [E|]; [|lia]. rewrite E in H3. specialize (H3 ltac:(lia)).
    apply Hord in Hs; [|done]. congruence. }
  split_and!; cbn [fst snd].
  - lia.
  - lia.
  - intros i Hi. apply Hord; [lia|]. by apply H2.
  - intros Hlt. specialize (H3 ltac:(lia)). destruct (decide (char buf e ∈ whitespace \/ char buf e ∈ symbols)) as [|Hn]; [done|].
    exfalso. apply Hord in Hn; [|done]. congruence.
Qed.

(** ** Outcomes *)

(** The command returned a value at a position from [lo] on, or complained. *)
Definition safe {A} (r : res (A * nat)) (lo : nat) (P : A -> nat -> Prop) : Prop :=
  match r with
  | Ok (a, s') => (lo <= s' <= len)%nat /\ P a s'
  | Panic m => m ∈ complaints
  | Blocked | NoFuel => False
  end.

Lemma safe_bind {A B} (m : M nat A) (f : A -> M nat B) s lo mid P Q :
  safe (m s) mid P -> (lo <= mid)%nat ->
  (forall a s', (mid <= s' <= len)%nat -> P a s' -> safe (f a s') lo Q) -> safe ((a ← m; f a) s) lo Q.
Proof.
  unfold mbind, M_bind. destruct (m s) as [[a s']| | |]; cbn; [|done..]. intros [H1 H2] Hle H3. by apply H3.
Qed.

Lemma safe_loop {X Y} lo (body : X -> M nat (X + Y)) (I : X -> Prop) (P : Y -> Prop) :
  (forall x s, (lo <= s <= len)%nat -> I x -> safe (body x s) s (fun r s' =>
     match r with inl x' => I x' /\ (s < s')%nat | inr y => P y end)) ->
  forall fuel x s, (lo <= s <= len)%nat -> I x -> (len - s < fuel)%nat -> safe (loop fuel body x s) s (fun y _ => P y).
Proof.
  intros Hbody. induction fuel as [|f IH]; intros x s Hs HI Hf; [lia|]. cbn [loop].
  eapply safe_bind; [by apply Hbody|done|]. intros [x'|y] s' Hs' H; cbn in H.
  - destruct H as [HI' Hlt]. specialize (IH x' s' ltac:(lia) HI' ltac:(lia)).
    destruct (loop f body x' s') as [[y s2]| | |]; cbn in *; [|done..]. intuition lia.
  - cbn. split; [lia|done].
Qed.

(** What gettoken() returns. *)
Definition token (s : nat) (t : Z * range) (s' : nat) : Prop :=
  (s <= t.2.1)%nat /\ ((skip buf s < len)%nat -> t.1 <> 0 /\ (skip buf s < s')%nat) /\
  (t.1 = 97 -> token_ok t.2).

Lemma gettoken_safe s : (s <= len)%nat -> safe (gettoken buf s) s (token s).
Proof.
  intros Hs. destruct (skip_spec s Hs) as (H1 & H2 & H3). unfold gettoken. set (q := skip buf s) in *.
  assert (Hfin : forall e ret, (q <= e <= len)%nat -> ((q < len)%nat -> ret <> 0 /\ (q < e)%nat) ->
    (ret = 97 -> token_ok (q, e)) -> safe (Ok ((ret, (q, e)), skip buf e)) s (token s)).
  { intros e ret He Hret Htok. destruct (skip_spec e ltac:(lia)) as (H4 & _). cbn. fold q.
    split; [lia|]. unfold token. fold q. cbn. split_and!; [lia| |done]. intros Hq. specialize (Hret Hq). lia. }
  destruct (Z.eqb_spec (char buf q) 0) as [E0|E0].
  { apply Hfin; [lia| |lia]. intros Hq. by apply char_in in Hq. }
  assert (Hq : (q < len)%nat).
  { destruct (decide (q < len)%nat); [done|]. by rewrite char_end in E0 by lia. }
  destruct (strchr [124; 40; 41; 59; 38; 60] (char buf q)) eqn:E1.
  { apply Hfin; [lia|lia|]. apply strchr_true in E1 as [_ E1]. intros E. rewrite E in E1.
    by elems E1. }
  destruct (Z.eqb_spec (char buf q) 62) as [E2|E2].
  { destruct (Z.eqb_spec (char buf (S q)) 62) as [E3|E3]; apply Hfin; try lia.
    split; [lia|]. destruct (decide (S q < len)%nat); [lia|]. by rewrite char_end in E3 by lia. }
  assert (Htok : token_ok (q, word_end buf q)).
  { apply word_end_spec; [done|]. intros [Hw|Hw]; [by apply (H3 Hq)|].
    apply strchr_false in E1; [|done]. elems Hw; rewrite Hw in E1, E2; try done; by apply E1; repeat constructor. }
  pose proof Htok as [Hr _]. cbn in Hr. apply Hfin; [lia|lia|done].
Qed.

Lemma peek_safe toks s : (s <= len)%nat ->
  safe (peek buf toks s) s (fun b s' => s' = skip buf s /\ (b = true -> (s' < len)%nat /\ char buf s' ∈ toks)).
Proof.
  intros Hs. destruct (skip_spec s Hs) as (H1 & _). unfold peek. cbn. split; [lia|]. split; [done|].
  intros H. apply andb_true_iff in H as [H2%negb_true_iff%Z.eqb_neq [_ H3]%strchr_true]. split; [|done].
  destruct (decide (skip buf s < len)%nat); [done|]. by rewrite char_end in H2 by lia.
Qed.

Lemma skip_id s : (s < len)%nat -> ~ white (char buf s) -> skip buf s = s.
Proof.
  intros Hs Hw. destruct (skip_spec s ltac:(lia)) as (H1 & H2 & _).
  destruct (decide (skip buf s = s)); [done|]. exfalso. apply Hw, H2. lia.
Qed.
Lemma skip_skip s : (s <= len)%nat -> skip buf (skip buf s) = skip buf s.
Proof.
  intros Hs. destruct (skip_spec s Hs) as (H1 & _ & H3). destruct (decide (skip buf s < len)%nat) as [Hl|].
  - by apply skip_id; [|apply H3].
  - destruct (skip_spec (skip buf s) ltac:(lia)). lia.
Qed.

(** A peek() that succeeds, and the gettoken() after it. *)
Lemma peek_gettoken toks s (A : Type) (f g : M nat A) lo (P : A -> nat -> Prop) :
  (lo <= s <= len)%nat ->
  (forall s', (s < s' <= len)%nat -> safe (f s') lo P) ->
  (forall s', (s <= s' <= len)%nat -> safe (g s') lo P) ->
  safe ((b ← peek buf toks; if (b : bool) then gettoken buf ;; f else g) s) lo P.
Proof.
  intros Hs Hf Hg. eapply safe_bind; [apply peek_safe; lia|lia|]. intros [] s' Hs' [-> Hb]; cbn in Hb.
  - destruct (Hb eq_refl) as [Hlt _]. eapply safe_bind; [apply gettoken_safe; lia|lia|].
    intros t s2 Hs2 (_ & Ht & _). apply Hf. rewrite skip_skip in Ht by lia. specialize (Ht Hlt). lia.
  - apply Hg. lia.
Qed.

(** ** Well-formed commands *)

Definition redir_ok (mode fd : Z) : Prop :=
  mode = O_RDONLY /\ fd = 0 \/
  mode = Z.lor O_WRONLY (Z.lor O_CREATE O_TRUNC) /\ fd = 1 \/ mode = Z.lor O_WRONLY O_CREATE /\ fd = 1.

(** Every string of the command is a token of the line, an argument list leaves room
    for its NULL, and redirections are the three kinds. *)
Fixpoint cmd_ok (c : cmd) : Prop :=
  match c with
  | EXEC argv => Forall token_ok argv /\ (length argv < MAXARGS)%nat
  | REDIR c' file mode fd => cmd_ok c' /\ token_ok file /\ redir_ok mode fd
  | PIPE l r | LIST l r => cmd_ok l /\ cmd_ok r
  | BACK c' => cmd_ok c'
  end.

(** The number of arguments of the execcmd under the redirections. *)
Fixpoint argc_of (c : cmd) : option nat :=
  match c with EXEC argv => Some (length argv) | REDIR c' _ _ _ => argc_of c' | _ => None end.

Lemma add_arg_ok c x n : cmd_ok c -> token_ok x -> argc_of c = Some n -> (S n < MAXARGS)%nat ->
  cmd_ok (add_arg c x) /\ argc_of (add_arg c x) = Some (S n).
Proof.
  intros Hc Hx. revert n. induction c as [argv|c IH file mode fd| | |]; intros n Hn Hlt; cbn in *; simplify_eq.
  - rewrite length_app. cbn. rewrite Nat.add_1_r. split; [|done]. split; [|done].
    apply Forall_app. split; [apply Hc|]. by constructor.
  - destruct Hc as (Hc & Hf & Hm). destruct (IH Hc _ Hn Hlt). done.
Qed.

Lemma parseredirs_safe fuel c s : (s <= len)%nat -> (len - s < fuel)%nat -> cmd_ok c ->
  safe (parseredirs buf fuel c s) s (fun c' _ => cmd_ok c' /\ argc_of c' = argc_of c).
Proof.
  intros Hs Hf Hc.
  apply (safe_loop s (parseredirs_body buf) (fun c' => cmd_ok c' /\ argc_of c' = argc_of c)
    (fun c' => cmd_ok c' /\ argc_of c' = argc_of c)); [|lia|done|done].
  clear Hc Hf. intros c1 s1 Hs1 [Hc1 Ha]. assert (Hs' : (s1 <= len)%nat) by lia. clear s Hs Hs1. rename s1 into s, Hs' into Hs. unfold parseredirs_body.
  eapply safe_bind; [by apply peek_safe|done|]. intros [] s1 Hs1 [-> Hb]; cbn in Hb; [|cbn; split; [lia|done]].
  destruct (Hb eq_refl) as [Hlt Hch]. eapply safe_bind; [apply gettoken_safe; lia|lia|].
  intros [r1 x1] s2 Hs2 (_ & Ht & _). rewrite skip_skip in Ht by lia. specialize (Ht Hlt). cbn [fst] in Ht.
  eapply safe_bind; [apply gettoken_safe; lia|lia|]. intros [r2 x2] s3 Hs3 (_ & _ & Htok). cbn [fst snd] in *.
  destruct (Z.eqb_spec r2 97) as [->|]; cbn [negb]; [|cbn; left].
  specialize (Htok eq_refl).
  destruct (r1 =? 60); [|destruct (r1 =? 62); [|destruct (r1 =? 43)]]; cbn [safe mret M_ret];
    (split; [lia|]); (split; [|lia]); (split; [|done]); cbn [cmd_ok]; unfold redir_ok; naive_solver.
Qed.

Lemma exec_loop_safe fuel c n s : (s <= len)%nat -> (len - s < fuel)%nat ->
  cmd_ok c -> argc_of c = Some n ->
  safe (loop fuel (parseexec_body buf fuel) (c, n) s) s (fun c' _ => cmd_ok c').
Proof.
  intros Hs Hf Hc Hn.
  apply (safe_loop s (parseexec_body buf fuel) (fun x => cmd_ok x.1 /\ argc_of x.1 = Some x.2) cmd_ok); [|lia|done|done].
  clear c n Hc Hn. intros [c n] s0 Hs0 [Hc Hn]. cbn [fst snd] in *. unfold parseexec_body.
  eapply safe_bind; [apply peek_safe; lia|done|]. intros [] s1 Hs1 [-> _]; [cbn; split; [lia|done]|].
  eapply safe_bind; [apply gettoken_safe; lia|lia|].
  intros [r x] s2 Hs2 (Hq & Ht & Htok). rewrite skip_skip in Ht by lia. cbn [fst snd] in *.
  destruct (Z.eqb_spec r 0) as [->|]; [cbn; split; [lia|done]|].
  destruct (Z.eqb_spec r 97) as [->|]; cbn [negb]; [|cbn; right; left].
  destruct (Nat.leb_spec MAXARGS (S n)); [cbn; right; right; left|].
  destruct (add_arg_ok c x n Hc (Htok eq_refl) Hn ltac:(lia)) as [Hc' Hn'].
  assert (Hprog : (s0 < s2)%nat).
  { specialize (Htok eq_refl). destruct Htok as [Htok _]. lia. }
  eapply safe_bind; [apply parseredirs_safe; [lia|lia|done]|lia|].
  intros c2 s3 Hs3 [Hc2 Hn2]. cbn. split; [lia|]. split; [|lia]. split; [done|congruence].
Qed.

(** What is assumed of parseline() inside parentheses. *)
Definition line_safe (s : nat) (pl : M nat cmd) : Prop :=
  forall s', (s < s' <= len)%nat -> safe (pl s') s' (fun c _ => cmd_ok c).

Lemma safe_weaken {A} (r : res (A * nat)) lo lo' (P Q : A -> nat -> Prop) :
  safe r lo P -> (lo' <= lo)%nat -> (forall a s', P a s' -> Q a s') -> safe r lo' Q.
Proof. destruct r as [[a s']| | |]; cbn; [|done..]. intros [H1 H2] H3 H4. split; [lia|auto]. Qed.

Lemma parseexec_safe fuel pl s : (s <= len)%nat -> (len - s < fuel)%nat -> line_safe s pl ->
  safe (parseexec buf fuel pl s) s (fun c _ => cmd_ok c).
Proof.
  intros Hs Hf Hpl. unfold parseexec. eapply safe_bind; [by apply peek_safe|done|].
  intros [] s1 Hs1 [-> _].
  - unfold parseblock. eapply safe_bind; [apply peek_safe; lia|lia|]. intros [] s2 Hs2 [-> Hb]; cbn [negb].
    2: { cbn. do 4 right. left. }
    destruct (Hb eq_refl) as [Hlt _]. eapply safe_bind; [apply gettoken_safe; lia|lia|].
    intros t s3 Hs3 (_ & Ht & _). rewrite !skip_skip in Ht by (rewrite ?skip_skip; lia). rewrite skip_skip in Hlt, Hs3 by lia.
    specialize (Ht Hlt). eapply safe_bind; [apply (Hpl s3); lia|lia|]. intros c s4 Hs4 Hc.
    eapply safe_bind; [apply peek_safe; lia|lia|]. intros [] s5 Hs5 [-> _]; cbn [negb].
    2: { cbn. do 3 right. left. }
    eapply safe_bind; [apply gettoken_safe; lia|lia|]. intros t' s6 Hs6 _.
    eapply safe_weaken; [apply parseredirs_safe; [lia|lia|done]|lia|]. by intros ?? [? _].
  - eapply safe_bind; [apply (parseredirs_safe fuel (EXEC [])); [lia|lia|]|lia|].
    { cbn. split; [done|]. unfold MAXARGS. lia. }
    intros c s2 Hs2 [Hc Hn]. eapply safe_weaken; [apply exec_loop_safe; [lia|lia|done|done]|lia|done].
Qed.

Lemma parsepipe_safe fuel pl n s : (s <= len)%nat -> (len - s < fuel)%nat -> (len - s < n)%nat -> line_safe s pl ->
  safe (parsepipe buf fuel pl n s) s (fun c _ => cmd_ok c).
Proof.
  revert s. induction n as [|n IH]; intros s Hs Hf Hn Hpl; [lia|]. cbn [parsepipe].
  eapply safe_bind; [by apply parseexec_safe|done|]. intros c s1 Hs1 Hc.
  apply (peek_gettoken [124] s1); [lia| |intros s2 Hs2; cbn; split; [lia|done]].
  intros s2 Hs2. eapply safe_bind; [apply IH; try lia|lia|].
  - intros s' Hs'. apply Hpl. lia.
  - intros r s3 Hs3 Hr. cbn. split; [lia|done].
Qed.

Lemma parseline_safe fuel s : (s <= len)%nat -> (len - s < fuel)%nat ->
  safe (parseline buf fuel s) s (fun c _ => cmd_ok c).
Proof.
  revert s. induction fuel as [|f IH]; intros s Hs Hf; [lia|]. cbn [parseline].
  eapply safe_bind; [apply parsepipe_safe; [done|done|done|]|done|].
  { intros s' Hs'. apply IH; lia. }
  intros c s1 Hs1 Hc. eapply safe_bind; [apply (safe_loop s1 (back_body buf) cmd_ok cmd_ok); [|lia|done|lia]|lia|].
  { clear -Hbuf. intros c s Hs Hc. unfold back_body.
    apply (peek_gettoken [38] s); [lia|intros s' Hs'..]; cbn; (split; [lia|]); [|done]. split; [done|lia]. }
  intros c2 s2 Hs2 Hc2. apply (peek_gettoken [59] s2); [lia| |intros s3 Hs3; cbn; split; [lia|done]].
  intros s3 Hs3. eapply safe_bind; [apply IH; lia|lia|]. intros r s4 Hs4 Hr. cbn. split; [lia|done].
Qed.
End Line.

(** ** Ending the strings *)

(** The strings of a command. *)
Fixpoint ranges (c : cmd) : list range :=
  match c with
  | EXEC argv => argv
  | REDIR c' file _ _ => ranges c' ++ [file]
  | PIPE l r | LIST l r => ranges l ++ ranges r
  | BACK c' => ranges c'
  end.

Lemma fold_nul (l : list range) b :
  length (fold_left (fun b x => <[x.2 := 0]> b) l b) = length b /\
  forall i, fold_left (fun b x => <[x.2 := 0]> b) l b !! i =
    if decide (i ∈ l.*2) then (if decide (i < length b)%nat then Some 0 else None) else b !! i.
Proof.
  revert b. induction l as [|x l IH]; intros b; cbn [fold_left fmap list_fmap].
  - split; [done|]. intros i. by case_decide as H; [apply not_elem_of_nil in H|].
  - destruct (IH (<[x.2 := 0]> b)) as [IH1 IH2]. rewrite length_insert in IH1, IH2. split; [done|].
    intros i. rewrite IH2. destruct (decide (i = x.2)) as [->|Hne].
    + rewrite (decide_True (P := x.2 ∈ x.2 :: l.*2)) by left. destruct (decide (x.2 ∈ l.*2)); [done|].
      case_decide; [by rewrite list_lookup_insert_eq|]. apply lookup_ge_None_2. rewrite length_insert. lia.
    + rewrite list_lookup_insert_ne by done.
      destruct (decide (i ∈ l.*2)) as [Hin|Hin]; [by rewrite (decide_True (P := i ∈ x.2 :: l.*2)) by (by right)|].
      by rewrite (decide_False (P := i ∈ x.2 :: l.*2)) by (rewrite elem_of_cons; tauto).
Qed.

Lemma nulterminate_fold c b : nulterminate c b = fold_left (fun b x => <[x.2 := 0]> b) (ranges c) b.
Proof.
  revert b. induction c as [argv|c IH file mode fd|l IHl r IHr|l IHl r IHr|c IH]; intros b; cbn; [done|..].
  - by rewrite fold_left_app, IH.
  - by rewrite fold_left_app, IHr, IHl.
  - by rewrite fold_left_app, IHr, IHl.
  - apply IH.
Qed.

Lemma cstr_spec b q n : (q + n < length b)%nat ->
  (forall i, (q <= i < q + n)%nat -> exists c, b !! i = Some c /\ c <> 0) -> b !! (q + n)%nat = Some 0 ->
  cstr b q = slice q n b.
Proof.
  unfold cstr, slice. revert q. induction n as [|n IH]; intros q Hl Hin Hz.
  - rewrite Nat.add_0_r in Hz. by rewrite (drop_S _ _ _ Hz).
  - destruct (Hin q ltac:(lia)) as (c & Hc & Hnz). rewrite (drop_S _ _ _ Hc). cbn [take].
    apply Z.eqb_neq in Hnz. rewrite Hnz. f_equal. apply IH; [lia| |by rewrite Nat.add_succ_comm].
    intros i Hi. apply Hin. lia.
Qed.

Lemma ranges_ok buf c : cmd_ok buf c -> Forall (token_ok buf) (ranges c).
Proof.
  induction c as [argv|c IH file mode fd|l IHl r IHr|l IHl r IHr|c IH]; cbn.
  - by intros [? _].
  - intros (H1 & H2 & _). apply Forall_app. split; [auto|]. by constructor.
  - intros [H1 H2]. apply Forall_app. auto.
  - intros [H1 H2]. apply Forall_app. auto.
  - done.
Qed.

(** The text of a token. *)
Definition text (buf : list Z) (x : range) : list Z := slice x.1 (x.2 - x.1) buf.

Lemma nulterminate_strings buf c x : Forall (fun c => c <> 0) buf -> cmd_ok buf c -> x ∈ ranges c ->
  cstr (nulterminate c (buf ++ [0])) x.1 = text buf x.
Proof.
  intros Hb Hc Hx. pose proof (ranges_ok buf c Hc) as Hr. rewrite Forall_forall in Hr.
  destruct (Hr x Hx) as (H1 & H2 & _). rewrite nulterminate_fold.
  destruct (fold_nul (ranges c) (buf ++ [0])) as [Hlen Hlook].
  rewrite length_app in Hlen, Hlook. cbn [length] in Hlen, Hlook. set (b' := fold_left _ _ _) in *.
  assert (Hmid : forall i, (x.1 <= i < x.2)%nat -> b' !! i = buf !! i).
  { intros i Hi. rewrite Hlook. rewrite decide_False; [by rewrite lookup_app_l by lia|].
    intros [y [-> Hy]]%list_elem_of_fmap. destruct (Hr y Hy) as (_ & _ & H3). apply (H2 _ Hi), H3. lia. }
  rewrite (cstr_spec _ _ (x.2 - x.1)).
  - unfold text. apply list_eq. intros i. rewrite !lookup_slice. case_decide; [|done]. apply Hmid. lia.
  - rewrite Hlen. lia.
  - intros i Hi. rewrite Hmid by lia. destruct (lookup_lt_is_Some_2 buf i ltac:(lia)) as [c0 Hc0].
    exists c0. split; [done|]. by apply (Forall_lookup_1 _ _ _ _ Hb Hc0).
  - rewrite Hlook. replace (x.1 + (x.2 - x.1))%nat with x.2 by lia.
    rewrite decide_True by (apply list_elem_of_fmap; by exists x). by rewrite decide_True by lia.
Qed.

(** C23: Parsing terminates on every line: with fuel for its length plus one it yields one
    of the five complaints or a well-formed command, whose strings, once the NULs
    are written, are the tokens they were in the line. *)
Theorem parsecmd_total buf fuel : Forall (fun c => c <> 0) buf -> (length buf < fuel)%nat ->
  (exists c buf', parsecmd fuel buf = Ok (c, buf') /\ cmd_ok buf c /\
     forall x, x ∈ ranges c -> cstr buf' x.1 = text buf x) \/
  (exists m, parsecmd fuel buf = Panic m /\ m ∈ complaints).
Proof.
  intros Hb Hf. pose proof (parseline_safe buf Hb fuel O ltac:(lia) ltac:(lia)) as H. unfold parsecmd.
  destruct (parseline buf fuel O) as [[c s]|m| |]; cbn in H; [|right; by exists m|done..].
  destruct (Nat.eqb_spec (skip buf s) (es buf)); cbn [negb].
  - left. exists c, (nulterminate c (buf ++ [0])). split_and!; [done|apply H|]. intros x Hx.
    apply nulterminate_strings; [done|apply H|done].
  - right. eexists. split; [done|]. right. left.
Qed.

(** ls|wc; *)
Lemma parsecmd_total_witness :
  (exists c buf', parsecmd 7 [108; 115; 124; 119; 99; 59] = Ok (c, buf') /\ cmd_ok [108; 115; 124; 119; 99; 59] c /\
     forall x, x ∈ ranges c -> cstr buf' x.1 = text [108; 115; 124; 119; 99; 59] x) \/
  (exists m, parsecmd 7 [108; 115; 124; 119; 99; 59] = Panic m /\ m ∈ complaints).
Proof. apply (parsecmd_total [108; 115; 124; 119; 99; 59] 7); [by repeat constructor|cbn; lia]. Defined.
