(* ===== verification/ShTree.v ===== *)
(** * What a command line means to the shell

    A command is a tree; [print] gives the tokens of a tree, with parentheses where
    they are needed, and [spelled] says that a line consists of given tokens, however
    it is spaced.  Parsing such a line yields the tree, with its strings ended in the
    buffer. *)
From S2P Require Import Prelude Bytes Sh ShSpec.
From stdpp Require Import prelude strings.
From Stdlib Require Import ZArith Lia.
Import Sh.
Open Scope Z_scope.

(** ** Tokens of a line *)

Inductive tok := Word (w : list Z) | Sym (c : Z) | Append.

Definition spelling (t : tok) : list Z :=
  match t with Word w => w | Sym c => [c] | Append => [62; 62] end.

Definition ordinary (c : Z) : Prop := c <> 0 /\ ~ special c.
Definition word_ok (w : list Z) : Prop := w <> [] /\ Forall ordinary w.

#[export] Instance word_ok_dec w : Decision (word_ok w).
Proof. unfold word_ok, ordinary, special. apply _. Defined.

(** The token [t] may be followed by the text [rest]. *)
Definition delimited (t : tok) (rest : list Z) : Prop :=
  match t with
  | Word w => word_ok w /\ (forall c l, rest = c :: l -> special c)
  | Sym c => c ∈ symbols /\ (c = 62 -> forall l, rest <> 62 :: l)
  | Append => True
  end.

(** The text consists of these tokens, with white space between them. *)
Fixpoint spelled (ts : list tok) (l : list Z) : Prop :=
  match ts with
  | [] => Forall white l
  | t :: ts' => exists ws rest, l = ws ++ spelling t ++ rest /\ Forall white ws /\ delimited t rest /\ spelled ts' rest
  end.

(** What gettoken() returns for a token. *)
Definition code (t : tok) : Z := match t with Word _ => 97 | Sym c => c | Append => 43 end.

(** The first character of a token. *)
Definition first (t : tok) : Z := default 0 (head (spelling t)).

Lemma white_special c : white c -> special c.
Proof. by left. Qed.
Lemma sym_not_white c : c ∈ symbols -> ~ white c.
Proof. intros H W. unfold symbols in H. elems H; subst; unfold white, whitespace in W; by elems W. Qed.
Lemma white_nonzero c : white c -> c <> 0.
Proof. intros H. unfold white, whitespace in H. elems H; by subst. Qed.

Lemma delimited_first t rest : delimited t rest ->
  spelling t <> [] /\ first t <> 0 /\ ~ white (first t) /\
  (forall c, c ∈ symbols -> first t = c -> t = Sym c \/ c = 62 /\ t = Append).
Proof.
  destruct t as [w|c|]; cbn.
  - intros [[Hne Hw] _]. destruct w as [|c w]; [done|]. apply Forall_cons in Hw as [[H1 H2] _]. cbn.
    split_and!; [done|done| |]; [intros H; by apply H2, white_special|]. intros c' Hc' ->. exfalso. apply H2. by right.
  - intros [H1 _]. split_and!; [done| |by apply sym_not_white|intros c' _ ->; by left].
    unfold symbols in H1. elems H1; by subst.
  - intros _. split_and!; [done|done| |intros c' _ <-; by right].
    intros H. unfold white, whitespace in H. by elems H.
Qed.

Lemma spelled_trim ts ws l : spelled ts (ws ++ l) -> Forall white ws -> spelled ts l.
Proof.
  destruct ts as [|t ts]; cbn; [by intros [_ ?]%Forall_app|].
  intros (ws0 & rest & E & Hws0 & Hd & Hs) Hws. destruct (delimited_first t rest Hd) as (Hne & _ & Hnw & _).
  unfold first in Hnw. destruct (spelling t) as [|c sp] eqn:Esp; [done|]. cbn in Hnw.
  revert ws0 E Hws0. induction Hws as [|x ws Hx Hws IH]; intros ws0 E Hws0; [by exists ws0, rest|].
  destruct ws0 as [|y ws0]; cbn in E; simplify_eq. apply Forall_cons in Hws0 as [_ Hws0]. by apply (IH ws0).
Qed.

Lemma spelled_length ts l : spelled ts l -> (length ts <= length l)%nat.
Proof.
  revert l. induction ts as [|t ts IH]; intros l; cbn; [lia|]. intros (ws & rest & -> & _ & Hd & Hs).
  apply IH in Hs. destruct (delimited_first t rest Hd) as (Hne & _). rewrite !length_app.
  destruct (spelling t); cbn in *; [done|lia].
Qed.

Section Line.
Context (buf : list Z) (Hbuf : Forall (fun c => c <> 0) buf).
Abbreviation len := (length buf).

(** From position [s] on, the line consists of the tokens [ts]. *)
Definition ahead (ts : list tok) (s : nat) : Prop := (s <= len)%nat /\ spelled ts (drop s buf).

Lemma char_drop s c l : drop s buf = c :: l -> char buf s = c.
Proof.
  intros H. unfold char. rewrite <- (Nat.add_0_r s), <- lookup_drop, H. done.
Qed.

Lemma skip_at s ws l : (s <= len)%nat -> drop s buf = ws ++ l -> Forall white ws ->
  (forall c l', l = c :: l' -> ~ white c) -> skip buf s = (s + length ws)%nat /\ drop (s + length ws) buf = l.
Proof.
  intros Hs E Hws Hl. destruct (skip_spec buf Hbuf s Hs) as (H1 & H2 & H3).
  assert (Hd : drop (s + length ws) buf = l) by (by rewrite <- drop_drop, E, drop_app_length).
  split; [|done].
  assert (Hlen : (s + length ws + length l = len)%nat).
  { apply (f_equal length) in E. rewrite length_drop, length_app in E. lia. }
  destruct (Nat.lt_trichotomy (skip buf s) (s + length ws)) as [Hlt|[?|Hgt]]; [|done|]; exfalso.
  - apply H3; [lia|]. unfold char. replace (skip buf s) with (s + (skip buf s - s))%nat by lia.
    rewrite <- lookup_drop, E, lookup_app_l by lia.
    destruct (lookup_lt_is_Some_2 ws (skip buf s - s) ltac:(lia)) as [c Hc]. rewrite Hc. cbn.
    by apply (Forall_lookup_1 _ _ _ _ Hws Hc).
  - destruct l as [|c l]; [cbn in Hlen; lia|]. apply (Hl c l eq_refl). rewrite <- (char_drop _ _ _ Hd).
    apply H2. lia.
Qed.

(** Skipping white space stops at the next token. *)
Lemma ahead_skip ts s : ahead ts s -> ahead ts (skip buf s) /\
  match ts with
  | [] => skip buf s = len
  | t :: ts' => exists rest, drop (skip buf s) buf = spelling t ++ rest /\ delimited t rest /\ spelled ts' rest /\
      (skip buf s < len)%nat /\ char buf (skip buf s) = first t
  end.
Proof.
  intros [Hs Hsp]. destruct ts as [|t ts].
  - cbn in Hsp. destruct (skip_at s (drop s buf) [] Hs) as [E1 E2]; [by rewrite app_nil_r|done|done|].
    rewrite E1, length_drop. replace (s + (len - s))%nat with len by lia. split; [|done]. split; [done|].
    cbn [spelled]. by rewrite drop_ge by lia.
  - destruct Hsp as (ws & rest & E & Hws & Hd & Hsp). destruct (delimited_first t rest Hd) as (Hne & _ & Hnw & _).
    destruct (skip_at s ws (spelling t ++ rest) Hs E Hws) as [E1 E2].
    { intros c l' El. unfold first in Hnw. destruct (spelling t); [done|]. cbn in El. by simplify_eq. }
    rewrite E1. assert (Hlt : (s + length ws < len)%nat).
    { apply (f_equal length) in E. rewrite length_drop, !length_app in E. destruct (spelling t); cbn in *; [done|lia]. }
    split; [|exists rest; split_and!; try done].
    + split; [lia|]. rewrite E2. by exists [], rest.
    + unfold first. destruct (spelling t) as [|c l] eqn:Et; [done|]. cbn. by apply (char_drop _ _ (l ++ rest)).
Qed.

Definition first_in (toks : list Z) (ts : list tok) : bool :=
  match ts with [] => false | t :: _ => bool_decide (first t ∈ toks) end.

Lemma first_sym c ts : first_in [c] (Sym c :: ts) = true.
Proof. cbn. by rewrite bool_decide_true by left. Qed.

Lemma peek_ahead toks ts s : ahead ts s -> exists s', peek buf toks s = Ok (first_in toks ts, s') /\ ahead ts s'.
Proof.
  intros H. destruct (ahead_skip ts s H) as [H1 H2]. exists (skip buf s). split; [|done]. unfold peek.
  destruct ts as [|t ts].
  - rewrite H2. by rewrite (char_end buf len) by lia.
  - destruct H2 as (rest & _ & Hd & _ & _ & ->). destruct (delimited_first t rest Hd) as (_ & Hnz & _).
    unfold strchr. apply Z.eqb_neq in Hnz. by rewrite Hnz.
Qed.

Lemma word_at q w rest : (q < len)%nat -> drop q buf = w ++ rest -> delimited (Word w) rest ->
  word_end buf q = (q + length w)%nat.
Proof.
  intros Hq E [[Hne Hw] Hr]. assert (Hlen : (q + length w + length rest = len)%nat).
  { apply (f_equal length) in E. rewrite length_drop, length_app in E. lia. }
  assert (Hch : forall i, (i < length w)%nat -> ordinary (char buf (q + i))).
  { intros i Hi. unfold char. rewrite <- lookup_drop, E, lookup_app_l by done.
    destruct (lookup_lt_is_Some_2 w i Hi) as [c Hc]. rewrite Hc. by apply (Forall_lookup_1 _ _ _ _ Hw Hc). }
  assert (Hl0 : (0 < length w)%nat) by (destruct w; [done|cbn; lia]).
  destruct (word_end_spec buf Hbuf q Hq) as (H1 & H2 & H3).
  { specialize (Hch O Hl0). rewrite Nat.add_0_r in Hch. apply Hch. }
  cbn [fst snd] in *. destruct (Nat.lt_trichotomy (word_end buf q) (q + length w)) as [Hlt|[?|Hgt]]; [|done|]; exfalso.
  - apply (Hch (word_end buf q - q)%nat ltac:(lia)). replace (q + (word_end buf q - q))%nat with (word_end buf q) by lia.
    apply H3. lia.
  - destruct rest as [|c l]; [cbn in Hlen; lia|]. apply (H2 (q + length w)%nat); [lia|].
    rewrite (char_drop (q + length w) c l); [by apply (Hr c l)|]. by rewrite <- drop_drop, E, drop_app_length.
Qed.

Lemma gettoken_ahead t ts s : ahead (t :: ts) s -> exists x s',
  gettoken buf s = Ok ((code t, x), s') /\ (forall w, t = Word w -> text buf x = w) /\ ahead ts s'.
Proof.
  intros H. destruct (ahead_skip _ _ H) as [_ (rest & E & Hd & Hsp & Hlt & Hch)].
  destruct (delimited_first t rest Hd) as (Hne & Hnz & Hnw & Hsy).
  assert (Hnext : forall e, e = (skip buf s + length (spelling t))%nat -> ahead ts (skip buf e)).
  { intros e ->. apply ahead_skip. split; [|by rewrite <- drop_drop, E, drop_app_length].
    apply (f_equal length) in E. rewrite length_drop, length_app in E. lia. }
  unfold gettoken. set (q := skip buf s) in *. rewrite Hch. destruct (Z.eqb_spec (first t) 0); [done|].
  destruct (strchr [124; 40; 41; 59; 38; 60] (first t)) eqn:E1.
  - apply strchr_true in E1 as [_ E1]. assert (Ht : t = Sym (first t)).
    { destruct (Hsy (first t)) as [?|[E2 _]]; [|done|done|rewrite E2 in E1; by elems E1].
      unfold symbols. elems E1; rewrite E1; repeat constructor. }
    rewrite Ht. eexists _, _. split; [done|]. split; [done|]. apply Hnext. rewrite Ht. cbn. lia.
  - apply strchr_false in E1; [|done]. destruct (Z.eqb_spec (first t) 62) as [E2|E2].
    + destruct (Hsy 62) as [->|[_ ->]]; [unfold symbols; by repeat constructor|done| |].
      * destruct Hd as [_ Hd]. destruct (Z.eqb_spec (char buf (S q)) 62) as [E3|E3].
        { exfalso. destruct (drop (S q) buf) as [|c l] eqn:Ed.
          - unfold char in E3. rewrite <- (Nat.add_0_r (S q)), <- lookup_drop, Ed in E3. done.
          - rewrite (char_drop _ _ _ Ed) in E3. subst c. apply (Hd eq_refl l). cbn in E.
            rewrite <- Nat.add_1_r, <- drop_drop, E in Ed. cbn in Ed. done. }
        eexists _, _. split; [done|]. split; [done|]. apply Hnext. cbn. lia.
      * assert (E3 : char buf (S q) = 62).
        { apply (char_drop _ _ rest). cbn in E. by rewrite <- Nat.add_1_r, <- drop_drop, E. }
        rewrite E3. eexists _, _. split; [done|]. split; [done|]. apply Hnext. cbn. lia.
    + assert (Ht : exists w, t = Word w).
      { destruct t as [w|c|]; [by exists w| |done]. exfalso. cbn in *. destruct Hd as [Hd _].
        unfold symbols in Hd. apply E1. elems Hd; subst c; try done; repeat constructor. }
      destruct Ht as [w ->]. assert (He : word_end buf q = (q + length w)%nat) by (by apply (word_at q w rest)).
      rewrite He. eexists _, _. split; [done|]. split; [|by apply Hnext].
      intros w' [= <-]. unfold text, slice. cbn [fst snd spelling] in *. rewrite E.
      replace (q + length w - q)%nat with (length w) by lia. by rewrite take_app_length.
Qed.

Lemma gettoken_end s : ahead [] s -> exists x s', gettoken buf s = Ok ((0, x), s') /\ ahead [] s'.
Proof.
  intros H. destruct (ahead_skip _ _ H) as [H1 E]. unfold gettoken. rewrite E in *.
  rewrite (char_end buf len) by lia. cbn [Z.eqb]. eexists _, _. split; [done|]. by apply ahead_skip.
Qed.
End Line.

(** ** Trees *)

Inductive kind := Input | Output | OutputAppend.

Inductive tree :=
| TExec (args : list (list Z))
| TRedir (t : tree) (k : kind) (file : list Z)
| TPipe (l r : tree)
| TList (l r : tree)
| TBack (t : tree).

(** The kind of redirection of a mode. *)
Definition kind_of (mode : Z) : kind :=
  if mode =? O_RDONLY then Input else if Z.land mode O_TRUNC =? 0 then OutputAppend else Output.

(** The tree of a command, its strings read by [rd]. *)
Fixpoint tree_of (rd : range -> list Z) (c : cmd) : tree :=
  match c with
  | EXEC argv => TExec (map rd argv)
  | REDIR c' file mode _ => TRedir (tree_of rd c') (kind_of mode) (rd file)
  | PIPE l r => TPipe (tree_of rd l) (tree_of rd r)
  | LIST l r => TList (tree_of rd l) (tree_of rd r)
  | BACK c' => TBack (tree_of rd c')
  end.

(** Arguments leave room for the NULL; words are of ordinary characters. *)
Fixpoint tree_ok (t : tree) : Prop :=
  match t with
  | TExec args => (length args < MAXARGS)%nat /\ Forall word_ok args
  | TRedir t' _ file => tree_ok t' /\ word_ok file
  | TPipe l r | TList l r => tree_ok l /\ tree_ok r
  | TBack t' => tree_ok t'
  end.

(** What may stand without parentheses: any line, a line up to a semicolon, a
    pipeline, a single command. *)
Inductive level := Line | Job | Pipeline | Single.

Definition redir_toks (k : kind) (file : list Z) : list tok :=
  [match k with Input => Sym 60 | Output => Sym 62 | OutputAppend => Append end; Word file].
Definition paren (b : bool) (ts : list tok) : list tok := if b then Sym 40 :: ts ++ [Sym 41] else ts.

Fixpoint print (lvl : level) (t : tree) : list tok :=
  match t with
  | TExec args => map Word args
  | TRedir t' k file => print Single t' ++ redir_toks k file
  | TPipe l r => paren (match lvl with Single => true | _ => false end)
      (print Single l ++ Sym 124 :: print Pipeline r)
  | TBack t' => paren (match lvl with Single | Pipeline => true | _ => false end) (print Job t' ++ [Sym 38])
  | TList l r => paren (match lvl with Line => false | _ => true end) (print Job l ++ Sym 59 :: print Line r)
  end.

(** A single command is a core with redirections. *)
Fixpoint core (t : tree) : tree := match t with TRedir t' _ _ => core t' | _ => t end.
Fixpoint redirs (t : tree) : list (kind * list Z) :=
  match t with TRedir t' k f => redirs t' ++ [(k, f)] | _ => [] end.
Definition wrap (t : tree) (rs : list (kind * list Z)) : tree := fold_left (fun t r => TRedir t r.1 r.2) rs t.
Definition redirs_toks (rs : list (kind * list Z)) : list tok := concat (map (fun r => redir_toks r.1 r.2) rs).

Lemma wrap_core t : wrap (core t) (redirs t) = t.
Proof.
  induction t as [args|t IH k f| | |]; try done. cbn [core redirs]. unfold wrap in *. rewrite fold_left_app. cbn. by rewrite IH.
Qed.
Lemma print_core t : print Single t = print Single (core t) ++ redirs_toks (redirs t).
Proof.
  induction t as [args|t IH k f| | |]; cbn [core redirs print]; try (by rewrite app_nil_r).
  rewrite IH, <- app_assoc. f_equal. unfold redirs_toks. rewrite map_app, concat_app. cbn. done.
Qed.

(** The token [t] cannot continue a pipeline, ... *)
Definition follow (lvl : level) (ts : list tok) : Prop :=
  match ts with
  | [] => True
  | Sym c :: _ =>
      match lvl with
      | Line => c = 41
      | Job => c = 41 \/ c = 59
      | Pipeline => c = 41 \/ c = 59 \/ c = 38
      | Single => c = 41 \/ c = 59 \/ c = 38 \/ c = 124
      end
  | _ => False
  end.

Section Parse.
Context (buf : list Z) (Hbuf : Forall (fun c => c <> 0) buf).
Abbreviation ahead := (ahead buf).
Abbreviation tr := (tree_of (text buf)).

(** The parser [p], at the tokens [ts], returns the tree [t] and stops at [rest]. *)
Definition yields (p : M nat cmd) (ts rest : list tok) (t : tree) : Prop :=
  forall s, ahead (ts ++ rest) s -> exists c s', p s = Ok (c, s') /\ tr c = t /\ ahead rest s'.

Lemma redirs_none fuel c ts s : (0 < fuel)%nat -> first_in [60; 62] ts = false -> ahead ts s ->
  exists s', parseredirs buf fuel c s = Ok (c, s') /\ ahead ts s'.
Proof.
  intros Hf Hr Hs. destruct (peek_ahead buf Hbuf [60; 62] ts s Hs) as (s1 & E1 & H1). rewrite Hr in E1.
  destruct fuel as [|fuel]; [lia|]. exists s1. split; [|done]. apply loop_exit. unfold parseredirs_body. by kdo E1.
Qed.

Lemma follow_first lvl toks ts : follow lvl ts -> (forall c, c ∈ toks -> c <> 41 /\ c <> 59 /\ c <> 38 /\ c <> 124) ->
  first_in toks ts = false.
Proof.
  intros H Ht. destruct ts as [|[w|c|] ts]; cbn in *; [done|done| |done]. apply bool_decide_eq_false. intros Hin%Ht.
  destruct lvl; naive_solver.
Qed.

Lemma redirs_yield rs rest fuel c : (length rs < fuel)%nat ->
  first_in [60; 62] rest = false ->
  yields (parseredirs buf fuel c) (redirs_toks rs) rest (wrap (tr c) rs).
Proof.
  revert fuel c. induction rs as [|[k f] rs IH]; intros fuel c Hf Hr s Hs.
  - destruct (redirs_none fuel c rest s Hf Hr Hs) as (s1 & E1 & H1). by exists c, s1.
  - cbn [redirs_toks map concat fst snd] in Hs. rewrite <- app_assoc in Hs. cbn [redir_toks app] in Hs.
    destruct (peek_ahead buf Hbuf [60; 62] _ s Hs) as (s1 & E1 & H1).
    destruct (gettoken_ahead buf Hbuf _ _ s1 H1) as (x1 & s2 & E2 & _ & H2).
    destruct (gettoken_ahead buf Hbuf _ _ s2 H2) as (x2 & s3 & E3 & Hx2 & H3). specialize (Hx2 f eq_refl).
    destruct fuel as [|fuel]; [cbn in Hf; lia|]. cbn [length] in Hf.
    set (c' := REDIR c x2 (match k with Input => O_RDONLY | Output => Z.lor O_WRONLY (Z.lor O_CREATE O_TRUNC)
                             | OutputAppend => Z.lor O_WRONLY O_CREATE end)
                     (match k with Input => 0 | _ => 1 end)).
    destruct (IH fuel c' ltac:(lia) Hr s3 H3) as (c2 & s4 & E4 & Ht & H4).
    exists c2, s4. split_and!; [|rewrite Ht; cbn [tree_of c' wrap fold_left fst snd]; rewrite Hx2; by destruct k|done].
    rewrite <- E4. unfold parseredirs. apply loop_next. unfold parseredirs_body.
    kdo E1. destruct k; cbn [first_in first spelling head default] in *; rewrite bool_decide_true by (by repeat constructor);
      kdo E2; kdo E3; reflexivity.
Qed.

Lemma first_word toks w ts s : ahead (Word w :: ts) s -> (forall c, c ∈ toks -> c ∈ symbols) ->
  first_in toks (Word w :: ts) = false.
Proof.
  intros [_ (ws & rest & _ & _ & Hd & _)] Ht. cbn [first_in]. apply bool_decide_eq_false. intros Hin.
  destruct (delimited_first _ _ Hd) as (_ & _ & _ & H). destruct (H _ (Ht _ Hin) eq_refl) as [?|[_ ?]]; done.
Qed.

Lemma exec_exit fuel f c n rest s : follow Single rest -> ahead rest s ->
  exists s', loop (S f) (parseexec_body buf fuel) (c, n) s = Ok (c, s') /\ ahead rest s'.
Proof.
  intros Hr Hs. destruct (peek_ahead buf Hbuf [124; 41; 38; 59] rest s Hs) as (s1 & E1 & H1).
  destruct rest as [|[w|ch|] rest]; cbn in Hr; [|done| |done].
  - destruct (gettoken_end buf Hbuf s1 H1) as (x & s2 & E2 & H2). exists s2. split; [|done].
    apply loop_exit. unfold parseexec_body. kdo E1. cbn [first_in]. by kdo E2.
  - exists s1. split; [|done]. apply loop_exit. unfold parseexec_body. kdo E1. cbn [first_in first spelling head default].
    rewrite bool_decide_true; [done|]. destruct Hr as [Hr|[Hr|[Hr|Hr]]]; subst ch; repeat constructor.
Qed.

Lemma words_yield ws rs rest fuel f argv : ws <> [] -> (length argv + length ws < MAXARGS)%nat ->
  (length rs < fuel)%nat -> (length ws < f)%nat -> follow Single rest ->
  yields (loop f (parseexec_body buf fuel) (EXEC argv, length argv)) (map Word ws ++ redirs_toks rs) rest
    (wrap (TExec (map (text buf) argv ++ ws)) rs).
Proof.
  revert f argv. induction ws as [|w ws IH]; intros f argv Hne Hmax Hfu Hf Hr s Hs; [done|].
  rewrite <- app_assoc in Hs. cbn [map app] in Hs.
  pose proof (fun toks => first_word toks _ _ _ Hs) as Hfw.
  destruct (peek_ahead buf Hbuf [124; 41; 38; 59] _ s Hs) as (s1 & E1 & H1).
  rewrite Hfw in E1 by (intros c Hc; unfold symbols; elems Hc; subst; repeat constructor).
  destruct (gettoken_ahead buf Hbuf _ _ s1 H1) as (x & s2 & E2 & Hx & H2). specialize (Hx w eq_refl).
  destruct f as [|f]; [lia|]. cbn [length] in Hmax, Hf.
  assert (Hbody : forall c s3, parseredirs buf fuel (EXEC (argv ++ [x])) s2 = Ok (c, s3) ->
    parseexec_body buf fuel (EXEC argv, length argv) s = Ok (inl (c, S (length argv)), s3)).
  { intros c s3 E3. unfold parseexec_body. kdo E1. kdo E2. cbn [fst snd code Z.eqb negb Pos.eqb].
    destruct (Nat.leb_spec MAXARGS (S (length argv))); [lia|]. cbn [add_arg]. by kdo E3. }
  destruct ws as [|w2 ws].
  - cbn [map app] in H2.
    destruct (redirs_yield rs rest fuel (EXEC (argv ++ [x])) Hfu) with (s := s2) as (c & s3 & E3 & Ht & H3);
      [apply (follow_first Single); [done|]; intros ch Hin; by elems Hin; subst|done|].
    destruct f as [|f]; [lia|].
    destruct (exec_exit fuel f c (S (length argv)) rest s3 Hr H3) as (s4 & E4 & H4).
    exists c, s4. split_and!; [rewrite <- E4; apply loop_next, Hbody, E3| |done].
    rewrite Ht. cbn [tree_of]. by rewrite map_app, <- Hx.
  - destruct (redirs_none fuel (EXEC (argv ++ [x])) (map Word (w2 :: ws) ++ redirs_toks rs ++ rest) s2) as (s3 & E3 & H3);
      [lia| |done|].
    { apply (first_word _ _ _ s2 H2). intros c Hc. unfold symbols; elems Hc; subst; repeat constructor. }
    destruct (IH f (argv ++ [x])) with (s := s3) as (c & s4 & E4 & Ht & H4); try done.
    + rewrite length_app. cbn in *. lia.
    + cbn in *. lia.
    + by rewrite <- app_assoc.
    + rewrite length_app in E4. cbn [length] in E4. rewrite Nat.add_1_r in E4.
      exists c, s4. split_and!; [rewrite <- E4; apply loop_next, Hbody, E3| |done].
      rewrite Ht. by rewrite map_app, <- Hx, <- app_assoc.
Qed.

(** The whole line inside parentheses, for the subtrees of a tree. *)
Definition line_yields (pl : M nat cmd) (t : tree) : Prop :=
  forall rest, follow Line rest -> yields pl (print Line t) rest t.

Definition is_exec (t : tree) : Prop := match t with TExec _ => True | _ => False end.

Lemma core_shape t : is_exec (core t) \/ print Single (core t) = Sym 40 :: print Line (core t) ++ [Sym 41].
Proof. induction t as [args|t IH k f| | |]; cbn; auto. Qed.

Lemma core_ok t : tree_ok t -> tree_ok (core t).
Proof. induction t as [args|t IH k f| | |]; cbn; tauto. Qed.

Lemma redirs_toks_length rs : (length rs <= length (redirs_toks rs))%nat.
Proof. unfold redirs_toks. induction rs as [|r rs IH]; cbn in *; [lia|]. rewrite ?length_app. cbn. lia. Qed.

Lemma exec_yields args rs rest fuel pl : (length args < MAXARGS)%nat ->
  (length args + length rs < fuel)%nat -> follow Single rest ->
  yields (parseexec buf fuel pl) (map Word args ++ redirs_toks rs) rest (wrap (TExec args) rs).
Proof.
  intros Hmax Hf Hr s Hs. unfold parseexec.
  assert (Hnored : first_in [60; 62] rest = false).
  { apply (follow_first Single); [done|]. intros ch Hin. by elems Hin; subst. }
  destruct (peek_ahead buf Hbuf [40] _ s Hs) as (s1 & E1 & H1).
  assert (Hno : first_in [40] ((map Word args ++ redirs_toks rs) ++ rest) = false).
  { destruct args as [|w args].
    - destruct rs as [|[k f] rs]; [|by destruct k].
      apply (follow_first Single); [done|]. intros ch Hin. by elems Hin; subst.
    - cbn [map app] in *. apply (first_word _ _ _ s Hs). intros c Hc. elems Hc; subst; unfold symbols; repeat constructor. }
  rewrite Hno in E1. kdo E1. destruct args as [|w args].
  - destruct (redirs_yield rs rest fuel (EXEC []) ltac:(cbn in Hf; lia) Hnored s1 H1) as (c & s2 & E2 & Ht & H2).
    destruct fuel as [|fuel]; [lia|].
    destruct (exec_exit (S fuel) fuel c 0 rest s2 Hr H2) as (s3 & E3 & H3). exists c, s3. kdo E2. by split_and!.
  - destruct (redirs_none fuel (EXEC []) ((map Word (w :: args) ++ redirs_toks rs) ++ rest) s1) as (s2 & E2 & H2); [lia| |done|].
    { cbn [map app] in *. apply (first_word _ _ _ s1 H1). intros c Hc. unfold symbols; elems Hc; subst; repeat constructor. }
    destruct (words_yield (w :: args) rs rest fuel fuel []) with (s := s2) as (c & s3 & E3 & Ht & H3);
      [done|done|lia|lia|done|done|].
    exists c, s3. kdo E2. by split_and!.
Qed.

Lemma block_yields t rs rest fuel pl : (length rs < fuel)%nat -> follow Single rest -> line_yields pl t ->
  yields (parseexec buf fuel pl) ((Sym 40 :: print Line t ++ [Sym 41]) ++ redirs_toks rs) rest (wrap t rs).
Proof.
  intros Hf Hr Hpl s Hs. rewrite <- app_assoc in Hs. cbn [app] in Hs. rewrite <- app_assoc in Hs. cbn [app] in Hs.
  assert (Hnored : first_in [60; 62] rest = false).
  { apply (follow_first Single); [done|]. intros ch Hin. by elems Hin; subst. }
  destruct (peek_ahead buf Hbuf [40] _ s Hs) as (s1 & E1 & H1).
  destruct (peek_ahead buf Hbuf [40] _ s1 H1) as (s2 & E2 & H2).
  destruct (gettoken_ahead buf Hbuf _ _ s2 H2) as (x3 & s3 & E3 & _ & H3).
  destruct (Hpl (Sym 41 :: redirs_toks rs ++ rest) eq_refl s3 H3) as (c & s4 & E4 & Ht & H4).
  destruct (peek_ahead buf Hbuf [41] _ s4 H4) as (s5 & E5 & H5).
  destruct (gettoken_ahead buf Hbuf _ _ s5 H5) as (x6 & s6 & E6 & _ & H6).
  destruct (redirs_yield rs rest fuel c Hf Hnored s6 H6) as (c' & s7 & E7 & Ht' & H7).
  exists c', s7. split_and!; [|by rewrite Ht', Ht|done].
  rewrite first_sym in E1, E2, E5. unfold parseexec. kdo E1. unfold parseblock. kdo E2. cbn [negb].
  kdo E3. kdo E4. kdo E5. cbn [negb]. by kdo E6.
Qed.

Lemma single_yields t fuel pl rest : tree_ok t -> (length (print Single t) < fuel)%nat -> follow Single rest ->
  is_exec (core t) \/ line_yields pl (core t) -> yields (parseexec buf fuel pl) (print Single t) rest t.
Proof.
  intros Hok Hf Hr Hpl. pose proof (redirs_toks_length (redirs t)). rewrite print_core in *. rewrite length_app in Hf.
  rewrite <- (wrap_core t) at 3. destruct (core_shape t) as [He|E].
  - apply core_ok in Hok. destruct (core t) as [args| | | |]; cbn in He; try done. cbn [print] in *. rewrite length_map in Hf.
    apply exec_yields; [apply Hok|lia|done].
  - destruct Hpl as [He|Hpl].
    + exfalso. destruct (core t) as [[|w args]| | | |]; cbn in He, E; done.
    + rewrite E. apply block_yields; [lia|done|done].
Qed.

(** ** Pipelines, jobs and lines *)

Fixpoint size (t : tree) : nat :=
  match t with
  | TExec _ => 1
  | TRedir t' _ _ | TBack t' => S (size t')
  | TPipe l r | TList l r => S (size l + size r)
  end.

(** Inside a tree of size [N], or a tree that needs no parentheses in a pipeline. *)
Definition within (N : nat) (t : tree) : Prop :=
  (size t <= N)%nat /\ ((size t < N)%nat \/ match t with TBack _ | TList _ _ => False | _ => True end).

Section Level.
Context (N f : nat).
Context (IH : forall t, (size t < N)%nat -> tree_ok t -> (length (print Line t) < f)%nat -> line_yields (parseline buf f) t).

Lemma core_size t : (size (core t) <= size t)%nat.
Proof. induction t as [args|t IHt k g| | |]; cbn; lia. Qed.

Lemma single_within t rest : within N t -> match t with TPipe _ _ => (size t < N)%nat | _ => True end ->
  tree_ok t -> (length (print Single t) <= f)%nat -> follow Single rest ->
  yields (parseexec buf (S f) (parseline buf f)) (print Single t) rest t.
Proof.
  intros [HN Hw] Hp Hok Hf Hr. apply single_yields; [done|lia|done|].
  destruct (core_shape t) as [He|E]; [by left|right]. apply IH; [|by apply core_ok|].
  - destruct t as [args|t k g|l r|l r|t]; cbn [core] in *; [by destruct args| |lia|by destruct Hw..].
    pose proof (core_size t). cbn in HN. lia.
  - rewrite print_core, E, length_app in Hf. cbn in Hf. rewrite length_app in Hf. cbn in Hf. lia.
Qed.

Lemma follow_weaken lvl rest : follow lvl rest -> follow Single rest.
Proof. destruct rest as [|[w|ch|] rest]; cbn; [done|done| |done]. destruct lvl; tauto. Qed.

Lemma pipe_single t n rest : follow Pipeline rest -> yields (parseexec buf (S f) (parseline buf f)) (print Single t) rest t ->
  (0 < n)%nat -> yields (parsepipe buf (S f) (parseline buf f) n) (print Single t) rest t.
Proof.
  intros Hr Hy Hn s Hs. destruct (Hy s Hs) as (c & s1 & E1 & T1 & H1).
  destruct (peek_ahead buf Hbuf [124] rest s1 H1) as (s2 & E2 & H2).
  assert (Hno : first_in [124] rest = false).
  { destruct rest as [|[w|ch|] rest]; cbn in *; try done. apply bool_decide_eq_false. intros Hin. elems Hin. lia. }
  rewrite Hno in E2. destruct n as [|n]; [lia|]. exists c, s2. cbn [parsepipe]. split_and!; [|done|done].
  kdo E1. by kdo E2.
Qed.

Lemma pipe_yields t n rest : within N t -> tree_ok t -> (length (print Pipeline t) <= f)%nat ->
  (length (print Pipeline t) < n)%nat -> follow Pipeline rest ->
  yields (parsepipe buf (S f) (parseline buf f) n) (print Pipeline t) rest t.
Proof.
  revert n. induction t as [args|t IHt k g|l IHl r IHr|l _ r _|t _]; intros n Hw Hok Hf Hn Hr.
  3: { destruct Hok as [Hl Hokr]. cbn [print paren] in *. rewrite length_app in Hf, Hn. cbn [length] in Hf, Hn.
    assert (Hwl : within N l) by (destruct Hw as [Hw _]; cbn in Hw; split; [|left]; lia).
    assert (Hwr : within N r) by (destruct Hw as [Hw _]; cbn in Hw; split; [|left]; lia).
    intros s Hs. rewrite <- app_assoc in Hs. cbn [app] in Hs. destruct n as [|n]; [lia|].
    destruct (single_within l (Sym 124 :: print Pipeline r ++ rest) Hwl) with (s := s) as (c1 & s1 & E1 & T1 & H1);
      [destruct Hw as [Hw _], l; cbn in *; try done; lia|done|lia|cbn; auto|done|].
    destruct (peek_ahead buf Hbuf [124] _ s1 H1) as (s2 & E2 & H2).
    destruct (gettoken_ahead buf Hbuf _ _ s2 H2) as (x3 & s3 & E3 & _ & H3).
    destruct (IHr n Hwr Hokr ltac:(lia) ltac:(lia) Hr s3 H3) as (c4 & s4 & E4 & T4 & H4).
    exists (PIPE c1 c4), s4. cbn [tree_of parsepipe]. rewrite T1, T4. split_and!; [|done|done].
    rewrite first_sym in E2. kdo E1. kdo E2. kdo E3. by kdo E4. }
  all: match goal with |- yields _ (print Pipeline ?t) _ _ => change (print Pipeline t) with (print Single t) in * end.
  all: apply pipe_single; [done|apply single_within; try done; by apply (follow_weaken Pipeline)|lia].
Qed.

(** A job is a pipeline with some ampersands. *)
Fixpoint pipeline_of (t : tree) : tree := match t with TBack t' => pipeline_of t' | _ => t end.
Fixpoint backs (t : tree) : nat := match t with TBack t' => S (backs t') | _ => O end.
Fixpoint back_n (n : nat) (t : tree) : tree := match n with O => t | S n' => back_n n' (TBack t) end.

Lemma back_n_S n t : back_n n (TBack t) = TBack (back_n n t).
Proof. revert t. induction n as [|n IHn]; intros t; cbn; [done|]. apply IHn. Qed.
Lemma back_job t : back_n (backs t) (pipeline_of t) = t.
Proof. induction t as [args|t _ k g| | |t IHt]; try done. cbn. by rewrite back_n_S, IHt. Qed.
Lemma print_job t : print Job t = print Pipeline (pipeline_of t) ++ replicate (backs t) (Sym 38).
Proof.
  induction t as [args|t _ k g| | |t IHt]; cbn [pipeline_of backs replicate print paren]; try (by rewrite app_nil_r).
  rewrite IHt, <- app_assoc. f_equal. clear. induction (backs t) as [|n IHn]; [done|]. cbn. by rewrite IHn.
Qed.

Lemma back_yields n g c rest : (n < g)%nat -> follow Job rest ->
  yields (loop g (back_body buf) c) (replicate n (Sym 38)) rest (back_n n (tr c)).
Proof.
  revert g c. induction n as [|n IHn]; intros g c Hg Hr s Hs; (destruct g as [|g]; [lia|]).
  - destruct (peek_ahead buf Hbuf [38] _ s Hs) as (s1 & E1 & H1). cbn [replicate app] in E1.
    assert (Hno : first_in [38] rest = false).
    { destruct rest as [|[w|ch|] rest]; cbn in *; try done. apply bool_decide_eq_false. intros Hin. elems Hin. lia. }
    rewrite Hno in E1. exists c, s1. split_and!; [|done|done]. apply loop_exit. unfold back_body. by kdo E1.
  - cbn [replicate app] in Hs. destruct (peek_ahead buf Hbuf [38] _ s Hs) as (s1 & E1 & H1). rewrite first_sym in E1.
    destruct (gettoken_ahead buf Hbuf _ _ s1 H1) as (x2 & s2 & E2 & _ & H2).
    destruct (IHn g (BACK c) ltac:(lia) Hr s2 H2) as (c3 & s3 & E3 & T3 & H3).
    exists c3, s3. split_and!; [|done|done]. rewrite <- E3. apply loop_next. unfold back_body. kdo E1. by kdo E2.
Qed.

Definition parsejob : M nat cmd := c ← parsepipe buf (S f) (parseline buf f) (S f); loop (S f) (back_body buf) c.

Lemma pipeline_of_ok t : tree_ok t -> tree_ok (pipeline_of t).
Proof. induction t; cbn; auto. Qed.
Lemma pipeline_of_within t : (size t <= N)%nat -> (size t < N)%nat \/ (forall l r, t <> TList l r) -> within N (pipeline_of t).
Proof.
  assert (Hle : forall t, (size (pipeline_of t) <= size t)%nat) by (intros u; induction u; cbn; lia).
  intros H1 H2. specialize (Hle t). split; [lia|]. destruct t as [args|t k g|l r|l r|t]; cbn in *; auto.
  - destruct H2 as [H2|H2]; [by left|]. by destruct (H2 l r).
  - left. assert (size (pipeline_of t) <= size t)%nat; [|lia]. clear. induction t; cbn; lia.
Qed.

Lemma job_yields t rest : (size t <= N)%nat -> (size t < N)%nat \/ (forall l r, t <> TList l r) ->
  tree_ok t -> (length (print Job t) <= f)%nat -> follow Job rest -> yields parsejob (print Job t) rest t.
Proof.
  intros H1 H2 Hok Hf Hr s Hs. rewrite print_job in *. rewrite length_app, length_replicate in Hf.
  rewrite <- app_assoc in Hs.
  destruct (pipe_yields (pipeline_of t) (S f) (replicate (backs t) (Sym 38) ++ rest)) with (s := s)
    as (c1 & s1 & E1 & T1 & H3);
    [by apply pipeline_of_within|by apply pipeline_of_ok|lia|lia| |done|].
  { destruct (backs t); cbn; [|auto]. destruct rest as [|[w|ch|] rest]; cbn in *; tauto. }
  destruct (back_yields (backs t) (S f) c1 rest ltac:(lia) Hr s1 H3) as (c2 & s2 & E2 & T2 & H4).
  exists c2, s2. split_and!; [|rewrite T2, T1; apply back_job|done]. unfold parsejob. by kdo E1.
Qed.

Lemma parseline_job s : parseline buf (S f) s =
  (c ← parsejob; b ← peek buf [59];
   if (b : bool) then gettoken buf ;; right ← parseline buf f; mret (LIST c right) else mret c) s.
Proof. unfold parsejob. rewrite bind_assoc. done. Qed.

Lemma line_step t : (size t <= N)%nat -> tree_ok t -> (length (print Line t) <= f)%nat ->
  line_yields (parseline buf (S f)) t.
Proof.
  intros HN Hok Hf rest Hr s Hs. rewrite parseline_job.
  assert (Hcase : (exists l r, t = TList l r) \/ (forall l r, t <> TList l r) /\ print Line t = print Job t).
  { destruct t; (left; by eauto) || (right; done). }
  destruct Hcase as [(l & r & ->)|[Hne E]].
  - cbn [print paren tree_ok size] in *. rewrite length_app in Hf. cbn [length] in Hf. destruct Hok as [Hl Hokr].
    rewrite <- app_assoc in Hs. cbn [app] in Hs.
    destruct (job_yields l (Sym 59 :: print Line r ++ rest)) with (s := s) as (c1 & s1 & E1 & T1 & H1);
      [lia|left; lia|done|lia|cbn; auto|done|].
    destruct (peek_ahead buf Hbuf [59] _ s1 H1) as (s2 & E2 & H2). rewrite first_sym in E2.
    destruct (gettoken_ahead buf Hbuf _ _ s2 H2) as (x3 & s3 & E3 & _ & H3).
    destruct (IH r ltac:(lia) Hokr ltac:(lia) rest Hr s3 H3) as (c4 & s4 & E4 & T4 & H4).
    exists (LIST c1 c4), s4. cbn [tree_of]. rewrite T1, T4. split_and!; [|done|done]. kdo E1. kdo E2. kdo E3. by kdo E4.
  - rewrite E in *. destruct (job_yields t rest) with (s := s) as (c1 & s1 & E1 & T1 & H1);
      [lia|by right|done|lia| |done|].
    { destruct rest as [|[w|ch|] rest]; cbn in *; tauto. }
    destruct (peek_ahead buf Hbuf [59] rest s1 H1) as (s2 & E2 & H2).
    assert (Hno : first_in [59] rest = false).
    { destruct rest as [|[w|ch|] rest]; cbn in *; try done. apply bool_decide_eq_false. intros Hin. elems Hin. lia. }
    rewrite Hno in E2. exists c1, s2. split_and!; [|done|done]. kdo E1. by kdo E2.
Qed.
End Level.

Lemma parseline_yields t fuel : tree_ok t -> (length (print Line t) < fuel)%nat -> line_yields (parseline buf fuel) t.
Proof.
  remember (size t) as N eqn:EN. revert t EN fuel. induction (lt_wf N) as [N _ IHN]. intros t -> fuel Hok Hf.
  destruct fuel as [|f]; [lia|]. apply (line_step (size t) f); [|done|done|lia].
  intros u Hu Hoku Hfu. by apply (IHN (size u)).
Qed.
End Parse.

(** ** The round trip *)

Lemma spelled_nonzero ts l : spelled ts l -> Forall (fun c => c <> 0) l.
Proof.
  revert l. induction ts as [|t ts IH]; intros l; cbn.
  - intros H. apply (Forall_impl _ _ _ H). apply white_nonzero.
  - intros (ws & rest & -> & Hws & Hd & Hsp). rewrite !Forall_app. split_and!; [|..|auto].
    + apply (Forall_impl _ _ _ Hws). apply white_nonzero.
    + destruct t as [w|c|]; cbn in *.
      * destruct Hd as [[_ Hw] _]. apply (Forall_impl _ _ _ Hw). by intros c [? _].
      * destruct Hd as [Hc _]. constructor; [|done]. unfold symbols in Hc. elems Hc; by subst.
      * by repeat constructor.
Qed.

Lemma tree_of_ext rd rd' c : (forall x, x ∈ ranges c -> rd x = rd' x) -> tree_of rd c = tree_of rd' c.
Proof.
  induction c as [argv|c IH file mode fd|l IHl r IHr|l IHl r IHr|c IH]; cbn; intros H.
  - f_equal. apply map_ext_in. intros x Hx. apply H. by apply list_elem_of_In.
  - rewrite IH, H; [done|apply elem_of_app; right; left|]. intros x Hx. apply H, elem_of_app. by left.
  - rewrite IHl, IHr; [done|..]; intros x Hx; apply H, elem_of_app; auto.
  - rewrite IHl, IHr; [done|..]; intros x Hx; apply H, elem_of_app; auto.
  - by rewrite IH.
Qed.

(** The tokens with a blank after each. *)
Definition render (ts : list tok) : list Z := concat (map (fun t => spelling t ++ [32]) ts).

Definition tok_ok (t : tok) : Prop := match t with Word w => word_ok w | Sym c => c ∈ symbols | Append => True end.

Lemma spelled_render ts : Forall tok_ok ts -> spelled ts (render ts).
Proof.
  intros H. induction H as [|t ts Ht Hts IH]; [constructor|]. cbn [spelled render map concat].
  exists [], ([32] ++ render ts). split_and!; [by rewrite <- app_assoc|done| |].
  - destruct t as [w|c|]; cbn in *; [|by split|done]. split; [done|]. intros c l [= <- _]. left. unfold whitespace. left.
  - revert IH. destruct ts as [|t2 ts]; [intros _; repeat constructor; left|].
    intros (ws & rest & E & Hws & H'). exists (32 :: ws), rest. split; [exact (f_equal (cons 32) E)|]. split; [|done].
    constructor; [left|done].
Qed.

Lemma spelled_snoc ts l c : spelled ts l -> white c -> spelled ts (l ++ [c]).
Proof.
  revert l. induction ts as [|t ts IH]; intros l H Hc; cbn in *; [by apply Forall_app; split; [|constructor]|].
  destruct H as (ws & rest & -> & Hws & Hd & Hsp). exists ws, (rest ++ [c]).
  split; [by rewrite <- !app_assoc|]. split_and!; [done| |by apply IH].
  destruct t as [w|ch|]; cbn in *; [|destruct Hd as [Hd1 Hd2]; split; [done|]|done].
  - destruct Hd as [Hw Hd]. split; [done|]. intros c' l' E. destruct rest as [|c0 rest]; cbn in E; simplify_eq; [by left|].
    by apply (Hd c' rest).
  - intros Ec l' E. destruct rest as [|c0 rest]; cbn in E; simplify_eq; [|by apply (Hd2 eq_refl rest)].
    unfold white, whitespace in Hc. by elems Hc.
Qed.

Lemma print_ok lvl t : tree_ok t -> Forall tok_ok (print lvl t).
Proof.
  assert (Hpar : forall b ts, Forall tok_ok ts -> Forall tok_ok (paren b ts)).
  { intros [] ts H; cbn; [|done]. constructor; [|apply Forall_app; split; [done|]; constructor; [|done]];
      unfold tok_ok, symbols; repeat constructor. }
  revert lvl. induction t as [args|t IH k g|l IHl r IHr|l IHl r IHr|t IH]; intros lvl; cbn [tree_ok print].
  - intros [_ H]. by apply Forall_map.
  - intros [H1 H2]. apply Forall_app. split; [auto|]. by destruct k; repeat constructor; try apply H2.
  - intros [H1 H2]. apply Hpar, Forall_app. split; [auto|]. constructor; [unfold tok_ok, symbols; repeat constructor|auto].
  - intros [H1 H2]. apply Hpar, Forall_app. split; [auto|]. constructor; [unfold tok_ok, symbols; repeat constructor|auto].
  - intros H. apply Hpar, Forall_app. split; [auto|]. constructor; [unfold tok_ok, symbols; repeat constructor|done].
Qed.

Lemma parse_tree t line fuel : tree_ok t -> spelled (print Line t) line -> (length line < fuel)%nat ->
  exists c buf', parsecmd fuel line = Ok (c, buf') /\ cmd_ok line c /\ tree_of (fun x => cstr buf' x.1) c = t.
Proof.
  intros Hok Hsp Hf. pose proof (spelled_nonzero _ _ Hsp) as Hnz. pose proof (spelled_length _ _ Hsp) as Hlen.
  destruct (parseline_yields line Hnz t fuel Hok ltac:(lia) [] I O) as (c & s' & E & T & Ha).
  { split; [lia|]. by rewrite app_nil_r. }
  destruct (ahead_skip line Hnz [] s' Ha) as [_ Hend].
  pose proof (parseline_safe line Hnz fuel O ltac:(lia) ltac:(lia)) as Hsafe. rewrite E in Hsafe. destruct Hsafe as [_ Hc].
  exists c, (nulterminate c (line ++ [0])). unfold parsecmd. rewrite E, Hend. unfold es. rewrite Nat.eqb_refl. cbn [negb].
  split_and!; [done|done|]. rewrite <- T. apply tree_of_ext. intros x Hx. by apply nulterminate_strings.
Qed.

(** C21: Every command tree can be written as a line, and any line that spells its tokens,
    however it is spaced, parses to a command whose C strings, in the buffer with its
    NULs, are those of the tree. *)
Theorem parse_print t : tree_ok t ->
  spelled (print Line t) (render (print Line t)) /\
  forall line fuel, spelled (print Line t) line -> (length line < fuel)%nat ->
    exists c buf', parsecmd fuel line = Ok (c, buf') /\ tree_of (fun x => cstr buf' x.1) c = t.
Proof.
  intros Hok. split; [by apply spelled_render, print_ok|]. intros line fuel Hsp Hf.
  destruct (parse_tree t line fuel Hok Hsp Hf) as (c & b & E & _ & T). by exists c, b.
Qed.

(** (ls ; cat a >> b) | wc & *)
Definition sample : tree :=
  TBack (TPipe (TList (TExec [[108; 115]]) (TRedir (TExec [[99; 97; 116]; [97]]) OutputAppend [98])) (TExec [[119; 99]])).

Lemma sample_ok : tree_ok sample.
Proof.
  unfold sample. cbn [tree_ok]. unfold MAXARGS. cbn [length].
  repeat match goal with
  | |- _ /\ _ => split
  | |- Forall _ (_ :: _) => constructor
  | |- Forall _ [] => constructor
  | |- word_ok _ => apply (bool_decide_unpack _); vm_compute; exact I
  | |- (_ < _)%nat => lia
  end.
Qed.

Lemma parse_print_witness : exists c buf',
  parsecmd 40 (render (print Line sample)) = Ok (c, buf') /\ tree_of (fun x => cstr buf' x.1) c = sample.
Proof.
  destruct (parse_print sample sample_ok) as [H1 H2]. apply (H2 _ 40%nat H1). vm_compute. lia.
Defined.

Lemma parse_print_spaced : exists c buf',
  parsecmd 40 [40; 108; 115; 59; 99; 97; 116; 9; 97; 62; 62; 98; 41; 124; 32; 32; 119; 99; 38; 10] = Ok (c, buf') /\
  tree_of (fun x => cstr buf' x.1) c = sample.
Proof. eexists _, _. split; vm_compute; reflexivity. Qed.
