(* ===== verification/ShRun.v ===== *)
(** * What the shell runs

    An interpreter of the shell's programs gives each process its table of open
    files, with the kernel's rules: a descriptor is the lowest free slot, fork()
    copies the table, pipe() makes a new pipe.  It collects the calls of exec() with
    the files they are made with.  [wires] says what these calls should be for a
    command tree; runcmd() makes exactly them, and the whole shell, reading lines,
    runs the trees the lines spell. *)
From S2P Require Import Prelude Bytes Sh ShSpec ShTree.
From stdpp Require Import prelude strings.
From Stdlib Require Import ZArith Lia.
Import Sh.
Open Scope Z_scope.

(** ** Processes *)

(** A process is named by the call that made it: the number of the call in its
    parent, before the parent's own name; a pipe likewise. *)
Abbreviation name := (list nat).

Inductive file := Inherited (n : nat) | Opened (path : list Z) (mode : Z) | PipeRead (p : name) | PipeWrite (p : name).
Abbreviation fdtable := (list (option file)).

Fixpoint lowest (fds : fdtable) : option nat :=
  match fds with [] => None | None :: _ => Some O | Some _ :: fds' => S <$> lowest fds' end.
(** The table and the result of a call that makes a descriptor. *)
Definition fdalloc (fds : fdtable) (f : option file) : fdtable * Z :=
  match f, lowest fds with
  | Some f, Some i => (<[i := Some f]> fds, Z.of_nat i)
  | _, _ => (fds, -1)
  end.

(** A call of exec(): the argument vector and the files; or a loop cut off by its fuel. *)
Inductive event := Event (argv : list (list Z)) (fds : fdtable) | Cut.

(** The calls of exec() a program makes, with its children.  [nm] names the process,
    [n] counts its calls that make something, [inp] is its standard input.  Calls
    that can succeed do. *)
Fixpoint execs (nm : name) (n : nat) (fds : fdtable) (inp : list Z) (p : prog) : list event :=
  match p with
  | Exit _ => []
  | Unfinished => [Cut]
  | Sys (Exec _ argv) _ => [Event argv fds]
  | Sys (Open path mode) k => let '(fds', r) := fdalloc fds (Some (Opened path mode)) in execs nm n fds' inp (k r)
  | Sys (Close fd) k => execs nm n (<[Z.to_nat fd := None]> fds) inp (k 0)
  | Sys (Dup fd) k => let '(fds', r) := fdalloc fds (mjoin (fds !! Z.to_nat fd)) in execs nm n fds' inp (k r)
  | Sys (Wait | Chdir _ | Write _ _) k => execs nm n fds inp (k 0)
  | SysPipe k =>
      let '(fds1, r0) := fdalloc fds (Some (PipeRead (n :: nm))) in
      let '(fds2, r1) := fdalloc fds1 (Some (PipeWrite (n :: nm))) in
      if (r0 <? 0) || (r1 <? 0) then execs nm (S n) fds inp (k None)
      else execs nm (S n) fds2 inp (k (Some (r0, r1)))
  | SysRead k => match inp with [] => execs nm n fds [] (k None) | c :: inp' => execs nm n fds inp' (k (Some c)) end
  | Fork k => execs (n :: nm) O fds inp (k 0) ++ execs nm (S n) fds inp (k 1)
  end.

(** ** What a tree should run *)

Definition mode_of (k : kind) : Z :=
  match k with Input => O_RDONLY | Output => Z.lor O_WRONLY (Z.lor O_CREATE O_TRUNC) | OutputAppend => Z.lor O_WRONLY O_CREATE end.
Definition fd_of (k : kind) : nat := match k with Input => 0 | _ => 1 end.

Fixpoint wires (nm : name) (n : nat) (fds : fdtable) (t : tree) : list event :=
  match t with
  | TExec [] => []
  | TExec args => [Event args fds]
  | TRedir t' k f => wires nm n (<[fd_of k := Some (Opened f (mode_of k))]> fds) t'
  | TList l r => wires (n :: nm) 0 fds l ++ wires nm (S n) fds r
  | TPipe l r =>
      wires (S n :: nm) 0 (<[1%nat := Some (PipeWrite (n :: nm))]> fds) l ++
      wires (S (S n) :: nm) 0 (<[0%nat := Some (PipeRead (n :: nm))]> fds) r
  | TBack t' => wires (n :: nm) 0 fds t'
  end.

(** Descriptors 0 and 1 are open and two more can be made. *)
Definition roomy (fds : fdtable) : Prop :=
  exists a b fds', fds = Some a :: Some b :: fds' /\
    exists i j, lowest fds' = Some i /\ lowest (<[i := Some (Inherited 0)]> fds') = Some j.

Lemma lowest_spec fds i : lowest fds = Some i -> fds !! i = Some None.
Proof.
  revert i. induction fds as [|[f|] fds IH]; intros i; cbn; [done| |by intros [= <-]].
  destruct (lowest fds) as [j|]; cbn; [|done]. intros [= <-]. cbn. by apply IH.
Qed.
Lemma lowest_insert fds i f g : lowest fds = Some i -> lowest (<[i := Some f]> fds) = lowest (<[i := Some g]> fds).
Proof.
  revert i. induction fds as [|[h|] fds IH]; intros i; cbn; [done| |by intros [= <-]].
  destruct (lowest fds) as [j|]; cbn; [|done]. intros [= <-]. exact (f_equal (fmap S) (IH j eq_refl)).
Qed.

(** The files of a redirection or a pipe end, in place. *)
Lemma roomy_set fds i f : roomy fds -> (i = 0 \/ i = 1)%nat -> roomy (<[i := Some f]> fds).
Proof.
  intros (a & b & fds' & -> & H) [-> | ->]; [by exists f, b, fds'|by exists a, f, fds'].
Qed.
Lemma reopen fds i f : roomy fds -> (i = 0 \/ i = 1)%nat ->
  fdalloc (<[i := None]> fds) (Some f) = (<[i := Some f]> fds, Z.of_nat i).
Proof. intros (a & b & fds' & -> & _) [-> | ->]; done. Qed.

(** pipe() in a roomy table, and the descriptors put back. *)
Lemma pipe_alloc fds f g : roomy fds -> exists i j,
  (1 < i)%nat /\ (1 < j)%nat /\ i <> j /\ fds !! i = Some None /\ fds !! j = Some None /\
  fdalloc fds (Some f) = (<[i := Some f]> fds, Z.of_nat i) /\
  fdalloc (<[i := Some f]> fds) (Some g) = (<[j := Some g]> (<[i := Some f]> fds), Z.of_nat j).
Proof.
  intros (a & b & fds' & -> & i & j & H1 & H2). exists (S (S i)), (S (S j)).
  pose proof (lowest_spec _ _ H1) as L1. pose proof (lowest_spec _ _ H2) as L2.
  assert (Hij : i <> j).
  { intros ->. rewrite list_lookup_insert_eq in L2; [done|]. by apply lookup_lt_Some in L1. }
  rewrite list_lookup_insert_ne in L2 by done.
  split_and!; [lia|lia|lia|done|done| |].
  - unfold fdalloc. cbn. by rewrite H1.
  - unfold fdalloc. change (<[S (S i) := Some f]> (Some a :: Some b :: fds')) with (Some a :: Some b :: <[i := Some f]> fds').
    cbn [lowest]. rewrite (lowest_insert fds' i f (Inherited 0) H1), H2. done.
Qed.

(** A process of a pipeline: descriptor [k] becomes the pipe's end [f], and the pipe's
    own descriptors are closed. *)
Section PipeTable.
Context (fds : fdtable) (i j : nat) (a b : file).
Context (Hr : roomy fds) (Hi : (1 < i)%nat) (Hj : (1 < j)%nat) (Hij : i <> j).
Context (Li : fds !! i = Some None) (Lj : fds !! j = Some None).
Let both := <[j := Some b]> (<[i := Some a]> fds).

Lemma both_roomy k f : (k = 0 \/ k = 1)%nat -> fdalloc (<[k := None]> both) (Some f) = (<[k := Some f]> both, Z.of_nat k).
Proof.
  intros Hk. unfold both. destruct Hr as (x & y & fds' & -> & _).
  destruct i as [|[|i']]; [lia|lia|]. destruct j as [|[|j']]; [lia|lia|]. destruct Hk as [-> | ->]; done.
Qed.
Lemma both_ends k : (k = 0 \/ k = 1)%nat ->
  (<[k := None]> both) !! i = Some (Some a) /\ (<[k := None]> both) !! j = Some (Some b).
Proof.
  intros Hk. pose proof (lookup_lt_Some _ _ _ Li). pose proof (lookup_lt_Some _ _ _ Lj). unfold both.
  rewrite !(list_lookup_insert_ne _ k) by lia. split.
  - rewrite list_lookup_insert_ne by done. by rewrite list_lookup_insert_eq.
  - rewrite list_lookup_insert_eq; [done|]. by rewrite length_insert.
Qed.
Lemma close_both_set k f : (k = 0 \/ k = 1)%nat -> <[j := None]> (<[i := None]> (<[k := Some f]> both)) = <[k := Some f]> fds.
Proof.
  intros Hk. pose proof (lookup_lt_Some _ _ _ Li). pose proof (lookup_lt_Some _ _ _ Lj).
  apply list_eq. intros m. unfold both. rewrite !list_lookup_insert, !length_insert.
  destruct (decide (m = j)) as [->|]; [rewrite decide_True by done; rewrite decide_False by lia; done|].
  rewrite decide_False by naive_solver. destruct (decide (m = i)) as [->|]; [rewrite decide_True by done; rewrite decide_False by lia; done|].
  rewrite decide_False by naive_solver. destruct (decide (m = k)) as [->|]; [by rewrite !decide_True by lia|].
  repeat case_decide; naive_solver.
Qed.
End PipeTable.

Lemma kind_of_ok mode fd : redir_ok mode fd -> mode_of (kind_of mode) = mode /\ Z.to_nat fd = fd_of (kind_of mode).
Proof. intros [[-> ->]|[[-> ->]|[-> ->]]]; done. Qed.

Lemma runcmd_wires buf b c : cmd_ok buf c -> forall nm n fds inp, roomy fds ->
  execs nm n fds inp (runcmd b c) = wires nm n fds (tree_of (fun x => cstr b x.1) c).
Proof.
  induction c as [argv|c IH file mode fd|l IHl r IHr|l IHl r IHr|c IH]; intros Hok nm n fds inp Hr;
    cbn [runcmd tree_of wires].
  - by destruct argv as [|[q e] argv].
  - destruct Hok as (Hc & _ & Hm). destruct (kind_of_ok mode fd Hm) as [E1 E2]. cbn [execs]. rewrite E2, E1.
    assert (Hk : (fd_of (kind_of mode) = 0 \/ fd_of (kind_of mode) = 1)%nat) by (destruct (kind_of mode); auto).
    rewrite (reopen fds _ _ Hr Hk). destruct (Z.ltb_spec (Z.of_nat (fd_of (kind_of mode))) 0); [lia|].
    apply IH; [done|]. by apply roomy_set.
  - destruct Hok as [Hl Hr2]. cbn [execs].
    destruct (pipe_alloc fds (PipeRead (n :: nm)) (PipeWrite (n :: nm)) Hr) as (i & j & Hi & Hj & Hij & Li & Lj & E1 & E2).
    rewrite E1, E2. destruct (Z.ltb_spec (Z.of_nat i) 0); [lia|]. destruct (Z.ltb_spec (Z.of_nat j) 0); [lia|]. cbn [orb].
    unfold fork1. cbn [execs Z.eqb]. f_equal.
    + rewrite !Nat2Z.id. change (Z.to_nat 1) with 1%nat.
      destruct (both_ends fds i j (PipeRead (n :: nm)) (PipeWrite (n :: nm)) Hi Hj Hij Li Lj 1%nat (or_intror eq_refl)) as [_ ->].
      cbn [mjoin option_join]. rewrite (both_roomy fds i j _ _ Hr Hi Hj Hij Li Lj 1%nat _ (or_intror eq_refl)).
      rewrite (close_both_set fds i j _ _ Hi Hj Hij Li Lj 1%nat _ (or_intror eq_refl)).
      apply IHl; [done|]. apply roomy_set; auto.
    + change (1 =? -1) with false. cbn [execs Z.eqb]. rewrite !Nat2Z.id. change (Z.to_nat 0) with 0%nat.
      destruct (both_ends fds i j (PipeRead (n :: nm)) (PipeWrite (n :: nm)) Hi Hj Hij Li Lj 0%nat (or_introl eq_refl)) as [-> _].
      cbn [mjoin option_join]. rewrite (both_roomy fds i j _ _ Hr Hi Hj Hij Li Lj 0%nat _ (or_introl eq_refl)).
      rewrite (close_both_set fds i j _ _ Hi Hj Hij Li Lj 0%nat _ (or_introl eq_refl)).
      rewrite app_nil_r. apply IHr; [done|]. apply roomy_set; auto.
  - destruct Hok as [Hl Hr2]. unfold fork1. cbn [execs Z.eqb]. f_equal; [by apply IHl|]. cbn. by apply IHr.
  - unfold fork1. cbn [execs Z.eqb]. rewrite app_nil_r. by apply IH.
Qed.

(** ** The whole shell *)

(** A line that gets() reads at once, and that is not a cd. *)
Definition line_ok (line : list Z) : Prop :=
  (length line <= 99)%nat /\ is_cd line = false /\ exists body, line = body ++ [10] /\ 10 ∉ body /\ 13 ∉ body.

Lemma gets_line body nm n fds rest k m acc : 10 ∉ body -> 13 ∉ body -> (length body < m)%nat ->
  execs nm n fds (body ++ 10 :: rest) (gets m acc k) = execs nm n fds rest (k (acc ++ body ++ [10])).
Proof.
  revert m acc. induction body as [|c body IH]; intros m acc H1 H2 Hm; (destruct m as [|m]; [cbn in Hm; lia|]); [done|].
  apply not_elem_of_cons in H1 as [H1 H1'], H2 as [H2 H2']. cbn [app gets execs].
  destruct (Z.eqb_spec c 10); [congruence|]. destruct (Z.eqb_spec c 13); [congruence|]. cbn [orb].
  rewrite IH by (done || cbn in Hm; lia). by rewrite <- app_assoc.
Qed.

Lemma cstr_line line : Forall (fun c => c <> 0) line -> cstr (line ++ [0]) 0 = line.
Proof.
  intros H. rewrite (cstr_spec _ 0 (length line)).
  - unfold slice. by rewrite drop_0, take_app_length.
  - rewrite length_app. cbn. lia.
  - intros i Hi. destruct (lookup_lt_is_Some_2 line i ltac:(lia)) as [c Hc]. exists c.
    rewrite lookup_app_l by lia. split; [done|]. by apply (Forall_lookup_1 _ _ _ _ H Hc).
  - by rewrite lookup_app_r, Nat.sub_diag by lia.
Qed.

Lemma main_line f nm n fds line rest : line_ok line -> Forall (fun c => c <> 0) line ->
  execs nm n fds (line ++ rest) (main_loop (S f)) =
  execs (n :: nm) 0 fds rest (parse_and_run line) ++ execs nm (S n) fds rest (main_loop f).
Proof.
  intros (Hlen & Hcd & body & -> & H1 & H2) Hnz. cbn [main_loop]. unfold getcmd. cbn [execs].
  change (100 - 1)%nat with 99%nat. rewrite <- app_assoc. cbn [app].
  rewrite gets_line; [|done|done|rewrite length_app in Hlen; cbn in Hlen; lia]. cbn [app].
  rewrite (cstr_line _ Hnz). destruct (body ++ [10]) as [|c l] eqn:E; [by destruct body|]. rewrite Hcd. done.
Qed.

Lemma main_eof f nm n fds : execs nm n fds [] (main_loop (S f)) = [].
Proof. done. Qed.

(** The trees of the lines, run by children numbered from [n]. *)
Fixpoint runs (nm : name) (n : nat) (fds : fdtable) (ts : list tree) : list event :=
  match ts with [] => [] | t :: ts' => wires (n :: nm) 0 fds t ++ runs nm (S n) fds ts' end.

Lemma main_runs nm n fds ts lines fuel :
  Forall2 (fun t line => tree_ok t /\ spelled (print Line t) line /\ line_ok line) ts lines ->
  roomy fds -> (length lines < fuel)%nat ->
  execs nm n fds (concat lines) (main_loop fuel) = runs nm n fds ts.
Proof.
  intros H Hr. revert n fuel. induction H as [|t line ts lines (Ht & Hsp & Hl) H IH]; intros n fuel Hf;
    (destruct fuel as [|fuel]; [cbn in Hf; lia|]); [apply main_eof|].
  pose proof (spelled_nonzero _ _ Hsp) as Hnz. cbn [concat runs length] in *. rewrite main_line by done.
  rewrite IH by lia. f_equal. unfold parse_and_run.
  destruct (parse_tree t line (S (length line)) Ht Hsp ltac:(lia)) as (c & b & E & Hc & T). rewrite E, <- T.
  by apply (runcmd_wires line).
Qed.

(** C22: The shell, started with three open descriptors, reads lines until the input ends,
    and for each of them a child makes exactly the calls of exec() that the tree the
    line spells asks for: every command once, with its arguments, its redirections
    opened in the right mode on the right descriptor, a pipe between neighbours and no
    other pipe end open. *)
Theorem shell_correct nm n fin fout ferr free ts lines fuel :
  let fds := Some fin :: Some fout :: Some ferr :: None :: None :: free in
  Forall2 (fun t line => tree_ok t /\ spelled (print Line t) line /\ line_ok line) ts lines ->
  (length lines < fuel)%nat ->
  execs nm n fds (concat lines) (main fuel) = runs nm n fds ts.
Proof.
  intros fds H Hf. transitivity (execs nm n fds (concat lines) (main_loop fuel)); [done|].
  apply main_runs; [done| |done]. exists fin, fout, (Some ferr :: None :: None :: free). split; [done|]. by exists 1%nat, 2%nat.
Qed.

(** ls | wc > o, and echo a ; echo b & *)
Definition two_trees : list tree :=
  [TPipe (TExec [bytes "ls"]) (TRedir (TExec [bytes "wc"]) Output (bytes "o"));
   TList (TExec [bytes "echo"; bytes "a"]) (TBack (TExec [bytes "echo"; bytes "b"]))].
Definition line_of (t : tree) : list Z := render (print Line t) ++ newline.

Lemma two_lines_ok : Forall2 (fun t line => tree_ok t /\ spelled (print Line t) line /\ line_ok line)
  two_trees (map line_of two_trees).
Proof.
  assert (W : forall w, bool_decide (word_ok w) = true -> word_ok w) by (intros w H; by apply bool_decide_eq_true in H).
  assert (T : Forall tree_ok two_trees).
  { repeat match goal with
    | |- Forall _ two_trees => unfold two_trees
    | |- Forall _ (_ :: _) => constructor
    | |- Forall _ [] => constructor
    | |- tree_ok _ => cbn [tree_ok]
    | |- _ /\ _ => split
    | |- word_ok _ => apply W; vm_compute; reflexivity
    | |- (_ < _)%nat => unfold MAXARGS; cbn; lia
    end. }
  assert (L : Forall line_ok (map line_of two_trees)).
  { repeat constructor; try (vm_compute; lia); eexists; (split; [reflexivity|]);
      split; apply (bool_decide_unpack _); vm_compute; exact I. }
  unfold two_trees in *. cbn [map] in *. apply Forall_cons in T as [T1 [T2 _]%Forall_cons].
  apply Forall_cons in L as [L1 [L2 _]%Forall_cons].
  assert (N : white 10) by (unfold white, whitespace; by repeat constructor).
  constructor; [|constructor; [|constructor]];
    (split; [assumption|split; [|assumption]]); apply spelled_snoc; try assumption; by apply spelled_render, print_ok.
Qed.

Definition three_fds : fdtable := [Some (Inherited 0); Some (Inherited 1); Some (Inherited 2); None; None].

Lemma shell_correct_witness :
  execs [] 0 three_fds (concat (map line_of two_trees)) (main 3) = runs [] 0 three_fds two_trees.
Proof.
  apply (shell_correct [] 0 (Inherited 0) (Inherited 1) (Inherited 2) [] two_trees (map line_of two_trees) 3);
    [exact two_lines_ok|cbn; lia].
Defined.
