(* ===== verification/Mkfs.v ===== *)
(** * mkfs/mkfs.c: building the file system image

    mkfs runs on the host.  The image is the file [fsfd]: a map from sectors to
    blocks, where a sector that was never written is past the end of the file.  The
    structures have the kernel's layout (Fs.v).  The files to copy are given by their
    names and the results of read() on them; a failed assert() or a host error ends
    the program. *)
From stdpp Require Import prelude gmap strings.
From Stdlib Require Import ZArith Lia.
From S2P Require Import Prelude Memory CString Spinlock Riscv Kalloc Vm Uaccess Proc Bytes State Sleeplock Copy Bio BioView BioClient Log Fs.
Open Scope Z_scope.

Module Mkfs.

Definition FSSIZE : Z := 1000.
Definition NINODES : Z := 200.
Definition nbitmap : Z := FSSIZE / (BSIZE * 8) + 1.
Definition ninodeblocks : Z := NINODES / IPB + 1.
Definition nlog : Z := LOGSIZE.
Definition nmeta : Z := 2 + nlog + ninodeblocks + nbitmap.
Definition nblocks : Z := FSSIZE - nmeta.

(** The bytes of [y] are set one by one, and [y] is read on a little-endian host. *)
Definition xshort (x : Z) : Z := of_bytes [u8 x; u8 (Z.shiftr x 8)].
Definition xint (x : Z) : Z :=
  of_bytes [u8 x; u8 (Z.shiftr x 8); u8 (Z.shiftr x 16); u8 (Z.shiftr x 24)].

Definition sb : superblock :=
  Superblock FSMAGIC (xint FSSIZE) (xint nblocks) (xint NINODES) (xint nlog) (xint 2) (xint (2 + nlog))
    (xint (2 + nlog + ninodeblocks)).
Definition sb_bytes (s : superblock) : list Z :=
  bytes_of 4 (sb_magic s) ++ bytes_of 4 (sb_size s) ++ bytes_of 4 (sb_nblocks s) ++ bytes_of 4 (sb_ninodes s) ++
  bytes_of 4 (sb_nlog s) ++ bytes_of 4 (sb_logstart s) ++ bytes_of 4 (sb_inodestart s) ++ bytes_of 4 (sb_bmapstart s).

(** The image and the global counters. *)
Record mkst := Mkst { img : gmap Z blk; freeinode : Z; freeblock : Z }.

(** ** Sectors *)

Definition wsect (sec : Z) (buf : blk) : M mkst () := fun s =>
  Ok ((), Mkst (<[sec := buf]> (img s)) (freeinode s) (freeblock s)).
Definition rsect (sec : Z) : M mkst blk := fun s =>
  match img s !! sec with Some b => Ok (b, s) | None => Panic "read" end.

(** [freeinode++] and [freeblock++] *)
Definition next_inode : M mkst Z := fun s => Ok (freeinode s, Mkst (img s) (u32 (freeinode s + 1)) (freeblock s)).
Definition next_block : M mkst Z := fun s => Ok (freeblock s, Mkst (img s) (freeinode s) (u32 (freeblock s + 1))).

Definition get_freeblock : M mkst Z := fun s => Ok (freeblock s, s).

(** ** Inodes *)

Definition winode (inum : Z) (ip : dinode) : M mkst () :=
  let bn := IBLOCK inum sb in
  buf ← rsect bn;
  wsect bn (put_dinode (inum mod IPB) ip buf).
Definition rinode (inum : Z) : M mkst dinode :=
  let bn := IBLOCK inum sb in
  buf ← rsect bn;
  mret (get_dinode (inum mod IPB) buf).
Definition ialloc (type : Z) : M mkst Z :=
  inum ← next_inode;
  winode inum (Dinode (i16 (xshort type)) 0 0 (i16 (xshort 1)) (xint 0) (repeat 0 13)) ;;
  mret inum.

Definition set_d_addr (k v : Z) (d : dinode) : dinode :=
  Dinode (d_type d) (d_major d) (d_minor d) (d_nlink d) (d_size d) (<[Z.to_nat k := v]> (d_addrs d)).
Definition set_d_size (n : Z) (d : dinode) : dinode :=
  Dinode (d_type d) (d_major d) (d_minor d) (d_nlink d) n (d_addrs d).
Definition d_addr (d : dinode) (k : Z) : Z := d_addrs d !!! Z.to_nat k.

(** The block of the file's part [fbn], made if there is none. *)
Definition iappend_block (din : dinode) (fbn : Z) : M mkst (dinode * Z) :=
  if fbn <? NDIRECT then
    din ← (if xint (d_addr din fbn) =? 0 then b ← next_block; mret (set_d_addr fbn (xint b) din) else mret din);
    mret (din, xint (d_addr din fbn))
  else
    din ← (if xint (d_addr din NDIRECT) =? 0 then b ← next_block; mret (set_d_addr NDIRECT (xint b) din) else mret din);
    indirect ← rsect (xint (d_addr din NDIRECT));
    indirect ← (if uint_at indirect (fbn - NDIRECT) =? 0 then
                  b ← next_block;
                  let indirect := set_uint (fbn - NDIRECT) (xint b) indirect in
                  wsect (xint (d_addr din NDIRECT)) indirect ;;
                  mret indirect
                else mret indirect);
    mret (din, xint (uint_at indirect (fbn - NDIRECT))).

(** One round of the loop of iappend(), on the inode, the offset and what is left of
    the data. *)
Definition iappend_body (x : dinode * Z * list Z) : M mkst ((dinode * Z * list Z) + (dinode * Z)) :=
  let '(din, off, p) := x in
  if bool_decide (p = []) then mret (inr (din, off))
  else
    let fbn := off / BSIZE in
    if negb (fbn <? MAXFILE) then panic "assert"
    else
      r ← iappend_block din fbn;
      let '(din, x) := r : dinode * Z in
      let n1 := Z.min (Z.of_nat (length p)) ((fbn + 1) * BSIZE - off) in
      buf ← rsect x;
      wsect x (splice (Z.to_nat (off - fbn * BSIZE)) (take (Z.to_nat n1) p) buf) ;;
      mret (inl (din, u32 (off + n1), drop (Z.to_nat n1) p)).
Definition iappend (inum : Z) (p : list Z) : M mkst () :=
  din ← rinode inum;
  let off := xint (d_size din) in
  r ← loop (S (length p)) iappend_body (din, off, p);
  winode inum (set_d_size (xint r.2) r.1).

(** ** The bitmap *)

(** [for(i = 0; i < used; i++) buf[i/8] = buf[i/8] | (0x1 << (i%8));] *)
Definition mark (used : Z) (buf : blk) : blk :=
  fold_left (fun buf i => set_byte (i / 8) (Z.lor (byte_at buf (i / 8)) (Z.shiftl 1 (i mod 8))) buf) (seqZ 0 used) buf.
Definition balloc (used : Z) : M mkst () :=
  if negb (used <? BSIZE * 8) then panic "assert"
  else wsect (sb_bmapstart sb) (mark used zero_block).

(** ** main *)

Definition dirent_for (inum : Z) (name : list Z) : list Z := dirent_bytes (Dirent (xshort inum) name).

(** [strncmp(argv[i], "user/", 5) == 0], and the name without a leading underscore. *)
Definition shortname (arg : list Z) : list Z :=
  if bool_decide (take 5 arg = [117; 115; 101; 114; 47]) then drop 5 arg else arg.
Definition without_underscore (name : list Z) : list Z :=
  match name with c :: n' => if c =? 95 then n' else name | [] => [] end.

(** What the calls of read() return before the one that returns 0. *)
Fixpoint until_end (chunks : list (list Z)) : list (list Z) :=
  match chunks with c :: chunks' => if bool_decide (c = []) then [] else c :: until_end chunks' | [] => [] end.

(** One file: its argument and, if it can be opened, what the calls of read() return. *)
Definition add_file (rootino : Z) (f : list Z * option (list (list Z))) : M mkst () :=
  let shortname := shortname f.1 in
  if bool_decide (47 ∈ shortname) then panic "assert"
  else match f.2 with
  | None => panic "open"
  | Some chunks =>
      let shortname := without_underscore shortname in
      inum ← ialloc T_FILE;
      iappend rootino (dirent_for inum (strncpy_l (Z.to_nat DIRSIZ) shortname)) ;;
      for_each (until_end chunks) (iappend inum)
  end.

Definition root_size (off : Z) : Z := u32 ((off / BSIZE + 1) * BSIZE).

Definition main (files : list (list Z * option (list (list Z)))) : M mkst () :=
  for_each (seqZ 0 FSSIZE) (fun i => wsect i zero_block) ;;
  wsect 1 (splice 0 (sb_bytes sb) zero_block) ;;
  rootino ← ialloc T_DIR;
  if negb (rootino =? ROOTINO) then panic "assert"
  else
    iappend rootino (dirent_for rootino (strncpy_l (Z.to_nat DIRSIZ) [46])) ;;
    iappend rootino (dirent_for rootino (strncpy_l (Z.to_nat DIRSIZ) [46; 46])) ;;
    for_each files (add_file rootino) ;;
    din ← rinode rootino;
    let off := root_size (xint (d_size din)) in
    winode rootino (set_d_size (xint off) din) ;;
    used ← get_freeblock;
    balloc used.

(** The program starts with an empty image, [freeinode] 1 and [freeblock] nmeta. *)
Definition mkfs (files : list (list Z * option (list (list Z)))) : res (() * mkst) := main files (Mkst ∅ 1 nmeta).

End Mkfs.
