(* ===== verification/MkfsSpec.v ===== *)
(** * The image that mkfs makes

    While mkfs runs, each inode is a list of addresses with the data it stands for;
    [owned] says that the slots in use have blocks of their own below [freeblock],
    which hold the parts of the data.  iappend() keeps it, and main() ends with an
    image on which the theorems about the kernel's file system apply. *)
From stdpp Require Import prelude gmap strings.
From Stdlib Require Import ZArith Lia.
From S2P Require Import Prelude Memory CString Spinlock Riscv Kalloc Vm Uaccess Proc Bytes State Sleeplock Copy Console Bio BioView BioClient Log Fs LogSpec LogOps FsTx FsAlloc FsInode Icache FsFile FsBmap FsWrite Mkfs.
Import Mkfs.
Open Scope Z_scope.

(** ** Blocks and parts of files *)

Definition view (s : mkst) : Z -> blk := fun n => default zero_block (img s !! n).

(** An inode with these addresses. *)
Definition on (a : list Z) : inode := Inode ROOTDEV 0 0 0 0 0 0 0 0 a.

(** The [bn]th block of the data, with zeroes after the end. *)
Definition part (data : list Z) (bn : Z) : blk :=
  take (Z.to_nat BSIZE) (drop (Z.to_nat (bn * BSIZE)) data ++ zero_block).

Lemma length_part data bn : length (part data bn) = Z.to_nat BSIZE.
Proof. unfold part. rewrite length_take, length_app, length_zero_block. lia. Qed.
Lemma part_end data bn : Z.of_nat (length data) <= bn * BSIZE -> part data bn = zero_block.
Proof.
  intros H. unfold part. rewrite drop_ge by lia. cbn [app]. rewrite <- length_zero_block. apply take_ge. done.
Qed.

(** What mkfs knows of an inode: its type, its addresses, its data, and the slots in use. *)
Record entry := Entry { e_type : Z; e_addrs : list Z; e_data : list Z; e_slots : Z -> bool }.

Record rep (V : Z -> blk) (e : entry) : Prop := {
  rp_len : length (e_addrs e) = 13%nat;
  rp_slot : forall s, is_slot s -> slot V (on (e_addrs e)) s <> 0 <-> e_slots e s = true;
  rp_part : forall bn, 0 <= bn < MAXFILE -> e_slots e bn = true ->
    V (slot V (on (e_addrs e)) bn) = part (e_data e) bn;
}.

Record owned (V : Z -> blk) (fb : Z) (G : list entry) : Prop := {
  ow_rep : forall i e, G !! i = Some e -> rep V e;
  ow_range : forall i e s, G !! i = Some e -> is_slot s -> slot V (on (e_addrs e)) s <> 0 ->
    nmeta <= slot V (on (e_addrs e)) s < fb;
  ow_inj : forall i e s j e' s', G !! i = Some e -> G !! j = Some e' -> is_slot s -> is_slot s' ->
    slot V (on (e_addrs e)) s <> 0 -> slot V (on (e_addrs e)) s = slot V (on (e_addrs e')) s' -> i = j /\ s = s';
  ow_fresh : forall n, fb <= n -> V n = zero_block;
  ow_lens : block_lens V;
}.

Lemma slot_agree V V' a s : (a !!! Z.to_nat NDIRECT = 0 \/ V' (a !!! Z.to_nat NDIRECT) = V (a !!! Z.to_nat NDIRECT)) ->
  slot V' (on a) s = slot V (on a) s.
Proof.
  intros H. unfold slot, fblock. cbn [on i_addrs]. destruct (s =? MAXFILE); [done|]. destruct (s <? NDIRECT); [done|].
  destruct (Z.eqb_spec (a !!! Z.to_nat NDIRECT) 0); [done|]. destruct H as [?| ->]; done.
Qed.
Lemma slot_max V a : slot V (on a) MAXFILE = a !!! Z.to_nat NDIRECT.
Proof. apply slot_ind. Qed.

(** A change of [V] that no block in use sees. *)
Lemma owned_agree V V' fb G : owned V fb G -> block_lens V' ->
  (forall n, nmeta <= n -> V' n = V n) -> nmeta <= fb -> owned V' fb G.
Proof.
  intros [O1 O2 O3 O4 O5] Hl Hv Hfb.
  assert (Hs : forall i e s, G !! i = Some e -> is_slot s -> slot V' (on (e_addrs e)) s = slot V (on (e_addrs e)) s).
  { intros i e s Hi Hsl. apply slot_agree. pose proof (O2 i e MAXFILE Hi max_slot) as H. rewrite slot_max in H.
    destruct (decide (e_addrs e !!! Z.to_nat NDIRECT = 0)); [by left|right]. apply Hv. by apply H. }
  split; [| | | |done].
  - intros i e Hi. destruct (O1 i e Hi) as [R1 R2 R3]. split; [done| |].
    + intros s Hsl. rewrite (Hs i e s Hi Hsl). by apply R2.
    + intros bn Hbn Hb. assert (Hsl : is_slot bn) by (unfold is_slot; lia). rewrite (Hs i e bn Hi Hsl).
      rewrite Hv; [by apply R3|]. apply (O2 i e bn Hi Hsl). by apply R2.
  - intros i e s Hi Hsl. rewrite (Hs i e s Hi Hsl). by apply (O2 i e s).
  - intros i e s j e' s' Hi Hj H1 H2. rewrite (Hs i e s Hi H1), (Hs j e' s' Hj H2). by apply (O3 i e s j e' s').
  - intros n Hn. rewrite Hv by lia. by apply O4.
Qed.

(** ** A slot gets the next block *)

Section Fill.
Context (V V' : Z -> blk) (fb : Z) (G : list entry) (i : nat) (t : Z) (a a' data : list Z) (f : Z -> bool) (s0 : Z).
Context (Ho : owned V fb G) (Hi : G !! i = Some (Entry t a data f)) (Hfb : nmeta <= fb).
Context (Hs0 : is_slot s0) (Hf0 : f s0 = false) (Hp0 : s0 < MAXFILE -> part data s0 = zero_block).
Context (Ha : length a' = 13%nat) (Hl : block_lens V').
Context (Hsl : forall s, is_slot s -> slot V' (on a') s = if decide (s = s0) then fb else slot V (on a) s).
Context (Hv : forall m, slot V (on a) MAXFILE = 0 \/ m <> slot V (on a) MAXFILE -> V' m = V m).

Lemma fill_same j e s : G !! j = Some e -> j <> i -> is_slot s -> slot V' (on (e_addrs e)) s = slot V (on (e_addrs e)) s.
Proof.
  intros Hj Hne Hs. apply slot_agree. destruct (decide (e_addrs e !!! Z.to_nat NDIRECT = 0)) as [|Hz]; [by left|right].
  apply Hv. right. intros E. rewrite <- slot_max with (V := V) in Hz.
  destruct (ow_inj _ _ _ Ho j e MAXFILE i _ MAXFILE Hj Hi max_slot max_slot Hz) as [? _]; [|done].
  by rewrite slot_max.
Qed.
Lemma fill_old j e s : G !! j = Some e -> is_slot s -> s < MAXFILE -> slot V (on (e_addrs e)) s <> 0 ->
  V' (slot V (on (e_addrs e)) s) = V (slot V (on (e_addrs e)) s).
Proof.
  intros Hj Hs Hlt Hz. apply Hv. right. intros E.
  destruct (ow_inj _ _ _ Ho j e s i _ MAXFILE Hj Hi Hs max_slot Hz E) as [_ ->]. lia.
Qed.

Lemma fill_new : V' fb = zero_block.
Proof.
  rewrite Hv; [by apply (ow_fresh _ _ _ Ho)|]. destruct (decide (slot V (on a) MAXFILE = 0)) as [|Hz]; [by left|right].
  pose proof (ow_range _ _ _ Ho i _ MAXFILE Hi max_slot Hz). cbn in *. lia.
Qed.

Lemma fill_rep : rep V' (Entry t a' data (fun s => bool_decide (s = s0) || f s)).
Proof.
  pose proof (ow_rep _ _ _ Ho i _ Hi) as [R1 R2 R3]. cbn [e_addrs e_slots e_data] in *.
  assert (Hn : 0 < fb) by (change nmeta with 46 in Hfb; lia).
  split; cbn [e_addrs e_slots e_data]; [done| |].
  - intros s Hs. rewrite Hsl by done. rewrite orb_true_iff, bool_decide_eq_true. destruct (decide (s = s0)); [split; [auto|lia]|].
    rewrite R2 by done. naive_solver.
  - intros bn Hbn Hb. assert (Hs : is_slot bn) by (unfold is_slot; lia). rewrite Hsl by done. destruct (decide (bn = s0)) as [E|E].
    + subst bn. rewrite fill_new. symmetry. apply Hp0. lia.
    + apply orb_true_iff in Hb as [Hb%bool_decide_eq_true|Hb]; [done|].
      pose proof (fill_old i _ bn Hi Hs ltac:(lia)) as Hold. cbn [e_addrs] in Hold. rewrite Hold by (by apply R2). by apply R3.
Qed.

Lemma fill_slot : owned V' (fb + 1) (<[i := Entry t a' data (fun s => bool_decide (s = s0) || f s)]> G).
Proof.
  pose proof (ow_rep _ _ _ Ho i _ Hi) as [R1 R2 R3]. cbn [e_addrs e_slots e_data] in *.
  set (e0 := Entry t a' data _).
  assert (Hrange : forall j e s, G !! j = Some e -> is_slot s -> slot V (on (e_addrs e)) s <> 0 ->
    nmeta <= slot V (on (e_addrs e)) s < fb) by (apply (ow_range _ _ _ Ho)).
  (* The slots of the new list, in terms of the old one. *)
  assert (Hcase : forall j e s, <[i := e0]> G !! j = Some e -> is_slot s ->
    j = i /\ e = e0 /\ s = s0 /\ slot V' (on (e_addrs e)) s = fb \/
    exists e1, G !! j = Some e1 /\ slot V' (on (e_addrs e)) s = slot V (on (e_addrs e1)) s /\ (j <> i \/ s <> s0)).
  { intros j e s Hj Hs. apply list_lookup_insert_Some in Hj as [(<- & <- & _)|[Hne Hj]].
    - cbn [e0 e_addrs]. rewrite Hsl by done. case_decide; [by left|right]. exists (Entry t a data f). auto.
    - right. exists e. split; [done|]. split; [by apply (fill_same j)|auto]. }
  split; [| | | |done].
  - intros j e [(<- & <- & _)|[Hne Hj]]%list_lookup_insert_Some; [apply fill_rep|].
    destruct (ow_rep _ _ _ Ho j e Hj) as [Q1 Q2 Q3]. split; [done| |].
    + intros s Hs. rewrite (fill_same j e s) by done. by apply Q2.
    + intros bn Hbn Hb. assert (Hs : is_slot bn) by (unfold is_slot; lia). rewrite (fill_same j e bn) by done.
      rewrite (fill_old j e bn Hj Hs ltac:(lia)) by (by apply Q2). by apply Q3.
  - intros j e s Hj Hs Hz. destruct (Hcase j e s Hj Hs) as [(_ & _ & _ & E)|(e1 & Hj1 & E & _)]; rewrite E in *; [lia|].
    specialize (Hrange j e1 s Hj1 Hs Hz). lia.
  - intros j e s j' e' s' Hj Hj' Hs Hs' Hz Heq.
    destruct (Hcase j e s Hj Hs) as [(-> & _ & -> & E)|(e1 & Hj1 & E & _)],
      (Hcase j' e' s' Hj' Hs') as [(-> & _ & -> & E')|(e1' & Hj1' & E' & _)]; rewrite E, E' in *.
    + done.
    + specialize (Hrange j' e1' s' Hj1' Hs' ltac:(lia)). lia.
    + specialize (Hrange j e1 s Hj1 Hs Hz). lia.
    + by apply (ow_inj _ _ _ Ho j e1 s j' e1' s').
  - intros n Hn. rewrite Hv; [apply (ow_fresh _ _ _ Ho); lia|].
    destruct (decide (slot V (on a) MAXFILE = 0)) as [|Hz]; [by left|right].
    pose proof (Hrange i _ MAXFILE Hi max_slot Hz). cbn in *. lia.
Qed.
End Fill.

(** ** Data goes into a slot in use *)

Lemma owned_write V V' fb G i t a data data' f bn : owned V fb G -> G !! i = Some (Entry t a data f) ->
  0 <= bn < MAXFILE -> f bn = true -> block_lens V' -> V' (slot V (on a) bn) = part data' bn ->
  (forall m, m <> slot V (on a) bn -> V' m = V m) ->
  (forall k, 0 <= k < MAXFILE -> f k = true -> k <> bn -> part data' k = part data k) ->
  owned V' fb (<[i := Entry t a data' f]> G).
Proof.
  intros Ho Hi Hbn Hf Hl Hx Hv Hp. set (x := slot V (on a) bn) in *.
  pose proof (ow_rep _ _ _ Ho i _ Hi) as [R1 R2 R3]. cbn [e_addrs e_slots e_data] in *.
  assert (Hsb : is_slot bn) by (unfold is_slot; lia).
  assert (Hxz : x <> 0) by (by apply R2).
  (* No other slot has the block. *)
  assert (Hother : forall j e s, G !! j = Some e -> is_slot s -> slot V (on (e_addrs e)) s = x -> j = i /\ s = bn).
  { intros j e s Hj Hs E. apply (ow_inj _ _ _ Ho j e s i _ bn Hj Hi Hs Hsb); [by rewrite E|done]. }
  assert (Hsame : forall j e s, G !! j = Some e -> slot V' (on (e_addrs e)) s = slot V (on (e_addrs e)) s).
  { intros j e s Hj. apply slot_agree. right. apply Hv. intros E. rewrite <- slot_max with (V := V) in E.
    destruct (Hother j e MAXFILE Hj max_slot E). lia. }
  assert (Hold : forall j e, <[i := Entry t a data' f]> G !! j = Some e ->
    exists e1, G !! j = Some e1 /\ e_addrs e1 = e_addrs e).
  { intros j e [(<- & <- & _)|[_ Hj]]%list_lookup_insert_Some; [by eexists|by exists e]. }
  assert (Hslot : forall j e s, <[i := Entry t a data' f]> G !! j = Some e ->
    slot V' (on (e_addrs e)) s = slot V (on (e_addrs e)) s).
  { intros j e s Hj. destruct (Hold j e Hj) as (e1 & H1 & <-). by apply (Hsame j). }
  split; [| | | |done].
  - intros j e Hj. pose proof (Hslot j e) as Hs'. apply list_lookup_insert_Some in Hj as Hj'.
    destruct Hj' as [(<- & <- & _)|[Hne Hj']].
    + split; cbn [e_addrs e_slots e_data] in *; [done| |].
      * intros s Hs. rewrite Hs' by done. by apply R2.
      * intros k Hk Hfk. rewrite Hs' by done. destruct (decide (k = bn)) as [->|Hkn]; [done|].
        rewrite Hv, Hp by (done || (intros E; destruct (Hother i _ k Hi ltac:(unfold is_slot; lia) E); done)). by apply R3.
    + destruct (ow_rep _ _ _ Ho j e Hj') as [Q1 Q2 Q3]. split; [done| |].
      * intros s Hs. rewrite Hs' by done. by apply Q2.
      * intros k Hk Hfk. rewrite Hs' by done.
        rewrite Hv by (intros E; by destruct (Hother j e k Hj' ltac:(unfold is_slot; lia) E)). by apply Q3.
  - intros j e s Hj Hs. rewrite (Hslot j e) by done. destruct (Hold j e Hj) as (e1 & H1 & <-). by apply (ow_range _ _ _ Ho j).
  - intros j e s j' e' s' Hj Hj' Hs Hs'. rewrite (Hslot j e), (Hslot j' e') by done.
    destruct (Hold j e Hj) as (e1 & H1 & <-), (Hold j' e' Hj') as (e1' & H1' & <-). by apply (ow_inj _ _ _ Ho j e1 s j' e1' s').
  - intros n Hn. rewrite Hv; [by apply (ow_fresh _ _ _ Ho)|].
    pose proof (ow_range _ _ _ Ho i _ bn Hi Hsb Hxz). cbn [e_addrs] in *. fold x in H. lia.
Qed.

(** ** A new inode *)

Lemma slot_new V s : is_slot s -> slot V (on (repeat 0 13)) s = 0.
Proof.
  intros Hs. unfold slot, fblock. cbn [on i_addrs]. unfold is_slot in Hs. change MAXFILE with 268 in *. change NDIRECT with 12.
  destruct (s =? 268); [done|]. destruct (Z.ltb_spec s 12); [|done].
  apply list_lookup_total_correct, lookup_repeat. lia.
Qed.
Lemma owned_new V fb G t : owned V fb G -> owned V fb (G ++ [Entry t (repeat 0 13) [] (fun _ => false)]).
Proof.
  intros Ho. set (e0 := Entry _ _ _ _).
  assert (Hcase : forall j e, (G ++ [e0]) !! j = Some e -> G !! j = Some e \/ e = e0).
  { intros j e Hj. apply lookup_app_Some in Hj as [|[_ Hj]]; [by left|right].
    by apply list_lookup_singleton_Some in Hj as [_ <-]. }
  assert (Hz : forall j e s, (G ++ [e0]) !! j = Some e -> is_slot s -> slot V (on (e_addrs e)) s <> 0 -> G !! j = Some e).
  { intros j e s Hj Hs H. destruct (Hcase j e Hj) as [|E]; [done|]. rewrite E in H. cbn [e0 e_addrs] in H. by rewrite slot_new in H. }
  split.
  - intros j e Hj. destruct (Hcase j e Hj) as [Hj'|E]; [by apply (ow_rep _ _ _ Ho j)|]. rewrite E.
    split; cbn [e0 e_addrs e_slots]; [done| |done]. intros s Hs. rewrite slot_new by done. naive_solver.
  - intros j e s Hj Hs H. pose proof (Hz j e s Hj Hs H) as Hj'. by apply (ow_range _ _ _ Ho j).
  - intros j e s j' e' s' Hj Hj' Hs Hs' H E. pose proof (Hz j e s Hj Hs H) as H1.
    assert (H' : slot V (on (e_addrs e')) s' <> 0) by congruence. pose proof (Hz j' e' s' Hj' Hs' H') as H2.
    by apply (ow_inj _ _ _ Ho j e s j' e' s').
  - apply (ow_fresh _ _ _ Ho).
  - apply (ow_lens _ _ _ Ho).
Qed.

(** ** The sectors *)

Lemma rsect_ok s n : is_Some (img s !! n) -> rsect n s = Ok (view s n, s).
Proof. intros [b Hb]. unfold rsect, view. by rewrite Hb. Qed.
Lemma view_wsect im fi fbk n b m : view (Mkst (<[n := b]> im) fi fbk) m = fupd (view (Mkst im fi fbk)) n b m.
Proof.
  unfold view, fupd. cbn [img]. case_decide as E; [by rewrite E, lookup_insert_eq|by rewrite lookup_insert_ne].
Qed.
Definition full (s : mkst) : Prop := forall n, 0 <= n < FSSIZE -> is_Some (img s !! n).
Lemma full_wsect s n b fi fbk : full s -> full (Mkst (<[n := b]> (img s)) fi fbk).
Proof.
  intros H m Hm. cbn [img]. destruct (decide (m = n)) as [->|]; [rewrite lookup_insert_eq; by eexists|].
  rewrite lookup_insert_ne by done. by apply H.
Qed.

Lemma xint_id x : 0 <= x < 2 ^ 32 -> xint x = x.
Proof.
  intros Hx. unfold xint, u8. cbn [of_bytes]. rewrite !Z.shiftr_div_pow2 by lia.
  change (2 ^ 8) with 256 in *. change (2 ^ 16) with 65536. change (2 ^ 24) with 16777216.
  pose proof (Z.div_mod x 256 ltac:(lia)). pose proof (Z.div_mod (x / 256) 256 ltac:(lia)) as H2.
  pose proof (Z.div_mod (x / 65536) 256 ltac:(lia)). rewrite Z.div_div in H2 by lia. change (256 * 256) with 65536 in H2.
  replace (x / 16777216) with (x / 65536 / 256) by (rewrite Z.div_div by lia; done).
  assert (0 <= x / 65536 / 256 < 256).
  { split; [apply Z.div_pos; [apply Z.div_pos; lia|lia]|]. apply Z.div_lt_upper_bound; [lia|].
    apply Z.div_lt_upper_bound; lia. }
  rewrite (Z.mod_small (x / 65536 / 256) 256) by lia. lia.
Qed.
Lemma xshort_id x : 0 <= x < 2 ^ 16 -> xshort x = x.
Proof.
  intros Hx. unfold xshort, u8. cbn [of_bytes]. rewrite Z.shiftr_div_pow2 by lia. change (2 ^ 8) with 256.
  pose proof (Z.div_mod x 256). assert (0 <= x / 256 < 256) by (split; [apply Z.div_pos; lia|apply Z.div_lt_upper_bound; lia]).
  rewrite (Z.mod_small (x / 256) 256) by lia. lia.
Qed.

(** ** The three places a block number goes to *)

Section Places.
Context (V : Z -> blk) (fb : Z) (G : list entry) (i : nat) (t : Z) (a data : list Z) (f : Z -> bool).
Context (Ho : owned V fb G) (Hi : G !! i = Some (Entry t a data f)) (Hfb : nmeta <= fb < 2 ^ 31).

Abbreviation filled a' s0 := (<[i := Entry t a' data (fun s => bool_decide (s = s0) || f s)]> G).

Lemma addrs_len : length a = 13%nat.
Proof. apply (rp_len _ _ (ow_rep _ _ _ Ho i _ Hi)). Qed.
Lemma slot_zero s : is_slot s -> f s = false -> slot V (on a) s = 0.
Proof.
  intros Hs Hf. pose proof (rp_slot _ _ (ow_rep _ _ _ Ho i _ Hi) s Hs) as H. cbn [e_addrs e_slots] in H.
  destruct (decide (slot V (on a) s = 0)) as [|Hz]; [done|]. apply H in Hz. congruence.
Qed.

Lemma fill_direct k : 0 <= k < NDIRECT -> f k = false -> part data k = zero_block ->
  owned V (fb + 1) (filled (<[Z.to_nat k := fb]> a) k).
Proof.
  intros Hk Hf Hp. pose proof addrs_len as Hl. change NDIRECT with 12 in *.
  assert (Hs : is_slot k) by (unfold is_slot; change MAXFILE with 268; lia).
  apply (fill_slot V V fb G i t a); try done; [lia|by rewrite length_insert|apply (ow_lens _ _ _ Ho)|].
  intros s Hss. unfold slot, fblock. cbn [on i_addrs]. unfold is_slot in Hss. change MAXFILE with 268 in *. change NDIRECT with 12.
  rewrite (list_lookup_total_insert_ne a (Z.to_nat k) (Z.to_nat 12)) by lia.
  destruct (Z.eqb_spec s 268); [by rewrite decide_False by lia|].
  destruct (Z.ltb_spec s 12); [|by rewrite decide_False by lia].
  destruct (decide (s = k)) as [->|]; [apply list_lookup_total_insert_eq; lia|apply list_lookup_total_insert_ne; lia].
Qed.

Lemma fill_ind : f MAXFILE = false -> owned V (fb + 1) (filled (<[Z.to_nat NDIRECT := fb]> a) MAXFILE).
Proof.
  intros Hf. pose proof addrs_len as Hl. pose proof (slot_zero MAXFILE max_slot Hf) as Hz. rewrite slot_max in Hz.
  apply (fill_slot V V fb G i t a); try done; [lia|by rewrite length_insert|apply (ow_lens _ _ _ Ho)|].
  intros s Hss. unfold slot, fblock. cbn [on i_addrs]. unfold is_slot in Hss. rewrite Hz. change MAXFILE with 268 in *. change NDIRECT with 12.
  rewrite list_lookup_total_insert_eq by lia.
  destruct (Z.eqb_spec s 268); [by rewrite decide_True by lia|]. rewrite decide_False by done.
  destruct (Z.ltb_spec s 12); [apply list_lookup_total_insert_ne; lia|]. change (0 =? 0) with true.
  assert (fb <> 0) by (change nmeta with 46 in *; lia). rewrite (proj2 (Z.eqb_neq fb 0)) by done.
  rewrite (ow_fresh _ _ _ Ho fb) by lia. apply uint_zero. lia.
Qed.

Lemma fill_entry k V' : f MAXFILE = true -> NDIRECT <= k < MAXFILE -> f k = false -> part data k = zero_block ->
  (forall m, V' m = fupd V (a !!! Z.to_nat NDIRECT) (set_uint (k - NDIRECT) fb (V (a !!! Z.to_nat NDIRECT))) m) ->
  owned V' (fb + 1) (filled a k).
Proof.
  intros Hm Hk Hf Hp HV. set (x := a !!! Z.to_nat NDIRECT) in *. pose proof addrs_len as Hl.
  pose proof (ow_rep _ _ _ Ho i _ Hi) as [_ R2 _]. cbn [e_addrs e_slots] in R2.
  assert (Hx : x <> 0) by (specialize (R2 MAXFILE max_slot); rewrite slot_max in R2; by apply R2).
  pose proof (ow_lens _ _ _ Ho) as Hls. pose proof (Hls x) as Hlx. change (Z.to_nat BSIZE) with 1024%nat in Hlx.
  change MAXFILE with 268 in Hk. change NDIRECT with 12 in Hk, HV.
  apply (fill_slot V V' fb G i t a); try done.
  - lia.
  - intros m. rewrite HV. unfold fupd. case_decide; [|apply Hls]. unfold set_uint. rewrite length_put_le; [done|lia].
  - intros s Hss. unfold slot, fblock. cbn [on i_addrs]. fold x. unfold is_slot in Hss. change MAXFILE with 268 in *.
    destruct (Z.eqb_spec s 268); [by rewrite decide_False by lia|]. change NDIRECT with 12.
    destruct (Z.ltb_spec s 12); [by rewrite decide_False by lia|]. rewrite (proj2 (Z.eqb_neq x 0)) by done.
    rewrite HV, fupd_eq. unfold uint_at, set_uint.
    case_decide as E; [subst s; apply get_put_eq; [lia|change (256 ^ Z.of_nat 4) with (2 ^ 32); change nmeta with 46 in *; lia]|apply get_put_ne; lia].
  - intros m Hm'. rewrite slot_max in Hm'. fold x in Hm'. rewrite HV. apply fupd_ne. by destruct Hm'.
Qed.
End Places.

(** The same slots, described by another function. *)
Lemma owned_replace V fb G i e e' : owned V fb G -> G !! i = Some e -> e_addrs e' = e_addrs e -> rep V e' ->
  owned V fb (<[i := e']> G).
Proof.
  intros Ho Hi Ha Hr.
  assert (Hold : forall j e1, <[i := e']> G !! j = Some e1 -> exists e2, G !! j = Some e2 /\ e_addrs e2 = e_addrs e1).
  { intros j e1 [(<- & <- & _)|[_ Hj]]%list_lookup_insert_Some; [by exists e|by exists e1]. }
  split.
  - intros j e1 [(<- & <- & _)|[_ Hj]]%list_lookup_insert_Some; [done|by apply (ow_rep _ _ _ Ho j)].
  - intros j e1 s Hj. destruct (Hold j e1 Hj) as (e2 & H2 & <-). by apply (ow_range _ _ _ Ho j).
  - intros j e1 s j' e1' s' Hj Hj'. destruct (Hold j e1 Hj) as (e2 & H2 & <-), (Hold j' e1' Hj') as (e2' & H2' & <-).
    by apply (ow_inj _ _ _ Ho j e2 s j' e2' s').
  - apply (ow_fresh _ _ _ Ho).
  - apply (ow_lens _ _ _ Ho).
Qed.
Lemma rep_ext V t a data f f' : (forall s, is_slot s -> f' s = f s) -> rep V (Entry t a data f) -> rep V (Entry t a data f').
Proof.
  intros Hf [R1 R2 R3]. split; cbn [e_addrs e_slots e_data] in *; [done| |].
  - intros s Hs. rewrite Hf by done. by apply R2.
  - intros bn Hbn. rewrite Hf by (unfold is_slot; lia). by apply R3.
Qed.

(** ** iappend_block *)

Record working (s : mkst) (G : list entry) : Prop := {
  wk_full : full s;
  wk_own : owned (view s) (freeblock s) G;
  wk_fb : nmeta <= freeblock s <= FSSIZE;
}.

Definition with_addrs (a : list Z) (d : dinode) : dinode :=
  Dinode (d_type d) (d_major d) (d_minor d) (d_nlink d) (d_size d) a.

Lemma slot_range s G i t a data f k : working s G -> G !! i = Some (Entry t a data f) -> is_slot k ->
  slot (view s) (on a) k = 0 \/ nmeta <= slot (view s) (on a) k < freeblock s.
Proof.
  intros [_ Ho _] Hi Hk. destruct (decide (slot (view s) (on a) k = 0)) as [|Hz]; [by left|right].
  by apply (ow_range _ _ _ Ho i _ k Hi Hk).
Qed.
Lemma slot_in s G i t a data f k : working s G -> G !! i = Some (Entry t a data f) -> is_slot k ->
  slot (view s) (on a) k = 0 <-> f k = false.
Proof.
  intros [_ Ho _] Hi Hk. pose proof (rp_slot _ _ (ow_rep _ _ _ Ho i _ Hi) k Hk) as H. cbn [e_addrs e_slots] in H.
  rewrite <- not_true_iff_false, <- H. destruct (decide (slot (view s) (on a) k = 0)); tauto.
Qed.

Lemma next_block_ok s : 0 <= freeblock s < FSSIZE ->
  next_block s = Ok (freeblock s, Mkst (img s) (freeinode s) (freeblock s + 1)).
Proof. change FSSIZE with 1000. intros H. unfold next_block. by rewrite u32_id by lia. Qed.

(** [if(xint(din.addrs[k]) == 0) din.addrs[k] = xint(freeblock++);] for slot [s0]. *)
Lemma ensure_addr s G i din t a data f k s0 : working s G -> G !! i = Some (Entry t a data f) -> d_addrs din = a ->
  (0 <= k < NDIRECT /\ s0 = k /\ (f k = false -> part data k = zero_block) \/ k = NDIRECT /\ s0 = MAXFILE) ->
  freeblock s + (if f s0 then 0 else 1) <= FSSIZE ->
  exists a' s', (if xint (d_addr din k) =? 0 then b ← next_block; mret (set_d_addr k (xint b) din) else mret din) s =
      Ok (with_addrs a' din, s') /\
    working s' (<[i := Entry t a' data (fun s => bool_decide (s = s0) || f s)]> G) /\ img s' = img s /\
    freeinode s' = freeinode s /\ freeblock s' = freeblock s + (if f s0 then 0 else 1) /\
    a' !!! Z.to_nat k = slot (view s') (on a') s0.
Proof.
  intros Hw Hi Ha Hk Hfb. pose proof Hw as [W1 W2 W3]. change FSSIZE with 1000 in *.
  assert (Hs0 : is_slot s0) by (unfold is_slot; change MAXFILE with 268 in *; change NDIRECT with 12 in *; lia).
  assert (Hslot : forall V a', a' !!! Z.to_nat k = slot V (on a') s0).
  { intros V a'. destruct Hk as [(H1 & -> & _)|[-> ->]]; [|by rewrite slot_max].
    change NDIRECT with 12 in *. rewrite slot_block by (change MAXFILE with 268; lia). unfold fblock. cbn [on i_addrs].
    change NDIRECT with 12. by rewrite (proj2 (Z.ltb_lt k 12)) by lia. }
  assert (Hd : d_addr din k = slot (view s) (on a) s0) by (unfold d_addr; rewrite Ha; apply Hslot).
  pose proof (slot_range s G i t a data f s0 Hw Hi Hs0) as Hr. pose proof (slot_in s G i t a data f s0 Hw Hi Hs0) as Hin.
  rewrite Hd, xint_id by (change nmeta with 46 in *; lia). destruct (Z.eqb_spec (slot (view s) (on a) s0) 0) as [Hz|Hz].
  - apply Hin in Hz as Hf. rewrite Hf in *. exists (<[Z.to_nat k := freeblock s]> a), (Mkst (img s) (freeinode s) (freeblock s + 1)).
    split_and!; try done.
    + kdo (next_block_ok s ltac:(change nmeta with 46 in *; change FSSIZE with 1000; lia)).
      unfold set_d_addr, with_addrs. rewrite Ha, xint_id by (change nmeta with 46 in *; lia). done.
    + split; cbn [freeblock]; [done| |change FSSIZE with 1000; lia].
      change (view _) with (view s). destruct Hk as [(H1 & -> & H3)|[-> ->]].
      * apply fill_direct; try done; [|by apply H3]. lia.
      * apply fill_ind; try done. lia.
  - assert (Hf : f s0 = true) by (destruct (f s0); [done|by rewrite Hin in Hz]). rewrite Hf in *.
    exists a, s. split_and!; try done; [|  |lia].
    + unfold mret, M_ret. unfold with_addrs. rewrite <- Ha. by destruct din.
    + split; [done| |done]. apply (owned_replace _ _ _ _ _ _ W2 Hi); [done|].
      apply (rep_ext _ _ _ _ f); [|by apply (ow_rep _ _ _ W2 i)]. intros s1 _. destruct (decide (s1 = s0)) as [->|].
      * by rewrite Hf, orb_true_r.
      * by rewrite bool_decide_false.
Qed.

(** The slots in use once part [bn] has a block, and how many blocks that takes. *)
Definition reach (f : Z -> bool) (bn s : Z) : bool :=
  bool_decide (s = bn) || f s || ((NDIRECT <=? bn) && bool_decide (s = MAXFILE)).
Definition cost (f : Z -> bool) (bn : Z) : Z :=
  (if f bn then 0 else 1) + (if (NDIRECT <=? bn) && negb (f MAXFILE) then 1 else 0).

(** The entry of the indirect block. *)
Lemma ensure_entry s G i din t a data f bn : working s G -> G !! i = Some (Entry t a data f) -> d_addrs din = a ->
  NDIRECT <= bn < MAXFILE -> f MAXFILE = true -> (f bn = false -> part data bn = zero_block) ->
  freeblock s + (if f bn then 0 else 1) <= FSSIZE ->
  exists s', (indirect ← rsect (xint (d_addr din NDIRECT));
    indirect ← (if uint_at indirect (bn - NDIRECT) =? 0 then
                  b ← next_block;
                  let indirect := set_uint (bn - NDIRECT) (xint b) indirect in
                  wsect (xint (d_addr din NDIRECT)) indirect ;;
                  mret indirect
                else mret indirect);
    mret (din, xint (uint_at indirect (bn - NDIRECT)))) s = Ok ((din, slot (view s') (on a) bn), s') /\
    working s' (<[i := Entry t a data (fun s => bool_decide (s = bn) || f s)]> G) /\
    (forall n, n < nmeta -> view s' n = view s n) /\ freeinode s' = freeinode s /\
    freeblock s' = freeblock s + (if f bn then 0 else 1).
Proof.
  intros Hw Hi Ha Hbn Hm Hp Hfb. pose proof Hw as [W1 W2 W3]. change FSSIZE with 1000 in *.
  assert (Hsb : is_slot bn) by (unfold is_slot; change NDIRECT with 12 in *; lia).
  pose proof (slot_range s G i t a data f MAXFILE Hw Hi max_slot) as Hr. pose proof (slot_in s G i t a data f MAXFILE Hw Hi max_slot) as Hin.
  rewrite slot_max in Hr, Hin. set (x := a !!! Z.to_nat NDIRECT) in *.
  assert (Hx : nmeta <= x < freeblock s) by (destruct Hr as [Hr|]; [apply Hin in Hr; congruence|done]).
  assert (Hd : xint (d_addr din NDIRECT) = x) by (unfold d_addr; rewrite Ha; apply xint_id; fold x; change nmeta with 46 in *; lia).
  assert (HxS : is_Some (img s !! x)) by (apply W1; change nmeta with 46 in *; change FSSIZE with 1000; lia).
  rewrite Hd. kdo (rsect_ok s x HxS). change nmeta with 46 in *.
  assert (Hslot : forall V, uint_at (V x) (bn - NDIRECT) = slot V (on a) bn).
  { intros V. rewrite slot_block by lia. unfold fblock. cbn [on i_addrs]. fold x.
    by rewrite (proj2 (Z.ltb_ge bn NDIRECT)), (proj2 (Z.eqb_neq x 0)) by lia. }
  pose proof (slot_range s G i t a data f bn Hw Hi Hsb) as Hr'. pose proof (slot_in s G i t a data f bn Hw Hi Hsb) as Hin'.
  rewrite Hslot. destruct (Z.eqb_spec (slot (view s) (on a) bn) 0) as [Hz|Hz].
  - apply Hin' in Hz. rewrite Hz in *. specialize (Hp eq_refl).
    set (new := set_uint (bn - NDIRECT) (freeblock s) (view s x)).
    set (s' := Mkst (<[x := new]> (img s)) (freeinode s) (freeblock s + 1)).
    assert (Hv : forall m, view s' m = fupd (view s) x new m) by (intros m; unfold s'; rewrite view_wsect; done).
    assert (Ho : owned (view s') (freeblock s + 1) (<[i := Entry t a data (fun s => bool_decide (s = bn) || f s)]> G)).
    { apply (fill_entry (view s) (freeblock s) G); try done. change nmeta with 46. lia. }
    assert (Hgi : <[i := Entry t a data (fun s => bool_decide (s = bn) || f s)]> G !! i =
      Some (Entry t a data (fun s => bool_decide (s = bn) || f s))).
    { apply list_lookup_insert_eq. by apply (lookup_lt_Some G i _ Hi). }
    assert (Hw' : working s' (<[i := Entry t a data (fun s => bool_decide (s = bn) || f s)]> G)).
    { split; [by apply full_wsect|done|]. cbn [s' freeblock]. change nmeta with 46. change FSSIZE with 1000. lia. }
    exists s'. split_and!; [|done| |done|done].
    + rewrite bind_assoc. kdo (next_block_ok s ltac:(change FSSIZE with 1000; lia)). cbn zeta. rewrite (xint_id (freeblock s)) by lia. fold new.
      unfold wsect, mbind, M_bind, mret, M_ret. cbn [img freeinode freeblock]. fold s'.
      pose proof (slot_range s' _ i t a data _ bn Hw' Hgi Hsb) as Hr''.
      rewrite <- Hslot, Hv, fupd_eq in Hr'' |- *. change nmeta with 46 in *. rewrite xint_id; [done|].
      cbn [s' freeblock] in Hr''. lia.
    + intros n Hn. rewrite Hv. apply fupd_ne. lia.
  - assert (Hf : f bn = true) by (destruct (f bn); [done|by rewrite Hin' in Hz]). rewrite Hf in *.
    exists s. split_and!; [| |done..|lia].
    + unfold mbind, M_bind, mret, M_ret. rewrite Hslot, xint_id by (change nmeta with 46 in *; lia). done.
    + split; [done| |done]. apply (owned_replace _ _ _ _ _ _ W2 Hi); [done|].
      apply (rep_ext _ _ _ _ f); [|by apply (ow_rep _ _ _ W2 i)]. intros s1 _. destruct (decide (s1 = bn)) as [->|].
      * by rewrite Hf, orb_true_r.
      * by rewrite bool_decide_false.
Qed.

Lemma iappend_block_ok s G i din t a data f bn : working s G -> G !! i = Some (Entry t a data f) -> d_addrs din = a ->
  0 <= bn < MAXFILE -> (f bn = false -> part data bn = zero_block) -> freeblock s + cost f bn <= FSSIZE ->
  exists a' f' s', iappend_block din bn s = Ok ((with_addrs a' din, slot (view s') (on a') bn), s') /\
    working s' (<[i := Entry t a' data f']> G) /\ (forall k, is_slot k -> f' k = reach f bn k) /\
    (forall n, n < nmeta -> view s' n = view s n) /\ freeinode s' = freeinode s /\ freeblock s' = freeblock s + cost f bn.
Proof.
  intros Hw Hi Ha Hbn Hp Hfb. pose proof (lookup_lt_Some G i _ Hi) as Hlt. unfold cost in *. unfold iappend_block.
  destruct (Z.ltb_spec bn NDIRECT) as [Hd|Hd].
  - rewrite (proj2 (Z.leb_gt NDIRECT bn)) in * by lia. cbn [andb] in *. rewrite Z.add_0_r in *.
    destruct (ensure_addr s G i din t a data f bn bn Hw Hi Ha) as (a' & s' & E & Hw' & Him & Hfi & Hf' & Hsl); [left; split_and!; done || lia|lia|].
    exists a', (fun s => bool_decide (s = bn) || f s), s'. split_and!; [|done| | |done|done].
    + kdo E. unfold mret, M_ret. change (d_addr (with_addrs a' din) bn) with (a' !!! Z.to_nat bn). rewrite Hsl, xint_id; [done|].
      pose proof (slot_range s' _ i t a' data _ bn Hw' ltac:(by apply list_lookup_insert_eq) ltac:(unfold is_slot; lia)) as Hr.
      pose proof (wk_fb _ _ Hw') as Hb. change nmeta with 46 in *. change FSSIZE with 1000 in *. lia.
    + intros k _. unfold reach. rewrite (proj2 (Z.leb_gt NDIRECT bn)) by lia. cbn [andb]. by rewrite orb_false_r.
    + intros n _. unfold view. by rewrite Him.
  - rewrite (proj2 (Z.leb_le NDIRECT bn)) in * by lia. cbn [andb] in *.
    destruct (ensure_addr s G i din t a data f NDIRECT MAXFILE Hw Hi Ha) as (a1 & s1 & E & Hw1 & Him & Hfi & Hf1 & Hsl).
    { right. done. }
    { destruct (f bn), (f MAXFILE); cbn [negb] in *; lia. }
    set (f1 := fun s => bool_decide (s = MAXFILE) || f s) in *.
    assert (Hf1bn : f1 bn = f bn) by (unfold f1; by rewrite bool_decide_false by lia).
    destruct (ensure_entry s1 _ i (with_addrs a1 din) t a1 data f1 bn Hw1) as (s2 & E2 & Hw2 & Hv2 & Hfi2 & Hf2);
      [by apply list_lookup_insert_eq|done|lia|unfold f1; by rewrite bool_decide_true|by rewrite Hf1bn| |].
    { rewrite Hf1bn. destruct (f bn), (f MAXFILE); cbn [negb] in *; lia. }
    rewrite list_insert_insert_eq in Hw2.
    exists a1, (fun s => bool_decide (s = bn) || f1 s), s2. split_and!; [|done| | |congruence|].
    + kdo E. exact E2.
    + intros k _. unfold reach, f1. rewrite (proj2 (Z.leb_le NDIRECT bn)) by lia. cbn [andb].
      destruct (bool_decide (k = bn)), (bool_decide (k = MAXFILE)), (f k); done.
    + intros n Hn. rewrite Hv2 by done. unfold view. by rewrite Him.
    + rewrite Hf2, Hf1, Hf1bn. destruct (f bn), (f MAXFILE); cbn [negb]; lia.
Qed.

(** ** The parts when data is appended *)

Lemma part_app data p k : (k + 1) * BSIZE <= Z.of_nat (length data) -> 0 <= k -> part (data ++ p) k = part data k.
Proof.
  change BSIZE with 1024. intros H Hk. unfold part. change BSIZE with 1024. rewrite drop_app_le by lia. rewrite <- app_assoc.
  by rewrite !take_app_le by (rewrite length_drop; lia).
Qed.

Lemma zero_block_lookup k : (k < 1024)%nat -> zero_block !! k = Some 0.
Proof. intros H. with_strategy transparent [zero_block] unfold zero_block. by apply lookup_repeat. Qed.
Lemma take_drop_zero k n : (k + n <= 1024)%nat -> take k (drop n zero_block) = take k zero_block.
Proof.
  intros H. apply list_eq. intros j. destruct (decide (j < k)%nat) as [Hj|Hj].
  - rewrite !lookup_take_lt, lookup_drop by lia. by rewrite !zero_block_lookup by lia.
  - rewrite !lookup_take_ge by lia. done.
Qed.

Lemma part_splice data p bn : let off := Z.of_nat (length data) in
  0 <= bn -> bn * BSIZE <= off -> off + Z.of_nat (length p) <= (bn + 1) * BSIZE ->
  splice (Z.to_nat (off - bn * BSIZE)) p (part data bn) = part (data ++ p) bn.
Proof.
  change BSIZE with 1024. intros off Hb H1 H2. unfold part. change BSIZE with 1024. change (Z.to_nat 1024) with 1024%nat.
  rewrite drop_app_le by lia. set (D := drop _ data).
  assert (HD : length D = Z.to_nat (off - bn * 1024)) by (unfold D; rewrite length_drop; lia).
  pose proof length_zero_block as Hz. change (Z.to_nat BSIZE) with 1024%nat in Hz.
  unfold splice. rewrite <- HD, take_take, Nat.min_l by lia. rewrite take_app_length. rewrite skipn_firstn_comm.
  rewrite drop_app_ge by lia. rewrite <- app_assoc. rewrite (take_app_ge D) by lia. f_equal.
  rewrite take_app_ge by lia. f_equal. rewrite Nat.add_sub' , take_drop_zero by lia. f_equal. lia.
Qed.

(** ** Counting blocks *)

(** The slots and the number of blocks of a file of [len] bytes. *)
Definition need (len s : Z) : bool := if s =? MAXFILE then NDIRECT * BSIZE <? len else s * BSIZE <? len.
Definition blocks (len : Z) : Z := (len + BSIZE - 1) / BSIZE + (if NDIRECT * BSIZE <? len then 1 else 0).

Section Count.
Context (f : Z -> bool) (off n : Z) (Hoff : 0 <= off) (Hn : 0 < n) (Hf : forall k, is_slot k -> f k = need off k).
Let bn := off / BSIZE.
Context (Hmax : bn < MAXFILE) (Hend : off + n <= (bn + 1) * BSIZE).

Lemma bn_off : 0 <= bn /\ bn * 1024 <= off < (bn + 1) * 1024.
Proof.
  unfold bn. change BSIZE with 1024. pose proof (Z.div_mod off 1024 ltac:(lia)). pose proof (Z.mod_pos_bound off 1024 ltac:(lia)).
  split; [apply Z.div_pos; lia|lia].
Qed.
Lemma reach_need k : is_slot k -> reach f bn k = need (off + n) k.
Proof.
  intros Hk. pose proof bn_off. unfold reach. rewrite Hf by done. unfold need, is_slot in *.
  change BSIZE with 1024 in *. change MAXFILE with 268 in *. change NDIRECT with 12 in *.
  apply eq_iff_eq_true. rewrite !orb_true_iff, andb_true_iff, !bool_decide_eq_true, Z.leb_le.
  destruct (Z.eqb_spec k 268); rewrite !Z.ltb_lt; lia.
Qed.
Lemma cost_blocks : cost f bn = blocks (off + n) - blocks off.
Proof.
  pose proof bn_off. unfold cost. rewrite (Hf bn), (Hf MAXFILE) by (split; done || (change MAXFILE with 268 in *; lia)).
  unfold need, blocks. rewrite Z.eqb_refl, (proj2 (Z.eqb_neq bn MAXFILE)) by lia.
  change BSIZE with 1024 in *. change MAXFILE with 268 in *. change NDIRECT with 12 in *.
  assert (E1 : (off + n + 1024 - 1) / 1024 = bn + 1) by (symmetry; apply (Z.div_unique _ _ _ (off + n - 1 - bn * 1024)); lia).
  rewrite E1. destruct (Z.ltb_spec (bn * 1024) off).
  - assert (E2 : (off + 1024 - 1) / 1024 = bn + 1) by (symmetry; apply (Z.div_unique _ _ _ (off - 1 - bn * 1024)); lia).
    rewrite E2. destruct (Z.leb_spec 12 bn), (Z.ltb_spec (12 * 1024) off), (Z.ltb_spec (12 * 1024) (off + n)); cbn [negb andb]; lia.
  - assert (E2 : (off + 1024 - 1) / 1024 = bn) by (symmetry; apply (Z.div_unique _ _ _ (off + 1023 - bn * 1024)); lia).
    rewrite E2. destruct (Z.leb_spec 12 bn), (Z.ltb_spec (12 * 1024) off), (Z.ltb_spec (12 * 1024) (off + n)); cbn [negb andb]; lia.
Qed.
End Count.

Lemma blocks_mono x y : 0 <= x <= y -> blocks x <= blocks y.
Proof.
  change (blocks x <= blocks y) with ((x + 1024 - 1) / 1024 + (if 12 * 1024 <? x then 1 else 0) <=
    (y + 1024 - 1) / 1024 + (if 12 * 1024 <? y then 1 else 0)).
  intros H. pose proof (Z.div_le_mono (x + 1024 - 1) (y + 1024 - 1) 1024 ltac:(lia) ltac:(lia)).
  destruct (Z.ltb_spec (12 * 1024) x), (Z.ltb_spec (12 * 1024) y); lia.
Qed.

(** ** iappend *)

(** An inode that mkfs is appending to: its slots are those its data needs. *)
Record appending (s : mkst) (G : list entry) (i : nat) (t : Z) (a data : list Z) : Prop := {
  ap_work : exists f, working s (<[i := Entry t a data f]> G) /\ forall k, is_slot k -> f k = need (Z.of_nat (length data)) k;
  ap_index : (i < length G)%nat;
}.

Section Append.
Context (G : list entry) (i : nat) (t : Z).

Lemma iappend_round s din data p : appending s G i t (d_addrs din) data -> p <> [] ->
  Z.of_nat (length data + length p) <= MAXFILE * BSIZE ->
  freeblock s + blocks (Z.of_nat (length data + length p)) - blocks (Z.of_nat (length data)) <= FSSIZE ->
  exists n a' s', iappend_body (din, Z.of_nat (length data), p) s =
      Ok (inl (with_addrs a' din, Z.of_nat (length (data ++ take n p)), drop n p), s') /\
    (0 < n <= length p)%nat /\ appending s' G i t a' (data ++ take n p) /\
    (forall m, m < nmeta -> view s' m = view s m) /\ freeinode s' = freeinode s /\
    freeblock s' = freeblock s + blocks (Z.of_nat (length (data ++ take n p))) - blocks (Z.of_nat (length data)).
Proof.
  intros [(f & Hw & Hf) Hlt] Hp Hmax Hfb. set (off := Z.of_nat (length data)) in *.
  assert (Hlp : (0 < length p)%nat) by (destruct p; [done|cbn; lia]).
  pose proof (bn_off off ltac:(lia)) as [Hb0 Hb]. set (bn := off / BSIZE) in *.
  set (n1 := Z.min (Z.of_nat (length p)) ((bn + 1) * BSIZE - off)).
  assert (Hn : 0 < n1 <= Z.of_nat (length p) /\ off + n1 <= (bn + 1) * BSIZE) by (unfold n1; change BSIZE with 1024; lia).
  assert (Hbm : bn < MAXFILE) by (change MAXFILE with 268 in *; change BSIZE with 1024 in *; lia).
  set (n := Z.to_nat n1). assert (Hln : length (take n p) = n) by (rewrite length_take; lia).
  assert (Hlen : Z.of_nat (length (data ++ take n p)) = off + n1) by (rewrite length_app, Hln; lia).
  pose proof (cost_blocks f off n1 ltac:(lia) ltac:(lia) Hf Hbm ltac:(lia)) as Hc. fold bn in Hc.
  assert (Hreach : forall k, is_slot k -> reach f bn k = need (off + n1) k).
  { intros k Hk. apply reach_need; try done; lia. }
  pose proof (blocks_mono (off + n1) (Z.of_nat (length data + length p)) ltac:(lia)) as Hmono.
  destruct (iappend_block_ok s _ i din t (d_addrs din) data f bn Hw) as (a' & f' & s1 & E & Hw1 & Hf' & Hv1 & Hfi & Hfb1);
    [by apply list_lookup_insert_eq|done|done| |lia|].
  { intros Hfz. apply part_end. fold off. rewrite (Hf bn) in Hfz by (split; lia). unfold need in Hfz.
    rewrite (proj2 (Z.eqb_neq bn MAXFILE)) in Hfz by lia. by apply Z.ltb_ge in Hfz. }
  rewrite list_insert_insert_eq in Hw1. set (x := slot (view s1) (on a') bn) in *.
  assert (Hf1 : f' bn = true) by (rewrite Hf' by (split; lia); unfold reach; by rewrite bool_decide_true).
  assert (Hgi : <[i := Entry t a' data f']> G !! i = Some (Entry t a' data f')) by (by apply list_lookup_insert_eq).
  assert (Hsb : is_slot bn) by (split; lia).
  assert (Hx : nmeta <= x < freeblock s1).
  { destruct (slot_range s1 _ i t a' data f' bn Hw1 Hgi Hsb) as [Hz|]; [|done].
    apply (slot_in s1 _ i t a' data f' bn Hw1 Hgi Hsb) in Hz. congruence. }
  pose proof Hw1 as [W1 W2 W3]. pose proof (ow_rep _ _ _ W2 i _ Hgi) as [_ _ R3]. cbn [e_addrs e_slots e_data] in R3.
  assert (HxS : is_Some (img s1 !! x)) by (apply W1; change nmeta with 46 in *; lia).
  set (b := splice (Z.to_nat (off - bn * BSIZE)) (take n p) (view s1 x)).
  assert (Hpart : b = part (data ++ take n p) bn).
  { unfold b, x. rewrite R3 by (done || lia). apply part_splice; fold off; rewrite ?Hln; change BSIZE with 1024 in *; lia. }
  set (s2 := Mkst (<[x := b]> (img s1)) (freeinode s1) (freeblock s1)).
  assert (Hv2 : forall m, view s2 m = fupd (view s1) x b m) by (intros m; apply view_wsect).
  exists n, a', s2. split_and!; [|lia|lia| | |done|cbn [s2 freeblock]; rewrite Hlen; lia].
  - unfold iappend_body. rewrite bool_decide_false by done. fold bn. rewrite (proj2 (Z.ltb_lt bn MAXFILE)) by lia. cbn [negb].
    kdo E. cbn [fst snd]. kdo (rsect_ok s1 x HxS). fold n1 n b. unfold wsect, mbind, M_bind, mret, M_ret. fold s2.
    rewrite u32_id by (change MAXFILE with 268 in *; change BSIZE with 1024 in *; lia). by rewrite Hlen.
  - split; [|done]. exists f'. split; [split; [by apply full_wsect| |done]|].
    + replace (<[i := Entry t a' (data ++ take n p) f']> G) with (<[i := Entry t a' (data ++ take n p) f']> (<[i := Entry t a' data f']> G))
        by apply list_insert_insert_eq.
      apply (owned_write (view s1) _ _ _ i t a' data _ f' bn W2 Hgi); [done|done| | | |].
      * intros m. rewrite Hv2. unfold fupd. case_decide; [rewrite Hpart; apply length_part|apply (ow_lens _ _ _ W2)].
      * fold x. rewrite Hv2, fupd_eq. done.
      * intros m Hm. rewrite Hv2. by apply fupd_ne.
      * intros k Hk Hfk Hne. apply part_app; [|lia]. rewrite Hf' in Hfk by (split; lia).
        rewrite Hreach in Hfk by (split; lia). unfold need in Hfk.
        rewrite (proj2 (Z.eqb_neq k MAXFILE)) in Hfk by lia. apply Z.ltb_lt in Hfk. fold off. change BSIZE with 1024 in *. lia.
    + intros k Hk. rewrite Hf' by done. rewrite Hlen. by apply Hreach.
  - intros m Hm. rewrite Hv2, fupd_ne by lia. by apply Hv1.
Qed.

Lemma iappend_loop fuel : forall s din data p, appending s G i t (d_addrs din) data -> (length p < fuel)%nat ->
  Z.of_nat (length data + length p) <= MAXFILE * BSIZE ->
  freeblock s + blocks (Z.of_nat (length data + length p)) - blocks (Z.of_nat (length data)) <= FSSIZE ->
  exists a' s', loop fuel iappend_body (din, Z.of_nat (length data), p) s =
      Ok ((with_addrs a' din, Z.of_nat (length (data ++ p))), s') /\
    appending s' G i t a' (data ++ p) /\ (forall m, m < nmeta -> view s' m = view s m) /\ freeinode s' = freeinode s /\
    freeblock s' = freeblock s + blocks (Z.of_nat (length (data ++ p))) - blocks (Z.of_nat (length data)).
Proof.
  induction fuel as [|fuel IH]; intros s din data p Hap Hfuel Hmax Hfb; [lia|].
  destruct (decide (p = [])) as [->|Hp].
  - exists (d_addrs din), s. rewrite app_nil_r. split_and!; try done; [|lia]. by destruct din.
  - destruct (iappend_round s din data p Hap Hp Hmax Hfb) as (n & a1 & s1 & E & Hn & Hap1 & Hv1 & Hfi1 & Hfb1).
    assert (Hl : (length (data ++ take n p) + length (drop n p) = length data + length p)%nat).
    { rewrite length_app, length_take, length_drop. lia. }
    destruct (IH s1 (with_addrs a1 din) (data ++ take n p) (drop n p)) as (a2 & s2 & E2 & Hap2 & Hv2 & Hfi2 & Hfb2);
      [done|rewrite length_drop; lia|by rewrite Hl|rewrite Hl; lia|].
    rewrite <- app_assoc, take_drop in *. exists a2, s2. split_and!; [|done| |congruence|lia].
    + rewrite (loop_next _ _ _ _ _ _ E). exact E2.
    + intros m Hm. rewrite Hv2, Hv1 by done. done.
Qed.
End Append.

(** ** The image between two calls *)

(** [L] lists the types and the data of the inodes, from inode 1 on. *)
Record built (s : mkst) (L : list (Z * list Z)) (G : list entry) : Prop := {
  bt_work : working s G;
  bt_list : (fun e => (e_type e, e_data e)) <$> G = L;
  bt_ino : freeinode s = Z.of_nat (length L) + 1;
  bt_slots : forall i e k, G !! i = Some e -> is_slot k -> e_slots e k = need (Z.of_nat (length (e_data e))) k;
  bt_type : forall i e, G !! i = Some e -> 0 < e_type e < 2 ^ 15;
  bt_max : forall i e, G !! i = Some e -> Z.of_nat (length (e_data e)) <= MAXFILE * BSIZE;
  bt_din : forall i e, G !! i = Some e ->
    dinode_at (view s) sb (Z.of_nat i + 1) = Dinode (e_type e) 0 0 1 (Z.of_nat (length (e_data e))) (e_addrs e);
  bt_free : forall j, Z.of_nat (length L) < j < NINODES -> d_type (dinode_at (view s) sb j) = 0;
  bt_boot : view s 0 = zero_block;
  bt_sb : sb_of (view s 1) = sb;
  bt_log : view s 2 = zero_block;
}.
