(* ===== verification/MkfsImage.v ===== *)
(** * mkfs: the whole image

    Each call of ialloc() and iappend() keeps an image whose inodes have the listed
    types and data; main() makes one in which the kernel finds the root directory,
    the files with their contents, the bitmap and an empty log. *)
From stdpp Require Import prelude gmap strings.
From Stdlib Require Import ZArith Lia.
From S2P Require Import Prelude Memory CString Spinlock Riscv Kalloc Vm Uaccess Proc Bytes State Sleeplock Copy Console Bio BioView BioClient Log Fs LogSpec LogOps FsTx FsAlloc FsInode Icache FsFile FsBmap FsWrite Mkfs MkfsSpec.
Import Mkfs.
Open Scope Z_scope.

(** ** Inodes on the image *)

Lemma IBLOCK_sb n : IBLOCK n sb = n / 16 + 32.
Proof. reflexivity. Qed.
Lemma IBLOCK_meta n : 0 <= n < NINODES -> 2 < IBLOCK n sb < 45.
Proof.
  change NINODES with 200. intros H. rewrite IBLOCK_sb. pose proof (Z.div_pos n 16). pose proof (Z.div_lt_upper_bound n 16 13). lia.
Qed.

Lemma rinode_ok s n : full s -> 0 <= n < NINODES -> rinode n s = Ok (dinode_at (view s) sb n, s).
Proof.
  intros Hf Hn. pose proof (IBLOCK_meta n Hn). unfold rinode. cbn zeta.
  kdo (rsect_ok s (IBLOCK n sb) (Hf (IBLOCK n sb) ltac:(change FSSIZE with 1000; lia))). done.
Qed.

Definition put_inode (n : Z) (d : dinode) (s : mkst) : mkst :=
  Mkst (<[IBLOCK n sb := put_dinode (n mod IPB) d (view s (IBLOCK n sb))]> (img s)) (freeinode s) (freeblock s).

Lemma winode_ok s n d : full s -> 0 <= n < NINODES -> winode n d s = Ok ((), put_inode n d s).
Proof.
  intros Hf Hn. pose proof (IBLOCK_meta n Hn). unfold winode. cbn zeta.
  kdo (rsect_ok s (IBLOCK n sb) (Hf (IBLOCK n sb) ltac:(change FSSIZE with 1000; lia))). done.
Qed.
Lemma view_put_inode n d s m :
  view (put_inode n d s) m = fupd (view s) (IBLOCK n sb) (put_dinode (n mod IPB) d (view s (IBLOCK n sb))) m.
Proof. unfold put_inode. rewrite view_wsect. by destruct s. Qed.

Lemma dinode_at_ext V V' j : V' (IBLOCK j sb) = V (IBLOCK j sb) -> dinode_at V' sb j = dinode_at V sb j.
Proof. intros H. unfold dinode_at. by rewrite H. Qed.

Section Put.
Context (n : Z) (d : dinode) (s : mkst) (Hn : 0 <= n < NINODES) (Hd : dinode_ok d).

Lemma put_inode_at j : block_lens (view s) -> 0 <= j ->
  dinode_at (view (put_inode n d s)) sb j = if decide (j = n) then d else dinode_at (view s) sb j.
Proof.
  intros Hl Hj. rewrite (dinode_at_ext _ _ j (view_put_inode n d s (IBLOCK j sb))). apply dinode_at_put; try done. lia.
Qed.
Lemma put_inode_other m : m < 32 \/ 45 <= m -> view (put_inode n d s) m = view s m.
Proof.
  intros Hm. rewrite view_put_inode. apply fupd_ne. pose proof (IBLOCK_meta n Hn). rewrite IBLOCK_sb in *.
  assert (0 <= n / 16) by (apply Z.div_pos; lia). lia.
Qed.
Lemma put_inode_lens : block_lens (view s) -> block_lens (view (put_inode n d s)).
Proof.
  intros Hl m. rewrite view_put_inode. unfold fupd. case_decide; [|apply Hl].
  apply length_put_dinode; [apply (dk_len _ Hd)|by apply Z.mod_pos_bound|apply Hl].
Qed.
Lemma working_put G : working s G -> working (put_inode n d s) G.
Proof.
  intros [W1 W2 W3]. split; [by apply full_wsect| |done]. change (freeblock (put_inode n d s)) with (freeblock s).
  apply (owned_agree (view s)); [done|apply put_inode_lens, (ow_lens _ _ _ W2)| |lia].
  intros m Hm. apply put_inode_other. change nmeta with 46 in Hm. lia.
Qed.
End Put.

(** The addresses fit the fields of the inode. *)
Lemma entry_addrs s G i e : working s G -> G !! i = Some e ->
  length (e_addrs e) = 13%nat /\ Forall (fun x => 0 <= x < 2 ^ 32) (e_addrs e).
Proof.
  intros Hw Hi. destruct e as [t a data f]. cbn [e_addrs]. pose proof Hw as [_ Ho Hfb].
  pose proof (rp_len _ _ (ow_rep _ _ _ Ho i _ Hi)) as Hl. cbn [e_addrs] in Hl. split; [done|].
  apply Forall_lookup. intros j x Hj. pose proof (lookup_lt_Some _ _ _ Hj) as Hlt. apply list_lookup_total_correct in Hj as <-.
  assert (exists k, is_slot k /\ slot (view s) (on a) k = a !!! j) as (k & Hk & <-).
  { destruct (decide (j = 12%nat)) as [->|]; [exists MAXFILE; split; [apply max_slot|by rewrite slot_max]|].
    exists (Z.of_nat j). split; [unfold is_slot; change MAXFILE with 268; lia|]. rewrite slot_block by (change MAXFILE with 268; lia).
    unfold fblock. change NDIRECT with 12. rewrite (proj2 (Z.ltb_lt _ _)) by lia. by rewrite Nat2Z.id. }
  change FSSIZE with 1000 in Hfb. change nmeta with 46 in *.
  destruct (slot_range s G i t a data f k Hw Hi Hk); change nmeta with 46 in *; lia.
Qed.

(** ** ialloc and iappend *)

Lemma entry_dinode s L G i e : built s L G -> G !! i = Some e ->
  dinode_ok (Dinode (e_type e) 0 0 1 (Z.of_nat (length (e_data e))) (e_addrs e)).
Proof.
  intros Hb Hi. destruct (entry_addrs s G i e (bt_work _ _ _ Hb) Hi) as [H1 H2].
  pose proof (bt_max _ _ _ Hb i e Hi) as Hm. pose proof (bt_type _ _ _ Hb i e Hi).
  change (MAXFILE * BSIZE) with 274432 in Hm. split; cbn; done || lia.
Qed.

Lemma ialloc_ok s L G t : built s L G -> 0 < t < 2 ^ 15 -> (length L < 199)%nat ->
  exists s' G', ialloc t s = Ok (Z.of_nat (length L) + 1, s') /\ built s' (L ++ [(t, [])]) G' /\ freeblock s' = freeblock s.
Proof.
  intros [B1 B2 B3 B4 B5 B6 B7 B8 B9 B10 B11] Ht HL. set (n := Z.of_nat (length L) + 1).
  assert (Hn : 0 <= n < NINODES) by (change NINODES with 200; lia).
  set (d := Dinode t 0 0 1 0 (repeat 0 13)). assert (Hd : dinode_ok d).
  { split; cbn [d d_type d_major d_minor d_nlink d_size d_addrs]; try lia; [done|]. apply Forall_forall. intros x Hx%list_elem_of_In%repeat_spec. lia. }
  assert (HlG : length G = length L) by (rewrite <- B2; by rewrite length_fmap).
  set (s1 := Mkst (img s) (n + 1) (freeblock s)).
  assert (Hw1 : working s1 G) by (destruct B1; by split).
  pose proof (ow_lens _ _ _ (wk_own _ _ Hw1)) as Hl. change (view s1) with (view s) in Hl.
  exists (put_inode n d s1), (G ++ [Entry t (repeat 0 13) [] (fun _ => false)]). split_and!; [| |done].
  - unfold ialloc. assert (E : next_inode s = Ok (n, s1)).
    { unfold next_inode. rewrite B3. fold n. rewrite u32_id by (change NINODES with 200 in Hn; lia). done. }
    kdo E. replace (Dinode (i16 (xshort t)) 0 0 (i16 (xshort 1)) (xint 0) (repeat 0 13)) with d.
    { kdo (winode_ok s1 n d (wk_full _ _ Hw1) Hn). done. }
    unfold d. f_equal. rewrite xshort_id by lia. unfold i16. rewrite Z.mod_small; lia.
  - assert (Hcase : forall i e, (G ++ [Entry t (repeat 0 13) [] (fun _ => false)]) !! i = Some e ->
      G !! i = Some e /\ (i < length L)%nat \/ i = length L /\ e = Entry t (repeat 0 13) [] (fun _ => false)).
    { intros i e Hi. apply lookup_app_Some in Hi as [Hi|[H1 Hi]]; [left; split; [done|]|right].
      - rewrite <- HlG. by apply (lookup_lt_Some _ _ _ Hi).
      - apply list_lookup_singleton_Some in Hi as [H2 <-]. split; [lia|done]. }
    split.
    + apply working_put; try done. destruct Hw1 as [W1 W2 W3]. split; [done|by apply owned_new|done].
    + rewrite fmap_app, B2. done.
    + cbn [put_inode s1 freeinode]. rewrite length_app. cbn [length]. lia.
    + intros i e k Hi Hk. destruct (Hcase i e Hi) as [[Hi' _]|[_ ->]]; [by apply (B4 i)|]. cbn [e_slots e_data length].
      unfold need. unfold is_slot in Hk. destruct (k =? MAXFILE); symmetry; apply Z.ltb_ge; [done|]. change BSIZE with 1024. lia.
    + intros i e Hi. destruct (Hcase i e Hi) as [[Hi' _]|[_ ->]]; [by apply (B5 i)|done].
    + intros i e Hi. destruct (Hcase i e Hi) as [[Hi' _]|[_ ->]]; [by apply (B6 i)|done].
    + intros i e Hi. rewrite put_inode_at by (done || lia). change (view s1) with (view s).
      destruct (Hcase i e Hi) as [[Hi' Hlt]|[-> ->]]; [rewrite decide_False by lia; by apply B7|]. by rewrite decide_True by lia.
    + intros j Hj. rewrite length_app in Hj. cbn [length] in Hj. rewrite put_inode_at by (done || lia).
      rewrite decide_False by lia. apply B8. lia.
    + rewrite put_inode_other by (done || lia). done.
    + rewrite put_inode_other by (done || lia). done.
    + rewrite put_inode_other by (done || lia). done.
Qed.

Lemma iappend_ok s L G i t data p : built s L G -> L !! i = Some (t, data) -> (length L < 200)%nat ->
  Z.of_nat (length data + length p) <= MAXFILE * BSIZE ->
  freeblock s + blocks (Z.of_nat (length data + length p)) - blocks (Z.of_nat (length data)) <= FSSIZE ->
  exists s' G', iappend (Z.of_nat i + 1) p s = Ok ((), s') /\ built s' (<[i := (t, data ++ p)]> L) G' /\
    freeblock s' = freeblock s + blocks (Z.of_nat (length (data ++ p))) - blocks (Z.of_nat (length data)).
Proof.
  intros Hb Hi HL Hmax Hfb. pose proof Hb as [B1 B2 B3 B4 B5 B6 B7 B8 B9 B10 B11].
  assert (HlG : length G = length L) by (rewrite <- B2; by rewrite length_fmap).
  assert (exists e, G !! i = Some e /\ e_type e = t /\ e_data e = data) as (e & He & Het & Hed).
  { rewrite <- B2, list_lookup_fmap in Hi. apply fmap_Some in Hi as (e & He & E). injection E as -> ->. by exists e. }
  pose proof (lookup_lt_Some _ _ _ He) as Hlt. set (n := Z.of_nat i + 1).
  assert (Hn : 0 <= n < NINODES) by (change NINODES with 200; lia).
  pose proof (B7 i e He) as Hdin. rewrite Het, Hed in Hdin. fold n in Hdin. set (din := Dinode _ _ _ _ _ _) in Hdin.
  change (MAXFILE * BSIZE) with 274432 in Hmax.
  assert (Hap : appending s G i t (d_addrs din) data).
  { split; [|done]. exists (e_slots e). cbn [din d_addrs]. split; [|intros k Hk; rewrite (B4 i e k He Hk), Hed; done].
    rewrite list_insert_id; [done|]. rewrite He. destruct e. cbn in *. by subst. }
  destruct (iappend_loop G i t (S (length p)) s din data p Hap ltac:(lia) Hmax Hfb) as (a' & s1 & E & Hap1 & Hv1 & Hfi1 & Hfb1).
  destruct Hap1 as [(f & Hw1 & Hf) _]. set (e' := Entry t a' (data ++ p) f) in *.
  assert (He' : <[i := e']> G !! i = Some e') by (by apply list_lookup_insert_eq).
  set (len := Z.of_nat (length (data ++ p))) in *. assert (Hlen : 0 <= len <= 274432) by (unfold len; rewrite length_app; lia).
  set (d' := Dinode t 0 0 1 len a'). assert (Hd' : dinode_ok d').
  { destruct (entry_addrs s1 _ i e' Hw1 He') as [H1 H2]. pose proof (B5 i e He). split; cbn in *; done || lia. }
  pose proof (ow_lens _ _ _ (wk_own _ _ Hw1)) as Hl1.
  exists (put_inode n d' s1), (<[i := e']> G). split_and!; [| |done].
  - unfold iappend. kdo (rinode_ok s n (wk_full _ _ B1) Hn). rewrite Hdin. cbn [d_size din]. fold din.
    rewrite (xint_id (Z.of_nat (length data))) by lia. kdo E. cbn [fst snd]. rewrite xint_id by lia.
    change (set_d_size len (with_addrs a' din)) with d'. apply winode_ok; [apply (wk_full _ _ Hw1)|done].
  - assert (Hcase : forall j e1, <[i := e']> G !! j = Some e1 -> j = i /\ e1 = e' \/ j <> i /\ G !! j = Some e1).
    { intros j e1 [(<- & <- & _)|[Hne Hj]]%list_lookup_insert_Some; [by left|right; by split]. }
    assert (Hat : forall j, 0 <= j < NINODES -> dinode_at (view (put_inode n d' s1)) sb j = if decide (j = n) then d' else dinode_at (view s) sb j).
    { intros j Hj. rewrite put_inode_at by (done || lia). case_decide; [done|]. apply dinode_at_ext, Hv1.
      pose proof (IBLOCK_meta j Hj). change nmeta with 46. lia. }
    split.
    + by apply working_put.
    + rewrite list_fmap_insert, B2. done.
    + rewrite length_insert. cbn [put_inode freeinode]. by rewrite Hfi1.
    + intros j e1 k Hj Hk. destruct (Hcase j e1 Hj) as [[-> ->]|[_ Hj']]; [by apply Hf|by apply (B4 j)].
    + intros j e1 Hj. destruct (Hcase j e1 Hj) as [[-> ->]|[_ Hj']]; [cbn; rewrite <- Het; by apply (B5 i)|by apply (B5 j)].
    + intros j e1 Hj. destruct (Hcase j e1 Hj) as [[-> ->]|[_ Hj']]; [cbn [e' e_data]; fold len; change (MAXFILE * BSIZE) with 274432; lia|by apply (B6 j)].
    + intros j e1 Hj. destruct (Hcase j e1 Hj) as [[-> ->]|[Hne Hj']]; rewrite Hat.
      * by rewrite decide_True by lia.
      * lia.
      * rewrite decide_False by lia. by apply B7.
      * pose proof (lookup_lt_Some _ _ _ Hj'). change NINODES with 200. lia.
    + intros j Hj. rewrite length_insert in Hj. rewrite Hat, decide_False by lia. apply B8. lia.
    + rewrite put_inode_other, Hv1 by (done || lia). done.
    + rewrite put_inode_other, Hv1 by (done || lia). done.
    + rewrite put_inode_other, Hv1 by (done || lia). done.
Qed.

(** ** The files *)

Lemma iappend_chunks chunks : forall s L G i t data, built s L G -> L !! i = Some (t, data) -> (length L < 200)%nat ->
  Z.of_nat (length data + length (concat chunks)) <= MAXFILE * BSIZE ->
  freeblock s + blocks (Z.of_nat (length data + length (concat chunks))) - blocks (Z.of_nat (length data)) <= FSSIZE ->
  exists s' G', for_each chunks (iappend (Z.of_nat i + 1)) s = Ok ((), s') /\
    built s' (<[i := (t, data ++ concat chunks)]> L) G' /\
    freeblock s' = freeblock s + blocks (Z.of_nat (length (data ++ concat chunks))) - blocks (Z.of_nat (length data)).
Proof.
  induction chunks as [|c chunks IH]; intros s L G i t data Hb Hi HL Hmax Hfb.
  - exists s, G. cbn [concat]. rewrite app_nil_r, list_insert_id by done. split_and!; [done..|lia].
  - cbn [concat] in *. rewrite length_app in Hmax, Hfb.
    pose proof (blocks_mono (Z.of_nat (length data + length c)) (Z.of_nat (length data + (length c + length (concat chunks)))) ltac:(lia)).
    destruct (iappend_ok s L G i t data c Hb Hi HL ltac:(lia) ltac:(lia)) as (s1 & G1 & E1 & Hb1 & Hf1).
    rewrite length_app in Hf1. destruct (IH s1 _ G1 i t (data ++ c) Hb1) as (s2 & G2 & E2 & Hb2 & Hf2).
    + by apply list_lookup_insert_eq, (lookup_lt_Some _ _ _ Hi).
    + by rewrite length_insert.
    + rewrite length_app. lia.
    + rewrite length_app, <- Nat.add_assoc. lia.
    + rewrite list_insert_insert_eq, <- app_assoc in Hb2. exists s2, G2. split_and!; [|done|].
      * cbn [for_each]. kdo E1. exact E2.
      * rewrite Hf2, Hf1, !app_assoc. rewrite !length_app in *. lia.
Qed.

(** What mkfs is given: the name in the image and the contents. *)
Abbreviation image_file := (list Z * list Z)%type.
Definition file_of (f : list Z * option (list (list Z))) : image_file :=
  (without_underscore (shortname f.1), concat (until_end (default [] f.2))).

Definition entry_of (i : nat) (name : list Z) : list Z := dirent_for (Z.of_nat i + 2) (strncpy_l (Z.to_nat DIRSIZ) name).
Definition root_dir (fs : list image_file) : list Z :=
  dirent_for 1 (strncpy_l (Z.to_nat DIRSIZ) [46]) ++ dirent_for 1 (strncpy_l (Z.to_nat DIRSIZ) [46; 46]) ++
  concat (imap (fun i f => entry_of i f.1) fs).
Definition contents (fs : list image_file) : list (Z * list Z) :=
  (T_DIR, root_dir fs) :: ((fun f => (T_FILE, f.2)) <$> fs).

(** The blocks that the image takes up. *)
Definition file_blocks (fs : list image_file) : Z := foldr (fun f acc => blocks (Z.of_nat (length f.2)) + acc) 0 fs.
Definition space (fs : list image_file) : Z :=
  nmeta + blocks (sizeof_dirent * (2 + Z.of_nat (length fs))) + file_blocks fs.

Lemma length_dirent_for n name : length (dirent_for n (strncpy_l (Z.to_nat DIRSIZ) name)) = 16%nat.
Proof.
  unfold dirent_for, dirent_bytes, strncpy_l. cbn [de_inum de_name]. rewrite length_app, length_bytes_of, length_take, length_app, repeat_length.
  change (Z.to_nat DIRSIZ) with 14%nat. lia.
Qed.
Lemma root_dir_snoc fs f : root_dir (fs ++ [f]) = root_dir fs ++ entry_of (length fs) f.1.
Proof. unfold root_dir. rewrite imap_app, concat_app. cbn [imap concat]. by rewrite Nat.add_0_r, app_nil_r, <- !app_assoc. Qed.
Lemma length_root_dir fs : length (root_dir fs) = (16 * (2 + length fs))%nat.
Proof.
  induction fs as [|f fs IH] using rev_ind; [reflexivity|]. rewrite root_dir_snoc, length_app, IH, length_app.
  unfold entry_of. rewrite length_dirent_for. cbn [length]. lia.
Qed.
Lemma file_blocks_app fs gs : file_blocks (fs ++ gs) = file_blocks fs + file_blocks gs.
Proof. induction fs as [|f fs IH]; cbn [file_blocks foldr app]; [done|]. unfold file_blocks in *. cbn [foldr]. lia. Qed.
Lemma blocks_nonneg n : 0 <= n -> 0 <= blocks n.
Proof. intros H. change 0 with (blocks 0). apply blocks_mono. lia. Qed.
Lemma file_blocks_nonneg fs : 0 <= file_blocks fs.
Proof.
  induction fs as [|f fs IH]; [done|]. unfold file_blocks in *. cbn [foldr]. pose proof (blocks_nonneg (Z.of_nat (length f.2))). lia.
Qed.
Lemma space_app fs gs : space fs <= space (fs ++ gs).
Proof.
  unfold space. rewrite file_blocks_app, length_app. pose proof (file_blocks_nonneg gs).
  pose proof (blocks_mono (sizeof_dirent * (2 + Z.of_nat (length fs))) (sizeof_dirent * (2 + Z.of_nat (length fs + length gs)))).
  change sizeof_dirent with 16 in *. lia.
Qed.

(** A file that mkfs can take. *)
Definition acceptable (f : list Z * option (list (list Z))) : Prop :=
  47 ∉ shortname f.1 /\ is_Some f.2 /\ Z.of_nat (length (file_of f).2) <= MAXFILE * BSIZE.

Lemma space_snoc fs f : space (fs ++ [f]) = space fs +
  (blocks (sizeof_dirent * (2 + Z.of_nat (length fs)) + sizeof_dirent) - blocks (sizeof_dirent * (2 + Z.of_nat (length fs)))) +
  blocks (Z.of_nat (length f.2)).
Proof.
  unfold space. rewrite file_blocks_app, length_app. unfold file_blocks at 2. cbn [foldr length].
  replace (sizeof_dirent * (2 + Z.of_nat (length fs + 1))) with (sizeof_dirent * (2 + Z.of_nat (length fs)) + sizeof_dirent)
    by (change sizeof_dirent with 16; lia). lia.
Qed.

Lemma add_file_ok s fs f G : built s (contents fs) G -> freeblock s = space fs -> acceptable f ->
  (length fs < 198)%nat -> space (fs ++ [file_of f]) <= FSSIZE ->
  exists s' G', add_file 1 f s = Ok ((), s') /\ built s' (contents (fs ++ [file_of f])) G' /\
    freeblock s' = space (fs ++ [file_of f]).
Proof.
  intros Hb Hfb (Hname & [chunks Hch] & Hlen) Hn Hsp. rewrite space_snoc in Hsp |- *.
  pose proof (blocks_nonneg (Z.of_nat (length (file_of f).2)) ltac:(lia)) as Hbn.
  assert (Hlc : length (contents fs) = S (length fs)) by (cbn; by rewrite length_fmap).
  destruct (ialloc_ok s _ G T_FILE Hb ltac:(done) ltac:(lia)) as (s1 & G1 & E1 & Hb1 & Hf1).
  set (e := entry_of (length fs) (file_of f).1).
  assert (Hle : length e = 16%nat) by apply length_dirent_for.
  assert (Hr1 : Z.of_nat (length (root_dir fs) + 16) = sizeof_dirent * (2 + Z.of_nat (length fs)) + sizeof_dirent)
    by (rewrite length_root_dir; change sizeof_dirent with 16; lia).
  assert (Hr2 : Z.of_nat (length (root_dir fs)) = sizeof_dirent * (2 + Z.of_nat (length fs)))
    by (rewrite length_root_dir; change sizeof_dirent with 16; lia).
  destruct (iappend_ok s1 _ G1 0 T_DIR (root_dir fs) e Hb1) as (s2 & G2 & E2 & Hb2 & Hf2).
  { done. }
  { rewrite length_app. cbn [length]. lia. }
  { rewrite Hle, Hr1. change sizeof_dirent with 16. change (MAXFILE * BSIZE) with 274432. lia. }
  { rewrite Hle, Hr1, Hr2. lia. }
  rewrite length_app, Hle, Hr1, Hr2 in Hf2.
  assert (Hdata : (file_of f).2 = concat (until_end chunks)) by (cbn; by rewrite Hch).
  destruct (iappend_chunks (until_end chunks) s2 _ G2 (length (contents fs)) T_FILE [] Hb2) as (s3 & G3 & E3 & Hb3 & Hf3).
  { rewrite insert_app_l by (rewrite Hlc; lia). rewrite lookup_app_r by (rewrite length_insert; lia).
    rewrite length_insert, Nat.sub_diag. done. }
  { rewrite length_insert, length_app. cbn [length]. lia. }
  { cbn [length Nat.add]. by rewrite <- Hdata. }
  { cbn [length Nat.add]. rewrite <- Hdata. change (blocks (Z.of_nat 0)) with 0. lia. }
  exists s3, G3. split_and!.
  - unfold add_file. rewrite bool_decide_false by done. rewrite Hch. kdo E1. rewrite Hlc.
    replace (dirent_for (Z.of_nat (S (length fs)) + 1) (strncpy_l (Z.to_nat DIRSIZ) (without_underscore (shortname f.1)))) with e
      by (unfold e, entry_of; f_equal; lia).
    change (Z.of_nat 0 + 1) with 1 in E2. kdo E2. rewrite <- Hlc. exact E3.
  - replace (contents (fs ++ [file_of f])) with
      (<[length (contents fs) := (T_FILE, [] ++ concat (until_end chunks))]> (<[0%nat := (T_DIR, root_dir fs ++ e)]> (contents fs ++ [(T_FILE, [])]))); [done|].
    rewrite (insert_app_l (contents fs)) by lia.
    rewrite (insert_app_r_alt (<[0%nat := _]> (contents fs))) by (by rewrite length_insert).
    rewrite length_insert, Nat.sub_diag. unfold contents. cbn [insert list_insert app].
    rewrite fmap_app, root_dir_snoc. cbn [fmap list_fmap]. by rewrite Hdata.
  - rewrite Hf3. cbn [app length]. change (blocks (Z.of_nat 0)) with 0. rewrite Hdata. lia.
Qed.

Lemma add_files_ok files : forall s fs G, built s (contents fs) G -> freeblock s = space fs -> Forall acceptable files ->
  (length fs + length files <= 198)%nat -> space (fs ++ (file_of <$> files)) <= FSSIZE ->
  exists s' G', for_each files (add_file 1) s = Ok ((), s') /\ built s' (contents (fs ++ (file_of <$> files))) G' /\
    freeblock s' = space (fs ++ (file_of <$> files)).
Proof.
  induction files as [|f files IH]; intros s fs G Hb Hfb Ha Hn Hsp.
  - exists s, G. cbn [fmap list_fmap]. by rewrite app_nil_r.
  - apply Forall_cons in Ha as [Hf Ha]. cbn [fmap list_fmap length] in *.
    rewrite (cons_middle (file_of f)), app_assoc in Hsp |- *. pose proof (space_app (fs ++ [file_of f]) (file_of <$> files)).
    destruct (add_file_ok s fs f G Hb Hfb Hf ltac:(lia) ltac:(lia)) as (s1 & G1 & E1 & Hb1 & Hf1).
    destruct (IH s1 _ G1 Hb1 Hf1 Ha) as (s2 & G2 & E2 & Hb2 & Hf2); [rewrite length_app; cbn; lia|done|].
    exists s2, G2. split_and!; [|done..]. cbn [for_each]. kdo E1. exact E2.
Qed.

(** ** The empty image *)

Lemma get_le_zero k off : get_le k off zero_block = 0.
Proof.
  unfold get_le. assert (H : Forall (eq 0) (slice off k zero_block)).
  { unfold slice. apply Forall_take, Forall_drop. apply Forall_forall. intros x Hx. symmetry.
    apply list_elem_of_In in Hx. with_strategy transparent [zero_block] unfold zero_block in Hx. by apply repeat_spec in Hx. }
  induction H as [|x l <- _ IH]; [done|]. cbn [of_bytes]. by rewrite IH.
Qed.

Lemma zeroes_ok l : forall s, exists im, for_each l (fun i => wsect i zero_block) s = Ok ((), Mkst im (freeinode s) (freeblock s)) /\
  forall n, im !! n = if decide (n ∈ l) then Some zero_block else img s !! n.
Proof.
  induction l as [|x l IH]; intros s; cbn [for_each].
  - exists (img s). split; [by destruct s|]. intros n. by rewrite decide_False by set_solver.
  - destruct (IH (Mkst (<[x := zero_block]> (img s)) (freeinode s) (freeblock s))) as (im & E & Him).
    exists im. split; [exact E|]. intros n. rewrite Him. cbn [img]. destruct (decide (n ∈ l)).
    + by rewrite decide_True by set_solver.
    + destruct (decide (n = x)) as [->|]; [by rewrite lookup_insert_eq, decide_True by set_solver|].
      by rewrite lookup_insert_ne, decide_False by set_solver.
Qed.

Definition sb_block : blk := splice 0 (sb_bytes sb) zero_block.

Lemma sb_block_ok : sb_of sb_block = sb /\ length sb_block = Z.to_nat BSIZE.
Proof. with_strategy transparent [zero_block] (split; vm_compute; reflexivity). Qed.

Lemma start_ok : exists s, (for_each (seqZ 0 FSSIZE) (fun i => wsect i zero_block) ;; wsect 1 sb_block) (Mkst ∅ 1 nmeta) = Ok ((), s) /\
  built s [] [] /\ freeblock s = nmeta.
Proof.
  destruct (zeroes_ok (seqZ 0 FSSIZE) (Mkst ∅ 1 nmeta)) as (im & E & Him). cbn [img freeinode freeblock] in *.
  set (s := Mkst (<[1 := sb_block]> im) 1 nmeta). exists s.
  assert (Hv : forall n, view s n = if decide (n = 1) then sb_block else zero_block).
  { intros n. unfold view, s. cbn [img]. case_decide as Hn; [subst; by rewrite lookup_insert_eq|].
    rewrite lookup_insert_ne, Him by done. by case_decide. }
  assert (Hfull : full s).
  { intros n Hn. cbn [s img]. destruct (decide (n = 1)) as [->|]; [rewrite lookup_insert_eq; by eexists|].
    rewrite lookup_insert_ne, Him, decide_True by (done || by apply elem_of_seqZ). by eexists. }
  split_and!; [by rewrite (bind_Ok _ _ _ _ _ E)| |done].
  assert (Ho : owned (view s) nmeta []).
  { split; [by intros|by intros|by intros| |].
    - intros n Hn. rewrite Hv, decide_False; [done|]. change nmeta with 46 in *. lia.
    - intros n. rewrite Hv. case_decide; [apply sb_block_ok|apply length_zero_block]. }
  split; [|done|done|by intros|by intros|by intros|by intros| | | |].
  - split; [done|exact Ho|done].
  - intros j Hj. unfold dinode_at, get_dinode. cbn [d_type]. rewrite Hv, decide_False.
    + by rewrite get_le_zero.
    + pose proof (IBLOCK_meta j). cbn in Hj. lia.
  - by rewrite Hv, decide_False.
  - rewrite Hv, decide_True by done. apply sb_block_ok.
  - by rewrite Hv, decide_False.
Qed.
