(* ===== verification/MkfsFinal.v ===== *)
(** * mkfs: what the kernel finds on the image

    The image that main() leaves satisfies the hypotheses of the theorems about the
    kernel's file system: the superblock, the empty log, the bitmap, the inodes with
    their blocks, and the root directory. *)
From stdpp Require Import prelude gmap strings.
From Stdlib Require Import ZArith Lia.
From S2P Require Import Prelude Memory CString Spinlock Riscv Kalloc Vm Uaccess Proc Bytes State Sleeplock Copy Console Bio BioView BioClient Log Fs LogSpec LogOps FsTx FsAlloc FsInode Icache FsFile FsBmap FsWrite Mkfs MkfsSpec MkfsImage.
Import Mkfs.
Open Scope Z_scope.

(** ** The bitmap *)

Lemma mark_S n d : 0 <= n -> mark (n + 1) d = set_byte (n / 8) (Z.lor (byte_at (mark n d) (n / 8)) (Z.shiftl 1 (n mod 8))) (mark n d).
Proof. intros Hn. unfold mark. rewrite seqZ_app by lia. rewrite fold_left_app. done. Qed.

Lemma mark_spec d n : length d = Z.to_nat BSIZE -> 0 <= n <= BPB ->
  length (mark n d) = Z.to_nat BSIZE /\ forall i, 0 <= i < BPB -> bit (mark n d) i = bit d i || (i <? n).
Proof.
  intros Hd [Hn0 Hn]. revert Hn. pattern n. apply natlike_ind; [| |done].
  - intros _. split; [done|]. intros i Hi. rewrite (proj2 (Z.ltb_ge i 0)) by lia. by rewrite orb_false_r.
  - intros k Hk IH Hb. destruct IH as [I1 I2]; [lia|]. unfold Z.succ. rewrite mark_S by done. split.
    + unfold set_byte. by rewrite length_insert.
    + intros i Hi. rewrite bit_alloc, I2 by (done || lia). rewrite <- orb_assoc. f_equal.
      apply eq_iff_eq_true. rewrite orb_true_iff, bool_decide_eq_true, !Z.ltb_lt. lia.
Qed.

Lemma bit_zero i : 0 <= i < BPB -> bit zero_block i = false.
Proof.
  intros Hi. unfold bit, byte_at. change BPB with 8192 in Hi.
  assert (0 <= i / 8 < 1024) by (split; [apply Z.div_pos; lia|apply Z.div_lt_upper_bound; lia]).
  rewrite (list_lookup_total_correct _ _ 0) by (apply zero_block_lookup; lia). apply Z.bits_0.
Qed.

(** ** The layout *)

Lemma BBLOCK_sb m : 0 <= m < FSSIZE -> BBLOCK m sb = 45.
Proof. change FSSIZE with 1000. intros H. change (BBLOCK m sb) with (m / 8192 + 45). rewrite Z.div_small by lia. done. Qed.

Lemma mkfs_disk_ok : disk_ok sb 2.
Proof.
  assert (HB : forall m, 0 <= m < sb_size sb -> BBLOCK m sb = 45) by (intros m Hm; by apply BBLOCK_sb).
  split; [split| split| | |]; try done.
  - intros m Hm. rewrite HB by done. unfold in_log. change LOGSIZE with 30. lia.
  - intros i Hi. pose proof (IBLOCK_meta i Hi). lia.
  - intros i Hi. unfold in_log. change LOGSIZE with 30. rewrite IBLOCK_sb. change (sb_ninodes sb) with 200 in Hi.
    pose proof (Z.div_pos i 16). lia.
  - intros m j Hm Hj. rewrite HB by done. pose proof (IBLOCK_meta j Hj). lia.
Qed.

Lemma home_data n : nmeta <= n < FSSIZE -> home sb 2 n.
Proof.
  change nmeta with 46. change FSSIZE with 1000. intros Hn. split.
  - change (sb_size sb) with 1000. lia.
  - unfold in_log. change LOGSIZE with 30. lia.
  - intros m Hm. rewrite (BBLOCK_sb m Hm). lia.
  - intros j Hj. pose proof (IBLOCK_meta j Hj). lia.
Qed.

(** ** The image *)

(** Inode [n] as the kernel has it after iget and ilock. *)
Definition opened (V : Z -> blk) (n : Z) : inode := loaded V sb (Inode ROOTDEV n 1 0 0 0 0 0 0 []).

(** Byte [x] of the data, with zeroes after the end. *)
Definition byte_of (data : list Z) (x : Z) : Z := default 0 (data !! Z.to_nat x).

(** Inode [n] of type [t] has these bytes, in [size] bytes, and well-formed blocks. *)
Record holds_file (V : Z -> blk) (n t size : Z) (data : list Z) : Prop := {
  hf_type : i_type (opened V n) = t;
  hf_nlink : i_nlink (opened V n) = 1;
  hf_size : i_size (opened V n) = size;
  hf_inv : file_inv V sb 2 (opened V n);
  hf_bytes : forall x, 0 <= x < size -> file_byte V (opened V n) x = byte_of data x;
}.

Record image (V : Z -> blk) (fs : list image_file) : Prop := {
  im_sb : sb_of (V 1) = sb;
  im_log : V (sb_logstart sb) = zero_block;
  im_used : forall n, 0 <= n < sb_size sb -> used V sb n = (n <? space fs);
  im_root : holds_file V ROOTINO T_DIR (root_size (sizeof_dirent * (2 + Z.of_nat (length fs)))) (root_dir fs);
  im_file : forall i f, fs !! i = Some f ->
    holds_file V (Z.of_nat i + 2) T_FILE (Z.of_nat (length f.2)) f.2 /\ file_ok V (opened V (Z.of_nat i + 2));
  im_apart : forall m n s s', 1 <= m <= Z.of_nat (length fs) + 1 -> 1 <= n <= Z.of_nat (length fs) + 1 ->
    is_slot s -> is_slot s' -> slot V (opened V m) s <> 0 -> slot V (opened V m) s = slot V (opened V n) s' -> m = n /\ s = s';
  im_free : forall n, Z.of_nat (length fs) + 1 < n < sb_ninodes sb -> d_type (dinode_at V sb n) = 0;
  im_dir : sizeof_dirent * (2 + Z.of_nat (length fs)) mod BSIZE <> 0 -> file_ok V (opened V ROOTINO);
  im_hole : sizeof_dirent * (2 + Z.of_nat (length fs)) mod BSIZE = 0 ->
    fblock V (opened V ROOTINO) (sizeof_dirent * (2 + Z.of_nat (length fs)) / BSIZE) = 0;
  im_lens : block_lens V;
}.

Lemma slot_opened V n s : slot V (opened V n) s = slot V (on (d_addrs (dinode_at V sb n))) s.
Proof. reflexivity. Qed.

Lemma part_byte data x : 0 <= x -> part data (x / BSIZE) !!! Z.to_nat (x mod BSIZE) = byte_of data x.
Proof.
  change BSIZE with 1024. intros Hx. pose proof (Z.mod_pos_bound x 1024 ltac:(lia)). pose proof (Z.div_mod x 1024 ltac:(lia)).
  pose proof (Z.div_pos x 1024 Hx ltac:(lia)). apply list_lookup_total_correct. unfold part, byte_of. change BSIZE with 1024.
  rewrite lookup_take_lt by lia. destruct (decide (x < Z.of_nat (length data))) as [Hl|Hl].
  - rewrite lookup_app_l by (rewrite length_drop; lia). rewrite lookup_drop.
    replace (Z.to_nat (x / 1024 * 1024) + Z.to_nat (x mod 1024))%nat with (Z.to_nat x) by lia.
    destruct (lookup_lt_is_Some_2 data (Z.to_nat x) ltac:(lia)) as [b ->]. done.
  - rewrite lookup_app_r by (rewrite length_drop; lia). rewrite zero_block_lookup by (rewrite length_drop; lia).
    by rewrite lookup_ge_None_2 by lia.
Qed.

(** The final image: the root inode has its size rounded up, the bitmap is written. *)
Section Final.
Context (s0 : mkst) (fs : list image_file) (G : list entry).
Context (Hb : built s0 (contents fs) G) (Hfb : freeblock s0 = space fs) (Hn : (length fs <= 198)%nat).

Let size := root_size (sizeof_dirent * (2 + Z.of_nat (length fs))).
Let root := set_d_size size (dinode_at (view s0) sb 1).
Let s1 := put_inode 1 root s0.
Let s2 := Mkst (<[45 := mark (space fs) zero_block]> (img s1)) (freeinode s1) (freeblock s1).
Let V := view s2.

Lemma V_eq n : V n = fupd (view s1) 45 (mark (space fs) zero_block) n.
Proof. unfold V, s2. by rewrite view_wsect. Qed.

Lemma root_entry : exists e, G !! 0%nat = Some e /\ e_type e = T_DIR /\ e_data e = root_dir fs.
Proof.
  pose proof (bt_list _ _ _ Hb) as HL. destruct G as [|e G']; [done|]. injection HL as H1 H2 _. by exists e.
Qed.
Lemma root_dinode : dinode_at (view s0) sb 1 =
  Dinode T_DIR 0 0 1 (sizeof_dirent * (2 + Z.of_nat (length fs))) (d_addrs (dinode_at (view s0) sb 1)).
Proof.
  destruct root_entry as (e & He & E1 & E2). pose proof (bt_din _ _ _ Hb 0%nat e He) as Hd. change (Z.of_nat 0 + 1) with 1 in Hd.
  rewrite Hd. cbn [d_addrs]. rewrite E1, E2, length_root_dir. f_equal. change sizeof_dirent with 16. lia.
Qed.
Lemma size_eq : size = (sizeof_dirent * (2 + Z.of_nat (length fs)) / 1024 + 1) * 1024 /\ size <= 4096.
Proof.
  unfold size, root_size. change sizeof_dirent with 16. change BSIZE with 1024.
  pose proof (Z.div_lt_upper_bound (16 * (2 + Z.of_nat (length fs))) 1024 4 ltac:(lia) ltac:(lia)).
  pose proof (Z.div_pos (16 * (2 + Z.of_nat (length fs))) 1024 ltac:(lia) ltac:(lia)).
  rewrite u32_id by lia. lia.
Qed.
Lemma root_ok : dinode_ok root.
Proof.
  destruct root_entry as (e & He & E1 & E2). pose proof (entry_dinode _ _ _ _ _ Hb He) as [D1 D2 D3 D4 D5 D6 D7].
  pose proof (bt_din _ _ _ Hb 0%nat e He) as Hd. change (Z.of_nat 0 + 1) with 1 in Hd. pose proof size_eq.
  unfold root, set_d_size. rewrite Hd. assert (0 <= size) by (unfold size, root_size; apply u32_range).
  split; cbn [d_type d_major d_minor d_nlink d_size d_addrs] in *; done || lia.
Qed.

Lemma V_lens : block_lens V.
Proof.
  intros n. rewrite V_eq. revert n. apply block_lens_fupd; [|apply mark_spec; [apply length_zero_block|]].
  - apply put_inode_lens; [apply root_ok|]. apply (ow_lens _ _ _ (wk_own _ _ (bt_work _ _ _ Hb))).
  - pose proof (wk_fb _ _ (bt_work _ _ _ Hb)) as H. rewrite Hfb in H. change FSSIZE with 1000 in H. change nmeta with 46 in H.
    change BPB with 8192. lia.
Qed.
Lemma V_data m : m < 32 \/ 46 <= m -> V m = view s0 m.
Proof. intros Hm. rewrite V_eq, fupd_ne by lia. unfold s1. apply put_inode_other; [done|lia]. Qed.
Lemma V_dinode n : 0 <= n < NINODES -> dinode_at V sb n = if decide (n = 1) then root else dinode_at (view s0) sb n.
Proof.
  intros H. transitivity (dinode_at (view s1) sb n).
  - apply dinode_at_ext. rewrite V_eq. apply fupd_ne. pose proof (IBLOCK_meta n H). lia.
  - unfold s1. apply put_inode_at; [done|apply root_ok|apply (ow_lens _ _ _ (wk_own _ _ (bt_work _ _ _ Hb)))|lia].
Qed.

Lemma G_length : length G = S (length fs).
Proof. pose proof (f_equal length (bt_list _ _ _ Hb)) as H. rewrite length_fmap in H. rewrite H. cbn. by rewrite length_fmap. Qed.
Lemma entry_inum i e : G !! i = Some e -> 0 <= Z.of_nat i + 1 < NINODES.
Proof. intros H%lookup_lt_Some. rewrite G_length in H. change NINODES with 200. lia. Qed.
Lemma space_range : 46 <= space fs <= 1000.
Proof. pose proof (wk_fb _ _ (bt_work _ _ _ Hb)) as H. rewrite Hfb in H. exact H. Qed.

Lemma V_owned : owned V (space fs) G.
Proof.
  apply (owned_agree (view s0)); [rewrite <- Hfb; apply (wk_own _ _ (bt_work _ _ _ Hb))|apply V_lens| |apply space_range].
  intros n Hnn. apply V_data. change nmeta with 46 in Hnn. lia.
Qed.

Lemma V_addrs i e : G !! i = Some e -> d_addrs (dinode_at V sb (Z.of_nat i + 1)) = e_addrs e.
Proof.
  intros Hi. pose proof (bt_din _ _ _ Hb i e Hi) as Hd. rewrite V_dinode by (by apply (entry_inum i e)). case_decide as E.
  - unfold root, set_d_size. cbn [d_addrs]. rewrite <- E, Hd. done.
  - by rewrite Hd.
Qed.
Lemma V_slot i e s : G !! i = Some e -> slot V (opened V (Z.of_nat i + 1)) s = slot V (on (e_addrs e)) s.
Proof. intros Hi. rewrite slot_opened. by rewrite (V_addrs i e Hi). Qed.

Lemma V_used n : 0 <= n < sb_size sb -> used V sb n = (n <? space fs).
Proof.
  intros Hr. unfold used. rewrite (BBLOCK_sb n Hr). rewrite V_eq, fupd_eq. pose proof space_range. change (sb_size sb) with 1000 in Hr.
  rewrite Z.mod_small by (change BPB with 8192; lia).
  destruct (mark_spec zero_block (space fs) length_zero_block ltac:(change BPB with 8192; lia)) as [_ Hm].
  rewrite Hm, bit_zero by (change BPB with 8192; lia). done.
Qed.
Lemma V_meta : meta_used V sb 2.
Proof. intros n Hr. rewrite V_used by done. intros H%Z.ltb_ge. apply home_data. pose proof space_range. change nmeta with 46. split; [lia|apply Hr]. Qed.

Lemma V_inv i e : G !! i = Some e -> file_inv V sb 2 (opened V (Z.of_nat i + 1)).
Proof.
  intros Hi. pose proof V_owned as Ho. pose proof space_range. split; [split|apply V_meta|apply V_lens].
  - done.
  - change (i_addrs (opened V (Z.of_nat i + 1))) with (d_addrs (dinode_at V sb (Z.of_nat i + 1))). rewrite (V_addrs i e Hi).
    apply (rp_len _ _ (ow_rep _ _ _ Ho i e Hi)).
  - intros s Hs. rewrite (V_slot i e s Hi). destruct (decide (slot V (on (e_addrs e)) s = 0)) as [|Hz]; [by left|right].
    pose proof (ow_range _ _ _ Ho i e s Hi Hs Hz) as Hr. change nmeta with 46 in Hr.
    split; [apply home_data; change nmeta with 46; change FSSIZE with 1000; lia|].
    rewrite V_used by (change (sb_size sb) with 1000; lia). apply Z.ltb_lt. lia.
  - intros s s' Hs Hs'. rewrite !(V_slot i e _ Hi). intros E Hz. by destruct (ow_inj _ _ _ Ho i e s i e s' Hi Hi Hs Hs' Hz E).
Qed.

Lemma V_bytes i e x : G !! i = Some e -> 0 <= x < MAXFILE * BSIZE ->
  file_byte V (opened V (Z.of_nat i + 1)) x = byte_of (e_data e) x.
Proof.
  intros Hi Hx. pose proof V_owned as Ho. set (bn := x / BSIZE).
  assert (Hbn : 0 <= bn < MAXFILE).
  { unfold bn. split; [apply Z.div_pos; [lia|done]|apply Z.div_lt_upper_bound; [done|lia]]. }
  assert (Hs : is_slot bn) by (unfold is_slot; lia).
  unfold file_byte. fold bn. rewrite <- slot_block by lia. rewrite (V_slot i e bn Hi).
  destruct (ow_rep _ _ _ Ho i e Hi) as [_ R2 R3]. destruct (e_slots e bn) eqn:Ef.
  - rewrite R3 by done. apply part_byte. lia.
  - assert (Hz : slot V (on (e_addrs e)) bn = 0).
    { destruct (decide (slot V (on (e_addrs e)) bn = 0)) as [|Hne]; [done|]. apply R2 in Hne; [|done]. congruence. }
    rewrite Hz, V_data by lia.
    rewrite (bt_slots _ _ _ Hb i e bn Hi Hs) in Ef. unfold need in Ef. rewrite (proj2 (Z.eqb_neq bn MAXFILE)) in Ef by lia.
    apply Z.ltb_ge in Ef. rewrite <- (part_byte (e_data e)) by lia. fold bn. rewrite part_end by done.
    by rewrite (bt_boot _ _ _ Hb).
Qed.

Lemma file_entry i f : fs !! i = Some f -> exists e, G !! S i = Some e /\ e_type e = T_FILE /\ e_data e = f.2.
Proof.
  intros Hi. assert (Hc : contents fs !! S i = Some (T_FILE, f.2)).
  { change (contents fs !! S i) with (((fun f : image_file => (T_FILE, f.2)) <$> fs) !! i). by rewrite list_lookup_fmap, Hi. }
  rewrite <- (bt_list _ _ _ Hb), list_lookup_fmap in Hc. apply fmap_Some in Hc as (e & He & [= H1 H2]). by exists e.
Qed.

(** Every block that holds bytes of a file is allocated. *)
Lemma V_block i e k : G !! i = Some e -> is_slot k -> need (Z.of_nat (length (e_data e))) k = true ->
  0 < slot V (on (e_addrs e)) k < 2 ^ 31.
Proof.
  intros Hi Hk Hnd. pose proof V_owned as Ho. pose proof space_range as Hsp.
  rewrite <- (bt_slots _ _ _ Hb i e k Hi Hk) in Hnd.
  apply (rp_slot _ _ (ow_rep _ _ _ Ho i e Hi) k Hk) in Hnd. pose proof (ow_range _ _ _ Ho i e k Hi Hk Hnd) as Hr.
  change nmeta with 46 in Hr. lia.
Qed.

Lemma V_file i e : G !! i = Some e -> i <> 0%nat ->
  holds_file V (Z.of_nat i + 1) (e_type e) (Z.of_nat (length (e_data e))) (e_data e) /\ file_ok V (opened V (Z.of_nat i + 1)).
Proof.
  intros Hi Hne. pose proof (entry_inum i e Hi) as Hin. pose proof (bt_din _ _ _ Hb i e Hi) as Hd. pose proof (bt_max _ _ _ Hb i e Hi) as Hm.
  assert (HdV : dinode_at V sb (Z.of_nat i + 1) = Dinode (e_type e) 0 0 1 (Z.of_nat (length (e_data e))) (e_addrs e)).
  { rewrite V_dinode, decide_False by lia. done. }
  assert (Hop : opened V (Z.of_nat i + 1) =
    Inode ROOTDEV (Z.of_nat i + 1) 1 1 (e_type e) 0 0 1 (Z.of_nat (length (e_data e))) (e_addrs e)).
  { unfold opened, loaded. cbn [i_valid i_inum]. by rewrite HdV. }
  split.
  - split; [by rewrite Hop..|by apply (V_inv i e)|]. intros x Hx. apply V_bytes; [done|lia].
  - pose proof (V_block i e) as Hblk.
    change (MAXFILE * BSIZE) with 274432 in Hm.
    split; rewrite Hop; cbn [i_dev i_size i_addrs]; [done|change (MAXFILE * BSIZE) with 274432; lia| |].
    + change BSIZE with 1024. intros bn H1 H2. assert (bn < MAXFILE) by (change MAXFILE with 268; lia).
      change (fblock V (Inode ROOTDEV (Z.of_nat i + 1) 1 1 (e_type e) 0 0 1 (Z.of_nat (length (e_data e))) (e_addrs e)) bn) with (fblock V (on (e_addrs e)) bn).
      rewrite <- slot_block by done. apply Hblk; [done|split; lia|]. unfold need. rewrite (proj2 (Z.eqb_neq bn MAXFILE)) by lia. by apply Z.ltb_lt.
    + intros H1. rewrite <- slot_max with (V := V). apply Hblk; [done|apply max_slot|]. unfold need. rewrite Z.eqb_refl. by apply Z.ltb_lt.
Qed.

(** The root directory is rounded up to whole blocks, and always by something: its
    last block exists unless the entries fill their blocks exactly. *)
Lemma V_root_ok : sizeof_dirent * (2 + Z.of_nat (length fs)) mod BSIZE <> 0 -> file_ok V (opened V ROOTINO).
Proof.
  intros Hm. destruct root_entry as (e & He & _ & Hd). pose proof size_eq as [Hsz Hmax].
  assert (Hsize : i_size (opened V ROOTINO) = size).
  { unfold opened, loaded. cbn [i_valid i_inum Z.eqb]. change ROOTINO with 1. rewrite V_dinode, decide_True by done. done. }
  assert (Haddr : forall bn, bn < MAXFILE -> fblock V (opened V ROOTINO) bn = slot V (on (e_addrs e)) bn).
  { intros bn Hbn. rewrite <- slot_block by done. exact (V_slot 0%nat e bn He). }
  set (len := sizeof_dirent * (2 + Z.of_nat (length fs))) in *. change BSIZE with 1024 in Hm.
  assert (Hlen : Z.of_nat (length (e_data e)) = len) by (rewrite Hd, length_root_dir; subst len; change sizeof_dirent with 16; lia).
  pose proof (Z.div_mod len 1024 ltac:(lia)). pose proof (Z.mod_pos_bound len 1024 ltac:(lia)).
  assert (0 <= len / 1024) by (apply Z.div_pos; [subst len; change sizeof_dirent with 16|]; lia).
  split; rewrite ?Hsize; [done|change (MAXFILE * BSIZE) with 274432; lia| |].
  - change BSIZE with 1024. intros bn B1 B2. assert (bn < MAXFILE) by (change MAXFILE with 268; lia).
    rewrite Haddr by done. apply (V_block 0%nat e bn He); [split; lia|]. unfold need.
    rewrite (proj2 (Z.eqb_neq bn MAXFILE)) by lia. rewrite Hlen. change BSIZE with 1024. apply Z.ltb_lt. lia.
  - change (NDIRECT * BSIZE) with 12288. lia.
Qed.

(** When they do, the root directory ends in a block that was never allocated. *)
Lemma V_root_hole : sizeof_dirent * (2 + Z.of_nat (length fs)) mod BSIZE = 0 ->
  fblock V (opened V ROOTINO) (sizeof_dirent * (2 + Z.of_nat (length fs)) / BSIZE) = 0.
Proof.
  intros Hm. destruct root_entry as (e & He & _ & Hd). set (len := sizeof_dirent * (2 + Z.of_nat (length fs))) in *.
  change BSIZE with 1024 in *.
  assert (Hlen : Z.of_nat (length (e_data e)) = len) by (rewrite Hd, length_root_dir; subst len; change sizeof_dirent with 16; lia).
  assert (Hr : 0 <= len / 1024 < MAXFILE).
  { pose proof (Z.div_mod len 1024 ltac:(lia)). change MAXFILE with 268. subst len. change sizeof_dirent with 16 in *. lia. }
  rewrite <- slot_block by lia. change ROOTINO with (Z.of_nat 0 + 1). rewrite (V_slot 0%nat e _ He).
  assert (Hs : is_slot (len / 1024)) by (split; lia).
  destruct (decide (slot V (on (e_addrs e)) (len / 1024) = 0)) as [|Hz]; [done|]. exfalso.
  apply (rp_slot _ _ (ow_rep _ _ _ V_owned 0%nat e He) _ Hs) in Hz.
  rewrite (bt_slots _ _ _ Hb 0%nat e _ He Hs), Hlen in Hz. unfold need in Hz. rewrite (proj2 (Z.eqb_neq _ MAXFILE)) in Hz by lia.
  change BSIZE with 1024 in Hz. apply Z.ltb_lt in Hz. pose proof (Z.div_mod len 1024 ltac:(lia)). lia.
Qed.

Lemma V_image : image V fs.
Proof.
  destruct root_entry as (e0 & He0 & _ & Hd0). pose proof size_eq as [_ Hsz].
  assert (Hroot : opened V 1 = Inode ROOTDEV 1 1 1 T_DIR 0 0 1 size (d_addrs (dinode_at (view s0) sb 1))).
  { unfold opened, loaded. cbn [i_valid i_inum]. rewrite V_dinode, decide_True by done. unfold root. by rewrite root_dinode. }
  split.
  - rewrite V_data by lia. apply (bt_sb _ _ _ Hb).
  - change (sb_logstart sb) with 2. rewrite V_data by lia. apply (bt_log _ _ _ Hb).
  - apply V_used.
  - change ROOTINO with 1. fold size. split; [by rewrite Hroot..|by apply (V_inv 0%nat e0)|].
    intros x Hx. rewrite <- Hd0. apply (V_bytes 0%nat e0); [done|]. change (MAXFILE * BSIZE) with 274432. lia.
  - intros i f Hf. destruct (file_entry i f Hf) as (e & He & Ht & Hd). rewrite <- Hd, <- Ht.
    replace (Z.of_nat i + 2) with (Z.of_nat (S i) + 1) by lia. by apply V_file.
  - intros m n s s' Hm Hnn Hs Hs' Hz E.
    destruct (lookup_lt_is_Some_2 G (Z.to_nat (m - 1)) ltac:(rewrite G_length; lia)) as [e He].
    destruct (lookup_lt_is_Some_2 G (Z.to_nat (n - 1)) ltac:(rewrite G_length; lia)) as [e' He'].
    replace m with (Z.of_nat (Z.to_nat (m - 1)) + 1) in Hz, E by lia. replace n with (Z.of_nat (Z.to_nat (n - 1)) + 1) in E by lia.
    rewrite (V_slot _ _ _ He) in Hz, E. rewrite (V_slot _ _ _ He') in E.
    destruct (ow_inj _ _ _ V_owned _ _ _ _ _ _ He He' Hs Hs' Hz E). split; [lia|done].
  - intros n Hnn. change (sb_ninodes sb) with 200 in Hnn. rewrite V_dinode by (change NINODES with 200; lia). rewrite decide_False by lia.
    apply (bt_free _ _ _ Hb). cbn [contents length]. rewrite length_fmap. change NINODES with 200. lia.
  - apply V_root_ok.
  - apply V_root_hole.
  - apply V_lens.
Qed.

Lemma finish_ok : exists s', (din ← rinode 1;
    let off := root_size (xint (d_size din)) in
    winode 1 (set_d_size (xint off) din) ;;
    used ← get_freeblock;
    Mkfs.balloc used) s0 = Ok ((), s') /\ image (view s') fs.
Proof.
  pose proof (wk_full _ _ (bt_work _ _ _ Hb)) as Hfull. pose proof space_range as Hsp. pose proof size_eq as [_ Hsz].
  assert (Hs0 : 0 <= size) by (unfold size, root_size; apply u32_range).
  assert (Hd : d_size (dinode_at (view s0) sb 1) = sizeof_dirent * (2 + Z.of_nat (length fs))) by (by rewrite root_dinode).
  exists s2. split; [|apply V_image].
  kdo (rinode_ok s0 1 Hfull ltac:(done)). cbv zeta. rewrite Hd, (xint_id (sizeof_dirent * _)) by (change sizeof_dirent with 16; lia).
  fold size. rewrite xint_id by lia. fold root. kdo (winode_ok s0 1 root Hfull ltac:(done)). fold s1.
  assert (E : get_freeblock s1 = Ok (space fs, s1)) by (unfold get_freeblock; change (freeblock s1) with (freeblock s0); by rewrite Hfb).
  kdo E. unfold Mkfs.balloc. change (BSIZE * 8) with 8192. rewrite (proj2 (Z.ltb_lt (space fs) 8192)) by lia. done.
Qed.
End Final.

(** ** The root directory *)

Definition named (n : Z) (name : list Z) : dirent := Dirent n (strncpy_l (Z.to_nat DIRSIZ) name).
Definition root_entries (fs : list image_file) : list dirent :=
  named 1 [46] :: named 1 [46; 46] :: imap (fun i f => named (Z.of_nat i + 2) f.1) fs.
Definition unused : dirent := Dirent 0 (repeat 0 14).

Lemma rows_lookup (rows : list (list Z)) j k : Forall (fun r => length r = 16%nat) rows -> (k < 16)%nat ->
  concat rows !! (16 * j + k)%nat = rows !! j ≫= fun r => r !! k.
Proof.
  intros H Hk. revert j. induction H as [|r rows Hr H IH]; intros j; [done|]. cbn [concat].
  destruct j as [|j]; [rewrite Nat.mul_0_r, lookup_app_l by lia; done|].
  rewrite lookup_app_r by lia. rewrite Hr. replace (16 * S j + k - 16)%nat with (16 * j + k)%nat by lia. apply IH.
Qed.

Lemma root_dir_rows fs : root_dir fs = concat ((fun de => dirent_for (de_inum de) (de_name de)) <$> root_entries fs).
Proof.
  unfold root_dir, root_entries. cbn [fmap list_fmap concat]. do 2 f_equal. f_equal. rewrite fmap_imap. done.
Qed.
Lemma root_entries_length fs : length (root_entries fs) = (2 + length fs)%nat.
Proof. cbn. by rewrite length_imap. Qed.
Lemma root_entries_ok fs de : (length fs <= 198)%nat -> de ∈ root_entries fs -> 0 <= de_inum de < 2 ^ 16 /\
  length (de_name de) = 14%nat /\ length (dirent_for (de_inum de) (de_name de)) = 16%nat.
Proof.
  intros Hn [j Hj]%list_elem_of_lookup. assert (exists n name, de = named n name /\ 0 <= n < 2 ^ 16) as (n & name & -> & Hr).
  { destruct j as [|[|j]]; [by injection Hj as <-; eexists _, _|by injection Hj as <-; eexists _, _|].
    change (root_entries fs !! S (S j)) with (imap (fun i (f : image_file) => named (Z.of_nat i + 2) f.1) fs !! j) in Hj.
    rewrite list_lookup_imap in Hj. apply fmap_Some in Hj as (f & Hf%lookup_lt_Some & ->). eexists _, _. split; [done|]. lia. }
  split; [done|]. split; [|apply length_dirent_for]. cbn [named de_name]. unfold strncpy_l.
  rewrite length_take, length_app, repeat_length. change (Z.to_nat DIRSIZ) with 14%nat. lia.
Qed.

Lemma dirent_of_for de : 0 <= de_inum de < 2 ^ 16 -> length (de_name de) = 14%nat ->
  dirent_of (dirent_for (de_inum de) (de_name de)) = de.
Proof. intros H1 H2. unfold dirent_for. rewrite xshort_id by done. destruct de. by apply dirent_of_bytes. Qed.

Lemma directory_ok V fs : image V fs -> (length fs <= 198)%nat -> exists k,
  dir_entries V (opened V ROOTINO) = root_entries fs ++ repeat unused k.
Proof.
  intros [_ _ _ [_ _ Hsz _ Hbytes] _ _ _ _ _ _] Hn. set (size := root_size _) in *.
  assert (Hsize : 16 * (2 + Z.of_nat (length fs)) <= size /\ size = 16 * (size / 16)).
  { unfold size, root_size. change sizeof_dirent with 16. change BSIZE with 1024. set (len := 16 * (2 + Z.of_nat (length fs))).
    pose proof (Z.div_mod len 1024 ltac:(lia)). pose proof (Z.mod_pos_bound len 1024 ltac:(lia)).
    rewrite u32_id by (subst len; lia). split; [lia|]. replace ((len / 1024 + 1) * 1024) with ((len / 1024 + 1) * 64 * 16) by lia.
    rewrite Z.div_mul by lia. lia. }
  exists (Z.to_nat (size / 16 - (2 + Z.of_nat (length fs)))).
  assert (Hrows : Forall (fun r => length r = 16%nat) ((fun de => dirent_for (de_inum de) (de_name de)) <$> root_entries fs)).
  { apply Forall_fmap, Forall_forall. intros de Hde. apply (root_entries_ok fs de Hn Hde). }
  assert (Hrow : forall j row, (j < Z.to_nat (size / 16))%nat -> length row = 16%nat ->
    (forall k, (k < 16)%nat -> default 0 (root_dir fs !! (16 * j + k)%nat) = row !!! k) ->
    file_bytes V (opened V ROOTINO) (Z.of_nat j * 16) 16 = row).
  { intros j row Hj Hl Hk. apply list_eq_same_length with (n := 16%nat); [done|unfold file_bytes; by rewrite length_fmap|].
    intros k x y Hlt Hx Hy. unfold file_bytes in Hx. rewrite list_lookup_fmap, lookup_seqZ_lt in Hx by lia. injection Hx as <-.
    rewrite Hbytes by lia. apply list_lookup_total_correct in Hy as <-. rewrite <- Hk by done. unfold byte_of. do 2 f_equal. lia. }
  unfold dir_entries. rewrite Hsz. apply list_eq. intros j. rewrite list_lookup_fmap. change sizeof_dirent with 16.
  destruct (decide (j < Z.to_nat (size / 16))%nat) as [Hj|Hj].
  - rewrite lookup_seqZ_lt by lia. cbn [fmap option_fmap option_map]. unfold dir_entry. change sizeof_dirent with 16. rewrite Z.add_0_l.
    destruct (decide (j < 2 + length fs)%nat) as [Hlt|Hge].
    + rewrite lookup_app_l by (by rewrite root_entries_length).
      destruct (lookup_lt_is_Some_2 (root_entries fs) j ltac:(by rewrite root_entries_length)) as [de Hde]. rewrite Hde.
      destruct (root_entries_ok fs de Hn (list_elem_of_lookup_2 _ _ _ Hde)) as (R1 & R2 & R3).
      rewrite (Hrow j (dirent_for (de_inum de) (de_name de)) Hj R3); [by rewrite dirent_of_for|].
      intros k Hk. rewrite root_dir_rows, rows_lookup by done. rewrite list_lookup_fmap, Hde. cbn [fmap option_fmap option_map mbind option_bind].
      rewrite list_lookup_total_alt. destruct (lookup_lt_is_Some_2 (dirent_for (de_inum de) (de_name de)) k ltac:(lia)) as [b ->]. done.
    + rewrite lookup_app_r by (rewrite root_entries_length; lia). rewrite root_entries_length.
      rewrite lookup_repeat by lia. rewrite (Hrow j (repeat 0 16) Hj); [done|done|].
      intros k Hk. rewrite lookup_ge_None_2 by (rewrite length_root_dir; lia). symmetry.
      apply list_lookup_total_correct, lookup_repeat. done.
  - rewrite lookup_ge_None_2 by (rewrite length_seqZ; lia). rewrite lookup_ge_None_2; [done|].
    rewrite length_app, root_entries_length, repeat_length. lia.
Qed.

(** ** mkfs *)

Lemma mkfs_ok files : Forall acceptable files -> (length files <= 198)%nat -> space (file_of <$> files) <= FSSIZE ->
  exists s k, mkfs files = Ok ((), s) /\ disk_ok sb 2 /\ image (view s) (file_of <$> files) /\
    dir_entries (view s) (opened (view s) ROOTINO) = root_entries (file_of <$> files) ++ repeat unused k.
Proof.
  intros Ha Hn Hsp. destruct start_ok as (s1 & E1 & B1 & F1). apply bind_inv in E1 as ([] & s1' & Ez & Ew).
  destruct (ialloc_ok s1 [] [] T_DIR B1 ltac:(done) ltac:(cbn; lia)) as (s2 & G2 & E2 & B2 & F2).
  set (dot := dirent_for 1 (strncpy_l (Z.to_nat DIRSIZ) [46])). set (dotdot := dirent_for 1 (strncpy_l (Z.to_nat DIRSIZ) [46; 46])).
  destruct (iappend_ok s2 _ G2 0 T_DIR [] dot B2) as (s3 & G3 & E3 & B3 & F3); [done|cbn; lia|done|by rewrite F2, F1|].
  destruct (iappend_ok s3 _ G3 0 T_DIR dot dotdot B3) as (s4 & G4 & E4 & B4 & F4); [done|cbn; lia|done|by rewrite F3, F2, F1|].
  assert (F4' : freeblock s4 = space []) by (by rewrite F4, F3, F2, F1).
  destruct (add_files_ok files s4 [] G4 B4 F4' Ha ltac:(cbn; lia) Hsp) as (s5 & G5 & E5 & B5 & F5). cbn [app] in B5, F5.
  destruct (finish_ok s5 _ G5 B5 F5 ltac:(by rewrite length_fmap)) as (s6 & E6 & Him).
  destruct (directory_ok _ _ Him ltac:(by rewrite length_fmap)) as [k Hk].
  exists s6, k. split_and!; [|apply mkfs_disk_ok|done|done].
  unfold mkfs, main. kdo Ez. kdo Ew. kdo E2. change (negb (Z.of_nat (length (@nil (Z * list Z))) + 1 =? ROOTINO)) with false. cbv iota.
  change (Z.of_nat (length (@nil (Z * list Z))) + 1) with 1. fold dot dotdot. change (Z.of_nat 0 + 1) with 1 in *.
  kdo E3. kdo E4. kdo E5. exact E6.
Qed.

(** C24: Given at most 198 files with names that have no slash, none larger than a file
    can be, that together fit the disk, mkfs succeeds, and the image has the layout
    that the kernel expects: the superblock, an empty log, a bitmap in which exactly the
    blocks handed out are marked, no block in two places, every file with its
    contents under the next inode number, and a root directory with the entries of
    the files and unused ones after them. *)
Theorem mkfs_correct files : Forall acceptable files -> (length files <= 198)%nat -> space (file_of <$> files) <= FSSIZE ->
  exists s k, mkfs files = Ok ((), s) /\ disk_ok sb 2 /\ image (view s) (file_of <$> files) /\
    dir_entries (view s) (opened (view s) ROOTINO) = root_entries (file_of <$> files) ++ repeat unused k.
Proof. apply mkfs_ok. Qed.

(** user/_cat of three bytes, read in two parts, and an empty README. *)
Definition two_files : list (list Z * option (list (list Z))) :=
  [([117; 115; 101; 114; 47; 95; 99; 97; 116], Some [[1; 2]; [3]]); ([82; 69], Some [])].

Lemma two_files_ok : Forall acceptable two_files.
Proof.
  apply Forall_cons; split; [|apply Forall_cons; split; [|apply Forall_nil; done]].
  all: split_and!; [apply (bool_decide_eq_true_1 (47 ∉ _)); vm_compute; done|by eexists|by vm_compute].
Qed.
Lemma mkfs_correct_witness : exists s k, mkfs two_files = Ok ((), s) /\ disk_ok sb 2 /\
  image (view s) [([99; 97; 116], [1; 2; 3]); ([82; 69], [])] /\
  dir_entries (view s) (opened (view s) ROOTINO) =
    [named 1 [46]; named 1 [46; 46]; named 2 [99; 97; 116]; named 3 [82; 69]] ++ repeat unused k.
Proof.
  apply (mkfs_correct two_files); [apply two_files_ok|cbn; lia|by vm_compute].
Defined.

(** With more than 206 files the inodes run into the bitmap: ialloc() does not compare
    with NINODES. *)
Example inodes_meet_bitmap : IBLOCK 208 sb = sb_bmapstart sb.
Proof. reflexivity. Qed.
