(* ===== verification/MkfsBoot.v ===== *)
(** * From the image builder to the kernel

    mkfs and the file system of the kernel meet on the disk: a kernel that runs on an
    image finds every file by its name and reads its contents; and where mkfs rounds
    the size of a full root directory up, reading the directory stops the kernel. *)
From stdpp Require Import prelude gmap strings.
From Stdlib Require Import ZArith Lia.
From S2P Require Import Prelude Memory CString Spinlock Riscv Kalloc Vm Uaccess Proc Bytes State Sleeplock Copy Console Bio BioView BioClient Log Fs.
From S2P Require Import LogSpec LogOps FsTx FsAlloc FsInode Icache FsFile FsBmap FsWrite FsPath FsNamex LogCrash Mkfs MkfsSpec MkfsImage MkfsFinal.
Import Mkfs.
Open Scope Z_scope.

(** ** Names in the root directory *)

Lemma dname_named n name : dname (de_name (named n name)) = dname name.
Proof. apply dname_strncpy. lia. Qed.

(** The names of the directory, as the kernel compares them, are all different. *)
Definition distinct_names (fs : list image_file) : Prop :=
  NoDup (dname [46] :: dname [46; 46] :: ((fun f : image_file => dname f.1) <$> fs)).

Lemma root_file_entry fs j : root_entries fs !! S (S j) = (fun f : image_file => named (Z.of_nat j + 2) f.1) <$> fs !! j.
Proof.
  change (root_entries fs !! S (S j)) with (imap (fun i (f : image_file) => named (Z.of_nat i + 2) f.1) fs !! j).
  apply list_lookup_imap.
Qed.

Lemma file_name (fs : list image_file) a b j :
  (a :: b :: ((fun f : image_file => dname f.1) <$> fs)) !! S (S j) = (fun f : image_file => dname f.1) <$> fs !! j.
Proof.
  change ((a :: b :: ((fun f : image_file => dname f.1) <$> fs)) !! S (S j)) with (((fun f : image_file => dname f.1) <$> fs) !! j).
  apply list_lookup_fmap.
Qed.

Lemma root_names fs k j de : (root_entries fs ++ repeat unused k) !! j = Some de -> de_inum de <> 0 ->
  (dname [46] :: dname [46; 46] :: ((fun f : image_file => dname f.1) <$> fs)) !! j = Some (dname (de_name de)).
Proof.
  intros Hj Hn. apply lookup_app_Some in Hj as [Hj|[_ Hj]].
  - destruct j as [|[|j]]; [by injection Hj as <-|by injection Hj as <-|].
    rewrite root_file_entry in Hj. apply fmap_Some in Hj as (f & Hf & ->). by rewrite dname_named, file_name, Hf.
  - apply list_elem_of_lookup_2 in Hj. apply list_elem_of_In, repeat_spec in Hj as ->. done.
Qed.

Lemma root_find fs k i f : distinct_names fs -> fs !! i = Some f ->
  list_find (names f.1) (root_entries fs ++ repeat unused k) = Some (S (S i), named (Z.of_nat i + 2) f.1).
Proof.
  intros Hd Hi. apply list_find_Some. split_and!.
  - rewrite lookup_app_l by (rewrite root_entries_length; apply lookup_lt_Some in Hi; lia).
    by rewrite root_file_entry, Hi.
  - split; [cbn; lia|apply dname_named].
  - intros j de Hj Hlt [Hn E]. pose proof (root_names _ _ _ _ Hj Hn) as H1. rewrite E in H1.
    assert (H2 : (dname [46] :: dname [46; 46] :: ((fun f : image_file => dname f.1) <$> fs)) !! S (S i) = Some (dname f.1)).
    { by rewrite file_name, Hi. }
    pose proof (NoDup_lookup _ _ _ _ Hd H1 H2). lia.
Qed.

Lemma root_absent fs k name : dname name ∉ (dname [46] :: dname [46; 46] :: ((fun f : image_file => dname f.1) <$> fs)) ->
  list_find (names name) (root_entries fs ++ repeat unused k) = None.
Proof.
  intros Hn. apply list_find_None, Forall_forall. intros de [j Hj]%list_elem_of_lookup [H0 E].
  apply Hn. rewrite <- E. eapply list_elem_of_lookup_2. by eapply root_names.
Qed.

(** ** The kernel on the image *)

Lemma sb_inum n : 0 <= n <= 199 -> 0 <= n < sb_ninodes sb.
Proof. change (sb_ninodes sb) with 200. lia. Qed.
Lemma loaded_opened V ip n : i_dev ip = ROOTDEV -> i_inum ip = n -> i_ref ip = 1 -> i_valid ip = 0 ->
  loaded V sb ip = opened V n.
Proof. intros H1 H2 H3 H4. destruct ip as [d i r v t ma mi nl sz ad]. cbn in *. by subst. Qed.
Lemma opened_stands V n c i x : icache_ok c -> (i < ninode)%nat -> stands (Icache.put_inode i (opened V n) c) ROOTDEV x i <-> x = n.
Proof.
  intros Hc Hi. rewrite stands_put, decide_True by done. change (i_ref (opened V n)) with 1.
  change (i_dev (opened V n)) with ROOTDEV. change (i_inum (opened V n)) with n. split; [by intros (_ & _ & ->)|intros ->; split_and!; done || lia].
Qed.

(** open and read: the inode that the path leads to, locked, and [n] bytes from [off]. *)
Definition read_path {SC : Sched} {VD : VirtioDisk} (path : list Z) (off n : Z) : K kstate (option (Z * list Z)) :=
  ip ← namei path;
  match ip with
  | Some i => ilock (Some i) ;; x ← readi i D_object off n; mret (Some x)
  | None => mret None
  end.

(** A name that is one element of a path. *)
Definition plain (name : list Z) : Prop := name <> [] /\ 47 ∉ name /\ 0 ∉ name.
Lemma elems_root name : plain name -> elems (47 :: name) = [name].
Proof. intros (H1 & H2 & H3). rewrite elems_slash, <- (app_nil_r name), elems_span by (done || by left). by rewrite app_nil_r. Qed.
Lemma zero_root name : plain name -> 0 ∉ 47 :: name.
Proof. intros (_ & _ & H3). by apply not_elem_of_cons. Qed.

Section Kernel.
Context {SC : Sched} {VD : VirtioDisk} (Hwk : (0 < wakeups)%nat).
Context (V : Z -> blk) (d : disk) (cap : Z) (k : nat) (Hk : (1 <= k)%nat).
Implicit Types (w : world kstate).

(** The file system is mounted and no block is in use. *)
Record calm w : Prop := {
  cm_tx : tx w V d 2 cap [] [] k [];
  cm_sb : compc w = sb;
  cm_ic : icache_ok (compc w);
  cm_lock : lock_free L_icache w;
  cm_spin : forall i, (i < ninode)%nat -> lock_free (L_inode i) w;
}.

Lemma calm_quiet w : calm w -> quiet w.
Proof. intros C. apply (cs_quiet _ _ _ _ _ _ _ (tx_cs _ _ _ _ _ _ _ _ _ (cm_tx _ C))). Qed.
Lemma calm_keeps i w w' : calm w -> ikeeps i w w' -> tx w' V d 2 cap [] [] k [] -> icache_ok (compc w') -> calm w'.
Proof.
  intros [C1 C2 C3 C4 C5] [K1 K2 K3] T I. split; [done|by rewrite K2|done|by eapply kframe_lock_free|].
  intros j Hj. eapply kframe_lock_free; [done|by apply C5].
Qed.

(** A new reference to inode [n], then its lock: the entry is the inode on disk. *)
Lemma lock_new w i n : calm w -> (i < ninode)%nat -> stands (compc w) ROOTDEV n i -> i_ref (inodes (compc w) !!! i) = 1 ->
  i_valid (inodes (compc w) !!! i) = 0 -> sl_locked (compc (T := sltab) w !!! L_inode i) = 0 -> 0 <= n <= 199 ->
  i_type (opened V n) <> 0 ->
  exists w', ilock (Some i) w = Ok ((), w') /\ calm w' /\ holds_inode w' i /\ ikeeps i w w' /\
    compc w' = Icache.put_inode i (opened V n) (compc w).
Proof.
  intros C Hi Hst Hrf Hv Hu Hn Ht. pose proof (cm_ic _ C) as Hic. pose proof Hst as (S1 & S2 & S3).
  pose proof (ilock_correct w V d 2 cap [] k sb i _ Hwk (cm_tx _ C) (cm_sb _ C) (do_in _ _ mkfs_disk_ok) eq_refl
    ltac:(rewrite (ic_len _ Hic); done) S2 ltac:(rewrite S3; by apply sb_inum) ltac:(split; [by apply (cm_spin _ C)|done]) Hk) as P.
  rewrite Hrf, S3 in P. change (d_type (dinode_at V sb n)) with (i_type (opened V n)) in P.
  rewrite (proj2 (Z.eqb_neq _ _) Ht), andb_false_r in P. cbn [Z.ltb Z.compare Pos.compare Pos.compare_cont] in P.
  destruct P as (w' & E & T' & H' & I & K). exists w'.
  assert (I' : compc w' = Icache.put_inode i (opened V n) (compc w)).
  { rewrite (loaded_opened V _ n) in I by done. unfold Icache.put_inode. rewrite <- I. by destruct (compc w'). }
  split_and!; try done. eapply calm_keeps; try done. rewrite I'. apply put_inode_ok; [done|done|done|].
  intros _ j Hj Hs. by apply (ic_uniq _ Hic j i ROOTDEV n).
Qed.

(** The inode is unlocked and its reference dropped. *)
Lemma unlock_put w i n : calm w -> (i < ninode)%nat -> holds_inode w i -> inodes (compc w) !!! i = opened V n ->
  i_nlink (opened V n) <> 0 ->
  exists w', iunlockput i w = Ok ((), w') /\ calm w' /\ ikeeps i w w' /\
    compc w' = Icache.put_inode i (set_i_ref 0 (opened V n)) (compc w).
Proof.
  intros C Hi Hh He Hl. destruct (iunlock_ok w i) as (w1 & E1 & A1 & U1 & I1 & K1); [by apply calm_quiet|by apply (cm_spin _ C)|done|by rewrite He|].
  assert (C1 : calm w1).
  { eapply calm_keeps; [exact C|exact K1|by eapply tx_apart; [|apply C]|]. rewrite I1. apply C. }
  destruct (iput_ok w1 i) as (w2 & E2 & F2 & I2); [by apply q_cpu, calm_quiet|apply C1|apply C1|done|rewrite I1, He; tauto|].
  exists w2. unfold iunlockput. kdo E1. split; [done|]. rewrite I1, He in I2. change (i_ref (opened V n) - 1) with 0 in I2.
  assert (K2 : ikeeps i w1 w2) by by apply ikeeps_frame.
  split; [|split; [by etrans|done]]. eapply calm_keeps; [exact C1|exact K2|by eapply tx_apart; [by apply apart_frame|apply C1]|].
  rewrite I2. apply put_inode_ok; [apply C|done|done|]. cbn. lia.
Qed.

(** A kernel that has just mounted the file system: no inode is in memory. *)
Record booted w : Prop := {
  bo_calm : calm w;
  bo_ref : forall i, (i < ninode)%nat -> i_ref (inodes (compc w) !!! i) = 0;
  bo_sl : forall i, (i < ninode)%nat -> sl_locked (compc (T := sltab) w !!! L_inode i) = 0;
}.

Lemma root_locked w : booted w -> i_type (opened V ROOTINO) = T_DIR ->
  exists dp w1 w2, iget ROOTDEV ROOTINO w = Ok (dp, w1) /\ ilock (Some dp) w1 = Ok ((), w2) /\
    calm w2 /\ (dp < ninode)%nat /\ holds_inode w2 dp /\ inodes (compc w2) !!! dp = opened V ROOTINO /\
    forall i, (i < ninode)%nat -> i <> dp -> i_ref (inodes (compc w2) !!! i) = 0 /\ sl_locked (compc (T := sltab) w2 !!! L_inode i) = 0.
Proof.
  intros [C R U] Ht. destruct (iget_correct w ROOTDEV ROOTINO) as [P|(_ & _ & P)]; [by apply q_cpu, calm_quiet|apply C|apply C| |].
  2:{ exfalso. apply (P 0%nat); [|apply R]; unfold ninode, NINODE; lia. }
  destruct P as (dp & w1 & E1 & F1 & Hdp & Hic1 & Hst1 & Hrf1 & Hoth & Hnew). pose proof Hst1 as (P1 & _).
  destruct Hnew as [[_ (Hs & _)]|(Hv & Hz & _)]; [rewrite R in Hs by done; lia|].
  assert (C1 : calm w1).
  { eapply (calm_keeps dp); [exact C|by apply ikeeps_frame| |done]. eapply tx_apart; [by apply apart_frame|apply C]. }
  assert (Hr : i_ref (inodes (compc w1) !!! dp) = 1).
  { rewrite <- (irefs_stands _ _ _ dp Hic1 Hdp Hst1), Hrf1, Hz, decide_True by done. done. }
  assert (U1 : forall i, (i < ninode)%nat -> sl_locked (compc (T := sltab) w1 !!! L_inode i) = 0).
  { intros i Hi. rewrite (ik_sl _ _ _ (ikeeps_frame ninode _ _ F1)) by lia. by apply U. }
  destruct (lock_new w1 dp ROOTINO C1) as (w2 & E2 & C2 & H2 & K2 & I2); try done; [by apply U1|by rewrite Ht|].
  exists dp, w1, w2. split; [done|]. split; [done|]. split; [done|]. split; [done|]. split; [done|]. rewrite I2. split.
  - apply list_lookup_total_insert_eq. by rewrite (ic_len _ Hic1).
  - intros i Hi Hd. rewrite (ik_sl _ _ _ K2) by done. split; [|by apply U1].
    unfold Icache.put_inode. cbn [inodes]. rewrite list_lookup_total_insert_ne, Hoth by done. by apply R.
Qed.

Lemma namei_resolve path w : 0 ∉ path ->
  namei path w = (ip ← path_start path; '(o, _) ← resolve false ip (elems path) (dname (repeat 0 (Z.to_nat DIRSIZ))); mret o) w.
Proof using Type.
  intros Hz. clear Hwk Hk. unfold namei, namex. fold (path_start path).
  pose proof (fun ip => namex_loop (S (length path)) false ip path (repeat 0 (Z.to_nat DIRSIZ))) as L.
  unfold FsPath.named, mbind, M_bind in *. destruct (path_start path w) as [[ip w1]| | |]; [|done..].
  rewrite <- L by (done || lia). by destruct (loop _ _ _ w1) as [[[o nm] w2]| | |].
Qed.
(** A path of one element in the root directory. *)
Lemma namei_run w name : plain name -> namei (47 :: name) w =
  (ip ← iget ROOTDEV ROOTINO; ilock (Some ip) ;; dp ← get_inode ip;
   if negb (i_type dp =? T_DIR) then iunlockput ip ;; mret None
   else
     next ← dirlookup ip name;
     match next with
     | None => iunlockput ip ;; mret None
     | Some (next, _) => iunlockput ip ;; mret (Some next)
     end) w.
Proof.
  intros Hp. rewrite namei_resolve by by apply zero_root. rewrite elems_root by done. unfold path_start. cbn [lookup list_lookup].
  rewrite bool_decide_true by done. cbn [resolve]. unfold mbind, M_bind.
  destruct (iget ROOTDEV ROOTINO w) as [[ip w1]| | |]; [|done..]. destruct (ilock (Some ip) w1) as [[[] w2]| | |]; [|done..].
  rewrite get_inode_run. destruct (negb _); [by destruct (iunlockput ip w2) as [[[] w3]| | |]|]. cbn [andb].
  destruct Hp as (_ & _ & H0).
  rewrite (dirlookup_ext ip _ name) by (rewrite dname_take by done; unfold dname; by rewrite cstr_id).
  destruct (dirlookup ip name w2) as [[[[next o]|] w3]| | |]; [| |done..]; by destruct (iunlockput ip w3) as [[[] w4]| | |].
Qed.

Lemma opened_absent w name : booted w -> plain name -> dir_ok V (opened V ROOTINO) -> block_lens V ->
  i_type (opened V ROOTINO) = T_DIR -> i_nlink (opened V ROOTINO) <> 0 ->
  list_find (names name) (dir_entries V (opened V ROOTINO)) = None ->
  exists w', namei (47 :: name) w = Ok (None, w').
Proof.
  intros B Hp Hd Hl Ht Hnl Hf. rewrite namei_run by done.
  destruct (root_locked w B Ht) as (dp & w1 & w2 & E1 & E2 & C2 & Hdp & H2 & D2 & _). kdo E1. kdo E2.
  kdo (get_inode_run dp w2). rewrite D2, Ht. cbn [negb Z.eqb Pos.eqb T_DIR].
  destruct (dirlookup_absent Hwk w2 V d 2 cap [] k dp _ name (cm_tx _ C2) D2 Hd Hl Hk Ht Hf) as (w3 & E3 & S3 & T3). kdo E3.
  pose proof (lstep_ic _ _ S3) as I3.
  assert (C3 : calm w3) by (eapply (calm_keeps dp); [exact C2|by apply ikeeps_lstep|done|rewrite I3; apply C2]).
  destruct (unlock_put w3 dp ROOTINO C3 Hdp) as (w4 & E4 & _); [by eapply lstep_holds_inode|by rewrite I3|done|].
  kdo E4. by exists w4.
Qed.

Lemma opened_found w name j de : booted w -> plain name -> dir_ok V (opened V ROOTINO) -> block_lens V ->
  i_type (opened V ROOTINO) = T_DIR -> i_nlink (opened V ROOTINO) <> 0 ->
  list_find (names name) (dir_entries V (opened V ROOTINO)) = Some (j, de) -> de_inum de <> ROOTINO ->
  exists i w', namei (47 :: name) w = Ok (Some i, w') /\ calm w' /\ (i < ninode)%nat /\
    stands (compc w') ROOTDEV (de_inum de) i /\ i_ref (inodes (compc w') !!! i) = 1 /\
    i_valid (inodes (compc w') !!! i) = 0 /\ sl_locked (compc (T := sltab) w' !!! L_inode i) = 0.
Proof.
  intros B Hp Hd Hl Ht Hnl Hf Hde. rewrite namei_run by done.
  destruct (root_locked w B Ht) as (dp & w1 & w2 & E1 & E2 & C2 & Hdp & H2 & D2 & O2). kdo E1. kdo E2.
  kdo (get_inode_run dp w2). rewrite D2, Ht. cbn [negb Z.eqb Pos.eqb T_DIR].
  assert (Hz : irefs (compc w2) ROOTDEV (de_inum de) = 0).
  { apply irefs_none. intros i Hi (P1 & _ & P3). destruct (decide (i = dp)) as [->|Hd']; [rewrite D2 in P3; done|].
    destruct (O2 i Hi Hd') as [Hr _]. lia. }
  assert (Hroom : iget_room (compc w2) ROOTDEV (de_inum de)).
  { right. exists (if decide (dp = 0%nat) then 1%nat else 0%nat). split; [case_decide; unfold ninode, NINODE; lia|].
    apply O2; case_decide; unfold ninode, NINODE; lia || done. }
  destruct (dirlookup_found Hwk w2 V d 2 cap [] k dp _ name j de (cm_tx _ C2) D2 Hd Hl Hk (cm_ic _ C2) (cm_lock _ C2) Ht Hf Hroom)
    as (i & w2' & w3 & E3 & S3 & F3 & T3 & Hi & Hic3 & Hst3 & Hrf3 & Hnew & Hoth & _).
  destruct (Hnew Hz) as [Hv3 Hi0].
  assert (Hne : i <> dp) by (intros ->; by rewrite D2 in Hi0).
  kdo E3. assert (K3 : forall m, ikeeps m w2 w3) by (intros m; etrans; [by apply ikeeps_lstep|by apply ikeeps_frame]).
  assert (C3 : calm w3) by (by eapply (calm_keeps dp)).
  destruct (unlock_put w3 dp ROOTINO C3 Hdp) as (w4 & E4 & C4 & K4 & I4); [|by rewrite Hoth by done|done|].
  { destruct (lstep_holds_inode _ _ _ S3 H2) as [A1 A2]. unfold holds_inode.
    rewrite (ik_sl _ _ _ (ikeeps_frame ninode _ _ F3)) by lia. by rewrite (ap_pid _ _ (apart_frame _ _ F3)). }
  kdo E4. exists i, w4. split; [done|]. split; [done|]. split; [done|].
  assert (Hsame : inodes (compc w4) !!! i = inodes (compc w3) !!! i).
  { rewrite I4. unfold Icache.put_inode. cbn [inodes]. by rewrite list_lookup_total_insert_ne. }
  unfold stands. rewrite Hsame. split; [done|]. split; [|split; [done|]].
  - rewrite <- (irefs_stands _ _ _ i Hic3 Hi Hst3). lia.
  - rewrite (ik_sl _ _ _ K4), (ik_sl _ _ _ (K3 ninode)) by lia. by apply O2.
Qed.
End Kernel.


(** ** Mounting *)

Section Mount.
Context {SC : Sched} {VD : VirtioDisk} (Hwk : (0 < wakeups)%nat).
Implicit Types (w : world kstate).

(** No inode is in memory, and no lock of the inode cache is held. *)
Record no_inodes w : Prop := {
  ni_ic : icache_ok (compc w);
  ni_lock : lock_free L_icache w;
  ni_spin : forall i, (i < ninode)%nat -> lock_free (L_inode i) w;
  ni_ref : forall i, (i < ninode)%nat -> i_ref (inodes (compc w) !!! i) = 0;
  ni_sl : forall i, (i < ninode)%nat -> sl_locked (compc (T := sltab) w !!! L_inode i) = 0;
}.

(** A kernel that has started on disk [d] and calls fsinit: the buffer cache is empty
    and no transaction is open. *)
Record started (d : disk) w : Prop := {
  st_cs : cs w (disk_block d) (fun _ => 0) d nbuf none [];
  st_log : log_outstanding (compc w) = 0 /\ length (lh_block (log_lh (compc w))) = Z.to_nat LOGSIZE;
  st_ni : no_inodes w;
}.

Lemma no_inodes_lstep w w' : no_inodes w -> lstep w w' -> no_inodes w'.
Proof.
  intros [N1 N2 N3 N4 N5] S. pose proof (lstep_ic _ _ S) as I. pose proof (ikeeps_lstep ninode _ _ S) as [K1 _ K3].
  split; rewrite ?I; try done; [by eapply kframe_lock_free|..].
  - intros i Hi. eapply kframe_lock_free; [done|by apply N3].
  - intros i Hi. rewrite K3 by lia. by apply N5.
Qed.

Definition new_log_lock w : world kstate := set_lock L_log (Spinlock 0 "log" None) w.
Lemma new_lock_free l w : l <> L_log -> lock_free l w -> lock_free l (new_log_lock w).
Proof. intros Hl [n Hn]. exists n. unfold new_log_lock. cbn. by rewrite lookup_insert_ne by done. Qed.
Lemma cs_new_lock w V R d F ex H : cs w V R d F ex H -> cs (new_log_lock w) V R d F ex H.
Proof.
  intros [[Q1 Q2 Q3] (U1 & U2 & U3) C3 C4 C5 C6 C7 C8 C9]. split; try done.
  - split; [done|done|]. intros i Hi. apply new_lock_free; [done|by apply Q3].
  - split_and!; [by apply new_lock_free..|]. intros i Hi. apply new_lock_free; [done|by apply U3].
Qed.
Lemma no_inodes_new_lock w : no_inodes w -> no_inodes (new_log_lock w).
Proof. intros [N1 N2 N3 N4 N5]. split; try done; [by apply new_lock_free|]. intros i Hi. apply new_lock_free; [done|by apply N3]. Qed.

Lemma unhold_one b n : unhold b [(b, n)] = [].
Proof. unfold unhold. by rewrite filter_cons, decide_False by naive_solver. Qed.
Lemma readsb_ok d w : started d w ->
  exists w', readsb ROOTDEV w = Ok ((), w') /\ started d w' /\ compc w' = sb_of (disk_block d 1).
Proof.
  intros [C [L1 L2] N]. destruct (cs_bread w _ _ d nbuf [] 1 C Hwk) as (b & w1 & E1 & S1 & C1); [lia|set_solver|left; unfold nbuf, NBUF, MAXOPBLOCKS; lia|lia|].
  unfold readsb. kdo E1. kdo (get_buf_run b w1). rewrite (proj1 (cs_get _ _ _ _ _ _ _ b 1 C1 ltac:(by left))).
  set (x := sb_of (disk_block d 1)). assert (E2 : putD x w1 = Ok ((), updc x w1)) by done. kdo E2.
  destruct (cs_brelse (updc x w1) _ _ d _ none [(b, 1)] b 1 (cs_sb _ _ _ _ _ _ _ x C1)) as (w3 & E3 & S3 & C3); [by left|done|].
  rewrite unhold_one in C3. exists w3. split; [done|]. pose proof (cstep_lstep _ _ S1) as S1'. pose proof (cstep_lstep _ _ S3) as S3'.
  pose proof (cstep_log _ _ S1) as G1. pose proof (cstep_log _ _ S3) as G3.
  split; [|by rewrite (ik_sb _ _ _ (ikeeps_lstep 0 _ _ S3'))]. split.
  - eapply cs_ext; [exact C3|done|..].
    + intros m. unfold fupd. repeat case_decide; subst; done.
    + unfold fupd. rewrite decide_True by done. done.
    + by intros j _ [[] _].
  - rewrite G3. change (compc (T := log) (updc x w1)) with (compc (T := log) w1). by rewrite G1.
  - eapply no_inodes_lstep; [|exact S3']. pose proof (no_inodes_lstep _ _ N S1') as [N1 N2 N3 N4 N5].
    split; try done.
Qed.

(** Mounting an image whose log is empty writes the empty header again and changes no block. *)
Lemma fsinit_ok d w : started d w -> sb_of (disk_block d 1) = sb -> disk_block d 2 = zero_block ->
  exists w' d' k, fsinit ROOTDEV w = Ok ((), w') /\ (1 <= k)%nat /\ (forall m, disk_block d' m = disk_block d m) /\
    booted (disk_block d) d' 0 k w'.
Proof.
  intros St Hsb Hz. destruct (readsb_ok d w St) as (w1 & E1 & [C1 [L1 L1'] N1] & B1). rewrite Hsb in B1.
  unfold fsinit. kdo E1. kdo (get_sb_run w1). rewrite B1.
  change (negb (sb_magic sb =? FSMAGIC)) with false. cbv iota. unfold initlog. change (sizeof_logheader >=? BSIZE) with false. cbv iota.
  assert (E2 : initlock L_log "log" w1 = Ok ((), new_log_lock w1)) by done. kdo E2.
  set (l := Log 2 30 (log_outstanding (compc w1)) (log_committing (compc w1)) ROOTDEV (log_lh (compc w1))).
  set (w2 := updc l (new_log_lock w1)).
  assert (E3 : upd_log (fun l => Log (i32 (sb_logstart sb)) (i32 (sb_nlog sb)) (log_outstanding l)
    (log_committing l) ROOTDEV (log_lh l)) (new_log_lock w1) = Ok ((), w2)) by done.
  kdo E3. assert (C2 : cs w2 (disk_block d) (fun _ => 0) d nbuf none []) by by apply cs_log, cs_new_lock.
  assert (N2 : no_inodes w2) by (by destruct (no_inodes_new_lock _ N1)).
  destruct (recover_ok Hwk w2 (disk_block d) d nbuf 2 [] C2) as (w3 & k & E4 & S4 & O4 & Hk & C4 & G4).
  { split; [done|]. split; [done|]. split; [exact L1'|by vm_compute]. }
  { split; [change (Z.to_nat LOGSIZE) with 30%nat; cbn; lia|constructor|set_solver|by vm_compute]. }
  { rewrite Hz. split; [done|]. set_solver. }
  { cbn. unfold nbuf, NBUF, MAXOPBLOCKS. lia. }
  exists w3, (dws d (clear_writes 2 (disk_block d) [])), k. split; [done|]. split; [done|].
  assert (Hv : forall m, vws (disk_block d) (clear_writes 2 (disk_block d) []) m = disk_block d m).
  { intros m. cbn. unfold fupd. case_decide as Em; [|done]. rewrite Em, Hz. by vm_compute. }
  split; [intros m; by rewrite disk_block_dws|]. destruct (no_inodes_lstep _ _ N2 S4) as [A1 A2 A3 A4 A5].
  assert (Hcap : log_cap (compc w3) = 0).
  { unfold log_cap. assert (G : log_outstanding (compc w3) = log_outstanding (compc w1)) by exact (f_equal (fun x => x.1.2) G4).
    by rewrite G, L1. }
  assert (Hlk : lock_free L_log w3).
  { apply (kframe_lock_free L_log w2); [apply (ikeeps_lstep 0 _ _ S4)|]. exists "log". apply lookup_insert_eq. }
  assert (Hcs : cs w3 (disk_block d) (fun _ => 0) (dws d (clear_writes 2 (disk_block d) [])) k none []) by (by eapply cs_ext; [exact C4|..]).
  split; [|exact A4|exact A5]. split; [|by rewrite (ik_sb _ _ _ (ikeeps_lstep 0 _ _ S4))|exact A1|exact A2|exact A3].
  split; [exact Hcs|exact Hlk|exact O4|exact Hcap|]. intros m _ _. by rewrite disk_block_dws.
Qed.
End Mount.

(** ** Reading the files of an image *)

Section Read.
Context {SC : Sched} {VD : VirtioDisk} (Hwk : (0 < wakeups)%nat).
Implicit Types (w : world kstate).

Lemma read_all V n t data m : holds_file V n t (Z.of_nat (length data)) data -> Z.of_nat (length data) < 2 ^ 32 ->
  0 <= m < 2 ^ 32 ->
  read_len (opened V n) 0 m = Z.min m (Z.of_nat (length data)) /\
  file_bytes V (opened V n) 0 (Z.min m (Z.of_nat (length data))) = take (Z.to_nat m) data.
Proof.
  intros [_ _ Hs _ Hb] Hd Hm. split.
  - unfold read_len. rewrite Hs, Z.sub_0_r. rewrite (proj2 (Z.ltb_ge _ _)), (proj2 (Z.leb_gt _ _)) by lia. done.
  - apply list_eq. intros j. unfold file_bytes. rewrite list_lookup_fmap.
    destruct (decide (Z.of_nat j < Z.min m (Z.of_nat (length data)))) as [Hj|Hj].
    + rewrite lookup_seqZ_lt by lia. cbn [fmap option_fmap option_map]. rewrite Hb by lia. rewrite Z.add_0_l.
      rewrite lookup_take_lt by lia. unfold byte_of. rewrite Nat2Z.id.
      destruct (lookup_lt_is_Some_2 data j ltac:(lia)) as [b ->]. done.
    + rewrite lookup_seqZ_ge by lia. rewrite lookup_ge_None_2; [done|]. rewrite length_take. lia.
Qed.

Lemma root_dir_ok V fs : image V fs -> (length fs <= 198)%nat -> sizeof_dirent * (2 + Z.of_nat (length fs)) mod BSIZE <> 0 ->
  dir_ok V (opened V ROOTINO).
Proof.
  intros Him Hn Hm. split; [by apply (im_dir _ _ Him)|]. rewrite (hf_size _ _ _ _ _ (im_root _ _ Him)).
  unfold root_size. change sizeof_dirent with 16. change BSIZE with 1024. set (len := 16 * (2 + Z.of_nat (length fs))).
  pose proof (Z.div_mod len 1024 ltac:(lia)). pose proof (Z.mod_pos_bound len 1024 ltac:(lia)).
  rewrite u32_id by (subst len; lia). replace ((len / 1024 + 1) * 1024) with ((len / 1024 + 1) * 64 * 16) by lia.
  rewrite Z.div_mul by lia. lia.
Qed.

(** The file [f], by its name. *)
Lemma read_found V d cap k w fs kk f m : (1 <= k)%nat -> booted V d cap k w -> image V fs -> (length fs <= 198)%nat ->
  sizeof_dirent * (2 + Z.of_nat (length fs)) mod BSIZE <> 0 -> distinct_names fs ->
  dir_entries V (opened V ROOTINO) = root_entries fs ++ repeat unused kk ->
  f ∈ fs -> plain f.1 -> 0 <= m < 2 ^ 32 ->
  exists w', read_path (47 :: f.1) 0 m w = Ok (Some (Z.min m (Z.of_nat (length f.2)), take (Z.to_nat m) f.2), w').
Proof.
  intros Hk B Him Hn Hmod Hd He [i Hi]%list_elem_of_lookup Hp Hm. destruct (im_root _ _ Him) as [R1 R2 _ _ _].
  destruct (im_file _ _ Him i f Hi) as [HF HO]. pose proof (lookup_lt_Some _ _ _ Hi) as Hlt.
  destruct (opened_found Hwk V d cap k Hk w f.1 (S (S i)) (MkfsFinal.named (Z.of_nat i + 2) f.1) B Hp) as (j & w1 & E1 & C1 & Hj & Hst & Hr & Hv & Hs);
    [by apply (root_dir_ok V fs)|apply Him|done|by rewrite R2|rewrite He; by apply root_find|cbn [MkfsFinal.named de_inum]; change ROOTINO with 1; lia|].
  cbn [MkfsFinal.named de_inum] in Hst. unfold read_path. kdo E1.
  destruct (lock_new Hwk V d cap k Hk w1 j (Z.of_nat i + 2) C1 Hj Hst Hr Hv Hs) as (w2 & E2 & C2 & _ & _ & I2);
    [lia|by rewrite (hf_type _ _ _ _ _ HF)|]. kdo E2.
  assert (Hip : inodes (compc w2) !!! j = opened V (Z.of_nat i + 2)).
  { rewrite I2. apply list_lookup_total_insert_eq. by rewrite (ic_len _ (cm_ic _ _ _ _ _ C1)). }
  destruct (readi_ok Hwk w2 V d 2 cap [] k j _ 0 m (cm_tx _ _ _ _ _ C2) Hip HO (im_lens _ _ Him)) as (w3 & E3 & _); [lia|done|done|].
  kdo E3. assert (Hlen : Z.of_nat (length f.2) < 2 ^ 32).
  { rewrite <- (hf_size _ _ _ _ _ HF). destruct HO as [_ H _ _]. change (MAXFILE * BSIZE) with 274432 in H. lia. }
  destruct (read_all _ _ _ _ _ HF Hlen Hm) as [-> ->]. by exists w3.
Qed.

Lemma read_absent V d cap k w fs kk name off m : (1 <= k)%nat -> booted V d cap k w -> image V fs -> (length fs <= 198)%nat ->
  sizeof_dirent * (2 + Z.of_nat (length fs)) mod BSIZE <> 0 ->
  dir_entries V (opened V ROOTINO) = root_entries fs ++ repeat unused kk -> plain name ->
  dname name ∉ (dname [46] :: dname [46; 46] :: ((fun f : image_file => dname f.1) <$> fs)) ->
  exists w', read_path (47 :: name) off m w = Ok (None, w').
Proof.
  intros Hk B Him Hn Hmod He Hp Ha. destruct (im_root _ _ Him) as [R1 R2 _ _ _].
  destruct (opened_absent Hwk V d cap k Hk w name B Hp) as (w1 & E1);
    [by apply (root_dir_ok V fs)|apply Him|done|by rewrite R2|rewrite He; by apply root_absent|].
  unfold read_path. kdo E1. by exists w1.
Qed.

(** *** A root directory that fills its blocks *)

Lemma loop_panic {W X Y} fuel (f : X -> M W (X + Y)) x (w : W) msg : f x w = Panic msg -> loop (S fuel) f x w = Panic msg.
Proof. intros E. cbn [loop]. unfold mbind, M_bind. by rewrite E. Qed.

(** Outside of a transaction log_write stops the kernel. *)
Lemma log_write_outside w st b : log_ok (compc w) st [] -> log_cap (compc w) = 0 -> log_write b w = Panic "log_write outside of trans".
Proof.
  intros O Hc. unfold log_write. kdo (get_log_run w). rewrite (lo_n _ _ _ O). pose proof (lo_size _ _ _ O) as Hs.
  unfold log_cap in Hc. destruct (Z.ltb_spec (log_outstanding (compc w)) 1) as [Ho|Ho]; [|change LOGSIZE with 30 in *; lia].
  change (Z.of_nat (length (@nil Z))) with 0. by rewrite !Z.geb_leb, (proj2 (Z.leb_gt (log_size (compc w) - 1) 0)) by lia.
Qed.

(** So does an allocation: it finds a free block and logs the bitmap. *)
Lemma balloc_outside V d k w fs : calm V d 0 k w -> (1 <= k)%nat -> image V fs -> space fs < FSSIZE ->
  Fs.balloc ROOTDEV w = Panic "log_write outside of trans".
Proof.
  intros C Hk Him Hsp. change FSSIZE with 1000 in Hsp. unfold Fs.balloc. kdo (get_sb_run w). apply loop_panic.
  unfold balloc_body. kdo (get_sb_run w). rewrite (cm_sb _ _ _ _ _ C). change (0 <? sb_size sb) with true. cbv iota.
  change (u32 (BBLOCK 0 sb)) with 45.
  destruct (tx_bread Hwk _ _ _ _ _ _ _ _ _ 45 (cm_tx _ _ _ _ _ C)) as (b & w1 & E1 & S1 & T1); [lia|apply not_elem_of_nil|left; lia|].
  kdo E1. kdo (get_buf_run b w1). rewrite (tx_get _ _ _ _ _ _ _ _ _ b 45 T1) by by left.
  pose proof (space_app [] fs) as H0. change (space []) with 47 in H0. cbn [app] in H0.
  pose proof (scan_bits_spec (S (Z.to_nat BPB)) (V 45) 0 0 (sb_size sb) ltac:(lia) ltac:(lia)) as Hs.
  destruct (scan_bits _ _ _ _ _) as [bi|].
  - destruct (tx_set _ _ _ _ _ _ _ _ _ b 45 (set_byte (bi / 8) (Z.lor (byte_at (V 45) (bi / 8)) (Z.shiftl 1 (bi mod 8))) (V 45)) T1)
      as (w2 & E2 & _ & T2); [by left|]. kdo E2. unfold mbind, M_bind.
    by rewrite (log_write_outside w2 2 b (tx_log _ _ _ _ _ _ _ _ _ T2) (tx_cap _ _ _ _ _ _ _ _ _ T2)).
  - exfalso. pose proof (im_used _ _ Him (space fs)) as Hu. change (sb_size sb) with 1000 in *. rewrite Z.ltb_irrefl in Hu.
    unfold used in Hu. rewrite (BBLOCK_sb (space fs)) in Hu by (change FSSIZE with 1000; lia). change BPB with 8192 in *.
    rewrite Z.mod_small in Hu by lia. rewrite Hs in Hu by lia. specialize (Hu ltac:(lia)). discriminate Hu.
Qed.

(** Reading at the end of the entries: the block is not there, and bmap allocates it. *)
Lemma read_hole V d k w dp fs n : calm V d 0 k w -> (1 <= k)%nat -> image V fs -> space fs < FSSIZE -> (length fs <= 198)%nat ->
  sizeof_dirent * (2 + Z.of_nat (length fs)) mod BSIZE = 0 -> inodes (compc w) !!! dp = opened V ROOTINO ->
  0 < n < 2 ^ 31 ->
  readi dp D_object (sizeof_dirent * (2 + Z.of_nat (length fs))) n w = Panic "log_write outside of trans".
Proof.
  intros C Hk Him Hsp Hn Hm Hip Hr. pose proof (im_hole _ _ Him Hm) as Hh.
  pose proof (hf_size _ _ _ _ _ (im_root _ _ Him)) as Hsz. unfold root_size in Hsz.
  set (len := sizeof_dirent * (2 + Z.of_nat (length fs))) in *. change BSIZE with 1024 in *.
  assert (Hl : 0 < len <= 3200) by (subst len; change sizeof_dirent with 16; lia). pose proof (Z.div_mod len 1024 ltac:(lia)).
  rewrite u32_id in Hsz by lia. unfold readi. kdo (get_inode_run dp w). rewrite Hip, Hsz, u32_id by lia.
  rewrite !Z.gtb_ltb, (proj2 (Z.ltb_ge _ len)), (proj2 (Z.ltb_ge (len + n) _)) by lia. cbn [orb].
  set (n' := if _ <? _ then _ else n). assert (Hn' : 0 < n') by (subst n'; destruct (Z.ltb_spec ((len / 1024 + 1) * 1024) (len + n)); lia).
  apply loop_panic. unfold readi_body. rewrite (proj2 (Z.ltb_lt 0 n')) by done. kdo (get_inode_run dp w).
  change BSIZE with 1024. unfold bmap at 1. unfold mbind at 1, M_bind at 1.
  kdo (get_inode_run dp w). rewrite Hip.
  assert (Hbn : len / 1024 < NDIRECT) by (change NDIRECT with 12; lia). rewrite (proj2 (Z.ltb_lt _ _) Hbn).
  unfold fblock in Hh. rewrite (proj2 (Z.ltb_lt _ _) Hbn) in Hh. rewrite Hh. cbn [Z.eqb].
  change (i_dev (opened V ROOTINO)) with ROOTDEV. unfold mbind, M_bind. by rewrite (balloc_outside V d k w fs C Hk Him Hsp).
Qed.

(** ** mkfs, then the kernel *)

(** C8: A kernel that mounts an image made by mkfs finds every file of the image under
    its name in the root directory and reads its bytes; a name that is none of
    them is not found.  (The names are different in their first DIRSIZ bytes, and the entries
    of the root directory do not end at the end of a block.) *)
Theorem mkfs_then_read files
  (Ha : Forall acceptable files) (Hn : (length files <= 198)%nat) (Hsp : space (file_of <$> files) <= FSSIZE)
  (Hmod : sizeof_dirent * (2 + Z.of_nat (length files)) mod BSIZE <> 0) (Hd : distinct_names (file_of <$> files)) :
  exists s, mkfs files = Ok ((), s) /\ forall w, started (Disk (img s) []) w ->
    (forall f m, f ∈ file_of <$> files -> plain f.1 -> 0 <= m < 2 ^ 32 ->
       exists w', (fsinit ROOTDEV ;; read_path (47 :: f.1) 0 m) w =
         Ok (Some (Z.min m (Z.of_nat (length f.2)), take (Z.to_nat m) f.2), w')) /\
    (forall name off m, plain name ->
       dname name ∉ (dname [46] :: dname [46; 46] :: ((fun f : image_file => dname f.1) <$> (file_of <$> files))) ->
       exists w', (fsinit ROOTDEV ;; read_path (47 :: name) off m) w = Ok (None, w')).
Proof.
  destruct (mkfs_ok files Ha Hn Hsp) as (s & kk & E & _ & Him & He). exists s. split; [done|]. intros w St.
  destruct (fsinit_ok Hwk _ w St (im_sb _ _ Him) (im_log _ _ Him)) as (w1 & d' & k & E1 & Hk & _ & B).
  assert (Hn' : (length (file_of <$> files) <= 198)%nat) by (by rewrite length_fmap).
  assert (Hmod' : sizeof_dirent * (2 + Z.of_nat (length (file_of <$> files))) mod BSIZE <> 0) by (by rewrite length_fmap).
  split; intros; kdo E1; [by eapply read_found|by eapply read_absent].
Qed.

(** C37: When the entries of the root directory end at the end of a block (as with 62 files),
    mkfs rounds its size up by a block that it does not allocate: a kernel that
    reads the directory there, as ls does, allocates the block, outside of a
    transaction, and stops. *)
Theorem root_hole_panics files
  (Ha : Forall acceptable files) (Hn : (length files <= 198)%nat) (Hsp : space (file_of <$> files) < FSSIZE)
  (Hmod : sizeof_dirent * (2 + Z.of_nat (length files)) mod BSIZE = 0) :
  exists s, mkfs files = Ok ((), s) /\ forall w n, started (Disk (img s) []) w -> 0 < n < 2 ^ 31 ->
    (fsinit ROOTDEV ;; read_path [47] (sizeof_dirent * (2 + Z.of_nat (length files))) n) w =
    Panic "log_write outside of trans".
Proof.
  destruct (mkfs_ok files Ha Hn ltac:(lia)) as (s & kk & E & _ & Him & _). exists s. split; [done|]. intros w n St Hr.
  destruct (fsinit_ok Hwk _ w St (im_sb _ _ Him) (im_log _ _ Him)) as (w1 & d' & k & E1 & Hk & _ & B).
  destruct (root_locked Hwk _ _ _ _ Hk w1 B (hf_type _ _ _ _ _ (im_root _ _ Him))) as (dp & w2 & w3 & E2 & E3 & C3 & _ & _ & D3 & _).
  kdo E1. unfold read_path. assert (En : namei [47] w1 = Ok (Some dp, w2)).
  { rewrite (namei_resolve [47] w1) by (apply not_elem_of_cons; split; [done|apply not_elem_of_nil]).
    unfold path_start. rewrite bool_decide_true by done. by kdo E2. }
  assert (Hn' : (length (file_of <$> files) <= 198)%nat) by (by rewrite length_fmap).
  assert (Hmod' : sizeof_dirent * (2 + Z.of_nat (length (file_of <$> files))) mod BSIZE = 0) by (by rewrite length_fmap).
  pose proof (read_hole _ _ _ w3 dp (file_of <$> files) n C3 Hk Him Hsp Hn' Hmod' D3 Hr) as R. rewrite length_fmap in R.
  kdo En. kdo E3. unfold mbind, M_bind. by rewrite R.
Qed.
End Read.

(** *** Examples *)

Lemma ex_started (D : disk) : exists w, started D w.
Proof.
  destruct (cs_boot D) as (w0 & C0 & L0 & _ & H2 & _ & H3). set (w := updc no_ic (updc (sl_none 50 (compc (T := sltab) w0)) w0)).
  assert (A : apart w0 w) by (etrans; [apply apart_sl_none|apply apart_ic]). assert (Hic : compc w = no_ic) by apply compc_updc.
  exists w. split; [by eapply cs_apart|unfold w; by rewrite (compc_updc_ne1 (T1 := log)), (compc_updc_ne1 (T1 := log)), L0|]. split.
  - rewrite Hic. apply no_ic_ok.
  - unfold w. eauto with xv6.
  - intros i Hlt. eapply kframe_lock_free; [apply A|]. by apply H3.
  - intros i Hlt. by rewrite Hic, no_ic_at.
  - intros i Hlt. unfold w. rewrite (compc_updc_ne1 (T1 := sltab)), compc_updc. by apply sl_none_inode.
Qed.

Lemma plain_dec name : bool_decide (name <> [] /\ 47 ∉ name /\ 0 ∉ name) = true -> plain name.
Proof. apply bool_decide_eq_true_1. Qed.

Lemma mkfs_then_read_witness : exists s w w1 w2, mkfs two_files = Ok ((), s) /\
  (fsinit (SC := ex_sched) (VD := ex_disk) ROOTDEV ;; read_path (SC := ex_sched) (VD := ex_disk) (str "/cat") 0 100) w = Ok (Some (3, [1; 2; 3]), w1) /\
  (fsinit (SC := ex_sched) (VD := ex_disk) ROOTDEV ;; read_path (SC := ex_sched) (VD := ex_disk) (str "/sh") 0 100) w = Ok (None, w2).
Proof.
  destruct (mkfs_then_read (SC := ex_sched) (VD := ex_disk) ltac:(cbn; lia) two_files two_files_ok) as (s & E & P);
    [cbn; lia|by vm_compute|by vm_compute|apply (bool_decide_eq_true_1 (NoDup _)); by vm_compute|].
  exists s. destruct (ex_started (Disk (img s) [])) as [w St]. exists w. destruct (P w St) as [P1 P2].
  destruct (P1 ([99; 97; 116], [1; 2; 3]) 100) as (w1 & E1); [by left|by apply plain_dec; vm_compute|lia|].
  destruct (P2 (str "sh") 0 100) as (w2 & E2); [by apply plain_dec; vm_compute|apply (bool_decide_eq_true_1 (_ ∉ _)); by vm_compute|].
  exists w1, w2. split; [exact E|]. split; [exact E1|exact E2].
Defined.

(** Empty files a0, a1, and so on, 62 of them: with . and .. their entries are 1024 bytes. *)
Definition hole_files : list (list Z * option (list (list Z))) := (fun i => ([97; 48 + Z.of_nat i], Some [])) <$> seq 0 62.
Lemma hole_files_ok : Forall acceptable hole_files.
Proof.
  apply Forall_forall. intros f (i & -> & Hi)%list_elem_of_fmap. apply elem_of_seq in Hi. split_and!; [|by eexists|done].
  unfold shortname. rewrite bool_decide_false by (cbn; congruence). cbn [fst].
  repeat (apply not_elem_of_cons; split; [lia|]). apply not_elem_of_nil.
Qed.
Lemma root_hole_panics_witness : exists s w, mkfs hole_files = Ok ((), s) /\
  (fsinit (SC := ex_sched) (VD := ex_disk) ROOTDEV ;; read_path (SC := ex_sched) (VD := ex_disk) (str "/") 1024 16) w = Panic "log_write outside of trans".
Proof.
  destruct (root_hole_panics (SC := ex_sched) (VD := ex_disk) ltac:(cbn; lia) hole_files hole_files_ok) as (s & E & P);
    [by apply Nat.leb_le|by vm_compute|by vm_compute|].
  exists s. destruct (ex_started (Disk (img s) [])) as [w St]. exists w. split; [exact E|].
  apply (P w 16 St). lia.
Defined.
