(* ===== verification/User.v ===== *)
(** * User programs and what they see of the kernel

    A user program is a tree of system calls: [U A] is a computation that may end the
    process.  [run] is what such a program does on a machine with a fixed file
    system: descriptors are small numbers, the lowest free one first, a read of a
    file delivers some of what is left (how much is the kernel's choice), a read of a
    directory delivers what is asked for, and everything written is recorded. *)
From stdpp Require Import prelude gmap strings.
From Stdlib Require Import ZArith Lia.
From S2P Require Import Prelude Memory CString Bytes.
Open Scope Z_scope.

Module User.

Record ustat := Ustat { st_type : Z; st_ino : Z; st_size : Z }.
Definition T_DIR : Z := 1.
Definition T_FILE : Z := 2.
Definition T_DEVICE : Z := 3.

(** The system calls that only return a number. *)
Inductive scall :=
| Open (path : list Z) (mode : Z)
| Close (fd : Z)
| Write (fd : Z) (bs : list Z)
| Dup (fd : Z)
| Mknod (path : list Z) (major minor : Z)
| Mkdir (path : list Z)
| Link (old new : list Z)
| Unlink (path : list Z)
| Exec (path : list Z) (argv : list (list Z))
| Wait
| Kill (pid : Z)
| Sleep (ticks : Z)
| Trace (mask : Z)
| Getpid.

Inductive U (A : Type) : Type :=
| Ret (a : A)
| Exit (status : Z)
| Out
| Sys (c : scall) (k : Z -> U A)
| Read (fd n : Z) (k : option (list Z) -> U A)
| Fstat (fd : Z) (k : option ustat -> U A)
| Pipe (k : option (Z * Z) -> U A)
| Fork (k : Z -> U A).
Arguments Ret {A}.
Arguments Exit {A}.
Arguments Out {A}.
Arguments Sys {A}.
Arguments Read {A}.
Arguments Fstat {A}.
Arguments Pipe {A}.
Arguments Fork {A}.

Fixpoint ubind {A B} (m : U A) (f : A -> U B) : U B :=
  match m with
  | Ret a => f a
  | Exit n => Exit n
  | Out => Out
  | Sys c k => Sys c (fun r => ubind (k r) f)
  | Read fd n k => Read fd n (fun r => ubind (k r) f)
  | Fstat fd k => Fstat fd (fun r => ubind (k r) f)
  | Pipe k => Pipe (fun r => ubind (k r) f)
  | Fork k => Fork (fun r => ubind (k r) f)
  end.
#[export] Instance U_ret : MRet U := fun A a => Ret a.
#[export] Instance U_bind : MBind U := fun A B f m => ubind m f.

Definition sys (c : scall) : U Z := Sys c Ret.
Definition uread (fd n : Z) : U (option (list Z)) := Read fd n Ret.
Definition ufstat (fd : Z) : U (option ustat) := Fstat fd Ret.

(** A loop with fuel, as for the kernel. *)
Fixpoint uloop {X Y} (fuel : nat) (body : X -> U (X + Y)) (x : X) : U Y :=
  match fuel with
  | O => Out
  | S f => r ← body x; match r with inl x' => uloop f body x' | inr y => Ret y end
  end.
Fixpoint ufor {A} (l : list A) (body : A -> U ()) : U () :=
  match l with [] => Ret () | x :: l' => body x ;; ufor l' body end.

Definition bytes (s : string) : list Z := (fun c => Z.of_N (Ascii.N_of_ascii c)) <$> String.list_ascii_of_string s.

(** ** Running on a machine *)

Inductive node := NFile (ino : Z) (data : list Z) | NDir (ino : Z) (data : list Z) | NDev (ino : Z).

(** An open file: what it is and what is left to read. *)
Record ofile := Ofile { of_node : node; of_rest : list Z }.

Definition node_data (n : node) : list Z := match n with NFile _ d | NDir _ d => d | NDev _ => [] end.
Definition node_stat (n : node) : ustat :=
  match n with
  | NFile i d => Ustat T_FILE i (Z.of_nat (length d))
  | NDir i d => Ustat T_DIR i (Z.of_nat (length d))
  | NDev i => Ustat T_DEVICE i 0
  end.

(** The descriptors and all that was written. *)
Record machine := Machine { m_fds : list (option ofile); m_out : list (Z * list Z) }.

Inductive outcome (A : Type) := Done (a : A) | Exited (status : Z) | NoFuelLeft | NotModelled.
Arguments Done {A}.
Arguments Exited {A}.
Arguments NoFuelLeft {A}.
Arguments NotModelled {A}.

(** The lowest free descriptor. *)
Fixpoint lowest {A} (fds : list (option A)) : option nat :=
  match fds with
  | [] => None
  | None :: _ => Some O
  | Some _ :: l => S <$> lowest l
  end.

Section Run.
(** The file system, and how much of [rest] a read of [n] bytes from a file delivers. *)
Context (resolve : list Z -> option node) (chop : list Z -> Z -> nat).

Definition fd_of (m : machine) (fd : Z) : option ofile :=
  if fd <? 0 then None else mjoin (m_fds m !! Z.to_nat fd).

Definition do_sys (c : scall) (m : machine) : option (Z * machine) :=
  match c with
  | Open path _ =>
      Some match resolve path, lowest (m_fds m) with
      | Some n, Some i => (Z.of_nat i, Machine (<[i := Some (Ofile n (node_data n))]> (m_fds m)) (m_out m))
      | _, _ => (-1, m)
      end
  | Close fd =>
      Some match fd_of m fd with
      | Some _ => (0, Machine (<[Z.to_nat fd := None]> (m_fds m)) (m_out m))
      | None => (-1, m)
      end
  | Write fd bs =>
      Some match fd_of m fd with
      | Some _ => (Z.of_nat (length bs), Machine (m_fds m) (m_out m ++ [(fd, bs)]))
      | None => (-1, m)
      end
  | _ => None
  end.

Definition amount (f : ofile) (n : Z) : nat :=
  match of_node f with
  | NFile _ _ => Nat.min (Z.to_nat n) (chop (of_rest f) n)
  | _ => Nat.min (Z.to_nat n) (length (of_rest f))
  end.
Definition do_read (fd n : Z) (m : machine) : option (list Z) * machine :=
  match fd_of m fd with
  | Some f =>
      let k := amount f n in
      (Some (take k (of_rest f)), Machine (<[Z.to_nat fd := Some (Ofile (of_node f) (drop k (of_rest f)))]> (m_fds m)) (m_out m))
  | None => (None, m)
  end.

Fixpoint run {A} (p : U A) (m : machine) : outcome A * machine :=
  match p with
  | Ret a => (Done a, m)
  | Exit n => (Exited n, m)
  | Out => (NoFuelLeft, m)
  | Sys c k => match do_sys c m with Some (r, m') => run (k r) m' | None => (NotModelled, m) end
  | Read fd n k => let '(r, m') := do_read fd n m in run (k r) m'
  | Fstat fd k => run (k ((fun f => node_stat (of_node f)) <$> fd_of m fd)) m
  | Pipe _ | Fork _ => (NotModelled, m)
  end.
End Run.

End User.
