(* ===== verification/Ulib.v ===== *)
(** * user/ulib.c: strings and memory

    The C loops over the memory of the process.  The string routines have no bound
    in C and take fuel; the lemmas say that more than the length is enough.  A char
    is unsigned, as on RISC-V. *)
From stdpp Require Import prelude gmap strings.
From Stdlib Require Import ZArith Lia.
From S2P Require Import Prelude Memory CString.
Open Scope Z_scope.

Module Ulib.

(** [while(( *s++ = *t++) != 0) ;] *)
Fixpoint strcpy (fuel : nat) (m : mem) (s t : Z) : option mem :=
  match fuel with
  | O => None
  | S f =>
      let c := rd m t in
      let m := wr m s c in
      if negb (c =? 0) then strcpy f m (s + 1) (t + 1) else Some m
  end.

(** [while( *p && *p == *q) p++, q++; return (uchar)*p - (uchar)*q;] *)
Fixpoint strcmp (fuel : nat) (m : mem) (p q : Z) : option Z :=
  match fuel with
  | O => None
  | S f =>
      if negb (rd m p =? 0) && (rd m p =? rd m q) then strcmp f m (p + 1) (q + 1)
      else Some (rd m p - rd m q)
  end.

(** [for(n = 0; s[n]; n++) ;], the int counter returned as a uint. *)
Fixpoint strlen_loop (fuel : nat) (m : mem) (s n : Z) : option Z :=
  match fuel with
  | O => None
  | S f => if rd m (s + n) =? 0 then Some (u32 n) else strlen_loop f m s (i32 (n + 1))
  end.
Definition strlen (fuel : nat) (m : mem) (s : Z) : option Z := strlen_loop fuel m s 0.

(** [for(i = 0; i < n; i++) cdst[i] = c;] *)
Fixpoint memset_loop (m : mem) (cdst c i : Z) (k : nat) : mem :=
  match k with
  | O => m
  | S k' => memset_loop (wr m (cdst + i) c) cdst c (i + 1) k'
  end.
Definition memset (m : mem) (dst c n : Z) : mem := memset_loop m dst c 0 (Z.to_nat n).

(** [for(; *s; s++) if( *s == c) return s; return 0;] *)
Fixpoint strchr (fuel : nat) (m : mem) (s c : Z) : option Z :=
  match fuel with
  | O => None
  | S f => if rd m s =? 0 then Some 0 else if rd m s =? c then Some s else strchr f m (s + 1) c
  end.

(** [while('0' <= *s && *s <= '9') n = n*10 + *s++ - '0';] *)
Fixpoint atoi_loop (fuel : nat) (m : mem) (s n : Z) : option Z :=
  match fuel with
  | O => None
  | S f =>
      if (48 <=? rd m s) && (rd m s <=? 57) then atoi_loop f m (s + 1) (i32 (n * 10 + rd m s - 48))
      else Some n
  end.
Definition atoi (fuel : nat) (m : mem) (s : Z) : option Z := atoi_loop fuel m s 0.

(** [while(n-- > 0) *dst++ = *src++;] and [while(n-- > 0) *--dst = *--src;] *)
Fixpoint move_up (m : mem) (dst src : Z) (n : nat) : mem :=
  match n with
  | O => m
  | S n' => move_up (wr m dst (rd m src)) (dst + 1) (src + 1) n'
  end.
Fixpoint move_down (m : mem) (dst src : Z) (n : nat) : mem :=
  match n with
  | O => m
  | S n' => move_down (wr m (dst - 1) (rd m (src - 1))) (dst - 1) (src - 1) n'
  end.
Definition memmove (m : mem) (vdst vsrc n : Z) : mem :=
  if vsrc >? vdst then move_up m vdst vsrc (Z.to_nat n)
  else move_down m (vdst + n) (vsrc + n) (Z.to_nat n).

(** [while(n-- > 0){ if( *p1 != *p2) return *p1 - *p2; p1++; p2++; } return 0;] *)
Fixpoint memcmp_loop (m : mem) (p1 p2 : Z) (n : nat) : Z :=
  match n with
  | O => 0
  | S n' => if negb (rd m p1 =? rd m p2) then rd m p1 - rd m p2 else memcmp_loop m (p1 + 1) (p2 + 1) n'
  end.
Definition memcmp (m : mem) (s1 s2 n : Z) : Z := memcmp_loop m s1 s2 (Z.to_nat n).

(** memcpy takes a uint where memmove has an int. *)
Definition memcpy (m : mem) (dst src n : Z) : mem := memmove m dst src (i32 n).

End Ulib.
Import Ulib.

(** ** Comparison *)

(** The order of a dictionary. *)
Fixpoint lexi (l l' : list Z) : comparison :=
  match l, l' with
  | [], [] => Eq
  | [], _ => Lt
  | _, [] => Gt
  | x :: l, y :: l' => match Z.compare x y with Eq => lexi l l' | c => c end
  end.

Lemma lexi_eq l l' : lexi l l' = Eq <-> l = l'.
Proof.
  revert l'. induction l as [|x l IH]; intros [|y l']; cbn; try done.
  destruct (Z.compare_spec x y) as [->|H|H]; [|split; [done|intros [=]; lia]..].
  rewrite IH. split; [intros ->; done|by intros [=]].
Qed.

Lemma is_cstr_head m p l : is_cstr m p l -> rd m p = default 0 (head l).
Proof. destruct l; cbn; [done|by intros [? _]]. Qed.

Lemma strcmp_ok fuel m p q lp lq : is_cstr m p lp -> is_cstr m q lq -> (length lp < fuel)%nat ->
  exists r, strcmp fuel m p q = Some r /\ Z.compare r 0 = lexi lp lq.
Proof.
  revert p q lp lq. induction fuel as [|f IH]; intros p q lp lq Hp Hq Hf; [lia|]. cbn [strcmp].
  destruct lp as [|x lp].
  - pose proof (is_cstr_head _ _ _ Hp) as E. cbn in E. rewrite E. cbn [Z.eqb negb andb]. eexists. split; [done|].
    destruct lq as [|y lq]; cbn [is_cstr] in Hq; [rewrite Hq; done|]. destruct Hq as (Hy & Hnz & _). rewrite Hy.
    pose proof (rd_range m q) as Hr. rewrite Hy in Hr. apply Z.compare_lt_iff. lia.
  - destruct Hp as (Hx & Hnz & Hp). rewrite Hx, (proj2 (Z.eqb_neq x 0) Hnz). cbn [negb andb].
    pose proof (rd_range m p) as Hr. rewrite Hx in Hr. destruct lq as [|y lq]; cbn [is_cstr lexi] in *.
    + rewrite Hq. rewrite (proj2 (Z.eqb_neq x 0) Hnz). eexists. split; [done|]. apply Z.compare_gt_iff. lia.
    + destruct Hq as (Hy & _ & Hq). rewrite Hy. destruct (Z.eqb_spec x y) as [->|Hne].
      * rewrite Z.compare_refl. apply IH; [done|done|]. cbn in Hf. lia.
      * eexists. split; [done|]. destruct (Z.compare_spec x y); [done|apply Z.compare_lt_iff; lia|apply Z.compare_gt_iff; lia].
Qed.

(** ** Lengths and characters *)

Lemma ulib_strlen_loop fuel m s n l : is_cstr m (s + n) l -> (length l < fuel)%nat -> 0 <= n ->
  n + Z.of_nat (length l) < 2 ^ 31 -> strlen_loop fuel m s n = Some (n + Z.of_nat (length l)).
Proof.
  revert fuel n. induction l as [|x l IH]; intros [|f] n H Hf Hn Hb; cbn [length is_cstr strlen_loop] in *; try lia.
  - rewrite H. cbn. by rewrite u32_id, Z.add_0_r by lia.
  - destruct H as (Hx & Hnz & H). rewrite Hx, (proj2 (Z.eqb_neq _ _) Hnz), i32_id by lia.
    rewrite IH; [f_equal; lia|by rewrite Z.add_assoc|lia..].
Qed.

Lemma strchr_ok fuel m s c l : is_cstr m s l -> (length l < fuel)%nat -> strchr fuel m s c =
  Some match list_find (eq c) l with Some (i, _) => s + Z.of_nat i | None => 0 end.
Proof.
  revert fuel s. induction l as [|x l IH]; intros [|f] s H Hf; cbn [length is_cstr strchr list_find] in *; try lia.
  - by rewrite H.
  - destruct H as (Hx & Hnz & H). rewrite Hx, (proj2 (Z.eqb_neq _ _) Hnz). destruct (Z.eqb_spec x c) as [->|Hne].
    + rewrite decide_True by done. f_equal. lia.
    + rewrite decide_False by congruence. rewrite IH by (done || lia). f_equal.
      destruct (list_find (eq c) l) as [[i y]|]; cbn; [lia|done].
Qed.

Lemma ulib_strcpy fuel m s t l : is_cstr m t l -> (length l < fuel)%nat ->
  s + Z.of_nat (length l) < t \/ t + Z.of_nat (length l) < s ->
  exists m', strcpy fuel m s t = Some m' /\ is_cstr m' s l /\
    forall a, a < s \/ s + Z.of_nat (length l) < a -> rd m' a = rd m a.
Proof.
  revert fuel m s t. induction l as [|x l IH]; intros [|f] m s t H Hf Hd; cbn [length is_cstr strcpy] in *; try lia.
  - rewrite H. cbn [negb Z.eqb]. eexists. split; [done|]. split; [by rewrite rd_wr_eq|]. intros a Ha. apply rd_wr_ne. lia.
  - destruct H as (Hx & Hnz & H). rewrite Hx, (proj2 (Z.eqb_neq _ _) Hnz). cbn [negb].
    destruct (IH f (wr m s x) (s + 1) (t + 1)) as (m' & E & I1 & I2); [apply is_cstr_wr; [lia|done]|lia|lia|].
    exists m'. split; [done|]. split.
    + rewrite I2, rd_wr_eq by lia. split_and!; [|done..]. apply u8_id. pose proof (rd_range m t). lia.
    + intros a Ha. rewrite I2 by lia. apply rd_wr_ne. lia.
Qed.

(** ** Copies *)

Lemma move_up_rd n m d s a : d <= s -> rd (move_up m d s n) a =
  if bool_decide (d <= a < d + Z.of_nat n) then rd m (s + (a - d)) else rd m a.
Proof.
  revert m d s. induction n as [|n IH]; intros m d s H; cbn [move_up]; [by rewrite bool_decide_false by lia|].
  rewrite IH by lia. rewrite !rd_wr, u8_rd. repeat case_bool_decide; try lia; try done; f_equal; lia.
Qed.
Lemma move_down_rd n m d s a : s <= d -> rd (move_down m d s n) a =
  if bool_decide (d - Z.of_nat n <= a < d) then rd m (s - (d - a)) else rd m a.
Proof.
  revert m d s. induction n as [|n IH]; intros m d s H; cbn [move_down]; [by rewrite bool_decide_false by lia|].
  rewrite IH by lia. rewrite !rd_wr, u8_rd. repeat case_bool_decide; try lia; try done; f_equal; lia.
Qed.

(** ** Numbers *)

Definition is_digit (c : Z) : Prop := 48 <= c <= 57.
Definition dec_value (l : list Z) : Z := fold_left (fun a c => a * 10 + (c - 48)) l 0.

Lemma dec_value_from l a : fold_left (fun a c => a * 10 + (c - 48)) l a = a * 10 ^ Z.of_nat (length l) + dec_value l.
Proof.
  unfold dec_value. revert a. induction l as [|c l IH]; intros a; cbn [fold_left length]; [cbn; lia|].
  rewrite IH, (IH (0 * 10 + (c - 48))), Nat2Z.inj_succ, Z.pow_succ_r by lia. lia.
Qed.
Lemma dec_value_nonneg l : Forall is_digit l -> 0 <= dec_value l.
Proof.
  induction 1 as [|c l Hc Hl IH]; [done|]. unfold dec_value. cbn [fold_left]. rewrite dec_value_from. unfold is_digit in Hc.
  pose proof (Z.pow_nonneg 10 (Z.of_nat (length l))). nia.
Qed.

Lemma atoi_loop_ok fuel m s n ds rest : is_cstr m s (ds ++ rest) -> Forall is_digit ds ->
  (forall c, head rest = Some c -> ~ is_digit c) -> (length ds < fuel)%nat -> 0 <= n ->
  n * 10 ^ Z.of_nat (length ds) + dec_value ds < 2 ^ 31 ->
  atoi_loop fuel m s n = Some (n * 10 ^ Z.of_nat (length ds) + dec_value ds).
Proof.
  revert fuel s n. induction ds as [|c ds IH]; intros [|f] s n H Hd Hr Hf Hn Hb; cbn [length app atoi_loop] in *; try lia.
  - assert (E : (48 <=? rd m s) && (rd m s <=? 57) = false).
    { pose proof (is_cstr_head _ _ _ H) as E. rewrite E. destruct rest as [|c rest]; [done|]. specialize (Hr c eq_refl). cbn.
      apply andb_false_iff. rewrite Z.leb_gt, Z.leb_gt. unfold is_digit in Hr. lia. }
    rewrite E. f_equal. cbn. lia.
  - destruct H as (Hx & Hnz & H). apply Forall_cons in Hd as [Hc Hd]. unfold is_digit in Hc. rewrite Hx.
    rewrite (proj2 (Z.leb_le 48 c)), (proj2 (Z.leb_le c 57)) by lia. cbn [andb].
    rewrite Nat2Z.inj_succ, Z.pow_succ_r in * by lia.
    assert (E : dec_value (c :: ds) = (c - 48) * 10 ^ Z.of_nat (length ds) + dec_value ds) by (unfold dec_value at 1; cbn [fold_left]; apply dec_value_from).
    rewrite E in *. pose proof (dec_value_nonneg ds Hd). pose proof (Z.pow_pos_nonneg 10 (Z.of_nat (length ds)) ltac:(lia) ltac:(lia)).
    assert (n * 10 + c - 48 < 2 ^ 31) by nia. rewrite i32_id by lia.
    rewrite IH; [f_equal; lia|done|done|done|lia|lia|lia].
Qed.

(** ** Properties *)

(** strlen, strcmp and strchr on two strings: the length, the order of a
    dictionary (and 0 only for equal strings), and the first place of a character
    or 0; fuel for the length is enough. *)
Theorem ulib_strings_correct m p q lp lq c fuel :
  is_cstr m p lp -> is_cstr m q lq -> (length lp < fuel)%nat -> Z.of_nat (length lp) < 2 ^ 31 ->
  strlen fuel m p = Some (Z.of_nat (length lp)) /\
  (exists r, strcmp fuel m p q = Some r /\ Z.compare r 0 = lexi lp lq /\ (r = 0 <-> lp = lq)) /\
  strchr fuel m p c = Some match list_find (eq c) lp with Some (i, _) => p + Z.of_nat i | None => 0 end.
Proof.
  intros Hp Hq Hf Hl. split_and!.
  - unfold strlen. rewrite (ulib_strlen_loop fuel m p 0 lp); [done|by rewrite Z.add_0_r|done|lia|lia].
  - destruct (strcmp_ok fuel m p q lp lq Hp Hq Hf) as (r & E & Hr). exists r. split_and!; [done|done|].
    rewrite <- lexi_eq, <- Hr, Z.compare_eq_iff. done.
  - by apply strchr_ok.
Qed.

(** memmove moves as through a temporary buffer, whichever way the ranges overlap. *)
Theorem ulib_memmove_correct m dst src n a : 0 <= n ->
  rd (memmove m dst src n) a = if bool_decide (dst <= a < dst + n) then rd m (src + (a - dst)) else rd m a.
Proof.
  intros Hn. unfold memmove. destruct (Z.gtb_spec src dst).
  - rewrite move_up_rd by lia. by rewrite Z2Nat.id by lia.
  - rewrite move_down_rd by lia. rewrite Z2Nat.id by lia. repeat case_bool_decide; try lia; try done. f_equal. lia.
Qed.

(** atoi reads the decimal number at the start of the string. *)
Lemma atoi_correct fuel m s ds rest : is_cstr m s (ds ++ rest) -> Forall is_digit ds ->
  (forall c, head rest = Some c -> ~ is_digit c) -> (length ds < fuel)%nat -> dec_value ds < 2 ^ 31 ->
  atoi fuel m s = Some (dec_value ds).
Proof. intros. unfold atoi. rewrite (atoi_loop_ok fuel m s 0 ds rest); [f_equal; lia|done|done|done|done|lia|lia]. Qed.

(** "ab" at 100 and "b" at 200. *)
Definition ulib_mem : mem := wr (wr (wr ∅ 100 97) 101 98) 200 98.

Lemma ulib_strings_correct_witness :
  strlen 3 ulib_mem 100 = Some 2 /\
  (exists r, strcmp 3 ulib_mem 100 200 = Some r /\ Z.compare r 0 = Lt /\ (r = 0 <-> [97; 98] = [98])) /\
  strchr 3 ulib_mem 100 98 = Some 101.
Proof.
  apply (ulib_strings_correct ulib_mem 100 200 [97; 98] [98] 98 3); [vm_compute; repeat split; discriminate..|cbn; lia|cbn; lia].
Defined.
Lemma ulib_memmove_correct_witness : 0 <= 2 /\ rd (memmove ulib_mem 101 100 2) 102 = 98.
Proof. split; [lia|]. rewrite (ulib_memmove_correct ulib_mem 101 100 2 102 ltac:(lia)). vm_compute. done. Defined.
