(* ===== verification/Uprintf.v ===== *)
(** * user/printf.c

    Each character goes out with a write() of its own.  The text of a format is
    specified with the library's decimal numerals, and for %x and %p by the value of
    the digits. *)
From stdpp Require Import prelude gmap strings pretty.
From Stdlib Require Import ZArith Lia.
From S2P Require Import Prelude Memory CString Bytes User Ulib.
Import User.
Open Scope Z_scope.

Module Uprintf.

Definition digits : list Z := [48; 49; 50; 51; 52; 53; 54; 55; 56; 57; 65; 66; 67; 68; 69; 70].

Definition putc (fd c : Z) : U () := sys (Write fd [u8 c]) ;; Ret ().

(** [do { buf[i++] = digits[x % base]; } while((x /= base) != 0);] *)
Fixpoint int_digits (fuel : nat) (x base : Z) : list Z :=
  match fuel with
  | O => []
  | S f => digits !!! Z.to_nat (x mod base) :: (if x / base =? 0 then [] else int_digits f (x / base) base)
  end.
(** What [buf] holds, first character first; it is printed backwards. *)
Definition printint_buf (xx base : Z) (sgn : bool) : list Z :=
  let neg := sgn && (xx <? 0) in
  let x := if neg then u32 (- xx) else u32 xx in
  int_digits 32 x base ++ (if neg then [45] else []).
Definition printint (fd xx base : Z) (sgn : bool) : U () := ufor (rev (printint_buf xx base sgn)) (putc fd).

Fixpoint printptr_loop (fd : Z) (k : nat) (x : Z) : U () :=
  match k with
  | O => Ret ()
  | S k' => putc fd (digits !!! Z.to_nat (Z.shiftr x 60)) ;; printptr_loop fd k' (u64 (Z.shiftl x 4))
  end.
Definition printptr (fd x : Z) : U () := putc fd 48 ;; putc fd 120 ;; printptr_loop fd 16 x.

(** The variable arguments: the value of a register, or a string. *)
Inductive uarg := A_num (z : Z) | A_str (s : option (list Z)).

(** The body of the loop for the character [c] after a percent sign, with the rest of
    the loop as [k].  A missing or mistyped argument is undefined in C; the model
    stops. *)
Definition directive (fd c : Z) (args : list uarg) (k : list uarg -> U ()) : U () :=
  if c =? 100 then
    match args with A_num z :: args' => printint fd (i32 z) 10 true ;; k args' | _ => Out end
  else if c =? 108 then
    match args with A_num z :: args' => printint fd (i32 (u64 z)) 10 false ;; k args' | _ => Out end
  else if c =? 120 then
    match args with A_num z :: args' => printint fd (i32 z) 16 false ;; k args' | _ => Out end
  else if c =? 112 then
    match args with A_num z :: args' => printptr fd (u64 z) ;; k args' | _ => Out end
  else if c =? 115 then
    match args with A_str s :: args' => ufor (default (bytes "(null)") s) (putc fd) ;; k args' | _ => Out end
  else if c =? 99 then
    match args with A_num z :: args' => putc fd (u32 z) ;; k args' | _ => Out end
  else if c =? 37 then putc fd c ;; k args
  else putc fd 37 ;; putc fd c ;; k args.

(** The loop over the format; [state] is 0 or a percent sign. *)
Fixpoint vprintf_loop (fd : Z) (fmt : list Z) (state : Z) (args : list uarg) : U () :=
  match fmt with
  | [] => Ret ()
  | c :: fmt' =>
      if state =? 0 then
        if c =? 37 then vprintf_loop fd fmt' 37 args
        else putc fd c ;; vprintf_loop fd fmt' state args
      else directive fd c args (vprintf_loop fd fmt' 0)
  end.
Definition vprintf (fd : Z) (fmt : list Z) (args : list uarg) : U () := vprintf_loop fd fmt 0 args.
Definition fprintf (fd : Z) (fmt : list Z) (args : list uarg) : U () := vprintf fd fmt args.
Definition printf (fmt : list Z) (args : list uarg) : U () := vprintf 1 fmt args.

End Uprintf.
Import Uprintf.

(** ** Running a sequence *)

Lemma run_bind resolve chop {A B} (p : U A) (f : A -> U B) m : run resolve chop (x ← p; f x) m =
  match run resolve chop p m with
  | (Done a, m') => run resolve chop (f a) m'
  | (Exited n, m') => (Exited n, m')
  | (NoFuelLeft, m') => (NoFuelLeft, m')
  | (NotModelled, m') => (NotModelled, m')
  end.
Proof.
  unfold mbind, U_bind. revert m. induction p as [a|n| |c k IH|fd n k IH|fd k IH|k IH|k IH]; intros m; cbn [ubind run]; try done.
  - destruct (do_sys resolve c m) as [[r m']|]; [apply IH|done].
  - destruct (do_read chop fd n m) as [r m']. apply IH.
Qed.

Section Print.
Context (resolve : list Z -> option node) (chop : list Z -> Z -> nat).
Abbreviation go := (run resolve chop).

(** The machine after [text] was written to [fd], character by character. *)
Definition said (fd : Z) (text : list Z) (m : machine) : machine :=
  Machine (m_fds m) (m_out m ++ ((fun c => (fd, [c])) <$> text)).
Definition is_open (m : machine) (fd : Z) : Prop := is_Some (fd_of m fd).

Lemma said_nil fd m : said fd [] m = m.
Proof. unfold said. cbn. rewrite app_nil_r. by destruct m. Qed.
Lemma said_said fd s t m : said fd t (said fd s m) = said fd (s ++ t) m.
Proof. unfold said. cbn. by rewrite fmap_app, app_assoc. Qed.
Lemma said_open fd s m fd' : is_open (said fd s m) fd' <-> is_open m fd'.
Proof. done. Qed.

(** [p] prints [text] and does nothing else. *)
Definition prints (fd : Z) (p : U ()) (text : list Z) : Prop :=
  forall m, is_open m fd -> go p m = (Done (), said fd text m).

Lemma prints_nil fd : prints fd (Ret ()) [].
Proof. intros m _. by rewrite said_nil. Qed.
Lemma prints_app fd p q s t : prints fd p s -> prints fd q t -> prints fd (p ;; q) (s ++ t).
Proof. intros Hp Hq m Hm. rewrite run_bind, (Hp m Hm), (Hq (said fd s m) Hm). by rewrite said_said. Qed.
Lemma prints_putc fd c : prints fd (putc fd c) [u8 c].
Proof. intros m [f Hf]. unfold putc. rewrite run_bind. cbn. rewrite Hf. done. Qed.
Lemma prints_chars fd l : Forall (fun c => 0 <= c < 256) l -> prints fd (ufor l (putc fd)) l.
Proof.
  induction 1 as [|c l Hc Hl IH]; cbn [ufor]; [apply prints_nil|]. change (c :: l) with ([c] ++ l).
  apply prints_app; [|done]. rewrite <- (u8_id c) at 2 by lia. apply prints_putc.
Qed.
End Print.

(** ** Numerals *)

Lemma bytes_app s t : bytes (s +:+ t) = bytes s ++ bytes t.
Proof.
  unfold bytes. rewrite <- fmap_app. f_equal. induction s as [|c s IH]; [reflexivity|].
  change (String.list_ascii_of_string (String c s +:+ t)) with (c :: String.list_ascii_of_string (s +:+ t)). by rewrite IH.
Qed.

Lemma digit_pretty d : 0 <= d < 10 -> bytes (String (pretty_N_char (Z.to_N d)) "") = [digits !!! Z.to_nat d].
Proof.
  intros Hd. assert (H : d = 0 \/ d = 1 \/ d = 2 \/ d = 3 \/ d = 4 \/ d = 5 \/ d = 6 \/ d = 7 \/ d = 8 \/ d = 9) by lia.
  by destruct_or! H; subst d.
Qed.

Lemma int_digits_pretty fuel x s : 0 < x < 10 ^ Z.of_nat fuel ->
  bytes (pretty_N_go (Z.to_N x) s) = rev (int_digits fuel x 10) ++ bytes s.
Proof.
  revert x s. induction fuel as [|f IH]; intros x s Hx; [cbn in Hx; lia|]. rewrite Nat2Z.inj_succ, Z.pow_succ_r in Hx by lia.
  rewrite pretty_N_go_step by lia. cbn [int_digits rev]. pose proof (Z.mod_pos_bound x 10 ltac:(lia)) as Hm.
  replace (Z.to_N x `mod` 10)%N with (Z.to_N (x mod 10)) by (rewrite Z2N.inj_mod by lia; done).
  replace (Z.to_N x `div` 10)%N with (Z.to_N (x / 10)) by (rewrite Z2N.inj_div by lia; done).
  assert (E : bytes (String (pretty_N_char (Z.to_N (x mod 10))) s) = [digits !!! Z.to_nat (x mod 10)] ++ bytes s).
  { change (String (pretty_N_char (Z.to_N (x mod 10))) s) with (String (pretty_N_char (Z.to_N (x mod 10))) "" +:+ s).
    rewrite bytes_app, digit_pretty by done. done. }
  destruct (Z.eqb_spec (x / 10) 0) as [Hz|Hz].
  - rewrite Hz. cbn [Z.to_N rev app]. rewrite pretty_N_go_0. exact E.
  - rewrite IH, E, <- app_assoc; [done|]. pose proof (Z.div_pos x 10 ltac:(lia) ltac:(lia)). split; [lia|]. apply Z.div_lt_upper_bound; lia.
Qed.

Lemma int_digits_dec x : 0 <= x < 2 ^ 32 -> rev (int_digits 32 x 10) = bytes (pretty x).
Proof.
  intros Hx. destruct x as [|p|p]; [done| |lia].
  change (pretty (Z.pos p)) with (pretty_N_go (Z.to_N (Z.pos p)) ""). rewrite (int_digits_pretty 32).
  - by rewrite app_nil_r.
  - split; [lia|]. assert (2 ^ 32 < 10 ^ Z.of_nat 32) by reflexivity. lia.
Qed.

(** The text of a signed number is the library's decimal numeral. *)
Lemma printint_dec xx : - 2 ^ 31 <= xx < 2 ^ 31 -> rev (printint_buf xx 10 true) = bytes (pretty xx).
Proof.
  intros Hx. unfold printint_buf. cbn [andb]. destruct (Z.ltb_spec xx 0).
  - rewrite rev_app_distr. cbn [rev app]. rewrite u32_id by lia. rewrite int_digits_dec by lia.
    destruct xx as [|p|p]; [lia..|]. cbn [Z.opp]. change (pretty (Z.neg p)) with ("-" +:+ pretty (Z.pos p)). rewrite bytes_app. done.
  - rewrite app_nil_r, u32_id by lia. apply int_digits_dec. lia.
Qed.
Lemma printint_unsigned xx : rev (printint_buf xx 10 false) = bytes (pretty (u32 xx)).
Proof. unfold printint_buf. cbn [andb]. rewrite app_nil_r. apply int_digits_dec, u32_range. Qed.

Definition hex_val (c : Z) : Z := if c <=? 57 then c - 48 else c - 55.
Definition hex_value (l : list Z) : Z := fold_left (fun a c => a * 16 + hex_val c) l 0.
Definition is_hex (c : Z) : Prop := 48 <= c <= 57 \/ 65 <= c <= 70.

Lemma digit_dec d : 0 <= d < 10 -> digits !!! Z.to_nat d = 48 + d.
Proof.
  intros Hd. assert (H : d = 0 \/ d = 1 \/ d = 2 \/ d = 3 \/ d = 4 \/ d = 5 \/ d = 6 \/ d = 7 \/ d = 8 \/ d = 9) by lia.
  by destruct_or! H; subst d.
Qed.
Lemma dec_value_snoc l c : dec_value (l ++ [c]) = dec_value l * 10 + (c - 48).
Proof. unfold dec_value. by rewrite fold_left_app. Qed.

Lemma int_digits_value fuel x : 0 <= x < 10 ^ Z.of_nat fuel -> (0 < fuel)%nat ->
  dec_value (rev (int_digits fuel x 10)) = x /\ Forall is_digit (int_digits fuel x 10) /\ (length (int_digits fuel x 10) <= fuel)%nat.
Proof.
  revert x. induction fuel as [|f IH]; intros x Hx Hf; [lia|]. cbn [int_digits rev]. rewrite Nat2Z.inj_succ, Z.pow_succ_r in Hx by lia.
  pose proof (Z.mod_pos_bound x 10 ltac:(lia)) as Hm. rewrite (digit_dec (x mod 10) Hm).
  pose proof (Z.div_mod x 10 ltac:(lia)) as Hdm. rewrite dec_value_snoc. destruct (Z.eqb_spec (x / 10) 0) as [E|E].
  - cbn. split_and!; [lia| |lia]. apply Forall_singleton. unfold is_digit. lia.
  - assert (Hq : 0 <= x / 10 < 10 ^ Z.of_nat f) by (split; [apply Z.div_pos; lia|apply Z.div_lt_upper_bound; lia]).
    destruct f as [|f]; [cbn in Hq; lia|]. destruct (IH (x / 10) Hq ltac:(lia)) as (I1 & I2 & I3). rewrite I1.
    split_and!; [lia| |cbn [length] in *; lia]. constructor; [unfold is_digit; lia|done].
Qed.

Lemma digit_hex d : 0 <= d < 16 -> hex_val (digits !!! Z.to_nat d) = d /\ is_hex (digits !!! Z.to_nat d).
Proof.
  intros Hd. assert (H : d = 0 \/ d = 1 \/ d = 2 \/ d = 3 \/ d = 4 \/ d = 5 \/ d = 6 \/ d = 7 \/ d = 8 \/ d = 9 \/ d = 10 \/ d = 11 \/
    d = 12 \/ d = 13 \/ d = 14 \/ d = 15) by lia. unfold is_hex.
  destruct_or! H; subst d; vm_compute; intuition discriminate.
Qed.
Lemma hex_value_from l a : fold_left (fun a c => a * 16 + hex_val c) l a = a * 16 ^ Z.of_nat (length l) + hex_value l.
Proof.
  unfold hex_value. revert a. induction l as [|c l IH]; intros a; cbn [fold_left length]; [cbn; lia|].
  rewrite IH, (IH (0 * 16 + hex_val c)), Nat2Z.inj_succ, Z.pow_succ_r by lia. lia.
Qed.
Lemma hex_value_snoc l c : hex_value (l ++ [c]) = hex_value l * 16 + hex_val c.
Proof. unfold hex_value. by rewrite fold_left_app. Qed.

(** The hexadecimal numeral of a number: no zero in front but for 0 itself. *)
Record hex_numeral (l : list Z) (x : Z) : Prop := {
  hn_digits : Forall is_hex l;
  hn_value : hex_value l = x;
  hn_short : head l = Some 48 -> l = [48];
  hn_some : l <> [];
}.

Lemma int_digits_hex fuel x : 0 <= x < 16 ^ Z.of_nat fuel -> (0 < fuel)%nat -> hex_numeral (rev (int_digits fuel x 16)) x.
Proof.
  revert x. induction fuel as [|f IH]; intros x Hx Hf; [lia|]. cbn [int_digits rev]. rewrite Nat2Z.inj_succ, Z.pow_succ_r in Hx by lia.
  pose proof (Z.mod_pos_bound x 16 ltac:(lia)) as Hm. destruct (digit_hex (x mod 16) Hm) as [D1 D2].
  pose proof (Z.div_mod x 16 ltac:(lia)) as Hdm. destruct (Z.eqb_spec (x / 16) 0) as [E|E].
  - cbn [rev app]. split; [by apply Forall_singleton|unfold hex_value; cbn; lia| |done]. intros [= H]. by rewrite H.
  - assert (Hq : 0 <= x / 16 < 16 ^ Z.of_nat f) by (split; [apply Z.div_pos; lia|apply Z.div_lt_upper_bound; lia]).
    destruct f as [|f]; [cbn in Hq; lia|]. destruct (IH (x / 16) Hq ltac:(lia)) as [I1 I2 I3 I4].
    set (l := rev _) in *. split.
    + apply Forall_app. split; [done|by apply Forall_singleton].
    + rewrite hex_value_snoc, I2, D1. lia.
    + destruct l as [|c l']; [done|]. cbn [app head]. intros [= ->]. specialize (I3 eq_refl). injection I3 as ->.
      cbn in I2. lia.
    + by destruct l.
Qed.

Fixpoint ptr_digits (k : nat) (x : Z) : list Z :=
  match k with O => [] | S k' => digits !!! Z.to_nat (Z.shiftr x 60) :: ptr_digits k' (u64 (Z.shiftl x 4)) end.

Lemma ptr_digits_ok k x : (k <= 16)%nat -> 0 <= x < 2 ^ 64 ->
  Forall is_hex (ptr_digits k x) /\ length (ptr_digits k x) = k /\ hex_value (ptr_digits k x) = x / 2 ^ (64 - 4 * Z.of_nat k).
Proof.
  revert x. induction k as [|k IH]; intros x Hk Hx; cbn [ptr_digits].
  - split_and!; [constructor|done|]. symmetry. apply Z.div_small. exact Hx.
  - rewrite Z.shiftr_div_pow2, Z.shiftl_mul_pow2 by lia. set (d := x / 2 ^ 60). set (r := x mod 2 ^ 60).
    pose proof (Z.div_mod x (2 ^ 60) ltac:(lia)) as Hdm. fold d r in Hdm. pose proof (Z.mod_pos_bound x (2 ^ 60) ltac:(lia)) as Hr. fold r in Hr.
    assert (Hd : 0 <= d < 16) by (unfold d; split; [apply Z.div_pos; lia|apply Z.div_lt_upper_bound; lia]).
    assert (E : u64 (x * 2 ^ 4) = r * 2 ^ 4).
    { unfold u64. symmetry. apply (Z.mod_unique _ _ d); lia. }
    rewrite E. destruct (IH (r * 2 ^ 4) ltac:(lia) ltac:(lia)) as (I1 & I2 & I3). destruct (digit_hex d Hd) as [D1 D2].
    split_and!; [by constructor|cbn; by rewrite I2|]. unfold hex_value. cbn [fold_left]. rewrite hex_value_from, I2, I3, D1.
    set (q := 64 - 4 * Z.of_nat (S k)). replace (64 - 4 * Z.of_nat k) with (q + 4) by (unfold q; lia).
    assert (0 <= q) by (unfold q; lia). rewrite Z.pow_add_r by lia.
    rewrite Z.div_mul_cancel_r by (try apply Z.pow_nonzero; lia).
    assert (Hp : 16 ^ Z.of_nat k * 2 ^ q = 2 ^ 60).
    { change 16 with (2 ^ 4). rewrite <- Z.pow_mul_r, <- Z.pow_add_r by lia. f_equal. unfold q. lia. }
    assert (Hx' : x = d * 16 ^ Z.of_nat k * 2 ^ q + r) by (rewrite <- Z.mul_assoc, Hp; lia).
    rewrite Hx' at 1. rewrite Z.div_add_l by (apply Z.pow_nonzero; lia). lia.
Qed.

(** ** The text of a format *)

(** The conversion [c] takes its argument and gives a text; the argument of %l is a
    uint64. *)
Inductive conv : Z -> list uarg -> list Z -> list uarg -> Prop :=
| C_int z args : conv 100 (A_num z :: args) (bytes (pretty (i32 z))) args
| C_long z args : conv 108 (A_num z :: args) (bytes (pretty (u64 z))) args
| C_hex z args t : hex_numeral t (u32 z) -> conv 120 (A_num z :: args) t args
| C_ptr z args t : Forall is_hex t -> length t = 16%nat -> hex_value t = u64 z -> conv 112 (A_num z :: args) (bytes "0x" ++ t) args
| C_str s args : conv 115 (A_str (Some s) :: args) s args
| C_null args : conv 115 (A_str None :: args) (bytes "(null)") args
| C_char z args : conv 99 (A_num z :: args) [u8 z] args
| C_percent args : conv 37 args (bytes "%") args
| C_unknown c args : c ∉ [100; 108; 120; 112; 115; 99; 37] -> conv c args [37; c] args.

Inductive renders : list Z -> list uarg -> list Z -> Prop :=
| R_end args : renders [] args []
| R_lone args : renders [37] args []
| R_char c fmt args t : c <> 37 -> renders fmt args t -> renders (c :: fmt) args (c :: t)
| R_conv c fmt args args' s t : conv c args s args' -> renders fmt args' t -> renders (37 :: c :: fmt) args (s ++ t).

(** The arguments that the format takes; those of %l are below 2^32. *)
Fixpoint fits (fmt : list Z) (args : list uarg) : Prop :=
  match fmt with
  | [] => True
  | c :: fmt' =>
      if c =? 37 then
        match fmt' with
        | [] => True
        | c' :: fmt'' =>
            if bool_decide (c' ∈ [100; 108; 120; 112; 99]) then
              match args with A_num z :: args' => (c' = 108 -> u64 z < 2 ^ 32) /\ fits fmt'' args' | _ => False end
            else if c' =? 115 then
              match args with A_str s :: args' => Forall (fun c => 0 <= c < 256) (default [] s) /\ fits fmt'' args' | _ => False end
            else fits fmt'' args
        end
      else fits fmt' args
  end.

Section Format.
Context (resolve : list Z -> option node) (chop : list Z -> Z -> nat).
Abbreviation prints := (prints resolve chop).

Lemma hex_char c : is_hex c -> 0 <= c < 256.
Proof. unfold is_hex. lia. Qed.

Lemma bytes_range s : Forall (fun c => 0 <= c < 256) (bytes s).
Proof.
  unfold bytes. apply Forall_fmap, Forall_forall. intros c _. cbn. pose proof (Ascii.N_ascii_bounded c). lia.
Qed.

Lemma prints_printptr fd x : 0 <= x < 2 ^ 64 -> prints fd (printptr fd x) (bytes "0x" ++ ptr_digits 16 x).
Proof.
  intros Hx. unfold printptr. change (bytes "0x" ++ ptr_digits 16 x) with ([48] ++ [120] ++ ptr_digits 16 x).
  apply prints_app; [apply (prints_putc _ _ fd 48)|]. apply prints_app; [apply (prints_putc _ _ fd 120)|].
  assert (Hk : (16 <= 16)%nat) by lia. revert x Hx Hk. generalize 16%nat at 1 3 4. induction n as [|k IH]; intros x Hx Hk; [apply prints_nil|].
  cbn [printptr_loop ptr_digits]. rewrite Z.shiftr_div_pow2 by lia. set (d := x / 2 ^ 60).
  assert (Hd : 0 <= d < 16) by (unfold d; split; [apply Z.div_pos; lia|apply Z.div_lt_upper_bound; lia]).
  destruct (digit_hex d Hd) as [_ D2%hex_char]. change (?a :: ?l) with ([a] ++ l).
  apply prints_app; [|apply IH; [apply u64_range|lia]]. rewrite <- (u8_id (digits !!! Z.to_nat d)) at 2 by lia. apply prints_putc.
Qed.

Lemma prints_printint fd xx base sgn text : rev (printint_buf xx base sgn) = text -> Forall (fun c => 0 <= c < 256) text ->
  prints fd (printint fd xx base sgn) text.
Proof. intros <- H. by apply prints_chars. Qed.

Lemma printint_hex xx : hex_numeral (rev (printint_buf xx 16 false)) (u32 xx).
Proof.
  unfold printint_buf. cbn [andb]. rewrite app_nil_r. apply int_digits_hex; [|lia].
  pose proof (u32_range xx). assert (2 ^ 32 < 16 ^ Z.of_nat 32) by reflexivity. lia.
Qed.
Lemma u32_i32 z : u32 (i32 z) = u32 z.
Proof. unfold u32, i32. rewrite Zminus_mod_idemp_l. f_equal. lia. Qed.
Lemma u32_u64 z : u32 (u64 z) = u32 z.
Proof. unfold u32, u64. apply Z.mod_mod_divide. by exists (2 ^ 32). Qed.

(** %l: printint takes an int, and prints the lower half of the argument. *)
Lemma prints_long fd z : prints fd (printint fd (i32 (u64 z)) 10 false) (bytes (pretty (u32 z))).
Proof. apply prints_printint; [|apply bytes_range]. by rewrite printint_unsigned, u32_i32, u32_u64. Qed.

(** The body for one conversion, followed by what the rest of the loop prints. *)
Lemma directive_ok fd c fmt args k : 0 <= c < 256 -> fits (37 :: c :: fmt) args ->
  (forall args', fits fmt args' -> exists t, renders fmt args' t /\ prints fd (k args') t) ->
  exists t, renders (37 :: c :: fmt) args t /\ prints fd (directive fd c args k) t.
Proof.
  intros Hc Hfit Hk. cbn [fits] in Hfit. change (37 =? 37) with true in Hfit. cbn iota in Hfit.
  assert (step : forall p s args', conv c args s args' -> prints fd p s -> fits fmt args' ->
    exists t, renders (37 :: c :: fmt) args t /\ prints fd (p ;; k args') t).
  { intros p s args' Hconv Hp Hf. destruct (Hk args' Hf) as (t & R & P). exists (s ++ t). split; [by eapply R_conv|by apply prints_app]. }
  unfold directive. case_bool_decide as Hin.
  - destruct args as [|[z|s] args]; [done| |done]. destruct Hfit as [Hl Hfit].
    rewrite !elem_of_cons in Hin. destruct_or! Hin; [..|by inversion Hin]; subst c; cbn [Z.eqb Pos.eqb].
    + apply (step _ (bytes (pretty (i32 z)))); [constructor| |done]. apply prints_printint; [apply printint_dec, i32_range|apply bytes_range].
    + apply (step _ (bytes (pretty (u64 z)))); [constructor| |done]. pose proof (prints_long fd z) as Hp.
      by rewrite <- u32_u64, u32_id in Hp by (pose proof (u64_range z); lia).
    + apply (step _ (rev (printint_buf (i32 z) 16 false))); [constructor; rewrite <- u32_i32; apply printint_hex| |done].
      apply prints_printint; [done|]. eapply Forall_impl; [apply (hn_digits _ _ (printint_hex (i32 z)))|apply hex_char].
    + destruct (ptr_digits_ok 16 (u64 z) ltac:(lia) (u64_range z)) as (H1 & H2 & H3). rewrite Z.div_1_r in H3.
      apply (step _ (bytes "0x" ++ ptr_digits 16 (u64 z))); [by constructor|apply prints_printptr, u64_range|done].
    + apply (step _ [u8 z]); [constructor| |done]. replace (u8 z) with (u8 (u32 z)); [apply prints_putc|].
      unfold u8, u32. apply Z.mod_mod_divide. by exists (2 ^ 24).
  - rewrite !not_elem_of_cons in Hin. destruct Hin as (N1 & N2 & N3 & N4 & N5 & _).
    rewrite !(proj2 (Z.eqb_neq _ _)) by done. destruct (Z.eqb_spec c 115) as [->|N6].
    + destruct args as [|[z|s] args]; [done..|]. destruct Hfit as [Hs Hfit].
      apply (step _ (default (bytes "(null)") s)); [destruct s; constructor| |done]. apply prints_chars.
      destruct s; [done|]. apply bytes_range.
    + rewrite (proj2 (Z.eqb_neq c 99)) by done. destruct (Z.eqb_spec c 37) as [->|N7].
      * apply (step _ [37]); [constructor|apply (prints_putc _ _ fd 37)|done].
      * destruct (Hk args Hfit) as (t & R & P). exists ([37; c] ++ t). split.
        { eapply R_conv; [|done]. constructor. set_solver. }
        change ([37; c] ++ t) with ([37] ++ [c] ++ t). apply prints_app; [apply (prints_putc _ _ fd 37)|].
        apply prints_app; [|done]. rewrite <- (u8_id c) at 2 by lia. apply prints_putc.
Qed.

Lemma vprintf_loop_ok fd fmt : Forall (fun c => 0 <= c < 256) fmt ->
  (forall args, fits fmt args -> exists t, renders fmt args t /\ prints fd (vprintf_loop fd fmt 0 args) t) /\
  (forall args, fits (37 :: fmt) args -> exists t, renders (37 :: fmt) args t /\ prints fd (vprintf_loop fd fmt 37 args) t).
Proof.
  induction 1 as [|c fmt Hc Hf [IH0 IH37]].
  - split; intros args _; exists []; (split; [constructor|apply prints_nil]).
  - split; intros args Hfit.
    + cbn [vprintf_loop]. change (0 =? 0) with true. cbn iota. destruct (Z.eqb_spec c 37) as [->|Hne].
      * by apply IH37.
      * cbn [fits] in Hfit. rewrite (proj2 (Z.eqb_neq c 37)) in Hfit by done. destruct (IH0 args Hfit) as (t & R & P).
        exists (c :: t). split; [by constructor|]. change (c :: t) with ([c] ++ t). apply prints_app; [|done].
        rewrite <- (u8_id c) at 2 by lia. apply prints_putc.
    + cbn [vprintf_loop]. change (37 =? 0) with false. cbn iota. by apply (directive_ok fd c fmt).
Qed.
End Format.

Lemma vprintf_text resolve chop fd fmt args m : Forall (fun c => 0 <= c < 256) fmt -> fits fmt args -> is_open m fd ->
  exists text, renders fmt args text /\ run resolve chop (vprintf fd fmt args) m = (Done (), said fd text m).
Proof.
  intros Hf Hfit Ho. destruct (proj1 (vprintf_loop_ok resolve chop fd fmt Hf) args Hfit) as (t & R & P).
  exists t. split; [done|]. by apply P.
Qed.

(** ** Properties *)

(** C35: vprintf with the arguments its format takes writes exactly the text of the format
    to the descriptor, one character at a time: decimal numerals for %d, and for %l when
    its uint64 argument is below 2^32 (see [printf_long] for the others), hexadecimal
    ones for %x, sixteen digits for %p, strings and (null) for %s, characters, a
    percent sign, and unknown conversions as they stand. *)
Theorem vprintf_correct resolve chop fd fmt args m : Forall (fun c => 0 <= c < 256) fmt -> fits fmt args -> is_open m fd ->
  exists text, renders fmt args text /\ run resolve chop (vprintf fd fmt args) m = (Done (), said fd text m).
Proof. apply vprintf_text. Qed.

(** printint and atoi are inverse: the text that printf writes for a number that is
    not negative is read back as that number by atoi. *)
Theorem printint_atoi x fuel mm s : 0 <= x < 2 ^ 31 -> (32 < fuel)%nat ->
  is_cstr mm s (rev (printint_buf x 10 true)) -> Ulib.atoi fuel mm s = Some x.
Proof.
  intros Hx Hf H. assert (E : rev (printint_buf x 10 true) = rev (int_digits 32 x 10)).
  { unfold printint_buf. cbn [andb]. rewrite (proj2 (Z.ltb_ge x 0)) by lia. rewrite app_nil_r, u32_id by lia. done. }
  destruct (int_digits_value 32 x) as (V1 & V2 & V3); [assert (2 ^ 31 < 10 ^ Z.of_nat 32) by reflexivity; lia|lia|].
  rewrite E in H. rewrite <- V1 at 1. apply (atoi_correct fuel mm s _ []); [by rewrite app_nil_r|by apply Forall_rev|done| |lia].
  rewrite length_rev. lia.
Qed.

(** The argument of %l is a uint64, but printint takes an int: printf prints the lower
    32 bits, so for 2^32 + 1 it prints 1. *)
Theorem printf_long resolve chop z m : is_open m 1 ->
  run resolve chop (printf (bytes "%l") [A_num z]) m = (Done (), said 1 (bytes (pretty (u32 z))) m) /\
  bytes (pretty (u32 (2 ^ 32 + 1))) = bytes "1".
Proof.
  intros Ho. split; [|done]. unfold printf, vprintf. cbn [bytes fmap list_fmap vprintf_loop String.list_ascii_of_string].
  pose proof (prints_app resolve chop 1 _ (Ret ()) _ [] (prints_long resolve chop 1 z) (prints_nil resolve chop 1)) as P.
  rewrite app_nil_r in P. by apply P.
Qed.

(** "%d, %s" with -5 and a string. *)
Definition out_only : machine := Machine [None; Some (Ofile (NDev 1) [])] [].
Lemma vprintf_correct_witness : exists text, renders (bytes "%d, %s") [A_num (-5); A_str (Some [104; 105])] text /\
  run (fun _ => None) (fun _ _ => O) (vprintf 1 (bytes "%d, %s") [A_num (-5); A_str (Some [104; 105])]) out_only = (Done (), said 1 text out_only).
Proof.
  apply (vprintf_correct (fun _ => None) (fun _ _ => O) 1 (bytes "%d, %s") [A_num (-5); A_str (Some [104; 105])] out_only).
  - apply bytes_range.
  - vm_compute. repeat constructor; discriminate.
  - by eexists.
Defined.
Definition num_mem : mem := wr (wr ∅ 50 52) 51 50.
Lemma printint_atoi_witness : rev (printint_buf 42 10 true) = [52; 50] /\ Ulib.atoi 33 num_mem 50 = Some 42.
Proof.
  split; [done|]. apply (printint_atoi 42 33 num_mem 50); [lia|lia|]. vm_compute. repeat split; discriminate.
Defined.
Lemma printf_long_witness :
  run (fun _ => None) (fun _ _ => O) (printf (bytes "%l") [A_num (2 ^ 32 + 1)]) out_only = (Done (), said 1 (bytes (pretty (u32 (2 ^ 32 + 1)))) out_only) /\
  bytes (pretty (u32 (2 ^ 32 + 1))) = bytes "1".
Proof. apply (printf_long (fun _ => None) (fun _ _ => O) (2 ^ 32 + 1) out_only). by eexists. Defined.
