(* ===== verification/Progs.v ===== *)
(** * The small user programs

    user/cat.c, wc.c, echo.c, find.c, ls.c, init.c, kill.c, ln.c, mkdir.c, rm.c,
    sleep.c, trace.c and pingpong.c as trees of system calls (User.v).  [argv] is the list of the
    arguments, the program's name first; reading an argument that is not there is
    undefined in C, and the model stops.  A path is its bytes before the NUL. *)
From stdpp Require Import prelude gmap strings.
From Stdlib Require Import ZArith Lia.
From S2P Require Import Prelude Memory CString Bytes User Ulib Uprintf.
Import User Uprintf.
Open Scope Z_scope.

Definition nl (s : string) : list Z := bytes s ++ [10].
Definition DIRSIZ : nat := 14.
Definition sizeof_dirent : Z := 16.

(** [argv[i]] *)
Definition arg (argv : list (list Z)) (i : nat) : U (list Z) := match argv !! i with Some a => Ret a | None => Out end.

(** The characters of [s] as the value of atoi(), which wraps around. *)
Fixpoint atoi_from (n : Z) (s : list Z) : Z :=
  match s with
  | c :: s' => if (48 <=? c) && (c <=? 57) then atoi_from (i32 (n * 10 + c - 48)) s' else n
  | [] => n
  end.
Definition atoi (s : list Z) : Z := atoi_from 0 s.

Module Cat.
Definition cat_body (fd : Z) (_ : ()) : U (() + ()) :=
  n ← uread fd 512;
  match n with
  | None => fprintf 2 (nl "cat: read error") [] ;; Exit 1
  | Some [] => Ret (inr ())
  | Some buf =>
      w ← sys (Write 1 buf);
      if negb (w =? Z.of_nat (length buf)) then fprintf 2 (nl "cat: write error") [] ;; Exit 1 else Ret (inl ())
  end.
Definition cat (fuel : nat) (fd : Z) : U () := uloop fuel (cat_body fd) ().

Definition cat_file (fuel : nat) (name : list Z) : U () :=
  fd ← sys (Open name 0);
  if fd <? 0 then fprintf 2 (nl "cat: cannot open %s") [A_str (Some name)] ;; Exit 1
  else cat fuel fd ;; sys (Close fd) ;; Ret ().
Definition cat_main (fuel : nat) (argv : list (list Z)) : U () :=
  if (length argv <=? 1)%nat then cat fuel 0 ;; Exit 0
  else ufor (drop 1 argv) (cat_file fuel) ;; Exit 0.
End Cat.

Module Wc.
(** The counters [l], [w], [c] and [inword]. *)
Record counts := Counts { c_l : Z; c_w : Z; c_c : Z; inword : bool }.
Definition separators : list Z := [32; 13; 9; 10; 11].

(** One round of the inner loop; strchr() does not find a NUL among the separators. *)
Definition count (x : counts) (b : Z) : counts :=
  let c := i32 (c_c x + 1) in
  let l := if b =? 10 then i32 (c_l x + 1) else c_l x in
  if negb (b =? 0) && bool_decide (b ∈ separators) then Counts l (c_w x) c false
  else if negb (inword x) then Counts l (i32 (c_w x + 1)) c true
  else Counts l (c_w x) c (inword x).
Definition wc_body (fd : Z) (x : counts) : U (counts + option counts) :=
  n ← uread fd 512;
  match n with
  | None => Ret (inr None)
  | Some [] => Ret (inr (Some x))
  | Some buf => Ret (inl (fold_left count buf x))
  end.
Definition wc (fuel : nat) (fd : Z) (name : list Z) : U () :=
  r ← uloop fuel (wc_body fd) (Counts 0 0 0 false);
  match r with
  | None => printf (nl "wc: read error") [] ;; Exit 1
  | Some x => printf (nl "%d %d %d %s") [A_num (c_l x); A_num (c_w x); A_num (c_c x); A_str (Some name)]
  end.
Definition wc_file (fuel : nat) (name : list Z) : U () :=
  fd ← sys (Open name 0);
  if fd <? 0 then printf (nl "wc: cannot open %s") [A_str (Some name)] ;; Exit 1
  else wc fuel fd name ;; sys (Close fd) ;; Ret ().
Definition wc_main (fuel : nat) (argv : list (list Z)) : U () :=
  if (length argv <=? 1)%nat then wc fuel 0 [] ;; Exit 0
  else ufor (drop 1 argv) (wc_file fuel) ;; Exit 0.
End Wc.

Module Echo.
(** [write(1, argv[i], strlen(argv[i]))] and the separator after it. *)
Fixpoint echo_args (args : list (list Z)) : U () :=
  match args with
  | [] => Ret ()
  | a :: rest =>
      sys (Write 1 a) ;;
      sys (Write 1 (match rest with _ :: _ => [32] | [] => [10] end)) ;;
      echo_args rest
  end.
Definition echo_main (argv : list (list Z)) : U () := echo_args (drop 1 argv) ;; Exit 0.
End Echo.

(** ** Names of files *)

(** The characters after the last slash. *)
Definition basename (path : list Z) : list Z :=
  rev ((fix go l := match l with [] => [] | c :: l' => if c =? 47 then [] else c :: go l' end) (rev path)).
(** The characters before the first NUL. *)
Fixpoint cstr (l : list Z) : list Z := match l with [] => [] | c :: l' => if c =? 0 then [] else c :: cstr l' end.

Definition de_inum (de : list Z) : Z := get_le 2 0 de.
Definition de_name (de : list Z) : list Z := slice 2 14 de.

Module Find.
(** fmtname() copies a short name into its static buffer and fills it with NULs: as a
    string it is the name. *)
Definition fmtname (path : list Z) : list Z :=
  let p := basename path in
  if (DIRSIZ <=? length p)%nat then p else cstr (p ++ repeat 0 (DIRSIZ - length p) ++ [0]).

Definition path_too_long (path : list Z) : bool := (512 <? length path + 1 + DIRSIZ + 1)%nat.

(** [while(read(fd, &de, sizeof de) == sizeof de)], with the recursive call. *)
Definition find_body (rec : list Z -> U ()) (path : list Z) (fd : Z) (_ : ()) : U (() + ()) :=
  r ← uread fd sizeof_dirent;
  match r with
  | Some de =>
      if negb (Z.of_nat (length de) =? sizeof_dirent) then Ret (inr ())
      else if de_inum de =? 0 then Ret (inl ())
      else if bool_decide (cstr (de_name de) = [46]) then Ret (inl ())
      else if bool_decide (cstr (de_name de) = [46; 46]) then Ret (inl ())
      else rec (path ++ [47] ++ cstr (de_name de)) ;; Ret (inl ())
  | None => Ret (inr ())
  end.
Fixpoint find (fuel : nat) (path target : list Z) : U () :=
  match fuel with
  | O => Out
  | S f =>
      fd ← sys (Open path 0);
      if fd <? 0 then fprintf 2 (nl "can`t open %s") [A_str (Some path)] ;; Exit 0
      else
        st ← ufstat fd;
        match st with
        | None => sys (Close fd) ;; fprintf 2 (nl "can`t stat %s") [A_str (Some path)] ;; Exit 0
        | Some st =>
            (if st_type st =? T_DIR then
               if path_too_long path then printf (nl "find: path too long") []
               else uloop fuel (find_body (fun p => find f p target) path fd) ()
             else if st_type st =? T_FILE then
               if bool_decide (fmtname path = target) then printf (nl "%s") [A_str (Some path)] else Ret ()
             else Ret ()) ;;
            sys (Close fd) ;; Ret ()
        end
  end.
Definition find_main (fuel : nat) (argv : list (list Z)) : U () :=
  if (3 <? length argv)%nat then fprintf 2 (bytes "useage:find from_path filename") [] ;; Exit 0
  else
    path ← arg argv 1;
    fd ← sys (Open path 0);
    if fd <? 0 then fprintf 2 (nl "can`t open %s") [A_str (Some path)] ;; Exit 0
    else
      st ← ufstat fd;
      match st with
      | None => fprintf 2 (nl "can`t stat %s") [A_str (Some path)] ;; sys (Close fd) ;; Exit 0
      | Some st =>
          if st_type st =? T_FILE then
            fprintf 2 (nl "%s is not directory") [A_str (Some path)] ;; sys (Close fd) ;; Exit 0
          else target ← arg argv 2; find fuel path target ;; Exit 0
      end.
End Find.

Module Ls.
(** The blank-padded name; a NUL after it is in the static buffer. *)
Definition ls_fmtname (path : list Z) : list Z :=
  let p := basename path in
  if (DIRSIZ <=? length p)%nat then p else p ++ repeat 32 (DIRSIZ - length p).

(** [stat(n, st)] of ulib.c. *)
Definition stat (n : list Z) : U (option ustat) :=
  fd ← sys (Open n 0);
  if fd <? 0 then Ret None else r ← ufstat fd; sys (Close fd) ;; Ret r.

Definition ls_body (path : list Z) (fd : Z) (_ : ()) : U (() + ()) :=
  r ← uread fd sizeof_dirent;
  match r with
  | Some de =>
      if negb (Z.of_nat (length de) =? sizeof_dirent) then Ret (inr ())
      else if de_inum de =? 0 then Ret (inl ())
      else
        let buf := path ++ [47] ++ cstr (de_name de) in
        st ← stat buf;
        match st with
        | None => printf (nl "ls: cannot stat %s") [A_str (Some buf)] ;; Ret (inl ())
        | Some st =>
            printf (nl "%s %d %d %d") [A_str (Some (ls_fmtname buf)); A_num (st_type st); A_num (st_ino st); A_num (st_size st)] ;;
            Ret (inl ())
        end
  | None => Ret (inr ())
  end.
Definition ls (fuel : nat) (path : list Z) : U () :=
  fd ← sys (Open path 0);
  if fd <? 0 then fprintf 2 (nl "ls: cannot open %s") [A_str (Some path)]
  else
    st ← ufstat fd;
    match st with
    | None => fprintf 2 (nl "ls: cannot stat %s") [A_str (Some path)] ;; sys (Close fd) ;; Ret ()
    | Some st =>
        (if st_type st =? T_FILE then
           printf (nl "%s %d %d %l") [A_str (Some (ls_fmtname path)); A_num (st_type st); A_num (st_ino st); A_num (st_size st)]
         else if st_type st =? T_DIR then
           if (512 <? length path + 1 + DIRSIZ + 1)%nat then printf (nl "ls: path too long") []
           else uloop fuel (ls_body path fd) ()
         else Ret ()) ;;
        sys (Close fd) ;; Ret ()
    end.
Definition ls_main (fuel : nat) (argv : list (list Z)) : U () :=
  if (length argv <? 2)%nat then ls fuel [46] ;; Exit 0
  else ufor (drop 1 argv) (ls fuel) ;; Exit 0.
End Ls.

Module Init.
(** The inner loop: wait until the shell has exited. *)
Definition wait_body (pid : Z) (_ : ()) : U (() + ()) :=
  wpid ← sys Wait;
  if wpid =? pid then Ret (inr ())
  else if wpid <? 0 then printf (nl "init: wait returned an error") [] ;; Exit 1
  else Ret (inl ()).
Definition init_body (fuel : nat) (_ : ()) : U (() + ()) :=
  printf (nl "init: starting sh") [] ;;
  Fork (fun pid =>
    if pid <? 0 then printf (nl "init: fork failed") [] ;; Exit 1
    else if pid =? 0 then
      sys (Exec (bytes "sh") [bytes "sh"]) ;;
      printf (nl "init: exec sh failed") [] ;;
      Exit 1
    else uloop fuel (wait_body pid) () ;; Ret (inl ())).
Definition init_main (fuel : nat) : U () :=
  fd ← sys (Open (bytes "console") 2);
  (if fd <? 0 then sys (Mknod (bytes "console") 1 0) ;; sys (Open (bytes "console") 2) ;; Ret () else Ret ()) ;;
  sys (Dup 0) ;;
  sys (Dup 0) ;;
  uloop fuel (init_body fuel) ().
End Init.

Module Small.
Definition kill_main (argv : list (list Z)) : U () :=
  if (length argv <? 2)%nat then fprintf 2 (nl "usage: kill pid...") [] ;; Exit 1
  else ufor (drop 1 argv) (fun a => sys (Kill (atoi a)) ;; Ret ()) ;; Exit 0.

Definition ln_main (argv : list (list Z)) : U () :=
  match argv with
  | [_; old; new] =>
      r ← sys (Link old new);
      (if r <? 0 then fprintf 2 (nl "link %s %s: failed") [A_str (Some old); A_str (Some new)] else Ret ()) ;;
      Exit 0
  | _ => fprintf 2 (nl "Usage: ln old new") [] ;; Exit 1
  end.

(** The loop of mkdir and rm: the first failure ends it. *)
Fixpoint until_failure (call : list Z -> scall) (msg : string) (args : list (list Z)) : U () :=
  match args with
  | [] => Ret ()
  | a :: rest =>
      r ← sys (call a);
      if r <? 0 then fprintf 2 (nl msg) [A_str (Some a)] else until_failure call msg rest
  end.
Definition mkdir_main (argv : list (list Z)) : U () :=
  if (length argv <? 2)%nat then fprintf 2 (nl "Usage: mkdir files...") [] ;; Exit 1
  else until_failure Mkdir "mkdir: %s failed to create" (drop 1 argv) ;; Exit 0.
Definition rm_main (argv : list (list Z)) : U () :=
  if (length argv <? 2)%nat then fprintf 2 (nl "Usage: rm files...") [] ;; Exit 1
  else until_failure Unlink "rm: %s failed to delete" (drop 1 argv) ;; Exit 0.

(** The argument of sleep() is an int, the number a uint. *)
Definition sleep_main (argv : list (list Z)) : U () :=
  if (3 <=? length argv)%nat then printf (nl "error ,Usage:sleep number") [] ;; Exit 0
  else a ← arg argv 1; sys (Sleep (i32 (u32 (atoi a)))) ;; Exit 0.

Definition trace_main (argv : list (list Z)) : U () :=
  if (length argv <? 3)%nat then printf (nl "useage:trace mask command [command-args]") [] ;; Exit 0
  else
    a ← arg argv 1;
    r ← sys (Trace (atoi a));
    if r <? 0 then printf (nl "trace error") [] ;; Exit 0
    else
      cmd ← arg argv 2;
      r ← sys (Exec cmd (drop 2 argv));
      if r <? 0 then printf (nl "exec error") [] ;; Exit 0 else Exit 0.

(** The byte of the child is not initialised; [junk] is what it holds. *)
Definition pingpong_main (junk : Z) : U () :=
  Pipe (fun p =>
    match p with
    | None => printf (nl "can`t create pipe now") [] ;; Exit 0
    | Some (pfd0, pfd1) =>
        Fork (fun ret =>
          (if 0 <? ret then
             let byte := 111 in
             sys (Close pfd1) ;;
             sys (Write pfd0 [byte]) ;;
             uread pfd0 1 ;;
             pid ← sys Getpid;
             printf (nl "%d: received pong") [A_num pid] ;;
             sys (Close pfd0) ;; Ret ()
           else if ret =? 0 then
             sys (Close pfd0) ;;
             r ← uread pfd1 1;
             let byte := match r with Some [b] => b | _ => junk end in
             pid ← sys Getpid;
             printf (nl "%d: received ping") [A_num pid] ;;
             sys (Write pfd1 [byte]) ;;
             sys (Close pfd1) ;; Ret ()
           else printf (nl "fork error here") []) ;;
          Exit 0)
    end).
End Small.
