(* ===== verification/ProgsSpec.v ===== *)
(** * What cat and wc print

    However the kernel cuts up the reads, cat writes the contents of its files, and wc
    prints the numbers of lines, words and characters. *)
From stdpp Require Import prelude gmap strings.
From Stdlib Require Import ZArith Lia.
From S2P Require Import Prelude Memory CString Bytes User Ulib Uprintf Progs.
Import User Uprintf.
Open Scope Z_scope.

(** ** Output and descriptors *)

(** All that was written to [fd]. *)
Definition output (fd : Z) (m : machine) : list Z := concat (snd <$> filter (fun x => x.1 = fd) (m_out m)).

Lemma output_app fd fds out out' : output fd (Machine fds (out ++ out')) = output fd (Machine fds out) ++ output fd (Machine fds out').
Proof. unfold output. cbn [m_out]. by rewrite filter_app, fmap_app, concat_app. Qed.
Lemma output_write fd fds bs fds' : output fd (Machine fds [(fd, bs)]) = bs /\
  forall fd', fd' <> fd -> output fd' (Machine fds' [(fd, bs)]) = [].
Proof.
  split; [unfold output; cbn [m_out]|intros fd' Hne; unfold output; cbn [m_out]].
  - rewrite filter_cons_True by done. cbn. apply app_nil_r.
  - by rewrite filter_cons_False.
Qed.
Lemma output_said fd t m fd' : output fd' (said fd t m) = output fd' m ++ (if decide (fd' = fd) then t else []).
Proof.
  unfold said. rewrite output_app. change (output fd' (Machine (m_fds m) (m_out m))) with (output fd' m). f_equal.
  unfold output. cbn [m_out]. induction t as [|c t IH]; cbn [fmap list_fmap]; [by case_decide|]. case_decide as E.
  - rewrite filter_cons_True by done. cbn [fmap list_fmap concat snd app]. by rewrite IH.
  - rewrite filter_cons_False by (cbn; congruence). done.
Qed.

Lemma ulowest_spec {A} (l : list (option A)) i : lowest l = Some i -> l !! i = Some None.
Proof.
  revert i. induction l as [|[x|] l IH]; intros i; cbn [lowest]; [done| |by intros [= <-]].
  destruct (lowest l) as [j|]; cbn; [|done]. intros [= <-]. by apply IH.
Qed.

(** [m'] is [m] with the same descriptors and [t] written to [fd]. *)
Definition wrote (fd : Z) (t : list Z) (m m' : machine) : Prop :=
  m_fds m' = m_fds m /\ forall fd', output fd' m' = output fd' m ++ (if decide (fd' = fd) then t else []).

Lemma wrote_said fd t m : wrote fd t m (said fd t m).
Proof. split; [done|]. intros fd'. apply output_said. Qed.
Lemma wrote_nil fd m : wrote fd [] m m.
Proof. split; [done|]. intros fd'. case_decide; by rewrite app_nil_r. Qed.
Lemma wrote_trans fd s t m m1 m2 : wrote fd s m m1 -> wrote fd t m1 m2 -> wrote fd (s ++ t) m m2.
Proof.
  intros [F1 O1] [F2 O2]. split; [congruence|]. intros fd'. rewrite O2, O1, <- app_assoc. f_equal. by case_decide.
Qed.
Lemma wrote_fds fd t m m' fds : wrote fd t (Machine fds (m_out m)) m' -> m_fds m' = fds ->
  forall fd', output fd' m' = output fd' m ++ (if decide (fd' = fd) then t else []).
Proof. intros [_ O] _ fd'. by rewrite O. Qed.

(** ** Messages *)

Section Run.
Context (resolve : list Z -> option node) (chop : list Z -> Z -> nat).
Abbreviation go := (run resolve chop).

Lemma vprintf_plain fd l fmt args t : 37 ∉ l -> Forall (fun c => 0 <= c < 256) l ->
  prints resolve chop fd (vprintf_loop fd fmt 0 args) t -> prints resolve chop fd (vprintf_loop fd (l ++ fmt) 0 args) (l ++ t).
Proof.
  intros Hn Hl H. induction Hl as [|c l Hc Hl IH]; cbn [app]; [done|]. apply not_elem_of_cons in Hn as [H37 Hn].
  cbn [vprintf_loop]. change (0 =? 0) with true. cbn iota. rewrite (proj2 (Z.eqb_neq c 37)) by done.
  change (c :: l ++ t) with ([c] ++ l ++ t). apply prints_app; [|by apply IH].
  rewrite <- (u8_id c) at 2 by lia. apply prints_putc.
Qed.
Lemma prints_text fd l : 37 ∉ l -> Forall (fun c => 0 <= c < 256) l -> prints resolve chop fd (vprintf fd l []) l.
Proof.
  intros Hn Hl. unfold vprintf. rewrite <- (app_nil_r l) at 1 2. apply vprintf_plain; [done|done|apply prints_nil].
Qed.
(** One %s between two texts. *)
Lemma prints_string fd pre s post : 37 ∉ pre -> 37 ∉ post -> Forall (fun c => 0 <= c < 256) pre ->
  Forall (fun c => 0 <= c < 256) post -> Forall (fun c => 0 <= c < 256) s ->
  prints resolve chop fd (vprintf fd (pre ++ [37; 115] ++ post) [A_str (Some s)]) (pre ++ s ++ post).
Proof.
  intros H1 H2 H3 H4 H5. unfold vprintf. apply vprintf_plain; [done..|].
  change ([37; 115] ++ post) with (37 :: 115 :: post). cbn [vprintf_loop Z.eqb Pos.eqb]. unfold directive. cbn [Z.eqb Pos.eqb default].
  apply prints_app; [by apply prints_chars|]. rewrite <- (app_nil_r post) at 1 2. apply vprintf_plain; [done..|apply prints_nil].
Qed.

(** ** Files *)

Lemma run_open path mode n i m : resolve path = Some n -> lowest (m_fds m) = Some i ->
  go (sys (Open path mode)) m = (Done (Z.of_nat i), Machine (<[i := Some (Ofile n (node_data n))]> (m_fds m)) (m_out m)).
Proof. intros H1 H2. cbn. by rewrite H1, H2. Qed.
Lemma run_open_none path mode m : resolve path = None -> go (sys (Open path mode)) m = (Done (-1), m).
Proof. intros H1. cbn. by rewrite H1. Qed.
Lemma run_close i f m : m_fds m !! i = Some (Some f) ->
  go (sys (Close (Z.of_nat i))) m = (Done 0, Machine (<[i := None]> (m_fds m)) (m_out m)).
Proof.
  intros H. cbn. unfold fd_of. rewrite (proj2 (Z.ltb_ge _ 0)), Nat2Z.id, H by lia. done.
Qed.
Lemma run_read i f n m : m_fds m !! i = Some (Some f) ->
  go (uread (Z.of_nat i) n) m = (Done (Some (take (amount chop f n) (of_rest f))),
    Machine (<[i := Some (Ofile (of_node f) (drop (amount chop f n) (of_rest f)))]> (m_fds m)) (m_out m)).
Proof.
  intros H. cbn. unfold do_read, fd_of. rewrite (proj2 (Z.ltb_ge _ 0)), Nat2Z.id, H by lia. done.
Qed.
Lemma run_write fd bs m : is_open m fd ->
  go (sys (Write fd bs)) m = (Done (Z.of_nat (length bs)), Machine (m_fds m) (m_out m ++ [(fd, bs)])).
Proof. intros [f Hf]. cbn. by rewrite Hf. Qed.

Lemma run_next {X Y} f (body : X -> U (X + Y)) x x' m m' :
  go (body x) m = (Done (inl x'), m') -> go (uloop (S f) body x) m = go (uloop f body x') m'.
Proof. intros H. cbn [uloop]. by rewrite run_bind, H. Qed.
Lemma run_last {X Y} f (body : X -> U (X + Y)) x y m m' :
  go (body x) m = (Done (inr y), m') -> go (uloop (S f) body x) m = (Done y, m').
Proof. intros H. cbn [uloop]. by rewrite run_bind, H. Qed.

Lemma insert_open i x fds out : is_open (Machine fds out) 1 -> i <> 1%nat -> is_open (Machine (<[i := x]> fds) out) 1.
Proof. unfold is_open, fd_of. cbn [Z.ltb Z.compare]. cbn. intros H Hne. by rewrite list_lookup_insert_ne. Qed.
End Run.

Section Programs.
Context (resolve : list Z -> option node) (chop : list Z -> Z -> nat).
Context (Hchop : forall rest n, rest <> [] -> 0 < n -> (1 <= chop rest n <= Nat.min (Z.to_nat n) (length rest))%nat).
Abbreviation go := (run resolve chop).

(** A file that is open for reading as descriptor [i], with [rest] to read. *)
Definition reading (m : machine) (i : nat) (rest : list Z) : Prop :=
  exists ino data, m_fds m !! i = Some (Some (Ofile (NFile ino data) rest)).

Lemma lowest_not_1 m i : lowest (m_fds m) = Some i -> is_open m 1 -> i <> 1%nat.
Proof.
  intros H%ulowest_spec [f Hf] ->. change (fd_of m 1) with (mjoin (m_fds m !! 1%nat)) in Hf. by rewrite H in Hf.
Qed.

(** ** cat *)

(** What a read of an open file delivers. *)
Lemma read_chunk m i rest n : reading m i rest -> 0 < n -> exists k m',
  go (uread (Z.of_nat i) n) m = (Done (Some (take k rest)), m') /\ reading m' i (drop k rest) /\
  (exists f, m_fds m' = <[i := Some f]> (m_fds m)) /\ m_out m' = m_out m /\ (rest <> [] -> (1 <= k <= length rest)%nat).
Proof.
  intros (ino & data & Hi) Hn. eexists _, _. rewrite (run_read _ _ _ _ _ _ Hi). cbn [of_rest of_node]. split; [done|].
  split_and!; [|by eexists|done|].
  - exists ino, data. cbn [m_fds]. apply list_lookup_insert_eq. by apply (lookup_lt_Some _ _ _ Hi).
  - intros Hr. unfold amount. cbn [of_node of_rest]. pose proof (Hchop rest n Hr Hn). lia.
Qed.
Lemma take_cons k (rest : list Z) : rest <> [] -> (1 <= k <= length rest)%nat -> exists b bs, take k rest = b :: bs.
Proof.
  intros Hr Hk. destruct (take k rest) as [|b bs] eqn:Et; [|by exists b, bs].
  apply (f_equal length) in Et. rewrite length_take in Et. cbn in Et. lia.
Qed.

Lemma cat_loop fuel : forall m i rest, reading m i rest -> is_open m 1 -> i <> 1%nat -> (length rest < fuel)%nat ->
  exists m' f, go (Cat.cat fuel (Z.of_nat i)) m = (Done (), m') /\ m_fds m' = <[i := Some f]> (m_fds m) /\
    forall fd, output fd m' = output fd m ++ (if decide (fd = 1) then rest else []).
Proof.
  induction fuel as [|fuel IH]; intros m i rest Hread Ho Hne Hf; [lia|]. unfold Cat.cat in *.
  destruct (read_chunk m i rest 512 Hread ltac:(lia)) as (k & m1 & E1 & R1 & (f1 & F1) & O1 & Hk).
  destruct (decide (rest = [])) as [->|Hr].
  - rewrite take_nil in E1. exists m1, f1. split; [|split; [done|]].
    + apply run_last. unfold Cat.cat_body. by rewrite run_bind, E1.
    + intros fd. unfold output. rewrite O1. case_decide; by rewrite app_nil_r.
  - specialize (Hk Hr). destruct (take_cons k rest Hr Hk) as (b & bs & Et).
    assert (Ho1 : is_open m1 1).
    { destruct m1 as [fds1 out1], m as [fds out]. cbn [m_fds m_out] in *. subst. by apply insert_open. }
    set (m2 := Machine (m_fds m1) (m_out m1 ++ [(1, take k rest)])).
    destruct (IH m2 i (drop k rest)) as (m3 & f & E & F & O); [exact R1|exact Ho1|done|rewrite length_drop; lia|].
    exists m3, f. split; [|split].
    + rewrite <- E. apply run_next. unfold Cat.cat_body. rewrite run_bind, E1, Et, run_bind. rewrite (run_write _ _ 1 _ m1 Ho1).
      rewrite Z.eqb_refl. cbn [negb run]. by rewrite <- Et.
    + rewrite F. cbn [m_fds m2]. rewrite F1. apply list_insert_insert_eq.
    + intros fd. rewrite O. unfold m2. rewrite output_app. unfold output at 1. cbn [m_out]. rewrite O1. fold (output fd m).
      rewrite <- app_assoc. f_equal. destruct (output_write 1 (m_fds m1) (take k rest) (m_fds m1)) as [W1 W2].
      case_decide as E2; [subst fd; by rewrite W1, take_drop|]. by rewrite W2.
Qed.

(** Open a file, use it, close it. *)
Lemma on_file (use : Z -> U ()) (fail : U ()) out name ino data m i : resolve name = Some (NFile ino data) ->
  lowest (m_fds m) = Some i -> is_open m 1 ->
  (forall m1, reading m1 i data -> is_open m1 1 -> i <> 1%nat -> exists m' f, go (use (Z.of_nat i)) m1 = (Done (), m') /\
     m_fds m' = <[i := Some f]> (m_fds m1) /\ forall fd, output fd m' = output fd m1 ++ (if decide (fd = 1) then out else [])) ->
  exists m', go (fd ← sys (Open name 0); if fd <? 0 then fail else use fd ;; sys (Close fd) ;; Ret ()) m = (Done (), m') /\ wrote 1 out m m'.
Proof.
  intros Hn Hl Ho Huse. pose proof (lowest_not_1 m i Hl Ho) as Hne. pose proof (ulowest_spec _ _ Hl) as Hi.
  pose proof (lookup_lt_Some _ _ _ Hi) as Hlt.
  rewrite run_bind, (run_open _ _ _ _ _ _ _ Hn Hl). rewrite (proj2 (Z.ltb_ge (Z.of_nat i) 0)) by lia. set (m1 := Machine _ (m_out m)).
  destruct (Huse m1) as (m2 & f & E & F & O).
  { exists ino, data. cbn [m_fds m1 node_data]. by apply list_lookup_insert_eq. }
  { apply insert_open; [by destruct m|done]. }
  { done. }
  rewrite run_bind, E, run_bind. rewrite (run_close _ _ i f m2) by (rewrite F; apply list_lookup_insert_eq; cbn [m_fds m1]; by rewrite length_insert).
  cbn [run]. eexists. split; [done|]. split; [|exact O]. cbn [m_fds]. rewrite F. cbn [m_fds m1]. rewrite !list_insert_insert_eq.
  by apply list_insert_id.
Qed.

(** The files of a list one after the other, each with output [g data]. *)
Lemma on_files (body : list Z -> U ()) (g : list Z -> list Z) (P : list Z -> Prop) i :
  (forall name ino data m, resolve name = Some (NFile ino data) -> lowest (m_fds m) = Some i -> is_open m 1 -> P data ->
     exists m', go (body name) m = (Done (), m') /\ wrote 1 (g data) m m') ->
  forall files ds m, Forall2 (fun f d => exists ino, resolve f = Some (NFile ino d)) files ds ->
  lowest (m_fds m) = Some i -> is_open m 1 -> Forall P ds ->
  exists m', go (ufor files body) m = (Done (), m') /\ wrote 1 (concat (g <$> ds)) m m'.
Proof.
  intros Hbody files ds m H. revert m. induction H as [|name d files ds (ino & Hn) H IH]; intros m Hl Ho Hf.
  - exists m. split; [done|apply wrote_nil].
  - apply Forall_cons in Hf as [Hd Hf]. destruct (Hbody name ino d m Hn Hl Ho Hd) as (m1 & E1 & W1).
    pose proof W1 as [F1 _]. destruct (IH m1) as (m2 & E2 & W2); [by rewrite F1|unfold is_open, fd_of; by rewrite F1|done|].
    exists m2. cbn [ufor fmap list_fmap concat]. rewrite run_bind, E1. split; [done|by eapply wrote_trans].
Qed.

Lemma cat_files fuel files ds m i : Forall2 (fun f d => exists ino, resolve f = Some (NFile ino d)) files ds ->
  lowest (m_fds m) = Some i -> is_open m 1 -> Forall (fun d => (length d < fuel)%nat) ds ->
  exists m', go (ufor files (Cat.cat_file fuel)) m = (Done (), m') /\ wrote 1 (concat ds) m m'.
Proof.
  replace (concat ds) with (concat (id <$> ds)) by (by rewrite list_fmap_id). apply on_files. clear m. intros name ino data m Hn Hl Ho Hd.
  apply (on_file (Cat.cat fuel)) with (ino := ino) (data := data) (i := i); [done..|].
  intros m1 H1 H2 H3. by apply cat_loop.
Qed.
Lemma run_ufor_app {A} (l l' : list A) body : forall m m1, go (ufor l body) m = (Done (), m1) ->
  go (ufor (l ++ l') body) m = go (ufor l' body) m1.
Proof.
  induction l as [|x l IH]; intros m m1; cbn [ufor app]; [by intros [= <-]|]. rewrite !run_bind.
  destruct (go (body x) m) as [[[]|n| |] m2]; try done. by apply IH.
Qed.

(** With all files there, cat writes their contents to standard output in order and
    exits with 0; at the first file that cannot be opened it stops with a message and
    1.  It is the same however the kernel cuts up the reads, and no descriptor stays
    open. *)
Theorem cat_correct fuel prog files ds bad more m i :
  Forall2 (fun f d => exists ino, resolve f = Some (NFile ino d)) files ds -> lowest (m_fds m) = Some i ->
  is_open m 1 -> is_open m 2 -> Forall (fun d => (length d < fuel)%nat) ds -> resolve bad = None ->
  Forall (fun c => 0 <= c < 256) bad -> files <> [] ->
  (exists m', go (Cat.cat_main fuel (prog :: files)) m = (Exited 0, m') /\ wrote 1 (concat ds) m m') /\
  (exists m', go (Cat.cat_main fuel (prog :: files ++ bad :: more)) m = (Exited 1, m') /\ m_fds m' = m_fds m /\
    output 1 m' = output 1 m ++ concat ds /\ output 2 m' = output 2 m ++ bytes "cat: cannot open " ++ bad ++ [10]).
Proof.
  intros H Hl Ho1 Ho2 Hf Hb Hbad Hne. destruct (cat_files fuel files ds m i H Hl Ho1 Hf) as (m1 & E1 & W1).
  unfold Cat.cat_main. cbn [length drop]. destruct files as [|f files]; [done|]. cbn [length app Nat.leb].
  change (drop 0 (?a :: ?b)) with (a :: b). split.
  - exists m1. by rewrite run_bind, E1.
  - pose proof W1 as [F1 O1]. exists (said 2 (bytes "cat: cannot open " ++ bad ++ [10]) m1).
    rewrite run_bind. change (f :: files ++ bad :: more) with ((f :: files) ++ bad :: more).
    rewrite (run_ufor_app _ _ _ _ _ E1). cbn [ufor]. rewrite run_bind. unfold Cat.cat_file at 1.
    rewrite run_bind, (run_open_none _ _ _ _ _ Hb). change (-1 <? 0) with true. cbn iota. rewrite run_bind.
    assert (E2 : go (fprintf 2 (nl "cat: cannot open %s") [A_str (Some bad)]) m1 =
      (Done (), said 2 (bytes "cat: cannot open " ++ bad ++ [10]) m1)).
    { change (nl "cat: cannot open %s") with (bytes "cat: cannot open " ++ [37; 115] ++ [10]).
      apply prints_string; [by apply (bool_decide_eq_true_1 (37 ∉ _))|by apply (bool_decide_eq_true_1 (37 ∉ _))|apply bytes_range|
        by apply Forall_singleton|done|]. unfold is_open, fd_of in *. by rewrite F1. }
    rewrite E2. cbn [run]. split_and!; [done|done|..].
    + rewrite output_said, O1. cbn. by rewrite app_nil_r.
    + rewrite output_said, O1. cbn. by rewrite app_nil_r.
Qed.

(** ** wc *)

Definition is_sep (c : Z) : bool := bool_decide (c ∈ Wc.separators).
Definition lines (l : list Z) : Z := Z.of_nat (length (filter (fun c => c = 10) l)).
(** The words: the pieces between separators that are not empty. *)
Fixpoint word_pieces (l : list Z) : list (list Z) :=
  match l with
  | [] => [[]]
  | c :: l' =>
      if is_sep c then [] :: word_pieces l'
      else match word_pieces l' with w :: ws => (c :: w) :: ws | [] => [[c]] end
  end.
Definition words (l : list Z) : Z := Z.of_nat (length (filter (fun w => w <> []) (word_pieces l))).

Lemma pieces_cons l : exists w ws, word_pieces l = w :: ws.
Proof. destruct l as [|c l]; cbn; [by eexists _, _|]. destruct (is_sep c); [by eexists _, _|]. destruct (word_pieces l); by eexists _, _. Qed.

Lemma sep_test c : negb (c =? 0) && bool_decide (c ∈ Wc.separators) = is_sep c.
Proof.
  unfold is_sep. destruct (Z.eqb_spec c 0) as [->|]; [|done]. done.
Qed.

Definition starts_in_word (l : list Z) : Z := match word_pieces l with [] :: _ => 0 | _ => 1 end.

Lemma words_sep c l : is_sep c = true -> words (c :: l) = words l /\ starts_in_word (c :: l) = 0.
Proof. intros H. unfold words, starts_in_word. cbn [word_pieces]. rewrite H. split; [|done]. by rewrite filter_cons_False by (intros Hn; by apply Hn). Qed.
Lemma words_char c l : is_sep c = false -> words (c :: l) = 1 + words l - starts_in_word l /\ starts_in_word (c :: l) = 1.
Proof.
  intros H. unfold words, starts_in_word. cbn [word_pieces]. rewrite H. destruct (pieces_cons l) as (w & ws & ->). split; [|done].
  rewrite filter_cons_True by done. destruct w as [|b w].
  - rewrite filter_cons_False by (intros Hn; by apply Hn). cbn [length]. lia.
  - rewrite filter_cons_True by done. cbn [length]. lia.
Qed.

Definition counted (x : Wc.counts) : Prop := 0 <= Wc.c_l x <= Wc.c_c x /\ 0 <= Wc.c_w x <= Wc.c_c x.

Lemma fold_count l : forall x, counted x -> Wc.c_c x + Z.of_nat (length l) < 2 ^ 31 -> let y := fold_left Wc.count l x in
  Wc.c_l y = Wc.c_l x + lines l /\ Wc.c_c y = Wc.c_c x + Z.of_nat (length l) /\
  Wc.c_w y = Wc.c_w x + words l - (if Wc.inword x then starts_in_word l else 0).
Proof.
  induction l as [|c l IH]; intros x [Hl Hw] Hb; cbn [fold_left length].
  - change (lines []) with 0. change (words []) with 0. change (starts_in_word []) with 0. destruct (Wc.inword x); lia.
  - assert (Hlines : lines (c :: l) = (if c =? 10 then 1 else 0) + lines l).
    { unfold lines. destruct (Z.eqb_spec c 10); [rewrite filter_cons_True by done; cbn [length]; lia|by rewrite filter_cons_False]. }
    set (x' := Wc.count x c).
    assert (Hx' : Wc.c_c x' = Wc.c_c x + 1 /\ Wc.c_l x' = Wc.c_l x + (if c =? 10 then 1 else 0) /\
      Wc.inword x' = negb (is_sep c) /\ Wc.c_w x' = Wc.c_w x + (if is_sep c || Wc.inword x then 0 else 1)).
    { unfold x', Wc.count. rewrite sep_test. cbn [length] in Hb. rewrite (i32_id (Wc.c_c x + 1)) by lia.
      destruct (is_sep c) eqn:Es; [|destruct (Wc.inword x) eqn:Ei]; cbn [negb orb Wc.c_c Wc.c_l Wc.c_w Wc.inword];
        rewrite ?i32_id by lia; destruct (c =? 10); split_and!; try done; try lia; by rewrite Es. }
    destruct Hx' as (X1 & X2 & X3 & X4). cbn [length] in Hb.
    destruct (IH x') as (I1 & I2 & I3); [split; destruct (c =? 10), (is_sep c || Wc.inword x); lia|lia|].
    rewrite I1, I2, I3, X1, X2, X3, X4, Hlines. split_and!; [lia|lia|].
    destruct (is_sep c) eqn:Es; cbn [negb orb].
    + destruct (words_sep c l Es) as [-> ->]. destruct (Wc.inword x); lia.
    + destruct (words_char c l Es) as [-> ->]. destruct (Wc.inword x); lia.
Qed.

Lemma wc_loop fuel : forall m i rest x, reading m i rest -> (length rest < fuel)%nat ->
  exists m' f, go (uloop fuel (Wc.wc_body (Z.of_nat i)) x) m = (Done (Some (fold_left Wc.count rest x)), m') /\
    m_fds m' = <[i := Some f]> (m_fds m) /\ m_out m' = m_out m.
Proof.
  induction fuel as [|fuel IH]; intros m i rest x Hread Hf; [lia|].
  destruct (read_chunk m i rest 512 Hread ltac:(lia)) as (k & m1 & E1 & R1 & (f1 & F1) & O1 & Hk).
  destruct (decide (rest = [])) as [->|Hr].
  - rewrite take_nil in E1. exists m1, f1. split_and!; [|done..]. apply run_last. unfold Wc.wc_body. by rewrite run_bind, E1.
  - specialize (Hk Hr). destruct (take_cons k rest Hr Hk) as (b & bs & Et).
    destruct (IH m1 i (drop k rest) (fold_left Wc.count (take k rest) x) R1) as (m2 & f & E & F & O); [rewrite length_drop; lia|].
    exists m2, f. split_and!; [|rewrite F, F1; apply list_insert_insert_eq|congruence].
    rewrite <- fold_left_app, take_drop in E. rewrite <- E. apply run_next. unfold Wc.wc_body. by rewrite run_bind, E1, Et.
Qed.

(** wc of a file prints its numbers of lines, words and characters and its name, and
    closes it again, however the kernel cuts up the reads. *)
Theorem wc_correct fuel name ino data m i : resolve name = Some (NFile ino data) -> lowest (m_fds m) = Some i -> is_open m 1 ->
  (length data < fuel)%nat -> Z.of_nat (length data) < 2 ^ 31 -> Forall (fun c => 0 <= c < 256) name ->
  exists m' text, go (Wc.wc_file fuel name) m = (Done (), m') /\ wrote 1 text m m' /\
    renders (nl "%d %d %d %s") [A_num (lines data); A_num (words data); A_num (Z.of_nat (length data)); A_str (Some name)] text.
Proof.
  intros Hn Hl Ho Hf Hb Hname. pose proof (lowest_not_1 m i Hl Ho) as Hne. pose proof (ulowest_spec _ _ Hl) as Hi.
  pose proof (lookup_lt_Some _ _ _ Hi) as Hlt. set (m1 := Machine (<[i := Some (Ofile (NFile ino data) data)]> (m_fds m)) (m_out m)).
  destruct (wc_loop fuel m1 i data (Wc.Counts 0 0 0 false)) as (m2 & f & E & F & O); [|done|].
  { exists ino, data. by apply list_lookup_insert_eq. }
  destruct (fold_count data (Wc.Counts 0 0 0 false)) as (C1 & C2 & C3); [split; cbn; lia|cbn; lia|].
  set (y := fold_left Wc.count data (Wc.Counts 0 0 0 false)) in *. cbn [Wc.c_l Wc.c_c Wc.c_w Wc.inword] in C1, C2, C3.
  assert (Ho2 : is_open m2 1).
  { destruct m2 as [fds2 out2], m as [fds out]. cbn [m_fds m_out m1] in *. subst fds2. apply insert_open; [|done]. by apply insert_open. }
  destruct (vprintf_text resolve chop 1 (nl "%d %d %d %s") [A_num (Wc.c_l y); A_num (Wc.c_w y); A_num (Wc.c_c y); A_str (Some name)] m2)
    as (text & R & P); [apply Forall_app; split; [apply bytes_range|by apply Forall_singleton]|by repeat split|done|].
  rewrite C1, C2, C3, Z.sub_0_r in R. exists (Machine (<[i := None]> (m_fds m2)) (m_out (said 1 text m2))), text. split_and!; [| |exact R].
  - unfold Wc.wc_file. rewrite run_bind, (run_open _ _ _ _ _ _ _ Hn Hl). rewrite (proj2 (Z.ltb_ge (Z.of_nat i) 0)) by lia.
    cbn [node_data]. fold m1. rewrite run_bind. unfold Wc.wc. rewrite run_bind, E. unfold printf. rewrite P.
    rewrite run_bind, (run_close _ _ i f (said 1 text m2)) by (cbn [said m_fds]; rewrite F; apply list_lookup_insert_eq; cbn [m_fds m1]; by rewrite length_insert).
    done.
  - split.
    + cbn [m_fds]. rewrite F. cbn [m_fds m1]. rewrite !list_insert_insert_eq. by apply list_insert_id.
    + intros fd. transitivity (output fd (said 1 text m2)); [done|]. rewrite output_said. f_equal. unfold output. by rewrite O.
Qed.
End Programs.

(** One file, a kernel that delivers one byte at a time, three open descriptors. *)
Definition one_file (path : list Z) : option node :=
  if bool_decide (path = bytes "a") then Some (NFile 2 [104; 105; 10]) else None.
Definition byte_by_byte (rest : list Z) (n : Z) : nat := 1.
Definition at_start : machine := Machine [Some (Ofile (NDev 1) []); Some (Ofile (NDev 1) []); Some (Ofile (NDev 1) []); None] [].

Lemma byte_by_byte_ok rest n : rest <> [] -> 0 < n -> (1 <= byte_by_byte rest n <= Nat.min (Z.to_nat n) (length rest))%nat.
Proof. intros Hr Hn. destruct rest; [done|]. unfold byte_by_byte. cbn [length]. lia. Qed.

Lemma cat_correct_witness :
  (exists m', run one_file byte_by_byte (Cat.cat_main 10 [bytes "cat"; bytes "a"]) at_start = (Exited 0, m') /\
    wrote 1 (concat [[104; 105; 10]]) at_start m') /\
  (exists m', run one_file byte_by_byte (Cat.cat_main 10 (bytes "cat" :: [bytes "a"] ++ bytes "b" :: [])) at_start = (Exited 1, m') /\
    m_fds m' = m_fds at_start /\ output 1 m' = output 1 at_start ++ concat [[104; 105; 10]] /\
    output 2 m' = output 2 at_start ++ bytes "cat: cannot open " ++ bytes "b" ++ [10]).
Proof.
  apply (cat_correct one_file byte_by_byte byte_by_byte_ok 10 (bytes "cat") [bytes "a"] [[104; 105; 10]] (bytes "b") [] at_start 3).
  - constructor; [by exists 2|constructor].
  - done.
  - by eexists.
  - by eexists.
  - constructor; [cbn; lia|constructor].
  - done.
  - apply bytes_range.
  - done.
Defined.

Lemma wc_correct_witness : exists m' text, run one_file byte_by_byte (Wc.wc_file 10 (bytes "a")) at_start = (Done (), m') /\
  wrote 1 text at_start m' /\
  renders (nl "%d %d %d %s") [A_num (lines [104; 105; 10]); A_num (words [104; 105; 10]); A_num (Z.of_nat (length [104; 105; 10])); A_str (Some (bytes "a"))] text.
Proof.
  apply (wc_correct one_file byte_by_byte byte_by_byte_ok 10 (bytes "a") 2 [104; 105; 10] at_start 3).
  - done.
  - done.
  - by eexists.
  - cbn. lia.
  - cbn. lia.
  - apply bytes_range.
Defined.
