(* ===== verification/Grep.v ===== *)
(** * user/grep.c

    The matcher for the operators ^ . * $ on C strings (lists of the bytes before
    the NUL), the loop that reads a file in pieces and prints the matching lines,
    and main over the files.  A pattern denotes a language; the matcher decides it, and grep prints
    the lines whose text contains a word of it, however the input is cut up by
    read(). *)
From stdpp Require Import prelude gmap strings.
From Stdlib Require Import ZArith Lia.
From S2P Require Import Prelude Memory CString Bytes User Ulib Uprintf Progs ProgsSpec.
Import User Uprintf.
Open Scope Z_scope.

Module Grep.
Abbreviation caret := 94.
Abbreviation dot := 46.
Abbreviation star := 42.
Abbreviation dollar := 36.
Abbreviation newline := 10.

(** ** The program *)

(** [matchstar(c, re, text)], given [matchhere(re, _)]. *)
Definition matchstar (matchhere_re : list Z -> bool) (c : Z) : list Z -> bool :=
  fix go text :=
    if matchhere_re text then true
    else match text with
         | [] => false
         | t :: text' => if (t =? c) || (c =? dot) then go text' else false
         end.

Fixpoint matchhere (re text : list Z) {struct re} : bool :=
  match re with
  | [] => true
  | c :: re1 =>
      let here :=
        if (c =? dollar) && bool_decide (re1 = []) then bool_decide (text = [])
        else match text with
             | [] => false
             | t :: text' => if (c =? dot) || (c =? t) then matchhere re1 text' else false
             end in
      match re1 with
      | s :: re2 => if s =? star then matchstar (matchhere re2) c text else here
      | [] => here
      end
  end.

(** The do-while loop of match, over the suffixes of the text. *)
Fixpoint match_any (re text : list Z) : bool :=
  if matchhere re text then true
  else match text with [] => false | _ :: text' => match_any re text' end.
Definition match_re (re text : list Z) : bool :=
  match re with
  | c :: re' => if c =? caret then matchhere re' text else match_any re text
  | [] => match_any re text
  end.

(** [strchr(s, c)]: the index of the first [c] before a NUL. *)
Fixpoint strchr (s : list Z) (c : Z) : option nat :=
  match s with
  | [] => None
  | x :: s' => if x =? 0 then None else if x =? c then Some O else S <$> strchr s' c
  end.

Definition sizeof_buf : nat := 1024.

(** The inner loop, on the part of [buf] from [p] on; it returns what is left. *)
Fixpoint grep_lines (fuel : nat) (pattern p : list Z) : U (list Z) :=
  match fuel with
  | O => Out
  | S f =>
      match strchr p newline with
      | None => Ret p
      | Some q =>
          (if match_re pattern (take q p) then sys (Write 1 (take (S q) p)) ;; Ret () else Ret ()) ;;
          grep_lines f pattern (drop (S q) p)
      end
  end.

(** One round of the outer loop; [buf] is the part of it in use. *)
Definition grep_body (pattern : list Z) (fd : Z) (buf : list Z) : U (list Z + ()) :=
  n ← uread fd (Z.of_nat (sizeof_buf - length buf - 1));
  match n with
  | None | Some [] => Ret (inr ())
  | Some data => rest ← grep_lines (S (length (buf ++ data))) pattern (buf ++ data); Ret (inl rest)
  end.
Definition grep (fuel : nat) (pattern : list Z) (fd : Z) : U () := uloop fuel (grep_body pattern fd) [].

Definition grep_file (fuel : nat) (pattern name : list Z) : U () :=
  fd ← sys (Open name 0);
  if fd <? 0 then printf (nl "grep: cannot open %s") [A_str (Some name)] ;; Exit 1
  else grep fuel pattern fd ;; sys (Close fd) ;; Ret ().
Definition grep_main (fuel : nat) (argv : list (list Z)) : U () :=
  if (length argv <=? 1)%nat then fprintf 2 (nl "usage: grep pattern [file ...]") [] ;; Exit 1
  else
    pattern ← arg argv 1;
    if (length argv <=? 2)%nat then grep fuel pattern 0 ;; Exit 0
    else ufor (drop 2 argv) (grep_file fuel pattern) ;; Exit 0.

(** ** The language of a pattern *)

Inductive item := One (c : Z) | Many (c : Z) | End.

Fixpoint items (re : list Z) : list item :=
  match re with
  | [] => []
  | c :: re1 =>
      match re1 with
      | s :: re2 => if s =? star then Many c :: items re2 else One c :: items re1
      | [] => if c =? dollar then [End] else [One c]
      end
  end.

(** The character [c] of a pattern stands for the character [t]. *)
Definition fits (c t : Z) : Prop := c = dot \/ c = t.

(** [lang is u v]: the items stand for the word [u], when it is followed by [v]. *)
Fixpoint lang (l : list item) (u v : list Z) : Prop :=
  match l with
  | [] => u = []
  | One c :: l' => exists t u', u = t :: u' /\ fits c t /\ lang l' u' v
  | Many c :: l' => exists u1 u2, u = u1 ++ u2 /\ Forall (fits c) u1 /\ lang l' u2 v
  | End :: l' => u = [] /\ v = [] /\ lang l' u v
  end.

(** The pattern matches somewhere in the text, or, after ^, at its start. *)
Definition matches (re text : list Z) : Prop :=
  match re with
  | c :: re' => if c =? caret then exists u v, text = u ++ v /\ lang (items re') u v
                else exists p u v, text = p ++ u ++ v /\ lang (items re) u v
  | [] => True
  end.

Lemma matchstar_spec (m : list Z -> bool) c text (L : list Z -> list Z -> Prop) :
  (forall t, m t = true <-> exists u v, t = u ++ v /\ L u v) ->
  matchstar m c text = true <-> exists u1 u2 v, text = u1 ++ u2 ++ v /\ Forall (fits c) u1 /\ L u2 v.
Proof.
  intros Hm. induction text as [|t text IH]; cbn; fold (matchstar m c).
  - destruct (m []) eqn:E.
    + split; [intros _|done]. apply Hm in E as (u & v & E & HL). exists [], u, v. by split.
    + split; [done|]. intros (u1 & u2 & v & E1 & _ & HL). apply symmetry, app_nil in E1 as [-> E1].
      assert (m [] = true) by (apply Hm; by exists u2, v). congruence.
  - destruct (m (t :: text)) eqn:E.
    + split; [intros _|done]. apply Hm in E as (u & v & E & HL). exists [], u, v. by split.
    + destruct ((t =? c) || (c =? dot)) eqn:Ec.
      * rewrite IH. assert (Hf : fits c t).
        { apply orb_true_iff in Ec as [Ec|Ec]; apply Z.eqb_eq in Ec; [by right|by left]. }
        split.
        -- intros (u1 & u2 & v & -> & Hu & HL). exists (t :: u1), u2, v. split_and!; [done|by constructor|done].
        -- intros (u1 & u2 & v & Et & Hu & HL). destruct u1 as [|t' u1].
           ++ assert (m (t :: text) = true) by (apply Hm; by exists u2, v). congruence.
           ++ injection Et as <- ->. apply Forall_cons in Hu as [_ Hu]. by exists u1, u2, v.
      * split; [done|]. intros (u1 & u2 & v & Et & Hu & HL). destruct u1 as [|t' u1].
        -- assert (m (t :: text) = true) by (apply Hm; by exists u2, v). congruence.
        -- injection Et as <- ->. apply Forall_cons in Hu as [[Hf|Hf] _]; subst;
             rewrite Z.eqb_refl in Ec; rewrite ?orb_true_r in Ec; done.
Qed.

(** A single character, or $ at the end. *)
Lemma here_spec (m : list Z -> bool) c text (l : list item) :
  (forall t, m t = true <-> exists u v, t = u ++ v /\ lang l u v) ->
  match text with [] => false | t :: text' => if (c =? dot) || (c =? t) then m text' else false end = true <->
  exists u v, text = u ++ v /\ lang (One c :: l) u v.
Proof.
  intros Hm. destruct text as [|t text]; cbn.
  - split; [done|]. intros (u & v & E & t & u' & -> & _). done.
  - destruct ((c =? dot) || (c =? t)) eqn:Ec.
    + assert (Hf : fits c t). { apply orb_true_iff in Ec as [Ec|Ec]; apply Z.eqb_eq in Ec; [by left|by right]. }
      rewrite Hm. split.
      * intros (u & v & -> & HL). exists (t :: u), v. split; [done|]. by exists t, u.
      * intros (u & v & E & t' & u' & -> & _ & HL). injection E as <- ->. by exists u', v.
    + split; [done|]. intros (u & v & E & t' & u' & -> & Hf & HL). injection E as <- ->.
      destruct Hf as [->| ->]; rewrite Z.eqb_refl in Ec; rewrite ?orb_true_r in Ec; done.
Qed.

Lemma matchhere_spec re : forall text, matchhere re text = true <-> exists u v, text = u ++ v /\ lang (items re) u v.
Proof.
  induction re as [re IH] using (induction_ltof1 _ length). unfold ltof in IH. intros text.
  destruct re as [|c re1]; [split; [intros _; by exists [], text|done]|].
  assert (H1 := IH re1 ltac:(cbn; lia)). destruct re1 as [|s re2].
  - cbn [matchhere items]. destruct (Z.eqb_spec c dollar) as [->|Hc].
    + rewrite bool_decide_true by done. cbn [andb]. split.
      * intros ->%bool_decide_eq_true. by exists [], [].
      * intros (u & v & -> & -> & -> & _). done.
    + cbn [andb]. apply (here_spec (matchhere []) c text []). exact H1.
  - cbn [matchhere items]. fold (matchhere). destruct (Z.eqb_spec s star) as [->|Hs].
    + rewrite (matchstar_spec (matchhere re2) c text (lang (items re2))); [|intros t; apply (IH re2); cbn; lia].
      cbn [lang]. split.
      * intros (u1 & u2 & v & -> & Hu & HL). exists (u1 ++ u2), v. split; [by rewrite app_assoc|]. by exists u1, u2.
      * intros (u & v & -> & u1 & u2 & -> & Hu & HL). exists u1, u2, v. by rewrite app_assoc.
    + rewrite (bool_decide_false (s :: re2 = [])), andb_false_r by done.
      apply (here_spec (matchhere (s :: re2)) c text (items (s :: re2))). exact H1.
Qed.
Lemma match_any_spec re text : match_any re text = true <-> exists p u v, text = p ++ u ++ v /\ lang (items re) u v.
Proof.
  induction text as [|t text IH]; cbn [match_any].
  - destruct (matchhere re []) eqn:E.
    + split; [intros _|done]. apply matchhere_spec in E as (u & v & E & HL). by exists [], u, v.
    + split; [done|]. intros (p & u & v & E1 & HL). apply symmetry, app_nil in E1 as [-> E1].
      assert (matchhere re [] = true) by (apply matchhere_spec; by exists u, v). congruence.
  - destruct (matchhere re (t :: text)) eqn:E.
    + split; [intros _|done]. apply matchhere_spec in E as (u & v & E & HL). by exists [], u, v.
    + rewrite IH. split.
      * intros (p & u & v & -> & HL). by exists (t :: p), u, v.
      * intros ([|t' p] & u & v & E1 & HL).
        -- assert (matchhere re (t :: text) = true) by (apply matchhere_spec; by exists u, v). congruence.
        -- injection E1 as <- ->. by exists p, u, v.
Qed.

Lemma match_re_spec re text : match_re re text = true <-> matches re text.
Proof.
  unfold match_re, matches. destruct re as [|c re]; [|destruct (c =? caret); [apply matchhere_spec|apply match_any_spec]].
  split; [done|]. intros _. by destruct text.
Qed.

#[export] Instance matches_dec re text : Decision (matches re text).
Proof. refine (cast_if (decide (match_re re text = true))); by rewrite <- match_re_spec. Defined.

(** ** Lines *)

(** The complete lines of a text, without their newlines; [acc] is the reversed
    beginning of the first one. *)
Fixpoint complete_lines (acc s : list Z) : list (list Z) :=
  match s with
  | [] => []
  | c :: s' => if c =? newline then rev acc :: complete_lines [] s' else complete_lines (c :: acc) s'
  end.

(** What grep prints for some lines: it stops at the first one that does not fit
    into its buffer. *)
Fixpoint printed (re : list Z) (ls : list (list Z)) : list Z :=
  match ls with
  | [] => []
  | l :: ls' =>
      if (length l <? 1023)%nat then (if decide (matches re l) then l ++ [newline] else []) ++ printed re ls' else []
  end.
Definition grep_output (re input : list Z) : list Z := printed re (complete_lines [] input).

Lemma complete_lines_cons acc l s : newline ∉ l -> complete_lines acc (l ++ newline :: s) = (rev acc ++ l) :: complete_lines [] s.
Proof.
  revert acc. induction l as [|c l IH]; intros acc; cbn; [by rewrite app_nil_r|].
  rewrite not_elem_of_cons. intros [H1 H2]. rewrite (proj2 (Z.eqb_neq _ _)) by congruence. rewrite IH by done. cbn.
  by rewrite <- app_assoc.
Qed.
Lemma complete_lines_none acc l : newline ∉ l -> complete_lines acc l = [].
Proof.
  revert acc. induction l as [|c l IH]; intros acc; [done|]. rewrite not_elem_of_cons. intros [H1 H2]. cbn.
  rewrite (proj2 (Z.eqb_neq _ _)) by congruence. by apply IH.
Qed.

Lemma grep_output_line re l s : newline ∉ l -> (length l < 1023)%nat ->
  grep_output re (l ++ newline :: s) = (if decide (matches re l) then l ++ [newline] else []) ++ grep_output re s.
Proof.
  intros Hl Hlen. unfold grep_output. rewrite complete_lines_cons by done. cbn [printed rev app].
  by rewrite (proj2 (Nat.ltb_lt _ _)).
Qed.
Lemma grep_output_none re l : newline ∉ l -> grep_output re l = [].
Proof. intros Hl. unfold grep_output. by rewrite complete_lines_none. Qed.
(** A first line that is too long. *)
Lemma grep_output_long re l s : newline ∉ l -> (1023 <= length l)%nat -> grep_output re (l ++ s) = [].
Proof.
  intros Hl Hlen. destruct (decide (newline ∈ s)) as [Hin|Hin].
  - apply list_elem_of_split_l in Hin as (s1 & s2 & -> & Hs1). unfold grep_output.
    rewrite app_assoc, complete_lines_cons by (rewrite elem_of_app; tauto). cbn [printed rev app].
    rewrite (proj2 (Nat.ltb_ge _ _)); [done|]. rewrite length_app. lia.
  - apply grep_output_none. rewrite elem_of_app. tauto.
Qed.

Lemma strchr_spec s c : 0 ∉ s -> match strchr s c with
  | Some q => exists s', s = take q s ++ c :: s' /\ drop (S q) s = s' /\ take (S q) s = take q s ++ [c] /\ c ∉ take q s /\ length (take q s) = q
  | None => c ∉ s
  end.
Proof.
  induction s as [|x s IH]; cbn; [intros _; apply not_elem_of_nil|]. intros [H1 H2]%not_elem_of_cons. specialize (IH H2).
  rewrite (proj2 (Z.eqb_neq x 0)) by done. destruct (Z.eqb_spec x c) as [->|Hx].
  - exists s. split_and!; [done|by rewrite drop_0|by rewrite take_0|apply not_elem_of_nil|done].
  - destruct (strchr s c) as [q|]; cbn; [|rewrite not_elem_of_cons; split; [congruence|done]].
    destruct IH as (s' & E1 & E2 & E3 & E4 & E5). exists s'. split_and!; [by rewrite <- E1|done|by rewrite E3| |by rewrite E5].
    rewrite not_elem_of_cons. split; [congruence|done].
Qed.

Section Proofs.
Context (resolve : list Z -> option node) (chop : list Z -> Z -> nat).
Context (Hchop : forall rest n, rest <> [] -> 0 < n -> (1 <= chop rest n <= Nat.min (Z.to_nat n) (length rest))%nat).
Abbreviation go := (run resolve chop).

(** What grep writes for a line. *)
Definition line_out (re l : list Z) : list Z := if decide (matches re l) then l ++ [newline] else [].
Lemma run_line re l m : is_open m 1 -> exists m',
  go (if match_re re l then sys (Write 1 (l ++ [newline])) ;; Ret () else Ret ()) m = (Done (), m') /\ wrote 1 (line_out re l) m m'.
Proof.
  intros Ho. unfold line_out. case_decide as D.
  - rewrite (proj2 (match_re_spec re l) D), run_bind, run_write by done. eexists. split; [done|]. split; [done|].
    intros fd. rewrite output_app. change (output fd (Machine (m_fds m) (m_out m))) with (output fd m). f_equal.
    destruct (output_write 1 (m_fds m) (l ++ [newline]) (m_fds m)) as [W1 W2]. case_decide as E; [by rewrite E|by apply W2].
  - destruct (match_re re l) eqn:Em; [by apply match_re_spec in Em|]. exists m. split; [done|apply wrote_nil].
Qed.
Lemma wrote_open fd fd' t m m' : wrote fd t m m' -> is_open m fd' -> is_open m' fd'.
Proof. intros [F _]. unfold is_open, fd_of. by rewrite F. Qed.

(** The inner loop prints the lines of the buffer. *)
Lemma grep_lines_run fuel re p more m : 0 ∉ p -> (length p < fuel)%nat -> (length p <= 1023)%nat -> is_open m 1 ->
  exists rest out m', go (grep_lines fuel re p) m = (Done rest, m') /\ wrote 1 out m m' /\
    newline ∉ rest /\ 0 ∉ rest /\ (length rest <= length p)%nat /\ out ++ grep_output re (rest ++ more) = grep_output re (p ++ more).
Proof.
  revert p m. induction fuel as [|f IH]; intros p m Hz Hf Hp Ho; [lia|]. cbn [grep_lines].
  pose proof (strchr_spec p newline Hz) as Hs. destruct (strchr p newline) as [q|].
  - destruct Hs as (p' & E1 & E2 & E3 & E4 & E5). set (l := take q p) in *. rewrite E2, E3.
    assert (Hl : length p = (length l + S (length p'))%nat) by (rewrite E1 at 1; rewrite length_app; done).
    destruct (run_line re l m Ho) as (m1 & Ew & W1). rewrite run_bind, Ew.
    assert (Hz' : 0 ∉ p') by (rewrite E1, not_elem_of_app, not_elem_of_cons in Hz; tauto).
    destruct (IH p' m1) as (rest & out & m2 & E & W2 & R1 & R0 & R2 & R3); [done|lia|lia|by eapply wrote_open|].
    exists rest, (line_out re l ++ out), m2. split; [done|]. split; [by eapply wrote_trans|].
    split; [done|]. split; [done|]. split; [lia|]. rewrite <- app_assoc, R3, E1, <- app_assoc. cbn [app].
    by rewrite grep_output_line by (done || lia).
  - exists p, [], m. split; [done|]. split; [apply wrote_nil|]. done.
Qed.

Lemma grep_loop fuel re buf m i rest : reading m i rest -> is_open m 1 -> i <> 1%nat -> 0 ∉ buf -> 0 ∉ rest ->
  (length rest < fuel)%nat -> newline ∉ buf -> (length buf <= 1023)%nat ->
  exists m' f, go (uloop fuel (grep_body re (Z.of_nat i)) buf) m = (Done (), m') /\ m_fds m' = <[i := Some f]> (m_fds m) /\
    forall fd, output fd m' = output fd m ++ (if decide (fd = 1) then grep_output re (buf ++ rest) else []).
Proof.
  revert buf m rest. induction fuel as [|fuel IH]; intros buf m rest Hr Ho Hi Hz1 Hz2 Hf Hb Hl; [lia|].
  destruct Hr as (ino & data & Hfd). set (fo := Ofile (NFile ino data) rest) in *.
  set (n := Z.of_nat (sizeof_buf - length buf - 1)). set (k := amount chop fo n).
  pose proof (run_read resolve chop i fo n m Hfd) as Er. fold k in Er. change (of_rest fo) with rest in Er. change (of_node fo) with (NFile ino data) in Er.
  set (m1 := Machine _ _) in Er.
  assert (Hk : (rest <> [] -> (length buf < 1023)%nat -> (1 <= k)%nat) /\ (k <= 1023 - length buf)%nat).
  { unfold k, amount, n, sizeof_buf. cbn [of_node fo of_rest]. split; [|lia]. intros Hne Hlt.
    pose proof (Hchop rest (Z.of_nat (1024 - length buf - 1)) Hne ltac:(lia)). lia. }
  assert (O1 : is_open m1 1) by (unfold m1; by apply insert_open; [destruct m|]).
  assert (Hz3 : 0 ∉ take k rest /\ 0 ∉ drop k rest) by (by rewrite <- not_elem_of_app, take_drop).
  destruct (take k rest) as [|b bs] eqn:Et.
  - exists m1, (Ofile (NFile ino data) (drop k rest)). split; [|split; [done|]].
    { apply run_last. unfold grep_body. fold n. by rewrite run_bind, Er. }
    intros fd. change (output fd m1) with (output fd m).
    assert (Hnone : grep_output re (buf ++ rest) = []); [|rewrite Hnone; case_decide; by rewrite app_nil_r].
    destruct (decide (rest = [])) as [->|Hne]; [rewrite app_nil_r; by apply grep_output_none|].
    apply grep_output_long; [done|]. destruct (decide (length buf < 1023)%nat) as [Hlt|]; [|lia].
    destruct Hk as [Hk _]. specialize (Hk Hne Hlt). destruct rest; [done|]. destruct k; [lia|]. discriminate Et.
  - rewrite <- Et in Hz3. assert (Hlen : (length (buf ++ take k rest) <= 1023)%nat) by (rewrite length_app, length_take; lia).
    destruct (grep_lines_run (S (length (buf ++ take k rest))) re (buf ++ take k rest) (drop k rest) m1)
      as (rest' & out & m2 & E & W2 & R1 & R0 & R2 & R3); [apply not_elem_of_app; tauto|lia|done|done|]. pose proof W2 as [F2 O2].
    assert (Hpos : (0 < k)%nat) by (destruct k; [done|lia]).
    assert (Hne : rest <> []) by (intros ->; by rewrite take_nil in Et).
    destruct (IH rest' m2 (drop k rest)) as (m3 & f & E' & F' & O'); try done.
    { exists ino, data. rewrite F2. unfold m1. cbn [m_fds]. apply list_lookup_insert_eq. by eapply lookup_lt_Some. }
    { by eapply wrote_open. }
    { apply Hz3. }
    { rewrite length_drop. destruct rest; [done|]. cbn [length] in *. lia. }
    { lia. }
    exists m3, f. split; [|split].
    + rewrite <- E'. apply run_next. unfold grep_body. fold n. rewrite run_bind, Er. rewrite run_bind, <- Et, E. done.
    + rewrite F', F2. unfold m1. cbn [m_fds]. apply list_insert_insert_eq.
    + intros fd. rewrite O', O2, <- app_assoc. change (output fd m1) with (output fd m). f_equal. case_decide; [|done].
      rewrite R3, <- app_assoc. by rewrite take_drop.
Qed.

Definition searchable (fuel : nat) (d : list Z) : Prop := (length d < fuel)%nat /\ 0 ∉ d.
Lemma grep_files fuel re files ds m i : Forall2 (fun f d => exists ino, resolve f = Some (NFile ino d)) files ds ->
  lowest (m_fds m) = Some i -> is_open m 1 -> Forall (searchable fuel) ds ->
  exists m', go (ufor files (grep_file fuel re)) m = (Done (), m') /\ wrote 1 (concat (grep_output re <$> ds)) m m'.
Proof.
  apply on_files. clear m. intros name ino data m Hn Hl Ho [Hd Hz].
  apply (on_file resolve chop (grep fuel re)) with (ino := ino) (data := data) (i := i); [done..|].
  intros m1 H1 H2 H3. apply (grep_loop fuel re [] m1 i data); try done; [apply not_elem_of_nil..|cbn; lia].
Qed.

(** C33: grep prints, file by file and in order, the complete lines that the pattern
    matches, of each file up to the first line that does not fit into its buffer, and
    exits with 0; at the first file that cannot be opened it stops with a message and
    1.  It ends, leaves no descriptor open, and does not depend on how read() cuts up the
    files.  (The files have no NUL bytes; text after the last newline is not a line.) *)
Theorem grep_correct fuel prog re files ds bad more m i :
  Forall2 (fun f d => exists ino, resolve f = Some (NFile ino d)) files ds -> lowest (m_fds m) = Some i ->
  is_open m 1 -> Forall (searchable fuel) ds -> resolve bad = None -> Forall (fun c => 0 <= c < 256) bad -> files <> [] ->
  (exists m', go (grep_main fuel (prog :: re :: files)) m = (Exited 0, m') /\ wrote 1 (concat (grep_output re <$> ds)) m m') /\
  (exists m', go (grep_main fuel (prog :: re :: files ++ bad :: more)) m = (Exited 1, m') /\
    wrote 1 (concat (grep_output re <$> ds) ++ bytes "grep: cannot open " ++ bad ++ [10]) m m').
Proof.
  intros H Hl Ho Hf Hb Hbad Hne. destruct (grep_files fuel re files ds m i H Hl Ho Hf) as (m1 & E1 & W1).
  unfold grep_main. cbn [length drop]. destruct files as [|f files]; [done|]. cbn [length app Nat.leb].
  unfold arg. cbn [lookup list_lookup]. change (drop 0 (?a :: ?b)) with (a :: b). split.
  - exists m1. rewrite run_bind. cbn [run]. by rewrite run_bind, E1.
  - set (msg := bytes "grep: cannot open " ++ bad ++ [10]). exists (said 1 msg m1). split; [|eapply wrote_trans; [done|apply wrote_said]].
    rewrite run_bind. cbn [run]. rewrite run_bind. change (f :: files ++ bad :: more) with ((f :: files) ++ bad :: more).
    erewrite run_ufor_app by exact E1. cbn [ufor]. rewrite run_bind. unfold grep_file at 1.
    rewrite run_bind, (run_open_none _ _ _ _ _ Hb). change (-1 <? 0) with true. cbn iota. rewrite run_bind.
    assert (E2 : go (printf (nl "grep: cannot open %s") [A_str (Some bad)]) m1 = (Done (), said 1 msg m1)).
    { change (nl "grep: cannot open %s") with (bytes "grep: cannot open " ++ [37; 115] ++ [10]).
      apply prints_string; [by apply (bool_decide_eq_true_1 (37 ∉ _))|by apply (bool_decide_eq_true_1 (37 ∉ _))|apply bytes_range|
        by apply Forall_singleton|done|by eapply wrote_open]. }
    by rewrite E2.
Qed.
End Proofs.

(** The pattern ^a.*z$ on a file with the lines abz, xyz, a, az and an unfinished one,
    read a byte at a time, and on a file that is not there. *)
Definition lines_file (path : list Z) : option node :=
  if bool_decide (path = bytes "f") then Some (NFile 2 [97; 98; 122; 10; 120; 121; 122; 10; 97; 10; 97; 122; 10; 97; 122]) else None.
Lemma grep_correct_witness :
  let re := [94; 97; 46; 42; 122; 36] in
  (exists m', run lines_file byte_by_byte (grep_main 20 [bytes "grep"; re; bytes "f"]) at_start = (Exited 0, m') /\
    wrote 1 [97; 98; 122; 10; 97; 122; 10] at_start m') /\
  (exists m', run lines_file byte_by_byte (grep_main 20 [bytes "grep"; re; bytes "f"; bytes "g"]) at_start = (Exited 1, m') /\
    wrote 1 ([97; 98; 122; 10; 97; 122; 10] ++ bytes "grep: cannot open g" ++ [10]) at_start m').
Proof.
  apply (grep_correct lines_file byte_by_byte byte_by_byte_ok 20 (bytes "grep") [94; 97; 46; 42; 122; 36] [bytes "f"]
    [[97; 98; 122; 10; 120; 121; 122; 10; 97; 10; 97; 122; 10; 97; 122]] (bytes "g") [] at_start 3).
  - constructor; [by exists 2|constructor].
  - done.
  - by eexists.
  - constructor; [split; [cbn; lia|apply (bool_decide_eq_true_1 (0 ∉ _)); by vm_compute]|constructor].
  - done.
  - apply bytes_range.
  - done.
Defined.
End Grep.
