(* ===== verification/Pool.v ===== *)
(** * User programs that run concurrently

    Processes that execute programs (trees of system calls, User.v) side by side: each
    step is one system call of one process, in any order.  Processes share the
    console and the pipes; a pipe holds at most PIPESIZE bytes, reading an empty one
    waits for a writer, and ends when no write end is open; a write that does not fit
    waits for room, and fails when no read end is open; wait() waits for a child.
    This is the behaviour of the kernel's pipe.c, fork, exit and wait, with room for
    all processes and files. *)
From stdpp Require Import prelude gmap strings.
From Stdlib Require Import ZArith Lia.
From S2P Require Import Prelude Memory CString Spinlock Riscv Kalloc Vm Uaccess Proc Bytes State User.
Import User.
Open Scope Z_scope.

(** What a descriptor stands for. *)
Inductive desc := Console | Rd (p : nat) | Wr (p : nat).
#[export] Instance desc_dec : EqDecision desc.
Proof. solve_decision. Defined.

(** A process, with its parent ([None]: init). *)
Inductive pst :=
| Live (parent : option nat) (code : U ()) (fds : list (option desc))
| Zombie (parent : option nat) (status : Z)
| Reaped.

Record pool := Pool { po_procs : list pst; po_pipes : list (list Z); po_out : list Z }.

Definition has_desc (d : desc) (x : pst) : bool :=
  match x with Live _ _ fds => bool_decide (Some d ∈ fds) | _ => false end.
Definition open_somewhere (d : desc) (s : pool) : bool := existsb (has_desc d) (po_procs s).

Definition get_desc (fds : list (option desc)) (fd : Z) : option desc :=
  if fd <? 0 then None else mjoin (fds !! Z.to_nat fd).

Definition is_child (i : nat) (x : pst) : bool :=
  match x with Live (Some j) _ _ | Zombie (Some j) _ => bool_decide (i = j) | _ => false end.
Definition is_zombie (x : pst) : bool := match x with Zombie _ _ => true | _ => false end.
(** The first child of [i] that has exited. *)
Definition zombie_child (i : nat) (l : list pst) : option nat :=
  fst <$> list_find (fun x => is_child i x && is_zombie x = true) l.

(** exit() gives the children to init. *)
Definition orphan (i : nat) (x : pst) : pst :=
  if is_child i x then match x with Live _ c fds => Live None c fds | Zombie _ n => Zombie None n | Reaped => Reaped end else x.

Definition pid_of (i : nat) : Z := Z.of_nat i + 1.

Section Step.
Context (s : pool) (i : nat) (parent : option nat) (fds : list (option desc)).

(** Process [i] goes on with [code]. *)
Definition go_on (code : U ()) (fds' : list (option desc)) : list pst := <[i := Live parent code fds']> (po_procs s).

(** One system call of the process; [None] when it has to wait, or is not one that
    this semantics has. *)
Definition call (code : U ()) : option pool :=
  match code with
  | Exit n => Some (Pool (<[i := Zombie parent n]> (orphan i <$> po_procs s)) (po_pipes s) (po_out s))
  | Sys (Close fd) k =>
      match get_desc fds fd with
      | Some _ => Some (Pool (go_on (k 0) (<[Z.to_nat fd := None]> fds)) (po_pipes s) (po_out s))
      | None => Some (Pool (go_on (k (-1)) fds) (po_pipes s) (po_out s))
      end
  | Sys (Write fd bs) k =>
      match get_desc fds fd with
      | Some Console => Some (Pool (go_on (k (Z.of_nat (length bs))) fds) (po_pipes s) (po_out s ++ bs))
      | Some (Wr p) =>
          if negb (open_somewhere (Rd p) s) then Some (Pool (go_on (k (-1)) fds) (po_pipes s) (po_out s))
          else
            let q := po_pipes s !!! p in
            let room := (Z.to_nat PIPESIZE - length q)%nat in
            if (length bs <=? room)%nat
            then Some (Pool (go_on (k (Z.of_nat (length bs))) fds) (<[p := q ++ bs]> (po_pipes s)) (po_out s))
            else if (0 <? room)%nat
            then Some (Pool (go_on (Sys (Write fd (drop room bs)) (fun r => k (if r <? 0 then r else Z.of_nat room + r))) fds)
                        (<[p := q ++ take room bs]> (po_pipes s)) (po_out s))
            else None
      | _ => Some (Pool (go_on (k (-1)) fds) (po_pipes s) (po_out s))
      end
  | Read fd n k =>
      match get_desc fds fd with
      | Some (Rd p) =>
          let q := po_pipes s !!! p in
          if bool_decide (q = []) then
            if open_somewhere (Wr p) s then None else Some (Pool (go_on (k (Some [])) fds) (po_pipes s) (po_out s))
          else Some (Pool (go_on (k (Some (take (Z.to_nat n) q))) fds) (<[p := drop (Z.to_nat n) q]> (po_pipes s)) (po_out s))
      | Some Console => None
      | _ => Some (Pool (go_on (k None) fds) (po_pipes s) (po_out s))
      end
  | Pipe k =>
      match lowest fds with
      | Some a =>
          let fds1 := <[a := Some (Rd (length (po_pipes s)))]> fds in
          match lowest fds1 with
          | Some b =>
              Some (Pool (go_on (k (Some (Z.of_nat a, Z.of_nat b))) (<[b := Some (Wr (length (po_pipes s)))]> fds1))
                      (po_pipes s ++ [[]]) (po_out s))
          | None => Some (Pool (go_on (k None) fds) (po_pipes s) (po_out s))
          end
      | None => Some (Pool (go_on (k None) fds) (po_pipes s) (po_out s))
      end
  | Fork k =>
      Some (Pool (go_on (k (pid_of (length (po_procs s)))) fds ++ [Live (Some i) (k 0) fds]) (po_pipes s) (po_out s))
  | Sys Wait k =>
      match zombie_child i (po_procs s) with
      | Some j => Some (Pool (<[j := Reaped]> (go_on (k (pid_of j)) fds)) (po_pipes s) (po_out s))
      | None => if existsb (is_child i) (po_procs s) then None
                else Some (Pool (go_on (k (-1)) fds) (po_pipes s) (po_out s))
      end
  | _ => None
  end.
End Step.

Definition pstep (i : nat) (s : pool) : option pool :=
  match po_procs s !! i with Some (Live parent code fds) => call s i parent fds code | _ => None end.

(** Some process does a system call. *)
Definition step (s s' : pool) : Prop := exists i, pstep i s = Some s'.

(** A program that has just been started by the shell. *)
Definition stdio : list (option desc) := [Some Console; Some Console; Some Console] ++ replicate (Z.to_nat NOFILE - 3) None.
Definition started_with (p : U ()) : pool := Pool [Live None p stdio] [] [].

(** A scheduler, to try programs out: the first process from [from] on that can go on. *)
Fixpoint first_step (fuel : nat) (i : nat) (s : pool) : option pool :=
  match fuel with
  | O => None
  | S f => match pstep i s with Some s' => Some s' | None => first_step f (S i) s end
  end.
Fixpoint run_pool (fuel : nat) (s : pool) : nat * pool :=
  match fuel with
  | O => (O, s)
  | S f => match first_step (length (po_procs s)) 0 s with
           | Some s' => let '(n, r) := run_pool f s' in (S n, r)
           | None => (O, s)
           end
  end.
