(* ===== verification/Primes.v ===== *)
(** * user/primes.c

    A sieve as a chain of processes: each prints the first number it is given, a prime,
    and passes on the numbers that it does not divide to the next process through a
    pipe.  All processes run concurrently; in every order of their steps the output is
    the primes below 36. *)
From stdpp Require Import prelude gmap strings.
From Stdlib Require Import ZArith Lia.
From S2P Require Import Prelude Memory CString Bytes User Ulib Uprintf Progs Pool.
Import User Uprintf.
Open Scope Z_scope.

Module Primes.

Definition upipe : U (option (Z * Z)) := Pipe Ret.
Definition ufork : U Z := Fork Ret.

(** The variables of a process in the loop: the pipe to the right, if there is one
    ([has_right] and [rhs]), and the bytes of [num], which is not initialised. *)
Record vars := Vars { v_rhs : option (Z * Z); v_num : option (list Z) }.

(** [read(lhs[0], &num, sizeof(int))] overwrites the bytes it delivers. *)
Definition stored (num : option (list Z)) (r : option (list Z)) : option (list Z) :=
  match r, num with
  | Some bs, Some old => Some (bs ++ drop (length bs) old)
  | Some bs, None => if (length bs =? 4)%nat then Some bs else None
  | None, _ => num
  end.

Section Body.
(** [create_right_process], as the loop calls it. *)
Context (create : Z * Z -> Z -> U ()).

Definition make_right (lhs : Z * Z) (num : Z) : U (Z * Z) :=
  p ← upipe;
  match p with
  | None => printf (nl "can`t create pipe now") [] ;; sys (Close lhs.1) ;; Exit 0
  | Some rhs => create rhs num ;; sys (Close rhs.1) ;; Ret rhs
  end.
Definition sieve_body (lhs : Z * Z) (prime : Z) (x : vars) : U (vars + vars) :=
  r ← uread lhs.1 4;
  match r with
  | Some [] => Ret (inr x)
  | _ =>
      match stored (v_num x) r with
      | None => Out
      | Some bs =>
          let num := i32 (of_bytes bs) in
          if Z.rem num prime =? 0 then Ret (inl (Vars (v_rhs x) (Some bs)))
          else
            rhs ← match v_rhs x with Some rhs => Ret rhs | None => make_right lhs num end;
            sys (Write rhs.2 (bytes_of 4 num)) ;;
            Ret (inl (Vars (Some rhs) (Some bs)))
      end
  end.
(** After the loop. *)
Definition finish (lhs : Z * Z) (x : vars) : U () :=
  sys (Close lhs.1) ;;
  match v_rhs x with Some rhs => sys (Close rhs.2) ;; sys Wait ;; Ret () | None => Ret () end ;;
  Exit 0.
End Body.

(** [gens] bounds the number of processes to the right, [fuel] the rounds of a loop. *)
Fixpoint create_right_process (fuel gens : nat) (rhs : Z * Z) (prime : Z) : U () :=
  match gens with
  | O => Out
  | S gens' =>
      ret ← ufork;
      if ret <? 0 then printf (nl "can`t fork now") [] ;; Exit 0
      else if 0 <? ret then Ret ()
      else
        let lhs := rhs in
        sys (Close lhs.2) ;;
        printf (nl "prime %d") [A_num prime] ;;
        x ← uloop fuel (sieve_body (create_right_process fuel gens') lhs prime) (Vars None None);
        finish lhs x
  end.

Definition primes_main (fuel gens : nat) : U () :=
  p ← upipe;
  match p with
  | None => printf (nl "cant`t create pipe now") [] ;; Exit 0
  | Some rhs =>
      create_right_process fuel gens rhs 2 ;;
      sys (Close rhs.1) ;;
      ufor (seqZ 3 33) (fun i => sys (Write rhs.2 (bytes_of 4 i)) ;; Ret ()) ;;
      sys (Close rhs.2) ;;
      sys Wait ;;
      Exit 0
  end.
End Primes.
