(* ===== verification/PrimesSpec.v ===== *)
(** * What primes prints

    The processes form a chain: process 0 is main, process k the one that prints the
    k-th prime, and pipe k leads from process k to process k+1.  Every state that can be
    reached is described by where each process is ([point]) and by the numbers in the
    pipes.  In any such state what the pipes hold and what the processes upstream are
    still going to send is the rest of a fixed stream of numbers ([stream]). *)
From stdpp Require Import prelude gmap strings pretty relations.
From Stdlib Require Import ZArith Lia FunctionalExtensionality.
From S2P Require Import Prelude Memory CString Bytes User Ulib Uprintf Progs Pool Primes.
Import User Uprintf Primes.
Open Scope Z_scope.

(** ** What is expected *)

Definition is_prime (p : Z) : Prop := 2 <= p /\ Forall (fun d => p mod d <> 0) (seqZ 2 (p - 2)).
#[export] Instance is_prime_dec p : Decision (is_prime p).
Proof. unfold is_prime. apply _. Defined.
Definition primes_below (n : Z) : list Z := filter is_prime (seqZ 2 (n - 2)).
Definition line (p : Z) : list Z := bytes "prime " ++ rev (printint_buf p 10 true) ++ [10].

Definition ps : list Z := Eval vm_compute in primes_below 36.
(** The prime of process [k], and the numbers that it sends. *)
Definition pr (k : nat) : Z := ps !!! (k - 1)%nat.
Definition ndiv (p n : Z) : Prop := Z.rem n p <> 0.
Fixpoint stream (k : nat) : list Z :=
  match k with O => seqZ 3 33 | S k' => filter (ndiv (pr k)) (stream k') end.

(** ** Where a process can be *)

Inductive point :=
(* main *)
| M_pipe | M_fork | M_close | M_write (rest : list Z) | M_close2
(* the other processes: [f] is the fuel of the rest of the loop, [n] the number read *)
| Start | Print (rest : list Z)
| Reading (f : nat) (num : option Z) (hr : bool)
| MakePipe (f : nat) (n : Z) | Forking (f : nat) (n : Z) | Closing (f : nat) (n : Z) | Writing (f : nat) (n : Z)
| Close1 (hr : bool) | Close2
(* all *)
| Waiting | Exiting (hr : bool) | Dead (hr : bool) | Gone (hr : bool).

Definition lhs (k : nat) : Z * Z := (Z.of_nat (2 + k), Z.of_nat (3 + k)).
Definition rhs (k : nat) : Z * Z := (Z.of_nat (3 + k), Z.of_nat (4 + k)).
Definition gens (k : nat) : nat := 11 - k.
Definition fuel0 : nat := 36.

Definition create (k : nat) : Z * Z -> Z -> U () := create_right_process fuel0 (gens k).
Definition body (k : nat) : vars -> U (vars + vars) := sieve_body (create k) (lhs k) (pr k).
Definition loop_from (k f : nat) (x : vars) : U () := x ← uloop f (body k) x; finish (lhs k) x.
(** The rest of a round, then the rest of the loop. *)
Definition after (k f : nat) (m : U (vars + vars)) : U () :=
  x ← (r ← m; match r with inl x' => uloop f (body k) x' | inr y => Ret y end); finish (lhs k) x.
Definition send (n : Z) (rhs : Z * Z) : U (vars + vars) :=
  sys (Write rhs.2 (bytes_of 4 n)) ;; Ret (inl (Vars (Some rhs) (Some (bytes_of 4 n)))).
Definition the_rhs (k : nat) (hr : bool) : option (Z * Z) := if hr then Some (rhs k) else None.
Fixpoint writes (t : list Z) (c : U ()) : U () :=
  match t with [] => c | x :: t' => Sys (Write 1 [x]) (fun _ => writes t' c) end.

Definition main_tail (l : list Z) : U () :=
  ufor l (fun i => sys (Write (rhs 0).2 (bytes_of 4 i)) ;; Ret ()) ;; sys (Close (rhs 0).2) ;; sys Wait ;; Exit 0.

Definition code (k : nat) (pt : point) : U () :=
  match pt with
  | M_pipe => primes_main fuel0 (gens 0)
  | M_fork => create 0 (rhs 0) 2 ;; sys (Close (rhs 0).1) ;; main_tail (seqZ 3 33)
  | M_close => sys (Close (rhs 0).1) ;; main_tail (seqZ 3 33)
  | M_write l => main_tail l
  | M_close2 => sys (Close (rhs 0).2) ;; sys Wait ;; Exit 0
  | Start => sys (Close (lhs k).2) ;; printf (nl "prime %d") [A_num (pr k)] ;; loop_from k fuel0 (Vars None None)
  | Print t => writes t (loop_from k fuel0 (Vars None None))
  | Reading f num hr => loop_from k f (Vars (the_rhs k hr) (bytes_of 4 <$> num))
  | MakePipe f n => after k f (rhs ← make_right (create k) (lhs k) n; send n rhs)
  | Forking f n => after k f (rhs ← (create k (rhs k) n ;; sys (Close (rhs k).1) ;; Ret (rhs k)); send n rhs)
  | Closing f n => after k f (rhs ← (sys (Close (rhs k).1) ;; Ret (rhs k)); send n rhs)
  | Writing f n => after k f (send n (rhs k))
  | Close1 hr => finish (lhs k) (Vars (the_rhs k hr) None)
  | Close2 => sys (Close (rhs k).2) ;; sys Wait ;; Exit 0
  | Waiting => sys Wait ;; Exit 0
  | Exiting _ => Exit 0
  | Dead _ | Gone _ => Out
  end.

(** The descriptors: the read ends of the pipes to the left stay open. *)
Definition reads (k : nat) : list (option desc) := (fun p => Some (Rd p)) <$> seq 0 k.
Definition pad (l : list (option desc)) : list (option desc) :=
  [Some Console; Some Console; Some Console] ++ l ++ replicate (13 - length l) None.
Definition fds (k : nat) (pt : point) : list (option desc) :=
  match pt with
  | Start => pad (reads k ++ [Some (Wr (k - 1))])
  | M_fork | M_close | Forking _ _ | Closing _ _ => pad (reads k ++ [Some (Rd k); Some (Wr k)])
  | M_write _ | M_close2 | Writing _ _ | Reading _ _ true | Close1 true => pad (reads k ++ [None; Some (Wr k)])
  | Close2 => pad (reads (k - 1) ++ [None; None; Some (Wr k)])
  | Waiting | Exiting _ => pad (reads (k - 1))
  | _ => pad (reads k)
  end.
Definition par (k : nat) : option nat := match k with O => None | S j => Some j end.
Definition proc (k : nat) (pt : point) : pst :=
  match pt with
  | Dead _ => Zombie (par k) 0
  | Gone _ => Reaped
  | _ => Live (par k) (code k pt) (fds k pt)
  end.
Definition ints (q : list Z) : list Z := concat (bytes_of 4 <$> q).
Definition conc (st : list point) (qs : list (list Z)) (out : list Z) : pool := Pool (imap proc st) (ints <$> qs) out.

Lemma conc_start : conc [M_pipe] [] [] = started_with (primes_main 36 11).
Proof. reflexivity. Qed.

(** ** The programs at the points *)

Ltac each k := do 12 (destruct k as [|k]; [reflexivity || (exfalso; lia) || done|]); exfalso; lia.

Lemma prints_line k c : (1 <= k <= 11)%nat -> (printf (nl "prime %d") [A_num (pr k)] ;; c) = writes (line (pr k)) c.
Proof. intros Hk. each k. Qed.
Lemma gens_S k : (k <= 10)%nat -> gens k = S (gens (S k)).
Proof. unfold gens. lia. Qed.
Lemma pr_next k n l : (1 <= k <= 11)%nat -> stream k = n :: l -> (k <= 10)%nat /\ n = pr (S k).
Proof.
  intros Hk. do 12 (destruct k as [|k]; [try lia; vm_compute; intros [= <- _]; (split; [lia|done]) || done|]). lia.
Qed.
Lemma stream_end k : (1 <= k <= 11)%nat -> stream k = [] -> k = 11%nat.
Proof. intros Hk. do 12 (destruct k as [|k]; [try lia; vm_compute; done|]). lia. Qed.
Lemma drop_ps k : (k <= 10)%nat -> drop k ps = pr (S k) :: drop (S k) ps.
Proof. intros Hk. each k. Qed.
Lemma line_length k : (1 <= k <= 11)%nat -> (1 <= length (line (pr k)) <= 9)%nat.
Proof. intros Hk. do 12 (destruct k as [|k]; [try lia; vm_compute; lia|]). lia. Qed.

Definition got (k f : nat) (num : option Z) (hr : bool) (r : option (list Z)) : U () :=
  after k f (match r with
    | Some [] => Ret (inr (Vars (the_rhs k hr) (bytes_of 4 <$> num)))
    | _ => match stored (bytes_of 4 <$> num) r with
           | None => Out
           | Some bs =>
               let num := i32 (of_bytes bs) in
               if Z.rem num (pr k) =? 0 then Ret (inl (Vars (the_rhs k hr) (Some bs)))
               else
                 rhs ← match the_rhs k hr with Some rhs => Ret rhs | None => make_right (create k) (lhs k) num end;
                 sys (Write rhs.2 (bytes_of 4 num)) ;; Ret (inl (Vars (Some rhs) (Some bs)))
           end
    end).
Lemma code_reading k f num hr : code k (Reading (S f) num hr) = Read (lhs k).1 4 (got k f num hr).
Proof. reflexivity. Qed.
Definition made (k f : nat) (n : Z) (p : option (Z * Z)) : U () :=
  after k f (rhs ← match p with
                   | None => printf (nl "can`t create pipe now") [] ;; sys (Close (lhs k).1) ;; Exit 0
                   | Some rhs => create k rhs n ;; sys (Close rhs.1) ;; Ret rhs
                   end; send n rhs).
Lemma code_pipe k f n : code k (MakePipe f n) = Pipe (made k f n).
Proof. reflexivity. Qed.
Lemma made_some k f n : made k f n (Some (rhs k)) = code k (Forking f n).
Proof. reflexivity. Qed.
(** The child of process [k]. *)
Definition child (k : nat) (n : Z) : U () :=
  sys (Close (lhs (S k)).2) ;; printf (nl "prime %d") [A_num n] ;;
  x ← uloop fuel0 (sieve_body (create (S k)) (lhs (S k)) n) (Vars None None); finish (lhs (S k)) x.
Lemma create_fork k n : (k <= 10)%nat -> create k (rhs k) n =
  Fork (fun ret => if ret <? 0 then printf (nl "can`t fork now") [] ;; Exit 0 else if 0 <? ret then Ret () else child k n).
Proof. intros Hk. unfold create. rewrite gens_S by done. reflexivity. Qed.
Definition forked (k f : nat) (n ret : Z) : U () :=
  after k f (rhs ← ((if ret <? 0 then printf (nl "can`t fork now") [] ;; Exit 0 else if 0 <? ret then Ret () else child k n) ;;
                    sys (Close (rhs k).1) ;; Ret (rhs k)); send n rhs).
Lemma code_fork k f n : (k <= 10)%nat -> code k (Forking f n) = Fork (forked k f n).
Proof. intros Hk. cbn [code]. by rewrite create_fork. Qed.
Lemma forked_parent k f n j : forked k f n (pid_of j) = code k (Closing f n).
Proof.
  unfold forked, pid_of. rewrite (proj2 (Z.ltb_ge _ 0)), (proj2 (Z.ltb_lt 0 _)) by lia. reflexivity.
Qed.
(** A child never returns: what follows the fork in the parent is not reached. *)
Fixpoint exits (c : U ()) : Prop :=
  match c with
  | Ret _ => False
  | Exit _ | Out => True
  | Sys _ k | Fork k => forall r, exits (k r)
  | Read _ _ k => forall r, exits (k r)
  | Fstat _ k => forall r, exits (k r)
  | Pipe k => forall r, exits (k r)
  end.
Lemma exits_bind {A} (m : U A) (f : A -> U ()) : (forall a, exits (f a)) -> exits (ubind m f).
Proof. intros Hf. induction m; cbn [ubind exits]; auto. Qed.
Lemma bind_exits (c : U ()) (f : () -> U ()) : exits c -> ubind c f = c.
Proof. induction c; cbn [ubind exits]; intros Hc; (done || (f_equal; extensionality r; auto)). Qed.
Lemma ubind_assoc {A B C} (m : U A) (f : A -> U B) (g : B -> U C) : ubind (ubind m f) g = ubind m (fun x => ubind (f x) g).
Proof. induction m; cbn [ubind]; (done || (f_equal; extensionality r; auto)). Qed.
Lemma child_exits k n : exits (child k n).
Proof.
  unfold child, finish. do 5 (apply exits_bind; intros ?). exact I.
Qed.
Lemma forked_child k f n : n = pr (S k) -> forked k f n 0 = code (S k) Start.
Proof.
  intros ->. unfold forked. change (0 <? 0) with false. cbv iota. unfold after, mbind, U_bind.
  rewrite !ubind_assoc. apply bind_exits, child_exits.
Qed.
Lemma got_end k f num hr : got k f num hr (Some []) = code k (Close1 hr).
Proof. reflexivity. Qed.
Lemma bytes_of_4 n : exists a b c d, bytes_of 4 n = [a; b; c; d].
Proof. by eexists _, _, _, _. Qed.
Lemma got_number k f num hr n : 3 <= n < 36 ->
  got k f num hr (Some (bytes_of 4 n)) =
  if Z.rem n (pr k) =? 0 then code k (Reading f (Some n) hr) else code k (if hr then Writing f n else MakePipe f n).
Proof.
  intros Hn. assert (Hv : i32 (of_bytes (bytes_of 4 n)) = n) by (rewrite of_bytes_of by lia; apply i32_id; lia).
  unfold got. assert (Hs : stored (bytes_of 4 <$> num) (Some (bytes_of 4 n)) = Some (bytes_of 4 n)).
  { destruct num as [m|]; [|done]. cbn [fmap option_fmap option_map stored]. by rewrite drop_ge, app_nil_r. }
  rewrite Hs. destruct (bytes_of_4 n) as (a & b & c & d & E). rewrite E at 1. cbv zeta. rewrite Hv.
  destruct (Z.rem n (pr k) =? 0); [done|]. by destruct hr.
Qed.

(** ** The invariant *)

(** How a process is linked to the one on its right: it may still write, it has closed
    the pipe and waits, or it has seen the other one end. *)
Inductive link := Sends | Closed | Ended.
#[export] Instance link_dec : EqDecision link.
Proof. solve_decision. Defined.
Definition link_of (pt : point) : link :=
  match pt with Waiting => Closed | Exiting _ | Dead _ | Gone _ => Ended | _ => Sends end.
Definition has_right (pt : point) : bool :=
  match pt with
  | Reading _ _ hr | Close1 hr | Exiting hr | Dead hr | Gone hr => hr
  | Closing _ _ | Writing _ _ | Close2 | Waiting | M_close | M_write _ | M_close2 => true
  | _ => false
  end.
(** The numbers that it will send before it reads again, and what it will print. *)
Definition pend (pt : point) : list Z :=
  match pt with
  | M_pipe | M_fork | M_close => seqZ 3 33
  | M_write l => l
  | MakePipe _ n | Forking _ n | Closing _ n | Writing _ n => [n]
  | _ => []
  end.
Definition unprinted (k : nat) (pt : point) : list Z := match pt with Start => line (pr k) | Print t => t | _ => [] end.
Definition is_gone (pt : point) : bool := match pt with Gone _ => true | _ => false end.
Definition is_dead (pt : point) : bool := match pt with Dead _ => true | _ => false end.
Definition new_pipe (pt : point) : list (list Z) := match pt with Forking _ _ | M_fork => [[]] | _ => [] end.

(** Process [k], with [X] the numbers that it has not read yet. *)
Definition at_point (prev : link) (X : list Z) (pt : point) : Prop :=
  match pt with
  | M_pipe | M_fork | M_close | M_write _ | M_close2 => False
  | Start => (length X < fuel0)%nat
  | Print t => (1 <= length t <= 9)%nat /\ (length X < fuel0)%nat
  | Reading f _ _ => (length X < f <= fuel0)%nat
  | MakePipe f _ | Forking f _ | Closing f _ | Writing f _ => (length X < f)%nat /\ (f < fuel0)%nat
  | _ => X = [] /\ prev <> Sends
  end.
Record stage_ok (k : nat) (prev : link) (X : list Z) (pt : point) : Prop := {
  so_k : (1 <= k <= 11)%nat;
  so_range : Forall (fun n => 3 <= n < 36) (pend pt ++ X);
  so_point : at_point prev X pt;
  so_gone : prev = Ended <-> is_gone pt = true;
}.

(** The processes from [k] on: [q] is in the pipe from the left, [Y] has yet to come, [qs] are the
    pipes further to the right, and [T] will be printed. *)
Fixpoint chain (k : nat) (prev : link) (q Y : list Z) (st : list point) (qs : list (list Z)) (T : list Z) : Prop :=
  match st with
  | [] => False
  | pt :: st' =>
      stage_ok k prev (q ++ Y) pt /\
      let sent := pend pt ++ filter (ndiv (pr k)) (q ++ Y) in
      match st' with
      | [] => has_right pt = false /\ qs = new_pipe pt /\ sent = stream k /\ T = unprinted k pt ++ concat (line <$> drop k ps)
      | _ :: _ => has_right pt = true /\ match qs with q' :: qs' => chain (S k) (link_of pt) q' sent st' qs' T | [] => False end
      end
  end.

Definition main_point (pt : point) : Prop :=
  match pt with
  | M_write l => (1 <= length l <= 33)%nat /\ Forall (fun n => 3 <= n < 36) l
  | M_pipe | M_fork | M_close | M_close2 | Waiting => True
  | Exiting hr | Dead hr => hr = true
  | _ => False
  end.
Definition all_lines : list Z := concat (line <$> ps).
Definition system (st : list point) (qs : list (list Z)) (T : list Z) : Prop :=
  match st with
  | [] => False
  | pt :: st' =>
      main_point pt /\
      match st' with
      | [] => has_right pt = false /\ qs = new_pipe pt /\ T = all_lines
      | _ :: _ => has_right pt = true /\ match qs with q :: qs' => chain 1 (link_of pt) q (pend pt) st' qs' T | [] => False end
      end
  end.

(** ** Lists *)

Lemma insert_imap {A B} (f : nat -> A -> B) l i x : imap f (<[i := x]> l) = <[i := f i x]> (imap f l).
Proof.
  apply list_eq. intros j. rewrite list_lookup_imap. destruct (decide (i = j)) as [->|Hne].
  - destruct (decide (j < length l)%nat) as [Hl|Hl].
    + rewrite !list_lookup_insert_eq by (rewrite ?length_imap; done). done.
    + rewrite !list_insert_ge, list_lookup_imap by (rewrite ?length_imap; lia). done.
  - by rewrite !list_lookup_insert_ne, list_lookup_imap.
Qed.
Lemma middle_insert {A} (l1 l2 : list A) x y : <[length l1 := y]> (l1 ++ x :: l2) = l1 ++ y :: l2.
Proof. rewrite insert_app_r_alt by lia. by rewrite Nat.sub_diag. Qed.
Lemma set_point pre pt post pt' :
  <[length pre := proc (length pre) pt']> (imap proc (pre ++ pt :: post)) = imap proc (pre ++ pt' :: post).
Proof. by rewrite <- insert_imap, middle_insert. Qed.
Lemma the_point pre pt post : imap proc (pre ++ pt :: post) !! length pre = Some (proc (length pre) pt).
Proof. rewrite list_lookup_imap, lookup_app_r, Nat.sub_diag by lia. done. Qed.
Lemma the_pipe qs1 q qs2 : (ints <$> (qs1 ++ q :: qs2)) !!! length qs1 = ints q.
Proof. apply list_lookup_total_correct. rewrite list_lookup_fmap, lookup_app_r, Nat.sub_diag by lia. done. Qed.
Lemma set_pipe qs1 q qs2 q' : <[length qs1 := ints q']> (ints <$> (qs1 ++ q :: qs2)) = ints <$> (qs1 ++ q' :: qs2).
Proof. by rewrite <- list_fmap_insert, middle_insert. Qed.
Lemma ints_app q q' : ints (q ++ q') = ints q ++ ints q'.
Proof. unfold ints. by rewrite fmap_app, concat_app. Qed.
Lemma sent_pipe qs1 q qs2 n :
  <[length qs1 := ints q ++ bytes_of 4 n]> (ints <$> (qs1 ++ q :: qs2)) = ints <$> (qs1 ++ (q ++ [n]) :: qs2).
Proof.
  rewrite <- (set_pipe qs1 q qs2 (q ++ [n])), ints_app. do 3 f_equal.
Qed.
Lemma ints_length q : length (ints q) = (4 * length q)%nat.
Proof. induction q as [|n q IH]; [done|]. change (ints (n :: q)) with (bytes_of 4 n ++ ints q). rewrite length_app, IH. cbn. lia. Qed.

(** ** Descriptors *)

Definition holds_right (pt : point) : bool :=
  match pt with
  | M_fork | M_close | M_write _ | M_close2 | Forking _ _ | Closing _ _ | Writing _ _ | Reading _ _ true | Close1 true | Close2 => true
  | _ => false
  end.
Lemma pad_elem d l : d <> Console -> Some d ∈ pad l <-> Some d ∈ l.
Proof.
  intros Hd. unfold pad. rewrite !elem_of_app, !elem_of_cons, elem_of_nil, elem_of_replicate. naive_solver.
Qed.
Lemma reads_elem k d : Some d ∈ reads k <-> exists p, d = Rd p /\ (p < k)%nat.
Proof.
  unfold reads. rewrite list_elem_of_fmap. setoid_rewrite elem_of_seq. split.
  - intros (p & [= ->] & Hp). exists p. split; [done|lia].
  - intros (p & -> & Hp). exists p. split; [done|lia].
Qed.
Lemma holds_wr j pt p : Some (Wr p) ∈ fds j pt <-> (holds_right pt = true /\ p = j) \/ (pt = Start /\ p = (j - 1)%nat).
Proof.
  destruct pt as [| | | | | | |? ? []| | | | |[]| | | | |]; cbn [fds holds_right]; rewrite pad_elem by done;
    rewrite ?elem_of_app, ?elem_of_cons, ?elem_of_nil, reads_elem; naive_solver.
Qed.
Lemma has_wr j pt p : has_desc (Wr p) (proc j pt) = true ->
  (holds_right pt = true /\ p = j) \/ (pt = Start /\ p = (j - 1)%nat).
Proof. destruct pt; try done; intros H%bool_decide_eq_true; by apply holds_wr. Qed.

Lemma open_exists d st qs out : open_somewhere d (conc st qs out) = true <->
  exists j pt, st !! j = Some pt /\ has_desc d (proc j pt) = true.
Proof.
  unfold open_somewhere. rewrite existsb_exists. cbn [conc po_procs]. split.
  - intros (x & [j Hj]%list_elem_of_In%list_elem_of_lookup & Hx). rewrite list_lookup_imap in Hj.
    apply fmap_Some in Hj as (pt & Hpt & ->). by exists j, pt.
  - intros (j & pt & Hj & Hx). exists (proc j pt). split; [|done]. apply list_elem_of_In, (list_elem_of_lookup_2 _ j).
    by rewrite list_lookup_imap, Hj.
Qed.

(** Process [k] reads: the write end is open as long as its left neighbour may send. *)
Lemma writer_open pre p0 pt post qs out : last pre = Some p0 -> has_right p0 = true -> pt <> Start ->
  open_somewhere (Wr (length pre - 1)) (conc (pre ++ pt :: post) qs out) = bool_decide (link_of p0 = Sends).
Proof.
  intros Hl Hr Hpt. rewrite last_lookup in Hl. pose proof (lookup_lt_Some _ _ _ Hl) as Hlt.
  replace (Init.Nat.pred (length pre)) with (length pre - 1)%nat in * by lia.
  apply eq_iff_eq_true. rewrite open_exists, bool_decide_eq_true. split.
  - intros (j & pj & Hj & [[H1 H2]|[H1 H2]]%has_wr).
    + rewrite <- H2 in Hj. rewrite lookup_app_l, Hl in Hj by lia. injection Hj as ->.
      destruct pj as [| | | | | | |? ? []| | | | |[]| | | | |]; done.
    + subst pj. assert (Hcase : j = length pre \/ j = 0%nat) by lia. destruct Hcase as [->|Hz].
      * rewrite lookup_app_r, Nat.sub_diag in Hj by lia. cbn in Hj. congruence.
      * rewrite Hz in *. replace (length pre - 1)%nat with 0%nat in Hl by lia. rewrite lookup_app_l, Hl in Hj by lia. by injection Hj as ->.
  - intros Hs. exists (length pre - 1)%nat, p0. split; [by rewrite lookup_app_l by lia|].
    destruct p0 as [| | | | | | |? ? []| | | | |[]| | | | |]; try done; cbn [has_desc proc]; apply bool_decide_eq_true, holds_wr; by left.
Qed.

(** Process [k] writes: as long as the right neighbour reads, the pipe has a reader. *)
Definition listens (pt : point) : bool :=
  match pt with Start | Print _ | Reading _ _ _ | MakePipe _ _ | Forking _ _ | Closing _ _ | Writing _ _ => true | _ => false end.
Lemma reader_open pre pt p1 post qs out : listens p1 = true ->
  open_somewhere (Rd (length pre)) (conc (pre ++ pt :: p1 :: post) qs out) = true.
Proof.
  intros Hl. apply open_exists. exists (S (length pre)), p1. split.
  - rewrite lookup_app_r by lia. by replace (S (length pre) - length pre)%nat with 1%nat by lia.
  - destruct p1 as [| | | | | | |? ? []| | | | |[]| | | | |]; try done; cbn [has_desc proc fds]; apply bool_decide_eq_true;
      rewrite pad_elem by done; rewrite ?elem_of_app, reads_elem; first [left; eexists; split; [done|lia] | eexists; split; [done|lia]].
Qed.

(** ** Children *)

Lemma child_is i j pt : is_child i (proc j pt) = true -> j = S i /\ is_gone pt = false.
Proof.
  destruct pt; cbn [proc is_child is_gone]; try done; destruct j as [|j]; cbn [par]; try done;
    rewrite bool_decide_eq_true; intros ->; done.
Qed.
Lemma no_children i st : (forall pt, st !! S i = Some pt -> is_gone pt = true) -> orphan i <$> imap proc st = imap proc st.
Proof.
  intros H. rewrite <- (list_fmap_id (imap proc st)) at 2. apply list_fmap_ext. intros j x Hj. rewrite list_lookup_imap in Hj.
  apply fmap_Some in Hj as (pt & Hpt & ->). unfold orphan. destruct (is_child i (proc j pt)) eqn:E; [|done].
  apply child_is in E as [-> E]. by rewrite (H pt Hpt) in E.
Qed.
Lemma zombie_found i st hr : st !! S i = Some (Dead hr) -> zombie_child i (imap proc st) = Some (S i).
Proof.
  intros H. unfold zombie_child.
  rewrite (proj2 (list_find_Some _ _ (S i) (proc (S i) (Dead hr)))); [done|]. split_and!.
  - by rewrite list_lookup_imap, H.
  - cbn. by rewrite bool_decide_true.
  - intros j x Hj Hlt. rewrite list_lookup_imap in Hj. apply fmap_Some in Hj as (pt & Hpt & ->).
    intros [E _]%andb_prop. apply child_is in E as [-> _]. lia.
Qed.
Lemma zombie_none i st pt : st !! S i = Some pt -> is_dead pt = false -> zombie_child i (imap proc st) = None.
Proof.
  intros H Hd. unfold zombie_child. rewrite (proj2 (list_find_None _ _)); [done|]. apply Forall_forall.
  intros x [j Hj]%list_elem_of_lookup. rewrite list_lookup_imap in Hj. apply fmap_Some in Hj as (pj & Hpj & ->).
  intros [E1 E2]%andb_prop. apply child_is in E1 as [-> _]. rewrite H in Hpj. injection Hpj as <-.
  by destruct pt.
Qed.
Lemma child_there i st pt : st !! S i = Some pt -> is_gone pt = false -> existsb (is_child i) (imap proc st) = true.
Proof.
  intros H Hg. apply existsb_exists. exists (proc (S i) pt). split.
  - apply list_elem_of_In, (list_elem_of_lookup_2 _ (S i)). by rewrite list_lookup_imap, H.
  - destruct pt; cbn [proc is_child par]; (done || by apply bool_decide_eq_true).
Qed.

(** ** One system call *)

Section Calls.
Context (pre : list point) (qs : list (list Z)) (out : list Z).
Abbreviation k := (length pre).
Abbreviation at_ pt post := (conc (pre ++ pt :: post) qs out).

Definition live (pt : point) : bool := negb (is_dead pt || is_gone pt).
Lemma proc_live j pt : live pt = true -> proc j pt = Live (par j) (code j pt) (fds j pt).
Proof. by destruct pt. Qed.
Lemma pstep_call pt post : live pt = true -> pstep k (at_ pt post) = call (at_ pt post) k (par k) (fds k pt) (code k pt).
Proof. intros Hl. unfold pstep. cbn [po_procs conc]. by rewrite the_point, proc_live. Qed.
(** The process goes on at [pt']. *)
Lemma moved_to pt post pt' c f qs' out' : live pt' = true -> c = code k pt' -> f = fds k pt' ->
  Pool (go_on (at_ pt post) k (par k) c f) (ints <$> qs') out' = conc (pre ++ pt' :: post) qs' out'.
Proof. intros Hl -> ->. unfold go_on. cbn [po_procs conc]. by rewrite <- proc_live, set_point. Qed.

Lemma step_start post : (1 <= k <= 11)%nat ->
  pstep k (at_ Start post) = Some (conc (pre ++ Print (line (pr k)) :: post) qs out).
Proof.
  intros Hk. rewrite pstep_call by done. cbn [code]. cbn [call sys mbind U_bind ubind].
  assert (Hd : get_desc (fds k Start) (lhs k).2 = Some (Wr (k - 1))) by (revert Hk; generalize k; intros j Hj; each j).
  rewrite Hd. f_equal. apply moved_to; [done|by apply prints_line|]. revert Hk; generalize k; intros j Hj; each j.
Qed.
Definition printing (t : list Z) : point := match t with [] => Reading fuel0 None false | _ => Print t end.
Lemma step_print c t post : (1 <= k <= 11)%nat ->
  pstep k (at_ (Print (c :: t)) post) = Some (conc (pre ++ printing t :: post) qs (out ++ [c])).
Proof.
  intros Hk. rewrite pstep_call by done. cbn [code writes call].
  assert (Hd : get_desc (fds k (Print (c :: t))) 1 = Some Console) by done.
  rewrite Hd. f_equal. apply moved_to; by destruct t.
Qed.
Lemma step_closing f n post : (1 <= k <= 11)%nat ->
  pstep k (at_ (Closing f n) post) = Some (conc (pre ++ Writing f n :: post) qs out).
Proof.
  intros Hk. rewrite pstep_call by done. cbn [code after sys mbind U_bind ubind call].
  assert (Hd : get_desc (fds k (Closing f n)) (rhs k).1 = Some (Rd k)) by (revert Hk; generalize k; intros j Hj; each j).
  rewrite Hd. f_equal. apply moved_to; [done..|]. revert Hk; generalize k; intros j Hj; each j.
Qed.
Lemma step_close1 hr post : (1 <= k <= 11)%nat ->
  pstep k (at_ (Close1 hr) post) = Some (conc (pre ++ (if hr then Close2 else Exiting false) :: post) qs out).
Proof.
  intros Hk. rewrite pstep_call by done. cbn [code finish sys mbind U_bind ubind call].
  assert (Hd : get_desc (fds k (Close1 hr)) (lhs k).1 = Some (Rd (k - 1)))
    by (revert Hk; generalize k; intros j Hj; destruct hr; each j).
  rewrite Hd. f_equal. destruct hr; (apply moved_to; [done..|]); revert Hk; generalize k; intros j Hj; each j.
Qed.
Lemma step_close2 post : (1 <= k <= 11)%nat -> pstep k (at_ Close2 post) = Some (conc (pre ++ Waiting :: post) qs out).
Proof.
  intros Hk. rewrite pstep_call by done. cbn [code sys mbind U_bind ubind call].
  assert (Hd : get_desc (fds k Close2) (rhs k).2 = Some (Wr k)) by (revert Hk; generalize k; intros j Hj; each j).
  rewrite Hd. f_equal. apply moved_to; [done..|]. revert Hk; generalize k; intros j Hj; each j.
Qed.
Lemma step_exit hr post : (forall pt, head post = Some pt -> is_gone pt = true) ->
  pstep k (at_ (Exiting hr) post) = Some (conc (pre ++ Dead hr :: post) qs out).
Proof.
  intros Hp. rewrite pstep_call by done. cbn [code call po_procs conc]. f_equal. unfold conc. f_equal.
  rewrite no_children; [apply (set_point pre (Exiting hr) post (Dead hr))|].
  intros pt. rewrite lookup_app_r by lia. replace (S k - k)%nat with 1%nat by lia. cbn. destruct post; [done|apply Hp].
Qed.
Lemma step_wait hr post : pstep k (at_ Waiting (Dead hr :: post)) = Some (conc (pre ++ Exiting true :: Gone hr :: post) qs out).
Proof.
  rewrite pstep_call by done. cbn [code sys mbind U_bind ubind call po_procs conc].
  rewrite (zombie_found k _ hr). 2:{ rewrite lookup_app_r by lia. by replace (S k - k)%nat with 1%nat by lia. }
  f_equal. unfold conc. f_equal. unfold go_on. cbn [po_procs].
  change (Live (par k) (Exit 0) (fds k Waiting)) with (proc k (Exiting true)). rewrite set_point.
  change Reaped with (proc (S k) (Gone hr)). rewrite <- insert_imap. f_equal. rewrite insert_app_r_alt by lia.
  by replace (S k - k)%nat with 1%nat by lia.
Qed.
Lemma step_wait_blocked pt post : is_dead pt = false -> is_gone pt = false -> pstep k (at_ Waiting (pt :: post)) = None.
Proof.
  intros H1 H2. rewrite pstep_call by done. cbn [code sys mbind U_bind ubind call po_procs conc].
  assert (Hl : (pre ++ Waiting :: pt :: post) !! S k = Some pt).
  { rewrite lookup_app_r by lia. by replace (S k - k)%nat with 1%nat by lia. }
  by rewrite (zombie_none _ _ pt), (child_there _ _ pt).
Qed.
End Calls.

Section Pipes.
Context (pre : list point) (out : list Z).
Abbreviation k := (length pre).

Definition read_point (f : nat) (n : Z) (hr : bool) : point :=
  if Z.rem n (pr k) =? 0 then Reading f (Some n) hr else if hr then Writing f n else MakePipe f n.

Lemma reading_desc f num hr : (1 <= k <= 11)%nat -> get_desc (fds k (Reading f num hr)) (lhs k).1 = Some (Rd (k - 1)).
Proof. generalize k. intros j Hj. destruct hr; each j. Qed.
Lemma step_read f num hr post qs1 n q qs2 : (1 <= k <= 11)%nat -> S (length qs1) = k -> 3 <= n < 36 ->
  pstep k (conc (pre ++ Reading (S f) num hr :: post) (qs1 ++ (n :: q) :: qs2) out) =
  Some (conc (pre ++ read_point f n hr :: post) (qs1 ++ q :: qs2) out).
Proof.
  intros Hk Hq Hn. rewrite pstep_call by done. rewrite code_reading. cbn [call]. rewrite reading_desc by done.
  replace (k - 1)%nat with (length qs1) by lia. cbn [po_pipes conc]. rewrite the_pipe.
  change (ints (n :: q)) with (bytes_of 4 n ++ ints q). destruct (bytes_of_4 n) as (a & b & c & d & E). rewrite E. cbn [app].
  rewrite bool_decide_false by done. change (Z.to_nat 4) with 4%nat.
  change (take 4 (a :: b :: c :: d :: ints q)) with [a; b; c; d]. change (drop 4 (a :: b :: c :: d :: ints q)) with (drop 0 (ints q)).
  rewrite drop_0, <- E, got_number, set_pipe by done. f_equal. unfold read_point. cbn [po_out].
  destruct (Z.rem n (pr k) =? 0); [by apply moved_to; destruct hr|]. destruct hr; by apply moved_to.
Qed.
Lemma step_read_empty p0 f num hr post qs1 qs2 : (1 <= k <= 11)%nat -> S (length qs1) = k -> last pre = Some p0 -> has_right p0 = true ->
  pstep k (conc (pre ++ Reading (S f) num hr :: post) (qs1 ++ [] :: qs2) out) =
  if decide (link_of p0 = Sends) then None else Some (conc (pre ++ Close1 hr :: post) (qs1 ++ [] :: qs2) out).
Proof.
  intros Hk Hq Hl Hr. rewrite pstep_call by done. rewrite code_reading. cbn [call]. rewrite reading_desc by done.
  assert (Hp : (ints <$> (qs1 ++ [] :: qs2)) !!! (k - 1)%nat = []).
  { replace (k - 1)%nat with (length qs1) by lia. apply the_pipe. }
  cbn [po_pipes conc]. rewrite Hp, bool_decide_true by done. cbv zeta.
  rewrite (writer_open pre p0) by done. case_decide as E; [by rewrite bool_decide_true|]. rewrite bool_decide_false by done.
  f_equal. apply moved_to; [done|apply got_end|by destruct hr].
Qed.

Lemma step_pipe f n post qs : (1 <= k <= 10)%nat -> length qs = k ->
  pstep k (conc (pre ++ MakePipe f n :: post) qs out) = Some (conc (pre ++ Forking f n :: post) (qs ++ [[]]) out).
Proof.
  intros Hk Hq. rewrite pstep_call by done. rewrite code_pipe. cbn [call po_pipes conc]. rewrite length_fmap, Hq.
  assert (Hd : lowest (fds k (MakePipe f n)) = Some (3 + k)%nat /\
    lowest (<[(3 + k)%nat := Some (Rd k)]> (fds k (MakePipe f n))) = Some (4 + k)%nat /\
    <[(4 + k)%nat := Some (Wr k)]> (<[(3 + k)%nat := Some (Rd k)]> (fds k (MakePipe f n))) = fds k (Forking f n)).
  { revert Hk. clear Hq. generalize k. intros j Hj. split_and!; each j. }
  destruct Hd as (H1 & H2 & H3). rewrite H1. cbv zeta. rewrite H2, H3. f_equal.
  replace ((ints <$> qs) ++ [[]]) with (ints <$> (qs ++ [[]])) by (by rewrite fmap_app). apply moved_to; [done|apply made_some|done].
Qed.

(** fork: the child starts at the end of the list. *)
Lemma step_fork f n qs : (1 <= k <= 10)%nat -> n = pr (S k) ->
  pstep k (conc (pre ++ [Forking f n]) qs out) = Some (conc (pre ++ [Closing f n; Start]) qs out).
Proof.
  intros Hk Hn. rewrite pstep_call by done. rewrite code_fork by lia. cbn [call po_procs po_pipes po_out conc].
  rewrite forked_parent, forked_child by done. f_equal. unfold conc. f_equal.
  change (pre ++ [Closing f n; Start]) with (pre ++ [Closing f n] ++ [Start]). rewrite (app_assoc pre), (imap_app _ (pre ++ [Closing f n])).
  f_equal.
  - apply (f_equal po_procs (moved_to pre qs out (Forking f n) [] (Closing f n) _ _ qs out eq_refl eq_refl eq_refl)).
  - cbn [imap]. rewrite length_app. cbn [length]. rewrite Nat.add_0_r, Nat.add_1_r. cbn [proc par]. do 2 f_equal.
    revert Hk. clear Hn. generalize k. intros j Hj. each j.
Qed.

Lemma step_write f n post p1 qs1 q qs2 : (1 <= k <= 11)%nat -> length qs1 = k -> head post = Some p1 -> listens p1 = true ->
  (length q <= 100)%nat ->
  pstep k (conc (pre ++ Writing f n :: post) (qs1 ++ q :: qs2) out) =
  Some (conc (pre ++ Reading f (Some n) true :: post) (qs1 ++ (q ++ [n]) :: qs2) out).
Proof.
  intros Hk Hq Hh Hl Hlen. destruct post as [|p1' post]; [done|]. injection Hh as ->.
  rewrite pstep_call by done. cbn [code after send sys mbind U_bind ubind call].
  assert (Hd : get_desc (fds k (Writing f n)) (rhs k).2 = Some (Wr k)) by (revert Hk; generalize k; intros j Hj; each j).
  rewrite Hd, reader_open by done. cbn [negb]. cbv zeta. cbn [po_pipes conc].
  assert (Hp : (ints <$> (qs1 ++ q :: qs2)) !!! k = ints q) by (rewrite <- Hq; apply the_pipe).
  rewrite Hp, (proj2 (Nat.leb_le _ _)) by (rewrite ints_length; change (Z.to_nat State.PIPESIZE) with 512%nat; cbn; lia).
  pose proof (sent_pipe qs1 q qs2 n) as Hs. rewrite Hq in Hs. rewrite Hs. f_equal. by apply moved_to.
Qed.
End Pipes.

(** The calls of main. *)
Section Main.
Context (out : list Z).

Lemma step_M_pipe : pstep 0 (conc [M_pipe] [] out) = Some (conc [M_fork] [[]] out).
Proof. reflexivity. Qed.
Definition main_forked (ret : Z) : U () :=
  (if ret <? 0 then printf (nl "can`t fork now") [] ;; Exit 0 else if 0 <? ret then Ret () else child 0 2) ;;
  sys (Close (rhs 0).1) ;; main_tail (seqZ 3 33).
Lemma code_M_fork : code 0 M_fork = Fork main_forked.
Proof. cbn [code]. by rewrite create_fork by lia. Qed.
Lemma step_M_fork qs : pstep 0 (conc [M_fork] qs out) = Some (conc [M_close; Start] qs out).
Proof.
  unfold pstep. cbn [conc po_procs imap lookup list_lookup proc]. change (par 0) with (@None nat). rewrite code_M_fork.
  cbn [call po_procs po_pipes po_out]. unfold conc. cbn [imap]. f_equal. f_equal. unfold go_on. cbn [po_procs].
  change (main_forked 0) with (ubind (child 0 2) (fun _ => sys (Close (rhs 0).1) ;; main_tail (seqZ 3 33))).
  rewrite (bind_exits _ _ (child_exits 0 2)). reflexivity.
Qed.
Lemma step_M_close post qs : pstep 0 (conc (M_close :: post) qs out) = Some (conc (M_write (seqZ 3 33) :: post) qs out).
Proof. reflexivity. Qed.
Lemma step_M_close2 post qs : pstep 0 (conc (M_close2 :: post) qs out) = Some (conc (Waiting :: post) qs out).
Proof. reflexivity. Qed.
Definition writing (l : list Z) : point := match l with [] => M_close2 | _ => M_write l end.
Lemma step_M_write n l p1 post q qs : listens p1 = true -> (length q <= 100)%nat ->
  pstep 0 (conc (M_write (n :: l) :: p1 :: post) (q :: qs) out) = Some (conc (writing l :: p1 :: post) ((q ++ [n]) :: qs) out).
Proof.
  intros Hl Hlen. etransitivity; [exact (pstep_call [] (q :: qs) out (M_write (n :: l)) (p1 :: post) eq_refl)|]. cbn [app length].
  cbn [code main_tail ufor sys mbind U_bind ubind call].
  change (get_desc (fds 0 (M_write (n :: l))) (rhs 0).2) with (Some (Wr 0)). cbv iota.
  pose proof (reader_open [] (M_write (n :: l)) p1 post (q :: qs) out Hl) as Ho. cbn [app length] in Ho. rewrite Ho. cbn [negb]. cbv zeta. cbn [po_pipes conc].
  change ((ints <$> (q :: qs)) !!! 0%nat) with (ints q).
  rewrite (proj2 (Nat.leb_le _ _)) by (rewrite ints_length; change (Z.to_nat State.PIPESIZE) with 512%nat; cbn; lia).
  pose proof (sent_pipe [] q qs n) as Hs. cbn [app length] in Hs. rewrite Hs. f_equal. apply (moved_to [] (q :: qs) out (M_write (n :: l)) (p1 :: post)); by destruct l.
Qed.
End Main.

(** ** A step of the system *)

(** How far a process has come: it only goes up. *)
Definition rank (pt : point) : nat :=
  match pt with
  | M_pipe | Start => 0
  | M_fork => 1
  | M_close => 2
  | M_write l => 3 + (33 - length l)
  | M_close2 => 50
  | Print t => 1 + (9 - length t)
  | Reading f _ _ => 11 + 10 * (36 - f)
  | MakePipe f _ => 12 + 10 * (35 - f)
  | Forking f _ => 13 + 10 * (35 - f)
  | Closing f _ => 14 + 10 * (35 - f)
  | Writing f _ => 15 + 10 * (35 - f)
  | Close1 _ => 372 | Close2 => 373 | Waiting => 374 | Exiting _ => 375 | Dead _ => 376 | Gone _ => 377
  end.
Definition total (st : list point) : nat := foldr (fun pt a => S (rank pt) + a)%nat 0%nat st.
Lemma ranks_app l1 l2 : total (l1 ++ l2) = (total l1 + total l2)%nat.
Proof. induction l1 as [|pt l1 IH]; [done|]. cbn [app total foldr]. fold (total (l1 ++ l2)) (total l1). lia. Qed.
Lemma rank_max pt : (rank pt <= 377)%nat.
Proof. destruct pt; cbn; lia. Qed.

Lemma chain_first k prev q Y pt post qs T : chain k prev q Y (pt :: post) qs T -> stage_ok k prev (q ++ Y) pt.
Proof. by intros [H _]. Qed.
Lemma stage_chain_next k prev q Y pt p1 post q' qs T : stage_ok k prev (q ++ Y) pt -> has_right pt = true ->
  chain (S k) (link_of pt) q' (pend pt ++ filter (ndiv (pr k)) (q ++ Y)) (p1 :: post) qs T ->
  chain k prev q Y (pt :: p1 :: post) (q' :: qs) T.
Proof. done. Qed.
Lemma chain_shift k prev q Y n st qs T : chain k prev q (n :: Y) st qs T -> chain k prev (q ++ [n]) Y st qs T.
Proof. destruct st as [|pt st]; [done|]. cbn [chain]. by rewrite <- app_assoc. Qed.
Lemma chain_close k q Y st qs T : chain k Sends q Y st qs T -> chain k Closed q Y st qs T.
Proof.
  destruct st as [|pt st]; [done|]. cbn [chain]. intros [[S1 S2 S3 S4] H]. split; [|done]. split; [done..| |].
  - destruct pt; cbn in *; intuition.
  - rewrite <- S4. done.
Qed.
Lemma chain_listens k q Y st qs T : chain k Sends q Y st qs T ->
  exists p1 st', st = p1 :: st' /\ listens p1 = true /\ (length q <= 100)%nat.
Proof.
  destruct st as [|p1 st]; [done|]. intros [_ _ S3 _]%chain_first. exists p1, st. split; [done|].
  unfold fuel0 in S3. destruct p1; cbn in *; unfold fuel0 in *; rewrite ?length_app in S3; (tauto || (split; [done|lia])).
Qed.
(** The process moves and the others do not notice. *)
Lemma chain_local k prev q Y pt post qs T q' pt' : chain k prev q Y (pt :: post) qs T ->
  stage_ok k prev (q' ++ Y) pt' -> has_right pt' = has_right pt -> post = [] \/ link_of pt' = link_of pt ->
  pend pt' ++ filter (ndiv (pr k)) (q' ++ Y) = pend pt ++ filter (ndiv (pr k)) (q ++ Y) ->
  new_pipe pt' = new_pipe pt -> unprinted k pt' = unprinted k pt -> chain k prev q' Y (pt' :: post) qs T.
Proof.
  intros [_ H] Hs Hr Hl Hp Hn Hu. cbn [chain]. split; [done|]. rewrite Hp, Hn, Hu, Hr. destruct post as [|p1 post]; [done|].
  destruct Hl as [|Hl]; [done|]. by rewrite Hl.
Qed.
Lemma filter_head p n l : filter (ndiv p) (n :: l) = (if Z.rem n p =? 0 then [] else [n]) ++ filter (ndiv p) l.
Proof.
  rewrite filter_cons. unfold ndiv. destruct (Z.eqb_spec (Z.rem n p) 0); [by rewrite decide_False by tauto|by rewrite decide_True].
Qed.

Definition stuck (prev : link) (q : list Z) (pt : point) (post : list point) : Prop :=
  (prev = Sends /\ q = [] /\ listens pt = true) \/
  (pt = Waiting /\ forall p1, head post = Some p1 -> is_dead p1 = false) \/ live pt = false.

(** The process can go on, and the invariant is kept. *)
Definition goes (s : pool) (pre : list point) (qs1 : list (list Z)) (out : list Z) (prev : link) (Y T : list Z)
    (pt : point) (post : list point) : Prop :=
  exists pt' post' q' qs' T' out',
    pstep (length pre) s = Some (conc (pre ++ pt' :: post') (qs1 ++ q' :: qs') out') /\
    chain (length pre) prev q' Y (pt' :: post') qs' T' /\ out' ++ T' = out ++ T /\
    (total (pt :: post) < total (pt' :: post'))%nat.

Section Stage.
Context (pre : list point) (p0 : point) (qs1 : list (list Z)) (out Y T : list Z).
Context (Hlast : last pre = Some p0) (Hright : has_right p0 = true) (Hqs : S (length qs1) = length pre).
Context (HY : link_of p0 <> Sends -> Y = []).
Abbreviation k := (length pre).
Abbreviation prev := (link_of p0).

Lemma goes_reading f num hr post q qs2 : chain k prev q Y (Reading f num hr :: post) qs2 T ->
  let s := conc (pre ++ Reading f num hr :: post) (qs1 ++ q :: qs2) out in
  (stuck prev q (Reading f num hr) post /\ pstep k s = None) \/ goes s pre qs1 out prev Y T (Reading f num hr) post.
Proof.
  intros C s. pose proof (chain_first _ _ _ _ _ _ _ _ C) as [S1 S2 S3 S4]. cbn [at_point pend app is_gone] in *. unfold fuel0 in S3.
  destruct f as [|f]; [lia|]. destruct q as [|n q].
  - pose proof (step_read_empty pre out p0 f num hr post qs1 qs2 S1 Hqs Hlast Hright) as E. fold s in E. case_decide as D.
    + left. split; [by left|done].
    + right. specialize (HY D). exists (Close1 hr), post, [], qs2, T, out. split; [done|]. split; [|split; [done|cbn [total foldr rank]; lia]].
      eapply chain_local; [exact C| |done|by right|done..]. rewrite HY. split; [done|constructor|done|done].
  - right. apply Forall_cons in S2 as [Hn S2]. cbn [app length] in S3.
    exists (read_point pre f n hr), post, q, qs2, T, out. split; [by apply step_read|].
    split; [|split; [done|unfold read_point; destruct (Z.rem n (pr k) =? 0), hr; cbn; lia]].
    eapply chain_local; [exact C|..]; unfold read_point; cbn [app]; rewrite ?filter_head; destruct (Z.rem n (pr k) =? 0), hr;
      try done; try (by right); split; cbn [at_point pend app is_gone]; try done; try (by constructor); unfold fuel0; lia.
Qed.

Lemma goes_local pt pt' post q qs2 : chain k prev q Y (pt :: post) qs2 T ->
  pstep k (conc (pre ++ pt :: post) (qs1 ++ q :: qs2) out) = Some (conc (pre ++ pt' :: post) (qs1 ++ q :: qs2) out) ->
  at_point prev (q ++ Y) pt' -> is_gone pt' = is_gone pt -> has_right pt' = has_right pt -> (post = [] \/ link_of pt' = link_of pt) ->
  pend pt' = pend pt -> new_pipe pt' = new_pipe pt -> unprinted k pt' = unprinted k pt -> (rank pt < rank pt')%nat ->
  goes (conc (pre ++ pt :: post) (qs1 ++ q :: qs2) out) pre qs1 out prev Y T pt post.
Proof.
  intros C E Ha Hg Hr Hl Hp Hn Hu Hk. pose proof (chain_first _ _ _ _ _ _ _ _ C) as [S1 S2 S3 S4].
  exists pt', post, q, qs2, T, out. split; [done|]. split; [|split; [done|]].
  - eapply chain_local; [exact C|..]; try done; [|by rewrite Hp]. split; [done|by rewrite Hp|done|by rewrite Hg].
  - cbn [total foldr]. lia.
Qed.

Lemma goes_print t post q qs2 : chain k prev q Y (Print t :: post) qs2 T ->
  goes (conc (pre ++ Print t :: post) (qs1 ++ q :: qs2) out) pre qs1 out prev Y T (Print t) post.
Proof.
  intros [[S1 S2 S3 S4] H]. cbn [at_point pend app is_gone has_right unprinted new_pipe] in *. destruct S3 as [Ht S3].
  destruct t as [|c t]; [cbn in Ht; lia|]. destruct post as [|p1 post]; [|by destruct H]. destruct H as (_ & -> & H2 & H3).
  exists (printing t), [], q, [], (t ++ concat (line <$> drop k ps)), (out ++ [c]). split; [by apply step_print|]. split; [|split].
  - cbn [chain]. unfold printing. destruct t as [|c' t].
    + split; [|done]. split; [done..|cbn; unfold fuel0 in *; lia|done].
    + split; [|done]. split; [done..|cbn in *; unfold fuel0 in *; lia|done].
  - rewrite H3. by rewrite <- !app_assoc.
  - cbn [length] in Ht. unfold printing. destruct t; cbn [total foldr rank length] in *; unfold fuel0; lia.
Qed.
Lemma goes_pipe f n post q qs2 : chain k prev q Y (MakePipe f n :: post) qs2 T ->
  goes (conc (pre ++ MakePipe f n :: post) (qs1 ++ q :: qs2) out) pre qs1 out prev Y T (MakePipe f n) post.
Proof.
  intros [[S1 S2 S3 S4] H]. cbn [at_point pend app is_gone has_right unprinted new_pipe] in *.
  destruct post as [|p1 post]; [|by destruct H]. destruct H as (_ & -> & H2 & H3).
  destruct (pr_next k n _ S1 (eq_sym H2)) as [Hk _].
  exists (Forking f n), [], q, [[]], T, out. split; [|split; [|split; [done|cbn [total foldr rank]; lia]]].
  - rewrite (step_pipe pre out f n [] (qs1 ++ [q])) by (rewrite ?length_app; cbn; lia). by rewrite <- app_assoc.
  - cbn [chain]. split; [|done]. split; done.
Qed.
Lemma goes_fork f n post q qs2 : chain k prev q Y (Forking f n :: post) qs2 T ->
  goes (conc (pre ++ Forking f n :: post) (qs1 ++ q :: qs2) out) pre qs1 out prev Y T (Forking f n) post.
Proof.
  intros [[S1 S2 S3 S4] H]. cbn [at_point pend app is_gone has_right unprinted new_pipe] in *.
  destruct post as [|p1 post]; [|by destruct H]. destruct H as (_ & -> & H2 & H3).
  destruct (pr_next k n _ S1 (eq_sym H2)) as [Hk Hn].
  exists (Closing f n), [Start], q, [[]], T, out. split; [by apply step_fork; [lia|]|]. split; [|split; [done|cbn [total foldr rank]; lia]].
  cbn [chain]. split; [by split|]. cbn [has_right pend app link_of]. rewrite H2. split; [done|]. split.
  - split; cbn [pend app is_gone at_point]; [lia| | |done].
    + rewrite <- H2. inversion S2; subst. constructor; [done|]. apply Forall_forall. intros x Hx%list_elem_of_filter. 
      rewrite Forall_forall in H4. apply H4. tauto.
    + rewrite <- H2. cbn [length]. pose proof (length_filter (ndiv (pr k)) (q ++ Y)). unfold fuel0 in *. lia.
  - cbn [has_right new_pipe unprinted app]. split; [done|]. split; [done|]. split; [done|]. by rewrite H3, drop_ps by done.
Qed.

Lemma goes_write f n post q qs2 : chain k prev q Y (Writing f n :: post) qs2 T ->
  goes (conc (pre ++ Writing f n :: post) (qs1 ++ q :: qs2) out) pre qs1 out prev Y T (Writing f n) post.
Proof.
  intros [[S1 S2 S3 S4] H]. cbn [at_point pend app is_gone has_right link_of] in *.
  destruct post as [|p1 post]; [by destruct H|]. destruct H as [_ H]. destruct qs2 as [|q2 qs2]; [done|].
  destruct (chain_listens _ _ _ _ _ _ H) as (p1' & post' & [= <- <-] & Hl & Hlen).
  exists (Reading f (Some n) true), (p1 :: post), q, ((q2 ++ [n]) :: qs2), T, out. split; [|split; [|split; [done|]]].
  - change (qs1 ++ q :: q2 :: qs2) with (qs1 ++ [q] ++ q2 :: qs2). rewrite app_assoc.
    rewrite (step_write pre out f n (p1 :: post) p1 (qs1 ++ [q]) q2 qs2) by (rewrite ?length_app; cbn; done || lia).
    by rewrite <- app_assoc.
  - apply stage_chain_next; [|done|by apply chain_shift]. apply Forall_cons in S2 as [_ S2].
    split; [done|done|cbn; unfold fuel0 in *; lia|done].
  - cbn [total foldr rank]. unfold fuel0 in *. lia.
Qed.
Lemma goes_close2 post q qs2 : chain k prev q Y (Close2 :: post) qs2 T ->
  goes (conc (pre ++ Close2 :: post) (qs1 ++ q :: qs2) out) pre qs1 out prev Y T Close2 post.
Proof.
  intros [[S1 S2 S3 S4] H]. cbn [at_point pend app is_gone has_right link_of] in *.
  destruct post as [|p1 post]; [by destruct H|]. destruct H as [_ H]. destruct qs2 as [|q2 qs2]; [done|].
  exists Waiting, (p1 :: post), q, (q2 :: qs2), T, out. split; [by apply step_close2|]. split; [|split; [done|cbn [total foldr rank]; lia]].
  apply stage_chain_next; [done|done|by apply chain_close].
Qed.
Lemma goes_wait hr post q qs2 : chain k prev q Y (Waiting :: Dead hr :: post) qs2 T ->
  goes (conc (pre ++ Waiting :: Dead hr :: post) (qs1 ++ q :: qs2) out) pre qs1 out prev Y T Waiting (Dead hr :: post).
Proof.
  intros [[S1 S2 S3 S4] [_ H]]. cbn [at_point pend app is_gone link_of] in *. destruct qs2 as [|q2 qs2]; [done|].
  exists (Exiting true), (Gone hr :: post), q, (q2 :: qs2), T, out. split; [by apply step_wait|]. split; [|split; [done|cbn [total foldr rank]; lia]].
  apply stage_chain_next; [done|done|]. destruct H as [[R1 R2 R3 R4] H]. split; [|done]. split; [done|done| |done].
  by destruct R3.
Qed.

(** Process [k] can go on unless it has to wait or has ended. *)
Lemma stage_step pt post q qs2 : chain k prev q Y (pt :: post) qs2 T ->
  let s := conc (pre ++ pt :: post) (qs1 ++ q :: qs2) out in
  (stuck prev q pt post /\ pstep k s = None) \/ goes s pre qs1 out prev Y T pt post.
Proof.
  intros C s. pose proof (chain_first _ _ _ _ _ _ _ _ C) as [S1 S2 S3 S4]. destruct pt as [| | | | | |t|f num hr|f n|f n|f n|f n|hr| | |hr|hr|hr]; try done.
  - right. pose proof (line_length k S1). eapply goes_local; [exact C|by apply step_start|by split; [lia|]|done|done|by right|done|done|done|cbn; lia].
  - right. by apply goes_print.
  - by apply goes_reading.
  - right. by apply goes_pipe.
  - right. by apply goes_fork.
  - right. eapply goes_local; [exact C|by apply step_closing|done|done|done|by right|done|done|done|cbn; lia].
  - right. by apply goes_write.
  - right. assert (Hp : hr = false -> post = []) by (intros ->; destruct post; [done|by destruct C as (_ & ? & _)]).
    eapply goes_local; [exact C|by apply step_close1|..]; destruct hr; try done; try (by right); [by left; apply Hp|cbn; lia..].
  - right. by apply goes_close2.
  - destruct post as [|p1 post]; [by destruct C as (_ & ? & _)|]. destruct (is_dead p1) eqn:Ed.
    + right. destruct p1; try done. by apply goes_wait.
    + left. split; [right; left; split; [done|]; by intros ? [= <-]|]. apply step_wait_blocked; [done|].
      destruct C as [_ [_ C]]. destruct qs2; [done|]. apply chain_first in C as [_ _ _ G]. destruct (is_gone p1); [|done]. by destruct G as [_ G]; discriminate G.
  - right. eapply (goes_local _ (Dead hr)); [exact C| |done|done|done|by right|done|done|done|cbn; lia].
    apply step_exit. intros p1 Hp1. destruct post as [|p1' post]; [done|]. injection Hp1 as ->.
    destruct C as [_ [_ C]]. destruct qs2; [done|]. apply chain_first in C as [_ _ _ G]. by apply G.
  - left. split; [by right; right|]. unfold pstep. cbn [po_procs conc s]. by rewrite the_point.
  - left. split; [by right; right|]. unfold pstep. cbn [po_procs conc s]. by rewrite the_point.
Qed.
End Stage.

(** ** All processes *)

Lemma nothing_left k prev X pt : stage_ok k prev X pt -> link_of pt <> Sends -> pend pt ++ filter (ndiv (pr k)) X = [].
Proof. intros [_ _ S3 _] Hl. destruct pt; try done; destruct S3 as [-> _]; done. Qed.

(** Process [j] of a chain, with what its left neighbour promises, and how to put the
    chain together again. *)
Lemma chain_at k prev q Y st qs T j pt : chain k prev q Y st qs T -> st !! j = Some pt ->
  exists pre post qs1 q' qs2 prev' Y', st = pre ++ pt :: post /\ length pre = j /\ q :: qs = qs1 ++ q' :: qs2 /\ length qs1 = j /\
    chain (k + j) prev' q' Y' (pt :: post) qs2 T /\
    match last pre with
    | None => prev' = prev /\ Y' = Y
    | Some p => prev' = link_of p /\ has_right p = true /\ (link_of p <> Sends -> Y' = [])
    end /\
    (forall pt' post' q'' qs2' T', chain (k + j) prev' q'' Y' (pt' :: post') qs2' T' ->
       exists q0 qs0, q0 :: qs0 = qs1 ++ q'' :: qs2' /\ chain k prev q0 Y (pre ++ pt' :: post') qs0 T').
Proof.
  revert k prev q Y st qs. induction j as [|j IH]; intros k prev q Y st qs C Hj.
  - destruct st as [|p st]; [done|]. injection Hj as ->. exists [], st, [], q, qs, prev, Y. rewrite Nat.add_0_r.
    split_and!; try done. intros pt' post' q'' qs2' T' C'. by exists q'', qs2'.
  - destruct st as [|p st]; [done|]. cbn in Hj. destruct st as [|p1 st]; [done|]. pose proof C as [Hs [Hr C1]].
    destruct qs as [|q1 qs]; [done|]. destruct (IH _ _ _ _ _ _ C1 Hj) as (pre & post & qs1 & q' & qs2 & prev' & Y' & E1 & L1 & E2 & L2 & C2 & Hp & Hback).
    exists (p :: pre), post, (q :: qs1), q', qs2, prev', Y'. rewrite E1, E2. replace (k + S j)%nat with (S k + j)%nat by lia.
    split_and!; [done|by rewrite <- L1|done|by rewrite <- L2|done| |].
    + destruct (last pre) as [p2|] eqn:El.
      * by rewrite last_cons, El.
      * rewrite last_cons, El. destruct Hp as [-> ->]. split; [done|]. split; [done|]. by eapply nothing_left.
    + intros pt' post' q'' qs2' T' C'. destruct (Hback _ _ _ _ _ C') as (q0 & qs0 & E3 & C3). exists q, (q0 :: qs0). split; [by rewrite E3|].
      destruct pre as [|p2 pre]; (apply stage_chain_next; [done|done|exact C3]).
Qed.

Definition good (st : list point) (qs : list (list Z)) (out : list Z) : Prop := exists T, system st qs T /\ out ++ T = all_lines.

(** A process other than main. *)
Lemma other_step p st qs out j pt : good (p :: st) qs out -> st !! j = Some pt ->
  exists prev q post, (stuck prev q pt post /\ pstep (S j) (conc (p :: st) qs out) = None /\ (forall p1, head post = Some p1 <-> st !! S j = Some p1) /\
      (prev = Sends -> exists p', (p :: st) !! j = Some p' /\ link_of p' = Sends)) \/
    exists st' qs' out', pstep (S j) (conc (p :: st) qs out) = Some (conc (p :: st') qs' out') /\ good (p :: st') qs' out' /\
      (total (p :: st) < total (p :: st'))%nat.
Proof.
  intros (T & [Hm Hst] & HT) Hj. destruct st as [|p1 st]; [done|]. destruct Hst as [Hr C]. destruct qs as [|q qs]; [done|].
  destruct (chain_at _ _ _ _ _ _ _ _ _ C Hj) as (pre & post & qs1 & q' & qs2 & prev' & Y' & E1 & L1 & E2 & L2 & C2 & Hp & Hback).
  rewrite E1, E2 in *. 
  assert (Hl : exists p0, last (p :: pre) = Some p0 /\ prev' = link_of p0 /\ has_right p0 = true /\ (link_of p0 <> Sends -> Y' = [])).
  { rewrite last_cons. destruct (last pre) as [p2|]; [by exists p2|]. destruct Hp as [-> ->]. exists p. split_and!; try done.
    intros Hs. by destruct p. }
  destruct Hl as (p0 & Hl & -> & Hr0 & HY). rewrite <- L1 in C2, Hback |- *. exists (link_of p0), q', post.
  destruct (stage_step (p :: pre) p0 qs1 out Y' T Hl Hr0 ltac:(cbn; lia) HY pt post q' qs2 C2) as [[Hs E]|G].
  - left. split; [done|]. split; [exact E|]. split.
    + intros x. rewrite lookup_app_r by lia. replace (S (length pre) - length pre)%nat with 1%nat by lia. cbn. by destruct post.
    + intros Hsend. exists p0. split; [|done]. rewrite last_lookup in Hl. cbn [length Init.Nat.pred] in Hl.
      change (p :: pre ++ pt :: post) with ((p :: pre) ++ pt :: post). rewrite lookup_app_l by (cbn; lia). done.
  - right. destruct G as (pt' & post' & q'' & qs' & T' & out' & E & C' & HT' & Ht).
    destruct (Hback _ _ _ _ _ C') as (q0 & qs0 & E3 & C3).
    exists (pre ++ pt' :: post'), (qs1 ++ q'' :: qs'), out'. split; [exact E|]. split.
    + exists T'. split; [|congruence]. split; [done|]. rewrite <- E3. destruct pre as [|p2 pre]; done.
    + change (p :: pre ++ ?l) with ((p :: pre) ++ l). rewrite !ranks_app. lia.
Qed.

(** main. *)
Definition main_stuck (p : point) (st : list point) : Prop :=
  live p = false \/ (p = Waiting /\ forall p1, head st = Some p1 -> is_dead p1 = false).
Lemma main_step p st qs out : good (p :: st) qs out ->
  (main_stuck p st /\ pstep 0 (conc (p :: st) qs out) = None) \/
  exists st' qs' out', pstep 0 (conc (p :: st) qs out) = Some (conc st' qs' out') /\ good st' qs' out' /\ (total (p :: st) < total st')%nat.
Proof.
  intros (T & [Hm Hst] & HT). destruct p as [| | |l| | | | | | | | | | | |hr|hr|]; try done.
  - right. destruct st as [|p1 st]; [|discriminate (proj1 Hst)]. destruct Hst as (_ & -> & ->).
    exists [M_fork], [[]], out. split; [done|]. split; [|cbn; lia]. by exists all_lines.
  - right. destruct st as [|p1 st]; [|discriminate (proj1 Hst)]. destruct Hst as (_ & -> & ->).
    exists [M_close; Start], [[]], out. split; [apply step_M_fork|]. split; [|cbn; lia]. exists all_lines. split; [|done].
    split; [done|]. split; [done|]. split; [|done]. split; [lia| | |done].
    + apply Forall_forall. intros n Hn%elem_of_seqZ. lia.
    + cbn [at_point app pend]. rewrite length_seqZ. unfold fuel0. lia.
  - right. destruct st as [|p1 st]; [discriminate (proj1 Hst)|]. destruct Hst as [_ C]. destruct qs as [|q qs]; [done|].
    exists (M_write (seqZ 3 33) :: p1 :: st), (q :: qs), out. split; [done|]. split; [|cbn [total foldr rank]; rewrite length_seqZ; lia].
    exists T. split; [|done]. split; [|done]. split; [rewrite length_seqZ; lia|]. apply Forall_forall. intros n Hn%elem_of_seqZ. lia.
  - right. destruct Hm as [Hl Hf]. destruct l as [|n l]; [cbn in Hl; lia|]. destruct st as [|p1 st]; [discriminate (proj1 Hst)|].
    destruct Hst as [_ C]. destruct qs as [|q qs]; [done|].
    destruct (chain_listens _ _ _ _ _ _ C) as (p1' & st' & [= <- <-] & Hp & Hlen).
    exists (writing l :: p1 :: st), ((q ++ [n]) :: qs), out. split; [by apply step_M_write|]. apply Forall_cons in Hf as [_ Hf].
    cbn [length] in Hl. split; [|destruct l; cbn [total foldr rank writing length] in *; lia].
    exists T. split; [|done]. destruct l as [|n' l].
    + split; [done|]. split; [done|by apply chain_shift].
    + split; [split; [cbn [length] in *; lia|done]|]. split; [done|by apply chain_shift].
  - right. destruct st as [|p1 st]; [discriminate (proj1 Hst)|]. destruct Hst as [_ C]. destruct qs as [|q qs]; [done|].
    exists (Waiting :: p1 :: st), (q :: qs), out. split; [done|]. split; [|cbn [total foldr rank]; lia].
    exists T. split; [|done]. split; [done|]. split; [done|]. by apply chain_close.
  - destruct st as [|p1 st]; [discriminate (proj1 Hst)|]. destruct Hst as [_ C]. destruct qs as [|q qs]; [done|].
    destruct (is_dead p1) eqn:Ed.
    + right. destruct p1 as [| | | | | | | | | | | | | | | |hr|]; try done.
      exists (Exiting true :: Gone hr :: st), (q :: qs), out. split; [exact (step_wait [] (q :: qs) out hr st)|].
      split; [|cbn [total foldr rank]; lia]. exists T. split; [|done]. split; [done|]. split; [done|].
      destruct C as [[R1 R2 R3 R4] H]. split; [|done]. split; [done|done| |done]. by destruct R3.
    + left. split; [right; split; [done|]; by intros ? [= <-]|].
      apply (step_wait_blocked [] (q :: qs) out p1 st); [done|]. apply chain_first in C as [_ _ _ G].
      destruct (is_gone p1); [|done]. by destruct G as [_ G]; discriminate G.
  - right. cbn in Hm. subst hr. destruct st as [|p1 st]; [discriminate (proj1 Hst)|]. destruct Hst as [_ C]. destruct qs as [|q qs]; [done|].
    exists (Dead true :: p1 :: st), (q :: qs), out. split; [|split; [|cbn [total foldr rank]; lia]].
    + apply (step_exit [] (q :: qs) out true (p1 :: st)). intros x [= <-]. apply chain_first in C as [_ _ _ G]. by apply G.
    + exists T. done.
  - left. by split; [left|].
Qed.

Lemma good_step st qs out i s' : good st qs out -> pstep i (conc st qs out) = Some s' ->
  exists st' qs' out', s' = conc st' qs' out' /\ good st' qs' out' /\ (total st < total st')%nat.
Proof.
  intros G E. destruct st as [|p st]; [by destruct G as (T & [] & _)|]. destruct i as [|j].
  - destruct (main_step p st qs out G) as [[_ E']|(st' & qs' & out' & E' & R)]; [congruence|]. exists st', qs', out'. split; [congruence|done].
  - destruct (st !! j) as [pt|] eqn:Hj.
    + destruct (other_step p st qs out j pt G Hj) as (prev & q & post & [(_ & E' & _)|(st' & qs' & out' & E' & R)]); [congruence|].
      exists (p :: st'), qs', out'. split; [congruence|done].
    + unfold pstep in E. cbn [conc po_procs] in E. rewrite list_lookup_imap in E.
      change ((p :: st) !! S j) with (st !! j) in E. by rewrite Hj in E.
Qed.

(** ** Deadlock is impossible *)

Lemma system_stage p st qs T j b : system (p :: st) qs T -> st !! j = Some b ->
  exists a q Y post qs2, (p :: st) !! j = Some a /\ chain (S j) (link_of a) q Y (b :: post) qs2 T /\ drop (S j) st = post.
Proof.
  intros [_ Hst] Hj. destruct st as [|p1 st]; [done|]. destruct Hst as [Hr C]. destruct qs as [|q qs]; [done|].
  destruct (chain_at _ _ _ _ _ _ _ _ _ C Hj) as (pre & post & qs1 & q' & qs2 & prev' & Y' & E1 & L1 & E2 & L2 & C2 & Hp & _).
  assert (Hl : exists a, (p :: pre) !! j = Some a /\ prev' = link_of a).
  { subst j. destruct pre as [|p2 pre']; [exists p; by destruct Hp as [-> _]|]. rewrite last_lookup in Hp. cbn [length Init.Nat.pred] in Hp.
    destruct (lookup_lt_is_Some_2 (p2 :: pre') (length pre')) as [a Ha]; [cbn; lia|]. rewrite Ha in Hp. exists a. split; [exact Ha|by destruct Hp]. }
  destruct Hl as (a & Ha & ->). exists a, q', Y', post, qs2. rewrite E1. split; [|split; [exact C2|]].
  - change (p :: pre ++ b :: post) with ((p :: pre) ++ b :: post). by apply lookup_app_l_Some.
  - rewrite drop_app_ge by lia. by replace (S j - length pre)%nat with 1%nat by lia.
Qed.
Lemma few_processes p st qs T : system (p :: st) qs T -> (length st <= 11)%nat.
Proof.
  intros Hs. destruct (decide (length st <= 11)%nat) as [|Hl]; [done|].
  destruct (lookup_lt_is_Some_2 st 11) as [b Hb]; [lia|].
  destruct (system_stage _ _ _ _ _ _ Hs Hb) as (a & q & Y & post & qs2 & _ & [S1 _ _ _]%chain_first & _). lia.
Qed.
Lemma gone_next p st qs T j a b : system (p :: st) qs T -> (p :: st) !! j = Some a -> st !! j = Some b ->
  link_of a = Ended <-> is_gone b = true.
Proof.
  intros Hs Ha Hb. destruct (system_stage _ _ _ _ _ _ Hs Hb) as (a' & q & Y & post & qs2 & Ha' & [_ _ _ S4]%chain_first & _).
  rewrite Ha in Ha'. by injection Ha' as <-.
Qed.

(** When no process can go on, all have ended. *)
Lemma all_ended p st qs out : good (p :: st) qs out -> (forall i, pstep i (conc (p :: st) qs out) = None) ->
  p = Dead true /\ Forall (fun pt => is_gone pt = true) st.
Proof.
  intros G Hno. pose proof G as (T & Hs & HT).
  assert (Hmain : main_stuck p st).
  { destruct (main_step p st qs out G) as [[H _]|(? & ? & ? & E & _)]; [done|]. by rewrite Hno in E. }
  assert (Hother : forall j b, st !! j = Some b -> live b = false \/ (b = Waiting /\ forall p1, st !! S j = Some p1 -> is_dead p1 = false) \/
    exists a, (p :: st) !! j = Some a /\ link_of a = Sends).
  { intros j b Hb. destruct (other_step p st qs out j b G Hb) as (prev & q & post & [(H & _ & Hp & Hl)|(? & ? & ? & E & _)]); [|by rewrite Hno in E].
    destruct H as [(H & _)|[[-> H]|H]]; [right; right; by apply Hl|right; left|by left]. split; [done|]. intros p1 Hp1. apply H. by apply Hp. }
  destruct Hmain as [Hd|[-> Hh]].
  - assert (Hp : p = Dead true). { destruct Hs as [Hm _]. destruct p as [| | | | | | | | | | | | | | | |hr|]; try done. cbn in Hm. by subst. }
    split; [done|]. apply Forall_lookup. intros j. induction j as [|j IH]; intros b Hb.
    + apply (gone_next _ _ _ _ 0 p b Hs); [done|done|by subst].
    + destruct (lookup_lt_is_Some_2 st j) as [a Ha]; [apply lookup_lt_Some in Hb; lia|].
      apply (gone_next _ _ _ _ (S j) a b Hs); [done|done|]. specialize (IH a Ha). by destruct a.
  - exfalso. assert (HW : forall j, (j <= length st)%nat -> (Waiting :: st) !! j = Some Waiting /\ forall b, st !! j = Some b -> is_dead b = false).
    { induction j as [|j IH]; intros Hj.
      - split; [done|]. intros b Hb. apply Hh. by destruct st.
      - destruct IH as [Hw Hn]; [lia|]. destruct (lookup_lt_is_Some_2 st j) as [b Hb]; [lia|]. specialize (Hn b Hb).
        pose proof (gone_next _ _ _ _ j Waiting b Hs Hw Hb) as Hg. change ((Waiting :: st) !! S j) with (st !! j). rewrite Hb.
        destruct (Hother j b Hb) as [Hl|[[-> H]|(a & Ha & Hl)]]; [|done|].
        + exfalso. destruct b; try done. by destruct Hg as [_ Hg]; specialize (Hg eq_refl).
        + rewrite Hw in Ha. by injection Ha as <-. }
    destruct st as [|p1 st]; [by destruct Hs as (_ & ? & _)|].
    destruct (HW (length (p1 :: st)) ltac:(lia)) as [Hw _]. change ((Waiting :: p1 :: st) !! length (p1 :: st)) with ((p1 :: st) !! length st) in Hw.
    destruct (system_stage _ _ _ _ _ _ Hs Hw) as (a & q & Y & post & qs2 & _ & C & Hpost).
    rewrite drop_ge in Hpost by (cbn; lia). subst post. by destruct C as (_ & ? & _).
Qed.

(** The output is then complete. *)
Lemma all_printed p st qs out : good (p :: st) qs out -> p = Dead true -> Forall (fun pt => is_gone pt = true) st ->
  out = all_lines /\ length st = 11%nat.
Proof.
  intros (T & Hs & HT) -> Hg. destruct st as [|p1 st]; [by destruct Hs as (_ & ? & _)|].
  destruct (lookup_lt_is_Some_2 (p1 :: st) (length st)) as [b Hb]; [cbn; lia|].
  destruct (system_stage _ _ _ _ _ _ Hs Hb) as (a & q & Y & post & qs2 & _ & C & Hpost).
  rewrite drop_ge in Hpost by (cbn; lia). subst post. destruct C as [[S1 S2 S3 S4] (_ & _ & H2 & H3)].
  rewrite Forall_lookup in Hg. specialize (Hg _ _ Hb). destruct b; try done. destruct S3 as [S3 _]. rewrite S3 in H2.
  assert (Hk : S (length st) = 11%nat) by (by apply stream_end). split; [|done].
  rewrite H3, Hk in HT. change (unprinted 11 (Gone hr) ++ concat (line <$> drop 11 ps)) with (@nil Z) in HT. by rewrite app_nil_r in HT.
Qed.

(** ** The theorem *)

Definition expected : list Z := concat ((fun p => bytes "prime " ++ bytes (pretty p) ++ [10]) <$> primes_below 36).
Lemma expected_eq : all_lines = expected.
Proof. by vm_compute. Qed.

Lemma good_steps n st qs out s : nsteps step n (conc st qs out) s -> good st qs out ->
  exists st' qs' out', s = conc st' qs' out' /\ good st' qs' out' /\ (n + total st <= total st')%nat.
Proof.
  intros Hn. remember (conc st qs out) as s0 eqn:E0. revert st qs out E0. induction Hn as [s0|n s0 s1 s2 [i E] Hn IH]; intros st qs out -> G.
  - by exists st, qs, out.
  - destruct (good_step _ _ _ _ _ G E) as (st1 & qs1 & out1 & -> & G1 & Ht).
    destruct (IH _ _ _ eq_refl G1) as (st2 & qs2 & out2 & -> & G2 & Ht2). exists st2, qs2, out2. split; [done|]. split; [done|lia].
Qed.
Lemma good_start : good [M_pipe] [] [].
Proof. by exists all_lines. Qed.
Lemma total_max st : (total st <= 378 * length st)%nat.
Proof. induction st as [|pt st IH]; [done|]. pose proof (rank_max pt). cbn [total foldr length]. fold (total st). lia. Qed.

(** Either some process can go on or none can. *)
Lemma step_or_not s : (exists s', step s s') \/ forall i, pstep i s = None.
Proof.
  destruct (decide (Forall (fun i => pstep i s = None) (seq 0 (length (po_procs s))))) as [H|H].
  - right. intros i. destruct (decide (i < length (po_procs s))%nat) as [Hi|Hi].
    + rewrite Forall_forall in H. apply H, elem_of_seq. lia.
    + unfold pstep. by rewrite lookup_ge_None_2 by lia.
  - left. apply not_Forall_Exists in H; [|apply _]. apply Exists_exists in H as (i & _ & Hi). destruct (pstep i s) as [s'|] eqn:E; [|done].
    by exists s', i.
Qed.
Lemma imap_gone st : Forall (fun pt => is_gone pt = true) st -> forall k, imap (fun i => proc (k + i)) st = replicate (length st) Reaped.
Proof.
  induction 1 as [|pt st Hpt Hst IH]; intros k; [done|]. cbn [imap length replicate]. f_equal; [by destruct pt|].
  rewrite <- (IH (S k)). apply imap_ext. intros i x _. cbn. by rewrite Nat.add_succ_r.
Qed.

(** C11: primes, with its twelve processes in any order of their system calls: at any time
    the output is a beginning of the lines "prime p" for the primes p below 36, in
    order; some process can go on unless all have ended, and then the output is
    complete and every process but main has been waited for; no run is longer than
    4536 calls. *)
Theorem primes_correct n s : nsteps step n (started_with (primes_main 36 11)) s ->
  po_out s `prefix_of` expected /\ (n <= 4536)%nat /\
  ((exists s', step s s') \/ (po_out s = expected /\ po_procs s = Zombie None 0 :: replicate 11 Reaped)).
Proof.
  intros Hn. rewrite <- conc_start in Hn. destruct (good_steps _ _ _ _ _ Hn good_start) as (st & qs & out & -> & G & Ht).
  destruct st as [|p st]; [by destruct G as (T & [] & _)|]. pose proof G as (T & Hs & HT). split_and!.
  - exists T. cbn [conc po_out]. by rewrite <- expected_eq, HT.
  - pose proof (few_processes _ _ _ _ Hs). pose proof (total_max (p :: st)) as Hm. cbn [length] in Hm. lia.
  - destruct (step_or_not (conc (p :: st) qs out)) as [H|H]; [by left|right].
    destruct (all_ended p st qs out G H) as [-> Hg]. destruct (all_printed _ _ _ _ G eq_refl Hg) as [-> Hl].
    cbn [conc po_out po_procs imap]. split; [apply expected_eq|]. f_equal. rewrite <- Hl. apply (imap_gone st Hg 1).
Qed.

(** *** A run *)

Lemma first_step_step fuel i s s' : first_step fuel i s = Some s' -> step s s'.
Proof.
  revert i. induction fuel as [|f IH]; intros i; cbn [first_step]; [done|]. destruct (pstep i s) as [s1|] eqn:E; [|apply IH].
  intros [= <-]. by exists i.
Qed.
Lemma run_pool_steps fuel s : nsteps step (run_pool fuel s).1 s (run_pool fuel s).2.
Proof.
  revert s. induction fuel as [|f IH]; intros s; cbn [run_pool]; [constructor|].
  destruct (first_step _ 0 s) as [s1|] eqn:E; [|constructor]. specialize (IH s1). destruct (run_pool f s1) as [n r]. cbn in *.
  econstructor; [by eapply first_step_step|done].
Qed.
Lemma primes_correct_witness : exists n s, n = 389%nat /\ nsteps step n (started_with (primes_main 36 11)) s /\
  po_out s `prefix_of` expected /\ (n <= 4536)%nat /\
  ((exists s', step s s') \/ (po_out s = expected /\ po_procs s = Zombie None 0 :: replicate 11 Reaped)).
Proof.
  exists (run_pool 400 (started_with (primes_main 36 11))).1, (run_pool 400 (started_with (primes_main 36 11))).2.
  split; [vm_compute; reflexivity|]. pose proof (run_pool_steps 400 (started_with (primes_main 36 11))) as Hn.
  split; [exact Hn|]. exact (primes_correct _ _ Hn).
Defined.
