(* ===== verification/FindSpec.v ===== *)
(** * What find prints

    On a machine whose file system contains a tree of directories at some path, find
    prints the paths of exactly those files of the tree whose name is the target, in
    the order of the directories, and leaves the descriptors as they were. *)
From stdpp Require Import prelude gmap strings.
From Stdlib Require Import ZArith Lia.
From S2P Require Import Prelude Memory CString Bytes User Ulib Uprintf Progs ProgsSpec.
Import User Uprintf Find.
Open Scope Z_scope.

(** ** Trees of files *)

(** A directory is a list of entries of 16 bytes, each with the file it stands for
    (which does not matter for an entry that is not in use). *)
Inductive tree :=
| TFile (ino : Z) (data : list Z)
| TDev (ino : Z)
| TDir (ino : Z) (items : list (list Z * tree)).

Definition node_of (t : tree) : node :=
  match t with
  | TFile ino data => NFile ino data
  | TDev ino => NDev ino
  | TDir ino items => NDir ino (concat (fst <$> items))
  end.

(** Entries that find passes over: not in use, or the directory itself or its parent. *)
Definition skipped (de : list Z) : bool :=
  (de_inum de =? 0) || bool_decide (cstr (de_name de) = [46]) || bool_decide (cstr (de_name de) = [46; 46]).
Definition below (path de : list Z) : list Z := path ++ [47] ++ cstr (de_name de).

(** The paths that should be printed. *)
Fixpoint found (target : list Z) (t : tree) (path : list Z) : list (list Z) :=
  match t with
  | TFile _ _ => if bool_decide (basename path = target) then [path] else []
  | TDev _ => []
  | TDir _ items => concat (map (fun x => match x with (de, t') => if skipped de then [] else found target t' (below path de) end) items)
  end.

(** The tree is in the file system at [path], and no path is too long for find. *)
Fixpoint stored (resolve : list Z -> option node) (t : tree) (path : list Z) : Prop :=
  resolve path = Some (node_of t) /\ Forall (fun c => 0 < c < 256) path /\
  match t with
  | TDir _ items =>
      path_too_long path = false /\
      fold_right (fun x P => match x with (de, t') =>
        (length de = 16%nat /\ (skipped de = false -> stored resolve t' (below path de))) /\ P end) True items
  | _ => True
  end.

(** The nesting of directories, which is the number of descriptors find needs. *)
Fixpoint height (t : tree) : nat :=
  match t with
  | TDir _ items => S (fold_right (fun x n => match x with (_, t') => Nat.max (height t') n end) 0%nat items)
  | _ => 1%nat
  end.
(** Rounds and calls: more than the entries of any directory, and than the depth. *)
Fixpoint rounds (t : tree) : nat :=
  match t with
  | TDir _ items => S (Nat.max (length items) (fold_right (fun x n => match x with (_, t') => Nat.max (rounds t') n end) 0%nat items))
  | _ => 1%nat
  end.

(** ** Descriptors *)

Fixpoint free_fds {A} (l : list (option A)) : nat :=
  match l with [] => 0%nat | None :: l' => S (free_fds l') | Some _ :: l' => free_fds l' end.

Lemma free_lowest {A} (l : list (option A)) : (0 < free_fds l)%nat -> exists i, lowest l = Some i.
Proof.
  induction l as [|[x|] l IH]; cbn [free_fds lowest]; intros H; [lia| |by exists O].
  destruct (IH H) as [i ->]. by exists (S i).
Qed.
Lemma free_insert {A} (l : list (option A)) i x : l !! i = Some None -> free_fds l = S (free_fds (<[i := Some x]> l)).
Proof.
  revert i. induction l as [|y l IH]; intros [|i] H; [done..| |].
  - injection H as ->. done.
  - specialize (IH i H). change (<[S i := Some x]> (y :: l)) with (y :: <[i := Some x]> l). destruct y; cbn [free_fds]; lia.
Qed.
Lemma free_same {A} (l : list (option A)) i x y : free_fds (<[i := Some x]> l) = free_fds (<[i := Some y]> l).
Proof.
  revert i. induction l as [|z l IH]; intros [|i]; [done..|].
  change (free_fds (z :: <[i := Some x]> l) = free_fds (z :: <[i := Some y]> l)). destruct z; cbn [free_fds]; by rewrite (IH i).
Qed.

(** ** Names *)

Lemma fmtname_basename path : Forall (fun c => c <> 0) path -> fmtname path = basename path.
Proof.
  intros Hp. unfold fmtname. set (p := basename path). destruct (Nat.leb DIRSIZ (length p)); [done|].
  assert (Hb : Forall (fun c => c <> 0) p).
  { unfold p, basename. apply Forall_rev. apply Forall_rev in Hp. induction Hp as [|c l Hc Hl IH]; [constructor|]. destruct (c =? 47); [constructor|by constructor]. }
  assert (Hz : forall q l, Forall (fun c => c <> 0) q -> cstr (q ++ 0 :: l) = q).
  { intros q l Hq. induction Hq as [|c q Hc Hq IH]; cbn; [done|]. by rewrite (proj2 (Z.eqb_neq c 0)), IH. }
  destruct (DIRSIZ - length p)%nat as [|n]; cbn [repeat app]; by apply Hz.
Qed.

(** ** find *)

Section Find.
Context (resolve : list Z -> option node) (chop : list Z -> Z -> nat) (target : list Z).
Abbreviation go := (run resolve chop).

(** What a tree makes find print. *)
Definition listing (t : tree) (path : list Z) : list Z := concat ((.++ [10]) <$> found target t path).
Definition listings (items : list (list Z * tree)) (path : list Z) : list Z :=
  concat (map (fun x => match x with (de, t') => if skipped de then [] else listing t' (below path de) end) items).

Lemma listing_dir ino items path : listing (TDir ino items) path = listings items path.
Proof.
  unfold listing, listings. cbn [found]. induction items as [|[de t] items IH]; [done|]. cbn [map concat]. rewrite fmap_app, concat_app, IH.
  f_equal. by destruct (skipped de).
Qed.

(** The recursive call does what it should for the trees that are left. *)
Definition rec_ok (rec : list Z -> U ()) (n : nat) (t : tree) (path : list Z) : Prop :=
  forall m, is_open m 1 -> (n <= free_fds (m_fds m))%nat ->
    exists m', go (rec path) m = (Done (), m') /\ wrote 1 (listing t path) m m'.

Lemma find_entry_step rec n path i nd rest de t m :
  m_fds m !! i = Some (Some (Ofile nd (de ++ rest))) -> (forall ino data, nd <> NFile ino data) -> length de = 16%nat ->
  is_open m 1 -> i <> 1%nat -> (n <= free_fds (m_fds m))%nat ->
  (skipped de = false -> rec_ok rec n t (below path de)) ->
  exists m', go (find_body rec path (Z.of_nat i) ()) m = (Done (inl ()), m') /\
    m_fds m' = <[i := Some (Ofile nd rest)]> (m_fds m) /\
    forall fd, output fd m' = output fd m ++ (if decide (fd = 1) then (if skipped de then [] else listing t (below path de)) else []).
Proof.
  intros Hi Hnd Hlen Ho Hne Hfree Hrec. unfold find_body. rewrite run_bind, (run_read _ _ _ _ _ _ Hi). cbn [of_rest of_node].
  assert (Ha : amount chop (Ofile nd (de ++ rest)) sizeof_dirent = 16%nat).
  { unfold amount. cbn [of_node of_rest]. destruct nd as [ino data|ino data|ino]; [by destruct (Hnd ino data)|..];
      (change (Z.to_nat sizeof_dirent) with 16%nat; rewrite length_app; lia). }
  rewrite Ha, take_app_le, drop_app_le by lia. rewrite take_ge, drop_ge by lia. cbn [app]. rewrite Hlen.
  change (negb (Z.of_nat 16 =? sizeof_dirent)) with false. cbn iota. set (m1 := Machine _ (m_out m)).
  assert (Hskip : forall fd, output fd m1 = output fd m ++ (if decide (fd = 1) then [] else [])).
  { intros fd. case_decide; by rewrite app_nil_r. }
  unfold skipped in *. destruct (de_inum de =? 0); [by exists m1|]. do 2 (case_bool_decide; [by exists m1|]). cbn [orb] in *.
  destruct (Hrec eq_refl m1) as (m2 & E & F & O).
  { apply insert_open; [by destruct m|done]. }
  { cbn [m_fds m1]. rewrite (free_same (m_fds m) i _ (Ofile nd (de ++ rest))), (list_insert_id (m_fds m)) by done. done. }
  exists m2. change (path ++ 47 :: cstr (de_name de)) with (below path de). rewrite run_bind, E. split_and!; [done|by rewrite F|]. intros fd. by rewrite O.
Qed.

Lemma find_entries rec n path i nd : forall items fuel m,
  m_fds m !! i = Some (Some (Ofile nd (concat (fst <$> items)))) -> (forall ino data, nd <> NFile ino data) ->
  is_open m 1 -> i <> 1%nat -> (n <= free_fds (m_fds m))%nat -> (length items < fuel)%nat ->
  Forall (fun x => length x.1 = 16%nat /\ (skipped x.1 = false -> rec_ok rec n x.2 (below path x.1))) items ->
  exists m' f, go (uloop fuel (find_body rec path (Z.of_nat i)) ()) m = (Done (), m') /\
    m_fds m' = <[i := Some f]> (m_fds m) /\
    forall fd, output fd m' = output fd m ++ (if decide (fd = 1) then listings items path else []).
Proof.
  induction items as [|[de t] items IH]; intros fuel m Hi Hnd Ho Hne Hfree Hf Hall; (destruct fuel as [|fuel]; [cbn in Hf; lia|]).
  - eexists _, _. split; [|split].
    + apply run_last. unfold find_body. rewrite run_bind, (run_read _ _ _ _ _ _ Hi). cbn [of_rest fmap list_fmap concat].
      rewrite take_nil. cbn [length]. change (negb (Z.of_nat 0 =? sizeof_dirent)) with true. cbn iota. done.
    + done.
    + intros fd. case_decide; cbn [listings map concat]; rewrite app_nil_r; done.
  - apply Forall_cons in Hall as [[Hlen Hrec] Hall]. cbn [fst snd fmap list_fmap concat length] in *.
    destruct (find_entry_step rec n path i nd _ de t m Hi Hnd Hlen Ho Hne Hfree Hrec) as (m1 & E1 & F1 & O1).
    pose proof (lookup_lt_Some _ _ _ Hi) as Hlt.
    destruct (IH fuel m1) as (m2 & f & E2 & F2 & O2); try done; [| | |lia|].
    + rewrite F1. by apply list_lookup_insert_eq.
    + destruct m1 as [fds1 out1], m as [fds out]. cbn [m_fds] in *. subst. by apply insert_open.
    + rewrite F1, (free_same (m_fds m) i _ (Ofile nd (de ++ concat (fst <$> items)))), (list_insert_id (m_fds m)) by done. done.
    + exists m2, f. split_and!; [by rewrite (run_next _ _ _ _ _ _ _ _ E1)|by rewrite F2, F1, list_insert_insert_eq|].
      intros fd. rewrite O2, O1, <- app_assoc. f_equal. case_decide; [|done]. done.
Qed.

Lemma fold_max_in {B} (f : B -> nat) (l : list (list Z * B)) x :
  x ∈ l -> (f x.2 <= fold_right (fun x n => match x with (_, t') => Nat.max (f t') n end) 0 l)%nat.
Proof. intros H. induction H as [[de t] l|y [de t] l H IH]; cbn [fold_right snd]; lia. Qed.
Lemma stored_items items path :
  fold_right (fun x P => match x with (de, t') => (length de = 16%nat /\ (skipped de = false -> stored resolve t' (below path de))) /\ P end) True items <->
  Forall (fun x => length x.1 = 16%nat /\ (skipped x.1 = false -> stored resolve x.2 (below path x.1))) items.
Proof. induction items as [|[de t] items IH]; cbn [fold_right]; [done|]. by rewrite Forall_cons, IH. Qed.

(** The part of find between opening the file and closing it. *)
Lemma find_middle f t path i m : stored resolve t path -> (rounds t <= S f)%nat -> m_fds m !! i = Some (Some (Ofile (node_of t) (node_data (node_of t)))) ->
  is_open m 1 -> i <> 1%nat -> (height t <= S (free_fds (m_fds m)))%nat ->
  (forall t' path', stored resolve t' path' -> (rounds t' <= f)%nat -> rec_ok (fun p => find f p target) (height t') t' path') ->
  exists m' f', go (if st_type (node_stat (node_of t)) =? T_DIR then
               if path_too_long path then printf (nl "find: path too long") []
               else uloop (S f) (find_body (fun p => find f p target) path (Z.of_nat i)) ()
             else if st_type (node_stat (node_of t)) =? T_FILE then
               if bool_decide (fmtname path = target) then printf (nl "%s") [A_str (Some path)] else Ret ()
             else Ret ()) m = (Done (), m') /\ m_fds m' = <[i := Some f']> (m_fds m) /\
    forall fd, output fd m' = output fd m ++ (if decide (fd = 1) then listing t path else []).
Proof.
  intros Hst Hr Hi Ho Hne Hfree IH. destruct t as [ino data|ino|ino items]; cbn [node_of node_stat st_type].
  - change (T_FILE =? T_DIR) with false. change (T_FILE =? T_FILE) with true. cbn iota. destruct Hst as (_ & Hp & _).
    rewrite fmtname_basename by (eapply Forall_impl; [exact Hp|cbn; lia]). unfold listing. cbn [found].
    exists (if bool_decide (basename path = target) then said 1 (path ++ [10]) m else m), (Ofile (NFile ino data) data).
    case_bool_decide as E.
    + split_and!; [|by rewrite list_insert_id|intros fd; rewrite output_said; f_equal; case_decide; [|done]; cbn; by rewrite app_nil_r].
      change (nl "%s") with ([] ++ [37; 115] ++ [10]). change (path ++ [10]) with ([] ++ path ++ [10]).
      apply prints_string; [by apply not_elem_of_nil|by apply (bool_decide_eq_true_1 (37 ∉ _))|done|by apply Forall_singleton| |done].
      eapply Forall_impl; [exact Hp|cbn; lia].
    + split_and!; [done|by rewrite list_insert_id|]. intros fd. case_decide; by rewrite app_nil_r.
  - change (T_DEVICE =? T_DIR) with false. change (T_DEVICE =? T_FILE) with false. cbn iota.
    exists m, (Ofile (NDev ino) []). split_and!; [done|by rewrite list_insert_id|]. intros fd. case_decide; by rewrite app_nil_r.
  - change (T_DIR =? T_DIR) with true. cbn iota. destruct Hst as (_ & _ & Hlong & Hits%stored_items). rewrite Hlong.
    cbn [rounds height] in Hr, Hfree.
    destruct (find_entries (fun p => find f p target) (free_fds (m_fds m)) path i (NDir ino (concat (fst <$> items))) items (S f) m)
      as (m' & f' & E & F & O); try done; [lia| |].
    + rewrite Forall_forall in Hits |- *. intros x Hx. destruct (Hits x Hx) as [Hlen Hsub]. split; [done|]. intros Hs m0 Ho0 Hf0.
      pose proof (fold_max_in height items x Hx). pose proof (fold_max_in rounds items x Hx).
      apply (IH x.2 (below path x.1) (Hsub Hs)); [lia|done|lia].
    + exists m', f'. split_and!; [done|done|]. intros fd. by rewrite O, listing_dir.
Qed.

Lemma find_ok fuel : forall t path, stored resolve t path -> (rounds t <= fuel)%nat ->
  rec_ok (fun p => find fuel p target) (height t) t path.
Proof.
  induction fuel as [|f IH]; intros t path Hst Hr m Ho Hfree; [destruct t; cbn in Hr; lia|].
  assert (Hh : (1 <= height t)%nat) by (destruct t; cbn; lia). assert (Hres : resolve path = Some (node_of t)) by (destruct t; apply Hst).
  destruct (free_lowest (m_fds m) ltac:(lia)) as [i Hl]. pose proof (lowest_not_1 m i Hl Ho) as Hne. pose proof (ulowest_spec _ _ Hl) as Hi.
  pose proof (lookup_lt_Some _ _ _ Hi) as Hlt. cbn [find]. rewrite run_bind, (run_open _ _ _ _ _ _ _ Hres Hl).
  rewrite (proj2 (Z.ltb_ge (Z.of_nat i) 0)) by lia. set (m1 := Machine _ (m_out m)).
  assert (Hi1 : m_fds m1 !! i = Some (Some (Ofile (node_of t) (node_data (node_of t))))) by (by apply list_lookup_insert_eq).
  assert (Est : go (ufstat (Z.of_nat i)) m1 = (Done (Some (node_stat (node_of t))), m1)).
  { cbn. unfold fd_of. rewrite (proj2 (Z.ltb_ge (Z.of_nat i) 0)), Nat2Z.id, Hi1 by lia. done. }
  rewrite run_bind, Est, run_bind.
  destruct (find_middle f t path i m1) as (m2 & f2 & E & F & O); try done; [apply insert_open; [by destruct m|done]| |].
  { cbn [m_fds m1]. rewrite <- (free_insert (m_fds m) i) by done. done. }
  rewrite E, run_bind. rewrite (run_close _ _ i f2 m2) by (rewrite F; apply list_lookup_insert_eq; cbn [m_fds m1]; by rewrite length_insert).
  eexists. split; [done|]. split; [|exact O]. cbn [m_fds]. rewrite F. cbn [m_fds m1]. rewrite !list_insert_insert_eq. by apply list_insert_id.
Qed.

(** C34: On a tree in the file system, with a free descriptor for each level of nesting,
    find prints the path of every file of the tree with the target's name and nothing
    else, each on a line of its own, and it ends with the descriptors it had. *)
Theorem find_correct fuel t path m : stored resolve t path -> (rounds t <= fuel)%nat -> is_open m 1 ->
  (height t <= free_fds (m_fds m))%nat ->
  exists m', go (find fuel path target) m = (Done (), m') /\ wrote 1 (concat ((.++ [10]) <$> found target t path)) m m'.
Proof. intros Hst Hr Ho Hf. by apply (find_ok fuel t path Hst Hr m Ho Hf). Qed.
End Find.

(** A directory with itself, an unused entry, a file a and a directory d that has a file a. *)
Definition dirent (ino : Z) (name : list Z) : list Z := bytes_of 2 ino ++ take 14 (name ++ repeat 0 14).
Definition sub_tree : tree := TDir 4 [(dirent 5 [97], TFile 5 [])].
Definition demo_tree : tree :=
  TDir 1 [(dirent 1 [46], TDev 0); (dirent 0 [120], TDev 0); (dirent 3 [97], TFile 3 [1; 2]); (dirent 4 [100], sub_tree)].
Definition demo_resolve (path : list Z) : option node :=
  if bool_decide (path = bytes ".") then Some (node_of demo_tree)
  else if bool_decide (path = bytes "./a") then Some (NFile 3 [1; 2])
  else if bool_decide (path = bytes "./d") then Some (node_of sub_tree)
  else if bool_decide (path = bytes "./d/a") then Some (NFile 5 [])
  else None.
Definition roomy_machine : machine :=
  Machine (Some (Ofile (NDev 1) []) :: Some (Ofile (NDev 1) []) :: Some (Ofile (NDev 1) []) :: repeat None 13) [].

Lemma demo_paths s : Forall (fun c => 0 <= c < 256) (bytes s) -> 0 ∉ bytes s -> Forall (fun c => 0 < c < 256) (bytes s).
Proof.
  intros H Hz. apply Forall_forall. intros c Hc. rewrite Forall_forall in H. specialize (H c Hc).
  assert (c <> 0) by (intros ->; done). lia.
Qed.

Lemma demo_stored : stored demo_resolve demo_tree (bytes ".").
Proof.
  assert (Hp : forall s, bool_decide (0 ∉ bytes s) = true -> Forall (fun c => 0 < c < 256) (bytes s)).
  { intros s H. apply demo_paths; [apply bytes_range|by apply bool_decide_eq_true_1 in H]. }
  split; [done|]. split; [by apply Hp|]. split; [done|]. cbn [fold_right]. split_and!; try done.
  - intros _. change (below (bytes ".") (dirent 3 [97])) with (bytes "./a"). split; [done|]. split; [by apply Hp|done].
  - intros _. change (below (bytes ".") (dirent 4 [100])) with (bytes "./d"). split; [done|]. split; [by apply Hp|]. split; [done|].
    cbn [fold_right]. split_and!; try done. intros _. change (below (bytes "./d") (dirent 5 [97])) with (bytes "./d/a").
    split; [done|]. split; [by apply Hp|done].
Qed.

Lemma find_correct_witness : found (bytes "a") demo_tree (bytes ".") = [bytes "./a"; bytes "./d/a"] /\
  exists m', run demo_resolve byte_by_byte (find 10 (bytes ".") (bytes "a")) roomy_machine = (Done (), m') /\
    wrote 1 (concat ((.++ [10]) <$> found (bytes "a") demo_tree (bytes "."))) roomy_machine m'.
Proof.
  split; [done|]. apply (find_correct demo_resolve byte_by_byte (bytes "a") 10 demo_tree (bytes ".") roomy_machine).
  - apply demo_stored.
  - cbn. lia.
  - by eexists.
  - cbn. lia.
Defined.
